(* ===== verification/_CoqProject ===== *)
-Q . S2P
Prelude.v
CFloat.v
FloatError.v
Types.v
MathUtils.v
Quantise.v
PackHelper.v
StatusCache.v
MotorLog.v
Motor.v
MotorControl.v
MotorParameter.v
FakeProtocol.v
RelayFrame.v
EthernetProtocol.v
Slcan.v
UsbSerial.v
Port.v
Devices.v
SyncQueue.v
OperationGate.v
Registry.v
DriverManager.v
ManagerTables.v
ManagerLifetime.v
LifetimeInvariant.v
LifetimeSafety.v
ManagerDispatch.v
ManagerRefinement.v
BusWorld.v
BusScan.v
SetIdManager.v
AdapterStatus.v
BusReset.v
FakeAdapter.v
FakeLoop.v
FakeTyping.v
FakeStatus.v
EthercatBase.v
EthercatQueue.v
EthercatHandle.v
AdapterExtend.v
CText.v
BusTiming.v
GsUsbProtocol.v
GsUsbAdapter.v
RelayAdapter.v
RelaySession.v
EthernetAdapter.v
EthernetManagement.v
CanHandle.v
CanSetup.v
