(* ===== verification/Prelude.v ===== *)
(** * encos_driver: a verification library for the EncosTech motor driver

    The driver talks to joint motors and other CAN devices of a robot through
    interchangeable adapters.  A user command goes

      device (src/device)  ->  bus (src/bus)  ->  adapter (src/adapter, plugins/adapter)  ->  wire

    and a received frame goes back from the adapter's protocol decoder to the
    device's [OnMessage], which updates a cached status and wakes a waiting
    command.  Lock-free mailboxes ([utils::Port]) carry messages between threads,
    and a gate and registry (src/operation_gate.h) keep objects alive while
    operations are inside them.

    ** Files and the code they model

    - [Prelude]: machine integers as [Z] with explicit wrap-around, bytes, bit
      arithmetic, the [cint] hint database and the tactics [bits_arith],
      [cint_solve] and [bytes_ok].  [CFloat]: C++ [float] and [double] arithmetic
      and the float-to-integer casts ([None] where the cast is undefined).  [FloatError]:
      the error model of binary32, an operation against its exact rational value.
    - [Types]: include/device/motor/types.h.  [MathUtils]: math_utils.cc, the
      quantisation of a [float] in a range; [Quantise]: what it loses, and what a word of a
      parameter loses through a [float].  [PackHelper]: pack_helper.h, decoding
      of feedback frames and fault codes.
    - [StatusCache]: the part of src/device/motor/motor.cc under [status_mutex]:
      limit and median filters, life cycle of the last status.  [MotorLog]:
      motor_log.cc, the command log session of a motor and its recovery.
      [Motor]: motor.cc and motor_impl.h: [Impl] is [Motor::Impl], [OnMessage] the
      receive path, [SendAndWaitErased] the wait for an answer.  [MotorControl]:
      motor_control.cc.  [MotorParameter]: motor_parameter.cc.
      Operations run in the monad [M S] of [Motor]: the motor, the log
      environment, the frames sent, the scripts of what happens during each wait,
      and the state [S] of the driver manager, which [SetId] reaches through the
      class [MotorIndexManager]; a thrown exception is the result [Throw].
    - [Devices]: src/device/{battery,imu,pms,glove}, src/protocol/route_ids.h.
    - [Port]: include/utils/port.h as a step relation over its atomic accesses.
    - [SyncQueue]: src/adapter/base_adapter.cc and the outgoing side of
      src/bus/bus.cc: direct and synchronised submission, commits.
    - [OperationGate] and [Registry]: src/operation_gate.h, the gate as a step
      relation over its atomic word, mutex and condition variable, and the
      registry with explicit memory and hazard slots.
    - [DriverManager]: the tables of src/driver_manager_impl.h and, as one
      definition each, the critical sections of src/driver_manager_dispatch.cc and
      driver_manager_status.cc: publication, activation and detaching of routes,
      dispatch of a batch, reservation and migration of motor indexes.  An object is
      a number, a C++ map a [gmap], a route record a cell of the heap [records].
      [ManagerTables]: the invariant [Tables] that relates the tables to each other,
      and that every critical section keeps it.  [ManagerDispatch]: dispatch against
      the set of subscriptions.  [ManagerRefinement]: the tables against a desk of
      owners and entries.  [SetIdManager]: the manager as the [MotorIndexManager] of
      [MotorParameter].
    - [ManagerLifetime]: creation, destruction, operations and dispatch of devices
      and buses (driver_manager_create.cc, _destroy.cc) cut at the points where the
      code gives up its locks.  The state [Life] adds to the tables the heap of objects
      with the phase each thread has reached on it, gates, callbacks in flight and
      operations inside.  [LifetimeInvariant] holds the invariant [Inv] and what each
      critical section does to it, [LifetimeSafety] that every step keeps it.
      [AdapterStatus]: the status configuration and the status tables of an adapter,
      over [Life] and the caches of [StatusCache].
    - [BusWorld], [BusScan], [BusReset]: src/bus/bus.cc as the monad [M] over the state
      [World] of one bus: the tables, the send queue, the mailbox of frames without a
      receiver, the motors and scripts of what arrives.  The scan for motors, the
      external device flag, the reset of the motor indexes, automatic indexes, and the
      creation and destruction of devices one after the other.
    - [FakeProtocol]: plugins/adapter/fake/fake_protocol.cc, an independent decoder
      of the motor protocol against which the commands are proved.
      [FakeAdapter]: fake_adapter.cc, the simulated motors behind that decoder: their
      settings and motion, the policies and modes of their answers, the history.
      The clock, the noise of the status reports and the observer are inputs.
      [FakeLoop]: the driver of [Motor] wired to [FakeAdapter].  [FakeTyping]: the
      type invariant of the simulated motors.  [FakeStatus]: a status report from the
      simulated motor through [PackHelper].
    - [AdapterExtend]: include/adapter/adapter_extend.h, the configuration envelope over a
      JSON library.  [CText]: what the plugins use of the C++ library on texts and the
      numbers in them.  [BusTiming]: what the plugins read of it for their buses.
    - [RelayFrame]: the EMR1 container of plugins/adapter/utils/emr1.  [RelayAdapter]:
      the outgoing queue, the flushes and the reconnections of plugins/adapter/relayWs.
      [RelaySession]: its URLs, and the sessions of an adapter from constructor to
      destructor over the answers of the HTTP and WebSocket clients.
    - [EthernetProtocol]: plugins/adapter/ethernet/protocol (payload, IPv4 and UDP
      with checksums, endpoint text, management datagrams).  [EthernetAdapter]: the
      transmit queues and the rounds of the worker.  [EthernetManagement]: discovery,
      initialisation and reconfiguration of the gateways.
    - [GsUsbProtocol] and [GsUsbAdapter]: plugins/adapter/gsUsb, host frames and bit
      timings, and the adapter over a WinUSB device.
    - [CanHandle] and [CanSetup]: plugins/adapter/can, the SocketCAN handle and the
      setup of its interface.
    - [Slcan] and [UsbSerial]: the two serial adapters, their encoders and stream
      receivers.
    - [EthercatBase]: the packed structs of an EtherCAT slave, byte by byte, and their
      slots (plugins/adapter/utils/ethercatBase).  [EthercatQueue]: its queue of
      frames, against lanes.  [EthercatHandle]: the exchange cycle, state check and
      I/O map size of plugins/adapter/ethercat/ethercat_handle.cc; what the EtherCAT
      library answers is an input of each step.

    ** What the theorems show

    - Commands.  [quantisation_roundtrip]: quantising is defined, fits its bits and
      loses at most 5/4 of a step.  [pvt_protocol], [pos_protocol]: a control command
      sends one frame from which an independent decoder reads the arguments, up to that.
      [SetId_transaction]: the index reservation is released on every path and the
      index changes exactly on success.  [GetParameter_spec]: retry and error
      behaviour.
    - Driver and simulated motor together.  [parameter_loop]: a parameter written by
      a setter is acknowledged by the motor, and the getter gets the written words,
      those of the ranges that are kept as floats possibly one step nearer to zero.
      [status_report]: a status reaches the driver up to a step of its bits, and its
      error code through [DecodeMotorError].  [loop_refusals]: what a refused write and a silent motor give.
      [fake_adapter_typed]: however it is driven, the simulation answers with frames
      the C struct can hold, keeps its settings within their types and bounds the records
      of commands (the two other histories of the code grow).
    - Waiting.  [SendAndWait_spec]: the answer is the first accepted frame
      delivered during the wait.  [SendAndWait_bookkeeping]: waiter table and
      operation count are restored on every path, exceptions included.
    - Status.  [OnMessage_status]; [FilterStatusValue_contract]: what the filters make
      of a value on every branch, the median by its rank; [status_life_cycle_reads].  [RecordCommand_outcome] is about the log.
      [adapter_status_in_force]: the configuration of an adapter is in force on every
      motor it has where the motor has no setting of its own, in every interleaving that
      moves no motor to the key of a device under creation, and its status table is exact.
    - Bus.  [scan_finds]: which motors a scan in direct mode finds, adds and returns, and
      what it leaves alone.  [reset_motors_id]: what a reset in direct mode does when no
      other thread acts: nothing without an acknowledgement, and after one it leaves one
      motor.
    - Configuration.  [envelope_merge]: which envelopes are accepted, and what a bus
      gets.  [timings_in_force]: the timing of every bus of every plugin.
      [can_timing_roundtrip]: the timing reaches the broker process.
      [can_interface_ready]: the setup of an interface and its errors.
    - Wire formats.  Round trips [relay_roundtrip], [ethernet_roundtrip],
      [gs_usb_roundtrip], [can_roundtrip], [slcan_roundtrip], [usb_roundtrip]; stream
      receivers that do not depend on how the bytes are cut into reads [slcan_stream],
      [usb_stream]; safety on any input [relay_decode_safe]; [ipv4_text_roundtrip].
    - Mailbox.  [port_no_race], [port_pop_exact], [port_no_loss],
      [port_push_wait_free], for every interleaving.
    - Object lifetime.  [gate_drain]: exact counting, no entry after a drain, no
      lost wake-up.  [registry_memory_safe]: no use of freed snapshots or entries.
      [snapshot_find]: the hash table finds exactly the registered entry.
    - Send queues.  [bulk_conservation].  [ethernet_submit_exact], [ethernet_lanes] and
      [ethernet_drains]: what a submission to the gateways queues, that nothing is lost
      or reordered on the way, and that a willing transport drains it.
      [relay_delivery]: what the relay drops, keeps and sends; [reconnect_bounds].
      [relay_session]: an adapter holds at most one session of the relay, connects to
      nothing else, and gives that session back.  [url_roundtrip], [relay_throws].
    - Gateways.  [initialize_contract]: what an initialised gateway has confirmed, and
      what a failure takes back; [reconfigure_answered], [update_bus_contract].
      [bit_timing_exact] and [gs_usb_channels]: the bit timing of a gs_usb device and
      the state of its channels.
    - EtherCAT.  [ethercat_queue_refines]: the frames a master sends carry, bus by
      bus, the groups of an abstract lane that synchronised batches seal.
      [exchange_gate]: zeros only on a link that is not confirmed.
      [outage_and_recovery]: how long a broken link stands and how it comes back.
      [io_map_bound]: the size of the I/O map.
    - Driver manager.  [manager_lifetime]: in every interleaving that moves no motor to
      the key of a device under creation, no callback and no operation touches an object that has been freed, and nothing is freed that is
      still reachable from the tables.  [destruction_completes]: once nothing is in
      flight or inside, a destruction runs to its end and removes every trace of
      the device.  [tables_refine_desk]: the routing tables implement the abstract
      desk.  [receive_exact]: a batch reaches exactly the subscribed devices.
      [SetId_moves_motor], [callbacks_follow_motor]: what a change of index moves, and
      when it is refused.
    - Other devices.  [glove_cycle].

    ** Interfaces

    A client is proved against what the component below it promises and not
    against its code: [SetId] against [MotorIndexManager], of which the tables of
    the driver manager are an instance; the motor log against
    the environment that says whether a session can be opened and has failed; the
    send queue against a driver that may throw at any call; gates inside the
    registry against their word, whose meaning [gate_drain] establishes.  What
    happens while a command waits (frames received, time passing, cancellation,
    destruction) is a script, and theorems hold for every script.

    What is not code of the repository is a parameter or a script, and theorems say
    what they rely on: the JSON library ([parse_json], whose objects have distinct
    keys: [library_value]), the kernel under a SocketCAN handle ([kernel_carries]), the
    [ip] program ([shows]), the clock, sockets, transports, the WinUSB device, the
    WebSocket client and the EtherCAT library.

    ** Fuel and bounds

    Loops whose recursion is not structural take fuel, and theorems show that the
    fuel the definitions pass is enough: one unit per byte for [ParseLoop],
    [ReceiveLoop], [parse_frames] and [DecodeLoop], each of whose iterations consumes a
    byte; one per record for [EncodeLoop]; 3 rounds for [Fold], the sum of a datagram
    having at most 32 bits; the retry budget plus two for [RecordCommandLoop]; the number
    of active entries for [GrowCapacity], which doubles, the capacity for
    [FreeProbe], which meets a free slot before it has been round, and one more
    than [max_probe] for [FindLoop], which is the loop's own bound; for the search of a
    bit timing the number of dividers, of which [bit_timing_exact] shows that none is
    left; two rounds for [reset_loop], whose first destroys all motors but one.
    [ethercat_queue_refines] assumes fewer than 2^63 synchronised submissions, after
    which the generations of the code repeat.  The mailbox theorems assume fewer than
    2^64 - 1 pushes ([bounded]), after which the sequence numbers of the code repeat.
    [quantisation_roundtrip] is about ranges within 2^32 whose ends are at least 2^-32
    apart, and 1 to 16 bits.
    [can_timing_roundtrip] is about sample points in thousandths, by evaluation of all
    of them.  The mailbox of a bus keeps the newest 512 frames, as in the code.

    Atomics are sequentially consistent; weaker orders of the code are not told
    apart.  In [Registry] the claim of a hazard slot is one step that may take any
    free slot, of which the code's first-fit scan is a case.

    ** Not modelled

    Opening sockets, serial ports and USB devices, threads, dynamic loading, the log
    file writer, the descriptor broker and its processes, and the WebAssembly binding
    (operating-system I/O or glue); the EtherCAT libraries and other third-party code,
    and what an EtherCAT master configures through them at start (watchdogs, bit
    timing); the exceptions of the sockets of a gateway, and the failed sends of a
    SocketCAN handle; the IgH variant of the EtherCAT master; the constructors of the adapters,
    represented by the state they leave, and what they log of ignored fields; the
    broadcasts of the discovery of gateways; the waiting of a
    submission to the relay for its connection, and the reports of dropped frames; devices of plugins, and the accessors of a bus that
    only forward; the copies of the history that the fake adapter hands to tests; the
    raw receive callback, the leader election of waiting callers and the public
    factories of the driver manager; creation and destruction of adapters and gloves by
    the driver manager; instrumentation hooks and accessors for tests; the destructor of
    the registry.

    ** Plan

    What would come next, none of it needed by the theorems above:

    - Creation and destruction of adapters and gloves in [ManagerLifetime], where the
      adapters are alive throughout.
    - The accuracy of the two other kinds of status report, by [FloatError].
    - Completion of [Pop] when it runs alone, and completion of a registry
      publication once the readers of the old snapshot have moved on. *)
From stdpp Require Import base list numbers.
From Stdlib Require Import ZArith Lia.

Declare Scope cint_scope.
Delimit Scope cint_scope with cint.
#[local] Open Scope Z_scope.

(** ** Machine integers

    Every C++ integer is a [Z]; a conversion to a [w]-bit type is written where
    the code writes it, as one of the wrapping functions below. *)
Module CInt.

Definition u8 (x : Z) : Z := x mod 256.
Definition u16 (x : Z) : Z := x mod 65536.
Definition u32 (x : Z) : Z := x mod 4294967296.
Definition u64 (x : Z) : Z := x mod 18446744073709551616.
Definition i16 (x : Z) : Z := (x + 32768) mod 65536 - 32768.
Definition i32 (x : Z) : Z := (x + 2147483648) mod 4294967296 - 2147483648.
Definition i64 (x : Z) : Z := (x + 9223372036854775808) mod 18446744073709551616 - 9223372036854775808.

Definition INT_MAX : Z := 2147483647.
Definition UINT32_MAX : Z := 4294967295.
Definition SIZE_MAX : Z := 18446744073709551615.

Definition byte_ok (b : Z) : Prop := 0 <= b < 256.

(** A byte of a fixed C array; every access of the code is at a constant or
    checked index. *)
Definition byte_at (d : list Z) (i : nat) : Z := nth i d 0.

End CInt.
Export CInt.

Infix ".|" := Z.lor (at level 50, left associativity) : cint_scope.
Infix ".&" := Z.land (at level 40, left associativity) : cint_scope.
#[local] Open Scope cint_scope.

(** ** Lemmas on masks and shifts *)
Section Bits.

Lemma land_low_mask (x n : Z) : 0 <= n -> x .& (Z.ones n) = x mod 2 ^ n.
Proof. intros; now apply Z.land_ones. Qed.

Lemma lor_shiftl_add (a b n : Z) :
  0 <= n -> 0 <= b < 2 ^ n -> (a ≪ n) .| b = a * 2 ^ n + b.
Proof.
  intros Hn Hb. rewrite <- (Z.shiftl_mul_pow2 a n) by lia.
  pose proof (Z.add_lor_land (a ≪ n) b) as Hadd.
  assert ((a ≪ n) .& b = 0) as Hdis.
  2: { rewrite Hdis in Hadd. lia. }
  apply Z.bits_inj'; intros i Hi.
  rewrite Z.bits_0, Z.land_spec, Z.shiftl_spec by lia.
  destruct (Z.lt_ge_cases i n).
  - now rewrite Z.testbit_neg_r by lia.
  - rewrite <- (Z.mod_small b (2 ^ n)) by lia.
    rewrite Z.mod_pow2_bits_high by lia. apply andb_false_r.
Qed.

Lemma lor_add_shiftl (a b n : Z) :
  0 <= n -> 0 <= b < 2 ^ n -> b .| (a ≪ n) = a * 2 ^ n + b.
Proof. intros; rewrite Z.lor_comm; now apply lor_shiftl_add. Qed.

(** A constant whose low [n] bits are zero. *)
Lemma lor_high_add (c b n : Z) :
  0 <= n -> c mod 2 ^ n = 0 -> 0 <= b < 2 ^ n -> c .| b = c + b.
Proof.
  intros Hn Hc Hb.
  replace c with ((c / 2 ^ n) ≪ n) at 1.
  - rewrite lor_shiftl_add by done. pose proof (Z_div_exact_full_2 c (2 ^ n)). lia.
  - rewrite Z.shiftl_mul_pow2 by done. pose proof (Z_div_exact_full_2 c (2 ^ n)). lia.
Qed.

End Bits.

(** Arithmetic form of the bit operations: [bits_arith] turns shifts, masks and
    disjoint [.|] into [*], [/], [mod] and [+]; [cint_solve] then leaves a goal
    to [lia]. *)
Lemma land_ones_pow (x m n : Z) : 0 <= n -> m = 2 ^ n - 1 -> x .& m = x mod 2 ^ n.
Proof.
  intros Hn ->. rewrite <- Z.land_ones by lia. f_equal.
  rewrite Z.ones_equiv. lia.
Qed.

Ltac is_Zcst t :=
  match t with
  | Z0 => idtac | Zpos _ => idtac | Zneg _ => idtac
  | _ => fail
  end.

Ltac bits_arith_step :=
  match goal with
  | |- context [Z.shiftr (Z.land ?a ?b) ?n] =>
      is_Zcst b; is_Zcst n; rewrite (Z.shiftr_land a b n);
      let c := eval vm_compute in (Z.shiftr b n) in change (Z.shiftr b n) with c
  | |- context [Z.land ?x ?m] =>
      is_Zcst m;
      let n := eval vm_compute in (Z.log2_up (m + 1)) in
      let p := eval vm_compute in (2 ^ n) in
      rewrite (land_ones_pow x m n) by (first [lia | reflexivity]);
      change (2 ^ n) with p
  | |- context [Z.lor (Z.shiftl ?a ?n) ?b] =>
      is_Zcst n;
      rewrite (lor_shiftl_add a b n) by
        (first [lia | split; [|change (2 ^ n) with (ltac:(let p := eval vm_compute in (2 ^ n) in exact p))];
                      bits_arith_side]);
      let p := eval vm_compute in (2 ^ n) in change (2 ^ n) with p
  | |- context [Z.shiftr ?a ?n] =>
      is_Zcst n; rewrite (Z.shiftr_div_pow2 a n) by lia;
      let p := eval vm_compute in (2 ^ n) in change (2 ^ n) with p
  | |- context [Z.shiftl ?a ?n] =>
      is_Zcst n; rewrite (Z.shiftl_mul_pow2 a n) by lia;
      let p := eval vm_compute in (2 ^ n) in change (2 ^ n) with p
  end
with bits_arith_side :=
  unfold u8, u16, u32, u64, byte_ok in *;
  repeat bits_arith_step; Z.to_euclidean_division_equations; lia.

Ltac bits_arith :=
  unfold u8, u16, u32, u64, byte_ok in *; repeat bits_arith_step.

Ltac cint_solve := bits_arith; Z.to_euclidean_division_equations; lia.

Lemma u8_ok x : byte_ok (u8 x).
Proof. apply Z.mod_pos_bound; lia. Qed.
Lemma u16_range x : 0 <= u16 x < 65536.
Proof. apply Z.mod_pos_bound; lia. Qed.
Lemma u32_range x : 0 <= u32 x < 4294967296.
Proof. apply Z.mod_pos_bound; lia. Qed.
Lemma i16_range x : -32768 <= i16 x < 32768.
Proof. unfold i16. pose proof (Z.mod_pos_bound (x + 32768) 65536). lia. Qed.
Lemma u8_small x : byte_ok x -> u8 x = x.
Proof. apply Z.mod_small. Qed.
Lemma u16_small x : 0 <= x < 65536 -> u16 x = x.
Proof. apply Z.mod_small. Qed.
Lemma u32_small x : 0 <= x < 4294967296 -> u32 x = x.
Proof. apply Z.mod_small. Qed.
Lemma i16_small x : -32768 <= x < 32768 -> i16 x = x.
Proof. intros. unfold i16. rewrite Z.mod_small; lia. Qed.
Lemma i32_small x : -2147483648 <= x < 2147483648 -> i32 x = x.
Proof. intros. unfold i32. rewrite Z.mod_small; lia. Qed.

Create HintDb cint.
Create Rewrite HintDb cint.
#[export] Hint Resolve u8_ok u16_range u32_range i16_range : cint.
#[export] Hint Rewrite u8_small u16_small u32_small i16_small using (solve [auto with cint | lia]) : cint.

Lemma byte_ok_cst b : (0 <=? b) && (b <? 256) = true -> byte_ok b.
Proof. unfold byte_ok. lia. Qed.

(** [Forall byte_ok] of an explicit list. *)
Ltac bytes_ok :=
  repeat (first [apply List.Forall_nil | apply List.Forall_cons]);
  first [solve [auto with cint] | apply byte_ok_cst; reflexivity | idtac].

(** ** Big- and little-endian words *)
Module Endian.

Definition be16 (b0 b1 : Z) : Z := (b0 ≪ 8) .| b1.
Definition be32 (b0 b1 b2 b3 : Z) : Z := (b0 ≪ 24) .| (b1 ≪ 16) .| (b2 ≪ 8) .| b3.
Definition le16 (b0 b1 : Z) : Z := b0 .| (b1 ≪ 8).
Definition le32 (b0 b1 b2 b3 : Z) : Z := b0 .| (b1 ≪ 8) .| (b2 ≪ 16) .| (b3 ≪ 24).

Lemma be16_eq b0 b1 : byte_ok b1 -> be16 b0 b1 = b0 * 256 + b1.
Proof. intros; unfold be16. cint_solve. Qed.

Lemma be32_eq b0 b1 b2 b3 :
  byte_ok b1 -> byte_ok b2 -> byte_ok b3 ->
  be32 b0 b1 b2 b3 = b0 * 16777216 + b1 * 65536 + b2 * 256 + b3.
Proof.
  intros H1 H2 H3. unfold be32, byte_ok in *.
  rewrite (lor_shiftl_add b0 (b1 ≪ 16) 24).
  2: lia. 2: rewrite Z.shiftl_mul_pow2 by lia; lia.
  rewrite !Z.shiftl_mul_pow2 by lia.
  replace (b0 * 2 ^ 24 + b1 * 2 ^ 16) with ((b0 * 256 + b1) ≪ 16)
    by (rewrite Z.shiftl_mul_pow2 by lia; lia).
  rewrite lor_shiftl_add by lia.
  replace ((b0 * 256 + b1) * 2 ^ 16 + b2 * 2 ^ 8) with ((b0 * 65536 + b1 * 256 + b2) ≪ 8)
    by (rewrite Z.shiftl_mul_pow2 by lia; lia).
  rewrite lor_shiftl_add by lia. lia.
Qed.

Lemma le16_eq b0 b1 : byte_ok b0 -> le16 b0 b1 = b0 + b1 * 256.
Proof. intros; unfold le16. rewrite Z.lor_comm. cint_solve. Qed.

Lemma le32_eq b0 b1 b2 b3 :
  byte_ok b0 -> byte_ok b1 -> byte_ok b2 ->
  le32 b0 b1 b2 b3 = b0 + b1 * 256 + b2 * 65536 + b3 * 16777216.
Proof.
  intros H0 H1 H2. unfold le32, byte_ok in *.
  rewrite (lor_add_shiftl b1 b0 8) by lia.
  rewrite (lor_add_shiftl b2 _ 16) by lia.
  rewrite (lor_add_shiftl b3 _ 24) by lia. lia.
Qed.

Lemma be16_split x : 0 <= x < 65536 -> be16 (u8 (x ≫ 8)) (u8 x) = x.
Proof. intros. rewrite be16_eq by auto with cint. cint_solve. Qed.

Lemma be32_split x :
  0 <= x < 4294967296 -> be32 (u8 (x ≫ 24)) (u8 (x ≫ 16)) (u8 (x ≫ 8)) (u8 x) = x.
Proof. intros. rewrite be32_eq by auto with cint. cint_solve. Qed.

Lemma le32_split x :
  0 <= x < 4294967296 -> le32 (u8 x) (u8 (x ≫ 8)) (u8 (x ≫ 16)) (u8 (x ≫ 24)) = x.
Proof. intros. rewrite le32_eq by auto with cint. cint_solve. Qed.

End Endian.
Export Endian.

(** ** Lists *)
Section Lists.
Context {A B : Type}.

Lemma flat_map_ext_in (f g : A -> list B) l :
  (forall a, In a l -> f a = g a) -> flat_map f l = flat_map g l.
Proof.
  induction l as [|a l IH]; intros H; cbn; [done|].
  rewrite (H a) by now left. f_equal. apply IH. intros b Hb. apply H. now right.
Qed.

(** A byte of the second part of a concatenation. *)
Lemma byte_at_skip l1 l2 i : byte_at (l1 ++ l2) (length l1 + i) = byte_at l2 i.
Proof. unfold byte_at. rewrite app_nth2 by lia. f_equal. lia. Qed.

End Lists.
