(* ===== verification/CFloat.v ===== *)
(** * CFloat: IEEE-754 arithmetic as the driver's C++ performs it

    [float] is binary32 and [double] is binary64, both the Standard Library's
    [spec_float] (one NaN: the payload of a NaN is not kept).  Every C++
    operator rounds once, to nearest even.  A float-to-integer cast truncates and
    is undefined when the truncated value does not fit the target type, so the
    casts return [option]. *)
From stdpp Require Import base list numbers.
From Stdlib Require Import ZArith Lia.
From Stdlib Require Import SpecFloat.
From S2P Require Import Prelude.
#[local] Open Scope Z_scope.
#[local] Open Scope cint_scope.

(** ** binary32 *)
Module F32.

Definition t := spec_float.
Definition add (x y : t) : t := SFadd 24 128 x y.
Definition sub (x y : t) : t := SFsub 24 128 x y.
Definition mul (x y : t) : t := SFmul 24 128 x y.
Definition div (x y : t) : t := SFdiv 24 128 x y.
Definition opp (x : t) : t := SFopp x.
Definition abs (x : t) : t := SFabs x.
Definition ltb (x y : t) : bool := SFltb x y.
Definition leb (x y : t) : bool := SFleb x y.
Definition eqb (x y : t) : bool := SFeqb x y.
Definition nan : t := S754_nan.
Definition zero : t := S754_zero false.

(** [static_cast<float>(n)] *)
Definition of_Z (n : Z) : t := binary_normalize 24 128 n 0 false.

Definition isfinite (x : t) : bool :=
  match x with S754_zero _ | S754_finite _ _ _ => true | _ => false end.
Definition isnan (x : t) : bool := match x with S754_nan => true | _ => false end.

(** [memcpy] of a 32-bit word into a [float]. *)
Definition of_bits (w : Z) : t :=
  let s := Z.testbit w 31 in
  let e := (w ≫ 23) mod 256 in
  let m := w mod 8388608 in
  if e =? 255 then (if m =? 0 then S754_infinity s else S754_nan)
  else if e =? 0 then
    match m with Zpos p => S754_finite s p (-149) | _ => S754_zero s end
  else
    match m + 8388608 with Zpos p => S754_finite s p (e - 150) | _ => S754_nan end.

(** [memcpy] of a [float] into a 32-bit word; NaN gives the default quiet NaN. *)
Definition to_bits (x : t) : Z :=
  let sgn (s : bool) := if s then 2147483648 else 0 in
  match x with
  | S754_zero s => sgn s
  | S754_infinity s => sgn s + 2139095040
  | S754_nan => 2143289344
  | S754_finite s m e =>
      if Zpos m <? 8388608 then sgn s + Zpos m
      else sgn s + (e + 150) * 8388608 + (Zpos m - 8388608)
  end.

(** [std::clamp(v, lo, hi)] *)
Definition clamp (v lo hi : t) : t :=
  if ltb v lo then lo else if ltb hi v then hi else v.

End F32.

(** ** binary64 *)
Module F64.
Definition t := spec_float.
Definition add (x y : t) : t := SFadd 53 1024 x y.
Definition mul (x y : t) : t := SFmul 53 1024 x y.
Definition div (x y : t) : t := SFdiv 53 1024 x y.
Definition ltb (x y : t) : bool := SFltb x y.
Definition leb (x y : t) : bool := SFleb x y.
Definition of_Z (n : Z) : t := binary_normalize 53 1024 n 0 false.
(** Decimal literals whose numerator and denominator are exact in binary64. *)
Definition lit (num den : Z) : t := div (of_Z num) (of_Z den).
(** [float] to [double] is exact: the same real number. *)
Definition of_f32 (x : F32.t) : t :=
  match x with
  | S754_finite s m e => binary_normalize 53 1024 (if s then Zneg m else Zpos m) e false
  | _ => x
  end.
End F64.

(** A [double] rounded to [float]. *)
Definition F32_of_f64 (x : F64.t) : F32.t :=
  match x with
  | S754_finite s m e => binary_normalize 24 128 (if s then Zneg m else Zpos m) e false
  | _ => x
  end.

(** ** Conversions to integers *)

(** Truncation toward zero; [None] for NaN and the infinities. *)
Definition SF_trunc (x : spec_float) : option Z :=
  match x with
  | S754_zero _ => Some 0
  | S754_finite s m e =>
      let a := match e with
               | Z0 => Zpos m
               | Zpos p => Zpos m * 2 ^ (Zpos p)
               | Zneg p => Zpos m / 2 ^ (Zpos p)
               end in
      Some (if s then - a else a)
  | _ => None
  end.

(** [std::llround]: to nearest, halfway cases away from zero. *)
Definition SF_llround (x : spec_float) : option Z :=
  match x with
  | S754_zero _ => Some 0
  | S754_finite s m e =>
      let a := match e with
               | Z0 => Zpos m
               | Zpos p => Zpos m * 2 ^ (Zpos p)
               | Zneg p => (Zpos m + 2 ^ (Zpos p - 1)) / 2 ^ (Zpos p)
               end in
      Some (if s then - a else a)
  | _ => None
  end.

(** [static_cast<T>(x)] for an integer type with range [lo..hi]: undefined
    behaviour is [None]. *)
Definition SF_cast (lo hi : Z) (x : spec_float) : option Z :=
  match SF_trunc x with
  | Some z => if (lo <=? z) && (z <=? hi) then Some z else None
  | None => None
  end.

Definition cast_i16 := SF_cast (-32768) 32767.
Definition cast_u16 := SF_cast 0 65535.
Definition cast_i32 := SF_cast (-2147483648) 2147483647.
Definition cast_u32 := SF_cast 0 4294967295.

Lemma SF_cast_range lo hi x z : SF_cast lo hi x = Some z -> lo <= z <= hi.
Proof.
  unfold SF_cast. destruct (SF_trunc x); [|done].
  destruct (_ && _) eqn:E; [|done]. intros [= ->].
  apply andb_true_iff in E. lia.
Qed.

(** ** Small integers are represented exactly *)
Section SmallIntegers.

Lemma digits2_pos_bounds p :
  2 ^ (Zpos (digits2_pos p) - 1) <= Zpos p < 2 ^ Zpos (digits2_pos p).
Proof.
  induction p as [p IH|p IH|]; cbn [digits2_pos]; [| |cbn; lia].
  all: replace (Zpos (Pos.succ (digits2_pos p))) with (Zpos (digits2_pos p) + 1) by lia.
  all: rewrite Z.add_simpl_r; rewrite (Z.pow_add_r 2 (Zpos (digits2_pos p)) 1) by lia.
  all: assert (2 ^ Zpos (digits2_pos p) = 2 * 2 ^ (Zpos (digits2_pos p) - 1)) by
    (rewrite <- Z.pow_succ_r by lia; f_equal; lia); lia.
Qed.

Lemma digits2_shift d m : digits2_pos (Pos.iter xO m d) = (digits2_pos m + d)%positive.
Proof.
  induction d as [|d IH] using Pos.peano_ind; [cbn; lia|].
  rewrite Pos.iter_succ. cbn [digits2_pos]. rewrite IH. lia.
Qed.

Lemma shift_value d m : Zpos (Pos.iter xO m d) = Zpos m * 2 ^ Zpos d.
Proof.
  induction d as [|d IH] using Pos.peano_ind; [cbn; lia|].
  rewrite Pos.iter_succ, Pos2Z.inj_xO, IH, Pos2Z.inj_succ, Z.pow_succ_r; lia.
Qed.

(** A mantissa of exactly [prec] digits is left alone by rounding. *)
Lemma round_exact prec emax s m e :
  0 < prec -> Zpos (digits2_pos m) = prec -> 3 - emax - prec <= e <= emax - prec ->
  binary_round_aux prec emax s (Zpos m) e loc_Exact = S754_finite s m e.
Proof.
  intros Hp Hm He. unfold binary_round_aux, shr_fexp, fexp, SpecFloat.emin, Zdigits2. rewrite Hm.
  replace (Z.max (prec + e - prec) (3 - emax - prec) - e) with 0 by lia.
  cbn. rewrite Hm.
  replace (Z.max (prec + e - prec) (3 - emax - prec) - e) with 0 by lia.
  cbn [shr shr_m]. by replace (e <=? emax - prec) with true by lia.
Qed.

Lemma round_small prec emax s p :
  0 < prec -> 3 <= emax -> prec < emax -> Zpos p < 2 ^ prec ->
  exists m e, binary_round prec emax s p 0 = S754_finite s m e /\ 1 - prec <= e <= 0 /\
    Zpos m = Zpos p * 2 ^ (- e).
Proof.
  intros Hprec Hemax Hlt Hp. pose proof (digits2_pos_bounds p) as Hd.
  assert (Zpos (digits2_pos p) <= prec) as Hle.
  { destruct (Z.le_gt_cases (Zpos (digits2_pos p)) prec) as [|Hgt]; [done|].
    pose proof (Z.pow_le_mono_r 2 prec (Zpos (digits2_pos p) - 1)). lia. }
  unfold binary_round, shl_align, fexp, SpecFloat.emin.
  replace (Z.max (Zpos (digits2_pos p) + 0 - prec) (3 - emax - prec) - 0)
    with (Zpos (digits2_pos p) - prec) by lia.
  destruct (Zpos (digits2_pos p) - prec) as [|q|q] eqn:E; [|lia|].
  - exists p, 0. rewrite round_exact by lia. split; [done|]. split; [lia|]. cbn. lia.
  - replace (Z.max (Zpos (digits2_pos p) + 0 - prec) (3 - emax - prec)) with (Zneg q) by lia.
    exists (Pos.iter xO p q), (Zneg q). rewrite round_exact; [|done|rewrite digits2_shift; lia|lia].
    split; [done|]. split; [lia|].
    cbn [Z.opp]. apply shift_value.
Qed.

Lemma of_Z_trunc v : -16777216 < v < 16777216 -> SF_trunc (F32.of_Z v) = Some v.
Proof.
  intros Hv. unfold F32.of_Z, binary_normalize. destruct v as [|p|p]; [done| |].
  all: match goal with |- context [binary_round _ _ ?s ?q 0] =>
    destruct (round_small 24 128 s q ltac:(lia) ltac:(lia) ltac:(lia) ltac:(lia)) as (m & e & -> & He & Hm) end; cbn [SF_trunc].
  all: destruct e as [|q|q]; [|lia|]; cbn [Z.opp] in Hm; rewrite Hm.
  all: rewrite ?Z.mul_1_r, ?Z.div_mul by (apply Z.pow_nonzero; lia); f_equal; lia.
Qed.

Lemma cast_of_Z lo hi v :
  -16777216 < v < 16777216 -> lo <= v <= hi -> SF_cast lo hi (F32.of_Z v) = Some v.
Proof.
  intros Hv Hr. unfold SF_cast. rewrite of_Z_trunc by done.
  by replace ((lo <=? v) && (v <=? hi)) with true by lia.
Qed.

(** ** Products of a fraction and a 32-bit integer

    [std::llround] of such a product is defined: the product is finite and the
    integer is far from the limits of [long long]. *)

(** A mantissa and an exponent whose value is at most [b], the exponent not positive. *)
Definition below (b m e : Z) : Prop := 0 <= m <= b * 2 ^ (- e) /\ e <= 0.

Lemma shr_1_half r : 0 <= shr_m r -> shr_m (shr_1 r) = shr_m r / 2.
Proof.
  destruct r as [[|[p|p|]|p] b c]; cbn [shr_m shr_1]; intros H; try done; try lia.
  - rewrite (Pos2Z.inj_xI p). Z.to_euclidean_division_equations. lia.
  - rewrite (Pos2Z.inj_xO p). Z.to_euclidean_division_equations. lia.
Qed.

Lemma iter_pos_comm {A} (f : A -> A) p : forall x, iter_pos f p (f x) = f (iter_pos f p x).
Proof. induction p as [p IH|p IH|]; intros x; cbn [iter_pos]; [by rewrite <- !IH|by rewrite <- !IH|done]. Qed.

Lemma iter_pos_succ {A} (f : A -> A) p : forall x, iter_pos f (Pos.succ p) x = f (iter_pos f p x).
Proof.
  induction p as [p IH|p IH|]; intros x; simpl; [|by rewrite !(iter_pos_comm f)|done].
  by rewrite !IH, !(iter_pos_comm f).
Qed.

Lemma shr_iter p : forall r, 0 <= shr_m r -> shr_m (iter_pos shr_1 p r) = shr_m r / 2 ^ Zpos p.
Proof.
  induction p as [|p IH] using Pos.peano_ind; intros r Hr; [by apply shr_1_half|].
  assert (0 <= shr_m (iter_pos shr_1 p r)) by (rewrite IH by done; apply Z.div_pos; lia).
  rewrite iter_pos_succ, shr_1_half, IH, Z.div_div, Pos2Z.inj_succ, Z.pow_succ_r by lia. f_equal. lia.
Qed.

Lemma shr_below b r e n r' e' :
  below b (shr_m r) e -> e + n <= 0 -> shr r e n = (r', e') -> below b (shr_m r') e' /\ e' = e + Z.max 0 n.
Proof.
  unfold below. intros [Hm He] Hn. destruct n as [|p|p]; cbn [shr]; intros [= <- <-]; [by split_and!; lia| |by split_and!; lia].
  rewrite shr_iter by lia. pose proof (Z.pow_pos_nonneg 2 (Zpos p)) as Hp.
  split_and!; [by apply Z.div_pos; lia| |lia|lia].
  apply Z.lt_succ_r, Z.div_lt_upper_bound; [lia|].
  replace (2 ^ (- e)) with (2 ^ Zpos p * 2 ^ (- (e + Zpos p))) in Hm by (rewrite <- Z.pow_add_r by lia; f_equal; lia).
  nia.
Qed.

Lemma digits_below k m e :
  0 <= k -> below (2 ^ k) m e -> Zdigits2 m + e <= k + 1.
Proof.
  intros Hk [[H0 Hm] He]. destruct m as [|p|p]; cbn [Zdigits2]; [lia| |lia].
  pose proof (digits2_pos_bounds p) as [Hd _]. rewrite <- Z.pow_add_r in Hm by lia.
  assert (Zpos (digits2_pos p) - 1 <= k + - e); [|lia]. apply (Z.pow_le_mono_r_iff 2); lia.
Qed.

Lemma llround_below s b m e z :
  0 <= b -> below b (Zpos m) e -> SF_llround (S754_finite s m e) = Some z -> - b - 1 <= z <= b + 1.
Proof.
  intros Hb [[H0 Hm] He]. cbn [SF_llround].
  assert (0 <= match e with Z0 => Zpos m | Zpos p => Zpos m * 2 ^ Zpos p
    | Zneg p => (Zpos m + 2 ^ (Zpos p - 1)) / 2 ^ Zpos p end <= b + 1) as Ha.
  { destruct e as [|p|p]; [cbn in Hm; lia|lia|]. change (- Zneg p) with (Zpos p) in Hm.
    pose proof (Z.pow_pos_nonneg 2 (Zpos p) ltac:(lia) ltac:(lia)) as H1.
    pose proof (Z.pow_pos_nonneg 2 (Zpos p - 1) ltac:(lia) ltac:(lia)) as H2.
    pose proof (Z.pow_le_mono_r 2 (Zpos p - 1) (Zpos p) ltac:(lia) ltac:(lia)) as H3.
    revert H1 H2 H3 Hm. generalize (2 ^ Zpos p) (2 ^ (Zpos p - 1)). intros x y H1 H2 H3 Hm.
    split; [apply Z.div_pos; lia|]. apply Z.lt_succ_r, Z.div_lt_upper_bound; [lia|].
    rewrite Z.mul_succ_r, Z.mul_add_distr_l, (Z.mul_comm x b). lia. }
  revert Ha. generalize (match e with Z0 => Zpos m | Zpos p => Zpos m * 2 ^ Zpos p
    | Zneg p => (Zpos m + 2 ^ (Zpos p - 1)) / 2 ^ Zpos p end). intros a Ha. destruct s; intros [= <-]; lia.
Qed.

(** Rounding to binary64 keeps such a value finite and about as small. *)
Lemma round_below s m e :
  below (2 ^ 40) (Zpos m) e ->
  exists z, SF_llround (binary_round_aux 53 1024 s (Zpos m) e loc_Exact) = Some z /\ - 2 ^ 42 <= z <= 2 ^ 42.
Proof.
  intros H. unfold binary_round_aux, shr_fexp.
  pose proof (digits_below 40 _ _ ltac:(lia) H) as Hd.
  destruct (shr _ _ _) as [r e1] eqn:E1.
  apply (shr_below (2 ^ 40)) in E1 as [H1 He1]; [|done|unfold fexp, SpecFloat.emin; destruct H; lia].
  set (m1 := round_nearest_even _ _).
  assert (below (2 ^ 41) m1 e1) as Hm1.
  { destruct H1 as [Hr He]. split; [|done]. pose proof (Z.pow_pos_nonneg 2 (- e1) ltac:(lia) ltac:(lia)).
    assert (shr_m r <= m1 <= shr_m r + 1); [|split; [lia|]; transitivity (2 ^ 40 * 2 ^ (- e1) + 1); [lia|]; change (2 ^ 41) with (2 ^ 40 * 2); nia].
    unfold m1, round_nearest_even. destruct (loc_of_shr_record r) as [|[]]; try destruct (Z.even _); lia. }
  clearbody m1. pose proof (digits_below 41 _ _ ltac:(lia) Hm1) as Hd1.
  destruct (shr _ e1 _) as [r2 e2] eqn:E2.
  apply (shr_below (2 ^ 41)) in E2 as [H2 He2]; [|done|unfold fexp, SpecFloat.emin; destruct Hm1; lia].
  destruct (shr_m r2) as [|p|p] eqn:E; [by exists 0| |by destruct H2; lia].
  replace (e2 <=? 1024 - 53) with true by (destruct H2; lia).
  destruct (SF_llround (S754_finite s p e2)) as [z|] eqn:Ez; [|done].
  exists z. split; [done|]. apply (llround_below s (2 ^ 41)) in Ez; [lia|lia|done].
Qed.

(** A [double] strictly between 0 and 1. *)
Definition fraction (x : F64.t) : Prop :=
  valid_binary 53 1024 x = true /\ F64.ltb (F64.of_Z 0) x = true /\ F64.ltb x (F64.of_Z 1) = true.

Lemma fraction_finite x :
  fraction x -> exists m e, x = S754_finite false m e /\ Zpos (digits2_pos m) + e <= 0 /\ e <= 0.
Proof.
  intros (Hv & H0 & H1). destruct x as [[]|[]| |[] m e]; try done. exists m, e. split; [done|].
  cbn [valid_binary] in Hv. apply andb_true_iff in Hv as [Hc _].
  unfold canonical_mantissa, fexp, SpecFloat.emin in Hc. apply Z.eqb_eq in Hc.
  change (F64.of_Z 1) with (S754_finite false 4503599627370496 (-52)) in H1.
  cbn [F64.ltb SFltb SFcompare] in H1. destruct (Z.compare_spec e (-52)) as [->|Hlt|Hgt]; [|lia|done].
  revert H1. generalize (eq_refl : 4503599627370496%positive = 4503599627370496%positive).
  generalize 4503599627370496%positive at 1 3. intros one Hone H1.
  destruct (Pos.compare_cont Eq m one) eqn:Ec; [done| |done]. change (m < one)%positive in Ec. pose proof (digits2_pos_bounds m) as [Hd _].
  assert (Zpos (digits2_pos m) = 53) as Hd53 by lia. rewrite Hd53 in Hd. lia.
Qed.

Lemma llround_fraction x n :
  fraction x -> 0 < n < 2 ^ 32 ->
  exists z, SF_llround (F64.mul x (F64.of_Z n)) = Some z /\ - 2 ^ 42 <= z <= 2 ^ 42.
Proof.
  intros (m & e & -> & Hd & He)%fraction_finite Hn. destruct n as [|p|p]; [lia| |lia].
  destruct (round_small 53 1024 false p ltac:(lia) ltac:(lia) ltac:(lia) ltac:(lia)) as (m2 & e2 & E & He2 & Hm2).
  unfold F64.of_Z, binary_normalize. rewrite E. unfold F64.mul, SFmul. apply round_below.
  split; [|lia]. pose proof (digits2_pos_bounds m) as [_ Hm].
  rewrite Pos2Z.inj_mul, Hm2.
  pose proof (Z.pow_le_mono_r 2 (Zpos (digits2_pos m)) (- e) ltac:(lia) ltac:(lia)) as Hle.
  replace (- (e + e2)) with (- e + - e2) by lia. rewrite Z.pow_add_r by lia.
  pose proof (Z.pow_pos_nonneg 2 (- e2) ltac:(lia) ltac:(lia)) as H2.
  split; [lia|]. rewrite !Z.mul_assoc. apply Z.mul_le_mono_nonneg_r; [lia|].
  change (2 ^ 40) with (2 ^ 8 * 2 ^ 32). nia.
Qed.

End SmallIntegers.

(** ** Constants of src/utils/constants.h *)
Definition M_PIf : F32.t := F32.of_bits 1078530011.
Definition M_PI : F64.t := S754_finite false 7074237752028440 (-51).
(** [kRadiansPerSecondToRpm = 30.0f / M_PIf] *)
Definition kRadiansPerSecondToRpm : F32.t := F32.div (F32.of_Z 30) M_PIf.

(** A decimal [float] literal [num/den], correctly rounded because both are exact. *)
Definition f32_lit (num den : Z) : F32.t := F32.div (F32.of_Z num) (F32.of_Z den).

(** ** The bit representation round trip *)
Section BitsRoundTrip.

Lemma to_of_bits (w : Z) :
  0 <= w < 4294967296 -> F32.of_bits w <> S754_nan -> F32.to_bits (F32.of_bits w) = w.
Proof.
  intros Hw. unfold F32.of_bits.
  assert (Z.testbit w 31 = (2147483648 <=? w)) as Hs.
  { rewrite Z.testbit_eqb by lia. change (2 ^ 31) with 2147483648.
    destruct (2147483648 <=? w) eqn:E.
    - replace (w / 2147483648) with 1 by (Z.to_euclidean_division_equations; lia). done.
    - rewrite Z.div_small by lia. done. }
  rewrite Hs. rewrite Z.shiftr_div_pow2 by lia. change (2 ^ 23) with 8388608.
  pose proof (Z.mod_pos_bound w 8388608 ltac:(lia)) as Hm.
  pose proof (Z.mod_pos_bound (w / 8388608) 256 ltac:(lia)) as He.
  assert (w = (if 2147483648 <=? w then 2147483648 else 0)
              + (w / 8388608) mod 256 * 8388608 + w mod 8388608) as Heq.
  { destruct (2147483648 <=? w) eqn:E; Z.to_euclidean_division_equations; lia. }
  set (e := (w / 8388608) mod 256) in *. set (m := w mod 8388608) in *.
  set (s := 2147483648 <=? w) in *. clearbody e m s. clear Hs.
  destruct (e =? 255) eqn:E255.
  { destruct (m =? 0) eqn:E0; [|done]. intros _. simpl. destruct s; lia. }
  destruct (e =? 0) eqn:E0.
  - destruct m as [|p|p]; [| |lia]; intros _.
    + simpl. destruct s; lia.
    + unfold F32.to_bits. destruct (Z.pos p <? 8388608) eqn:El; destruct s; lia.
  - destruct (m + 8388608) as [|p|p] eqn:Ep; [lia| |lia]. intros _.
    unfold F32.to_bits. destruct (Z.pos p <? 8388608) eqn:El; destruct s; lia.
Qed.

End BitsRoundTrip.

Example pi_bits : F32.to_bits M_PIf = 1078530011.
Proof. vm_compute. reflexivity. Qed.
