(* ===== verification/FloatError.v ===== *)
(** * FloatError: how far a [float] operation is from the exact one

    The standard error model of binary32: the result of an operation whose exact value
    [v] is not too large is finite, has the sign of [v], and differs from [v] by at most
    [unit * |v| + tiny].  Values are rationals.  The bounds are four times what rounding
    to nearest gives, which is enough for the quantisation of MathUtils. *)
From stdpp Require Import base list numbers.
From Stdlib Require Import ZArith QArith Qabs Qpower Lqa Lia.
From Stdlib Require Import SpecFloat.
From S2P Require Import Prelude CFloat.
#[local] Open Scope Z_scope.

(** ** Powers of two *)

Definition pow2 (e : Z) : Q := (inject_Z 2 ^ e)%Q.

Lemma pow2_pos e : (0 < pow2 e)%Q.
Proof. by apply Qpower_0_lt. Qed.

Lemma pow2_add a b : (pow2 (a + b) == pow2 a * pow2 b)%Q.
Proof. by apply Qpower_plus. Qed.

Lemma pow2_Z n : 0 <= n -> (pow2 n == inject_Z (2 ^ n))%Q.
Proof. intros Hn. symmetry. by apply Zpower_Qpower. Qed.

Lemma pow2_le a b : a <= b -> (pow2 a <= pow2 b)%Q.
Proof. intros H. by apply Qpower_le_compat_l. Qed.

Lemma pow2_le_inv a b : (pow2 a <= pow2 b)%Q -> a <= b.
Proof. intros H. by apply (Qpower_le_compat_l_inv _ _ _ H). Qed.

(** ** Values *)

Definition is_finite (x : spec_float) : bool :=
  match x with S754_zero _ | S754_finite _ _ _ => true | _ => false end.

Definition fval (x : spec_float) : Q :=
  match x with
  | S754_finite s m e => (inject_Z (if s then Zneg m else Zpos m) * pow2 e)%Q
  | _ => 0%Q
  end.

Definition unit : Q := 1 # 4194304.
Definition tiny : Q := pow2 (-148).
Definition error (v : Q) : Q := (unit * Qabs v + tiny)%Q.

(** [r] is an acceptable result for the exact value [v]. *)
Definition rounds (v : Q) (r : spec_float) : Prop :=
  is_finite r = true /\ (Qabs (fval r - v) <= error v)%Q /\
  (0 <= v -> 0 <= fval r)%Q /\ (v <= 0 -> fval r <= 0)%Q.

(** ** Rounding a mantissa *)

Lemma shr_fexp_spec m e l :
  0 <= m ->
  let n := Z.max 0 (fexp 24 128 (Zdigits2 m + e) - e) in
  shr_m (shr_fexp 24 128 m e l).1 = m / 2 ^ n /\ (shr_fexp 24 128 m e l).2 = e + n /\
  (n = 0 -> (shr_fexp 24 128 m e l).1 = shr_record_of_loc m l).
Proof.
  intros Hm. cbv zeta. unfold shr_fexp. generalize (fexp 24 128 (Zdigits2 m + e) - e). intros n.
  assert (shr_m (shr_record_of_loc m l) = m) as Hr by (by destruct l as [|[]]).
  destruct n as [|p|p]; cbn [shr fst snd].
  - rewrite Hr, Z.div_1_r. split_and!; [done|lia|done].
  - rewrite Z.max_r by lia. rewrite shr_iter, Hr by lia. split_and!; [done|done|lia].
  - rewrite Hr, Z.max_l, Z.div_1_r by lia. split_and!; [done|lia|done].
Qed.

Lemma nearest_even_range m l : m <= round_nearest_even m l <= m + 1.
Proof. destruct l as [|[]]; cbn; try destruct (Z.even m); lia. Qed.

Lemma digits_bounds m : 0 < m -> 2 ^ (Zdigits2 m - 1) <= m < 2 ^ Zdigits2 m /\ 0 < Zdigits2 m.
Proof. destruct m as [|p|p]; try lia. intros _. cbn [Zdigits2]. pose proof (digits2_pos_bounds p). lia. Qed.

Lemma digits_nonneg m : 0 <= Zdigits2 m.
Proof. by destruct m. Qed.

Lemma digits_le m k : 0 <= k -> 0 <= m <= 2 ^ k -> Zdigits2 m <= k + 1.
Proof.
  intros Hk [Hm Hmk]. destruct (Z.eq_dec m 0) as [->|]; [cbn; lia|].
  destruct (digits_bounds m ltac:(lia)) as [[Hd _] _].
  assert (Zdigits2 m - 1 <= k); [|lia]. apply (Z.pow_le_mono_r_iff 2); lia.
Qed.

(** The two shifts of a rounding: the mantissa is the exact one, or it is within a unit
    of its first 24 digits or of the digits above the smallest exponent. *)
Definition rounded_result (s : bool) (m e : Z) : spec_float :=
  match m with
  | Z0 => S754_zero s
  | Zpos p => if e <=? 104 then S754_finite s p e else S754_infinity s
  | Zneg _ => S754_nan
  end.

Lemma round_stages s mx ex l :
  0 <= mx -> (0 < mx /\ l = loc_Exact) \/ ex <= fexp 24 128 (Zdigits2 mx + ex) ->
  exists m e, binary_round_aux 24 128 s mx ex l = rounded_result s m e /\ 0 <= m /\
    ((m = mx /\ e = ex /\ fexp 24 128 (Zdigits2 mx + ex) < ex) \/
     exists n, 0 <= n /\ ex + n <= e <= ex + n + 1 /\ (ex + n = -149 \/ 2 ^ 23 <= mx / 2 ^ n) /\
       mx / 2 ^ n - 1 <= m * 2 ^ (e - (ex + n)) <= mx / 2 ^ n + 1).
Proof.
  intros Hm Hl. unfold binary_round_aux.
  pose proof (shr_fexp_spec mx ex l ltac:(lia)) as (H1 & He1 & Hn1).
  destruct (shr_fexp 24 128 mx ex l) as [r1 e1]. cbn [fst snd] in H1, He1, Hn1.
  set (n := Z.max 0 (fexp 24 128 (Zdigits2 mx + ex) - ex)) in *.
  pose proof (nearest_even_range (shr_m r1) (loc_of_shr_record r1)) as Hr.
  set (m1 := round_nearest_even (shr_m r1) (loc_of_shr_record r1)) in *.
  assert (0 <= shr_m r1) as Hr1 by (rewrite H1; apply Z.div_pos; lia).
  pose proof (shr_fexp_spec m1 e1 loc_Exact ltac:(lia)) as (H2 & He2 & _).
  destruct (shr_fexp 24 128 m1 e1 loc_Exact) as [r2 e2]. cbn [fst snd] in H2, He2.
  set (n2 := Z.max 0 (fexp 24 128 (Zdigits2 m1 + e1) - e1)) in *.
  assert (0 < 2 ^ n2) as Hp2 by (apply Z.pow_pos_nonneg; lia).
  exists (shr_m r2), e2. split_and!; [done|rewrite H2; apply Z.div_pos; lia|].
  assert (mx = 0 \/ 2 ^ (Zdigits2 mx - 1) <= mx /\ 0 < Zdigits2 mx) as Hd.
  { destruct (Z.eq_dec mx 0) as [|]; [by left|right]. destruct (digits_bounds mx ltac:(lia)) as ([? _] & ?). done. }
  assert (mx < 2 ^ Zdigits2 mx) as Hd'.
  { destruct (Z.eq_dec mx 0) as [->|]; [done|]. apply (digits_bounds mx). lia. }
  pose proof (digits_nonneg mx) as Hd0.
  destruct (Z_lt_le_dec (fexp 24 128 (Zdigits2 mx + ex)) ex) as [Hlt|Hge].
  - (* nothing to round *)
    destruct Hl as [[_ ->]|Hl]; [|lia]. left. assert (n = 0) as Hn by lia. rewrite Hn in *.
    assert (m1 = mx) as Hm1 by (unfold m1; rewrite Hn1 by done; done).
    assert (n2 = 0) as Hn2 by (unfold n2; rewrite Hm1, He1, Z.add_0_r; lia).
    rewrite Hn2, Hm1, Z.div_1_r in *. lia.
  - right. exists n. unfold fexp, SpecFloat.emin in n, n2, Hge.
    assert (ex + n = -149 \/ 2 ^ 23 <= mx / 2 ^ n) as Hcase.
    { destruct (Z.eq_dec (ex + n) (-149)) as [|Hne]; [by left|right].
      destruct Hd as [->|[Hd Hd1]]; [cbn in *; lia|].
      apply Z.div_le_lower_bound; [apply Z.pow_pos_nonneg; lia|]. rewrite <- Z.pow_add_r by lia.
      replace (n + 23) with (Zdigits2 mx - 1) by lia. lia. }
    assert (mx / 2 ^ n < 2 ^ 24) as Hq.
    { apply Z.div_lt_upper_bound; [apply Z.pow_pos_nonneg; lia|]. rewrite <- Z.pow_add_r by lia.
      pose proof (Z.pow_le_mono_r 2 (Zdigits2 mx) (n + 24)). lia. }
    pose proof (digits_le m1 24 ltac:(lia) ltac:(lia)) as Hd1.
    assert (n2 <= 1) as Hn2 by lia.
    replace (e2 - (ex + n)) with n2 by lia. split_and!; try lia.
    all: assert (n2 = 0 \/ n2 = 1) as [->| ->] by lia; rewrite H2; Z.to_euclidean_division_equations; lia.
Qed.

Lemma pow2_split m e n : 0 <= n -> (inject_Z m * pow2 (e + n) == inject_Z (m * 2 ^ n) * pow2 e)%Q.
Proof. intros Hn. rewrite pow2_add, inject_Z_mult, (pow2_Z n) by done. ring. Qed.

Lemma injZ_le a b : a <= b -> (inject_Z a <= inject_Z b)%Q.
Proof. by rewrite <- Zle_Qle. Qed.

Lemma scale_le a b e : a <= b -> (inject_Z a * pow2 e <= inject_Z b * pow2 e)%Q.
Proof. intros H. apply Qmult_le_compat_r; [by apply injZ_le|]. apply Qlt_le_weak, pow2_pos. Qed.

(** The distance from the exact value, in the last place kept. *)
Lemma stages_close mx ex m e n v :
  0 <= mx -> 0 <= n -> ex + n <= e ->
  mx / 2 ^ n - 1 <= m * 2 ^ (e - (ex + n)) <= mx / 2 ^ n + 1 ->
  (inject_Z mx * pow2 ex <= v)%Q -> (v <= inject_Z (mx + 1) * pow2 ex)%Q ->
  (v - 2 * pow2 (ex + n) <= inject_Z m * pow2 e)%Q /\ (inject_Z m * pow2 e <= v + 2 * pow2 (ex + n))%Q /\
  (inject_Z (mx / 2 ^ n) * pow2 (ex + n) <= v)%Q.
Proof.
  intros Hm Hn He [Hlo Hhi] Hv Hv'. set (q := mx / 2 ^ n) in *.
  assert (inject_Z m * pow2 e == inject_Z (m * 2 ^ (e - (ex + n))) * pow2 (ex + n))%Q as ->.
  { rewrite <- pow2_split by lia. by replace (ex + n + (e - (ex + n))) with e by lia. }
  pose proof (scale_le _ _ (ex + n) Hlo) as H1. pose proof (scale_le _ _ (ex + n) Hhi) as H2.
  assert (inject_Z q * pow2 (ex + n) <= v)%Q as H3.
  { rewrite pow2_split by done. eapply Qle_trans; [|exact Hv]. apply scale_le. unfold q.
    rewrite Z.mul_comm. apply Z.mul_div_le, Z.pow_pos_nonneg; lia. }
  assert (v <= inject_Z (q + 1) * pow2 (ex + n))%Q as H4.
  { rewrite pow2_split by done. eapply Qle_trans; [exact Hv'|]. apply scale_le. unfold q.
    assert (0 < 2 ^ n) by (apply Z.pow_pos_nonneg; lia).
    pose proof (Z.mul_succ_div_gt mx (2 ^ n)). lia. }
  pose proof (pow2_pos (ex + n)) as Hp. revert H1 H2 H3 H4 Hp. unfold Zminus. rewrite !inject_Z_plus, inject_Z_opp.
  generalize (pow2 (ex + n)) (inject_Z (m * 2 ^ (e + - (ex + n)))) (inject_Z q). change (inject_Z 1) with 1%Q.
  intros p a b H1 H2 H3 H4 Hp. repeat split; lra.
Qed.

Lemma error_last v e :
  (0 <= v)%Q -> e = -149 \/ (inject_Z (2 ^ 23) * pow2 e <= v)%Q -> (2 * pow2 e <= error v)%Q.
Proof.
  intros Hv H. unfold error. rewrite Qabs_pos by done. destruct H as [->|H].
  - assert (tiny == 2 * pow2 (-149))%Q as -> by done. assert (0 <= unit)%Q by done. nra.
  - pose proof (pow2_pos (-148)) as Ht. change (pow2 (-148)) with tiny in Ht.
    assert (2 * pow2 e == unit * (inject_Z (2 ^ 23) * pow2 e))%Q as ->.
    { rewrite Qmult_assoc. assert (unit * inject_Z (2 ^ 23) == 2)%Q as -> by done. done. }
    assert (unit * (inject_Z (2 ^ 23) * pow2 e) <= unit * v)%Q by (by apply Qmult_le_l). lra.
Qed.

Lemma fval_rounded s m e :
  0 <= m -> m = 0 \/ e <= 104 ->
  is_finite (rounded_result s m e) = true /\
  (fval (rounded_result s m e) == (if s then - (inject_Z m * pow2 e) else inject_Z m * pow2 e))%Q.
Proof.
  intros Hm He. unfold rounded_result. destruct m as [|p|p]; [|destruct He as [|He]; [done|]|lia].
  - split; [done|]. cbn [fval]. destruct s; change (inject_Z 0) with 0%Q; ring.
  - replace (e <=? 104) with true by lia. split; [done|]. cbn [fval]. destruct s; [|done].
    change (Zneg p) with (- Zpos p). rewrite inject_Z_opp. ring.
Qed.

(** A value between two others next to it. *)
Lemma rounds_signed (s : bool) a v r :
  is_finite r = true -> (fval r == (if s then - a else a))%Q -> (0 <= a)%Q -> (0 <= v)%Q ->
  (v - error v <= a)%Q -> (a <= v + error v)%Q -> (v == 0 -> a == 0)%Q -> rounds (if s then - v else v)%Q r.
Proof.
  intros Hf Hr Ha Hv Hlo Hhi H0.
  assert (error (if s then - v else v)%Q == error v)%Q as He by (unfold error; destruct s; [by rewrite Qabs_opp|done]).
  unfold rounds. rewrite He, Hr. split_and!; [done| | |].
  - apply Qabs_Qle_condition. destruct s; split; lra.
  - destruct s; intros H; [|done]. rewrite H0 by lra. lra.
  - destruct s; intros H; [lra|]. rewrite H0 by lra. lra.
Qed.

Theorem round_spec (s : bool) mx ex l v :
  0 <= mx -> (0 < v)%Q ->
  (l = loc_Exact /\ v == inject_Z mx * pow2 ex)%Q \/
  (ex <= fexp 24 128 (Zdigits2 mx + ex) /\ (inject_Z mx * pow2 ex <= v)%Q /\ (v <= inject_Z (mx + 1) * pow2 ex)%Q) ->
  (v <= pow2 100)%Q ->
  rounds (if s then - v else v)%Q (binary_round_aux 24 128 s mx ex l).
Proof.
  intros Hm Hv0 Hv Hmax.
  assert (inject_Z mx * pow2 ex <= v /\ v <= inject_Z (mx + 1) * pow2 ex)%Q as [Hlo Hhi].
  { destruct Hv as [[_ ->]|(_ & ? & ?)]; [|done]. split; [apply Qle_refl|apply scale_le; lia]. }
  assert (0 < mx -> (pow2 ex <= v)%Q) as Hex.
  { intros H0. pose proof (scale_le 1 mx ex ltac:(lia)) as H1. change (inject_Z 1) with 1%Q in H1. lra. }
  assert (l = loc_Exact -> (v == inject_Z mx * pow2 ex)%Q -> 0 < mx) as Hpos.
  { intros _ Hv'. destruct (Z.eq_dec mx 0) as [->|]; [|lia]. change (inject_Z 0) with 0%Q in Hv'. lra. }
  destruct (round_stages s mx ex l Hm) as (m & e & -> & Hm0 & Hcase); [destruct Hv as [[? ?]|(? & _)]; auto|].
  assert (m = 0 \/ e <= 104) as He.
  { right. destruct Hcase as [(_ & -> & Hf)|(n & Hn & Hen & [Hlast|Hlast] & Hclose)]; [|lia|].
    - destruct Hv as [[? ?]|(? & _)]; [|lia]. specialize (Hex ltac:(auto)). assert (pow2 ex <= pow2 100)%Q as Hp%pow2_le_inv by lra. lia.
    - destruct (stages_close mx ex m e n v Hm Hn ltac:(lia) Hclose Hlo Hhi) as (_ & _ & Hq).
      assert (pow2 (23 + (ex + n)) <= pow2 100)%Q as Hp%pow2_le_inv; [|lia].
      rewrite pow2_add, pow2_Z by lia. pose proof (scale_le _ _ (ex + n) Hlast). lra. }
  assert ((v - error v <= inject_Z m * pow2 e)%Q /\ (inject_Z m * pow2 e <= v + error v)%Q) as (Hc1 & Hc2).
  { destruct Hcase as [(-> & -> & Hf)|(n & Hn & Hen & Hlast & Hclose)].
    - destruct Hv as [[_ Hv]|(? & _)]; [|lia]. assert (0 <= error v)%Q.
      { unfold error. pose proof (Qabs_nonneg v). pose proof (pow2_pos (-148)) as Ht. change (pow2 (-148)) with tiny in Ht.
        assert (0 <= unit)%Q by done. nra. }
      split; lra.
    - destruct (stages_close mx ex m e n v Hm Hn ltac:(lia) Hclose Hlo Hhi) as (H1 & H2 & Hq).
      assert (2 * pow2 (ex + n) <= error v)%Q; [|split; lra]. apply error_last; [lra|].
      destruct Hlast as [|Hlast]; [by left|right]. pose proof (scale_le _ _ (ex + n) Hlast). lra. }
  destruct (fval_rounded s m e Hm0 He) as [Hfin Hval].
  apply (rounds_signed s _ v _ Hfin Hval); [|lra|done|done|lra].
  apply Qmult_le_0_compat; [by apply (injZ_le 0)|apply Qlt_le_weak, pow2_pos].
Qed.

(** ** The operations *)

Lemma rounds_proper v v' r : (v == v')%Q -> rounds v r -> rounds v' r.
Proof. intros E. unfold rounds, error. by rewrite E. Qed.

Lemma error_nonneg v : (0 <= error v)%Q.
Proof.
  unfold error. pose proof (Qabs_nonneg v). pose proof (pow2_pos (-148)) as Ht. change (pow2 (-148)) with tiny in Ht.
  assert (0 <= unit)%Q by done. nra.
Qed.

(** A result that is the exact value. *)
Lemma rounds_exact v r : is_finite r = true -> (fval r == v)%Q -> rounds v r.
Proof.
  intros Hf E. split_and!; [done| | |]; rewrite E; [|done..].
  assert (Qabs (v - v) == 0)%Q as ->; [|apply error_nonneg]. rewrite Qabs_pos; lra.
Qed.

Definition signed (s : bool) (m : positive) : Z := if s then Zneg m else Zpos m.

Lemma signed_value s m e : (inject_Z (signed s m) * pow2 e == (if s then - (inject_Z (Zpos m) * pow2 e) else inject_Z (Zpos m) * pow2 e))%Q.
Proof. destruct s; [|done]. cbn [signed]. change (Zneg m) with (- Zpos m). rewrite inject_Z_opp. ring. Qed.

Lemma pos_value m e : (0 < inject_Z (Zpos m) * pow2 e)%Q.
Proof. apply Qmult_lt_0_compat; [done|apply pow2_pos]. Qed.

Lemma mul_rounds x y :
  is_finite x = true -> is_finite y = true -> (Qabs (fval x * fval y) <= pow2 100)%Q ->
  rounds (fval x * fval y) (F32.mul x y).
Proof.
  destruct x as [s|s| |s m e], y as [s'|s'| |s' m' e']; intros Hx Hy Hmax; try discriminate Hx; try discriminate Hy; unfold F32.mul, SFmul.
  1-3: apply rounds_exact; [done|cbn [fval]; ring].
  assert (fval (S754_finite s m e) * fval (S754_finite s' m' e') ==
          (if xorb s s' then - (inject_Z (Zpos (m * m')) * pow2 (e + e')) else inject_Z (Zpos (m * m')) * pow2 (e + e')))%Q as E.
  { cbn [fval]. change (if s then Zneg m else Zpos m) with (signed s m). change (if s' then Zneg m' else Zpos m') with (signed s' m').
    rewrite !signed_value. destruct s, s'; cbn [xorb]; rewrite pow2_add, Pos2Z.inj_mul, inject_Z_mult; ring. }
  pose proof (pos_value (m * m') (e + e')) as Hp. rewrite E in Hmax.
  apply (rounds_proper (if xorb s s' then - (inject_Z (Zpos (m * m')) * pow2 (e + e')) else inject_Z (Zpos (m * m')) * pow2 (e + e'))%Q); [done|].
  apply round_spec; [lia|done|by left|].
  destruct (xorb s s'); [rewrite Qabs_neg in Hmax by lra|rewrite Qabs_pos in Hmax by lra]; lra.
Qed.

Lemma shl_align_value m e e' :
  let '(m2, e2) := shl_align m e e' in
  (inject_Z (Zpos m2) * pow2 e2 == inject_Z (Zpos m) * pow2 e)%Q /\ e2 = Z.min e e'.
Proof.
  unfold shl_align. destruct (e' - e) as [|d|d] eqn:E; [split; [done|lia]|split; [done|lia]|]. split; [|lia].
  rewrite shift_value. replace e with (e' + Zpos d) at 1 by lia. by rewrite pow2_split.
Qed.

Lemma round_value (s : bool) m e :
  (inject_Z (Zpos m) * pow2 e <= pow2 100)%Q -> rounds (inject_Z (signed s m) * pow2 e) (binary_round 24 128 s m e).
Proof.
  intros Hmax. eapply rounds_proper; [symmetry; apply signed_value|]. unfold binary_round.
  pose proof (shl_align_value m e (fexp 24 128 (Zpos (digits2_pos m) + e))) as Hv.
  destruct (shl_align m e _) as [m2 e2]. destruct Hv as [Hv _].
  apply round_spec; [lia|apply pos_value|left; by rewrite Hv|done].
Qed.

Lemma normalize_rounds n e :
  (Qabs (inject_Z n * pow2 e) <= pow2 100)%Q -> rounds (inject_Z n * pow2 e) (binary_normalize 24 128 n e false).
Proof.
  intros Hmax. destruct n as [|m|m]; cbn [binary_normalize].
  - apply rounds_exact; [done|]. cbn [fval]. change (inject_Z 0) with 0%Q. ring.
  - apply (round_value false). pose proof (pos_value m e). rewrite Qabs_pos in Hmax by lra. done.
  - apply (round_value true). pose proof (pos_value m e) as Hp. pose proof (signed_value true m e) as E. cbn [signed] in E.
    rewrite E, Qabs_neg in Hmax by lra. lra.
Qed.

Lemma align_min s m e e' :
  e' <= e -> (inject_Z (cond_Zopp s (Zpos (fst (shl_align m e e')))) * pow2 e' == fval (S754_finite s m e))%Q.
Proof.
  intros He. pose proof (shl_align_value m e e') as Hv. destruct (shl_align m e e') as [m2 e2]. destruct Hv as [Hv ->].
  rewrite Z.min_r in Hv by done. cbn [fst fval]. change (if s then Zneg m else Zpos m) with (signed s m).
  rewrite signed_value. unfold cond_Zopp. destruct s; rewrite <- Hv; [rewrite inject_Z_opp; ring|done].
Qed.

Lemma sub_rounds x y :
  is_finite x = true -> is_finite y = true -> (Qabs (fval x - fval y) <= pow2 100)%Q ->
  rounds (fval x - fval y) (F32.sub x y).
Proof.
  destruct x as [s|s| |s m e], y as [s'|s'| |s' m' e']; intros Hx Hy Hmax; try discriminate Hx; try discriminate Hy; unfold F32.sub, SFsub.
  - apply rounds_exact; [by destruct s, s'|]. by destruct s, s'.
  - apply rounds_exact; [done|]. cbn [fval]. change (if s' then Zneg m' else Zpos m') with (signed s' m').
    change (if negb s' then Zneg m' else Zpos m') with (signed (negb s') m'). rewrite !signed_value. destruct s'; cbn [negb]; ring.
  - apply rounds_exact; [done|]. cbn [fval]. ring.
  - pose proof (align_min s m e (Z.min e e') ltac:(lia)) as E1. pose proof (align_min s' m' e' (Z.min e e') ltac:(lia)) as E2.
    rewrite <- E1, <- E2 in Hmax.
    eapply rounds_proper; [rewrite <- E1, <- E2; symmetry|].
    2: { apply normalize_rounds. eapply Qle_trans; [|exact Hmax]. apply Qle_lteq. right.
         unfold Zminus. rewrite inject_Z_plus, inject_Z_opp. apply Qabs_wd. ring. }
    unfold Zminus. rewrite inject_Z_plus, inject_Z_opp. ring.
Qed.

Lemma add_rounds x y :
  is_finite x = true -> is_finite y = true -> (Qabs (fval x + fval y) <= pow2 100)%Q ->
  rounds (fval x + fval y) (F32.add x y).
Proof.
  destruct x as [s|s| |s m e], y as [s'|s'| |s' m' e']; intros Hx Hy Hmax; try discriminate Hx; try discriminate Hy; unfold F32.add, SFadd.
  - apply rounds_exact; [by destruct s, s'|]. by destruct s, s'.
  - apply rounds_exact; [done|]. cbn [fval]. ring.
  - apply rounds_exact; [done|]. cbn [fval]. ring.
  - pose proof (align_min s m e (Z.min e e') ltac:(lia)) as E1. pose proof (align_min s' m' e' (Z.min e e') ltac:(lia)) as E2.
    rewrite <- E1, <- E2 in Hmax.
    eapply rounds_proper; [rewrite <- E1, <- E2; symmetry|].
    2: { apply normalize_rounds. eapply Qle_trans; [|exact Hmax]. apply Qle_lteq. right.
         rewrite inject_Z_plus. apply Qabs_wd. ring. }
    rewrite inject_Z_plus. ring.
Qed.

Lemma div_scale q e m1 m2 e1 e2 :
  0 <= e1 - e2 - e ->
  (inject_Z q * pow2 e * (inject_Z m2 * pow2 e2) == inject_Z (q * m2) * pow2 (e + e2))%Q /\
  (inject_Z m1 * pow2 e1 == inject_Z (m1 * 2 ^ (e1 - e2 - e)) * pow2 (e + e2))%Q.
Proof.
  intros Hs. split; [rewrite pow2_add, inject_Z_mult; ring|].
  rewrite <- pow2_split by done. by replace (e + e2 + (e1 - e2 - e)) with e1 by lia.
Qed.

(** The quotient of the mantissas has enough digits, or the smallest exponent. *)
Lemma div_core m1 e1 m2 e2 :
  let v := ((inject_Z (Zpos m1) * pow2 e1) / (inject_Z (Zpos m2) * pow2 e2))%Q in
  let '(q, e, l) := SFdiv_core_binary 24 128 (Zpos m1) e1 (Zpos m2) e2 in
  0 <= q /\ e <= fexp 24 128 (Zdigits2 q + e) /\ (inject_Z q * pow2 e <= v)%Q /\ (v <= inject_Z (q + 1) * pow2 e)%Q.
Proof.
  cbv zeta. unfold SFdiv_core_binary.
  set (d1 := Zdigits2 (Zpos m1)). set (d2 := Zdigits2 (Zpos m2)).
  set (e := Z.min (fexp 24 128 (d1 + e1 - (d2 + e2))) (e1 - e2)). set (s := e1 - e2 - e).
  assert (0 <= s) as Hs by lia.
  set (m := match s with Z0 => Zpos m1 | Zpos _ => Zpos m1 ≪ s | Zneg _ => 0 end).
  assert (m = Zpos m1 * 2 ^ s) as Hm.
  { unfold m. destruct s as [|p|p]; [lia| |lia]. by rewrite Z.shiftl_mul_pow2 by lia. }
  clearbody m. pose proof (Z_div_mod m (Zpos m2) ltac:(lia)) as Hdiv.
  destruct (Z.div_eucl m (Zpos m2)) as [q r]. destruct Hdiv as [Hq Hr].
  destruct (digits_bounds (Zpos m1) ltac:(lia)) as [[H1 _] Hd1]. destruct (digits_bounds (Zpos m2) ltac:(lia)) as [[_ H2] Hd2].
  fold d1 in H1, Hd1. fold d2 in H2, Hd2.
  assert (0 < m) as Hm0 by (rewrite Hm; apply Z.mul_pos_pos; [lia|apply Z.pow_pos_nonneg; lia]).
  assert (0 <= q) as Hq0 by nia.
  split_and!; [done| | |].
  - assert (d1 + s - d2 <= Zdigits2 q) as Hd.
    { destruct (Z.le_gt_cases (d1 + s - d2) 0) as [|Hgt]; [pose proof (digits_nonneg q); lia|].
      apply Z.lt_pred_le. apply (Z.pow_lt_mono_r_iff 2); [lia|apply digits_nonneg|].
      destruct (Z.eq_dec q 0) as [->|].
      - exfalso. assert (2 ^ d2 <= m); [|lia]. rewrite Hm.
        assert (2 ^ (d1 - 1 + s) <= Zpos m1 * 2 ^ s) by (rewrite Z.pow_add_r by lia; apply Z.mul_le_mono_nonneg_r; [apply Z.pow_nonneg; lia|done]).
        pose proof (Z.pow_le_mono_r 2 d2 (d1 - 1 + s)). lia.
      - destruct (digits_bounds q ltac:(lia)) as [[_ Hq'] _].
        assert (2 ^ (d1 - 1 + s) <= m) by (rewrite Hm, Z.pow_add_r by lia; apply Z.mul_le_mono_nonneg_r; [apply Z.pow_nonneg; lia|done]).
        assert (2 ^ (d1 - 1 + s) = 2 ^ Z.pred (d1 + s - d2) * 2 ^ d2) as E by (rewrite <- Z.pow_add_r by lia; f_equal; lia).
        apply (Z.mul_lt_mono_pos_r (2 ^ d2)); [lia|]. rewrite <- E.
        assert ((q + 1) * Zpos m2 <= 2 ^ Zdigits2 q * 2 ^ d2) by (apply Z.mul_le_mono_nonneg; lia). lia. }
    unfold fexp, SpecFloat.emin in *. lia.
  - apply Qle_shift_div_l; [apply pos_value|]. destruct (div_scale q e (Zpos m1) (Zpos m2) e1 e2 Hs) as [-> ->]. apply scale_le. fold s. rewrite <- Hm. lia.
  - apply Qle_shift_div_r; [apply pos_value|]. destruct (div_scale (q + 1) e (Zpos m1) (Zpos m2) e1 e2 Hs) as [-> ->]. apply scale_le. fold s. rewrite <- Hm. lia.
Qed.

Lemma div_rounds x y :
  is_finite x = true -> is_finite y = true -> ~ (fval y == 0)%Q -> (Qabs (fval x / fval y) <= pow2 100)%Q ->
  rounds (fval x / fval y) (F32.div x y).
Proof.
  destruct x as [s|s| |s m e], y as [s'|s'| |s' m' e']; intros Hx Hy Hy0 Hmax; try discriminate Hx; try discriminate Hy; unfold F32.div, SFdiv.
  1,3: by destruct Hy0.
  { apply rounds_exact; [done|]. cbn [fval]. unfold Qdiv. ring. }
  pose proof (div_core m e m' e') as Hc. cbv zeta in Hc.
  set (v := ((inject_Z (Zpos m) * pow2 e) / (inject_Z (Zpos m') * pow2 e'))%Q) in *.
  destruct (SFdiv_core_binary 24 128 (Zpos m) e (Zpos m') e') as [[q ez] l]. destruct Hc as (Hq & He & Hlo & Hhi).
  assert (0 < v)%Q as Hv by (apply Qlt_shift_div_l; [apply pos_value|rewrite Qmult_0_l; apply pos_value]).
  assert (fval (S754_finite s m e) / fval (S754_finite s' m' e') == (if xorb s s' then - v else v))%Q as E.
  { cbn [fval]. change (if s then Zneg m else Zpos m) with (signed s m). change (if s' then Zneg m' else Zpos m') with (signed s' m').
    rewrite !signed_value. unfold v. generalize (pos_value m' e').
    generalize (inject_Z (Zpos m') * pow2 e')%Q (inject_Z (Zpos m) * pow2 e)%Q. intros b a Hb. destruct s, s'; cbn [xorb]; field; lra. }
  rewrite E in Hmax. apply (rounds_proper (if xorb s s' then - v else v)%Q); [done|].
  apply round_spec; [done|done|by right|].
  destruct (xorb s s'); [rewrite Qabs_neg in Hmax by lra|rewrite Qabs_pos in Hmax by lra]; lra.
Qed.

(** ** Results are numbers of the format *)

Definition valid (x : F32.t) : Prop := valid_binary 24 128 x = true.

Lemma digits_exact m d : 2 ^ (d - 1) <= m < 2 ^ d -> 0 < d -> Zdigits2 m = d.
Proof.
  intros [H1 H2] Hd. assert (0 < 2 ^ (d - 1)) by (apply Z.pow_pos_nonneg; lia).
  destruct (digits_bounds m ltac:(lia)) as [[H3 H4] H5].
  assert (d - 1 < Zdigits2 m) by (apply (Z.pow_lt_mono_r_iff 2); lia).
  assert (Zdigits2 m - 1 < d) by (apply (Z.pow_lt_mono_r_iff 2); lia). lia.
Qed.

(** Where the first shift does not go to the left, the result is canonical. *)
Lemma round_valid s mx ex l :
  0 <= mx -> ex <= fexp 24 128 (Zdigits2 mx + ex) -> valid (binary_round_aux 24 128 s mx ex l).
Proof.
  intros Hm Hl. unfold binary_round_aux.
  pose proof (shr_fexp_spec mx ex l Hm) as (H1 & He1 & _).
  destruct (shr_fexp 24 128 mx ex l) as [r1 e1]. cbn [fst snd] in H1, He1.
  set (n := Z.max 0 (fexp 24 128 (Zdigits2 mx + ex) - ex)) in *.
  pose proof (nearest_even_range (shr_m r1) (loc_of_shr_record r1)) as Hr.
  set (m1 := round_nearest_even (shr_m r1) (loc_of_shr_record r1)) in *.
  assert (0 < 2 ^ n) as Hp by (apply Z.pow_pos_nonneg; lia).
  assert (0 <= shr_m r1) as Hr1 by (rewrite H1; apply Z.div_pos; lia).
  pose proof (shr_fexp_spec m1 e1 loc_Exact ltac:(lia)) as (H2 & He2 & _).
  destruct (shr_fexp 24 128 m1 e1 loc_Exact) as [r2 e2]. cbn [fst snd] in H2, He2.
  set (n2 := Z.max 0 (fexp 24 128 (Zdigits2 m1 + e1) - e1)) in *.
  pose proof (digits_nonneg mx) as Hd0.
  assert (mx < 2 ^ Zdigits2 mx) as Hd'.
  { destruct (Z.eq_dec mx 0) as [->|]; [done|]. apply (digits_bounds mx). lia. }
  unfold fexp, SpecFloat.emin in n, n2, Hl.
  assert (e1 = -149 \/ 2 ^ 23 <= shr_m r1) as Hcase.
  { destruct (Z.eq_dec e1 (-149)) as [|Hne]; [by left|right]. rewrite H1.
    destruct (Z.eq_dec mx 0) as [->|Hm0]; [cbn in *; lia|]. destruct (digits_bounds mx ltac:(lia)) as [[Hd _] _].
    apply Z.div_le_lower_bound; [done|]. rewrite <- Z.pow_add_r by lia. replace (n + 23) with (Zdigits2 mx - 1) by lia. lia. }
  assert (shr_m r1 < 2 ^ 24) as Hq.
  { rewrite H1. apply Z.div_lt_upper_bound; [done|]. rewrite <- Z.pow_add_r by lia.
    pose proof (Z.pow_le_mono_r 2 (Zdigits2 mx) (n + 24)). lia. }
  destruct (shr_m r2) as [|p|p] eqn:Em; [done| |done]. destruct (Z.leb_spec e2 (128 - 24)) as [He|]; [|done].
  unfold valid. cbn [valid_binary]. unfold bounded, canonical_mantissa. apply andb_true_iff. split; [|lia].
  change (Zpos (digits2_pos p)) with (Zdigits2 (Zpos p)). apply Z.eqb_eq. unfold fexp, SpecFloat.emin.
  destruct (Z.eq_dec m1 (2 ^ 24)) as [E|].
  - assert (Zdigits2 m1 = 25) as Hd1 by (apply digits_exact; lia). assert (n2 = 1) as Hn2 by lia.
    rewrite Hn2, E in H2. change (2 ^ 24 / 2 ^ 1) with (2 ^ 23) in H2. rewrite (digits_exact (Zpos p) 24); lia.
  - assert (Zdigits2 m1 <= 24) as Hd1.
    { destruct (Z.eq_dec m1 0) as [->|]; [done|]. destruct (digits_bounds m1 ltac:(lia)) as [[Hd1 _] _].
      assert (Zdigits2 m1 - 1 < 24); [apply (Z.pow_lt_mono_r_iff 2); lia|lia]. }
    assert (n2 = 0) as Hn2 by lia. rewrite Hn2, Z.div_1_r in H2. rewrite H2.
    destruct Hcase as [->|Hcase]; [lia|]. rewrite (digits_exact m1 24); lia.
Qed.

(** A number of the program that is not a NaN. *)
Definition number (x : F32.t) : Prop := valid x /\ F32.isnan x = false.

Lemma valid_shape s m e : valid (S754_finite s m e) -> Zdigits2 (Zpos m) = 24 \/ e = -149.
Proof.
  unfold valid. cbn [valid_binary]. unfold bounded, canonical_mantissa, fexp, SpecFloat.emin. rewrite andb_true_iff.
  intros [H%Z.eqb_eq _]. cbn [Zdigits2]. lia.
Qed.

Lemma not_nan s m e l : 0 <= m -> F32.isnan (binary_round_aux 24 128 s m e l) = false.
Proof.
  intros Hm. unfold binary_round_aux. pose proof (shr_fexp_spec m e l Hm) as (H1 & _). destruct (shr_fexp 24 128 m e l) as [r1 e1].
  pose proof (nearest_even_range (shr_m r1) (loc_of_shr_record r1)) as Hr. cbn [fst] in H1.
  assert (0 <= shr_m r1) by (rewrite H1; apply Z.div_pos; [done|apply Z.pow_pos_nonneg; lia]).
  set (m1 := round_nearest_even _ _) in *. pose proof (shr_fexp_spec m1 e1 loc_Exact ltac:(lia)) as (H2 & _).
  destruct (shr_fexp 24 128 m1 e1 loc_Exact) as [r2 e2]. cbn [fst] in H2.
  assert (0 <= shr_m r2) by (rewrite H2; apply Z.div_pos; [lia|apply Z.pow_pos_nonneg; lia]).
  destruct (shr_m r2); [done| |lia]. by destruct (e2 <=? 128 - 24).
Qed.

(** Multiplied by a finite number other than zero, and divided by one. *)
Lemma mul_number x s m e : number x -> valid (S754_finite s m e) -> number (F32.mul x (S754_finite s m e)).
Proof.
  intros [Hx Hn] Hy. destruct x as [s'|s'| |s' m' e']; try discriminate Hn; try by split.
  unfold F32.mul, SFmul. split; [|by apply not_nan]. apply round_valid; [done|].
  destruct (digits_bounds (Zpos m) ltac:(lia)) as [[H1 _] Hd1]. destruct (digits_bounds (Zpos m') ltac:(lia)) as [[H2 _] Hd2].
  destruct (digits_bounds (Zpos (m' * m)) ltac:(lia)) as [[_ H3] _]. rewrite Pos2Z.inj_mul in *.
  assert (Zdigits2 (Zpos m) = 24 \/ Zdigits2 (Zpos m') = 24 \/ (e = -149 /\ e' = -149)) as Hc.
  { destruct (valid_shape _ _ _ Hx), (valid_shape _ _ _ Hy); auto. }
  assert (Zdigits2 (Zpos m) = 24 \/ Zdigits2 (Zpos m') = 24 -> 24 <= Zdigits2 (Zpos m' * Zpos m)) as H24.
  { intros Hd. assert (23 < Zdigits2 (Zpos m' * Zpos m)); [|lia]. apply (Z.pow_lt_mono_r_iff 2); [lia|apply digits_nonneg|].
    destruct Hd as [Hd|Hd]; rewrite Hd in *; change (2 ^ (24 - 1)) with (2 ^ 23) in *; nia. }
  unfold fexp, SpecFloat.emin. destruct Hc as [?|[?|[-> ->]]]; [specialize (H24 ltac:(auto)); lia..|lia].
Qed.

Lemma div_number x s m e : number x -> number (F32.div x (S754_finite s m e)).
Proof.
  intros [Hx Hn]. destruct x as [s'|s'| |s' m' e']; try discriminate Hn; try by split.
  unfold F32.div, SFdiv. pose proof (div_core m' e' m e) as Hc. cbv zeta in Hc.
  destruct (SFdiv_core_binary 24 128 (Zpos m') e' (Zpos m) e) as [[q ez] l]. destruct Hc as (Hq & He & _).
  split; [by apply round_valid|by apply not_nan].
Qed.

Lemma digits_shift m d : Zdigits2 (Zpos (Pos.iter xO m d)) = Zdigits2 (Zpos m) + Zpos d.
Proof. cbn [Zdigits2]. rewrite digits2_shift. lia. Qed.

Lemma round_number (s : bool) m e : number (binary_round 24 128 s m e).
Proof.
  unfold binary_round, shl_align. change (Zpos (digits2_pos m)) with (Zdigits2 (Zpos m)).
  destruct (fexp 24 128 (Zdigits2 (Zpos m) + e) - e) as [|d|d] eqn:E; (split; [apply round_valid; [done|]|by apply not_nan]); [lia|lia|].
  rewrite digits_shift. replace (Zdigits2 (Zpos m) + Zpos d + _) with (Zdigits2 (Zpos m) + e); lia.
Qed.

Lemma normalize_number n e : number (binary_normalize 24 128 n e false).
Proof. destruct n; [by split|apply round_number..]. Qed.

Lemma add_number x y : number x -> number y -> is_finite x = true -> is_finite y = true -> number (F32.add x y).
Proof.
  intros Hx Hy Hfx Hfy. unfold F32.add, SFadd.
  destruct x as [s|s| |s m e], y as [s'|s'| |s' m' e']; try discriminate Hfx; try discriminate Hfy; try done; [|apply normalize_number].
  by destruct s, s'.
Qed.

(** ** Order, clamping and truncation *)

Lemma canonical_lt m e m' e' :
  valid (S754_finite false m e) -> valid (S754_finite false m' e') -> e < e' ->
  (inject_Z (Zpos m) * pow2 e < inject_Z (Zpos m') * pow2 e')%Q.
Proof.
  unfold valid. cbn [valid_binary]. unfold bounded, canonical_mantissa, fexp, SpecFloat.emin. rewrite !andb_true_iff.
  intros [H1%Z.eqb_eq _] [H2%Z.eqb_eq _] He.
  destruct (digits_bounds (Zpos m) ltac:(lia)) as [[_ Hm] _]. destruct (digits_bounds (Zpos m') ltac:(lia)) as [[Hm' _] _].
  cbn [Zdigits2] in *. replace e' with (e + (e' - e)) by lia. rewrite pow2_split by lia.
  apply Qmult_lt_compat_r; [apply pow2_pos|]. rewrite <- Zlt_Qlt.
  pose proof (Z.pow_le_mono_r 2 (Zpos (digits2_pos m)) 24 ltac:(lia) ltac:(lia)).
  replace (Zpos (digits2_pos m')) with 24 in Hm' by lia.
  pose proof (Z.pow_le_mono_r 2 1 (e' - e) ltac:(lia) ltac:(lia)). nia.
Qed.

(** Comparison of two positive numbers. *)
Lemma compare_positive m e m' e' :
  valid (S754_finite false m e) -> valid (S754_finite false m' e') ->
  match (match Z.compare e e' with Lt => Lt | Gt => Gt | Eq => Pos.compare_cont Eq m m' end) with
  | Lt => (inject_Z (Zpos m) * pow2 e < inject_Z (Zpos m') * pow2 e')%Q
  | Eq => (inject_Z (Zpos m) * pow2 e == inject_Z (Zpos m') * pow2 e')%Q
  | Gt => (inject_Z (Zpos m') * pow2 e' < inject_Z (Zpos m) * pow2 e)%Q
  end.
Proof.
  intros H1 H2. destruct (Z.compare_spec e e') as [->|Hlt|Hgt]; [|by apply canonical_lt..].
  change (Pos.compare_cont Eq m m') with (m ?= m')%positive. destruct (Pos.compare_spec m m') as [->|Hlt|Hgt]; [done| |].
  all: apply Qmult_lt_compat_r; [apply pow2_pos|]; rewrite <- Zlt_Qlt; lia.
Qed.

Lemma ltb_value x y :
  valid x -> valid y -> is_finite x = true -> is_finite y = true -> F32.ltb x y = true <-> (fval x < fval y)%Q.
Proof.
  intros Hx Hy Hfx Hfy. unfold F32.ltb, SFltb, SFcompare.
  destruct x as [s|s| |s m e], y as [s'|s'| |s' m' e']; try discriminate Hfx; try discriminate Hfy; cbn [fval].
  - split; [done|]. by intros ?%Qlt_irrefl.
  - change (if s' then Zneg m' else Zpos m') with (signed s' m'). rewrite signed_value. pose proof (pos_value m' e').
    destruct s'; split; try done. intros. lra.
  - change (if s then Zneg m else Zpos m) with (signed s m). rewrite signed_value. pose proof (pos_value m e).
    destruct s; split; try done; intros; lra.
  - change (if s then Zneg m else Zpos m) with (signed s m). change (if s' then Zneg m' else Zpos m') with (signed s' m').
    rewrite !signed_value. pose proof (pos_value m e). pose proof (pos_value m' e').
    pose proof (compare_positive m e m' e' Hx Hy) as Hc. destruct s, s'.
    + destruct (e ?= e'), (Pos.compare_cont Eq m m'); cbn [CompOpp]; split; intros; try done; lra.
    + split; [intros; lra|done].
    + split; [done|intros; lra].
    + destruct (e ?= e'), (Pos.compare_cont Eq m m'); split; intros; try done; lra.
Qed.

Lemma clamp_value x lo hi :
  valid x -> F32.isnan x = false -> valid lo -> valid hi -> is_finite lo = true -> is_finite hi = true ->
  (fval lo <= fval hi)%Q ->
  let c := F32.clamp x lo hi in
  is_finite c = true /\ (fval lo <= fval c)%Q /\ (fval c <= fval hi)%Q /\ (c = lo \/ c = hi \/ c = x).
Proof.
  intros Hx Hn Hl Hh Hfl Hfh Hle. cbv zeta. unfold F32.clamp.
  destruct (is_finite x) eqn:Hfx.
  - pose proof (ltb_value x lo Hx Hl Hfx Hfl) as H1. pose proof (ltb_value hi x Hh Hx Hfh Hfx) as H2.
    destruct (F32.ltb x lo).
    { split_and!; [done|apply Qle_refl|done|by left]. }
    assert (fval lo <= fval x)%Q by (apply Qnot_lt_le; by intros ?%H1).
    destruct (F32.ltb hi x); (split_and!; [done|try done|try apply Qle_refl|by auto]).
    apply Qnot_lt_le. by intros ?%H2.
  - destruct x as [|s| |]; try discriminate Hfx; try discriminate Hn.
    assert (F32.ltb (S754_infinity s) lo = s) as -> by (by destruct lo, s).
    assert (F32.ltb hi (S754_infinity s) = negb s) as -> by (by destruct hi as [|s'| |], s).
    destruct s; cbn [negb]; split_and!; auto; apply Qle_refl.
Qed.

Lemma trunc_floor r :
  is_finite r = true -> (0 <= fval r)%Q ->
  exists z, SF_trunc r = Some z /\ 0 <= z /\ (inject_Z z <= fval r)%Q /\ (fval r < inject_Z (z + 1))%Q.
Proof.
  intros Hf Hr. destruct r as [s|s| |s m e]; try discriminate Hf; [by exists 0|]. cbn [fval] in *.
  change (if s then Zneg m else Zpos m) with (signed s m) in *. pose proof (pos_value m e) as Hp.
  destruct s; [pose proof (signed_value true m e) as E; cbn iota in E; rewrite E in Hr; lra|]. clear Hr. cbn [signed SF_trunc].
  destruct e as [|p|p].
  - exists (Zpos m). assert (inject_Z (Zpos m) * pow2 0 == inject_Z (Zpos m))%Q as -> by (change (pow2 0) with 1%Q; ring).
    split_and!; [done|done|apply Qle_refl|]. rewrite <- Zlt_Qlt. lia.
  - exists (Zpos m * 2 ^ Zpos p). rewrite pow2_Z, <- inject_Z_mult by lia.
    split_and!; [done|lia|apply Qle_refl|]. rewrite <- Zlt_Qlt. lia.
  - exists (Zpos m / 2 ^ Zpos p). assert (0 < 2 ^ Zpos p) by (apply Z.pow_pos_nonneg; lia).
    assert (inject_Z (Zpos m) * pow2 (Zneg p) * inject_Z (2 ^ Zpos p) == inject_Z (Zpos m))%Q as E.
    { rewrite <- pow2_Z, <- Qmult_assoc, <- pow2_add by lia. replace (Zneg p + Zpos p) with 0 by lia. change (pow2 0) with 1%Q. ring. }
    assert (0 < inject_Z (2 ^ Zpos p))%Q by (by rewrite <- (Zlt_Qlt 0)).
    split_and!; [done|apply Z.div_pos; lia| |].
    + apply (Qmult_le_r _ _ (inject_Z (2 ^ Zpos p))); [done|]. rewrite E, <- inject_Z_mult. apply injZ_le.
      rewrite Z.mul_comm. by apply Z.mul_div_le.
    + apply (Qmult_lt_r _ _ (inject_Z (2 ^ Zpos p))); [done|]. rewrite E, <- inject_Z_mult, <- Zlt_Qlt.
      pose proof (Z.mul_succ_div_gt (Zpos m) (2 ^ Zpos p)). lia.
Qed.

Lemma of_Z_value n : 0 <= n < 2 ^ 24 -> is_finite (F32.of_Z n) = true /\ (fval (F32.of_Z n) == inject_Z n)%Q.
Proof.
  intros Hn. destruct n as [|p|p]; [done| |lia].
  destruct (round_small 24 128 false p ltac:(lia) ltac:(lia) ltac:(lia) ltac:(lia)) as (m & e & E & He & Hm).
  unfold F32.of_Z, binary_normalize. rewrite E. split; [done|]. cbn [fval]. rewrite Hm, <- pow2_split by lia.
  replace (e + - e) with 0 by lia. change (pow2 0) with 1%Q. ring.
Qed.
