(* ===== verification/Types.v ===== *)
(** * Types: the data of include/device/motor/types.h *)
From stdpp Require Import base list numbers.
From Stdlib Require Import ZArith Lia.
From Stdlib Require Import SpecFloat.
From S2P Require Import Prelude CFloat.
#[local] Open Scope Z_scope.
#[local] Open Scope cint_scope.

(** ** Enumerations *)

Inductive MotorStopMode := FullBrake | DynamicBrake | RegenerativeBrake.

Definition MotorStopMode_code (m : MotorStopMode) : Z :=
  match m with FullBrake => 2 | DynamicBrake => 3 | RegenerativeBrake => 4 end.

(** [MotorCommunicationMode] has [uint8_t] underlying type and callers may pass
    any value of it: the code checks the numeric value. *)
Module MotorCommunicationMode.
Definition ClassicCan : Z := 0.
Definition CanFd : Z := 1.
Definition CanOpen : Z := 2.
End MotorCommunicationMode.

Module MotorParameter.
Inductive t :=
| Position | Speed | Current | Power | Kt
| PVTKpRange | PVTKdRange | PVTPosRange | PVTSpdRange | PVTTorRange | PVTCurRange
| UUID | CanTimeout | CurKpKi | SpdKpKi | PosKpKd | BrakeStatus | EncoderAngle
| ProductId | HardwareVersion | FirmwareVersion.

(** The enumerator's value is the query sub-command on the wire. *)
Definition code (p : t) : Z :=
  match p with
  | Position => 1 | Speed => 2 | Current => 3 | Power => 4 | Kt => 22
  | PVTKpRange => 23 | PVTKdRange => 24 | PVTPosRange => 25 | PVTSpdRange => 26
  | PVTTorRange => 27 | PVTCurRange => 28 | UUID => 29 | CanTimeout => 31
  | CurKpKi => 32 | SpdKpKi => 33 | PosKpKd => 34 | BrakeStatus => 37
  | EncoderAngle => 39 | ProductId => 48 | HardwareVersion => 49
  | FirmwareVersion => 50
  end.

#[export] Instance eq_dec : EqDecision t.
Proof. solve_decision. Defined.

Lemma code_inj p q : code p = code q -> p = q.
Proof. destruct p, q; simpl; intros; congruence || lia. Qed.

Lemma code_byte p : byte_ok (code p).
Proof. destruct p; unfold byte_ok; simpl; lia. Qed.
End MotorParameter.

(** [MotorError] has [uint8_t] underlying type and [DecodeMotorError] casts an
    arbitrary 5-bit code into it, so it is the code itself. *)
Module MotorError.
Definition t := Z.
Definition NoError : t := 0.
Definition OverTemperature : t := 1.
Definition OverCurrent : t := 2.
Definition VoltageHigh : t := 3.
Definition VoltageLow : t := 4.
Definition EncoderError : t := 5.
Definition BrakeVoltageHigh : t := 6.
Definition DriverError : t := 7.
Definition OverTemperatureWarning : t := 8.
Definition OutputEncoderError : t := 9.
Definition FetOverTemperature : t := 10.
Definition OverSpeed : t := 11.
Definition TemperatureWarning : t := 12.
Definition NoResponse : t := 255.
End MotorError.

(** ** CAN messages *)

Record MotorPackMsg := mkPack {
  id : Z;             (* uint32_t *)
  frame_flags : Z;    (* uint8_t *)
  len : Z;            (* uint8_t *)
  data : list Z       (* uint8_t[8] *)
}.

#[export] Instance MotorPackMsg_eq_dec : EqDecision MotorPackMsg.
Proof. solve_decision. Defined.

(** A value the C struct can hold. *)
Definition pack_wf (m : MotorPackMsg) : Prop :=
  0 <= id m < 4294967296 /\ byte_ok (frame_flags m) /\ byte_ok (len m) /\
  length (data m) = 8%nat /\ Forall byte_ok (data m).

(** [MotorPackMsg msg{}] with its fields assigned; the payload bytes that the
    code leaves alone are zero. *)
Definition make_pack (i l : Z) (bytes : list Z) : MotorPackMsg :=
  {| id := i; frame_flags := 0; len := l;
     data := bytes ++ replicate (8 - length bytes) 0 |}.

Definition pack_eqb (lhs rhs : MotorPackMsg) : bool :=
  (id lhs =? id rhs) && (frame_flags lhs =? frame_flags rhs) && (len lhs =? len rhs) &&
  bool_decide (data lhs = data rhs).

Lemma pack_eqb_spec l r : pack_eqb l r = true <-> l = r.
Proof.
  unfold pack_eqb. destruct l, r; simpl.
  rewrite !andb_true_iff, !Z.eqb_eq, bool_decide_eq_true.
  split; [intros [[[]]]; congruence | intros [= -> -> -> ->]; done].
Qed.

Record MotorMessage := mkMsg { bus_idx : Z; mdata : MotorPackMsg }.
Definition MotorMessages := list MotorMessage.

#[export] Instance MotorMessage_eq_dec : EqDecision MotorMessage.
Proof. solve_decision. Defined.

(** ** Frame flags *)

Definition kCanFrameFlagEff : Z := 1.
Definition kCanFrameFlagFdBit1 : Z := 2.
Definition kCanFrameFlagFdBit2 : Z := 4.
Definition kCanFrameFlagRtr : Z := 8.
Definition kCanFrameFlagMask : Z := 15.
Definition kCanFrameFlagFdMask : Z := kCanFrameFlagFdBit1 .| kCanFrameFlagFdBit2.

Definition SanitizeCanFrameFlags (flags : Z) : Z := u8 (flags .& kCanFrameFlagMask).

Definition CanFrameFlagsUseExtendedId (flags : Z) : bool :=
  negb (SanitizeCanFrameFlags flags .& kCanFrameFlagEff =? 0).

Definition CanFrameFlagsUseRtr (flags : Z) : bool :=
  negb (SanitizeCanFrameFlags flags .& kCanFrameFlagRtr =? 0).

Definition CanFrameFlagsUseCanFd (flags : Z) : bool :=
  SanitizeCanFrameFlags flags .& kCanFrameFlagFdMask =? kCanFrameFlagFdMask.

Definition CanFrameFlagsHaveValidCanFdBits (flags : Z) : bool :=
  let fd_bits := u8 (SanitizeCanFrameFlags flags .& kCanFrameFlagFdMask) in
  (fd_bits =? 0) || (fd_bits =? kCanFrameFlagFdMask).

(** ** Ranges, gains, properties *)

Record Range (A : Type) := mkRange { rmin : A; rmax : A }.
Arguments mkRange {A} _ _.
Arguments rmin {A} _.
Arguments rmax {A} _.

Record KpKi (A : Type) := mkKpKi { pi_kp : A; pi_ki : A }.
Arguments mkKpKi {A} _ _.
Arguments pi_kp {A} _.
Arguments pi_ki {A} _.

Record KpKd (A : Type) := mkKpKd { pd_kp : A; pd_kd : A }.
Arguments mkKpKd {A} _ _.
Arguments pd_kp {A} _.
Arguments pd_kd {A} _.

Record MotorEncoderAngle := mkAngle { cal_flag : Z; raw_angle : F32.t; cal_angle : F32.t }.

Record MotorProperties := mkProps {
  kp : Range F32.t;
  kd : Range F32.t;
  position : Range F32.t;
  speed : Range F32.t;
  torque : Range F32.t;
  current : Range F32.t;
  kt : F32.t;
  brake : bool;
  fw_version : Z       (* uint32_t, 0: old firmware or unknown *)
}.

Definition zero_range : Range F32.t := mkRange F32.zero F32.zero.
(** [MotorProperties{}] *)
Definition empty_properties : MotorProperties :=
  mkProps zero_range zero_range zero_range zero_range zero_range zero_range F32.zero false 0.

(** ** Feedback *)

Record MotorFeedbackMsg1 := mkFb1 {
  fb_error : MotorError.t;
  fb_position : F32.t;
  fb_speed : F32.t;
  fb_current : F32.t;
  fb_motor_temperature : F32.t;
  fb_mos_temperature : F32.t
}.

(** The default member initialisers. *)
Definition fb1_default : MotorFeedbackMsg1 :=
  mkFb1 MotorError.NoResponse F32.nan F32.nan F32.nan F32.nan F32.nan.

Record MotorFeedbackMsg2 := mkFb2 {
  fb2_error : MotorError.t; fb2_position : F32.t; fb2_current : F32.t;
  fb2_motor_temperature : F32.t }.
Definition fb2_default : MotorFeedbackMsg2 :=
  mkFb2 MotorError.NoResponse F32.zero F32.zero F32.zero.

Record MotorFeedbackMsg3 := mkFb3 {
  fb3_error : MotorError.t; fb3_speed : F32.t; fb3_current : F32.t;
  fb3_motor_temperature : F32.t }.
Definition fb3_default : MotorFeedbackMsg3 :=
  mkFb3 MotorError.NoResponse F32.zero F32.zero F32.zero.

Definition MotorStatus := MotorFeedbackMsg1.

(** [FeedbackStruct<FeedbackType>] for the three feedback numbers. *)
Inductive FeedbackType := Fb1 | Fb2 | Fb3.
Definition FeedbackType_num (t : FeedbackType) : Z :=
  match t with Fb1 => 1 | Fb2 => 2 | Fb3 => 3 end.
Definition FeedbackStruct (t : FeedbackType) : Type :=
  match t with
  | Fb1 => MotorFeedbackMsg1 | Fb2 => MotorFeedbackMsg2 | Fb3 => MotorFeedbackMsg3
  end.
Definition FeedbackStruct_default (t : FeedbackType) : FeedbackStruct t :=
  match t with Fb1 => fb1_default | Fb2 => fb2_default | Fb3 => fb3_default end.

(** ** [MotorParameterTraits]: the raw type of a parameter on the wire and the
    type the caller gets *)

Inductive RawKind :=
| RawFloat | RawU8 | RawU16 | RawU32 | RawInt | RawRangeU16 | RawRangeI16
| RawKpKi | RawKpKd | RawEncoderAngle.

Definition MotorParameterRawType (p : MotorParameter.t) : RawKind :=
  match p with
  | MotorParameter.Position | MotorParameter.Speed
  | MotorParameter.Current | MotorParameter.Power => RawFloat
  | MotorParameter.Kt => RawU16
  | MotorParameter.PVTKpRange | MotorParameter.PVTKdRange => RawRangeU16
  | MotorParameter.PVTPosRange | MotorParameter.PVTSpdRange
  | MotorParameter.PVTTorRange | MotorParameter.PVTCurRange => RawRangeI16
  | MotorParameter.UUID => RawInt
  | MotorParameter.CanTimeout => RawU16
  | MotorParameter.CurKpKi | MotorParameter.SpdKpKi => RawKpKi
  | MotorParameter.PosKpKd => RawKpKd
  | MotorParameter.BrakeStatus => RawU8
  | MotorParameter.EncoderAngle => RawEncoderAngle
  | MotorParameter.ProductId | MotorParameter.HardwareVersion
  | MotorParameter.FirmwareVersion => RawU32
  end.

Definition raw_type (k : RawKind) : Type :=
  match k with
  | RawFloat => F32.t
  | RawU8 | RawU16 | RawU32 | RawInt => Z
  | RawRangeU16 | RawRangeI16 => Range Z
  | RawKpKi => KpKi Z
  | RawKpKd => KpKd Z
  | RawEncoderAngle => MotorEncoderAngle
  end.

Definition MotorParameterRetType (p : MotorParameter.t) : Type :=
  match p with
  | MotorParameter.Position | MotorParameter.Speed | MotorParameter.Current
  | MotorParameter.Power | MotorParameter.Kt => F32.t
  | MotorParameter.PVTKpRange | MotorParameter.PVTKdRange => Range Z
  | MotorParameter.PVTPosRange | MotorParameter.PVTSpdRange
  | MotorParameter.PVTTorRange | MotorParameter.PVTCurRange => Range F32.t
  | MotorParameter.UUID | MotorParameter.CanTimeout | MotorParameter.BrakeStatus
  | MotorParameter.ProductId | MotorParameter.HardwareVersion
  | MotorParameter.FirmwareVersion => Z
  | MotorParameter.CurKpKi | MotorParameter.SpdKpKi => KpKi F32.t
  | MotorParameter.PosKpKd => KpKd F32.t
  | MotorParameter.EncoderAngle => MotorEncoderAngle
  end.

(** ** Lemmas *)

Lemma sanitize_mod flags : SanitizeCanFrameFlags flags = flags mod 16.
Proof.
  unfold SanitizeCanFrameFlags, kCanFrameFlagMask. bits_arith.
  apply Z.mod_small. pose proof (Z.mod_pos_bound flags 16). lia.
Qed.

Lemma sanitize_idem flags :
  SanitizeCanFrameFlags (SanitizeCanFrameFlags flags) = SanitizeCanFrameFlags flags.
Proof. rewrite !sanitize_mod. apply Z.mod_mod. lia. Qed.

Lemma sanitize_byte flags : byte_ok (SanitizeCanFrameFlags flags).
Proof. unfold SanitizeCanFrameFlags. auto with cint. Qed.

Lemma make_pack_data_length i l bytes :
  (length bytes <= 8)%nat -> length (data (make_pack i l bytes)) = 8%nat.
Proof. intros. simpl. rewrite length_app, length_replicate. lia. Qed.

Lemma make_pack_wf i l bytes :
  0 <= i < 4294967296 -> byte_ok l -> (length bytes <= 8)%nat -> Forall byte_ok bytes ->
  pack_wf (make_pack i l bytes).
Proof.
  intros Hi Hl Hn Hb. unfold pack_wf.
  repeat split; try (unfold byte_ok in *; simpl; lia).
  - by apply make_pack_data_length.
  - simpl. apply Forall_app; split; [done|].
    apply Forall_replicate. unfold byte_ok; lia.
Qed.

#[export] Hint Resolve sanitize_byte make_pack_wf : cint.
