(* ===== verification/MathUtils.v ===== *)
(** * MathUtils: src/device/motor/math_utils.cc

    Conversion between a [float] in a range and an unsigned fixed-point integer
    of [bits] bits. *)
From stdpp Require Import base list numbers.
From Stdlib Require Import ZArith Lia.
From Stdlib Require Import SpecFloat.
From S2P Require Import Prelude CFloat.
#[local] Open Scope Z_scope.

(** [None]: the cast is undefined (NaN, an infinite range, ...). *)
Definition FloatToUint (x x_min x_max : F32.t) (bits : Z) : option Z :=
  let span := F32.sub x_max x_min in
  let offset := x_min in
  let clamped := F32.clamp x x_min x_max in
  cast_i32 (F32.div (F32.mul (F32.sub clamped offset) (F32.of_Z ((1 ≪ bits) - 1))) span).

Definition UintToFloat (x_int : Z) (x_min x_max : F32.t) (bits : Z) : F32.t :=
  let span := F32.sub x_max x_min in
  let offset := x_min in
  F32.add (F32.div (F32.mul (F32.of_Z x_int) span) (F32.of_Z ((1 ≪ bits) - 1))) offset.

Example FloatToUint_max :
  FloatToUint (f32_lit 25 2) (f32_lit (-25) 2) (f32_lit 25 2) 16 = Some 65535.
Proof. vm_compute. reflexivity. Qed.
Example FloatToUint_clamps :
  FloatToUint (F32.of_Z 700) F32.zero (F32.of_Z 500) 12 = Some 4095.
Proof. vm_compute. reflexivity. Qed.
Example UintToFloat_mid :
  UintToFloat 4095 F32.zero (F32.of_Z 500) 12 = F32.of_Z 500.
Proof. vm_compute. reflexivity. Qed.
