(* ===== verification/Quantise.v ===== *)
(** * Quantise: what [FloatToUint] and [UintToFloat] of MathUtils give

    For every number and every range of moderate size the cast of [FloatToUint] is
    defined, its result fits its bits, and [UintToFloat] brings back the clamped number
    up to one and a quarter steps of the range and the rounding of the operations.  An
    integer that is divided by 10 or 100 and multiplied again comes back or is one step
    nearer to zero. *)
From stdpp Require Import base list numbers.
From Stdlib Require Import ZArith QArith Qabs Qpower Lqa Lia.
From Stdlib Require Import SpecFloat.
From S2P Require Import Prelude CFloat FloatError MathUtils.
#[local] Open Scope Z_scope.

(** A range the driver can quantise in: finite ends in order, of moderate size, and not
    too close. *)
Record proper_range (lo hi : F32.t) : Prop := {
  range_lo : valid lo /\ is_finite lo = true /\ (Qabs (fval lo) <= pow2 32)%Q;
  range_hi : valid hi /\ is_finite hi = true /\ (Qabs (fval hi) <= pow2 32)%Q;
  range_span : (pow2 (-32) <= fval hi - fval lo)%Q
}.

(** [x] is within [k] units of [v], relative to [scale]. *)
Definition near (k : Z) (scale v x : Q) : Prop := (v - inject_Z k * unit * scale <= x)%Q /\ (x <= v + inject_Z k * unit * scale)%Q.

Lemma tiny_small s : (pow2 (-40) <= s)%Q -> (tiny <= unit * s)%Q.
Proof.
  intros H. assert (tiny <= unit * pow2 (-40))%Q by done.
  assert (unit * pow2 (-40) <= unit * s)%Q by (by apply Qmult_le_l). lra.
Qed.

(** A rounded value is near every value its exact one is near, one or two units more. *)
Lemma rounds_near v r s : rounds v r -> (Qabs v <= s)%Q -> (pow2 (-40) <= s)%Q -> near 2 s v (fval r).
Proof.
  intros (_ & H & _) Hv Hs. apply Qabs_Qle_condition in H. pose proof (tiny_small s Hs) as Ht.
  unfold error in H. assert (unit * Qabs v <= unit * s)%Q by (by apply Qmult_le_l).
  unfold near. change (inject_Z 2) with 2%Q. split; lra.
Qed.

Section Algebra.
Local Open Scope Q_scope.
Variables S D N d s p q : Q.
Hypotheses (HS : 0 < S) (HN : 1 <= N) (HN' : N <= 65535) (HD : 0 <= D) (HDS : D <= S).
Hypotheses (Hd : near 2 S D d) (Hd0 : 0 <= d) (Hs : near 2 S S s) (Hp : near 2 (S * N * 2) (d * N) p) (Hp0 : 0 <= p) (Hq : near 2 (N * 2) (p / s) q).

(** The quotient of the rounded product and the rounded span. *)
Lemma product_near : near 6 (S * N) (D * N) p.
Proof.
  destruct Hd as [Hd1 Hd2], Hp as [Hp1 Hp2]. unfold near in *. change (inject_Z 2) with 2 in *. change (inject_Z 6) with 6.
  assert ((D - 2 * unit * S) * N <= d * N) by (apply Qmult_le_compat_r; lra).
  assert (d * N <= (D + 2 * unit * S) * N) by (apply Qmult_le_compat_r; lra). split; lra.
Qed.

Lemma span_positive : (1 - 2 * unit) * S <= s /\ s <= (1 + 2 * unit) * S.
Proof. destruct Hs as [H1 H2]. unfold near in *. change (inject_Z 2) with 2 in *. split; lra. Qed.

Lemma cancel_scale a b : S * a <= S * b -> a <= b.
Proof. intros H. by apply (Qmult_le_l _ _ S). Qed.

Lemma quotient_near : 0 <= p / s /\ near 10 N (D / S * N) (p / s).
Proof.
  destruct product_near as [Hp1 Hp2], span_positive as [Hs1 Hs2].
  change (inject_Z 6) with 6 in *. unfold near. change (inject_Z 10) with 10. change unit with (1 # 4194304) in *.
  assert (0 < s) as Hs0 by lra. set (k := D / S). set (w := p / s).
  assert (D == k * S) as Hk by (unfold k; field; lra). assert (p == w * s) as Hw by (unfold w; field; lra).
  assert (0 <= w) as Hw0 by (apply Qle_shift_div_l; lra).
  assert (0 <= k) as Hk0 by (apply Qle_shift_div_l; lra). assert (k <= 1) as Hk1 by (apply Qle_shift_div_r; lra).
  clearbody k w. rewrite Hk, Hw in *.
  assert (k * N <= 1 * N) by (apply Qmult_le_compat_r; lra).
  assert (w * ((1 - 2 * (1 # 4194304)) * S) <= w * s) by (rewrite !(Qmult_comm w); apply Qmult_le_compat_r; lra).
  assert (w * s <= w * ((1 + 2 * (1 # 4194304)) * S)) by (rewrite !(Qmult_comm w); apply Qmult_le_compat_r; lra).
  assert ((1 - 2 * (1 # 4194304)) * w <= k * N + 6 * (1 # 4194304) * N) by (apply cancel_scale; lra).
  assert (k * N - 6 * (1 # 4194304) * N <= (1 + 2 * (1 # 4194304)) * w) by (apply cancel_scale; lra).
  split_and!; [done|lra|lra].
Qed.

(** The result is within a quarter of the exact quotient. *)
Lemma result_quarter : D / S * N - (1 # 4) <= q /\ q <= D / S * N + (1 # 4).
Proof.
  destruct quotient_near as (H0 & H1 & H2), Hq as [Hq1 Hq2]. unfold near in *.
  change (inject_Z 10) with 10 in *. change (inject_Z 2) with 2 in *. change unit with (1 # 4194304) in *. split; lra.
Qed.
End Algebra.

Section BackAlgebra.
Local Open Scope Q_scope.
Variables S N z s p : Q.
Hypotheses (HS : 0 < S) (HN : 1 <= N) (Hz : 0 <= z) (HzN : z <= N) (Hs : near 2 S S s) (Hp : near 2 (N * (S * 2)) (z * s) p) (Hp0 : 0 <= p).

Lemma back_near : 0 <= p / N /\ near 6 S (z / N * S) (p / N).
Proof.
  destruct Hp as [Hp1 Hp2], Hs as [Hs1 Hs2]. unfold near in *. change (inject_Z 2) with 2 in *. change (inject_Z 6) with 6.
  change unit with (1 # 4194304) in *. set (k := z / N). set (w := p / N).
  assert (z == k * N) as Hk by (unfold k; field; lra). assert (p == w * N) as Hw by (unfold w; field; lra).
  assert (z * S <= N * S) by (apply Qmult_le_compat_r; lra).
  assert (z * ((1 - 2 * (1 # 4194304)) * S) <= z * s) by (rewrite !(Qmult_comm z); apply Qmult_le_compat_r; lra).
  assert (z * s <= z * ((1 + 2 * (1 # 4194304)) * S)) by (rewrite !(Qmult_comm z); apply Qmult_le_compat_r; lra).
  assert (0 <= w) as Hw0 by (apply Qle_shift_div_l; lra). clearbody k w. rewrite Hk, Hw in *.
  split_and!; [done|apply (Qmult_le_l _ _ N); lra|apply (Qmult_le_l _ _ N); lra].
Qed.
End BackAlgebra.

(** ** The two conversions *)

Definition steps (bits : Z) : Q := inject_Z (2 ^ bits - 1).

Lemma steps_range bits : 1 <= bits <= 16 -> (1 <= steps bits)%Q /\ (steps bits <= 65535)%Q.
Proof.
  intros Hb. pose proof (Z.pow_le_mono_r 2 1 bits ltac:(lia) ltac:(lia)). pose proof (Z.pow_le_mono_r 2 bits 16 ltac:(lia) ltac:(lia)).
  unfold steps. split; [apply (injZ_le 1)|apply (injZ_le _ 65535)]; lia.
Qed.

Lemma steps_float bits :
  1 <= bits <= 16 -> is_finite (F32.of_Z ((1 ≪ bits) - 1)) = true /\ (fval (F32.of_Z ((1 ≪ bits) - 1)) == steps bits)%Q.
Proof.
  intros Hb. rewrite Z.shiftl_1_l. apply of_Z_value.
  pose proof (Z.pow_le_mono_r 2 1 bits ltac:(lia) ltac:(lia)). pose proof (Z.pow_le_mono_r 2 bits 16 ltac:(lia) ltac:(lia)). lia.
Qed.

Lemma Qabs_le a b : (0 <= a)%Q -> (a <= b)%Q -> (Qabs a <= b)%Q.
Proof. intros H H'. by rewrite Qabs_pos. Qed.

(** The span of a range, exact and rounded. *)
Lemma range_spans lo hi :
  proper_range lo hi ->
  let S := (fval hi - fval lo)%Q in
  (pow2 (-32) <= S)%Q /\ (S <= pow2 33)%Q /\ (- pow2 32 <= fval lo)%Q /\ (fval lo <= pow2 32)%Q /\
  is_finite (F32.sub hi lo) = true /\ near 2 S S (fval (F32.sub hi lo)).
Proof.
  intros [(Hvl & Hfl & Hl%Qabs_Qle_condition) (Hvh & Hfh & Hh%Qabs_Qle_condition) Hs]. cbv zeta.
  assert (pow2 33 == pow2 32 + pow2 32)%Q as E by done. assert (0 < pow2 (-32))%Q by done.
  assert (fval hi - fval lo <= pow2 33)%Q as H33 by (rewrite E; lra).
  assert (rounds (fval hi - fval lo) (F32.sub hi lo)) as Hr.
  { apply sub_rounds; [done|done|]. apply Qabs_le; [lra|]. assert (pow2 33 <= pow2 100)%Q by done. lra. }
  split_and!; [done|done|lra|lra|apply Hr|]. apply rounds_near; [done|apply Qabs_le; lra|].
  assert (pow2 (-40) <= pow2 (-32))%Q by done. lra.
Qed.

(** One operation on numbers that are not negative. *)
Lemma stage v r scale :
  ((Qabs v <= pow2 100)%Q -> rounds v r) -> (0 <= v)%Q -> (v <= scale)%Q -> (pow2 (-40) <= scale)%Q -> (scale <= pow2 60)%Q ->
  is_finite r = true /\ (0 <= fval r)%Q /\ near 2 scale v (fval r).
Proof.
  intros Hr H0 Hs Hlo Hhi. assert (pow2 60 <= pow2 100)%Q by done. specialize (Hr ltac:(apply Qabs_le; lra)).
  split_and!; [apply Hr|by apply Hr|apply rounds_near; [done|by apply Qabs_le|done]..].
Qed.

(** The numbers that [FloatToUint] goes through. *)
Lemma FloatToUint_stages c lo hi bits :
  proper_range lo hi -> 1 <= bits <= 16 -> is_finite c = true -> (fval lo <= fval c)%Q -> (fval c <= fval hi)%Q ->
  let S := (fval hi - fval lo)%Q in
  let D := (fval c - fval lo)%Q in
  let q := F32.div (F32.mul (F32.sub c lo) (F32.of_Z ((1 ≪ bits) - 1))) (F32.sub hi lo) in
  is_finite q = true /\ (0 <= fval q)%Q /\
  (D / S * steps bits - (1 # 4) <= fval q)%Q /\ (fval q <= D / S * steps bits + (1 # 4))%Q.
Proof.
  intros Hr Hb Hfc Hlo Hhi. cbv zeta. destruct (range_spans lo hi Hr) as (HS & HS' & _ & _ & Hfs & Hs).
  destruct Hr as [(_ & Hfl & _) _ _]. destruct (steps_range bits Hb) as [HN HN']. destruct (steps_float bits Hb) as [Hfn En].
  rewrite <- En in *. set (S := (fval hi - fval lo)%Q) in *. set (n := F32.of_Z ((1 ≪ bits) - 1)) in *. set (s := F32.sub hi lo) in *.
  assert (pow2 (-40) <= pow2 (-32))%Q by done. assert (0 < pow2 (-32))%Q by done. assert (pow2 (-40) <= 1)%Q by done.
  assert (pow2 33 * 262144 <= pow2 60)%Q by done. assert (262144 <= pow2 60)%Q by done.
  destruct (stage _ _ S (sub_rounds c lo Hfc Hfl)) as (Hfd & Hd0 & Hd); [lra|unfold S; lra|lra|lra|].
  assert (fval (F32.sub c lo) <= S * 2)%Q as Hd2.
  { destruct Hd as [_ Hd]. change (inject_Z 2) with 2%Q in Hd. change unit with (1 # 4194304)%Q in Hd. unfold S in *. lra. }
  set (D := (fval c - fval lo)%Q) in *. set (d := F32.sub c lo) in *.
  assert (fval d * fval n <= S * 2 * fval n)%Q by (apply Qmult_le_compat_r; lra).
  assert (S * fval n <= S * 65535)%Q by (apply Qmult_le_l; lra). assert (S * 1 <= S * fval n)%Q by (apply Qmult_le_l; lra).
  destruct (stage _ _ (S * fval n * 2)%Q (mul_rounds d n Hfd Hfn)) as (Hfp & Hp0 & Hp); [by apply Qmult_le_0_compat; lra|lra|lra|lra|].
  set (p := F32.mul d n) in *. assert (0 <= D)%Q as HD by (unfold D; lra). assert (D <= S)%Q as HDS by (unfold D, S; lra).
  destruct (quotient_near S D (fval n) (fval d) (fval s) (fval p)) as (Hw0 & Hw); [lra|done..|].
  assert (D / S * fval n <= 1 * fval n)%Q by (apply Qmult_le_compat_r; [apply Qle_shift_div_r; lra|lra]).
  destruct (span_positive S (fval s) Hs) as [Hs1 _]. assert (~ fval s == 0)%Q as Hs0 by (change unit with (1 # 4194304)%Q in Hs1; lra).
  assert (fval p / fval s <= fval n * 2)%Q.
  { destruct Hw as [_ Hw]. change (inject_Z 10) with 10%Q in Hw. change unit with (1 # 4194304)%Q in Hw. lra. }
  destruct (stage _ _ (fval n * 2)%Q (div_rounds p s Hfp Hfs Hs0)) as (Hfq & Hq0 & Hq); [lra..|].
  split_and!; [done|done|..]; by eapply (result_quarter S D (fval n) (fval d) (fval s) (fval p)); try eassumption; lra.
Qed.

(** The clamped number as a fraction of the range, in steps. *)
Definition position_in (x lo hi : F32.t) (bits : Z) : Q :=
  ((fval (F32.clamp x lo hi) - fval lo) / (fval hi - fval lo) * steps bits)%Q.

Lemma proper_order lo hi : proper_range lo hi -> (fval lo <= fval hi)%Q.
Proof. intros [_ _ H]. assert (0 < pow2 (-32))%Q by done. lra. Qed.

(** For every number that is not a NaN and every proper range the cast is defined, the
    result fits its bits and is the exact position of the clamped number, truncated, up
    to a quarter of a step. *)
Theorem FloatToUint_quantises x lo hi bits :
  valid x -> F32.isnan x = false -> proper_range lo hi -> 1 <= bits <= 16 ->
  exists z, FloatToUint x lo hi bits = Some z /\ 0 <= z < 2 ^ bits /\
    (position_in x lo hi bits - (5 # 4) <= inject_Z z)%Q /\ (inject_Z z <= position_in x lo hi bits + (1 # 4))%Q.
Proof.
  intros Hx Hn Hr Hb. pose proof (proper_order _ _ Hr) as Hle.
  destruct Hr as [(Hvl & Hfl & Hl) (Hvh & Hfh & Hh) Hs] eqn:Hr'. clear Hr'.
  destruct (clamp_value x lo hi Hx Hn Hvl Hvh Hfl Hfh Hle) as (Hfc & Hlo & Hhi & _).
  destruct (FloatToUint_stages _ _ _ _ Hr Hb Hfc Hlo Hhi) as (Hfq & Hq0 & Hq1 & Hq2).
  unfold FloatToUint, position_in. set (q := F32.div _ _) in *. set (k := (_ / _ * _)%Q) in *.
  destruct (trunc_floor q Hfq Hq0) as (z & Ez & Hz0 & Hz1 & Hz2). rewrite inject_Z_plus in Hz2. change (inject_Z 1) with 1%Q in Hz2.
  assert (z < 2 ^ bits) as Hz.
  { destruct (steps_range bits Hb) as [HN _]. assert (0 < pow2 (-32))%Q by done.
    assert (k <= 1 * steps bits)%Q as Hk by (apply Qmult_le_compat_r; [apply Qle_shift_div_r; lra|lra]).
    assert (inject_Z z < inject_Z (2 ^ bits))%Q as Hlt.
    { assert (inject_Z (2 ^ bits) == steps bits + 1)%Q as -> by (unfold steps, Zminus; rewrite inject_Z_plus; change (inject_Z (- (1))) with (-1)%Q; ring). lra. }
    by rewrite <- Zlt_Qlt in Hlt. }
  pose proof (Z.pow_le_mono_r 2 bits 16 ltac:(lia) ltac:(lia)).
  exists z. unfold cast_i32, SF_cast. rewrite Ez. replace ((-2147483648 <=? z) && (z <=? 2147483647))%bool with true by lia.
  split_and!; [done|done|done|lra|lra].
Qed.

(** The last step of [UintToFloat]: the offset. *)
Lemma offset_close m lo S v :
  is_finite m = true -> is_finite lo = true -> (0 <= fval m)%Q -> (fval m <= S * 2)%Q -> (pow2 (-32) <= S)%Q -> (S <= pow2 33)%Q ->
  (- pow2 32 <= fval lo)%Q -> (fval lo <= pow2 32)%Q -> near 10 S v (fval m) ->
  is_finite (F32.add m lo) = true /\ near 32 (Qabs (fval lo) + S) (fval lo + v) (fval (F32.add m lo)).
Proof.
  intros Hfm Hfl Hm0 Hm HS HS' Hl Hl' [Hm1 Hm2].
  assert (pow2 32 + pow2 33 * 4 <= pow2 100)%Q by done. assert (pow2 (-40) <= pow2 (-32))%Q by done. assert (0 < pow2 (-32))%Q by done.
  assert (- Qabs (fval lo) <= fval lo)%Q by (pose proof (Qle_Qabs (- fval lo)) as Ho; rewrite Qabs_opp in Ho; lra).
  pose proof (Qle_Qabs (fval lo)). assert (Qabs (fval lo) <= pow2 32)%Q by (apply Qabs_Qle_condition; lra).
  pose proof (Qabs_nonneg (fval lo)).
  assert (Qabs (fval m + fval lo) <= Qabs (fval lo) + S * 2)%Q as Ha by (apply Qabs_Qle_condition; lra).
  assert (rounds (fval m + fval lo) (F32.add m lo)) as Hr by (apply add_rounds; [done|done|lra]).
  pose proof (rounds_near _ _ (Qabs (fval lo) + S * 2)%Q Hr Ha ltac:(lra)) as [Hr1 Hr2]. split; [apply Hr|].
  unfold near. change (inject_Z 2) with 2%Q in *. change (inject_Z 10) with 10%Q in *. change (inject_Z 32) with 32%Q.
  change unit with (1 # 4194304)%Q in *. split; lra.
Qed.

(** The rounding of [UintToFloat]. *)
Lemma UintToFloat_close z lo hi bits :
  proper_range lo hi -> 1 <= bits <= 16 -> 0 <= z < 2 ^ bits ->
  let S := (fval hi - fval lo)%Q in
  let v := (fval lo + inject_Z z / steps bits * S)%Q in
  let r := UintToFloat z lo hi bits in
  is_finite r = true /\ near 32 (Qabs (fval lo) + S) v (fval r).
Proof.
  intros Hr Hb Hz. cbv zeta. destruct (range_spans lo hi Hr) as (HS & HS' & Hl & Hl' & Hfs & Hs).
  destruct Hr as [(_ & Hfl & _) _ _]. destruct (steps_range bits Hb) as [HN HN']. destruct (steps_float bits Hb) as [Hfn En].
  destruct (of_Z_value z) as [Hfz Ez]; [pose proof (Z.pow_le_mono_r 2 bits 16); lia|].
  assert (0 <= inject_Z z)%Q as Hz0 by (apply (injZ_le 0); lia).
  assert (inject_Z z <= steps bits)%Q as Hz1 by (apply injZ_le; lia).
  unfold UintToFloat. rewrite <- En, <- Ez in *.
  set (S := (fval hi - fval lo)%Q) in *. set (n := F32.of_Z ((1 ≪ bits) - 1)) in *. set (i := F32.of_Z z) in *. set (s := F32.sub hi lo) in *.
  destruct (span_positive S (fval s) Hs) as [Hs1 Hs2]. change unit with (1 # 4194304)%Q in Hs1, Hs2.
  assert (pow2 (-40) <= pow2 (-32))%Q by done. assert (0 < pow2 (-32))%Q by done.
  assert (pow2 33 * 262144 <= pow2 60)%Q by done. assert (pow2 32 + pow2 33 * 4 <= pow2 100)%Q by done.
  assert (fval i * fval s <= fval n * fval s)%Q by (apply Qmult_le_compat_r; lra).
  assert (fval n * fval s <= fval n * (S * 2))%Q by (apply Qmult_le_l; lra).
  assert (fval n * (S * 2) <= 65535 * (S * 2))%Q by (apply Qmult_le_compat_r; lra).
  assert (1 * (S * 2) <= fval n * (S * 2))%Q by (apply Qmult_le_compat_r; lra).
  destruct (stage _ _ (fval n * (S * 2))%Q (mul_rounds i s Hfz Hfs)) as (Hfp & Hp0 & Hp); [by apply Qmult_le_0_compat; lra|lra|lra|lra|].
  set (p := F32.mul i s) in *.
  destruct (back_near S (fval n) (fval i) (fval s) (fval p)) as (Hw0 & Hw1 & Hw2); [lra|done..|].
  set (k := (fval i / fval n)%Q) in *. assert (k * S <= 1 * S)%Q by (apply Qmult_le_compat_r; [apply Qle_shift_div_r; lra|lra]).
  change (inject_Z 6) with 6%Q in *. change unit with (1 # 4194304)%Q in Hw1, Hw2.
  assert (~ fval n == 0)%Q as Hn0 by lra.
  destruct (stage _ _ (S * 2)%Q (div_rounds p n Hfp Hfn Hn0)) as (Hfm & Hm0 & Hm1 & Hm2); [lra..|].
  set (m := F32.div p n) in *. change (inject_Z 2) with 2%Q in Hm1, Hm2. change unit with (1 # 4194304)%Q in Hm1, Hm2.
  destruct (offset_close m lo S (k * S)%Q) as (Hf & Ho1 & Ho2); try done; try lra; [split; change (inject_Z 10) with 10%Q; change unit with (1 # 4194304)%Q; lra|].
  split; [done|]. unfold near. by rewrite <- En, <- Ez.
Qed.

(** What a value may lose on its way through [bits] bits: 5/4 of a step and a 131072nd of
    the size of the range. *)
Definition quantum (lo hi : F32.t) (bits : Z) : Q :=
  ((5 # 4) * ((fval hi - fval lo) / inject_Z (2 ^ bits - 1)) + (1 # 131072) * (Qabs (fval lo) + (fval hi - fval lo)))%Q.

(** [v] is [x], clamped, up to that. *)
Definition recovers (lo hi : F32.t) (bits : Z) (x v : F32.t) : Prop :=
  is_finite v = true /\ (Qabs (fval v - fval (F32.clamp x lo hi)) <= quantum lo hi bits)%Q.

Lemma quantise_recover x lo hi bits :
  number x -> proper_range lo hi -> 1 <= bits <= 16 ->
  exists z, FloatToUint x lo hi bits = Some z /\ 0 <= z < 2 ^ bits /\ recovers lo hi bits x (UintToFloat z lo hi bits).
Proof.
  intros [Hx Hn] Hr Hb. destruct (FloatToUint_quantises x lo hi bits Hx Hn Hr Hb) as (z & Ez & Hz & Hz1 & Hz2).
  destruct (UintToFloat_close z lo hi bits Hr Hb Hz) as (Hf & H1 & H2). exists z. unfold recovers, quantum. split_and!; [done|lia|lia|done|].
  change (inject_Z (2 ^ bits - 1)) with (steps bits). destruct (steps_range bits Hb) as [HN _]. unfold position_in in *.
  destruct (range_spans lo hi Hr) as (HS & _). assert (0 < pow2 (-32))%Q by done.
  set (S := (fval hi - fval lo)%Q) in *. set (c := fval (F32.clamp x lo hi)) in *. set (N := steps bits) in *.
  change (inject_Z 32) with 32%Q in *. change unit with (1 # 4194304)%Q in *.
  set (k := (inject_Z z / N)%Q) in *. set (j := ((c - fval lo) / S)%Q) in *. set (t := (S / N)%Q).
  assert (inject_Z z == k * N)%Q as Ek by (unfold k; field; lra). assert (c - fval lo == j * S)%Q as Ej by (unfold j; field; lra).
  assert (S == t * N)%Q as Et by (unfold t; field; lra). assert (0 < t)%Q by (apply Qlt_shift_div_l; lra).
  clearbody k j t. rewrite Ek in Hz1, Hz2.
  assert (t * (j * N - (5 # 4)) <= t * (k * N))%Q by (apply Qmult_le_l; lra).
  assert (t * (k * N) <= t * (j * N + (1 # 4)))%Q by (apply Qmult_le_l; lra).
  assert (k * S == t * (k * N))%Q as Ekt by (rewrite Et; ring). assert (j * S == t * (j * N))%Q as Ejt by (rewrite Et; ring).
  rewrite Ekt in H1, H2. rewrite Ejt in Ej. apply Qabs_Qle_condition. split; lra.
Qed.

(** C11: Quantising loses at most a step and a quarter: for every number, every proper
    range and 1 to 16 bits, the cast of [FloatToUint] is defined, its result fits its bits,
    and [UintToFloat] gives back a finite number that differs from the clamped one by at
    most 5/4 of a step and a 131072nd of the size of the range. *)
Theorem quantisation_roundtrip x lo hi bits :
  number x -> proper_range lo hi -> 1 <= bits <= 16 ->
  exists z, FloatToUint x lo hi bits = Some z /\ 0 <= z < 2 ^ bits /\ recovers lo hi bits x (UintToFloat z lo hi bits).
Proof. intros Hx Hr Hb. by apply quantise_recover. Qed.

(** A number that is in the range already is not clamped again. *)
Lemma clamp_clamp x lo hi : number x -> proper_range lo hi -> F32.clamp (F32.clamp x lo hi) lo hi = F32.clamp x lo hi.
Proof.
  intros [Hx Hn] Hr. pose proof (proper_order _ _ Hr) as Hle.
  destruct Hr as [(Hvl & Hfl & _) (Hvh & Hfh & _) _].
  destruct (clamp_value x lo hi Hx Hn Hvl Hvh Hfl Hfh Hle) as (Hfc & Hlo & Hhi & Hc).
  assert (valid (F32.clamp x lo hi)) as Hvc by (by destruct Hc as [-> | [-> | ->]]).
  set (c := F32.clamp x lo hi) in *. unfold F32.clamp.
  pose proof (ltb_value c lo Hvc Hvl Hfc Hfl) as H1. pose proof (ltb_value hi c Hvh Hvc Hfh Hfc) as H2.
  destruct (F32.ltb c lo); [destruct H1 as [H1 _]; specialize (H1 eq_refl); lra|].
  destruct (F32.ltb hi c); [destruct H2 as [H2 _]; specialize (H2 eq_refl); lra|done].
Qed.

Lemma clamp_number x lo hi : number x -> proper_range lo hi -> number (F32.clamp x lo hi).
Proof.
  intros [Hx Hn] Hr. pose proof (proper_order _ _ Hr) as Hle. destruct Hr as [(Hvl & Hfl & _) (Hvh & Hfh & _) _].
  destruct (clamp_value x lo hi Hx Hn Hvl Hvh Hfl Hfh Hle) as (Hfc & _ & _ & Hc).
  split; [by destruct Hc as [-> | [-> | ->]]|by destruct (F32.clamp x lo hi)].
Qed.

Lemma example_range : proper_range (f32_lit (-25) 2) (f32_lit 25 2).
Proof. split; [split_and!; by vm_compute..|by vm_compute]. Qed.

Lemma quantisation_roundtrip_witness :
  exists z, FloatToUint (F32.of_Z 7) (f32_lit (-25) 2) (f32_lit 25 2) 16 = Some z /\ 0 <= z < 65536.
Proof.
  destruct (quantisation_roundtrip (F32.of_Z 7) (f32_lit (-25) 2) (f32_lit 25 2) 16) as (z & Ez & Hz & _);
    [by split; vm_compute|exact example_range|lia|]. exists z. split; [exact Ez|exact Hz].
Defined.

(** ** Integers through a division and a multiplication *)

Lemma round_aux_opp s m e l : binary_round_aux 24 128 (negb s) m e l = SFopp (binary_round_aux 24 128 s m e l).
Proof. unfold binary_round_aux. repeat case_match; done. Qed.

Lemma of_Z_opp v : 0 < v -> F32.of_Z (- v) = SFopp (F32.of_Z v).
Proof. destruct v as [|p|p]; [done| |done]. intros _.
  change (F32.of_Z (- Zpos p)) with (binary_round 24 128 true p 0). change (F32.of_Z (Zpos p)) with (binary_round 24 128 false p 0).
  unfold binary_round. destruct (shl_align _ _ _) as [m e]. apply (round_aux_opp false).
Qed.

Lemma mul_opp x y : F32.mul (SFopp x) y = SFopp (F32.mul x y).
Proof.
  destruct x as [s|s| |s m e], y as [s'|s'| |s' m' e']; unfold F32.mul; cbn [SFopp SFmul];
    rewrite <- ?negb_xorb_l; try done. apply round_aux_opp.
Qed.

Lemma div_opp x y : F32.div (SFopp x) y = SFopp (F32.div x y).
Proof.
  destruct x as [s|s| |s m e], y as [s'|s'| |s' m' e']; unfold F32.div; cbn [SFopp SFdiv];
    rewrite <- ?negb_xorb_l; try done. destruct (SFdiv_core_binary _ _ _ _ _ _) as [[mz ez] lz]. apply round_aux_opp.
Qed.

Lemma trunc_opp x : SF_trunc (SFopp x) = Z.opp <$> SF_trunc x.
Proof. destruct x as [s|s| |s m e]; try done. destruct s; cbn; f_equal; lia. Qed.

(** A word that is divided by 10 or 100, kept as a float, multiplied again and
    truncated. *)
Definition through (den v : Z) : F32.t := F32.mul (F32.div (F32.of_Z v) (F32.of_Z den)) (F32.of_Z den).

Lemma through_nonneg den v :
  den = 10 \/ den = 100 -> 0 <= v <= 32768 ->
  exists z, SF_trunc (through den v) = Some z /\ 0 <= z /\ v - 1 <= z <= v.
Proof.
  intros Hden Hv. unfold through. destruct (of_Z_value v ltac:(lia)) as [Hfv Ev]. destruct (of_Z_value den ltac:(lia)) as [Hfd Ed].
  assert (0 <= inject_Z v)%Q by (apply (injZ_le 0); lia). assert (inject_Z v <= 32768)%Q by (apply (injZ_le _ 32768); lia).
  assert (inject_Z den == 10 \/ inject_Z den == 100)%Q as Hq by (destruct Hden as [-> | ->]; [by left|by right]).
  set (x := F32.of_Z v) in *. set (y := F32.of_Z den) in *.
  assert (fval x / fval y == inject_Z v * (1 # 10) /\ fval y == 10 \/ fval x / fval y == inject_Z v * (1 # 100) /\ fval y == 100)%Q as Hc.
  { destruct Hq as [Hq|Hq]; [left|right]; rewrite Ev, Ed, Hq; (split; [field|done]). }
  assert (65536 <= pow2 100)%Q as Hbig by done. assert (pow2 (-40) <= 1)%Q as Hsmall by done.
  assert (Qabs (fval x / fval y) <= 4096)%Q as Ha by (apply Qabs_Qle_condition; destruct Hc as [[E _]|[E _]]; rewrite E; lra).
  assert (~ fval y == 0)%Q as Hne by (destruct Hc as [[_ E]|[_ E]]; rewrite E; lra).
  assert (Qabs (fval x / fval y) <= pow2 100)%Q as Ha' by lra.
  pose proof (div_rounds x y Hfv Hfd Hne Ha') as Hr. set (d := F32.div x y) in *.
  assert (exists s, Qabs (fval x / fval y) <= s /\ pow2 (-40) <= s /\ s * fval y == 32768)%Q as (s & Hs & Hs0 & Es).
  { destruct Hc as [[E Ey]|[E Ey]]; [exists (32768 # 10)%Q|exists (32768 # 100)%Q]; (split_and!;
      [apply Qabs_Qle_condition; rewrite E; lra|lra|rewrite Ey; field]). }
  destruct (rounds_near _ _ s Hr Hs Hs0) as [Hd1 Hd2]. change (inject_Z 2) with 2%Q in *. change unit with (1 # 4194304)%Q in *.
  assert (0 <= fval d)%Q as Hd0 by (apply Hr; destruct Hc as [[E _]|[E _]]; rewrite E; lra).
  assert (fval x / fval y * fval y == inject_Z v)%Q as Em by (rewrite <- Ev; field; done).
  assert (inject_Z v - (1 # 64) <= fval d * fval y /\ fval d * fval y <= inject_Z v + (1 # 64))%Q as [Hp1 Hp2].
  { assert (0 <= fval y)%Q by (destruct Hc as [[_ E]|[_ E]]; rewrite E; lra).
    pose proof (Qmult_le_compat_r _ _ (fval y) Hd1 ltac:(done)) as M1. pose proof (Qmult_le_compat_r _ _ (fval y) Hd2 ltac:(done)) as M2.
    revert M1 M2 Em Es. generalize (fval x / fval y)%Q. intros q M1 M2 Em Es. split; lra. }
  assert (Qabs (fval d * fval y) <= 65536)%Q as Hb by (apply Qabs_Qle_condition; split; lra).
  assert (Qabs (fval d * fval y) <= pow2 100)%Q as Hb' by lra.
  pose proof (mul_rounds d y ltac:(apply Hr) Hfd Hb') as Hr2. assert (pow2 (-40) <= 65536)%Q as Hsm by lra.
  destruct (rounds_near _ _ 65536%Q Hr2 Hb Hsm) as [Hm1 Hm2]. change (inject_Z 2) with 2%Q in *. change unit with (1 # 4194304)%Q in *.
  assert (0 <= fval (F32.mul d y))%Q as Hm0.
  { apply Hr2. destruct Hc as [[_ E]|[_ E]]; rewrite E; lra. }
  destruct (trunc_floor _ ltac:(apply Hr2) Hm0) as (z & Ez & Hz0 & Hz1 & Hz2). exists z. split; [exact Ez|]. split; [done|].
  assert (inject_Z z < inject_Z (v + 1))%Q as H1 by (rewrite inject_Z_plus; change (inject_Z 1) with 1%Q; lra).
  assert (inject_Z (v - 1) < inject_Z (z + 1))%Q as H2.
  { unfold Z.sub. rewrite inject_Z_plus. change (inject_Z (- (1))) with (-1)%Q. lra. }
  rewrite <- Zlt_Qlt in H1, H2. lia.
Qed.

(** It comes back, or is one step nearer to zero. *)
Lemma through_word den v :
  den = 10 \/ den = 100 -> -32768 <= v < 32768 ->
  exists z, cast_i16 (through den v) = Some z /\ (z = v \/ v <> 0 /\ z = v - Z.sgn v).
Proof.
  intros Hden Hv. assert (exists z, SF_trunc (through den v) = Some z /\ (z = v \/ v <> 0 /\ z = v - Z.sgn v)) as (z & Ez & Hz).
  { destruct (decide (0 <= v)) as [Hp|Hn].
    - destruct (through_nonneg den v Hden ltac:(lia)) as (z & Ez & H0 & Hz). exists z. split; [done|]. lia.
    - destruct (through_nonneg den (- v) Hden ltac:(lia)) as (z & Ez & H0 & Hz). exists (- z). split; [|lia].
      unfold through in *. replace v with (- (- v)) by lia. rewrite of_Z_opp, div_opp, mul_opp, trunc_opp by lia.
      by rewrite Ez. }
  exists z. split; [|done]. unfold cast_i16, SF_cast. rewrite Ez.
  by replace ((-32768 <=? z) && (z <=? 32767))%bool with true by lia.
Qed.
