(* ===== verification/PackHelper.v ===== *)
(** * PackHelper: src/device/motor/pack_helper.h

    Big-endian readers, feedback decoding and the polling waits of the motor
    protocol. *)
From stdpp Require Import base list numbers.
From Stdlib Require Import ZArith Lia.
From Stdlib Require Import SpecFloat.
From S2P Require Import Prelude CFloat Types MathUtils.
#[local] Open Scope Z_scope.
#[local] Open Scope cint_scope.

Definition FloatBits (value : F32.t) : Z := u32 (F32.to_bits value).

Definition packet_has_payload (pack : MotorPackMsg) (offset size : Z) : bool :=
  offset + size <=? len pack.

(** The readers take the byte array and the offset the C code adds to the pointer. *)
Definition read_u16_be (d : list Z) (o : nat) : Z :=
  u16 ((byte_at d o ≪ 8) .| byte_at d (o + 1)).

Definition read_i16_be (d : list Z) (o : nat) : Z := i16 (read_u16_be d o).

Definition read_u32_be (d : list Z) (o : nat) : Z :=
  (byte_at d o ≪ 24) .| (byte_at d (o + 1) ≪ 16) .| (byte_at d (o + 2) ≪ 8) .|
  byte_at d (o + 3).

Definition read_i32_be (d : list Z) (o : nat) : Z := i32 (read_u32_be d o).

Definition read_float_be (d : list Z) (o : nat) : F32.t := F32.of_bits (read_u32_be d o).

Definition DecodeTemperature (raw fw_version : Z) : F32.t :=
  if fw_version =? 0
  then F32.div (F32.sub (F32.of_Z raw) (F32.of_Z 50)) (F32.of_Z 2)
  else F32.sub (F32.of_Z raw) (F32.of_Z 55).

Definition DecodeMotorError (raw fw_version : Z) : MotorError.t :=
  if fw_version =? 0 then raw
  else
    match raw with
    | 6 => MotorError.OutputEncoderError
    | 7 => MotorError.FetOverTemperature
    | 8 => MotorError.OverSpeed
    | 9 => MotorError.DriverError
    | 31 => MotorError.TemperatureWarning
    | _ => raw
    end.

(** The three instances of [DecodeFeedback<FeedbackType>]. *)
Definition DecodeFeedback_body1 (pack : MotorPackMsg) (ranges : MotorProperties)
    (error : MotorError.t) : MotorFeedbackMsg1 :=
  let d := data pack in
  let pos_int := (byte_at d 1 ≪ 8) .| byte_at d 2 in
  let spd_int := (byte_at d 3 ≪ 4) .| ((byte_at d 4 .& 240) ≫ 4) in
  let cur_int := ((byte_at d 4 .& 15) ≪ 8) .| byte_at d 5 in
  {| fb_error := error;
     fb_position := UintToFloat pos_int (rmin (position ranges)) (rmax (position ranges)) 16;
     fb_speed := UintToFloat spd_int (rmin (speed ranges)) (rmax (speed ranges)) 12;
     fb_current := UintToFloat cur_int (rmin (current ranges)) (rmax (current ranges)) 12;
     fb_motor_temperature := DecodeTemperature (byte_at d 6) (fw_version ranges);
     fb_mos_temperature := DecodeTemperature (byte_at d 7) (fw_version ranges) |}.

Definition feedback_float_at_1 (d : list Z) : F32.t :=
  F32.of_bits ((byte_at d 1 ≪ 24) .| (byte_at d 2 ≪ 16) .| (byte_at d 3 ≪ 8) .| byte_at d 4).

Definition feedback_current_at_5 (d : list Z) : F32.t :=
  F32.div (F32.of_Z ((byte_at d 5 ≪ 8) .| byte_at d 6)) (F32.of_Z 100).

Definition DecodeFeedback_body2 (pack : MotorPackMsg) (ranges : MotorProperties)
    (error : MotorError.t) : MotorFeedbackMsg2 :=
  let d := data pack in
  {| fb2_error := error;
     fb2_position := F32.mul (F32.div (feedback_float_at_1 d) (F32.of_Z 180)) M_PIf;
     fb2_current := feedback_current_at_5 d;
     fb2_motor_temperature := DecodeTemperature (byte_at d 7) (fw_version ranges) |}.

Definition DecodeFeedback_body3 (pack : MotorPackMsg) (ranges : MotorProperties)
    (error : MotorError.t) : MotorFeedbackMsg3 :=
  let d := data pack in
  {| fb3_error := error;
     fb3_speed := F32.mul (F32.div (feedback_float_at_1 d) (F32.of_Z 30)) M_PIf;
     fb3_current := feedback_current_at_5 d;
     fb3_motor_temperature := DecodeTemperature (byte_at d 7) (fw_version ranges) |}.

Definition DecodeFeedback (T : FeedbackType) (pack : MotorPackMsg)
    (ranges : MotorProperties) : option (FeedbackStruct T) :=
  if negb (packet_has_payload pack 0 8) then None
  else
    let ack := u8 (byte_at (data pack) 0 ≫ 5) in
    if negb (ack =? FeedbackType_num T) then None
    else
      let error := DecodeMotorError (u8 (byte_at (data pack) 0 .& 31)) (fw_version ranges) in
      Some (match T return FeedbackStruct T with
            | Fb1 => DecodeFeedback_body1 pack ranges error
            | Fb2 => DecodeFeedback_body2 pack ranges error
            | Fb3 => DecodeFeedback_body3 pack ranges error
            end).

Definition AutoDecodeFeedback (pack : MotorPackMsg) (ranges : MotorProperties)
    : MotorFeedbackMsg1 :=
  let ack := u8 (byte_at (data pack) 0 ≫ 5) in
  match ack with
  | 1 => match DecodeFeedback Fb1 pack ranges with
         | Some fb => fb
         | None => fb1_default
         end
  | 2 => match DecodeFeedback Fb2 pack ranges with
         | Some fb2 => mkFb1 (fb2_error fb2) (fb2_position fb2) F32.nan (fb2_current fb2)
                             (fb2_motor_temperature fb2) F32.nan
         | None => fb1_default
         end
  | 3 => match DecodeFeedback Fb3 pack ranges with
         | Some fb3 => mkFb1 (fb3_error fb3) F32.nan (fb3_speed fb3) (fb3_current fb3)
                             (fb3_motor_temperature fb3) F32.nan
         | None => fb1_default
         end
  | _ => fb1_default
  end.

(** ** Polling waits

    [polls] is what [Read()] returns on each iteration that starts before the
    deadline, so its length is the number of iterations; the result is paired
    with the polls that were not made. *)
Fixpoint find_packet (predicate : MotorPackMsg -> bool) (ms : MotorMessages)
    : option MotorPackMsg :=
  match ms with
  | [] => None
  | m :: rest => if predicate (mdata m) then Some (mdata m) else find_packet predicate rest
  end.

Fixpoint WaitForMatchingPacket (predicate : MotorPackMsg -> bool)
    (polls : list MotorMessages) : option MotorPackMsg * list MotorMessages :=
  match polls with
  | [] => (None, [])
  | ms :: rest =>
      match find_packet predicate ms with
      | Some p => (Some p, rest)
      | None => WaitForMatchingPacket predicate rest
      end
  end.

Definition WaitForPacket (predicate : MotorPackMsg -> bool) (polls : list MotorMessages)
    : option bool :=
  match fst (WaitForMatchingPacket predicate polls) with
  | Some _ => Some true
  | None => None
  end.

(** [WaitForFeedback<T>] for T = 1, 2, 3. *)
Fixpoint find_feedback (T : FeedbackType) (motor_idx : Z) (ranges : MotorProperties)
    (ms : MotorMessages) : option (FeedbackStruct T) :=
  match ms with
  | [] => None
  | m :: rest =>
      if negb (id (mdata m) =? motor_idx) then find_feedback T motor_idx ranges rest
      else match DecodeFeedback T (mdata m) ranges with
           | Some fb => Some fb
           | None => find_feedback T motor_idx ranges rest
           end
  end.

Fixpoint WaitForFeedback (T : FeedbackType) (motor_idx : Z) (ranges : MotorProperties)
    (polls : list MotorMessages) : option (FeedbackStruct T) :=
  match polls with
  | [] => None
  | ms :: rest =>
      match find_feedback T motor_idx ranges ms with
      | Some fb => Some fb
      | None => WaitForFeedback T motor_idx ranges rest
      end
  end.

(** ** Lemmas *)

Lemma read_u16_be_eq d o :
  byte_ok (byte_at d o) -> byte_ok (byte_at d (o + 1)) ->
  read_u16_be d o = byte_at d o * 256 + byte_at d (o + 1).
Proof.
  intros H0 H1. unfold read_u16_be. fold (be16 (byte_at d o) (byte_at d (o + 1))).
  rewrite be16_eq by done. apply u16_small. unfold byte_ok in *. lia.
Qed.

Lemma read_u32_be_eq d o :
  (forall k, (k < 4)%nat -> byte_ok (byte_at d (o + k))) ->
  read_u32_be d o = be32 (byte_at d o) (byte_at d (o + 1)) (byte_at d (o + 2)) (byte_at d (o + 3)).
Proof. done. Qed.

Lemma byte_at_ok d i : Forall byte_ok d -> byte_ok (byte_at d i).
Proof.
  intros H. unfold byte_at. destruct (nth_in_or_default i d 0) as [Hin| ->].
  - rewrite Forall_forall in H. first [exact (H _ Hin) | apply H; by apply list_elem_of_In].
  - unfold byte_ok; lia.
Qed.
#[export] Hint Resolve byte_at_ok : cint.

(** Payload bytes of a well-formed message, whatever the index. *)
Lemma wf_byte m i : pack_wf m -> byte_ok (byte_at (data m) i).
Proof. intros (_ & _ & _ & _ & H). by apply byte_at_ok. Qed.
#[export] Hint Resolve wf_byte : cint.

Lemma find_packet_some p ms r :
  find_packet p ms = Some r -> p r = true /\ exists m, m ∈ ms /\ mdata m = r.
Proof.
  induction ms as [|m ms IH]; simpl; [done|].
  destruct (p (mdata m)) eqn:E.
  - intros [= <-]. split; [done|]. exists m. split; [apply list_elem_of_here|done].
  - intros H. destruct (IH H) as (? & m' & ? & ?). split; [done|]. exists m'. split; [by apply list_elem_of_further|done].
Qed.

(** A payload carries motor feedback: eight bytes and an acknowledge type 1-3. *)
Definition carries_feedback (pack : MotorPackMsg) : bool :=
  (8 <=? len pack) && (1 <=? byte_at (data pack) 0 / 32) && (byte_at (data pack) 0 / 32 <=? 3).

Lemma DecodeMotorError_not_NoResponse raw fw :
  0 <= raw < 32 -> DecodeMotorError raw fw <> MotorError.NoResponse.
Proof.
  intros H. unfold DecodeMotorError, MotorError.NoResponse.
  destruct (fw =? 0); [lia|].
  assert (Forall (fun n => match n with
      | 6 => MotorError.OutputEncoderError | 7 => MotorError.FetOverTemperature
      | 8 => MotorError.OverSpeed | 9 => MotorError.DriverError
      | 31 => MotorError.TemperatureWarning | _ => n end <> 255) (seqZ 0 32)) as Hall.
  { apply (bool_decide_unpack _). vm_compute. exact I. }
  rewrite list.Forall_forall in Hall. apply Hall, elem_of_seqZ. lia.
Qed.

Lemma ack_value pack :
  pack_wf pack -> u8 (byte_at (data pack) 0 ≫ 5) = byte_at (data pack) 0 / 32 /\
  0 <= byte_at (data pack) 0 / 32 < 8 /\ 0 <= u8 (byte_at (data pack) 0 .& 31) < 32.
Proof.
  intros Hwf. pose proof (wf_byte pack 0 Hwf) as Hb. unfold byte_ok in Hb.
  bits_arith. repeat split; Z.to_euclidean_division_equations; lia.
Qed.

Lemma DecodeFeedback_some T pack ranges :
  pack_wf pack ->
  DecodeFeedback T pack ranges <> None <->
  8 <= len pack /\ byte_at (data pack) 0 / 32 = FeedbackType_num T.
Proof.
  intros Hwf. destruct (ack_value pack Hwf) as (Ha & _). unfold DecodeFeedback.
  rewrite Ha. unfold packet_has_payload.
  destruct (_ <=? _) eqn:E; cbn; [|split; [done|lia]].
  destruct (_ =? _) eqn:E2; cbn; split; intros; done || lia.
Qed.

(** [AutoDecodeFeedback] reports [NoResponse] exactly on the frames that carry
    no feedback. *)
Lemma AutoDecodeFeedback_responds pack ranges :
  pack_wf pack ->
  negb (fb_error (AutoDecodeFeedback pack ranges) =? MotorError.NoResponse) =
  carries_feedback pack.
Proof.
  intros Hwf. destruct (ack_value pack Hwf) as (Ha & Hr & He).
  pose proof (DecodeMotorError_not_NoResponse _ (fw_version ranges) He) as Hne.
  unfold AutoDecodeFeedback, DecodeFeedback, carries_feedback, packet_has_payload. rewrite Ha.
  change (0 + 8) with 8. clear He Ha. revert Hr Hne.
  generalize (DecodeMotorError (u8 (byte_at (data pack) 0 .& 31)) (fw_version ranges)).
  generalize (byte_at (data pack) 0 / 32). intros a err Hr Hne.
  apply Z.eqb_neq in Hne.
  assert (a = 0 \/ a = 1 \/ a = 2 \/ a = 3 \/ a = 4 \/ a = 5 \/ a = 6 \/ a = 7) as Hc by lia.
  destruct (8 <=? len pack); repeat destruct Hc as [-> | Hc]; try subst a; cbn;
    unfold MotorError.t in *; rewrite ?Hne; reflexivity.
Qed.

(** ** Theorems *)

(** The fault code of new firmware. *)
Lemma DecodeMotorError_new raw fw :
  fw <> 0 -> DecodeMotorError raw fw = DecodeMotorError raw 1.
Proof. intros H. unfold DecodeMotorError. by rewrite (proj2 (Z.eqb_neq fw 0) H). Qed.

(** The fault codes lose information in exactly three places: on new firmware
    two different 5-bit codes are reported as the same [MotorError] precisely for
    (7, 10), (8, 11) and (12, 31), while on old firmware the decoding is
    injective and its codes 9 to 12 come out as the four members documented as
    coming from new firmware only. *)
Lemma fault_code_collisions (fw raw raw' : Z) :
  0 <= raw -> raw < raw' -> raw' < 32 ->
  (DecodeMotorError raw fw = DecodeMotorError raw' fw <->
   fw <> 0 /\ (raw, raw') ∈ [(7, 10); (8, 11); (12, 31)]) /\
  map (fun r => DecodeMotorError r 0) [9; 10; 11; 12] =
    [MotorError.OutputEncoderError; MotorError.FetOverTemperature; MotorError.OverSpeed;
     MotorError.TemperatureWarning].
Proof.
  intros H0 Hlt H32. split; [|reflexivity]. destruct (decide (fw = 0)) as [->|Hfw].
  { cbn. split; [lia|]. by intros [? _]. }
  rewrite !(DecodeMotorError_new _ fw) by done.
  assert (Forall (fun a => Forall (fun b => a < b ->
    (bool_decide (DecodeMotorError a 1 = DecodeMotorError b 1) =
     bool_decide ((a, b) ∈ [(7, 10); (8, 11); (12, 31)]))) (seqZ 0 32)) (seqZ 0 32)) as Hall
    by (apply (bool_decide_unpack _); vm_compute; exact I).
  rewrite list.Forall_forall in Hall. specialize (Hall raw (proj2 (elem_of_seqZ 0 32 raw) ltac:(lia))).
  rewrite list.Forall_forall in Hall. specialize (Hall raw' (proj2 (elem_of_seqZ 0 32 raw') ltac:(lia)) Hlt).
  rewrite <- (bool_decide_eq_true (DecodeMotorError raw 1 = _)), Hall, bool_decide_eq_true.
  split; [done|]. by intros [_ ?].
Qed.

Lemma fault_code_collisions_witness :
  DecodeMotorError 7 100 = DecodeMotorError 10 100.
Proof.
  apply (proj1 (fault_code_collisions 100 7 10 ltac:(lia) ltac:(lia) ltac:(lia))).
  split; [lia|]. by left.
Defined.
