(* ===== verification/StatusCache.v ===== *)
(** * StatusCache: the status cache of a motor

    The part of [Motor::Impl] guarded by [status_mutex]: the limit and median
    filters that every decoded feedback passes through, and the life-cycle
    counter that expires the cached status (src/device/motor/motor.cc). *)
From stdpp Require Import base list numbers option sorting.
From Stdlib Require Import ZArith Lia.
From Stdlib Require Import SpecFloat.
From S2P Require Import Prelude CFloat Types.
#[local] Open Scope Z_scope.

(** ** The scalar filters *)

(** [std::sort] on finite floats; equal values keep their order, which the
    standard leaves open and which only distinguishes [0.0f] from [-0.0f]. *)
Fixpoint insert_sorted (x : F32.t) (l : list F32.t) : list F32.t :=
  match l with
  | [] => [x]
  | y :: r => if F32.ltb x y then x :: l else y :: insert_sorted x r
  end.
Definition sort_floats (l : list F32.t) : list F32.t :=
  fold_left (fun acc x => insert_sorted x acc) l [].

(** Only called on a non-empty deque. *)
Definition MedianStatusValue (values : list F32.t) : F32.t :=
  nth (length values / 2)%nat (sort_floats values) F32.nan.

Definition IsMedianStatusFilterEnabled (window_size : nat) : bool := (1 <? window_size)%nat.

Definition IsLimitStatusFilterEnabled (max_delta : F32.t) : bool :=
  F32.isfinite max_delta && F32.leb F32.zero max_delta.

Record FilterResult := mkFilterResult {
  out : F32.t; last_accepted : F32.t; samples : list F32.t }.

Definition FilterStatusValue (value last_accepted_value : F32.t) (samples : list F32.t)
    (max_delta : F32.t) (window_size : nat) : FilterResult :=
  if negb (F32.isfinite value) then mkFilterResult value last_accepted_value samples
  else if IsLimitStatusFilterEnabled max_delta && F32.isfinite last_accepted_value &&
          F32.ltb max_delta (F32.abs (F32.sub value last_accepted_value))
  then
    if IsMedianStatusFilterEnabled window_size && negb (bool_decide (samples = []))
    then mkFilterResult (MedianStatusValue samples) last_accepted_value samples
    else mkFilterResult last_accepted_value last_accepted_value samples
  else if negb (IsMedianStatusFilterEnabled window_size)
  then mkFilterResult value value samples
  else
    let pushed := samples ++ [value] in
    let kept := if (window_size <? length pushed)%nat then drop 1 pushed else pushed in
    mkFilterResult (MedianStatusValue kept) value kept.

(** ** The cache *)

Record ContinuousStatusSamples := mkSamples {
  sm_position : list F32.t;
  sm_speed : list F32.t;
  sm_current : list F32.t;
  sm_motor_temperature : list F32.t;
  sm_mos_temperature : list F32.t
}.
Definition no_samples : ContinuousStatusSamples := mkSamples [] [] [] [] [].

Record StatusCache := mkCache {
  status : option MotorStatus;
  status_life_cycle : Z;
  max_status_life_cycle : Z;
  status_filter_samples : ContinuousStatusSamples;
  last_accepted_status : MotorStatus;
  status_median_filter_window_size : nat;
  status_limit_filter_max_deltas : MotorStatus
}.

(** The default member initialisers of [Motor::Impl]. *)
Definition initial_cache : StatusCache :=
  mkCache None INT_MAX INT_MAX no_samples fb1_default 0 fb1_default.

(** The locked block of [Motor::OnMessage] for a decoded feedback: filter the
    five values, store the result, reset the life cycle.  Returns the filtered
    status, which the callback also receives. *)
Definition StoreStatus (decoded : MotorStatus) (c : StatusCache) : MotorStatus * StatusCache :=
  let s := status_filter_samples c in
  let l := last_accepted_status c in
  let m := status_limit_filter_max_deltas c in
  let w := status_median_filter_window_size c in
  let p := FilterStatusValue (fb_position decoded) (fb_position l) (sm_position s)
                             (fb_position m) w in
  let v := FilterStatusValue (fb_speed decoded) (fb_speed l) (sm_speed s) (fb_speed m) w in
  let i := FilterStatusValue (fb_current decoded) (fb_current l) (sm_current s)
                             (fb_current m) w in
  let t := FilterStatusValue (fb_motor_temperature decoded) (fb_motor_temperature l)
                             (sm_motor_temperature s) (fb_motor_temperature m) w in
  let o := FilterStatusValue (fb_mos_temperature decoded) (fb_mos_temperature l)
                             (sm_mos_temperature s) (fb_mos_temperature m) w in
  let filtered := mkFb1 (fb_error decoded) (out p) (out v) (out i) (out t) (out o) in
  (filtered,
   mkCache (Some filtered) (max_status_life_cycle c) (max_status_life_cycle c)
     (mkSamples (samples p) (samples v) (samples i) (samples t) (samples o))
     (mkFb1 (fb_error l) (last_accepted p) (last_accepted v) (last_accepted i)
            (last_accepted t) (last_accepted o))
     w m).

Definition SetStatusLifeCycle (max_life_cycle : Z) (c : StatusCache) : StatusCache :=
  let life :=
    match status c with
    | Some _ =>
        if negb (max_life_cycle =? INT_MAX)
        then Z.min (status_life_cycle c) max_life_cycle else status_life_cycle c
    | None => status_life_cycle c
    end in
  mkCache (status c) life max_life_cycle (status_filter_samples c) (last_accepted_status c)
    (status_median_filter_window_size c) (status_limit_filter_max_deltas c).

Definition SetStatusMedianFilterWindowSizeImpl (window : nat) (c : StatusCache) : StatusCache :=
  mkCache (status c) (status_life_cycle c) (max_status_life_cycle c) no_samples
    (last_accepted_status c) window (status_limit_filter_max_deltas c).

Definition SetStatusLimitFilterMaxDeltasImpl (deltas : MotorStatus) (c : StatusCache)
    : StatusCache :=
  mkCache (status c) (status_life_cycle c) (max_status_life_cycle c)
    (status_filter_samples c) (last_accepted_status c)
    (status_median_filter_window_size c) deltas.

(** The branch of [GetStatusImpl] taken when the life cycle runs out. *)
Definition ExpireStatus (life : Z) (c : StatusCache) : StatusCache :=
  let s := status_filter_samples c in
  let l := last_accepted_status c in
  mkCache None life (max_status_life_cycle c)
    (mkSamples [] (sm_speed s) [] [] [])
    (mkFb1 (fb_error l) F32.nan (fb_speed l) F32.nan F32.nan F32.nan)
    (status_median_filter_window_size c) (status_limit_filter_max_deltas c).

Definition GetStatusImpl (life_cycle_deduction : Z) (c : StatusCache)
    : option MotorStatus * StatusCache :=
  match status c with
  | None => (None, c)
  | Some st =>
      if negb (status_life_cycle c =? INT_MAX) && (0 <? life_cycle_deduction) then
        let life := if status_life_cycle c <=? life_cycle_deduction then 0
                    else status_life_cycle c - life_cycle_deduction in
        if life <=? 0 then (Some st, ExpireStatus life c)
        else (Some st,
              mkCache (status c) life (max_status_life_cycle c) (status_filter_samples c)
                (last_accepted_status c) (status_median_filter_window_size c)
                (status_limit_filter_max_deltas c))
      else (Some st, c)
  end.

(** ** Lemmas: sorting, the sample window *)

Section Sorting.

Lemma insert_sorted_perm x l : insert_sorted x l ≡ₚ x :: l.
Proof.
  induction l as [|y l IH]; cbn; [done|]. destruct (F32.ltb x y); [done|].
  rewrite IH. by constructor.
Qed.

Lemma sort_floats_perm l : sort_floats l ≡ₚ l.
Proof.
  unfold sort_floats. enough (forall acc, fold_left (fun a x => insert_sorted x a) l acc ≡ₚ l ++ acc)
    as H by (rewrite H; by rewrite app_nil_r).
  induction l as [|x l IH]; intros acc; cbn; [done|].
  rewrite IH, insert_sorted_perm. by rewrite Permutation_middle.
Qed.

(** The median is one of the samples. *)
Lemma MedianStatusValue_elem l : l <> [] -> MedianStatusValue l ∈ l.
Proof.
  intros Hne. unfold MedianStatusValue.
  apply list_elem_of_In, (Permutation_in _ (sort_floats_perm l)), nth_In.
  rewrite (Permutation_length (sort_floats_perm l)).
  destruct l; [done|]. cbn [length].
  pose proof (Nat.div_lt (S (length l)) 2). lia.
Qed.

(** [F32.ltb] on finite numbers is transitive against its negation. *)
Lemma ltb_cotrans x y z :
  F32.isfinite x = true -> F32.isfinite y = true -> F32.isfinite z = true ->
  F32.ltb x y = true -> F32.ltb z y = false -> F32.ltb z x = false.
Proof.
  destruct x as [sx|sx| |sx mx ex], y as [sy|sy| |sy my ey], z as [sz|sz| |sz mz ez]; intros Hx Hy Hz;
    try discriminate Hx; try discriminate Hy; try discriminate Hz; unfold F32.ltb, SFltb, SFcompare;
    change (Pos.compare_cont Eq) with Pos.compare; try done.
  all: try (by destruct sx); try (by destruct sx, sy); try (by destruct sx, sz); try (by destruct sy, sz).
  destruct sx, sy, sz; try done.
  all: destruct (Z.compare_spec ex ey), (Z.compare_spec ez ey), (Z.compare_spec ez ex); subst; try done; try lia.
  all: destruct (Pos.compare_spec mx my), (Pos.compare_spec mz my), (Pos.compare_spec mz mx); subst; try done; lia.
Qed.

Lemma ltb_asym x y : F32.ltb x y = true -> F32.ltb y x = false.
Proof.
  destruct x as [sx|sx| |sx mx ex], y as [sy|sy| |sy my ey]; unfold F32.ltb, SFltb, SFcompare;
    change (Pos.compare_cont Eq) with Pos.compare; try done.
  all: try (by destruct sx); try (by destruct sy); try (by destruct sx, sy).
  destruct sx, sy; try done; rewrite (Z.compare_antisym ex ey), (Pos.compare_antisym mx my);
    by destruct (ex ?= ey), (mx ?= my)%positive.
Qed.

(** Sorted: none is below one before it. *)
Definition sorted_floats : list F32.t -> Prop := StronglySorted (fun x y => F32.ltb y x = false).

Lemma insert_sorted_sorted x l :
  F32.isfinite x = true -> Forall (fun y => F32.isfinite y = true) l -> sorted_floats l -> sorted_floats (insert_sorted x l).
Proof.
  intros Hx Hf Hs. induction Hs as [|y l Hs IH Hy]; cbn; [by repeat constructor|].
  apply list.Forall_cons in Hf as [Hfy Hf]. destruct (F32.ltb x y) eqn:E.
  - constructor; [by constructor|]. apply list.Forall_cons. split; [by apply ltb_asym|].
    rewrite list.Forall_forall in *. intros z Hz. by apply (ltb_cotrans x y z); auto.
  - constructor; [by apply IH|]. rewrite insert_sorted_perm. by apply list.Forall_cons.
Qed.

Lemma sort_floats_sorted l : Forall (fun y => F32.isfinite y = true) l -> sorted_floats (sort_floats l).
Proof.
  unfold sort_floats. intros Hl.
  enough (forall acc, Forall (fun y => F32.isfinite y = true) acc -> sorted_floats acc ->
    sorted_floats (fold_left (fun a x => insert_sorted x a) l acc)) as H by (apply H; [done|constructor]).
  induction l as [|x l IH]; intros acc Hf Hs; cbn; [done|]. apply list.Forall_cons in Hl as [Hx Hl].
  apply IH; [done|rewrite insert_sorted_perm; by apply list.Forall_cons|by apply insert_sorted_sorted].
Qed.

(** How many of a list are below and above a number. *)
Definition below (m : F32.t) (l : list F32.t) : nat := length (List.filter (fun x => F32.ltb x m) l).
Definition above (m : F32.t) (l : list F32.t) : nat := length (List.filter (fun x => F32.ltb m x) l).

(** [m] is the median of [l]: one of its numbers, with at most half of them below it and
    fewer than half above it (of an even number, the upper one of the two in the middle). *)
Definition is_median (m : F32.t) (l : list F32.t) : Prop :=
  m ∈ l /\ (below m l <= length l / 2)%nat /\ (above m l < length l - length l / 2)%nat.

Lemma filter_perm (f : F32.t -> bool) l l' : l ≡ₚ l' -> length (List.filter f l) = length (List.filter f l').
Proof. induction 1; cbn; repeat case_match; cbn; congruence. Qed.

Lemma filter_none (f : F32.t -> bool) l : Forall (fun x => f x = false) l -> List.filter f l = [].
Proof. induction 1 as [|x l Hx _ IH]; cbn; [done|]. by rewrite Hx. Qed.

Lemma sorted_rank l k m :
  sorted_floats l -> l !! k = Some m -> (below m l <= k)%nat /\ (above m l < length l - k)%nat.
Proof.
  intros Hs Hk. pose proof (lookup_lt_Some _ _ _ Hk) as Hlt. pose proof (take_drop_middle _ _ _ Hk) as E.
  rewrite <- E in Hs. apply StronglySorted_app in Hs as (Hx & _ & Hs). apply StronglySorted_inv in Hs as [_ Hs].
  unfold below, above. rewrite <- E, !List.filter_app, !length_app. cbn [List.filter].
  assert (F32.ltb m m = false) as ->.
  { destruct (F32.ltb m m) eqn:Em; [|done]. by rewrite (ltb_asym m m Em) in Em. }
  rewrite (filter_none _ (drop (S k) l)) by done. rewrite (filter_none (fun x => F32.ltb m x) (take k l)).
  2: { rewrite list.Forall_forall. intros x Hin. apply Hx; [done|apply list_elem_of_here]. }
  pose proof (filter_length_le (fun x => F32.ltb x m) (take k l)). pose proof (filter_length_le (fun x => F32.ltb m x) (drop (S k) l)).
  rewrite length_take in *. rewrite length_drop in *. cbn [length]. rewrite ?length_drop. lia.
Qed.

Lemma MedianStatusValue_median l :
  l <> [] -> Forall (fun y => F32.isfinite y = true) l -> is_median (MedianStatusValue l) l.
Proof.
  intros Hne Hf. split; [by apply MedianStatusValue_elem|]. unfold MedianStatusValue.
  pose proof (sort_floats_perm l) as Hp. pose proof (Permutation_length Hp) as Hlen.
  assert (length l / 2 < length (sort_floats l))%nat as Hlt.
  { rewrite Hlen. apply Nat.div_lt; [destruct l; [done|cbn; lia]|lia]. }
  destruct (sorted_rank (sort_floats l) (length l / 2) (nth (length l / 2) (sort_floats l) F32.nan)) as [H1 H2].
  { by apply sort_floats_sorted. }
  { by destruct (nth_lookup_or_length (sort_floats l) (length l / 2) F32.nan) as [|]; [|lia]. }
  unfold below, above in *. by rewrite !(filter_perm _ _ _ Hp), Hlen in *.
Qed.

End Sorting.

(** Every stored sample is finite and the window never exceeds its size once the
    median filter is on. *)
Definition samples_ok (window : nat) (l : list F32.t) : Prop :=
  Forall (fun x => F32.isfinite x = true) l /\
  (IsMedianStatusFilterEnabled window = true -> (length l <= window)%nat).

Definition cache_samples (c : StatusCache) : list (list F32.t) :=
  let s := status_filter_samples c in
  [sm_position s; sm_speed s; sm_current s; sm_motor_temperature s; sm_mos_temperature s].

Definition CacheOk (c : StatusCache) : Prop :=
  Forall (samples_ok (status_median_filter_window_size c)) (cache_samples c).

Lemma samples_ok_nil w : samples_ok w [].
Proof. split; [constructor|cbn; lia]. Qed.
#[export] Hint Resolve samples_ok_nil : cint.

Lemma FilterStatusValue_ok v last l d w :
  samples_ok w l -> samples_ok w (samples (FilterStatusValue v last l d w)).
Proof.
  intros [Hf Hl]. unfold FilterStatusValue.
  destruct (F32.isfinite v) eqn:Hv; cbn [negb samples]; [|done].
  destruct (_ && _ && _); [by destruct (_ && _)|].
  destruct (IsMedianStatusFilterEnabled w) eqn:Hw; cbn [negb samples]; [|split; [done|congruence]].
  specialize (Hl eq_refl). unfold IsMedianStatusFilterEnabled in Hw. apply Nat.ltb_lt in Hw.
  assert (Forall (fun x => F32.isfinite x = true) (l ++ [v])) as Hp
    by (apply Forall_app; split; [done|by repeat constructor]).
  destruct (w <? length (l ++ [v]))%nat eqn:Hc.
  - split; [by apply Forall_drop|]. intros _. rewrite length_drop, length_app. cbn. lia.
  - split; [done|]. intros _. apply Nat.ltb_ge in Hc. done.
Qed.

(** The operations of the cache. *)
Inductive CacheOp :=
| OpStore (decoded : MotorStatus)
| OpSetLife (n : Z)
| OpSetWindow (w : nat)
| OpSetDeltas (d : MotorStatus)
| OpGet (deduction : Z).

Definition run_cache_op (o : CacheOp) (c : StatusCache) : StatusCache :=
  match o with
  | OpStore s => snd (StoreStatus s c)
  | OpSetLife n => SetStatusLifeCycle n c
  | OpSetWindow w => SetStatusMedianFilterWindowSizeImpl w c
  | OpSetDeltas d => SetStatusLimitFilterMaxDeltasImpl d c
  | OpGet n => snd (GetStatusImpl n c)
  end.
Definition run_cache (ops : list CacheOp) (c : StatusCache) : StatusCache :=
  fold_left (fun c o => run_cache_op o c) ops c.

Lemma CacheOk_iff c :
  CacheOk c <->
  let ok := samples_ok (status_median_filter_window_size c) in
  let s := status_filter_samples c in
  ok (sm_position s) /\ ok (sm_speed s) /\ ok (sm_current s) /\
  ok (sm_motor_temperature s) /\ ok (sm_mos_temperature s).
Proof. unfold CacheOk, cache_samples. rewrite !list.Forall_cons, list.Forall_nil. tauto. Qed.

Lemma run_cache_op_ok o c : CacheOk c -> CacheOk (run_cache_op o c).
Proof.
  rewrite !CacheOk_iff. cbn zeta. intros (H1 & H2 & H3 & H4 & H5).
  destruct o; cbn -[FilterStatusValue]; try done; try (by refine (conj _ (conj _ (conj _ (conj _ _)))); auto with cint).
  - refine (conj _ (conj _ (conj _ (conj _ _)))); by apply FilterStatusValue_ok.
  - unfold GetStatusImpl. destruct (status c); cbn; [|done].
    destruct (_ && _); cbn; [|done]. destruct (_ <=? 0); cbn; [|done].
    refine (conj _ (conj _ (conj _ (conj _ _)))); auto with cint.
Qed.

(** The results of [n] successive [GetStatusImpl] calls. *)
Fixpoint read_results (n : nat) (deduction : Z) (c : StatusCache) : list (option MotorStatus) :=
  match n with
  | O => []
  | S n => let (st, c') := GetStatusImpl deduction c in st :: read_results n deduction c'
  end.

Lemma read_results_none n d c : status c = None -> read_results n d c = replicate n None.
Proof.
  revert c. induction n as [|n IH]; intros c Hc; cbn; [done|].
  unfold GetStatusImpl. rewrite Hc. by rewrite IH.
Qed.

Lemma read_results_live n d c st :
  status c = Some st -> 0 < d -> 0 < status_life_cycle c < INT_MAX ->
  forall k, (k < n)%nat ->
  read_results n d c !! k = Some (if Z.of_nat k * d <? status_life_cycle c then Some st else None).
Proof.
  revert c. induction n as [|n IH]; intros c Hc Hd Hl k Hk; [lia|]. cbn.
  unfold GetStatusImpl. rewrite Hc.
  replace (status_life_cycle c =? INT_MAX) with false by lia.
  replace (0 <? d) with true by lia. cbn [negb andb].
  destruct (status_life_cycle c <=? d) eqn:Hle.
  - change (0 <=? 0) with true. cbn iota.
    destruct k as [|k]; [change (Z.of_nat 0) with 0; by replace (0 * d <? status_life_cycle c) with true by lia|].
    rewrite lookup_cons_ne_0, read_results_none by done.
    rewrite lookup_replicate_2 by (cbn; lia).
    rewrite Nat2Z.inj_succ. 
    assert (0 <= Z.of_nat k * d) by (apply Z.mul_nonneg_nonneg; lia).
    by rewrite (proj2 (Z.ltb_ge (Z.succ (Z.of_nat k) * d) (status_life_cycle c))) by lia.
  - replace (status_life_cycle c - d <=? 0) with false by lia.
    destruct k as [|k]; [change (Z.of_nat 0) with 0; by replace (0 * d <? status_life_cycle c) with true by lia|].
    rewrite lookup_cons_ne_0 by done. cbn [pred].
    rewrite IH; cbn; try done; try lia.
    rewrite Nat2Z.inj_succ. do 2 f_equal.
    destruct (Z.ltb_spec (Z.of_nat k * d) (status_life_cycle c - d)).
    + by rewrite (proj2 (Z.ltb_lt (Z.succ (Z.of_nat k) * d) (status_life_cycle c))) by lia.
    + by rewrite (proj2 (Z.ltb_ge (Z.succ (Z.of_nat k) * d) (status_life_cycle c))) by lia.
Qed.

Definition exceeds_limit (v last d : F32.t) : bool :=
  IsLimitStatusFilterEnabled d && F32.isfinite last && F32.ltb d (F32.abs (F32.sub v last)).

Lemma FilterStatusValue_reject v last l d w :
  F32.isfinite v = true -> exceeds_limit v last d = true ->
  let r := FilterStatusValue v last l d w in
  samples r = l /\ last_accepted r = last /\ (out r = last \/ out r ∈ l).
Proof.
  unfold exceeds_limit, FilterStatusValue. intros -> ->. cbn [negb].
  destruct (IsMedianStatusFilterEnabled w); cbn [andb samples last_accepted out]; [|auto].
  case_bool_decide; cbn [negb samples last_accepted out]; [auto|].
  split_and!; auto. right. by apply MedianStatusValue_elem.
Qed.

Lemma FilterStatusValue_accept v last l d w :
  F32.isfinite v = true -> exceeds_limit v last d = false ->
  let r := FilterStatusValue v last l d w in
  last_accepted r = v /\
  (if IsMedianStatusFilterEnabled w
   then out r ∈ samples r /\ (exists older, older `suffix_of` l /\ samples r = older ++ [v])
   else out r = v /\ samples r = l).
Proof.
  unfold exceeds_limit, FilterStatusValue. intros -> ->. cbn [negb].
  destruct (IsMedianStatusFilterEnabled w) eqn:Hw; cbn [negb samples last_accepted out]; [|auto].
  unfold IsMedianStatusFilterEnabled in Hw. apply Nat.ltb_lt in Hw.
  split; [done|]. destruct (w <? length (l ++ [v]))%nat eqn:Hc.
  - apply Nat.ltb_lt in Hc. rewrite length_app in Hc. cbn in Hc.
    destruct l as [|x l]; [cbn in Hc; lia|]. cbn [drop app].
    split; [by apply MedianStatusValue_elem; destruct l|].
    exists l. split; [by exists [x]|done].
  - split; [by apply MedianStatusValue_elem; destruct l|]. by exists l.
Qed.

(** ** Theorems *)

(** In every state reachable from a new motor, by any sequence of stored
    feedback, reads and setter calls, each filter window holds only finite
    samples and, once the median filter is enabled, at most as many as the
    configured window. *)
Lemma cache_invariant (ops : list CacheOp) : CacheOk (run_cache ops initial_cache).
Proof.
  assert (CacheOk initial_cache) as H by (apply CacheOk_iff; cbn; auto with cint).
  revert H. generalize initial_cache. unfold run_cache.
  induction ops as [|o ops IH]; intros c H; cbn; [done|]. by apply IH, run_cache_op_ok.
Qed.

(** The newest [w] of a list. *)
Definition newest {A} (w : nat) (l : list A) : list A := drop (length l - w) l.

(** C22: the combined filter of one value, over a window as every reachable cache keeps it
    ([cache_invariant]).  A value that is not finite passes and changes nothing.  A value
    farther than the enabled limit from the last accepted one changes nothing either, and
    is answered by the median of the window if the median filter is on and has samples,
    and otherwise by the last accepted value.  Any other value is accepted: without the
    median filter it is the answer; with it, it joins the window, which keeps the newest
    samples, and the answer is their median. *)
Theorem FilterStatusValue_contract v last l d w :
  samples_ok w l ->
  let r := FilterStatusValue v last l d w in
  if negb (F32.isfinite v) then out r = v /\ last_accepted r = last /\ samples r = l
  else if exceeds_limit v last d
  then samples r = l /\ last_accepted r = last /\
       (if IsMedianStatusFilterEnabled w && negb (bool_decide (l = [])) then is_median (out r) l else out r = last)
  else last_accepted r = v /\
       (if IsMedianStatusFilterEnabled w
        then samples r = newest w (l ++ [v]) /\ is_median (out r) (samples r)
        else out r = v /\ samples r = l).
Proof.
  intros [Hf Hl]. cbv zeta. unfold FilterStatusValue, exceeds_limit.
  destruct (F32.isfinite v) eqn:Hv; cbn [negb]; [|done]. destruct (_ && _ && _).
  { destruct (IsMedianStatusFilterEnabled w); cbn [andb]; [|done].
    case_bool_decide as Hne; cbn [negb out samples last_accepted]; [done|]. split_and!; [done|done|by apply MedianStatusValue_median]. }
  destruct (IsMedianStatusFilterEnabled w) eqn:Hw; cbn [negb out samples last_accepted]; [|done].
  specialize (Hl eq_refl). unfold IsMedianStatusFilterEnabled in Hw. apply Nat.ltb_lt in Hw.
  assert ((if (w <? length (l ++ [v]))%nat then drop 1 (l ++ [v]) else l ++ [v]) = newest w (l ++ [v])) as ->.
  { unfold newest. rewrite length_app. cbn [length]. destruct (Nat.ltb_spec w (length l + 1)).
    - by replace (length l + 1 - w)%nat with 1%nat by lia.
    - by replace (length l + 1 - w)%nat with 0%nat by lia. }
  split_and!; [done|done|]. apply MedianStatusValue_median.
  - intros E%(f_equal length). unfold newest in E. rewrite length_drop, length_app in E. cbn in E. lia.
  - apply Forall_drop, Forall_app. split; [done|by repeat constructor].
Qed.

(** Window of three, limit one: the outlier is answered by the median. *)
Lemma FilterStatusValue_contract_witness :
  let l := [F32.of_Z 1; F32.of_Z 2; F32.of_Z 1] in
  is_median (out (FilterStatusValue (F32.of_Z 9) (F32.of_Z 1) l (F32.of_Z 1) 3)) l /\
  samples (FilterStatusValue (F32.of_Z 9) (F32.of_Z 1) l (F32.of_Z 1) 3) = l.
Proof.
  destruct (FilterStatusValue_contract (F32.of_Z 9) (F32.of_Z 1) [F32.of_Z 1; F32.of_Z 2; F32.of_Z 1] (F32.of_Z 1) 3)
    as (Hs & _ & Ho); [split; [by repeat constructor|cbn; lia]|].
  split; [exact Ho|exact Hs].
Defined.

(** The median is not the least sample. *)
Example median_of_five :
  MedianStatusValue (map F32.of_Z [5; 1; 4; 2; 3]) = F32.of_Z 3 /\ MedianStatusValue (map F32.of_Z [4; 1; 3; 2]) = F32.of_Z 3.
Proof. by vm_compute. Qed.

(** Life cycle of a stored status: with a maximum [N] strictly between 0 and
    [INT_MAX], the [k]-th of a series of reads that each deduct [d > 0] (counting
    from 0) returns the status exactly when [k * d < N], so it is returned
    [ceil (N / d)] times and then expires for good. *)
Lemma status_life_cycle_reads (decoded : MotorStatus) (c : StatusCache) (d : Z) (n k : nat) :
  0 < max_status_life_cycle c < INT_MAX -> 0 < d -> (k < n)%nat ->
  read_results n d (snd (StoreStatus decoded c)) !! k =
    Some (if Z.of_nat k * d <? max_status_life_cycle c
          then Some (fst (StoreStatus decoded c)) else None).
Proof.
  intros HN Hd Hk.
  by rewrite (read_results_live n d _ (fst (StoreStatus decoded c))).
Qed.

Lemma status_life_cycle_reads_witness :
  read_results 4 1 (snd (StoreStatus fb1_default (SetStatusLifeCycle 3 initial_cache))) !! 3%nat =
  Some None.
Proof.
  apply (status_life_cycle_reads fb1_default (SetStatusLifeCycle 3 initial_cache) 1 4 3);
    [split; reflexivity | reflexivity | lia].
Defined.

(** Expiry forgets every filtered quantity except the speed: the first
    feedback stored after an expiring read gets its position through unfiltered
    by the limit, while a speed farther than the limit from the last speed
    accepted before the expiry is replaced by that stale value (or by a stale
    sample). *)
Lemma expiry_keeps_speed_filter (decoded st : MotorStatus) (c : StatusCache) (d : Z) :
  status c = Some st -> 0 < status_life_cycle c < INT_MAX -> status_life_cycle c <= d ->
  F32.isfinite (fb_position decoded) = true -> F32.isfinite (fb_speed decoded) = true ->
  exceeds_limit (fb_speed decoded) (fb_speed (last_accepted_status c))
    (fb_speed (status_limit_filter_max_deltas c)) = true ->
  let expired := snd (GetStatusImpl d c) in
  let stored := snd (StoreStatus decoded expired) in
  let fresh := fst (StoreStatus decoded expired) in
  status expired = None /\
  fb_position (last_accepted_status stored) = fb_position decoded /\
  fb_speed (last_accepted_status stored) = fb_speed (last_accepted_status c) /\
  (fb_speed fresh = fb_speed (last_accepted_status c) \/
   fb_speed fresh ∈ sm_speed (status_filter_samples c)).
Proof.
  intros Hst Hl Hd Hp Hs Hfar. cbn zeta. unfold GetStatusImpl. rewrite Hst.
  replace (status_life_cycle c =? INT_MAX) with false by lia.
  replace (0 <? d) with true by lia. replace (status_life_cycle c <=? d) with true by lia.
  cbn [negb andb]. change (0 <=? 0) with true. cbn [snd].
  set (w := status_median_filter_window_size c). set (m := status_limit_filter_max_deltas c).
  destruct (FilterStatusValue_reject _ _ (sm_speed (status_filter_samples c)) _ w Hs Hfar)
    as (_ & H1 & H2).
  destruct (FilterStatusValue_accept (fb_position decoded) F32.nan [] (fb_position m) w Hp) as [H3 _].
  { unfold exceeds_limit. cbn. by rewrite andb_false_r. }
  split; [done|]. split; [exact H3|]. split; [exact H1|exact H2].
Qed.

(** A motor that went silent at speed 10 and is next seen standing still. *)
Lemma expiry_keeps_speed_filter_witness :
  let z := F32.zero in
  let c := snd (StoreStatus (mkFb1 0 z (F32.of_Z 10) z z z)
             (SetStatusLimitFilterMaxDeltasImpl (mkFb1 0 F32.nan (F32.of_Z 2) F32.nan F32.nan F32.nan)
                (SetStatusLifeCycle 1 initial_cache))) in
  fb_speed (last_accepted_status
    (snd (StoreStatus (mkFb1 0 z z z z z) (snd (GetStatusImpl 1 c))))) = F32.of_Z 10.
Proof.
  cbv zeta.
  match goal with |- context [GetStatusImpl 1 ?x] => set (c := x) end.
  destruct (expiry_keeps_speed_filter (mkFb1 0 F32.zero F32.zero F32.zero F32.zero F32.zero)
    (mkFb1 0 F32.zero (F32.of_Z 10) F32.zero F32.zero F32.zero) c 1) as (_ & _ & H & _);
    [vm_compute; reflexivity | split; vm_compute; reflexivity | vm_compute; discriminate
    | vm_compute; reflexivity | vm_compute; reflexivity | vm_compute; reflexivity |].
  rewrite H. vm_compute. reflexivity.
Defined.

