(* ===== verification/MotorLog.v ===== *)
(** * MotorLog: src/device/motor/motor_log.cc

    The command log of a motor: the session a motor may hold, the records it
    publishes, and the bounded recovery that rebuilds a failed session.  The
    file writers behind a session are not modelled; what the motor sees of them
    (does creating a session throw, has the session stored an error) is read
    from an environment script. *)
From stdpp Require Import base list numbers option strings.
From Stdlib Require Import ZArith Lia.
From Stdlib Require Import SpecFloat.
From S2P Require Import Prelude CFloat Types.
#[local] Open Scope Z_scope.
#[local] Open Scope cint_scope.

Inductive MotorCommandLogType :=
  LogPVTControl | LogPosControl | LogSpdControl | LogCurControl | LogTorControl | LogStop | LogBrake.

#[export] Instance MotorCommandLogType_eq_dec : EqDecision MotorCommandLogType.
Proof. solve_decision. Defined.

Definition kMotorCommandLogKp : Z := 1.
Definition kMotorCommandLogKd : Z := 2.
Definition kMotorCommandLogPosition : Z := 4.
Definition kMotorCommandLogSpeed : Z := 8.
Definition kMotorCommandLogCurrent : Z := 16.
Definition kMotorCommandLogTorque : Z := 32.
Definition kMotorCommandLogStopMode : Z := 64.
Definition kMotorCommandLogBrakeEnabled : Z := 128.
Definition kMotorCommandLogFeedback : Z := 256.

Record MotorCommandLogRecord := mkCommandRecord {
  lr_timestamp_ns : Z; lr_kp : F32.t; lr_kd : F32.t; lr_position : F32.t; lr_speed : F32.t;
  lr_current : F32.t; lr_torque : F32.t; lr_stop_mode : Z; lr_feedback : Z; lr_fields : Z;
  lr_type : MotorCommandLogType; lr_brake_enabled : bool }.

Record MotorStatusLogRecord := mkStatusRecord {
  sr_timestamp_ns : Z; sr_error : Z; sr_position : F32.t; sr_speed : F32.t; sr_current : F32.t;
  sr_motor_temperature : F32.t; sr_mos_temperature : F32.t }.

(** The optional arguments of [RecordCommand]. *)
Record CommandArgs := mkArgs {
  ca_kp : option F32.t; ca_kd : option F32.t; ca_position : option F32.t;
  ca_speed : option F32.t; ca_current : option F32.t; ca_torque : option F32.t;
  ca_stop_mode : option MotorStopMode; ca_brake : option bool; ca_feedback : option Z }.
Definition no_args : CommandArgs := mkArgs None None None None None None None None None.

Definition flag_of {A} (o : option A) (bit : Z) : Z := match o with Some _ => bit | None => 0 end.

Definition CommandFields (a : CommandArgs) : Z :=
  let fields := 0 in
  let fields := u16 (fields .| flag_of (ca_kp a) kMotorCommandLogKp) in
  let fields := u16 (fields .| flag_of (ca_kd a) kMotorCommandLogKd) in
  let fields := u16 (fields .| flag_of (ca_position a) kMotorCommandLogPosition) in
  let fields := u16 (fields .| flag_of (ca_speed a) kMotorCommandLogSpeed) in
  let fields := u16 (fields .| flag_of (ca_current a) kMotorCommandLogCurrent) in
  let fields := u16 (fields .| flag_of (ca_torque a) kMotorCommandLogTorque) in
  let fields := u16 (fields .| flag_of (ca_stop_mode a) kMotorCommandLogStopMode) in
  let fields := u16 (fields .| flag_of (ca_brake a) kMotorCommandLogBrakeEnabled) in
  u16 (fields .| flag_of (ca_feedback a) kMotorCommandLogFeedback).

Definition CommandType (type : string) : MotorCommandLogType :=
  if bool_decide (type = "PVTControl"%string) then LogPVTControl
  else if bool_decide (type = "PosControl"%string) then LogPosControl
  else if bool_decide (type = "SpdControl"%string) then LogSpdControl
  else if bool_decide (type = "CurControl"%string) then LogCurControl
  else if bool_decide (type = "TorControl"%string) then LogTorControl
  else if bool_decide (type = "Stop"%string) then LogStop
  else LogBrake.

(** ** Session, state, environment *)

Record LogSession := mkSession {
  ls_name : string;
  ls_commands : list MotorCommandLogRecord;
  ls_statuses : list MotorStatusLogRecord }.

Record LogState := mkLog {
  log_session : option LogSession;
  log_base_name : string;
  log_retry_budget : Z;
  log_success_count : Z;
  log_recovering : bool;
  log_closed : list LogSession      (* sessions handed to CloseMotorLogSession *)
}.
Definition initial_log : LogState := mkLog None "" 3 0 false [].

(** [le_creates]: does each successive [CreateMotorLogSession] succeed (an
    exhausted script: yes); [le_errors]: is the error flag of the session set at
    each successive test (an exhausted script: no); [le_now]: the clock. *)
Record LogEnv := mkLogEnv { le_creates : list bool; le_errors : list bool; le_now : Z }.

Definition next_create (e : LogEnv) : bool * LogEnv :=
  match le_creates e with
  | [] => (true, e)
  | b :: r => (b, mkLogEnv r (le_errors e) (le_now e))
  end.
Definition next_error (e : LogEnv) : bool * LogEnv :=
  match le_errors e with
  | [] => (false, e)
  | b :: r => (b, mkLogEnv (le_creates e) r (le_now e))
  end.

(** ** RecoverLogSession *)

Definition close_session (s : option LogSession) (l : LogState) : LogState :=
  match s with
  | Some x => mkLog (log_session l) (log_base_name l) (log_retry_budget l)
                (log_success_count l) (log_recovering l) (log_closed l ++ [x])
  | None => l
  end.

(** The [for (;;)] of the recovery.  Each iteration spends one unit of the
    budget, so [fuel] above the budget is never exhausted. *)
Fixpoint RecoverLoop (fuel : nat) (base_name : string) (l : LogState) (e : LogEnv)
    : option (bool * LogState * LogEnv) :=
  match fuel with
  | O => None
  | S f =>
      if negb (bool_decide (log_base_name l = base_name)) || (log_retry_budget l <=? 0) then
        Some (false,
              mkLog (log_session l) "" (log_retry_budget l) (log_success_count l) false
                (log_closed l), e)
      else
        let l1 := mkLog (log_session l) (log_base_name l) (log_retry_budget l - 1)
                    (log_success_count l) (log_recovering l) (log_closed l) in
        let (created, e1) := next_create e in
        if created then
          if negb (bool_decide (log_base_name l1 = base_name)) then
            Some (false, mkLog (log_session l1) (log_base_name l1) (log_retry_budget l1)
                           (log_success_count l1) false (log_closed l1), e1)
          else
            Some (true, mkLog (Some (mkSession base_name [] [])) (log_base_name l1)
                          (log_retry_budget l1) (log_success_count l1) false (log_closed l1), e1)
        else RecoverLoop f base_name l1 e1
  end.

Definition RecoverLogSession (l : LogState) (e : LogEnv) : option (bool * LogState * LogEnv) :=
  if log_recovering l || bool_decide (log_base_name l = ""%string) then Some (false, l, e)
  else
    let base_name := log_base_name l in
    let l1 := mkLog None (log_base_name l) (log_retry_budget l) (log_success_count l) true
                (log_closed l) in
    let l2 := close_session (log_session l) l1 in
    RecoverLoop (S (Z.to_nat (log_retry_budget l))) base_name l2 e.

(** ** RecordCommand *)

Definition command_record (now : Z) (type : string) (a : CommandArgs) : MotorCommandLogRecord :=
  mkCommandRecord now (default F32.zero (ca_kp a)) (default F32.zero (ca_kd a))
    (default F32.zero (ca_position a)) (default F32.zero (ca_speed a))
    (default F32.zero (ca_current a)) (default F32.zero (ca_torque a))
    (match ca_stop_mode a with Some m => MotorStopMode_code m | None => 0 end)
    (default 0 (ca_feedback a)) (CommandFields a) (CommandType type)
    (default false (ca_brake a)).

Definition count_success (l : LogState) : LogState :=
  let n := log_success_count l + 1 in
  if 10 <=? n
  then mkLog (log_session l) (log_base_name l) 3 0 (log_recovering l) (log_closed l)
  else mkLog (log_session l) (log_base_name l) (log_retry_budget l) n (log_recovering l)
         (log_closed l).

Fixpoint RecordCommandLoop (fuel : nat) (type : string) (a : CommandArgs)
    (l : LogState) (e : LogEnv) : option (LogState * LogEnv) :=
  match fuel with
  | O => None
  | S f =>
      match log_session l with
      | None => Some (l, e)
      | Some s =>
          let (failed, e1) := next_error e in
          if failed then
            match RecoverLogSession l e1 with
            | None => None
            | Some (false, l1, e2) => Some (l1, e2)
            | Some (true, l1, e2) => RecordCommandLoop f type a l1 e2
            end
          else
            let s1 := mkSession (ls_name s) (ls_commands s ++ [command_record (le_now e1) type a])
                        (ls_statuses s) in
            let l1 := mkLog (Some s1) (log_base_name l) (log_retry_budget l)
                        (log_success_count l) (log_recovering l) (log_closed l) in
            Some (count_success l1, e1)
      end
  end.

Definition record_fuel (l : LogState) : nat := S (S (Z.to_nat (log_retry_budget l))).

(** [RecordCommand] is [noexcept]; [RecordCommandLoop_total] below shows the fuel is
    enough, so the [default] is never taken. *)
Definition RecordCommand (type : string) (a : CommandArgs) (l : LogState) (e : LogEnv)
    : LogState * LogEnv :=
  default (l, e) (RecordCommandLoop (record_fuel l) type a l e).

(** The logging half of [Motor::HandleStatus]. *)
Definition RecordStatus (st : MotorStatus) (l : LogState) (e : LogEnv) : LogState * LogEnv :=
  match log_session l with
  | None => (l, e)
  | Some s =>
      let (failed, e1) := next_error e in
      if failed then
        match RecoverLogSession l e1 with
        | Some (_, l1, e2) => (l1, e2)
        | None => (l, e1)
        end
      else
        let r := mkStatusRecord (le_now e1) (fb_error st) (fb_position st) (fb_speed st)
                   (fb_current st) (fb_motor_temperature st) (fb_mos_temperature st) in
        (mkLog (Some (mkSession (ls_name s) (ls_commands s) (ls_statuses s ++ [r])))
           (log_base_name l) (log_retry_budget l) (log_success_count l) (log_recovering l)
           (log_closed l), e1)
  end.

(** ** EnableLog, DisableLog *)

(** The boolean result is [false] when closing the session rethrows its error,
    after the motor's own state is already updated. *)
Definition DisableLogImpl (l : LogState) (e : LogEnv) : bool * LogState * LogEnv :=
  let session := log_session l in
  let l1 := mkLog None "" (log_retry_budget l) (log_success_count l) (log_recovering l)
              (log_closed l) in
  match session with
  | Some s => let (failed, e1) := next_error e in (negb failed, close_session (Some s) l1, e1)
  | None => (true, l1, e)
  end.

Definition IsLogged (l : LogState) : bool := bool_decide (is_Some (log_session l)).

Definition EnableLog (base_name : string) (l : LogState) (e : LogEnv) : bool * LogState * LogEnv :=
  if IsLogged l && bool_decide (log_base_name l = base_name) then (true, l, e)
  else
    let '(ok, l1, e1) := if IsLogged l then DisableLogImpl l e else (true, l, e) in
    if negb ok then (false, l1, e1)
    else
      let (created, e2) := next_create e1 in
      if created
      then (true, mkLog (Some (mkSession base_name [] [])) base_name (log_retry_budget l1)
                    (log_success_count l1) (log_recovering l1) (log_closed l1), e2)
      else (false, l1, e2).

(** ** Recovery terminates *)

Lemma RecoverLoop_total fuel name l e :
  (Z.to_nat (log_retry_budget l) < fuel)%nat ->
  exists b l' e', RecoverLoop fuel name l e = Some (b, l', e') /\
    log_recovering l' = false /\
    (b = true -> 0 <= log_retry_budget l' < log_retry_budget l /\
                 log_session l' = Some (mkSession name [] []) /\ log_base_name l' = name).
Proof.
  revert l e. induction fuel as [|f IH]; intros l e Hf; [lia|]. cbn [RecoverLoop].
  destruct (negb _ || _) eqn:Hc; [by eexists _, _, _|].
  apply orb_false_iff in Hc as [Hn Hb].
  apply negb_false_iff, bool_decide_eq_true in Hn.
  destruct (next_create e) as [created e1]. cbn.
  destruct created.
  - rewrite Hn, bool_decide_true by done. cbn. eexists _, _, _. split; [done|].
    cbn. repeat split; lia || done.
  - edestruct (IH (mkLog (log_session l) (log_base_name l) (log_retry_budget l - 1)
                    (log_success_count l) (log_recovering l) (log_closed l)) e1)
      as (b & l' & e' & -> & Hr & Ht); [cbn; lia|].
    exists b, l', e'. repeat split; try done; intros; destruct (Ht ltac:(done)) as ([] & ? & ?);
      cbn in *; done || lia.
Qed.

Lemma RecoverLogSession_total l e :
  exists b l' e', RecoverLogSession l e = Some (b, l', e') /\
    (b = true -> 0 <= log_retry_budget l' < log_retry_budget l /\
       log_session l' = Some (mkSession (log_base_name l) [] []) /\
       log_recovering l' = false).
Proof.
  unfold RecoverLogSession. destruct (_ || _) eqn:Hc; [by eexists _, _, _|].
  edestruct (RecoverLoop_total (S (Z.to_nat (log_retry_budget l))) (log_base_name l))
    as (b & l' & e' & -> & Hr & Ht).
  2: { exists b, l', e'. split; [done|]. intros Hb. destruct (Ht Hb) as (Hlt & ? & ?).
       split; [|done]. destruct (log_session l); cbn in Hlt; lia. }
  destruct (log_session l); cbn; lia.
Qed.

Lemma RecordCommandLoop_total fuel type a l e :
  (Z.to_nat (log_retry_budget l) < fuel)%nat ->
  is_Some (RecordCommandLoop fuel type a l e).
Proof.
  revert l e. induction fuel as [|f IH]; intros l e Hf; [lia|]. cbn [RecordCommandLoop].
  destruct (log_session l); [|done]. destruct (next_error e) as [[] e1]; [|done].
  destruct (RecoverLogSession_total l e1) as ([] & l' & e' & -> & Ht); [|done].
  apply IH. destruct (Ht ltac:(done)). lia.
Qed.

(** A recovery that gives up leaves the motor without a session. *)
Lemma RecoverLoop_gives_up fuel name l e l' e' :
  log_session l = None ->
  RecoverLoop fuel name l e = Some (false, l', e') -> log_session l' = None.
Proof.
  revert l e. induction fuel as [|f IH]; intros l e Hs; [done|]. cbn [RecoverLoop].
  destruct (negb _ || _); [by intros [= <- <-]|].
  destruct (next_create e) as [[] e1]; [|by apply IH].
  cbn. destruct (negb _); [by intros [= <- <-]|done].
Qed.

Lemma RecoverLoop_now fuel name l e b l' e' :
  RecoverLoop fuel name l e = Some (b, l', e') -> le_now e' = le_now e.
Proof.
  revert l e. induction fuel as [|f IH]; intros l e; [done|]. cbn [RecoverLoop].
  destruct (negb _ || _); [by intros [= <- <- <-]|].
  assert (le_now (next_create e).2 = le_now e) as Hn by (unfold next_create; by destruct (le_creates e)).
  destruct (next_create e) as [[] e1]; cbn in Hn.
  - cbn. destruct (negb _); by intros [= <- <- <-].
  - intros H. apply IH in H. congruence.
Qed.

Lemma RecoverLoop_ok fuel name l e l' e' :
  RecoverLoop fuel name l e = Some (true, l', e') ->
  log_recovering l' = false /\ log_base_name l' = name.
Proof.
  revert l e. induction fuel as [|f IH]; intros l e; [done|]. cbn [RecoverLoop].
  destruct (negb _ || _) eqn:Hc; [done|].
  apply orb_false_iff in Hc as [Hn _]. apply negb_false_iff, bool_decide_eq_true in Hn.
  destruct (next_create e) as [[] e1]; [|apply IH].
  cbn. destruct (negb _); [done|]. by intros [= <- <-].
Qed.

Lemma RecordCommandLoop_result fuel type a l e l' e' :
  log_recovering l = false -> log_base_name l <> ""%string ->
  RecordCommandLoop fuel type a l e = Some (l', e') ->
  log_session l' = None \/
  exists s, log_session l' = Some s /\ last (ls_commands s) = Some (command_record (le_now e) type a).
Proof.
  revert l e. induction fuel as [|f IH]; intros l e Hr Hn; [done|]. cbn [RecordCommandLoop].
  destruct (log_session l) as [s|] eqn:Hs; [|intros [= <- <-]; by left].
  assert (le_now (next_error e).2 = le_now e) as Hnow by (unfold next_error; by destruct (le_errors e)).
  destruct (next_error e) as [[] e1]; cbn in Hnow.
  - unfold RecoverLogSession. rewrite Hr, bool_decide_false by done. cbn [orb].
    set (l0 := close_session _ _).
    assert (log_session l0 = None /\ log_base_name l0 = log_base_name l) as [H0 Hb0]
      by (subst l0; by destruct (log_session l)).
    destruct (RecoverLoop _ _ l0 e1) as [[[[] l1] e2]|] eqn:E; [| |done].
    + pose proof (RecoverLoop_now _ _ _ _ _ _ _ E) as Hnow2.
      destruct (RecoverLoop_ok _ _ _ _ _ _ E) as (Hr1 & Hb1).
      intros H. rewrite <- Hnow, <- Hnow2. eapply IH; [done| |exact H]. by rewrite Hb1.
    + intros [= <- <-]. left. by apply RecoverLoop_gives_up in E.
  - intros [= <- <-]. right. rewrite <- Hnow.
    unfold count_success. cbn [log_success_count].
    destruct (10 <=? _); cbn [log_session]; (eexists; split; [reflexivity|]; cbn [ls_commands]);
      apply last_snoc.
Qed.

(** ** Theorem *)

(** Recording a command always terminates, within one attempt per unit of the
    retry budget, and is never silently lost while a session stays open: the
    motor ends either without a log session (recovery gave up) or with an open
    session whose newest record is this command. *)
Lemma RecordCommand_outcome type a l e :
  log_recovering l = false -> log_base_name l <> ""%string ->
  RecordCommandLoop (record_fuel l) type a l e = Some (RecordCommand type a l e) /\
  (log_session (fst (RecordCommand type a l e)) = None \/
   exists s, log_session (fst (RecordCommand type a l e)) = Some s /\
     last (ls_commands s) = Some (command_record (le_now e) type a)).
Proof.
  intros Hr Hn. unfold RecordCommand.
  destruct (RecordCommandLoop_total (record_fuel l) type a l e) as [[l' e'] E];
    [unfold record_fuel; lia|].
  rewrite E. split; [done|]. by apply RecordCommandLoop_result in E.
Qed.

(** A failed session, one failed re-creation, then success. *)
Lemma RecordCommand_outcome_witness :
  let l := mkLog (Some (mkSession "log" [] [])) "log" 3 0 false [] in
  let e := mkLogEnv [false; true] [true] 7 in
  RecordCommandLoop (record_fuel l) "Stop" no_args l e = Some (RecordCommand "Stop" no_args l e).
Proof. cbv zeta. apply RecordCommand_outcome; [reflexivity | discriminate]. Defined.
