(* ===== verification/Motor.v ===== *)
(** * Motor: src/device/motor/motor.cc and motor_impl.h

    The state of a motor ([Motor::Impl]), the monad its operations run in, the
    receive path ([OnMessage]) and the request/response wait
    ([SendAndWaitErased]) every acknowledged command is built on. *)
From stdpp Require Import base list numbers option strings.
From Stdlib Require Import ZArith Lia.
From Stdlib Require Import SpecFloat.
From S2P Require Import Prelude CFloat Types PackHelper StatusCache MotorLog.
#[local] Open Scope Z_scope.
#[local] Open Scope cint_scope.

(** ** Effects *)

(** The exceptions the modelled code throws or lets through. *)
Inductive Exn :=
| InvalidArgument      (* std::invalid_argument *)
| OutOfRange           (* std::out_of_range *)
| BusNotInitialized    (* std::runtime_error("Bus not initialized") *)
| ParameterTimeout     (* std::runtime_error("Get motor parameter timeout") *)
| NotRegistered        (* AcquireDeviceOperation on a device the manager retired *)
| LogFailure           (* EnableLog / DisableLog *)
| WriterFault.         (* thrown by the frame writer *)

Inductive Res (A : Type) :=
| Ok (a : A)
| Throw (e : Exn)
| Undefined.           (* the C++ behaviour is undefined *)
Arguments Ok {A} _.
Arguments Throw {A} _.
Arguments Undefined {A}.

(** ** State *)

(** [std::shared_ptr<void> content]: the two result types waiters are created at. *)
Inductive Content := ContentPack (p : MotorPackMsg) | ContentBool (b : bool).

(** A checker may read the motor index when it runs ([SetPos], [ResetZeroPos]);
    [None] is a checker that throws. *)
Record Waiter := mkWaiter {
  w_checker : Z -> MotorPackMsg -> option bool;
  w_content : Content;
  w_writer : MotorPackMsg -> Content -> Content;
  w_completed : bool;
  w_cancelled : bool
}.

(** [Motor::Impl].  Waiters are shared between the registering thread and the
    list, so they live in a store ([m_heap], indexed by creation order) and
    [m_waiters] holds their indices. *)
Record Impl := mkImpl {
  m_idx : Z;
  m_frame_flags : Z;
  m_ranges : MotorProperties;
  m_bus : bool;                 (* bus != nullptr *)
  m_heap : list Waiter;
  m_waiters : list nat;
  m_rejecting_waiters : bool;
  m_active_waiter_operations : Z;
  m_cache : StatusCache;
  m_user_on_status : bool;      (* a callback is installed *)
  m_log : LogState
}.

Definition set_ranges (f : MotorProperties -> MotorProperties) (i : Impl) : Impl :=
  mkImpl (m_idx i) (m_frame_flags i) (f (m_ranges i)) (m_bus i) (m_heap i) (m_waiters i)
    (m_rejecting_waiters i) (m_active_waiter_operations i) (m_cache i) (m_user_on_status i) (m_log i).
Definition set_frame_flags (f : Z -> Z) (i : Impl) : Impl :=
  mkImpl (m_idx i) (f (m_frame_flags i)) (m_ranges i) (m_bus i) (m_heap i) (m_waiters i)
    (m_rejecting_waiters i) (m_active_waiter_operations i) (m_cache i) (m_user_on_status i) (m_log i).
Definition set_idx (n : Z) (i : Impl) : Impl :=
  mkImpl n (m_frame_flags i) (m_ranges i) (m_bus i) (m_heap i) (m_waiters i)
    (m_rejecting_waiters i) (m_active_waiter_operations i) (m_cache i) (m_user_on_status i) (m_log i).
Definition set_waiting (h : list Waiter) (ws : list nat) (rej : bool) (n : Z) (i : Impl) : Impl :=
  mkImpl (m_idx i) (m_frame_flags i) (m_ranges i) (m_bus i) h ws rej n
    (m_cache i) (m_user_on_status i) (m_log i).
Definition set_cache (c : StatusCache) (i : Impl) : Impl :=
  mkImpl (m_idx i) (m_frame_flags i) (m_ranges i) (m_bus i) (m_heap i) (m_waiters i)
    (m_rejecting_waiters i) (m_active_waiter_operations i) c (m_user_on_status i) (m_log i).
Definition set_user_on_status (b : bool) (i : Impl) : Impl :=
  mkImpl (m_idx i) (m_frame_flags i) (m_ranges i) (m_bus i) (m_heap i) (m_waiters i)
    (m_rejecting_waiters i) (m_active_waiter_operations i) (m_cache i) b (m_log i).
Definition set_log (l : LogState) (i : Impl) : Impl :=
  mkImpl (m_idx i) (m_frame_flags i) (m_ranges i) (m_bus i) (m_heap i) (m_waiters i)
    (m_rejecting_waiters i) (m_active_waiter_operations i) (m_cache i) (m_user_on_status i) l.

(** [Impl::GetFeedbackRanges]: only what decoding needs is copied. *)
Definition GetFeedbackRanges (i : Impl) : MotorProperties :=
  let r := m_ranges i in
  mkProps zero_range zero_range (position r) (speed r) zero_range (current r) F32.zero false
    (fw_version r).

(** ** Construction *)

Definition WithCanFdFlag (flags : Z) (canfd : bool) : Z :=
  let frame_flags := SanitizeCanFrameFlags flags in
  if canfd then u8 (frame_flags .| kCanFrameFlagFdMask)
  else u8 (frame_flags .& u8 (Z.lnot kCanFrameFlagFdMask)).

(** The six constructors: with the model's ranges (the generated
    [GetMotorModelRanges] is a parameter), with explicit ranges, or with
    neither; each with or without the CAN FD argument. *)
Definition new_motor (motor_idx flags : Z) (bus : bool) (ranges : MotorProperties) : Impl :=
  mkImpl motor_idx (SanitizeCanFrameFlags flags) ranges bus [] [] false 0 initial_cache false
    initial_log.
Definition Motor_of_model {MotorModel : Type} (GetMotorModelRanges : MotorModel -> MotorProperties)
    (bus : bool) (motor_idx : Z) (model : MotorModel) (flags : Z) : Impl :=
  new_motor motor_idx flags bus (GetMotorModelRanges model).
Definition Motor_of_ranges (bus : bool) (motor_idx : Z) (ranges : MotorProperties) (flags : Z)
    : Impl := new_motor motor_idx flags bus ranges.
Definition Motor_plain (bus : bool) (motor_idx flags : Z) : Impl :=
  new_motor motor_idx flags bus empty_properties.
Definition Motor_of_ranges_canfd (bus : bool) (motor_idx : Z) (ranges : MotorProperties)
    (flags : Z) (canfd : bool) : Impl :=
  Motor_of_ranges bus motor_idx ranges (WithCanFdFlag flags canfd).

(** ** The receive path *)

(** One iteration of the waiter loop of [OnMessage]. *)
Definition NotifyWaiter (idx : Z) (message : MotorPackMsg) (w : Waiter) : Waiter :=
  if w_cancelled w || w_completed w then w
  else
    match w_checker w idx message with
    | None => mkWaiter (w_checker w) (w_content w) (w_writer w) (w_completed w) true
    | Some false => w
    | Some true =>
        mkWaiter (w_checker w) (w_writer w message (w_content w)) (w_writer w) true
          (w_cancelled w)
    end.

Definition NotifyWaiters (idx : Z) (message : MotorPackMsg) (snapshot : list nat)
    (heap : list Waiter) : list Waiter :=
  fold_left (fun h k => alter (NotifyWaiter idx message) k h) snapshot heap.

(** [HandleStatus]: the log record, then the user callback, whose calls are
    returned as a trace. *)
Definition HandleStatus (st : MotorStatus) (i : Impl) (e : LogEnv)
    : Impl * LogEnv * list MotorStatus :=
  let (l, e1) := RecordStatus st (m_log i) e in
  (set_log l i, e1, if m_user_on_status i then [st] else []).

Definition OnMessage (message : MotorPackMsg) (i : Impl) (e : LogEnv)
    : Impl * LogEnv * list MotorStatus :=
  let decoded := AutoDecodeFeedback message (GetFeedbackRanges i) in
  let responds := negb (fb_error decoded =? MotorError.NoResponse) in
  let '(decoded, i) :=
    if responds then
      let (filtered, c) := StoreStatus decoded (m_cache i) in (filtered, set_cache c i)
    else (decoded, i) in
  let i := set_waiting (NotifyWaiters (m_idx i) message (m_waiters i) (m_heap i)) (m_waiters i)
             (m_rejecting_waiters i) (m_active_waiter_operations i) i in
  if responds then HandleStatus decoded i e else (i, e, []).

Definition cancel_waiter (w : Waiter) : Waiter :=
  mkWaiter (w_checker w) (w_content w) (w_writer w) (w_completed w) true.

Definition CancelWaitersWithoutDrain (i : Impl) : Impl :=
  if m_rejecting_waiters i then i
  else set_waiting (fold_left (fun h k => alter cancel_waiter k h) (m_waiters i) (m_heap i))
         [] true (m_active_waiter_operations i) i.

Definition WaitersDrained (i : Impl) : bool := m_active_waiter_operations i =? 0.

(** ** The world of an operation

    What other threads do while an operation waits is a script: the actions
    between the registration of the waiter and the send, and those between the
    send and the moment the waiting thread reads [completed]. *)
Inductive EnvAction :=
| Rx (m : MotorPackMsg)             (* the receive thread delivers a frame *)
| CancelAll                         (* CancelWaitersWithoutDrain *)
| ReadStatus (life_cycle_deduction : Z)
| Retire.                           (* the manager retires the device *)

Record WaitScript := mkScript { before_send : list EnvAction; during_wait : list EnvAction }.

Record World (S : Type) := mkWorld {
  w_impl : Impl;
  w_sent : list MotorPackMsg;           (* frames handed to [writer] *)
  w_status_calls : list MotorStatus;    (* user callback invocations *)
  w_faults : list bool;                 (* does each successive [writer] call throw *)
  w_waits : list WaitScript;
  w_log_env : LogEnv;
  w_registered : bool;
  w_mgr : S                             (* the driver manager *)
}.
Arguments mkWorld {S} _ _ _ _ _ _ _ _.
Arguments w_impl {S} _.
Arguments w_sent {S} _.
Arguments w_status_calls {S} _.
Arguments w_faults {S} _.
Arguments w_waits {S} _.
Arguments w_log_env {S} _.
Arguments w_registered {S} _.
Arguments w_mgr {S} _.

Definition with_impl {S} (i : Impl) (w : World S) : World S :=
  mkWorld i (w_sent w) (w_status_calls w) (w_faults w) (w_waits w) (w_log_env w)
    (w_registered w) (w_mgr w).
Definition with_mgr {S} (s : S) (w : World S) : World S :=
  mkWorld (w_impl w) (w_sent w) (w_status_calls w) (w_faults w) (w_waits w) (w_log_env w)
    (w_registered w) s.

Definition M (S A : Type) : Type := World S -> Res A * World S.

Definition mret {S A} (a : A) : M S A := fun w => (Ok a, w).
Definition mthrow {S A} (e : Exn) : M S A := fun w => (Throw e, w).
Definition mundef {S A} : M S A := fun w => (Undefined, w).
Definition mbind {S A B} (m : M S A) (f : A -> M S B) : M S B := fun w =>
  match m w with
  | (Ok a, w') => f a w'
  | (Throw e, w') => (Throw e, w')
  | (Undefined, w') => (Undefined, w')
  end.
Definition mget {S A} (f : Impl -> A) : M S A := fun w => (Ok (f (w_impl w)), w).
Definition mmodify {S} (f : Impl -> Impl) : M S unit := fun w =>
  (Ok tt, with_impl (f (w_impl w)) w).
(** An undefined conversion. *)
Definition mcast {S A} (o : option A) : M S A :=
  match o with Some a => mret a | None => mundef end.

Declare Scope motor_scope.
Delimit Scope motor_scope with motor.
Notation "'let!' x := m 'in' k" := (mbind m (fun x => k))
  (at level 10, x pattern, m at level 100, k at level 200) : motor_scope.
Notation "m ;; k" := (mbind m (fun _ => k)) (at level 100, k at level 200, right associativity)
  : motor_scope.
#[local] Open Scope motor_scope.

(** ** Sending and waiting *)

(** [EncosDriverManager::AcquireDeviceOperation]. *)
Definition AcquireDeviceOperation {S} : M S unit := fun w =>
  if w_registered w then (Ok tt, w) else (Throw NotRegistered, w).

Definition SendMessageLocked {S} (msg : MotorPackMsg) : M S unit := fun w =>
  let packet := mkPack (id msg) (SanitizeCanFrameFlags (m_frame_flags (w_impl w))) (len msg)
                  (data msg) in
  let fault := match w_faults w with [] => false | b :: _ => b end in
  let w' := mkWorld (w_impl w) (if fault then w_sent w else w_sent w ++ [packet])
              (w_status_calls w) (tail (w_faults w)) (w_waits w) (w_log_env w)
              (w_registered w) (w_mgr w) in
  (if fault then Throw WriterFault else Ok tt, w').

Definition RunEnvAction {S} (a : EnvAction) (w : World S) : World S :=
  match a with
  | Rx m =>
      let '(i, e, calls) := OnMessage m (w_impl w) (w_log_env w) in
      mkWorld i (w_sent w) (w_status_calls w ++ calls) (w_faults w) (w_waits w) e
        (w_registered w) (w_mgr w)
  | CancelAll => with_impl (CancelWaitersWithoutDrain (w_impl w)) w
  | ReadStatus n =>
      with_impl (set_cache (snd (GetStatusImpl n (m_cache (w_impl w)))) (w_impl w)) w
  | Retire =>
      mkWorld (w_impl w) (w_sent w) (w_status_calls w) (w_faults w) (w_waits w) (w_log_env w)
        false (w_mgr w)
  end.
Definition RunEnv {S} (l : list EnvAction) (w : World S) : World S :=
  fold_left (fun w a => RunEnvAction a w) l w.

(** The script of this wait; an exhausted list is a wait nobody answers. *)
Definition next_wait {S} (w : World S) : WaitScript * World S :=
  match w_waits w with
  | [] => (mkScript [] [], w)
  | s :: r => (s, mkWorld (w_impl w) (w_sent w) (w_status_calls w) (w_faults w) r
                    (w_log_env w) (w_registered w) (w_mgr w))
  end.

Definition register_waiter (wt : Waiter) (i : Impl) : Impl :=
  set_waiting (m_heap i ++ [wt]) (m_waiters i ++ [length (m_heap i)]) (m_rejecting_waiters i)
    (m_active_waiter_operations i + 1) i.

Definition unregister_waiter (k : nat) (i : Impl) : Impl :=
  set_waiting (alter cancel_waiter k (m_heap i)) (filter (fun j => j <> k) (m_waiters i))
    (m_rejecting_waiters i) (m_active_waiter_operations i - 1) i.

(** The result carries the waiter's content, which [SendAndWaitTyped] reads when
    the wait completed. *)
Definition SendAndWaitErased {S} (message : MotorPackMsg)
    (checker : Z -> MotorPackMsg -> option bool) (content : Content)
    (writer : MotorPackMsg -> Content -> Content) : M S (bool * Content) := fun w =>
  if m_rejecting_waiters (w_impl w) then (Ok (false, content), w)
  else
    let (script, w) := next_wait w in
    let k := length (m_heap (w_impl w)) in
    let w := with_impl (register_waiter (mkWaiter checker content writer false false) (w_impl w)) w in
    let w := RunEnv (before_send script) w in
    match SendMessageLocked message w with
    | (Ok _, w) =>
        let w := RunEnv (during_wait script) w in
        let completed := match m_heap (w_impl w) !! k with
                         | Some x => (w_completed x, w_content x)
                         | None => (false, content)
                         end in
        (Ok completed, with_impl (unregister_waiter k (w_impl w)) w)
    | (Throw e, w) => (Throw e, with_impl (unregister_waiter k (w_impl w)) w)
    | (Undefined, w) => (Undefined, w)
    end.

(** [SendAndWaitTyped<MotorPackMsg>] with the copying writer. *)
Definition SendAndWait {S} (message : MotorPackMsg) (checker : Z -> MotorPackMsg -> bool)
    : M S (option MotorPackMsg) :=
  let! (completed, content) :=
    SendAndWaitErased message (fun i p => Some (checker i p))
      (ContentPack (mkPack 0 0 0 (replicate 8 0))) (fun received _ => ContentPack received) in
  mret (if completed
        then match content with ContentPack p => Some p | ContentBool _ => None end
        else None).

Definition ParameterAckMatches (parameter_id : Z) (expected_payload : list Z)
    (pack : MotorPackMsg) : bool :=
  packet_has_payload pack 0 (3 + Z.of_nat (length expected_payload)) &&
  (byte_at (data pack) 0 =? 255) && (byte_at (data pack) 1 =? 254) &&
  (byte_at (data pack) 2 =? parameter_id) &&
  bool_decide (expected_payload = map (fun k => byte_at (data pack) (3 + k))
                                      (seq 0 (length expected_payload))).

(** [SendAndWaitTyped<bool>(...).value_or(false)]. *)
Definition SendParameterAndWait {S} (message : MotorPackMsg) (parameter_id : Z)
    (expected_payload : list Z) : M S bool :=
  let! (completed, content) :=
    SendAndWaitErased message
      (fun _ pack => Some (ParameterAckMatches parameter_id expected_payload pack))
      (ContentBool false) (fun _ _ => ContentBool true) in
  mret (if completed
        then match content with ContentBool b => b | ContentPack _ => false end
        else false).

(** [RecordCommand] on the motor's log. *)
Definition RecordCommandM {S} (type : string) (a : CommandArgs) : M S unit := fun w =>
  let (l, e) := RecordCommand type a (m_log (w_impl w)) (w_log_env w) in
  (Ok tt, mkWorld (set_log l (w_impl w)) (w_sent w) (w_status_calls w) (w_faults w) (w_waits w)
            e (w_registered w) (w_mgr w)).

(** ** The public setters and getters *)

Definition SetMaxStatusLifeCycle {S} (max_life_cycle : Z) : M S unit :=
  AcquireDeviceOperation ;;
  mmodify (fun i => set_cache (SetStatusLifeCycle max_life_cycle (m_cache i)) i).

Definition SetStatusMedianFilterWindowSize {S} (window : nat) : M S unit :=
  AcquireDeviceOperation ;;
  mmodify (fun i => set_cache (SetStatusMedianFilterWindowSizeImpl window (m_cache i)) i).

Definition SetStatusLimitFilterMaxDeltas {S} (limit_max_deltas : MotorStatus) : M S unit :=
  AcquireDeviceOperation ;;
  mmodify (fun i => set_cache (SetStatusLimitFilterMaxDeltasImpl limit_max_deltas (m_cache i)) i).

Definition SetStatusLimitFilterMaxDeltas_values {S} (position speed current motor_temperature
    mos_temperature : F32.t) : M S unit :=
  SetStatusLimitFilterMaxDeltas
    (mkFb1 MotorError.NoResponse position speed current motor_temperature mos_temperature).

Definition GetProperties {S} : M S MotorProperties :=
  AcquireDeviceOperation ;; mget m_ranges.

Definition HasBrake {S} : M S bool := let! p := GetProperties in mret (brake p).

Definition SetProperties {S} (p : MotorProperties) : M S unit :=
  AcquireDeviceOperation ;;
  mmodify (set_ranges (fun r =>
    mkProps (kp p) (kd p) (position p) (speed p) (torque p) (current p)
      (kt r) (brake r) (fw_version r))).

Definition SetCurrentRange {S} (range : F32.t) : M S unit :=
  AcquireDeviceOperation ;;
  mmodify (set_ranges (fun r =>
    mkProps (kp r) (kd r) (position r) (speed r) (torque r) (mkRange (F32.opp range) range)
      (kt r) (brake r) (fw_version r))).

Definition EnableCanFd {S} : M S unit :=
  AcquireDeviceOperation ;; mmodify (set_frame_flags (fun f => u8 (f .| kCanFrameFlagFdMask))).
Definition DisableCanFd {S} : M S unit :=
  AcquireDeviceOperation ;;
  mmodify (set_frame_flags (fun f => u8 (f .& u8 (Z.lnot kCanFrameFlagFdMask)))).
Definition IsCanFdEnabled {S} : M S bool :=
  AcquireDeviceOperation ;; mget (fun i => CanFrameFlagsUseCanFd (m_frame_flags i)).
Definition EnableCanEff {S} : M S unit :=
  AcquireDeviceOperation ;; mmodify (set_frame_flags (fun f => u8 (f .| kCanFrameFlagEff))).
Definition DisableCanEff {S} : M S unit :=
  AcquireDeviceOperation ;;
  mmodify (set_frame_flags (fun f => u8 (f .& u8 (Z.lnot kCanFrameFlagEff)))).
Definition IsCanEffEnabled {S} : M S bool :=
  AcquireDeviceOperation ;; mget (fun i => CanFrameFlagsUseExtendedId (m_frame_flags i)).

Definition GetStatus {S} (life_cycle_deduction : Z) : M S (option MotorStatus) :=
  AcquireDeviceOperation ;;
  (let! st := mget (fun i => fst (GetStatusImpl life_cycle_deduction (m_cache i))) in
   mmodify (fun i => set_cache (snd (GetStatusImpl life_cycle_deduction (m_cache i))) i) ;;
   mret st).

Definition SetOnStatus {S} (callback : bool) : M S unit :=
  AcquireDeviceOperation ;; mmodify (set_user_on_status callback).

(** [~Motor] once its last operation is over: cancel, then close the log. *)
Definition Motor_dtor (i : Impl) (e : LogEnv) : Impl * LogEnv :=
  let i := CancelWaitersWithoutDrain i in
  let '(_, l, e1) := DisableLogImpl (m_log i) e in
  (set_log l i, e1).

(** ** Lemmas on the waiter store *)

(** [first_accepted c idx acts]: the frame a freshly registered waiter with
    checker [c] is completed by, if any: the first one it accepts before it is
    cancelled (by [CancelAll], or by its own throwing checker). *)
Fixpoint first_accepted (checker : Z -> MotorPackMsg -> option bool) (idx : Z)
    (acts : list EnvAction) : option MotorPackMsg :=
  match acts with
  | [] => None
  | Rx m :: r =>
      match checker idx m with
      | Some true => Some m
      | Some false => first_accepted checker idx r
      | None => None
      end
  | CancelAll :: _ => None
  | _ :: r => first_accepted checker idx r
  end.

(** What registration relies on: list entries are live store indices, each
    once, and a rejecting motor has an empty list. *)
Record WaitersOk (i : Impl) : Prop := {
  wo_live : Forall (fun k => (k < length (m_heap i))%nat) (m_waiters i);
  wo_nodup : NoDup (m_waiters i);
  wo_rejecting : m_rejecting_waiters i = true -> m_waiters i = []
}.

Section WaiterStore.

Lemma length_fold_alter (f : Waiter -> Waiter) (ks : list nat) (h : list Waiter) :
  length (fold_left (fun h k => alter f k h) ks h) = length h.
Proof.
  revert h. induction ks as [|k ks IH]; intros h; cbn; [done|].
  by rewrite IH, length_alter.
Qed.

Lemma lookup_fold_alter_notin (f : Waiter -> Waiter) (ks : list nat) (h : list Waiter) (k : nat) :
  k ∉ ks -> fold_left (fun h k => alter f k h) ks h !! k = h !! k.
Proof.
  revert h. induction ks as [|j ks IH]; intros h Hk; cbn; [done|].
  apply not_elem_of_cons in Hk as [? ?]. rewrite IH by done.
  by rewrite list_lookup_alter_ne.
Qed.

Lemma lookup_fold_alter_in (f : Waiter -> Waiter) (ks : list nat) (h : list Waiter) (k : nat) :
  NoDup ks -> k ∈ ks -> fold_left (fun h k => alter f k h) ks h !! k = f <$> h !! k.
Proof.
  revert h. induction ks as [|j ks IH]; intros h Hnd Hk; [by apply not_elem_of_nil in Hk|].
  apply NoDup_cons in Hnd as [Hj Hnd]. cbn.
  apply elem_of_cons in Hk as [->|Hk].
  - rewrite lookup_fold_alter_notin by done. apply list_lookup_alter_eq.
  - rewrite IH by done. rewrite list_lookup_alter_ne; [done|]. by intros ->.
Qed.

Lemma OnMessage_waiting m i e :
  let i' := (OnMessage m i e).1.1 in
  m_idx i' = m_idx i /\ m_waiters i' = m_waiters i /\
  m_rejecting_waiters i' = m_rejecting_waiters i /\
  m_active_waiter_operations i' = m_active_waiter_operations i /\
  m_heap i' = NotifyWaiters (m_idx i) m (m_waiters i) (m_heap i).
Proof.
  unfold OnMessage. destruct (negb _) eqn:Hr; cbn.
  - unfold HandleStatus. cbn. by destruct (RecordStatus _ _ _).
  - done.
Qed.

Context {S : Type}.
Implicit Types (w : World S).

Lemma RunEnvAction_idx a w : m_idx (w_impl (RunEnvAction a w)) = m_idx (w_impl w).
Proof.
  destruct a; cbn; try done.
  - pose proof (OnMessage_waiting m (w_impl w) (w_log_env w)) as (H & _).
    by destruct (OnMessage _ _ _) as [[]].
  - unfold CancelWaitersWithoutDrain. by destruct (m_rejecting_waiters _).
Qed.

(** The waiter [k] after one action. *)
Lemma RunEnvAction_lookup a w k x :
  WaitersOk (w_impl w) -> m_heap (w_impl w) !! k = Some x ->
  m_heap (w_impl (RunEnvAction a w)) !! k =
    Some (match a with
          | Rx m => if bool_decide (k ∈ m_waiters (w_impl w))
                    then NotifyWaiter (m_idx (w_impl w)) m x else x
          | CancelAll => if bool_decide (k ∈ m_waiters (w_impl w)) then cancel_waiter x else x
          | _ => x
          end).
Proof.
  intros [Hl Hnd Hrej] Hk. destruct a; cbn; try done.
  - pose proof (OnMessage_waiting m (w_impl w) (w_log_env w)) as (_ & _ & _ & _ & H).
    destruct (OnMessage _ _ _) as [[i e] c]. cbn in *. rewrite H. unfold NotifyWaiters.
    case_bool_decide.
    + rewrite lookup_fold_alter_in by done. by rewrite Hk.
    + by rewrite lookup_fold_alter_notin.
  - unfold CancelWaitersWithoutDrain. destruct (m_rejecting_waiters (w_impl w)) eqn:Hr.
    + rewrite Hrej by done. by rewrite bool_decide_false by apply not_elem_of_nil.
    + cbn. case_bool_decide.
      * rewrite lookup_fold_alter_in by done. by rewrite Hk.
      * by rewrite lookup_fold_alter_notin.
Qed.

Lemma RunEnvAction_waiters a w :
  m_waiters (w_impl (RunEnvAction a w)) =
    match a with
    | CancelAll => if m_rejecting_waiters (w_impl w) then m_waiters (w_impl w) else []
    | _ => m_waiters (w_impl w)
    end /\
  m_rejecting_waiters (w_impl (RunEnvAction a w)) =
    match a with CancelAll => true | _ => m_rejecting_waiters (w_impl w) end /\
  m_active_waiter_operations (w_impl (RunEnvAction a w)) =
    m_active_waiter_operations (w_impl w) /\
  length (m_heap (w_impl (RunEnvAction a w))) = length (m_heap (w_impl w)).
Proof.
  destruct a; cbn; try done.
  - pose proof (OnMessage_waiting m (w_impl w) (w_log_env w)) as (_ & H1 & H2 & H3 & H4).
    destruct (OnMessage _ _ _) as [[i e] c]. cbn in *. rewrite H4. unfold NotifyWaiters.
    by rewrite length_fold_alter.
  - unfold CancelWaitersWithoutDrain. destruct (m_rejecting_waiters (w_impl w)) eqn:Hr; cbn.
    + by rewrite Hr.
    + by rewrite length_fold_alter.
Qed.

Lemma RunEnvAction_ok a w : WaitersOk (w_impl w) -> WaitersOk (w_impl (RunEnvAction a w)).
Proof.
  intros [Hl Hnd Hrej]. destruct (RunEnvAction_waiters a w) as (H1 & H2 & _ & H4).
  split; rewrite ?H1, ?H2, ?H4; destruct a; try done;
    destruct (m_rejecting_waiters (w_impl w)); done || constructor.
Qed.

Lemma RunEnv_ok l w : WaitersOk (w_impl w) -> WaitersOk (w_impl (RunEnv l w)).
Proof. revert w. induction l; intros w H; cbn; [done|]. by apply IHl, RunEnvAction_ok. Qed.

(** A waiter that is completed or cancelled keeps its result. *)
Lemma RunEnv_settled l w k x :
  WaitersOk (w_impl w) -> m_heap (w_impl w) !! k = Some x ->
  w_cancelled x || w_completed x = true ->
  exists x', m_heap (w_impl (RunEnv l w)) !! k = Some x' /\
    w_completed x' = w_completed x /\ w_content x' = w_content x.
Proof.
  revert w x. induction l as [|a l IH]; intros w x Hok Hk Hs; [by exists x|]. cbn.
  pose proof (RunEnvAction_lookup a w k x Hok Hk) as Hk'.
  apply (RunEnvAction_ok a) in Hok.
  assert (NotifyWaiter (m_idx (w_impl w)) (match a with Rx m => m | _ => mkPack 0 0 0 [] end) x
          = x) as Hn by (unfold NotifyWaiter; by rewrite Hs).
  destruct a; try (case_bool_decide as Hin; rewrite ?Hn in Hk');
    edestruct (IH _ _ Hok Hk') as (x' & ? & ? & ?); try done; by exists x'.
Qed.

Lemma RunEnv_first_accepted l w k x :
  WaitersOk (w_impl w) -> m_heap (w_impl w) !! k = Some x ->
  k ∈ m_waiters (w_impl w) -> w_cancelled x = false -> w_completed x = false ->
  exists x', m_heap (w_impl (RunEnv l w)) !! k = Some x' /\
    match first_accepted (w_checker x) (m_idx (w_impl w)) l with
    | Some p => w_completed x' = true /\ w_content x' = w_writer x p (w_content x)
    | None => w_completed x' = false
    end.
Proof.
  revert w x. induction l as [|a l IH]; intros w x Hok Hk Hin Hc Hd; [by exists x|]. cbn.
  pose proof (RunEnvAction_lookup a w k x Hok Hk) as Hk'.
  pose proof (RunEnvAction_ok a w Hok) as Hok'.
  pose proof (RunEnvAction_idx a w) as Hidx.
  destruct (RunEnvAction_waiters a w) as (Hw & _).
  destruct a as [m| |n|]; rewrite ?bool_decide_true in Hk' by done.
  - unfold NotifyWaiter in Hk'. rewrite Hc, Hd in Hk'. cbn in Hk'.
    destruct (w_checker x (m_idx (w_impl w)) m) as [[]|].
    + edestruct (RunEnv_settled l _ k _ Hok' Hk') as (x' & ? & ? & ?); [done|]. by exists x'.
    + rewrite <- Hidx. eapply IH; first [done | by rewrite Hw].
    + edestruct (RunEnv_settled l _ k _ Hok' Hk') as (x' & ? & ? & ?); [done|].
      exists x'. split; [done|]. cbn in *. congruence.
  - edestruct (RunEnv_settled l _ k _ Hok' Hk') as (x' & ? & ? & ?); [done|].
    exists x'. split; [done|]. cbn in *. congruence.
  - rewrite <- Hidx. eapply IH; first [done | by rewrite Hw].
  - rewrite <- Hidx. eapply IH; first [done | by rewrite Hw].
Qed.

(** Frames already sent and faults do not influence what the environment does
    to the motor. *)
Lemma RunEnv_ext l w1 w2 :
  w_impl w1 = w_impl w2 -> w_log_env w1 = w_log_env w2 ->
  w_impl (RunEnv l w1) = w_impl (RunEnv l w2) /\
  w_log_env (RunEnv l w1) = w_log_env (RunEnv l w2).
Proof.
  revert w1 w2. induction l as [|a l IH]; intros w1 w2 Hi He; [done|]. cbn.
  apply IH; destruct a; cbn; rewrite ?Hi, ?He; try done; by destruct (OnMessage _ _ _) as [[]].
Qed.

Lemma RunEnv_waiters l w :
  m_active_waiter_operations (w_impl (RunEnv l w)) = m_active_waiter_operations (w_impl w) /\
  length (m_heap (w_impl (RunEnv l w))) = length (m_heap (w_impl w)) /\
  (m_waiters (w_impl (RunEnv l w)) = m_waiters (w_impl w) \/
   m_waiters (w_impl (RunEnv l w)) = []).
Proof.
  revert w. induction l as [|a l IH]; intros w; [by auto|]. cbn.
  destruct (RunEnvAction_waiters a w) as (H1 & _ & H3 & H4).
  destruct (IH (RunEnvAction a w)) as (I1 & I2 & I3). fold (RunEnv l (RunEnvAction a w)).
  rewrite I1, I2, H3, H4.
  repeat split; try done. rewrite H1 in I3.
  destruct a; try done. revert I3. destruct (m_rejecting_waiters (w_impl w)); intros []; auto.
Qed.

End WaiterStore.

Section SendAndWaitLemmas.
Context {S : Type}.
Implicit Types (w : World S).

Lemma RunEnv_sent l w :
  w_sent (RunEnv l w) = w_sent w /\ w_faults (RunEnv l w) = w_faults w /\
  w_waits (RunEnv l w) = w_waits w /\
  m_frame_flags (w_impl (RunEnv l w)) = m_frame_flags (w_impl w) /\
  m_idx (w_impl (RunEnv l w)) = m_idx (w_impl w) /\
  m_ranges (w_impl (RunEnv l w)) = m_ranges (w_impl w).
Proof.
  revert w. induction l as [|a l IH]; intros w; [done|]. cbn.
  fold (RunEnv l (RunEnvAction a w)).
  destruct (IH (RunEnvAction a w)) as (-> & -> & -> & -> & -> & ->).
  destruct a as [m| | |]; cbn; try done.
  - unfold OnMessage, HandleStatus.
    destruct (negb _); cbn; [destruct (RecordStatus _ _ _)|]; done.
  - unfold CancelWaitersWithoutDrain. by destruct (m_rejecting_waiters _).
Qed.

Lemma next_wait_impl w :
  w_impl (next_wait w).2 = w_impl w /\ w_faults (next_wait w).2 = w_faults w /\
  w_sent (next_wait w).2 = w_sent w /\ w_log_env (next_wait w).2 = w_log_env w.
Proof. unfold next_wait. by destruct (w_waits w). Qed.

Lemma SendMessageLocked_impl msg w :
  w_impl (SendMessageLocked msg w).2 = w_impl w /\
  w_log_env (SendMessageLocked msg w).2 = w_log_env w.
Proof. done. Qed.

Lemma SendMessageLocked_ok msg w :
  hd false (w_faults w) = false ->
  (SendMessageLocked msg w).1 = Ok tt /\
  w_sent (SendMessageLocked msg w).2 = w_sent w ++
    [mkPack (id msg) (SanitizeCanFrameFlags (m_frame_flags (w_impl w))) (len msg) (data msg)].
Proof. unfold SendMessageLocked. destruct (w_faults w) as [|[] ?]; done. Qed.

Lemma register_ok wt i :
  m_rejecting_waiters i = false -> WaitersOk i -> WaitersOk (register_waiter wt i).
Proof.
  intros Hr [Hl Hnd _]. split; cbn.
  - rewrite length_app. cbn. apply Forall_app. split; [|repeat constructor; lia].
    eapply Forall_impl; [done|]. intros; cbn in *; lia.
  - apply NoDup_app. split; [done|]. split; [|repeat constructor; by apply not_elem_of_nil].
    intros k Hk Hin. apply list_elem_of_singleton in Hin as ->.
    rewrite list.Forall_forall in Hl. specialize (Hl _ Hk). cbn in Hl. lia.
  - congruence.
Qed.

Lemma unregister_ok k i : WaitersOk i -> WaitersOk (unregister_waiter k i).
Proof.
  intros [Hl Hnd Hr]. split; cbn.
  - rewrite length_alter. rewrite list.Forall_forall in *. intros j [_ Hj]%list_elem_of_filter. auto.
  - by apply NoDup_filter.
  - intros H. by rewrite Hr.
Qed.

(** The waiting part of [SendAndWaitErased]: the world in which [completed] is
    read, with the new waiter at index [length (m_heap (w_impl w))]. *)
Definition registered_world checker content writer w : World S :=
  with_impl (register_waiter (mkWaiter checker content writer false false)
               (w_impl (next_wait w).2)) (next_wait w).2.

Lemma SendAndWaitErased_eq message checker content writer w :
  m_rejecting_waiters (w_impl w) = false ->
  SendAndWaitErased message checker content writer w =
    let s := (next_wait w).1 in
    let k := length (m_heap (w_impl w)) in
    let w1 := RunEnv (before_send s) (registered_world checker content writer w) in
    match SendMessageLocked message w1 with
    | (Ok _, w2) =>
        let w3 := RunEnv (during_wait s) w2 in
        (Ok match m_heap (w_impl w3) !! k with
            | Some x => (w_completed x, w_content x)
            | None => (false, content)
            end, with_impl (unregister_waiter k (w_impl w3)) w3)
    | (Throw e, w2) => (Throw e, with_impl (unregister_waiter k (w_impl w2)) w2)
    | (Undefined, w2) => (Undefined, w2)
    end.
Proof.
  intros Hr. unfold SendAndWaitErased, registered_world. rewrite Hr.
  destruct (next_wait_impl w) as (Hi & _). destruct (next_wait w) as [s w']. cbn in *.
  by rewrite Hi.
Qed.

Lemma registered_world_ok checker content writer w :
  m_rejecting_waiters (w_impl w) = false -> WaitersOk (w_impl w) ->
  let w0 := registered_world checker content writer w in
  let k := length (m_heap (w_impl w)) in
  WaitersOk (w_impl w0) /\ k ∈ m_waiters (w_impl w0) /\
  m_heap (w_impl w0) !! k = Some (mkWaiter checker content writer false false) /\
  m_idx (w_impl w0) = m_idx (w_impl w) /\
  m_active_waiter_operations (w_impl w0) = m_active_waiter_operations (w_impl w) + 1 /\
  w_faults w0 = w_faults w /\ w_sent w0 = w_sent w /\
  m_frame_flags (w_impl w0) = m_frame_flags (w_impl w).
Proof.
  intros Hr Hok. destruct (next_wait_impl w) as (Hi & Hf & Hs & _).
  unfold registered_world. cbn. rewrite Hi. split; [by apply register_ok|].
  repeat split; try done.
  - apply elem_of_app. right. by apply list_elem_of_singleton.
  - by rewrite list_lookup_middle.
Qed.

Lemma RunEnv_app l1 l2 w : RunEnv (l1 ++ l2) w = RunEnv l2 (RunEnv l1 w).
Proof. unfold RunEnv. apply fold_left_app. Qed.

(** Exactly one frame goes out, with the motor's own flags. *)
Lemma SendAndWaitErased_sent message checker content writer w :
  m_rejecting_waiters (w_impl w) = false -> hd false (w_faults w) = false ->
  w_sent (SendAndWaitErased message checker content writer w).2 = w_sent w ++
    [mkPack (id message) (SanitizeCanFrameFlags (m_frame_flags (w_impl w))) (len message)
       (data message)] /\
  exists r, (SendAndWaitErased message checker content writer w).1 = Ok r.
Proof.
  intros Hr Hf. rewrite SendAndWaitErased_eq by done. cbn zeta.
  set (s := (next_wait w).1). set (w0 := registered_world checker content writer w).
  destruct (next_wait_impl w) as (Hi & Hwf & Hws & _).
  destruct (RunEnv_sent (before_send s) w0) as (Hs1 & Hf1 & _ & Hfl1 & _).
  destruct (SendMessageLocked_ok message (RunEnv (before_send s) w0)) as [Hok1 Hs2].
  { rewrite Hf1. unfold w0, registered_world. cbn. by rewrite Hwf. }
  destruct (SendMessageLocked message (RunEnv (before_send s) w0)) as [res w2].
  cbn in Hok1, Hs2. subst res.
  destruct (RunEnv_sent (during_wait s) w2) as (Hs3 & _).
  cbn [snd fst]. split; [|by eexists].
  unfold with_impl at 1. cbn [w_sent]. rewrite Hs3, Hs2, Hs1, Hfl1.
  unfold w0, registered_world. cbn. by rewrite Hws, Hi.
Qed.

Lemma filter_fresh (ws : list nat) k :
  Forall (fun j => (j < k)%nat) ws -> filter (fun j => j <> k) (ws ++ [k]) = ws.
Proof.
  induction 1 as [|j ws Hj _ IH]; cbn.
  - by rewrite decide_False by auto.
  - rewrite decide_True by lia. by f_equal.
Qed.

(** Unregistering at the end of the wait, from the world [w1] the environment
    left, undoes the registration made in [w]. *)
Lemma unregister_restores k w w1 :
  WaitersOk (w_impl w) -> k = length (m_heap (w_impl w)) ->
  WaitersOk (w_impl w1) ->
  m_active_waiter_operations (w_impl w1) = m_active_waiter_operations (w_impl w) + 1 ->
  m_waiters (w_impl w1) = m_waiters (w_impl w) ++ [k] \/ m_waiters (w_impl w1) = [] ->
  let i := unregister_waiter k (w_impl w1) in
  WaitersOk i /\ m_active_waiter_operations i = m_active_waiter_operations (w_impl w) /\
  (m_waiters i = m_waiters (w_impl w) \/ m_waiters i = []).
Proof.
  intros Hok -> Hok1 Ha Hw. split; [by apply unregister_ok|]. split; [cbn; lia|]. cbn.
  destruct Hw as [-> | ->]; [left; apply filter_fresh, wo_live, Hok | by right].
Qed.

End SendAndWaitLemmas.
Arguments RunEnv {S} l w : simpl never.

(** A motor that can send: registered, on a bus, not shutting down, with a
    working writer. *)
Record Ready {S} (w : World S) : Prop := {
  ready_registered : w_registered w = true;
  ready_bus : m_bus (w_impl w) = true;
  ready_waiters : m_rejecting_waiters (w_impl w) = false;
  ready_writer : hd false (w_faults w) = false
}.

(** The frame the writer gets for [msg]. *)
Definition on_wire {S} (w : World S) (msg : MotorPackMsg) : MotorPackMsg :=
  mkPack (id msg) (SanitizeCanFrameFlags (m_frame_flags (w_impl w))) (len msg) (data msg).

Lemma SendAndWait_sent {S} (w : World S) msg checker :
  Ready w ->
  w_sent (SendAndWait msg checker w).2 = w_sent w ++ [on_wire w msg] /\
  exists r, (SendAndWait msg checker w).1 = Ok r.
Proof.
  intros [_ _ Hr Hf]. unfold SendAndWait, mbind.
  match goal with |- context [SendAndWaitErased ?a ?b ?c ?d w] =>
    destruct (SendAndWaitErased_sent a b c d w Hr Hf) as [Hs [r Hok]];
    destruct (SendAndWaitErased a b c d w) as [res w'] end.
  cbn in Hs, Hok. subst res. destruct r as [b ct]. split; [done|by eexists].
Qed.

Lemma RunEnv_bus {S} l (w : World S) :
  m_bus (w_impl (RunEnv l w)) = m_bus (w_impl w).
Proof.
  revert w. induction l as [|a l IH]; intros w; [done|]. cbn.
  change (RunEnv (a :: l) w) with (RunEnv l (RunEnvAction a w)). rewrite IH.
  destruct a; cbn; try done.
  - unfold OnMessage, HandleStatus.
    destruct (negb _); cbn; [destruct (RecordStatus _ _ _)|]; done.
  - unfold CancelWaitersWithoutDrain. by destruct (m_rejecting_waiters _).
Qed.

Lemma RunEnv_rejecting {S} l (w : World S) :
  CancelAll ∉ l -> m_rejecting_waiters (w_impl (RunEnv l w)) = m_rejecting_waiters (w_impl w).
Proof.
  revert w. induction l as [|a l IH]; intros w Hl; [done|].
  apply not_elem_of_cons in Hl as [Ha Hl].
  change (RunEnv (a :: l) w) with (RunEnv l (RunEnvAction a w)). rewrite IH by done.
  destruct (RunEnvAction_waiters a w) as (_ & -> & _). by destruct a.
Qed.

(** The motor after an exchange nobody cancelled can make the next one. *)
Lemma SendAndWaitErased_next {S} (w : World S) message checker content writer :
  WaitersOk (w_impl w) -> m_rejecting_waiters (w_impl w) = false ->
  CancelAll ∉ before_send (next_wait w).1 -> CancelAll ∉ during_wait (next_wait w).1 ->
  let w' := snd (SendAndWaitErased message checker content writer w) in
  WaitersOk (w_impl w') /\ m_rejecting_waiters (w_impl w') = false /\
  m_idx (w_impl w') = m_idx (w_impl w) /\ m_ranges (w_impl w') = m_ranges (w_impl w) /\
  m_frame_flags (w_impl w') = m_frame_flags (w_impl w) /\
  w_faults w' = tail (w_faults w) /\ w_waits w' = tail (w_waits w).
Proof.
  intros Hok Hr Hb Hd w'. subst w'. rewrite SendAndWaitErased_eq by done. cbn zeta.
  match goal with |- context [registered_world ?a ?b ?c w] =>
    destruct (registered_world_ok a b c w Hr Hok) as (Hok0 & _ & _ & Hidx & _ & Hf0 & _ & Hfl);
    set (w0 := registered_world a b c w) in * end.
  set (s := (next_wait w).1) in *. set (k := length _).
  assert (m_ranges (w_impl w0) = m_ranges (w_impl w) /\
          m_rejecting_waiters (w_impl w0) = false /\ w_waits w0 = tail (w_waits w)) as (Hrg & Hr0 & Hw0).
  { subst w0. unfold registered_world. cbn. destruct (next_wait_impl w) as (-> & _).
    split_and!; try done. unfold next_wait. by destruct (w_waits w) eqn:E; cbn; rewrite ?E. }
  destruct (RunEnv_sent (before_send s) w0) as (_ & Hf1 & Hw1 & Hfl1 & Hi1 & Hrg1).
  pose proof (RunEnv_rejecting (before_send s) w0 Hb) as Hr1.
  pose proof (RunEnv_ok (before_send s) w0 Hok0) as Hok1.
  set (w1 := RunEnv (before_send s) w0) in *. clearbody w1 w0.
  unfold SendMessageLocked. destruct (match w_faults w1 with [] => false | b :: _ => b end); cbn.
  - split; [by apply unregister_ok|]. split_and!; congruence.
  - match goal with |- context [RunEnv (during_wait s) ?x] => set (w2 := x) end.
    destruct (RunEnv_sent (during_wait s) w2) as (_ & Hf2 & Hw2 & Hfl2 & Hi2 & Hrg2).
    pose proof (RunEnv_rejecting (during_wait s) w2 Hd) as Hr2.
    pose proof (RunEnv_ok (during_wait s) w2 Hok1) as Hok2.
    subst w2. cbn in Hf2, Hw2, Hfl2, Hi2, Hrg2, Hr2.
    match goal with |- context [RunEnv (during_wait s) ?x] => set (w3 := RunEnv (during_wait s) x) in * end.
    split; [by apply unregister_ok|]. split_and!; congruence.
Qed.

Lemma SendAndWait_snd {S} (w : World S) message checker :
  snd (SendAndWait message checker w) =
  snd (SendAndWaitErased message (fun i p => Some (checker i p)) (ContentPack (mkPack 0 0 0 (replicate 8 0)))
         (fun received _ => ContentPack received) w).
Proof. unfold SendAndWait, mbind. by destruct (SendAndWaitErased _ _ _ _ w) as [[[b c]| |] w']. Qed.

Lemma SendAndWait_next {S} (w : World S) message checker :
  WaitersOk (w_impl w) -> m_rejecting_waiters (w_impl w) = false ->
  CancelAll ∉ before_send (next_wait w).1 -> CancelAll ∉ during_wait (next_wait w).1 ->
  let w' := snd (SendAndWait message checker w) in
  WaitersOk (w_impl w') /\ m_rejecting_waiters (w_impl w') = false /\
  m_idx (w_impl w') = m_idx (w_impl w) /\ m_ranges (w_impl w') = m_ranges (w_impl w) /\
  m_frame_flags (w_impl w') = m_frame_flags (w_impl w) /\
  w_faults w' = tail (w_faults w) /\ w_waits w' = tail (w_waits w).
Proof. intros Hok Hr Hb Hd. rewrite SendAndWait_snd. by apply SendAndWaitErased_next. Qed.


Lemma SendAndWait_ranges_idx {S} (w : World S) message checker :
  m_ranges (w_impl (snd (SendAndWait message checker w))) = m_ranges (w_impl w) /\
  m_idx (w_impl (snd (SendAndWait message checker w))) = m_idx (w_impl w).
Proof.
  unfold SendAndWait, mbind.
  assert (forall (ck : Z -> MotorPackMsg -> option bool) ct wr,
    m_ranges (w_impl (snd (SendAndWaitErased message ck ct wr w))) = m_ranges (w_impl w) /\
    m_idx (w_impl (snd (SendAndWaitErased message ck ct wr w))) = m_idx (w_impl w)) as H.
  - intros ck ct wr. destruct (m_rejecting_waiters (w_impl w)) eqn:Hr.
    { unfold SendAndWaitErased. by rewrite Hr. }
    rewrite SendAndWaitErased_eq by done. cbn zeta.
    set (w0 := registered_world ck ct wr w).
    assert (m_ranges (w_impl w0) = m_ranges (w_impl w) /\ m_idx (w_impl w0) = m_idx (w_impl w))
      as [H0 I0].
    { unfold w0, registered_world. cbn. by destruct (next_wait_impl w) as (-> & _). }
    destruct (RunEnv_sent (before_send (next_wait w).1) w0) as (_ & _ & _ & _ & I1 & H1).
    pose proof (SendMessageLocked_impl message (RunEnv (before_send (next_wait w).1) w0)) as [H2 _].
    destruct (SendMessageLocked message (RunEnv (before_send (next_wait w).1) w0)) as [[] w2];
      cbn in H2; cbn; try (split; congruence).
    destruct (RunEnv_sent (during_wait (next_wait w).1) w2) as (_ & _ & _ & _ & I3 & H3).
    split; congruence.
  - specialize (H (fun i p => Some (checker i p)) (ContentPack (mkPack 0 0 0 (replicate 8 0)))
                  (fun received _ => ContentPack received)).
    destruct (SendAndWaitErased _ _ _ _ w) as [[[b c]| |] w']; cbn in *; done.
Qed.

Lemma SendAndWait_ranges {S} (w : World S) message checker :
  m_ranges (w_impl (snd (SendAndWait message checker w))) = m_ranges (w_impl w).
Proof. apply SendAndWait_ranges_idx. Qed.
Lemma SendAndWait_idx {S} (w : World S) message checker :
  m_idx (w_impl (snd (SendAndWait message checker w))) = m_idx (w_impl w).
Proof. apply SendAndWait_ranges_idx. Qed.

(** The outcome of one acknowledged exchange. *)
Lemma SendAndWaitErased_run {S} (w : World S) message ck ct wr :
  WaitersOk (w_impl w) -> m_rejecting_waiters (w_impl w) = false ->
  hd false (w_faults w) = false ->
  let s := fst (next_wait w) in
  let r := SendAndWaitErased message ck ct wr w in
  let f := first_accepted ck (m_idx (w_impl w)) (before_send s ++ during_wait s) in
  (exists c, fst r = Ok (bool_decide (is_Some f), c) /\ forall p, f = Some p -> c = wr p ct) /\
  w_sent (snd r) = w_sent w ++
    [mkPack (id message) (SanitizeCanFrameFlags (m_frame_flags (w_impl w))) (len message)
       (data message)].
Proof.
  intros Hok Hr Hf. cbv zeta.
  rewrite SendAndWaitErased_eq by done. cbn zeta.
  set (s := (next_wait w).1). set (k := length _).
  destruct (registered_world_ok ck ct wr w Hr Hok) as (Hok0 & Hin & Hk & Hidx & _ & Hf0 & Hs0 & Hfl).
  set (w0 := registered_world ck ct wr w) in *.
  destruct (RunEnv_sent (before_send s) w0) as (Hs1 & Hf1 & _ & Hfl1 & Hi1 & _).
  destruct (SendMessageLocked_ok message (RunEnv (before_send s) w0)) as [Hok1 Hs2]; [congruence|].
  destruct (SendMessageLocked_impl message (RunEnv (before_send s) w0)) as [Him Hle].
  destruct (SendMessageLocked message (RunEnv (before_send s) w0)) as [res w2]. cbn in Hok1, Hs2, Him, Hle.
  subst res. cbn.
  destruct (RunEnv_ext (during_wait s) w2 (RunEnv (before_send s) w0) Him Hle) as [He _].
  rewrite <- RunEnv_app in He.
  destruct (RunEnv_first_accepted (before_send s ++ during_wait s) w0 k _ Hok0 Hk Hin eq_refl eq_refl)
    as (x & Hx & Hres).
  cbn in Hres. rewrite He, Hx, <- Hidx. split.
  - exists (w_content x). destruct (first_accepted _ _ _) as [p|].
    + destruct Hres as [-> ->]. split; [done|]. by intros ? [= ->].
    + by rewrite Hres.
  - cbn. destruct (RunEnv_sent (during_wait s) w2) as (-> & _).
    by rewrite Hs2, Hs1, Hs0, Hfl1, Hfl.
Qed.

Lemma SendAndWait_run {S} (w : World S) message checker :
  WaitersOk (w_impl w) -> m_rejecting_waiters (w_impl w) = false ->
  hd false (w_faults w) = false ->
  let s := fst (next_wait w) in
  let r := SendAndWait message checker w in
  fst r = Ok (first_accepted (fun i p => Some (checker i p)) (m_idx (w_impl w))
                (before_send s ++ during_wait s)) /\
  w_sent (snd r) = w_sent w ++
    [mkPack (id message) (SanitizeCanFrameFlags (m_frame_flags (w_impl w))) (len message)
       (data message)].
Proof.
  intros Hok Hr Hf. cbv zeta.
  destruct (SendAndWaitErased_run w message (fun i p => Some (checker i p))
    (ContentPack (mkPack 0 0 0 (replicate 8 0))) (fun received _ => ContentPack received) Hok Hr Hf)
    as [(c & Hres & Hc) Hsent].
  rewrite SendAndWait_snd. split; [|exact Hsent]. unfold SendAndWait, mbind.
  destruct (SendAndWaitErased _ _ _ _ w) as [r w']. cbn [fst snd] in *. subst r. cbn.
  destruct (first_accepted _ _ _) as [p|]; [|done]. by rewrite (Hc p eq_refl).
Qed.

(** ** Theorems *)

(** C1: [SendAndWait] answers exactly the first frame, among those the receive
    thread delivers between the registration of the waiter and the end of the
    wait, that the checker accepts before the waiters are cancelled, and
    [std::nullopt] when there is none; it hands exactly one frame to the writer,
    with the sanitised frame flags of the motor. *)
Theorem SendAndWait_spec {S} (w : World S) message checker :
  WaitersOk (w_impl w) -> m_rejecting_waiters (w_impl w) = false ->
  hd false (w_faults w) = false ->
  let s := fst (next_wait w) in
  let r := SendAndWait message checker w in
  fst r = Ok (first_accepted (fun i p => Some (checker i p)) (m_idx (w_impl w))
                (before_send s ++ during_wait s)) /\
  w_sent (snd r) = w_sent w ++
    [mkPack (id message) (SanitizeCanFrameFlags (m_frame_flags (w_impl w))) (len message)
       (data message)].
Proof. apply SendAndWait_run. Qed.

(** A motor on a bus whose waits are answered by the given scripts. *)
Definition example_ranges : MotorProperties :=
  mkProps (mkRange F32.zero (F32.of_Z 500)) (mkRange F32.zero (F32.of_Z 5))
    (mkRange (f32_lit (-25) 2) (f32_lit 25 2)) (mkRange (F32.of_Z (-18)) (F32.of_Z 18))
    (mkRange (F32.of_Z (-30)) (F32.of_Z 30)) (mkRange (F32.of_Z (-30)) (F32.of_Z 30))
    F32.zero false 0.
Definition example_world {S} (s : S) (faults : list bool) (waits : list WaitScript) : World S :=
  mkWorld (new_motor 1 6 true example_ranges) [] [] faults waits (mkLogEnv [] [] 0) true s.

Lemma example_ready {S} (s : S) waits : Ready (example_world s [] waits).
Proof. by split. Defined.

Lemma example_waiters_ok {S} (s : S) faults waits :
  WaitersOk (w_impl (example_world s faults waits)).
Proof. split; [constructor|constructor|done]. Defined.

Definition example_frame : MotorPackMsg := make_pack 1 8 [32; 128; 0; 128; 8; 0; 90; 92].
Definition other_frame : MotorPackMsg := make_pack 2 8 [32; 128; 0; 128; 8; 0; 90; 92].

(** Two foreign actions, the answer, then a cancellation that comes too late. *)
Lemma SendAndWait_spec_witness :
  fst (SendAndWait (make_pack 1 2 [224; 1]) (fun i p => id p =? i)
         (example_world tt [] [mkScript [Rx other_frame] [ReadStatus 1; Rx example_frame; CancelAll]]))
  = Ok (Some example_frame).
Proof.
  pose proof (SendAndWait_spec
    (example_world tt [] [mkScript [Rx other_frame] [ReadStatus 1; Rx example_frame; CancelAll]])
    (make_pack 1 2 [224; 1]) (fun i p => id p =? i) (example_waiters_ok _ _ _) eq_refl eq_refl)
    as [H _].
  exact H.
Defined.

(** [SendAndWaitErased] leaves the waiter table as it found it, whatever
    happens during the wait: the operation counter is back to its value, no
    waiter of its own stays registered, the table invariant holds; a rejecting
    motor is refused without sending, a throwing writer propagates with nothing
    recorded as sent, and no path is undefined. *)
Lemma SendAndWait_bookkeeping {S} (w : World S) message checker content writer :
  WaitersOk (w_impl w) ->
  let r := SendAndWaitErased message checker content writer w in
  WaitersOk (w_impl (snd r)) /\
  m_active_waiter_operations (w_impl (snd r)) = m_active_waiter_operations (w_impl w) /\
  (m_waiters (w_impl (snd r)) = m_waiters (w_impl w) \/ m_waiters (w_impl (snd r)) = []) /\
  (if m_rejecting_waiters (w_impl w) then r = (Ok (false, content), w)
   else if hd false (w_faults w) then fst r = Throw WriterFault /\ w_sent (snd r) = w_sent w
   else exists b c, fst r = Ok (b, c)).
Proof.
  intros Hok r. subst r.
  destruct (m_rejecting_waiters (w_impl w)) eqn:Hr.
  { unfold SendAndWaitErased. rewrite Hr. by auto. }
  rewrite SendAndWaitErased_eq by done. cbn zeta.
  set (s := (next_wait w).1). set (k := length _).
  destruct (registered_world_ok checker content writer w Hr Hok)
    as (Hok0 & _ & _ & _ & Hac0 & Hf0 & Hs0 & _).
  assert (m_waiters (w_impl (registered_world checker content writer w))
          = m_waiters (w_impl w) ++ [k]) as Hw0.
  { unfold registered_world. cbn. destruct (next_wait_impl w) as (-> & _). done. }
  set (w0 := registered_world checker content writer w) in *.
  destruct (RunEnv_sent (before_send s) w0) as (Hs1 & Hf1 & _).
  destruct (RunEnv_waiters (before_send s) w0) as (Ha1 & _ & Hw1).
  pose proof (RunEnv_ok (before_send s) w0 Hok0) as Hok1.
  set (w1 := RunEnv (before_send s) w0) in *.
  assert (hd false (w_faults w) = hd false (w_faults w1)) as -> by congruence.
  rewrite Hw0 in Hw1. rewrite <- Hs0, <- Hs1. rewrite Hac0 in Ha1.
  unfold SendMessageLocked.
  assert (hd false (w_faults w1) = match w_faults w1 with [] => false | b :: _ => b end) as ->
    by by destruct (w_faults w1).
  destruct (match w_faults w1 with [] => false | b :: _ => b end).
  - edestruct (unregister_restores k w w1) as (? & ? & ?); [done..|]. by cbn.
  - cbn. match goal with |- context [RunEnv (during_wait s) ?x] => set (w2 := x) end.
    destruct (RunEnv_waiters (during_wait s) w2) as (Ha2 & _ & Hw2).
    pose proof (RunEnv_ok (during_wait s) w2 Hok1) as Hok2.
    edestruct (unregister_restores k w (RunEnv (during_wait s) w2)) as (? & ? & ?);
      [done..|by etrans; [exact Ha2|]|by destruct Hw2 as [-> | ->]; auto|].
    split_and!; try done. by destruct (_ !! _); eexists _, _.
Qed.


Lemma SendAndWait_bookkeeping_witness :
  m_waiters (w_impl (snd (SendAndWaitErased (make_pack 1 2 [224; 1]) (fun i p => Some (id p =? i))
     (ContentBool false) (fun _ _ => ContentBool true) (example_world tt [true] [])))) = [].
Proof.
  destruct (SendAndWait_bookkeeping (example_world tt [true] []) (make_pack 1 2 [224; 1])
    (fun i p => Some (id p =? i)) (ContentBool false) (fun _ _ => ContentBool true)
    (example_waiters_ok _ _ _)) as (_ & _ & [H | H] & _); exact H.
Defined.

(** The receive path updates the status cache exactly on the frames that
    carry feedback (eight bytes and an acknowledge type from 1 to 3): the cached
    status is then the decoded feedback after filtering, its life cycle restarts
    at the configured maximum and the user callback, if any, is called once with
    it; any other frame leaves the cache alone and calls nobody. *)
Lemma OnMessage_status (m : MotorPackMsg) (i : Impl) (e : LogEnv) :
  pack_wf m ->
  let '(i', _, calls) := OnMessage m i e in
  if carries_feedback m then
    exists st, m_cache i' = snd (StoreStatus (AutoDecodeFeedback m (GetFeedbackRanges i)) (m_cache i)) /\
      status (m_cache i') = Some st /\
      status_life_cycle (m_cache i') = max_status_life_cycle (m_cache i) /\
      fb_error st = fb_error (AutoDecodeFeedback m (GetFeedbackRanges i)) /\
      calls = if m_user_on_status i then [st] else []
  else m_cache i' = m_cache i /\ calls = [].
Proof.
  intros Hwf. unfold OnMessage. rewrite AutoDecodeFeedback_responds by done.
  destruct (carries_feedback m); [|done].
  cbn. unfold HandleStatus. cbn. destruct (RecordStatus _ _ _). cbn.
  eexists. repeat split.
Qed.

Lemma OnMessage_status_witness :
  let '(i', _, calls) := OnMessage example_frame (new_motor 1 0 true example_ranges)
                           (mkLogEnv [] [] 0) in
  exists st, status (m_cache i') = Some st /\ status_life_cycle (m_cache i') = max_status_life_cycle initial_cache /\ calls = [].
Proof.
  assert (pack_wf example_frame) as Hwf.
  { unfold pack_wf, byte_ok. repeat split; try (cbn; lia). repeat constructor; cbn; lia. }
  pose proof (OnMessage_status example_frame (new_motor 1 0 true example_ranges)
                (mkLogEnv [] [] 0) Hwf) as H.
  change (carries_feedback example_frame) with true in H.
  destruct (OnMessage _ _ _) as [[i' e'] calls]. destruct H as (st & _ & H1 & H2 & _ & H3).
  exists st. split; [exact H1|]. split; [exact H2|exact H3].
Defined.
