(* ===== verification/MotorControl.v ===== *)
(** * MotorControl: src/device/motor/motor_control.cc

    The control commands of a motor.  [F] is the template argument
    [FeedbackType]: [None] for 0, [Some T] for 1, 2, 3. *)
From stdpp Require Import base list numbers option strings.
From Stdlib Require Import ZArith Lia.
From Stdlib Require Import SpecFloat.
From S2P Require Import Prelude CFloat Types MathUtils PackHelper StatusCache MotorLog Motor.
#[local] Open Scope Z_scope.
#[local] Open Scope cint_scope.
#[local] Open Scope motor_scope.

Definition ControlResult (F : option FeedbackType) : Type :=
  match F with None => unit | Some T => FeedbackStruct T end.
Definition ControlResult_default (F : option FeedbackType) : ControlResult F :=
  match F with None => tt | Some T => FeedbackStruct_default T end.
Definition ControlType_num (F : option FeedbackType) : Z :=
  match F with None => 0 | Some T => FeedbackType_num T end.

(** [pack.id == idx && DecodeFeedback<T>(pack, ranges).has_value()] *)
Definition FeedbackMatches (T : FeedbackType) (idx : Z) (ranges : MotorProperties)
    (pack : MotorPackMsg) : bool :=
  (id pack =? idx) && match DecodeFeedback T pack ranges with Some _ => true | None => false end.

(** The tail every control command ends with: wait for the feedback or just
    send, log the command, decode what came back. *)
Definition FinishControl {S} (F : option FeedbackType) (msg : MotorPackMsg) (type : string)
    (args : CommandArgs) : M S (ControlResult F) :=
  match F return M S (ControlResult F) with
  | None => SendMessageLocked msg ;; RecordCommandM type args ;; mret tt
  | Some T =>
      let! idx := mget m_idx in
      let! ranges := mget m_ranges in
      let! response := SendAndWait msg (fun _ pack => FeedbackMatches T idx ranges pack) in
      RecordCommandM type args ;;
      let! ranges' := mget m_ranges in
      mret (match response with
            | Some r => match DecodeFeedback T r ranges' with
                        | Some fb => fb
                        | None => FeedbackStruct_default T
                        end
            | None => FeedbackStruct_default T
            end)
  end.

(** [if (FeedbackType != feedback) throw std::invalid_argument(...)] *)
Definition CheckFeedbackArgument {S} (F : option FeedbackType) (feedback : Z) : M S unit :=
  match F with
  | None => mret tt
  | Some T => if negb (FeedbackType_num T =? feedback) then mthrow InvalidArgument else mret tt
  end.

(** ** PVTControl *)

Definition pvt_payload (kp_int kd_int pos_int spd_int tor_int : Z) : list Z :=
  [ u8 (kp_int ≫ 7);
    u8 (((kp_int .& 127) ≪ 1) .| ((kd_int .& 256) ≫ 8));
    u8 (kd_int .& 255);
    u8 (pos_int ≫ 8);
    u8 (pos_int .& 255);
    u8 (spd_int ≫ 4);
    u8 (((spd_int .& 15) ≪ 4) .| (tor_int ≫ 8));
    u8 (tor_int .& 255) ].

Definition FloatToUint16 (x x_min x_max : F32.t) (bits : Z) : option Z :=
  option_map u16 (FloatToUint x x_min x_max bits).

Definition clamp_range (x : F32.t) (r : Range F32.t) : F32.t := F32.clamp x (rmin r) (rmax r).

Definition PVTControl {S} (fb : bool) (a_kp a_kd pos spd tor : F32.t)
    : M S (ControlResult (if fb then Some Fb1 else None)) :=
  AcquireDeviceOperation ;;
  let! bus := mget m_bus in
  if negb bus then mret (ControlResult_default _)
  else
    let! idx := mget m_idx in
    let! ranges := mget m_ranges in
    let a_kp := clamp_range a_kp (kp ranges) in
    let a_kd := clamp_range a_kd (kd ranges) in
    let pos := clamp_range pos (position ranges) in
    let spd := clamp_range spd (speed ranges) in
    let tor := clamp_range tor (torque ranges) in
    let! kp_int := mcast (FloatToUint16 a_kp (rmin (kp ranges)) (rmax (kp ranges)) 12) in
    let! kd_int := mcast (FloatToUint16 a_kd (rmin (kd ranges)) (rmax (kd ranges)) 9) in
    let! pos_int := mcast (FloatToUint16 pos (rmin (position ranges)) (rmax (position ranges)) 16) in
    let! spd_int := mcast (FloatToUint16 spd (rmin (speed ranges)) (rmax (speed ranges)) 12) in
    let! tor_int := mcast (FloatToUint16 tor (rmin (torque ranges)) (rmax (torque ranges)) 12) in
    let F := if fb then Some Fb1 else None in
    FinishControl F
      (make_pack idx 8 (pvt_payload kp_int kd_int pos_int spd_int tor_int)) "PVTControl"
      (mkArgs (Some a_kp) (Some a_kd) (Some pos) (Some spd) None (Some tor) None None
         (Some (ControlType_num F))).

(** ** PosControl *)

Definition k3276_7 : F32.t := f32_lit 32767 10.   (* 3276.7f *)
Definition k409_5 : F32.t := f32_lit 4095 10.     (* 409.5f *)

Definition position_byte (position_bits shift : Z) : Z := u8 (position_bits ≫ shift).

Definition pos_payload (position_bits spd_int cur_int feedback : Z) : list Z :=
  let b24 := position_byte position_bits 24 in
  let b16 := position_byte position_bits 16 in
  let b8 := position_byte position_bits 8 in
  let b0 := position_byte position_bits 0 in
  [ u8 (32 .| (b24 ≫ 3));
    u8 ((b24 ≪ 5) .| (b16 ≫ 3));
    u8 ((b16 ≪ 5) .| (b8 ≫ 3));
    u8 ((b8 ≪ 5) .| (b0 ≫ 3));
    u8 ((b0 ≪ 5) .| (spd_int ≫ 10));
    u8 ((spd_int .& 1020) ≫ 2);
    u8 (((spd_int .& 3) ≪ 6) .| (cur_int ≫ 6));
    u8 (((cur_int .& 63) ≪ 2) .| feedback) ].

Definition PosControl {S} (F : option FeedbackType) (position speed current : F32.t)
    (feedback : Z) : M S (ControlResult F) :=
  AcquireDeviceOperation ;;
  CheckFeedbackArgument F feedback ;;
  let! bus := mget m_bus in
  if negb bus then mret (ControlResult_default F)
  else
    let! idx := mget m_idx in
    let speed := F32.div (F32.mul speed (F32.of_Z 30)) M_PIf in
    let logged_speed :=
      F32.div (F32.mul (F32.clamp speed F32.zero k3276_7) M_PIf) (F32.of_Z 30) in
    let logged_current := F32.clamp current F32.zero k409_5 in
    let position_bits := FloatBits (F32.div (F32.mul position (F32.of_Z 180)) M_PIf) in
    let! spd_int := mcast (FloatToUint16 speed F32.zero k3276_7 15) in
    let! cur_int := mcast (FloatToUint16 current F32.zero k409_5 12) in
    FinishControl F
      (make_pack idx 8 (pos_payload position_bits spd_int cur_int feedback)) "PosControl"
      (mkArgs None None (Some position) (Some logged_speed) (Some logged_current) None None None
         (Some feedback)).

(** ** SpdControl *)

Definition spd_payload (speed_bits cur feedback : Z) : list Z :=
  [ u8 (64 .| feedback);
    u8 (speed_bits ≫ 24); u8 (speed_bits ≫ 16); u8 (speed_bits ≫ 8); u8 speed_bits;
    u8 (cur ≫ 8); u8 (cur .& 255) ].

Definition SpdControl {S} (F : option FeedbackType) (speed current : F32.t) (feedback : Z)
    : M S (ControlResult F) :=
  AcquireDeviceOperation ;;
  CheckFeedbackArgument F feedback ;;
  let! bus := mget m_bus in
  if negb bus then mret (ControlResult_default F)
  else
    let! idx := mget m_idx in
    let speed_bits := FloatBits (F32.mul speed kRadiansPerSecondToRpm) in
    let! cur := mcast (cast_u16 (F32.mul current (F32.of_Z 10))) in
    FinishControl F (make_pack idx 7 (spd_payload speed_bits cur feedback)) "SpdControl"
      (mkArgs None None None (Some speed) (Some current) None None None (Some feedback)).

(** ** CurControl, TorControl, Stop *)

(** The three-byte frames of control class 3; [>>] on a negative [int16_t]
    propagates the sign. *)
Definition class3_payload (ctrl_mode value feedback : Z) : list Z :=
  [ u8 ((96 .| (ctrl_mode ≪ 2)) .| feedback); u8 (value ≫ 8); u8 (value .& 255) ].

Definition CurControl {S} (F : option FeedbackType) (current : F32.t) (feedback : Z)
    : M S (ControlResult F) :=
  AcquireDeviceOperation ;;
  CheckFeedbackArgument F feedback ;;
  let! bus := mget m_bus in
  if negb bus then mret (ControlResult_default F)
  else
    let! cur := mcast (cast_i16 (F32.mul current (F32.of_Z 100))) in
    let! idx := mget m_idx in
    FinishControl F (make_pack idx 3 (class3_payload 0 cur feedback)) "CurControl"
      (mkArgs None None None None (Some current) None None None (Some feedback)).

Definition TorControl {S} (F : option FeedbackType) (torque : F32.t) (feedback : Z)
    : M S (ControlResult F) :=
  AcquireDeviceOperation ;;
  CheckFeedbackArgument F feedback ;;
  let! bus := mget m_bus in
  if negb bus then mret (ControlResult_default F)
  else
    let! tor := mcast (cast_i16 (F32.mul torque (F32.of_Z 100))) in
    let! idx := mget m_idx in
    FinishControl F (make_pack idx 3 (class3_payload 1 tor feedback)) "TorControl"
      (mkArgs None None None None None (Some torque) None None (Some feedback)).

Definition StopCtrlMode (fw_version : Z) (mode : MotorStopMode) : Z :=
  if fw_version =? 0 then MotorStopMode_code mode else 2.

(** [Stop] has no check of [feedback] against the template argument. *)
Definition Stop {S} (F : option FeedbackType) (mode : MotorStopMode) (current : F32.t)
    (feedback : Z) : M S (ControlResult F) :=
  AcquireDeviceOperation ;;
  let! bus := mget m_bus in
  if negb bus then mret (ControlResult_default F)
  else
    let! cur := mcast (cast_i16 (F32.mul current (F32.of_Z 100))) in
    let! ranges := mget m_ranges in
    let! idx := mget m_idx in
    FinishControl F
      (make_pack idx 3 (class3_payload (StopCtrlMode (fw_version ranges) mode) cur feedback)) "Stop"
      (mkArgs None None None None (Some current) None (Some mode) None (Some feedback)).

(** ** Brake *)

Definition brake_code (enabled : bool) : Z := if enabled then 0 else 1.

Definition BrakeAckMatches (enabled : bool) (pack : MotorPackMsg) : bool :=
  (len pack =? 2) && ((byte_at (data pack) 0 =? 192) || (byte_at (data pack) 0 =? 160)) &&
  (byte_at (data pack) 1 =? brake_code enabled).

Definition Brake {S} (enabled wait_for_ack : bool) : M S bool :=
  AcquireDeviceOperation ;;
  let! bus := mget m_bus in
  if negb bus then mthrow BusNotInitialized
  else
    let! ranges := mget m_ranges in
    if negb (fw_version ranges =? 0) then mret false
    else
      let! idx := mget m_idx in
      let msg := make_pack idx 3 [ u8 (((3 ≪ 5) .| (5 ≪ 2)) .| 1); 0; brake_code enabled ] in
      RecordCommandM "Brake" (mkArgs None None None None None None None (Some enabled) None) ;;
      if negb wait_for_ack then SendMessageLocked msg ;; mret true
      else
        let! ack := SendAndWait msg (fun _ pack => BrakeAckMatches enabled pack) in
        mret (match ack with Some _ => true | None => false end).

(** ** Lemmas: what a ready motor sends *)

Lemma FinishControl_sent {S} F msg type args (w : World S) :
  Ready w ->
  w_sent (FinishControl F msg type args w).2 = w_sent w ++ [on_wire w msg] /\
  exists r, (FinishControl F msg type args w).1 = Ok r.
Proof.
  intros Hrdy. destruct F as [T|]; cbn [FinishControl]; unfold mbind, mget, mret.
  - match goal with |- context [SendAndWait ?m ?c w] =>
      destruct (SendAndWait_sent w m c Hrdy) as [Hs [r Hok]];
      destruct (SendAndWait m c w) as [res w'] end.
    cbn in Hs, Hok. subst res. unfold RecordCommandM.
    destruct (RecordCommand _ _ _ _) as [l e]. cbn. split; [done|by eexists].
  - destruct (SendMessageLocked_ok msg w (ready_writer _ Hrdy)) as [Hok Hs].
    destruct (SendMessageLocked msg w) as [res w']. cbn in Hok, Hs. subst res.
    unfold RecordCommandM. destruct (RecordCommand _ _ _ _) as [l e]. cbn.
    split; [done|by eexists].
Qed.

(** The feedback argument the command accepts. *)
Definition feedback_ok (F : option FeedbackType) (feedback : Z) : bool :=
  match F with
  | None => (0 <=? feedback) && (feedback <? 4)
  | Some T => feedback =? FeedbackType_num T
  end.

Lemma feedback_ok_range F feedback : feedback_ok F feedback = true -> 0 <= feedback < 4.
Proof. destruct F as [[]|]; cbn; lia. Qed.

Lemma CheckFeedbackArgument_ok {S} F feedback (w : World S) :
  feedback_ok F feedback = true -> CheckFeedbackArgument F feedback w = (Ok tt, w).
Proof.
  destruct F as [T|]; [|done]. cbn. intros ->%Z.eqb_eq. by rewrite Z.eqb_refl.
Qed.

(** Runs the guards of a control command on a ready motor. *)
Ltac run_control Hrdy Hfb :=
  unfold mbind at 1; unfold AcquireDeviceOperation at 1; rewrite (ready_registered _ Hrdy);
  try (unfold mbind at 1; rewrite (CheckFeedbackArgument_ok _ _ _ Hfb));
  unfold mbind at 1, mget at 1; rewrite (ready_bus _ Hrdy); cbn [negb].
