(* ===== verification/MotorParameter.v ===== *)
(** * MotorParameter: src/device/motor/motor_parameter.cc

    Parameter queries and writes, identifier migration and zeroing. *)
From stdpp Require Import base list numbers option strings.
From Stdlib Require Import ZArith Lia.
From Stdlib Require Import SpecFloat.
From S2P Require Import Prelude CFloat Types MathUtils PackHelper StatusCache MotorLog Motor.
#[local] Open Scope Z_scope.
#[local] Open Scope cint_scope.
#[local] Open Scope motor_scope.

Definition LoopGainScaleFor (fw_version : Z) : F32.t :=
  if fw_version =? 0 then F32.of_Z 100000 else F32.of_Z 500.

Definition ParameterPayloadSize (p : MotorParameter.t) : Z :=
  match MotorParameterRawType p with
  | RawFloat | RawInt | RawU32 => 4
  | RawU8 => 1
  | RawU16 => 2
  | RawRangeU16 | RawRangeI16 | RawKpKi | RawKpKd => 4
  | RawEncoderAngle => 5
  end.

Definition k0_01 : F32.t := f32_lit 1 100.        (* 0.01f *)

Definition DecodeRaw (k : RawKind) (d : list Z) : raw_type k :=
  match k return raw_type k with
  | RawFloat => read_float_be d 2
  | RawU8 => byte_at d 2
  | RawU16 => read_u16_be d 2
  | RawU32 => read_u32_be d 2
  | RawInt => read_i32_be d 2
  | RawRangeU16 => mkRange (read_u16_be d 2) (read_u16_be d 4)
  | RawRangeI16 => mkRange (read_i16_be d 2) (read_i16_be d 4)
  | RawEncoderAngle =>
      mkAngle (byte_at d 2) (F32.mul (F32.of_Z (read_i16_be d 3)) k0_01)
        (F32.mul (F32.of_Z (read_i16_be d 5)) k0_01)
  | RawKpKi => mkKpKi (read_u16_be d 2) (read_u16_be d 4)
  | RawKpKd => mkKpKd (read_u16_be d 2) (read_u16_be d 4)
  end.
Definition DecodeParameterRaw (p : MotorParameter.t) (pack : MotorPackMsg)
    : raw_type (MotorParameterRawType p) := DecodeRaw (MotorParameterRawType p) (data pack).

Definition scale_range (r : Range Z) (den : Z) : Range F32.t :=
  mkRange (F32.div (F32.of_Z (rmin r)) (F32.of_Z den)) (F32.div (F32.of_Z (rmax r)) (F32.of_Z den)).

(** The conversion of the raw value to the returned one. *)
Definition ConvertParameter (p : MotorParameter.t) (fw : Z)
    : raw_type (MotorParameterRawType p) -> MotorParameterRetType p :=
  match p return raw_type (MotorParameterRawType p) -> MotorParameterRetType p with
  | MotorParameter.Position => fun res => F32.mul (F32.div res (F32.of_Z 180)) M_PIf
  | MotorParameter.Speed => fun res => F32.mul (F32.div res (F32.of_Z 30)) M_PIf
  | MotorParameter.Current => fun res => res
  | MotorParameter.Power => fun res => res
  | MotorParameter.Kt => fun res => F32.div (F32.of_Z res) (F32.of_Z 100)
  | MotorParameter.PVTKpRange => fun res => res
  | MotorParameter.PVTKdRange => fun res => res
  | MotorParameter.PVTPosRange => fun res => scale_range res 100
  | MotorParameter.PVTSpdRange => fun res => scale_range res 100
  | MotorParameter.PVTTorRange => fun res => scale_range res 10
  | MotorParameter.PVTCurRange => fun res => scale_range res 10
  | MotorParameter.UUID => fun res => res
  | MotorParameter.CanTimeout => fun res => res
  | MotorParameter.CurKpKi => fun res =>
      mkKpKi (F32.div (F32.of_Z (pi_kp res)) (F32.of_Z 10000))
             (F32.div (F32.of_Z (pi_ki res)) (F32.of_Z 10))
  | MotorParameter.SpdKpKi => fun res =>
      mkKpKi (F32.div (F32.of_Z (pi_kp res)) (LoopGainScaleFor fw))
             (F32.div (F32.of_Z (pi_ki res)) (LoopGainScaleFor fw))
  | MotorParameter.PosKpKd => fun res =>
      mkKpKd (F32.div (F32.of_Z (pd_kp res)) (LoopGainScaleFor fw))
             (F32.div (F32.of_Z (pd_kd res)) (LoopGainScaleFor fw))
  | MotorParameter.BrakeStatus => fun res => u16 res
  | MotorParameter.EncoderAngle => fun res => res
  | MotorParameter.ProductId => fun res => res
  | MotorParameter.HardwareVersion => fun res => res
  | MotorParameter.FirmwareVersion => fun res => res
  end.

(** ** GetParameter *)

Definition ParameterQuery (idx : Z) (p : MotorParameter.t) : MotorPackMsg :=
  make_pack idx 2 [ u8 (7 ≪ 5); u8 (MotorParameter.code p) ].

Definition ParameterReplyMatches (p : MotorParameter.t) (pack : MotorPackMsg) : bool :=
  (byte_at (data pack) 0 =? u8 (5 ≪ 5)) &&
  (byte_at (data pack) 1 =? u8 (MotorParameter.code p)) &&
  packet_has_payload pack 2 (ParameterPayloadSize p).

Definition GetParameter {S} (p : MotorParameter.t) : M S (MotorParameterRetType p) :=
  AcquireDeviceOperation ;;
  let! bus := mget m_bus in
  if negb bus then mthrow BusNotInitialized
  else
    let! idx := mget m_idx in
    let msg := ParameterQuery idx p in
    let checker := fun (_ : Z) pack => ParameterReplyMatches p pack in
    let! first := SendAndWait msg checker in
    let! packet := match first with
                   | Some x => mret (Some x)
                   | None => SendAndWait msg checker
                   end in
    match packet with
    | None => mthrow ParameterTimeout
    | Some packet =>
        let! ranges := mget m_ranges in
        mret (ConvertParameter p (fw_version ranges) (DecodeParameterRaw p packet))
    end.

Definition range_of_Z (r : Range Z) : Range F32.t := mkRange (F32.of_Z (rmin r)) (F32.of_Z (rmax r)).

Definition InitMotorPVTParam {S} : M S unit :=
  AcquireDeviceOperation ;;
  let! kp_range := GetParameter MotorParameter.PVTKpRange in
  let! kd_range := GetParameter MotorParameter.PVTKdRange in
  let! pos_range := GetParameter MotorParameter.PVTPosRange in
  let! spd_range := GetParameter MotorParameter.PVTSpdRange in
  let! tor_range := GetParameter MotorParameter.PVTTorRange in
  let! cur_range := GetParameter MotorParameter.PVTCurRange in
  let! kt_value := GetParameter MotorParameter.Kt in
  mmodify (set_ranges (fun r =>
    mkProps (range_of_Z kp_range) (range_of_Z kd_range) pos_range spd_range tor_range cur_range
      kt_value (brake r) (fw_version r))).

Definition set_fw_version (version : Z) : MotorProperties -> MotorProperties := fun r =>
  mkProps (kp r) (kd r) (position r) (speed r) (torque r) (current r) (kt r) (brake r) version.

Definition QueryFirmwareVersion {S} : M S unit :=
  AcquireDeviceOperation ;;
  let! bus := mget m_bus in
  let! version :=
    (if bus then
       let! idx := mget m_idx in
       let! packet := SendAndWait (ParameterQuery idx MotorParameter.FirmwareVersion)
         (fun _ pack =>
            (byte_at (data pack) 0 =? u8 (5 ≪ 5)) &&
            (byte_at (data pack) 1 =? u8 (MotorParameter.code MotorParameter.FirmwareVersion)) &&
            packet_has_payload pack 2 4) in
       mret (match packet with Some p => read_u32_be (data p) 2 | None => 0 end)
     else mret 0) in
  mmodify (set_ranges (set_fw_version version)).

(** ** SetId: the manager's index registry is an interface *)

Class MotorIndexManager (S : Type) := {
  ReserveMotorIndex : Z -> S -> bool * S;
  ReleaseMotorIndexReservation : Z -> S -> S;
  (** On success the manager also stores the new index in the motor. *)
  MigrateMotorIndex : Z -> S -> bool * S
}.

Definition SetIdMessage (motor_idx new_idx : Z) : MotorPackMsg :=
  make_pack 2047 6 [ u8 (motor_idx ≫ 8); u8 (motor_idx .& 255); 0; 4;
                     u8 (new_idx ≫ 8); u8 (new_idx .& 255) ].

Definition SetIdAckMatches (new_idx : Z) (pack : MotorPackMsg) : bool :=
  (byte_at (data pack) 0 =? u8 (new_idx ≫ 8)) &&
  (byte_at (data pack) 1 =? u8 (new_idx .& 255)) && (byte_at (data pack) 3 =? 4).

Section SetId.
Context {S : Type} `{MotorIndexManager S}.

Definition mgr_call (f : S -> bool * S) : M S bool := fun w =>
  let (b, s) := f (w_mgr w) in (Ok b, with_mgr s w).

(** [utils::MakeScopeExit]: [release] runs however the scope is left. *)
Definition scope_exit {A} (release : S -> S) (m : M S A) : M S A := fun w =>
  let (r, w') := m w in (r, with_mgr (release (w_mgr w')) w').

Definition SetId (new_idx : Z) (wait_for_ack : bool) : M S bool :=
  AcquireDeviceOperation ;;
  let! bus := mget m_bus in
  if negb bus then mthrow BusNotInitialized
  else
    let! motor_idx := mget m_idx in
    let msg := SetIdMessage motor_idx new_idx in
    if negb wait_for_ack then SendMessageLocked msg ;; mret true
    else
      let! reserved := mgr_call (ReserveMotorIndex new_idx) in
      if negb reserved then mret false
      else
        scope_exit (ReleaseMotorIndexReservation new_idx)
          (let! res := SendAndWait msg (fun _ pack => SetIdAckMatches new_idx pack) in
           match res with
           | None => mret false
           | Some _ =>
               let! migrated := mgr_call (MigrateMotorIndex new_idx) in
               if negb migrated then mret false
               else mmodify (set_idx new_idx) ;; mret true
           end).
End SetId.

(** ** SetPos, ResetZeroPos *)

Definition ZeroAckMatches (idx : Z) (pack : MotorPackMsg) : bool :=
  (byte_at (data pack) 0 =? u8 (idx ≫ 8)) && (byte_at (data pack) 1 =? u8 (idx .& 255)) &&
  (byte_at (data pack) 3 =? 3).

Definition centidegrees_of (now_pos : F64.t) : F64.t :=
  F64.mul (F64.div (F64.mul now_pos (F64.of_Z 180)) M_PI) (F64.of_Z 100).

Definition SetPosMessage (motor_idx position : Z) : MotorPackMsg :=
  make_pack 2047 6 [ u8 (motor_idx ≫ 8); u8 (motor_idx .& 255); 0; 3;
                     u8 (position ≫ 8); u8 (position .& 255) ].

Definition SetPos {S} (now_pos : F64.t) : M S bool :=
  AcquireDeviceOperation ;;
  let! bus := mget m_bus in
  if negb bus then mthrow BusNotInitialized
  else
    let centidegrees := centidegrees_of now_pos in
    if F64.ltb centidegrees (F64.of_Z (-32768)) || F64.ltb (F64.of_Z 32767) centidegrees
    then mthrow OutOfRange
    else
      let! position := mcast (cast_i16 centidegrees) in
      let! motor_idx := mget m_idx in
      let! res := SendAndWait (SetPosMessage motor_idx position)
                    (fun idx pack => ZeroAckMatches idx pack) in
      mret (match res with Some _ => true | None => false end).

Definition ResetZeroPos {S} (wait_for_ack : bool) : M S bool :=
  AcquireDeviceOperation ;;
  let! bus := mget m_bus in
  if negb bus then mthrow BusNotInitialized
  else
    let! motor_idx := mget m_idx in
    let msg := make_pack 2047 4 [ u8 (motor_idx ≫ 8); u8 (motor_idx .& 255); 0; 3 ] in
    if negb wait_for_ack then SendMessageLocked msg ;; mret true
    else
      let! res := SendAndWait msg (fun idx pack => ZeroAckMatches idx pack) in
      mret (match res with Some _ => true | None => false end).

(** ** Parameter writes

    Every [Set...] function builds the same frame, [0x06 << 5], the parameter
    number and big-endian words, and either sends it or waits for the echo. *)

(** [{static_cast<uint8_t>(v >> 8), static_cast<uint8_t>(v & 0xFF)}] *)
Definition word_bytes (v : Z) : list Z := [ u8 (v ≫ 8); u8 (v .& 255) ].

Definition WriteMessage (idx length parameter_id : Z) (payload : list Z) : MotorPackMsg :=
  make_pack idx length (u8 (6 ≪ 5) :: parameter_id :: payload).

Definition SendWrite {S} (msg : MotorPackMsg) (parameter_id : Z) (payload : list Z)
    (wait_for_ack : bool) : M S bool :=
  if wait_for_ack then SendParameterAndWait msg parameter_id payload
  else SendMessageLocked msg ;; mret true.

Definition update_if {S} (success : bool) (f : MotorProperties -> MotorProperties) : M S bool :=
  if success then mmodify (set_ranges f) ;; mret true else mret false.

Definition set_kp (x : Range F32.t) : MotorProperties -> MotorProperties := fun r =>
  mkProps x (kd r) (position r) (speed r) (torque r) (current r) (kt r) (brake r) (fw_version r).
Definition set_kd (x : Range F32.t) : MotorProperties -> MotorProperties := fun r =>
  mkProps (kp r) x (position r) (speed r) (torque r) (current r) (kt r) (brake r) (fw_version r).
Definition set_position (x : Range F32.t) : MotorProperties -> MotorProperties := fun r =>
  mkProps (kp r) (kd r) x (speed r) (torque r) (current r) (kt r) (brake r) (fw_version r).
Definition set_speed (x : Range F32.t) : MotorProperties -> MotorProperties := fun r =>
  mkProps (kp r) (kd r) (position r) x (torque r) (current r) (kt r) (brake r) (fw_version r).
Definition set_torque (x : Range F32.t) : MotorProperties -> MotorProperties := fun r =>
  mkProps (kp r) (kd r) (position r) (speed r) x (current r) (kt r) (brake r) (fw_version r).
Definition set_current (x : Range F32.t) : MotorProperties -> MotorProperties := fun r =>
  mkProps (kp r) (kd r) (position r) (speed r) (torque r) x (kt r) (brake r) (fw_version r).

Definition SetPVTKpRange {S} (kp_range : Range Z) (wait_for_ack : bool) : M S bool :=
  AcquireDeviceOperation ;;
  let! bus := mget m_bus in
  if negb bus then mthrow BusNotInitialized
  else
    let! idx := mget m_idx in
    let payload := word_bytes (rmin kp_range) ++ word_bytes (rmax kp_range) in
    let! success := SendWrite (WriteMessage idx 6 5 payload) 5 payload wait_for_ack in
    update_if success (set_kp (range_of_Z kp_range)).

Definition SetPVTKdRange {S} (kd_range : Range Z) (wait_for_ack : bool) : M S bool :=
  AcquireDeviceOperation ;;
  let! bus := mget m_bus in
  if negb bus then mthrow BusNotInitialized
  else
    let! idx := mget m_idx in
    let payload := word_bytes (rmin kd_range) ++ word_bytes (rmax kd_range) in
    let! success := SendWrite (WriteMessage idx 6 6 payload) 6 payload wait_for_ack in
    update_if success (set_kd (range_of_Z kd_range)).

(** The four range writes with a fixed-point factor [den]: the cached range is
    the value the motor was told, not the argument. *)
Definition SetScaledRange {S} (parameter_id den : Z)
    (set : Range F32.t -> MotorProperties -> MotorProperties)
    (range : Range F32.t) (wait_for_ack : bool) : M S bool :=
  AcquireDeviceOperation ;;
  let! bus := mget m_bus in
  if negb bus then mthrow BusNotInitialized
  else
    let! idx := mget m_idx in
    let! lo := mcast (cast_i16 (F32.mul (rmin range) (F32.of_Z den))) in
    let! hi := mcast (cast_i16 (F32.mul (rmax range) (F32.of_Z den))) in
    let payload := word_bytes lo ++ word_bytes hi in
    let! success := SendWrite (WriteMessage idx 6 parameter_id payload) parameter_id payload
                      wait_for_ack in
    update_if success (set (scale_range (mkRange lo hi) den)).

Definition SetPVTPosRange {S} := @SetScaledRange S 7 100 set_position.
Definition SetPVTSpdRange {S} := @SetScaledRange S 8 100 set_speed.
Definition SetPVTTorRange {S} := @SetScaledRange S 9 10 set_torque.
Definition SetPVTCurRange {S} := @SetScaledRange S 10 10 set_current.

Definition SetCanTimeout {S} (timeout_ms : Z) (wait_for_ack : bool) : M S bool :=
  AcquireDeviceOperation ;;
  let! bus := mget m_bus in
  if negb bus then mthrow BusNotInitialized
  else
    let! idx := mget m_idx in
    let payload := word_bytes timeout_ms in
    SendWrite (WriteMessage idx 4 11 payload) 11 payload wait_for_ack.

Definition SetCommunicationMode {S} (mode_value : Z) (wait_for_ack : bool) : M S bool :=
  AcquireDeviceOperation ;;
  let! bus := mget m_bus in
  if negb bus then mthrow BusNotInitialized
  else if MotorCommunicationMode.CanOpen <? mode_value then mthrow InvalidArgument
  else
    let! ranges := mget m_ranges in
    if negb (fw_version ranges =? 0) then mret false
    else
      let! idx := mget m_idx in
      let msg := make_pack idx 3
        [ u8 (((6 ≪ 5) .| (0 ≪ 2)) .| (if wait_for_ack then 1 else 0)); 2; mode_value ] in
      SendWrite msg 2 [mode_value] wait_for_ack.

Definition SetCurPI {S} (a_kp ki : F32.t) (wait_for_ack : bool) : M S bool :=
  AcquireDeviceOperation ;;
  let! bus := mget m_bus in
  if negb bus then mthrow BusNotInitialized
  else
    let! idx := mget m_idx in
    let! kp_int := mcast (cast_u16 (F32.mul a_kp (F32.of_Z 10000))) in
    let! ki_int := mcast (cast_u16 (F32.mul ki (F32.of_Z 10))) in
    let payload := word_bytes kp_int ++ word_bytes ki_int in
    SendWrite (WriteMessage idx 6 12 payload) 12 payload wait_for_ack.

(** [static_cast<uint16_t>(std::clamp(gain * gain_scale, 0.0f, 65535.0f))] *)
Definition clamped_gain (gain gain_scale : F32.t) : option Z :=
  cast_u16 (F32.clamp (F32.mul gain gain_scale) F32.zero (F32.of_Z 65535)).

(** [SetSpdPI] and [SetPosPD] differ in the parameter number only. *)
Definition SetLoopGains {S} (parameter_id : Z) (gain1 gain2 : F32.t) (wait_for_ack : bool)
    : M S bool :=
  AcquireDeviceOperation ;;
  let! bus := mget m_bus in
  if negb bus then mthrow BusNotInitialized
  else
    let! idx := mget m_idx in
    let! ranges := mget m_ranges in
    let gain_scale := LoopGainScaleFor (fw_version ranges) in
    let! int1 := mcast (clamped_gain gain1 gain_scale) in
    let! int2 := mcast (clamped_gain gain2 gain_scale) in
    let payload := word_bytes int1 ++ word_bytes int2 in
    SendWrite (WriteMessage idx 6 parameter_id payload) parameter_id payload wait_for_ack.

Definition SetSpdPI {S} := @SetLoopGains S 13.
Definition SetPosPD {S} := @SetLoopGains S 14.

(** ** Theorems *)

(** The frame the next wait is answered with. *)
Definition answer (checker : MotorPackMsg -> bool) (idx : Z) (s : WaitScript)
    : option MotorPackMsg :=
  first_accepted (fun _ p => Some (checker p)) idx (before_send s ++ during_wait s).

(** What a query makes of one exchange. *)
Definition query_result {S} (p : MotorParameter.t) (f : MotorPackMsg) (w : World S)
    : Res (MotorParameterRetType p) * World S :=
  (Ok (ConvertParameter p (fw_version (m_ranges (w_impl w))) (DecodeParameterRaw p f)), w).

Lemma GetParameter_eq {S} (w : World S) p :
  Ready w ->
  GetParameter p w =
    let q := ParameterQuery (m_idx (w_impl w)) p in
    let ck := fun (_ : Z) pack => ParameterReplyMatches p pack in
    match SendAndWait q ck w with
    | (Ok (Some f), w1) => query_result p f w1
    | (Ok None, w1) =>
        match SendAndWait q ck w1 with
        | (Ok (Some f), w2) => query_result p f w2
        | (Ok None, w2) => (Throw ParameterTimeout, w2)
        | (Throw e, w2) => (Throw e, w2)
        | (Undefined, w2) => (Undefined, w2)
        end
    | (Throw e, w1) => (Throw e, w1)
    | (Undefined, w1) => (Undefined, w1)
    end.
Proof.
  intros Hrdy. unfold GetParameter, mbind, AcquireDeviceOperation, mget, mret, mthrow.
  rewrite (ready_registered _ Hrdy), (ready_bus _ Hrdy). cbn [negb]. cbv zeta.
  destruct (SendAndWait _ _ w) as [[[f|]|e|] w1]; try done.
  by destruct (SendAndWait _ _ w1) as [[[f|]|e|] w2].
Qed.

(** [GetParameter] on a ready motor: the query is sent once, and a second
    time only when the first wait brings no reply; the result is the conversion
    of the first matching reply under the firmware version in force, and
    [std::runtime_error] when neither wait brings one. *)
Lemma GetParameter_spec {S} (w : World S) p s1 s2 rest :
  Ready w -> WaitersOk (w_impl w) -> w_faults w = [] -> w_waits w = s1 :: s2 :: rest ->
  CancelAll ∉ before_send s1 -> CancelAll ∉ during_wait s1 ->
  let idx := m_idx (w_impl w) in
  let query := on_wire w (ParameterQuery idx p) in
  let convert f := ConvertParameter p (fw_version (m_ranges (w_impl w))) (DecodeParameterRaw p f) in
  match answer (ParameterReplyMatches p) idx s1 with
  | Some f => fst (GetParameter p w) = Ok (convert f) /\
              w_sent (snd (GetParameter p w)) = w_sent w ++ [query]
  | None =>
      w_sent (snd (GetParameter p w)) = w_sent w ++ [query; query] /\
      fst (GetParameter p w) =
        match answer (ParameterReplyMatches p) idx s2 with
        | Some f => Ok (convert f)
        | None => Throw ParameterTimeout
        end
  end.
Proof.
  intros Hrdy Hok Hf Hw Hb1 Hd1. cbn zeta. rewrite GetParameter_eq by done. cbn zeta.
  assert ((next_wait w).1 = s1) as Hs1 by (unfold next_wait; by rewrite Hw).
  set (q := ParameterQuery (m_idx (w_impl w)) p).
  set (ck := fun (_ : Z) pack => ParameterReplyMatches p pack).
  pose proof (SendAndWait_run w q ck Hok (ready_waiters _ Hrdy) (ready_writer _ Hrdy)) as [Hr1 Hsent1].
  pose proof (SendAndWait_next w q ck Hok (ready_waiters _ Hrdy)) as Hnext.
  rewrite Hs1 in Hr1, Hnext.
  destruct (Hnext Hb1 Hd1) as (Hok1 & Hrej1 & Hi1 & Hrg1 & Hfl1 & Hf1 & Hw1).
  rewrite Hf in Hf1. rewrite Hw in Hw1. cbn in Hf1, Hw1.
  change (first_accepted _ _ _) with (answer (ParameterReplyMatches p) (m_idx (w_impl w)) s1) in Hr1.
  destruct (SendAndWait q ck w) as [r1 w1]. cbn [fst snd] in *. subst r1.
  destruct (answer _ _ s1) as [f|]; [unfold query_result; cbn; by rewrite Hrg1|].
  assert ((next_wait w1).1 = s2) as Hs2 by (unfold next_wait; by rewrite Hw1).
  pose proof (SendAndWait_run w1 q ck Hok1 Hrej1 ltac:(by rewrite Hf1)) as [Hr2 Hsent2].
  assert (m_ranges (w_impl (SendAndWait q ck w1).2) = m_ranges (w_impl w1)) as Hrg2
    by apply SendAndWait_ranges.
  rewrite Hs2, Hi1 in Hr2.
  change (first_accepted _ _ _) with (answer (ParameterReplyMatches p) (m_idx (w_impl w)) s2) in Hr2.
  destruct (SendAndWait q ck w1) as [r2 w2]. cbn [fst snd] in *. subst r2.
  rewrite Hsent1, Hfl1, <- app_assoc in Hsent2.
  destruct (answer _ _ s2) as [f|]; (split; [exact Hsent2|]); [|done].
  unfold query_result. cbn. by rewrite Hrg2, Hrg1.
Qed.

(** A silent first wait, then the answer: position 90 degrees. *)
Lemma GetParameter_spec_witness :
  let reply := make_pack 1 6 [160; 1; 66; 180; 0; 0] in
  let w := example_world tt [] [mkScript [] []; mkScript [] [Rx other_frame; Rx reply]] in
  fst (GetParameter MotorParameter.Position w) =
    Ok (F32.mul (F32.div (F32.of_Z 90) (F32.of_Z 180)) M_PIf) /\
  length (w_sent (snd (GetParameter MotorParameter.Position w))) = 2%nat.
Proof.
  cbv zeta.
  match goal with |- context [GetParameter _ ?x] => set (w := x) end.
  pose proof (GetParameter_spec w MotorParameter.Position _ _ [] (example_ready _ _)
    (example_waiters_ok _ _ _) eq_refl eq_refl) as H.
  destruct H as [Hs Hr]; [apply not_elem_of_nil | apply not_elem_of_nil |].
  split; [rewrite Hr; vm_compute; reflexivity | rewrite Hs; reflexivity].
Defined.

(** The reply a motor gives to a query of a parameter it was told to store. *)
Definition stored_reply (idx : Z) (p : MotorParameter.t) (payload : list Z) : MotorPackMsg :=
  make_pack idx (2 + Z.of_nat (length payload)) (u8 (5 ≪ 5) :: MotorParameter.code p :: payload).

Lemma word_bytes_u16 v : 0 <= v < 65536 -> u16 ((u8 (v ≫ 8) ≪ 8) .| u8 (v .& 255)) = v.
Proof. intros. cint_solve. Qed.

Lemma word_bytes_i16 v :
  -32768 <= v < 32768 -> i16 (u16 ((u8 (v ≫ 8) ≪ 8) .| u8 (v .& 255))) = v.
Proof. intros. unfold i16. cint_solve. Qed.

Definition scaled_write (p : MotorParameter.t) : option Z :=
  match p with
  | MotorParameter.PVTPosRange | MotorParameter.PVTSpdRange => Some 100
  | MotorParameter.PVTTorRange | MotorParameter.PVTCurRange => Some 10
  | _ => None
  end.

Definition range_result (p : MotorParameter.t) (r : MotorParameterRetType p) : option (Range F32.t) :=
  match p return MotorParameterRetType p -> option (Range F32.t) with
  | MotorParameter.PVTPosRange => fun r => Some r
  | MotorParameter.PVTSpdRange => fun r => Some r
  | MotorParameter.PVTTorRange => fun r => Some r
  | MotorParameter.PVTCurRange => fun r => Some r
  | _ => fun _ => None
  end r.

(** Write/read round trip of the four scaled ranges: the bytes that
    [SetPVT{Pos,Spd,Tor,Cur}Range] put on the wire, stored by the motor and
    returned to a query, are accepted as its reply and decode to exactly the
    range the setter cached, for all signed 16-bit limits. *)
Lemma scaled_range_roundtrip p den idx lo hi fw :
  scaled_write p = Some den -> -32768 <= lo < 32768 -> -32768 <= hi < 32768 ->
  let reply := stored_reply idx p (word_bytes lo ++ word_bytes hi) in
  ParameterReplyMatches p reply = true /\
  range_result p (ConvertParameter p fw (DecodeParameterRaw p reply)) =
    Some (scale_range (mkRange lo hi) den).
Proof.
  intros Hp Hlo Hhi.
  destruct p; try discriminate Hp; injection Hp as <-; (split; [reflexivity|]);
    unfold range_result, ConvertParameter, DecodeParameterRaw, DecodeRaw, scale_range;
    cbn -[Z.land Z.shiftr Z.shiftl Z.lor u8 u16 i16 F32.div F32.of_Z];
    unfold read_i16_be, read_u16_be, byte_at;
    cbn -[Z.land Z.shiftr Z.shiftl Z.lor u8 u16 i16 F32.div F32.of_Z];
    by rewrite !word_bytes_i16.
Qed.

Lemma scaled_range_roundtrip_witness :
  ParameterReplyMatches MotorParameter.PVTPosRange
    (stored_reply 1 MotorParameter.PVTPosRange (word_bytes (-1250) ++ word_bytes 1250)) = true.
Proof.
  apply (scaled_range_roundtrip MotorParameter.PVTPosRange 100 1 (-1250) 1250 0); [reflexivity|lia|lia].
Defined.

(** [SetId] with acknowledgement: a refused reservation sends nothing; an
    accepted one is always released at the end, whether the wait times out, the
    writer throws or the migration fails; the motor's index changes exactly
    when the call returns [true], to the new index, and only after the manager
    migrated it. *)
Lemma SetId_transaction {S} `{MotorIndexManager S} (w : World S) (n : Z) :
  w_registered w = true -> m_bus (w_impl w) = true ->
  let r := SetId n true w in
  let (reserved, s1) := ReserveMotorIndex n (w_mgr w) in
  if reserved then
    exists s2, w_mgr (snd r) = ReleaseMotorIndexReservation n s2 /\
      (fst r = Ok true -> m_idx (w_impl (snd r)) = n /\
         exists s, MigrateMotorIndex n s = (true, s2)) /\
      (fst r <> Ok true -> m_idx (w_impl (snd r)) = m_idx (w_impl w))
  else r = (Ok false, with_mgr s1 w).
Proof.
  intros Hreg Hbus. cbn zeta.
  unfold SetId, mbind, AcquireDeviceOperation, mget, mret, mgr_call, scope_exit.
  rewrite Hreg, Hbus. cbn [negb].
  destruct (ReserveMotorIndex n (w_mgr w)) as [[] s1]; [|done]. cbn [negb].
  match goal with |- context [SendAndWait ?q ?ck ?x] =>
    pose proof (SendAndWait_idx x q ck) as Hi;
    destruct (SendAndWait q ck x) as [[[f|]|e|] w1] end; cbn in Hi.
  - destruct (MigrateMotorIndex n (w_mgr w1)) as [[] s2] eqn:Em; cbn.
    + exists s2. by repeat split; try (by eexists).
    + exists s2. split; [done|]. split; [done|]. intros _. exact Hi.
  - exists (w_mgr w1). cbn. done.
  - exists (w_mgr w1). cbn. done.
  - exists (w_mgr w1). cbn. done.
Qed.

(** A toy manager: the one index in use besides the motor's own. *)
#[local] Instance toy_manager : MotorIndexManager (list Z) := {
  ReserveMotorIndex n s := (negb (bool_decide (n ∈ s)), s);
  ReleaseMotorIndexReservation _ s := s;
  MigrateMotorIndex n s := (true, n :: s)
}.

Lemma SetId_transaction_witness :
  m_idx (w_impl (snd (SetId 5 true
    (example_world [2] [] [mkScript [] [Rx (make_pack 5 4 [0; 5; 1; 4])]])))) = 5.
Proof.
  match goal with |- context [SetId 5 true ?x] => set (w := x) end.
  pose proof (SetId_transaction w 5 eq_refl eq_refl) as H. cbn in H.
  destruct H as (s2 & _ & Hok & _). apply Hok. vm_compute. reflexivity.
Defined.

(** A motor with no bus has no effect: every parameter command throws the
    "Bus not initialized" error with the whole world unchanged, so nothing is
    sent, no waiter is registered and no cached range changes. *)
Lemma no_bus_no_effect {S} `{MotorIndexManager S} (w : World S) :
  w_registered w = true -> m_bus (w_impl w) = false ->
  (forall p, GetParameter p w = (Throw BusNotInitialized, w)) /\
  InitMotorPVTParam w = (Throw BusNotInitialized, w) /\
  (forall n b, SetId n b w = (Throw BusNotInitialized, w)) /\
  (forall x, SetPos x w = (Throw BusNotInitialized, w)) /\
  (forall b, ResetZeroPos b w = (Throw BusNotInitialized, w)) /\
  (forall r b, SetPVTKpRange r b w = (Throw BusNotInitialized, w) /\
               SetPVTKdRange r b w = (Throw BusNotInitialized, w)) /\
  (forall r b, SetPVTPosRange r b w = (Throw BusNotInitialized, w) /\
               SetPVTSpdRange r b w = (Throw BusNotInitialized, w) /\
               SetPVTTorRange r b w = (Throw BusNotInitialized, w) /\
               SetPVTCurRange r b w = (Throw BusNotInitialized, w)) /\
  (forall t b, SetCanTimeout t b w = (Throw BusNotInitialized, w) /\
               SetCommunicationMode t b w = (Throw BusNotInitialized, w)) /\
  (forall x y b, SetCurPI x y b w = (Throw BusNotInitialized, w) /\
                 SetSpdPI x y b w = (Throw BusNotInitialized, w) /\
                 SetPosPD x y b w = (Throw BusNotInitialized, w)).
Proof.
  intros Hreg Hbus.
  split_and!; intros; try split_and!;
    unfold InitMotorPVTParam, GetParameter, SetId, SetPos, ResetZeroPos, SetPVTKpRange,
      SetPVTKdRange, SetPVTPosRange, SetPVTSpdRange, SetPVTTorRange, SetPVTCurRange,
      SetScaledRange, SetCanTimeout, SetCommunicationMode, SetCurPI, SetSpdPI, SetPosPD,
      SetLoopGains, mbind, AcquireDeviceOperation, mget; by rewrite Hreg, ?Hbus, ?Hreg, ?Hbus.
Qed.

Lemma no_bus_no_effect_witness :
  let w := mkWorld (new_motor 1 0 false example_ranges) [] [] [] [] (mkLogEnv [] [] 0) true [2] in
  SetId 5 true w = (Throw BusNotInitialized, w).
Proof.
  cbv zeta. match goal with |- context [SetId 5 true ?x] => set (w := x) end.
  destruct (no_bus_no_effect w eq_refl eq_refl) as (_ & _ & H & _). apply H.
Defined.
