(* ===== verification/FakeProtocol.v ===== *)
(** * FakeProtocol: plugins/adapter/fake/fake_protocol.cc

    The simulated adapter's decoder of the motor protocol: an independent reader
    of the frames [MotorControl] and [MotorParameter] build.  The human-readable
    [formatted_text] of a record is not kept, nor are the constant fields of the
    payload structs ([wait_for_ack = true], [is_legacy_reset = true]).  Frames have
    [len <= 8], the size of the payload array. *)
From stdpp Require Import base list numbers option.
From Stdlib Require Import ZArith Lia.
From Stdlib Require Import SpecFloat.
From S2P Require Import Prelude CFloat FloatError Types MathUtils Quantise PackHelper StatusCache.
From S2P Require Import MotorLog Motor MotorControl MotorParameter.
#[local] Open Scope Z_scope.
#[local] Open Scope cint_scope.

(** [static_cast<float>(M_PI)] is the nearest float to pi, the literal [M_PIf]. *)
Definition DecodeFloat (d : list Z) (o : nat) : F32.t :=
  F32.of_bits ((byte_at d o ≪ 24) .| (byte_at d (o + 1) ≪ 16) .| (byte_at d (o + 2) ≪ 8) .|
               byte_at d (o + 3)).

Definition DecodeSpeedCommand (pack : MotorPackMsg) : F32.t :=
  F32.div (F32.mul (DecodeFloat (data pack) 1) (F32_of_f64 M_PI)) (F32.of_Z 30).

Definition FakeWriteParameterFromRawId (raw_id : Z) : option MotorParameter.t :=
  match raw_id with
  | 5 => Some MotorParameter.PVTKpRange
  | 6 => Some MotorParameter.PVTKdRange
  | 7 => Some MotorParameter.PVTPosRange
  | 8 => Some MotorParameter.PVTSpdRange
  | 9 => Some MotorParameter.PVTTorRange
  | 10 => Some MotorParameter.PVTCurRange
  | 11 => Some MotorParameter.CanTimeout
  | 12 => Some MotorParameter.CurKpKi
  | 13 => Some MotorParameter.SpdKpKi
  | 14 => Some MotorParameter.PosKpKd
  | _ => None
  end.

Definition FakeRawIdFromWriteParameter (p : MotorParameter.t) : Z :=
  match p with
  | MotorParameter.PVTKpRange => 5
  | MotorParameter.PVTKdRange => 6
  | MotorParameter.PVTPosRange => 7
  | MotorParameter.PVTSpdRange => 8
  | MotorParameter.PVTTorRange => 9
  | MotorParameter.PVTCurRange => 10
  | MotorParameter.CanTimeout => 11
  | MotorParameter.CurKpKi => 12
  | MotorParameter.SpdKpKi => 13
  | MotorParameter.PosKpKd => 14
  | _ => u8 (MotorParameter.code p)
  end.

(** [record.kind] with its payload.  [FakeGetParameter] keeps the raw byte: the
    code casts it to the enum unchecked. *)
Inductive FakePayload :=
| FakeUnknown
| FakeSetId (source_id target_id : Z)
| FakeSetPos (position_rad : F32.t)
| FakeResetZeroPos
| FakeGetParameter (parameter : Z)
| FakeBrake (enabled : bool)
| FakeSpdControl (speed current : F32.t) (feedback_type : Z)
| FakePosControl (position speed current : F32.t) (feedback_type : Z)
| FakeCurControl (current : F32.t) (feedback_type : Z)
| FakeTorControl (torque : F32.t) (feedback_type : Z)
| FakeStop (mode : Z) (current : F32.t) (feedback_type : Z)
| FakePVTControl (kp kd position speed torque : F32.t)
| FakeSetParameter (raw_parameter_id : Z) (parameter : option MotorParameter.t)
    (wait_for_ack : bool) (raw_value : list Z).

Record FakeCommandRecord := mkFakeRecord {
  fr_bus_idx : Z; fr_motor_idx : Z; fr_raw_frame_flags : Z; fr_payload : FakePayload }.

(** The integer fields of the two packed 8-byte frames. *)
Definition pvt_fields (d : list Z) : Z * Z * Z * Z * Z :=
  ((byte_at d 0 ≪ 7) .| (byte_at d 1 ≫ 1),
   ((byte_at d 1 .& 1) ≪ 8) .| byte_at d 2,
   (byte_at d 3 ≪ 8) .| byte_at d 4,
   (byte_at d 5 ≪ 4) .| (byte_at d 6 ≫ 4),
   ((byte_at d 6 .& 15) ≪ 8) .| byte_at d 7).

(** [memcpy] of [pos_bytes] into a float on a little-endian machine. *)
Definition pos_fields (d : list Z) : Z * Z * Z * Z :=
  let b0 := u8 (((byte_at d 3 .& 31) ≪ 3) .| (byte_at d 4 ≫ 5)) in
  let b1 := u8 (((byte_at d 2 .& 31) ≪ 3) .| (byte_at d 3 ≫ 5)) in
  let b2 := u8 (((byte_at d 1 .& 31) ≪ 3) .| (byte_at d 2 ≫ 5)) in
  let b3 := u8 (((byte_at d 0 .& 31) ≪ 3) .| (byte_at d 1 ≫ 5)) in
  (le32 b0 b1 b2 b3,
   ((byte_at d 4 .& 31) ≪ 10) .| (byte_at d 5 ≪ 2) .| (byte_at d 6 ≫ 6),
   ((byte_at d 6 .& 63) ≪ 6) .| (byte_at d 7 ≫ 2),
   byte_at d 7 .& 3).

Definition i16_at_1 (d : list Z) : Z := i16 ((byte_at d 1 ≪ 8) .| byte_at d 2).

Definition range_or (r : option (Range F32.t)) (lo hi : F32.t) : Range F32.t :=
  match r with Some x => x | None => mkRange lo hi end.

Definition DecodeFakePVT (d : list Z) (snapshot : option MotorProperties) : FakePayload :=
  let '(kp_int, kd_int, pos_int, spd_int, tor_int) := pvt_fields d in
  let r_kp := range_or (option_map kp snapshot) F32.zero (F32.of_Z 500) in
  let r_kd := range_or (option_map kd snapshot) F32.zero (F32.of_Z 5) in
  let r_pos := range_or (option_map position snapshot) (f32_lit (-25) 2) (f32_lit 25 2) in
  let r_spd := range_or (option_map speed snapshot) (F32.of_Z (-18)) (F32.of_Z 18) in
  let r_tor := range_or (option_map torque snapshot) (F32.of_Z (-30)) (F32.of_Z 30) in
  FakePVTControl (UintToFloat kp_int (rmin r_kp) (rmax r_kp) 12)
    (UintToFloat kd_int (rmin r_kd) (rmax r_kd) 9)
    (UintToFloat pos_int (rmin r_pos) (rmax r_pos) 16)
    (UintToFloat spd_int (rmin r_spd) (rmax r_spd) 12)
    (UintToFloat tor_int (rmin r_tor) (rmax r_tor) 12).

Definition DecodeFakePos (d : list Z) : FakePayload :=
  let '(position_bits, spd_int, cur_int, feedback) := pos_fields d in
  let pi := F32_of_f64 M_PI in
  FakePosControl
    (F32.div (F32.mul (F32.of_bits position_bits) pi) (F32.of_Z 180))
    (F32.div (F32.mul (UintToFloat spd_int F32.zero k3276_7 15) pi) (F32.of_Z 30))
    (UintToFloat cur_int F32.zero k409_5 12) feedback.

Definition DecodeFakeClass3 (d : list Z) : FakePayload :=
  let selector := (byte_at d 0 ≫ 2) .& 7 in
  let value := F32.div (F32.of_Z (i16_at_1 d)) (F32.of_Z 100) in
  let feedback := byte_at d 0 .& 3 in
  if selector =? 0 then FakeCurControl value feedback
  else if selector =? 1 then FakeTorControl value feedback
  else FakeStop selector value feedback.

(** The cascade of [if]s of [DecodeFakeCommand], in order. *)
Definition DecodeFakePayload (pack : MotorPackMsg) (snapshot : option MotorProperties)
    : FakePayload :=
  let d := data pack in
  if (id pack =? 2047) && (len pack =? 6) && (byte_at d 3 =? 4) then
    FakeSetId ((byte_at d 0 ≪ 8) .| byte_at d 1) ((byte_at d 4 ≪ 8) .| byte_at d 5)
  else if (id pack =? 2047) && (len pack =? 6) && (byte_at d 3 =? 3) then
    let centideg := i16 ((byte_at d 4 ≪ 8) .| byte_at d 5) in
    FakeSetPos
      (F32.div (F32.mul (F32.div (F32.of_Z centideg) (F32.of_Z 100)) (F32_of_f64 M_PI))
         (F32.of_Z 180))
  else if (id pack =? 2047) && (len pack =? 4) && (byte_at d 3 =? 3) then FakeResetZeroPos
  else if (len pack =? 2) && (byte_at d 0 =? u8 (7 ≪ 5)) then FakeGetParameter (byte_at d 1)
  else if (len pack =? 3) && (byte_at d 0 .& 252 =? 116) && (byte_at d 1 =? 0) &&
          (byte_at d 2 <=? 1) then FakeBrake (byte_at d 2 =? 0)
  else if (len pack =? 7) && (byte_at d 0 .& 224 =? 64) then
    FakeSpdControl (DecodeSpeedCommand pack)
      (F32.div (F32.of_Z ((byte_at d 5 ≪ 8) .| byte_at d 6)) (F32.of_Z 10))
      (byte_at d 0 .& 31)
  else if (len pack =? 8) && (byte_at d 0 .& 224 =? 32) then DecodeFakePos d
  else if (len pack =? 3) && (byte_at d 0 .& 224 =? 96) then DecodeFakeClass3 d
  else if len pack =? 8 then DecodeFakePVT d snapshot
  else if (3 <=? len pack) && (byte_at d 0 .& 224 =? 192) then
    FakeSetParameter (byte_at d 1) (FakeWriteParameterFromRawId (byte_at d 1))
      (negb (byte_at d 0 .& 1 =? 0)) (take (Z.to_nat (len pack) - 2) (drop 2 d))
  else FakeUnknown.

Definition DecodeFakeCommand (message : MotorMessage) (snapshot : option MotorProperties)
    : FakeCommandRecord :=
  let pack := mdata message in
  let d := data pack in
  let motor_idx := if (id pack =? 2047) && (2 <=? len pack)
                   then (byte_at d 0 ≪ 8) .| byte_at d 1 else i32 (id pack) in
  mkFakeRecord (bus_idx message) motor_idx (frame_flags pack) (DecodeFakePayload pack snapshot).

(** ** Lemmas: unpacking inverts packing *)

Lemma pvt_fields_payload kp_int kd_int pos_int spd_int tor_int :
  0 <= kp_int < 4096 -> 0 <= kd_int < 512 -> 0 <= pos_int < 65536 ->
  0 <= spd_int < 4096 -> 0 <= tor_int < 4096 ->
  pvt_fields (pvt_payload kp_int kd_int pos_int spd_int tor_int) =
  (kp_int, kd_int, pos_int, spd_int, tor_int).
Proof.
  intros. unfold pvt_fields, pvt_payload, byte_at. cbn [nth].
  f_equal; [f_equal; [f_equal; [f_equal|]|]|]; cint_solve.
Qed.

Lemma shifted_byte p q r :
  byte_ok q -> 0 <= r < 32 ->
  u8 (((u8 ((p ≪ 5) .| (q ≫ 3)) .& 31) ≪ 3) .| (u8 ((q ≪ 5) .| r) ≫ 5)) = q.
Proof. intros. cint_solve. Qed.

Lemma byte_shr3 q : byte_ok q -> 0 <= q ≫ 3 < 32.
Proof. intros. cint_solve. Qed.

Lemma spd_join a b c :
  byte_ok b -> 0 <= c < 4 -> ((a ≪ 10) .| (b ≪ 2)) .| c = a * 1024 + b * 4 + c.
Proof.
  intros. rewrite lor_shiftl_add by (unfold byte_ok in *; rewrite ?Z.shiftl_mul_pow2; lia).
  rewrite Z.shiftl_mul_pow2 by lia. rewrite (lor_high_add _ c 2); [lia..| |lia].
  Z.to_euclidean_division_equations. lia.
Qed.

Lemma pos_fields_payload bits spd_int cur_int fb :
  0 <= bits < 4294967296 -> 0 <= spd_int < 32768 -> 0 <= cur_int < 4096 -> 0 <= fb < 4 ->
  pos_fields (pos_payload bits spd_int cur_int fb) = (bits, spd_int, cur_int, fb).
Proof.
  intros Hb Hs Hc Hf. unfold pos_fields, pos_payload, position_byte, byte_at. cbn [nth].
  change 32 with (1 ≪ 5).
  assert (0 <= spd_int ≫ 10 < 32) by cint_solve.
  rewrite !shifted_byte by auto using byte_shr3 with cint.
  f_equal; [f_equal; [f_equal|]|].
  - rewrite Z.shiftr_0_r. by apply le32_split.
  - rewrite spd_join; [cint_solve|auto with cint|cint_solve].
  - cint_solve.
  - cint_solve.
Qed.

Lemma make_pack_byte i l bs k :
  (k < length bs)%nat -> byte_at (data (make_pack i l bs)) k = byte_at bs k.
Proof. intros. unfold byte_at, make_pack. cbn [data]. by rewrite app_nth1. Qed.

Lemma high_bits_class c b : c mod 32 = 0 -> 0 <= c < 256 -> 0 <= b < 32 ->
  u8 (c .| b) .& 224 = c /\ u8 (c .| b) .& 31 = b.
Proof.
  intros Hc Hc8 Hb. rewrite (lor_high_add c b 5) by (done || lia).
  rewrite u8_small by (unfold byte_ok; Z.to_euclidean_division_equations; lia).
  replace 224 with (Z.ldiff 255 31) by done.
  split; [|change 31 with (Z.ones 5); rewrite Z.land_ones by lia; change (2 ^ 5) with 32;
           Z.to_euclidean_division_equations; lia].
  assert (c = 0 \/ c = 32 \/ c = 64 \/ c = 96 \/ c = 128 \/ c = 160 \/ c = 192 \/ c = 224)
    as Hcase by (Z.to_euclidean_division_equations; lia).
  change (Z.ldiff 255 31) with (Z.land 255 (Z.lnot 31)).
  rewrite Z.land_assoc. change 255 with (Z.ones 8). rewrite Z.land_ones by lia.
  rewrite Z.mod_small by lia. change 31 with (Z.ones 5). rewrite <- Z.ldiff_land.
  rewrite Z.ldiff_ones_r by lia. rewrite Z.shiftr_div_pow2, Z.shiftl_mul_pow2 by lia.
  change (2 ^ 5) with 32. Z.to_euclidean_division_equations. lia.
Qed.

(** The class bits of a PVT frame. *)
Lemma pvt_class kp_int kd_int pos_int spd_int tor_int :
  0 <= kp_int < 4096 ->
  byte_at (pvt_payload kp_int kd_int pos_int spd_int tor_int) 0 .& 224 = 0.
Proof.
  intros. unfold pvt_payload, byte_at. cbn [nth].
  assert (u8 (kp_int ≫ 7) = u8 (0 .| (kp_int / 128))) as -> by (rewrite Z.lor_0_l; cint_solve).
  apply high_bits_class; [done|lia|]. Z.to_euclidean_division_equations; lia.
Qed.

Lemma i16_word v :
  -32768 <= v < 32768 -> i16 ((u8 (v ≫ 8) ≪ 8) .| u8 (v .& 255)) = v.
Proof. intros. unfold i16. cint_solve. Qed.

Lemma u16_word v : 0 <= v < 65536 -> (u8 (v ≫ 8) ≪ 8) .| u8 (v .& 255) = v.
Proof. intros. cint_solve. Qed.

Lemma class3_bits mode fb :
  0 <= mode < 5 -> 0 <= fb < 4 ->
  let b := u8 ((96 .| (mode ≪ 2)) .| fb) in
  b .& 252 = 96 + mode * 4 /\ b .& 224 = 96 /\ (b ≫ 2) .& 7 = mode /\ b .& 3 = fb.
Proof.
  intros Hm Hf. cbn zeta.
  assert (mode = 0 \/ mode = 1 \/ mode = 2 \/ mode = 3 \/ mode = 4) as Hc by lia.
  assert (fb = 0 \/ fb = 1 \/ fb = 2 \/ fb = 3) as Hd by lia.
  repeat destruct Hc as [-> | Hc]; subst; repeat destruct Hd as [-> | Hd]; subst; done.
Qed.

(** The decoder on a class-3 frame that is not the brake command. *)
Lemma DecodeFakeClass3_frame idx flags mode v fb snapshot :
  0 <= mode < 5 -> 0 <= fb < 4 -> -32768 <= v < 32768 ->
  let value := F32.div (F32.of_Z v) (F32.of_Z 100) in
  DecodeFakePayload
    (mkPack idx flags 3 (data (make_pack idx 3 (class3_payload mode v fb)))) snapshot =
  if mode =? 0 then FakeCurControl value fb
  else if mode =? 1 then FakeTorControl value fb
  else FakeStop mode value fb.
Proof.
  intros Hm Hf Hv. destruct (class3_bits mode fb Hm Hf) as (H1 & H2 & H3 & H4).
  unfold DecodeFakePayload, DecodeFakeClass3, i16_at_1. cbn [id len data].
  rewrite !andb_false_r. cbn [Z.eqb Pos.eqb andb].
  rewrite !(make_pack_byte _ _ (class3_payload mode v fb)) by (cbn; lia).
  unfold class3_payload. unfold byte_at. cbn [nth].
  rewrite H1, H2, H3, H4, i16_word by done.
  replace (96 + mode * 4 =? 116) with false by lia. done.
Qed.

(** ** Theorems *)

(** What a simulated motor reads off the wire is what was commanded, in
    hundredths: on a ready motor, [CurControl], [TorControl] and [Stop] each hand
    exactly one frame to the writer, and the decoder reads it back as the same
    command with the commanded value truncated to 1/100 and the same feedback
    type ([Stop]'s mode being 2 on new firmware). *)
Lemma class3_protocol {S} (w : World S) F mode x v fb snapshot :
  Ready w -> feedback_ok F fb = true -> cast_i16 (F32.mul x (F32.of_Z 100)) = Some v ->
  let value := F32.div (F32.of_Z v) (F32.of_Z 100) in
  (exists p, w_sent (snd (CurControl F x fb w)) = w_sent w ++ [p] /\ id p = m_idx (w_impl w) /\
     DecodeFakePayload p snapshot = FakeCurControl value fb) /\
  (exists p, w_sent (snd (TorControl F x fb w)) = w_sent w ++ [p] /\ id p = m_idx (w_impl w) /\
     DecodeFakePayload p snapshot = FakeTorControl value fb) /\
  (exists p, w_sent (snd (Stop F mode x fb w)) = w_sent w ++ [p] /\ id p = m_idx (w_impl w) /\
     DecodeFakePayload p snapshot =
       FakeStop (if fw_version (m_ranges (w_impl w)) =? 0 then MotorStopMode_code mode else 2)
         value fb).
Proof.
  intros Hrdy Hfb Hcast. cbn zeta.
  pose proof (feedback_ok_range _ _ Hfb) as Hf.
  pose proof (SF_cast_range _ _ _ _ Hcast) as Hv.
  assert (Hstop : 2 <= StopCtrlMode (fw_version (m_ranges (w_impl w))) mode < 5)
    by (unfold StopCtrlMode; destruct (_ =? 0), mode; cbn; lia).
  unfold CurControl, TorControl, Stop. split_and!; run_control Hrdy Hfb; rewrite Hcast;
    unfold mbind at 1, mcast at 1, mret at 1; repeat (unfold mbind at 1, mget at 1);
    match goal with |- context [FinishControl ?F ?msg ?t ?a w] =>
      destruct (FinishControl_sent F msg t a w Hrdy) as [Hs _]; rewrite Hs end;
    (eexists; split; [done|]; split; [done|]);
    unfold on_wire; cbn [id len]; rewrite DecodeFakeClass3_frame by lia.
  - done.
  - done.
  - fold (StopCtrlMode (fw_version (m_ranges (w_impl w))) mode).
    replace (_ =? 0) with false by lia. by replace (_ =? 1) with false by lia.
Qed.

(** Current 12.34 A with feedback type 1, sent as 1234 hundredths. *)
Lemma class3_protocol_witness :
  exists p, w_sent (snd (CurControl (Some Fb1) (f32_lit 1234 100) 1 (example_world tt [] []))) = [p] /\
    DecodeFakePayload p None = FakeCurControl (F32.div (F32.of_Z 1234) (F32.of_Z 100)) 1.
Proof.
  destruct (class3_protocol (example_world tt [] []) (Some Fb1) FullBrake (f32_lit 1234 100) 1234 1 None
    (example_ready _ _) eq_refl ltac:(vm_compute; reflexivity)) as ((p & Hs & _ & Hd) & _).
  exists p. split; [exact Hs | exact Hd].
Defined.

Lemma spd_payload_bits speed_bits cur fb :
  0 <= speed_bits < 4294967296 -> 0 <= cur < 65536 -> 0 <= fb < 4 ->
  let d := spd_payload speed_bits cur fb in
  byte_at d 0 .& 224 = 64 /\ byte_at d 0 .& 31 = fb /\
  DecodeFloat d 1 = F32.of_bits speed_bits /\ (byte_at d 5 ≪ 8) .| byte_at d 6 = cur.
Proof.
  intros Hb Hc Hf. cbn zeta. unfold spd_payload, DecodeFloat, byte_at. cbn [nth Nat.add].
  destruct (high_bits_class 64 fb) as [H1 H2]; [done|lia|lia|].
  split; [done|]. split; [done|]. split; [|by apply u16_word].
  by rewrite <- (be32_split speed_bits) at 5 by done.
Qed.

(** Speed command: the frame of [SpdControl] carries the exact bits of the
    commanded speed in rpm and the current in tenths of an ampere, and is read
    back as that speed command. *)
Lemma spd_protocol {S} (w : World S) F speed current cur fb snapshot :
  Ready w -> feedback_ok F fb = true ->
  cast_u16 (F32.mul current (F32.of_Z 10)) = Some cur ->
  exists p, w_sent (snd (SpdControl F speed current fb w)) = w_sent w ++ [p] /\
    id p = m_idx (w_impl w) /\
    DecodeFakePayload p snapshot =
      FakeSpdControl
        (F32.div (F32.mul (F32.of_bits (FloatBits (F32.mul speed kRadiansPerSecondToRpm)))
                    (F32_of_f64 M_PI)) (F32.of_Z 30))
        (F32.div (F32.of_Z cur) (F32.of_Z 10)) fb.
Proof.
  intros Hrdy Hfb Hcast.
  pose proof (feedback_ok_range _ _ Hfb) as Hf.
  pose proof (SF_cast_range _ _ _ _ Hcast) as Hc.
  unfold SpdControl. run_control Hrdy Hfb. unfold mbind at 1, mget at 1. rewrite Hcast.
  unfold mbind at 1, mcast at 1, mret at 1.
  match goal with |- context [FinishControl F ?msg ?t ?a w] =>
    destruct (FinishControl_sent F msg t a w Hrdy) as [Hs _]; rewrite Hs end.
  eexists; split; [done|]; split; [done|].
  set (bits := FloatBits _).
  destruct (spd_payload_bits bits cur fb) as (H1 & H2 & H3 & H4); [apply u32_range|lia|lia|].
  unfold on_wire. cbn [id len]. unfold DecodeFakePayload, DecodeSpeedCommand. cbn [id len data].
  rewrite !andb_false_r. cbn [Z.eqb Pos.eqb andb].
  change (data (make_pack (m_idx (w_impl w)) 7 (spd_payload bits cur fb)))
    with (spd_payload bits cur fb ++ [0]).
  change (byte_at (spd_payload bits cur fb ++ [0]) 0) with (byte_at (spd_payload bits cur fb) 0).
  change (byte_at (spd_payload bits cur fb ++ [0]) 5) with (byte_at (spd_payload bits cur fb) 5).
  change (byte_at (spd_payload bits cur fb ++ [0]) 6) with (byte_at (spd_payload bits cur fb) 6).
  change (DecodeFloat (spd_payload bits cur fb ++ [0]) 1) with (DecodeFloat (spd_payload bits cur fb) 1).
  by rewrite H1, H2, H3, H4.
Qed.

Lemma spd_protocol_witness :
  exists p, w_sent (snd (SpdControl None (F32.of_Z 2) (F32.of_Z 3) 0 (example_world tt [] []))) = [p].
Proof.
  destruct (spd_protocol (example_world tt [] []) None (F32.of_Z 2) (F32.of_Z 3) 30 0 None
    (example_ready _ _) eq_refl ltac:(vm_compute; reflexivity)) as (p & Hs & _).
  exists p. exact Hs.
Defined.

(** Position command: [PosControl] sends one frame that carries the exact
    bits of the commanded position in degrees next to a 15-bit speed, a 12-bit
    current and the feedback type, and the decoder recovers all four. *)
Lemma pos_frame {S} (w : World S) F pos spd cur spd_int cur_int fb snapshot :
  Ready w -> feedback_ok F fb = true ->
  FloatToUint16 (F32.div (F32.mul spd (F32.of_Z 30)) M_PIf) F32.zero k3276_7 15 = Some spd_int ->
  FloatToUint16 cur F32.zero k409_5 12 = Some cur_int ->
  spd_int < 32768 -> cur_int < 4096 ->
  exists p, w_sent (snd (PosControl F pos spd cur fb w)) = w_sent w ++ [p] /\
    id p = m_idx (w_impl w) /\
    DecodeFakePayload p snapshot =
      FakePosControl
        (F32.div (F32.mul (F32.of_bits (FloatBits (F32.div (F32.mul pos (F32.of_Z 180)) M_PIf)))
                    (F32_of_f64 M_PI)) (F32.of_Z 180))
        (F32.div (F32.mul (UintToFloat spd_int F32.zero k3276_7 15) (F32_of_f64 M_PI)) (F32.of_Z 30))
        (UintToFloat cur_int F32.zero k409_5 12) fb.
Proof.
  intros Hrdy Hfb Hspd Hcur Hspd' Hcur'.
  pose proof (feedback_ok_range _ _ Hfb) as Hf.
  assert (0 <= spd_int /\ 0 <= cur_int) as [Hs0 Hc0].
  { unfold FloatToUint16 in *.
    destruct (FloatToUint (F32.div _ _) _ _ 15) as [a|], (FloatToUint cur _ _ 12) as [b|]; try done.
    cbn in Hspd, Hcur. pose proof (u16_range a). pose proof (u16_range b).
    split; congruence || (injection Hspd as <-; lia) || (injection Hcur as <-; lia). }
  unfold PosControl. run_control Hrdy Hfb. unfold mbind at 1, mget at 1. cbv zeta.
  rewrite Hspd, Hcur. unfold mbind at 1, mcast at 1, mret at 1.
  unfold mbind at 1, mcast at 1, mret at 1.
  match goal with |- context [FinishControl F ?msg ?t ?a w] =>
    destruct (FinishControl_sent F msg t a w Hrdy) as [Hs _]; rewrite Hs end.
  eexists; split; [done|]; split; [done|].
  set (bits := FloatBits _).
  pose proof (pos_fields_payload bits spd_int cur_int fb (u32_range _) ltac:(lia) ltac:(lia) Hf) as Hp.
  unfold on_wire. cbn [id len]. unfold DecodeFakePayload. cbn [id len data].
  rewrite !andb_false_r. cbn [Z.eqb Pos.eqb andb].
  change (data (make_pack (m_idx (w_impl w)) 8 (pos_payload bits spd_int cur_int fb)))
    with (pos_payload bits spd_int cur_int fb).
  assert (byte_at (pos_payload bits spd_int cur_int fb) 0 .& 224 = 32) as ->.
  { unfold pos_payload, byte_at. cbn [nth]. apply high_bits_class; [done|lia|].
    apply byte_shr3. unfold position_byte. auto with cint. }
  cbn [Z.eqb Pos.eqb]. unfold DecodeFakePos. by rewrite Hp.
Qed.

(** One number: it is quantised, and its quantised value recovers it. *)
Lemma quantise16 x lo hi bits :
  number x -> proper_range lo hi -> 1 <= bits <= 16 ->
  exists z, FloatToUint16 x lo hi bits = Some z /\ 0 <= z < 2 ^ bits /\ recovers lo hi bits x (UintToFloat z lo hi bits).
Proof.
  intros Hx Hr Hb. destruct (quantise_recover _ _ _ bits Hx Hr Hb) as (z & Ez & Hz & Hrec). exists z.
  unfold FloatToUint16. rewrite Ez. cbn [option_map].
  pose proof (Z.pow_le_mono_r 2 bits 16 ltac:(lia) ltac:(lia)) as H16. change (2 ^ 16) with 65536 in H16.
  unfold u16. rewrite Z.mod_small by lia. done.
Qed.

(** The speed in revolutions per minute, as [PosControl] computes it. *)
Definition rpm (spd : F32.t) : F32.t := F32.div (F32.mul spd (F32.of_Z 30)) M_PIf.

Lemma rpm_number spd : number spd -> number (rpm spd).
Proof.
  intros H. unfold rpm. change M_PIf with (S754_finite false 13176795 (-22)). apply div_number.
  change (F32.of_Z 30) with (S754_finite false 15728640 (-19)). by apply mul_number.
Qed.

(** Position command: for any speed and current [PosControl] sends one frame from which a
    decoder reads the exact bits of the position in degrees, the feedback type, and the
    speed and the current, clamped to the ranges of the protocol and off by at most 5/4
    of a step of their 15 and 12 bits and the rounding of the arithmetic. *)
Lemma pos_protocol {S} (w : World S) F pos spd cur fb snapshot :
  Ready w -> feedback_ok F fb = true -> number spd -> number cur ->
  exists p spd_v cur_v, w_sent (snd (PosControl F pos spd cur fb w)) = w_sent w ++ [p] /\ id p = m_idx (w_impl w) /\
    DecodeFakePayload p snapshot =
      FakePosControl
        (F32.div (F32.mul (F32.of_bits (FloatBits (F32.div (F32.mul pos (F32.of_Z 180)) M_PIf)))
                    (F32_of_f64 M_PI)) (F32.of_Z 180))
        (F32.div (F32.mul spd_v (F32_of_f64 M_PI)) (F32.of_Z 30)) cur_v fb /\
    recovers F32.zero k3276_7 15 (rpm spd) spd_v /\ recovers F32.zero k409_5 12 cur cur_v.
Proof.
  intros Hrdy Hfb Hspd Hcur.
  destruct (quantise16 (rpm spd) F32.zero k3276_7 15) as (spd_int & Es & Hs & Hs'); [by apply rpm_number| |lia|].
  { split; [split_and!; by vm_compute..|by vm_compute]. }
  destruct (quantise16 cur F32.zero k409_5 12) as (cur_int & Ec & Hc & Hc'); [done| |lia|].
  { split; [split_and!; by vm_compute..|by vm_compute]. }
  destruct (pos_frame w F pos spd cur spd_int cur_int fb snapshot Hrdy Hfb Es Ec) as (p & H1 & H2 & H3); [lia|lia|].
  exists p, (UintToFloat spd_int F32.zero k3276_7 15), (UintToFloat cur_int F32.zero k409_5 12). by split_and!.
Qed.

Lemma pos_protocol_witness :
  exists p, w_sent (snd (PosControl (Some Fb2) (F32.of_Z 1) (F32.of_Z 2) (F32.of_Z 3) 2
                           (example_world tt [] []))) = [p].
Proof.
  destruct (pos_protocol (example_world tt [] []) (Some Fb2) (F32.of_Z 1) (F32.of_Z 2) (F32.of_Z 3) 2 None
    (example_ready _ _) eq_refl) as (p & _ & _ & Hs & _); [by split; vm_compute..|].
  exists p. exact Hs.
Defined.

(** The five quantised values of a PVT command on a motor's ranges. *)
Definition PvtQuantised (r : MotorProperties) (a_kp a_kd pos spd tor : F32.t)
    (q : Z * Z * Z * Z * Z) : Prop :=
  let '(kp_int, kd_int, pos_int, spd_int, tor_int) := q in
  let quantise x rg bits := FloatToUint16 (clamp_range x rg) (rmin rg) (rmax rg) bits in
  (quantise a_kp (kp r) 12 = Some kp_int /\ kp_int < 4096) /\
  (quantise a_kd (kd r) 9 = Some kd_int /\ kd_int < 512) /\
  quantise pos (position r) 16 = Some pos_int /\
  (quantise spd (speed r) 12 = Some spd_int /\ spd_int < 4096) /\
  (quantise tor (torque r) 12 = Some tor_int /\ tor_int < 4096).

Lemma FloatToUint16_range x lo hi bits z :
  FloatToUint16 x lo hi bits = Some z -> 0 <= z < 65536.
Proof.
  unfold FloatToUint16. destruct (FloatToUint x lo hi bits); cbn; [|done].
  intros [= <-]. apply u16_range.
Qed.

(** [PVTControl] clamps its five arguments to the motor's ranges, packs them into 12, 9,
    16, 12 and 12 bits of one 8-byte frame, and a decoder that knows the same ranges finds
    exactly the five quantised values, none disturbing its neighbour. *)
Lemma pvt_frame {S} (w : World S) fbk a_kp a_kd pos spd tor q :
  Ready w -> PvtQuantised (m_ranges (w_impl w)) a_kp a_kd pos spd tor q ->
  exists p, w_sent (snd (PVTControl fbk a_kp a_kd pos spd tor w)) = w_sent w ++ [p] /\
    id p = m_idx (w_impl w) /\
    let r := m_ranges (w_impl w) in
    DecodeFakePayload p (Some r) =
      let '(kp_int, kd_int, pos_int, spd_int, tor_int) := q in
      FakePVTControl (UintToFloat kp_int (rmin (kp r)) (rmax (kp r)) 12)
        (UintToFloat kd_int (rmin (kd r)) (rmax (kd r)) 9)
        (UintToFloat pos_int (rmin (position r)) (rmax (position r)) 16)
        (UintToFloat spd_int (rmin (speed r)) (rmax (speed r)) 12)
        (UintToFloat tor_int (rmin (torque r)) (rmax (torque r)) 12).
Proof.
  intros Hrdy. destruct q as [[[[kp_int kd_int] pos_int] spd_int] tor_int].
  cbn. intros ((Hkp & Hkp') & (Hkd & Hkd') & Hpos & (Hspd & Hspd') & (Htor & Htor')).
  pose proof (FloatToUint16_range _ _ _ _ _ Hkp). pose proof (FloatToUint16_range _ _ _ _ _ Hkd).
  pose proof (FloatToUint16_range _ _ _ _ _ Hpos). pose proof (FloatToUint16_range _ _ _ _ _ Hspd).
  pose proof (FloatToUint16_range _ _ _ _ _ Htor).
  unfold PVTControl. run_control Hrdy Hkp. do 2 (unfold mbind at 1, mget at 1). cbv zeta.
  rewrite Hkp. cbn [mcast]. unfold mbind at 1, mret at 1.
  rewrite Hkd. cbn [mcast]. unfold mbind at 1, mret at 1.
  rewrite Hpos. cbn [mcast]. unfold mbind at 1, mret at 1.
  rewrite Hspd. cbn [mcast]. unfold mbind at 1, mret at 1.
  rewrite Htor. cbn [mcast]. unfold mbind at 1, mret at 1.
  match goal with |- context [FinishControl ?F ?msg ?t ?a w] =>
    destruct (FinishControl_sent F msg t a w Hrdy) as [Hs _]; rewrite Hs end.
  eexists; split; [done|]; split; [done|].
  set (payload := pvt_payload _ _ _ _ _).
  assert (pvt_fields payload = (kp_int, kd_int, pos_int, spd_int, tor_int)) as Hp
    by (apply pvt_fields_payload; lia).
  assert (byte_at payload 0 .& 224 = 0) as Hcl by (apply pvt_class; lia).
  unfold on_wire. cbn [id len]. unfold DecodeFakePayload. cbn [id len data].
  change (data (make_pack (m_idx (w_impl w)) 8 payload)) with payload.
  rewrite !andb_false_r. cbn [Z.eqb Pos.eqb andb]. rewrite Hcl. cbn [Z.eqb].
  unfold DecodeFakePVT. by rewrite Hp.
Qed.

(** One argument, clamped before. *)
Lemma quantise_arg x rg bits :
  number x -> proper_range (rmin rg) (rmax rg) -> 1 <= bits <= 16 ->
  exists z, FloatToUint16 (clamp_range x rg) (rmin rg) (rmax rg) bits = Some z /\ 0 <= z < 2 ^ bits /\
    recovers (rmin rg) (rmax rg) bits x (UintToFloat z (rmin rg) (rmax rg) bits).
Proof.
  intros Hx Hr Hb. destruct (quantise16 _ _ _ bits (clamp_number _ _ _ Hx Hr) Hr Hb) as (z & Ez & Hz & Hf & He).
  exists z. rewrite (clamp_clamp _ _ _ Hx Hr) in He. done.
Qed.

Definition proper (rg : Range F32.t) : Prop := proper_range (rmin rg) (rmax rg).

(** C10: impedance command: for any five numbers and any proper ranges of the motor,
    [PVTControl] sends exactly one frame, addressed to the motor, and a decoder that knows
    the same ranges reads from it the five arguments, each clamped to its range and off by
    at most 5/4 of a step of its 12, 9, 16, 12 or 12 bits and the rounding of the
    arithmetic. *)
Theorem pvt_protocol {S} (w : World S) fbk a_kp a_kd pos spd tor :
  let r := m_ranges (w_impl w) in
  Ready w -> Forall number [a_kp; a_kd; pos; spd; tor] ->
  Forall proper [kp r; kd r; position r; speed r; torque r] ->
  exists p kp_v kd_v pos_v spd_v tor_v,
    w_sent (snd (PVTControl fbk a_kp a_kd pos spd tor w)) = w_sent w ++ [p] /\ id p = m_idx (w_impl w) /\
    DecodeFakePayload p (Some r) = FakePVTControl kp_v kd_v pos_v spd_v tor_v /\
    recovers (rmin (kp r)) (rmax (kp r)) 12 a_kp kp_v /\ recovers (rmin (kd r)) (rmax (kd r)) 9 a_kd kd_v /\
    recovers (rmin (position r)) (rmax (position r)) 16 pos pos_v /\
    recovers (rmin (speed r)) (rmax (speed r)) 12 spd spd_v /\ recovers (rmin (torque r)) (rmax (torque r)) 12 tor tor_v.
Proof.
  cbv zeta. set (r := m_ranges (w_impl w)). intros Hrdy Hargs Hranges.
  repeat match goal with H : Forall _ (_ :: _) |- _ => apply list.Forall_cons in H as [? H] end.
  destruct (quantise_arg a_kp (kp r) 12) as (kp_int & ? & ? & ?); [done|done|lia|].
  destruct (quantise_arg a_kd (kd r) 9) as (kd_int & ? & ? & ?); [done|done|lia|].
  destruct (quantise_arg pos (position r) 16) as (pos_int & ? & ? & ?); [done|done|lia|].
  destruct (quantise_arg spd (speed r) 12) as (spd_int & ? & ? & ?); [done|done|lia|].
  destruct (quantise_arg tor (torque r) 12) as (tor_int & ? & ? & ?); [done|done|lia|].
  destruct (pvt_frame w fbk a_kp a_kd pos spd tor (kp_int, kd_int, pos_int, spd_int, tor_int) Hrdy) as (p & Hs & Hid & Hd).
  { fold r. unfold PvtQuantised. split_and!; try done; lia. }
  eexists p, _, _, _, _, _. split_and!; [exact Hs|exact Hid|exact Hd|done..].
Qed.

Lemma pvt_protocol_witness :
  exists p, w_sent (snd (PVTControl true (F32.of_Z 100) (F32.of_Z 2) (F32.of_Z 1) (F32.of_Z 700)
                           (F32.of_Z (-3)) (example_world tt [] []))) = [p].
Proof.
  destruct (pvt_protocol (example_world tt [] []) true (F32.of_Z 100) (F32.of_Z 2) (F32.of_Z 1)
    (F32.of_Z 700) (F32.of_Z (-3)) (example_ready _ _)) as (p & _ & _ & _ & _ & _ & Hs & _).
  - repeat (apply list.Forall_cons; split; [by split; vm_compute|]). by apply list.Forall_nil.
  - repeat (apply list.Forall_cons; split; [split; [split_and!; by vm_compute..|by vm_compute]|]). by apply list.Forall_nil.
  - exists p. exact Hs.
Defined.

(** What a decoder reads of these five numbers. *)
Example pvt_values :
  exists p, w_sent (snd (PVTControl true (F32.of_Z 100) (F32.of_Z 2) (F32.of_Z 1) (F32.of_Z 700)
                           (F32.of_Z (-3)) (example_world tt [] []))) = [p] /\
    DecodeFakePayload p (Some example_ranges) =
      FakePVTControl (UintToFloat 819 F32.zero (F32.of_Z 500) 12)
        (UintToFloat 204 F32.zero (F32.of_Z 5) 9)
        (UintToFloat 35388 (f32_lit (-25) 2) (f32_lit 25 2) 16)
        (UintToFloat 4095 (F32.of_Z (-18)) (F32.of_Z 18) 12)
        (UintToFloat 1842 (F32.of_Z (-30)) (F32.of_Z 30) 12).
Proof.
  destruct (pvt_frame (example_world tt [] []) true (F32.of_Z 100) (F32.of_Z 2) (F32.of_Z 1)
    (F32.of_Z 700) (F32.of_Z (-3)) (819, 204, 35388, 4095, 1842) (example_ready _ _)) as (p & Hs & _ & Hd).
  { repeat split; vm_compute; reflexivity. }
  exists p. split; [exact Hs | exact Hd].
Qed.
