(* ===== verification/RelayFrame.v ===== *)
(** * RelayFrame: plugins/adapter/utils/emr1/relay_frame.cc

    The EMR1 container format that carries CAN records over UDP and WebSocket
    links.  A [std::vector<uint8_t>] with a read offset is the list of the bytes
    from that offset on. *)
From stdpp Require Import base list numbers option.
From Stdlib Require Import ZArith Lia.
From S2P Require Import Prelude CFloat Types.
#[local] Open Scope Z_scope.
#[local] Open Scope cint_scope.

Inductive RelayFrameType := RelayToHelper | HelperToRelay.
#[export] Instance RelayFrameType_eq_dec : EqDecision RelayFrameType.
Proof. solve_decision. Defined.
Definition RelayFrameType_code (t : RelayFrameType) : Z :=
  match t with RelayToHelper => 1 | HelperToRelay => 2 end.

Record Frame := mkFrame { fr_type : RelayFrameType; fr_records : list MotorMessage }.

Definition kMagic : list Z := [69; 77; 82; 49].
Definition kHeaderSize : nat := 8.
Definition kRecordSize : nat := 18.
Definition kMaxRecordsPerFrame : nat := 255.

(** ** Writing *)

Definition WriteU16Le (value : Z) : list Z := [ u8 (value .& 255); u8 ((value ≫ 8) .& 255) ].
Definition WriteU32Le (value : Z) : list Z :=
  [ u8 (value .& 255); u8 ((value ≫ 8) .& 255); u8 ((value ≫ 16) .& 255);
    u8 ((value ≫ 24) .& 255) ].
Definition WriteI32Le (value : Z) : list Z := WriteU32Le (u32 value).

Definition EncodeRecord (msg : MotorMessage) : list Z :=
  WriteI32Le (bus_idx msg) ++ WriteU32Le (id (mdata msg)) ++
  [frame_flags (mdata msg); len (mdata msg)] ++ take 8 (data (mdata msg)).

Definition EncodeHeader (type : RelayFrameType) (count : Z) : list Z :=
  kMagic ++ [RelayFrameType_code type; u8 count] ++ WriteU16Le 0.

Definition EncodeFrame (type : RelayFrameType) (chunk : list MotorMessage) : list Z :=
  EncodeHeader type (Z.of_nat (length chunk)) ++ concat (map EncodeRecord chunk).

(** The [for] over [base]: one frame per 255 records; [fuel] above the number
    of records is enough, each frame taking at least one. *)
Fixpoint EncodeLoop (fuel : nat) (type : RelayFrameType) (records : list MotorMessage) : list Z :=
  match fuel, records with
  | S f, _ :: _ =>
      EncodeFrame type (take kMaxRecordsPerFrame records) ++
      EncodeLoop f type (drop kMaxRecordsPerFrame records)
  | _, _ => []
  end.

Definition EncodeRelayFrames (type : RelayFrameType) (records : list MotorMessage) : list Z :=
  match records with
  | [] => EncodeHeader type 0
  | _ => EncodeLoop (length records) type records
  end.

(** ** Reading *)

Definition ReadU8 (d : list Z) : Z * list Z := (byte_at d 0, drop 1 d).
Definition ReadU16Le (d : list Z) : Z * list Z := (le16 (byte_at d 0) (byte_at d 1), drop 2 d).
Definition ReadU32Le (d : list Z) : Z * list Z :=
  (le32 (byte_at d 0) (byte_at d 1) (byte_at d 2) (byte_at d 3), drop 4 d).
Definition ReadI32Le (d : list Z) : Z * list Z := let (v, d) := ReadU32Le d in (i32 v, d).

Fixpoint ReadBytes (n : nat) (d : list Z) : list Z * list Z :=
  match n with
  | O => ([], d)
  | S n => let (b, d) := ReadU8 d in let (bs, d) := ReadBytes n d in (b :: bs, d)
  end.

Definition DecodeRecord (d : list Z) : option (MotorMessage * list Z) :=
  let (bus, d) := ReadI32Le d in
  let (i, d) := ReadU32Le d in
  let (flags, d) := ReadU8 d in
  let (l, d) := ReadU8 d in
  if 8 <? l then None
  else
    let (bytes, d) := ReadBytes 8 d in
    Some (mkMsg bus (mkPack i flags l bytes), d).

Fixpoint DecodeRecords (count : nat) (d : list Z) : option (list MotorMessage * list Z) :=
  match count with
  | O => Some ([], d)
  | S n =>
      match DecodeRecord d with
      | None => None
      | Some (msg, d) =>
          match DecodeRecords n d with
          | None => None
          | Some (msgs, d) => Some (msg :: msgs, d)
          end
      end
  end.

(** One iteration of the [while]. *)
Definition DecodeFrame (d : list Z) : option (Frame * list Z) :=
  if (length d <? kHeaderSize)%nat then None
  else if negb (bool_decide (take 4 d = kMagic)) then None
  else
    let d := drop 4 d in
    let (type_byte, d) := ReadU8 d in
    if negb (type_byte =? RelayFrameType_code RelayToHelper) &&
       negb (type_byte =? RelayFrameType_code HelperToRelay) then None
    else
      let (count, d) := ReadU8 d in
      let (_, d) := ReadU16Le d in
      if (length d <? Z.to_nat count * kRecordSize)%nat then None
      else
        match DecodeRecords (Z.to_nat count) d with
        | None => None
        | Some (records, d) =>
            let type := if type_byte =? RelayFrameType_code RelayToHelper
                        then RelayToHelper else HelperToRelay in
            Some (mkFrame type records, d)
        end.

(** The outer [option] is [None] only when the fuel runs out. *)
Fixpoint DecodeLoop (fuel : nat) (d : list Z) : option (option (list Frame)) :=
  match d with
  | [] => Some (Some [])
  | _ =>
      match fuel with
      | O => None
      | S f =>
          match DecodeFrame d with
          | None => Some None
          | Some (frame, rest) =>
              match DecodeLoop f rest with
              | Some (Some frames) => Some (Some (frame :: frames))
              | r => r
              end
          end
      end
  end.

Definition DecodeRelayFrames (d : list Z) : option (list Frame) :=
  default None (DecodeLoop (length d) d).

(** ** Lemmas *)

Lemma ReadBytes_app bs d : ReadBytes (length bs) (bs ++ d) = (bs, d).
Proof.
  induction bs as [|b bs IH]; [done|]. cbn [length ReadBytes app]. unfold ReadU8.
  cbn [drop]. rewrite drop_0. by rewrite IH.
Qed.

Lemma ReadBytes_length n d : length (ReadBytes n d).1 = n /\ (ReadBytes n d).2 = drop n d.
Proof.
  revert d. induction n as [|n IH]; intros d; [done|]. cbn.
  destruct (IH (drop 1 d)) as [H1 H2]. destruct (ReadBytes n (drop 1 d)). cbn in *. subst.
  split; [by f_equal|]. by rewrite drop_drop.
Qed.

Lemma DecodeRecords_length n d rs rest :
  DecodeRecords n d = Some (rs, rest) -> length rs = n /\ rest = drop (n * kRecordSize) d.
Proof.
  revert d rs rest. induction n as [|n IH]; intros d rs rest; cbn.
  { by intros [= <- <-]. }
  unfold DecodeRecord. cbn.
  destruct (8 <? _); [done|].
  destruct (DecodeRecords n _) as [[ms d']|] eqn:E; [|done]. intros [= <- <-].
  apply IH in E as [<- ->]. split; [done|].
  rewrite ?drop_drop. reflexivity.
Qed.

(** Every iteration of the loop consumes at least a header. *)
Lemma DecodeFrame_progress d f rest :
  DecodeFrame d = Some (f, rest) ->
  length d = (kHeaderSize + length (fr_records f) * kRecordSize + length rest)%nat.
Proof.
  unfold DecodeFrame. destruct (_ <? _)%nat eqn:Hl; [done|]. apply Nat.ltb_ge in Hl.
  destruct (negb (bool_decide _)); [done|]. cbn -[kRecordSize Nat.ltb Z.to_nat Nat.mul].
  destruct (_ && _); [done|].
  destruct (_ <? _)%nat eqn:Hp; [done|]. apply Nat.ltb_ge in Hp.
  destruct (DecodeRecords _ _) as [[rs d']|] eqn:E; [|done]. intros [= <- <-].
  apply DecodeRecords_length in E as [Hlen ->]. cbn [fr_records]. rewrite Hlen.
  rewrite !drop_drop, !length_drop in *. unfold kHeaderSize in *. lia.
Qed.

Lemma DecodeLoop_total fuel d : (length d <= fuel)%nat -> is_Some (DecodeLoop fuel d).
Proof.
  revert d. induction fuel as [|f IH]; intros d Hd.
  - destruct d; [done|]. cbn in Hd. lia.
  - destruct d as [|b d]; [done|]. cbn [DecodeLoop].
    destruct (DecodeFrame (b :: d)) as [[fr rest]|] eqn:E; [|done].
    apply DecodeFrame_progress in E. unfold kHeaderSize in E.
    destruct (IH rest) as [r ->]; [lia|]. by destruct r.
Qed.

(** A message the C++ types can hold and a CAN frame can carry. *)
Definition message_wf (m : MotorMessage) : Prop :=
  -2147483648 <= bus_idx m < 2147483648 /\ pack_wf (mdata m) /\ len (mdata m) <= 8.

Lemma le32_WriteU32Le v rest :
  0 <= v < 4294967296 -> ReadU32Le (WriteU32Le v ++ rest) = (v, rest).
Proof.
  intros Hv. unfold ReadU32Le, WriteU32Le, byte_at. cbn [app nth drop].
  rewrite drop_0. f_equal.
  transitivity (le32 (u8 v) (u8 (v ≫ 8)) (u8 (v ≫ 16)) (u8 (v ≫ 24))); [|by apply le32_split].
  f_equal; cint_solve.
Qed.

Lemma DecodeRecord_Encode m rest :
  message_wf m -> DecodeRecord (EncodeRecord m ++ rest) = Some (m, rest).
Proof.
  intros (Hb & (Hi & Hf & Hl & H8 & Hby) & Hle). unfold EncodeRecord, DecodeRecord.
  unfold ReadI32Le, WriteI32Le. rewrite <- !app_assoc.
  rewrite le32_WriteU32Le by apply u32_range. cbn zeta. rewrite le32_WriteU32Le by done.
  cbn [app]. unfold ReadU8 at 1 2. unfold byte_at. cbn [nth drop]. rewrite ?drop_0.
  replace (8 <? len (mdata m)) with false by lia.
  rewrite (take_ge (data (mdata m))) by lia. rewrite <- H8 at 1. rewrite ReadBytes_app.
  destruct m as [b [i f l d]]. cbn in *. do 3 f_equal.
  unfold i32, u32. rewrite Zplus_mod_idemp_l. change (i32 b = b). by apply i32_small.
Qed.

Lemma DecodeRecords_Encode ms rest :
  Forall message_wf ms ->
  DecodeRecords (length ms) (concat (map EncodeRecord ms) ++ rest) = Some (ms, rest).
Proof.
  induction 1 as [|m ms Hm _ IH]; [done|]. cbn [length map concat DecodeRecords].
  rewrite <- app_assoc, DecodeRecord_Encode by done. by rewrite IH.
Qed.

Lemma EncodeRecord_length m : message_wf m -> length (EncodeRecord m) = kRecordSize.
Proof.
  intros (_ & (_ & _ & _ & H8 & _) & _). unfold EncodeRecord.
  rewrite !length_app, length_take, H8. done.
Qed.

Lemma concat_records_length ms :
  Forall message_wf ms ->
  length (concat (map EncodeRecord ms)) = (length ms * kRecordSize)%nat.
Proof.
  induction 1 as [|m ms Hm _ IH]; [done|]. cbn [map concat length].
  rewrite length_app, EncodeRecord_length, IH by done. done.
Qed.

Lemma DecodeFrame_Encode type ms rest :
  Forall message_wf ms -> (length ms <= kMaxRecordsPerFrame)%nat ->
  DecodeFrame (EncodeFrame type ms ++ rest) = Some (mkFrame type ms, rest).
Proof.
  intros Hms Hlen. unfold kMaxRecordsPerFrame in Hlen. unfold EncodeFrame, EncodeHeader, DecodeFrame.
  rewrite <- !app_assoc. cbn [app kMagic WriteU16Le length].
  rewrite (proj2 (Nat.ltb_ge _ kHeaderSize)) by (unfold kHeaderSize; cbn [length]; lia).
  cbn [take drop].
  rewrite bool_decide_true by done. cbn [negb].
  unfold ReadU8, ReadU16Le, byte_at. cbn [nth drop]. rewrite !drop_0.
  replace (negb _ && negb _) with false by by destruct type.
  rewrite u8_small by (unfold byte_ok; lia). rewrite Nat2Z.id.
  rewrite length_app, concat_records_length by done.
  rewrite (proj2 (Nat.ltb_ge _ _)) by lia.
  rewrite DecodeRecords_Encode by done. by destruct type.
Qed.

Lemma byte_at_hd_ok d k : Forall byte_ok d -> byte_ok (byte_at d k).
Proof.
  intros H. unfold byte_at. destruct (nth_in_or_default k d 0) as [Hin | ->].
  - rewrite list.Forall_forall in H. apply H. by apply list_elem_of_In.
  - unfold byte_ok; lia.
Qed.

Lemma ReadBytes_ok n d : Forall byte_ok d -> Forall byte_ok (ReadBytes n d).1.
Proof.
  revert d. induction n as [|n IH]; intros d Hd; cbn; [done|].
  specialize (IH (drop 1 d) (Forall_drop _ _ _ Hd)).
  destruct (ReadBytes n (drop 1 d)). cbn in *. constructor; [|done]. by apply byte_at_hd_ok.
Qed.

Lemma le32_range b0 b1 b2 b3 :
  byte_ok b0 -> byte_ok b1 -> byte_ok b2 -> byte_ok b3 -> 0 <= le32 b0 b1 b2 b3 < 4294967296.
Proof. intros. rewrite le32_eq by done. unfold byte_ok in *. lia. Qed.

Lemma DecodeRecord_wf d m rest :
  Forall byte_ok d -> DecodeRecord d = Some (m, rest) -> message_wf m.
Proof.
  intros Hd. unfold DecodeRecord, ReadI32Le, ReadU32Le, ReadU8.
  destruct (8 <? _) eqn:Hl; [done|].
  match goal with |- context [ReadBytes 8 ?x] => set (x8 := x) end.
  pose proof (ReadBytes_ok 8 x8 ltac:(subst x8; by repeat apply Forall_drop)) as Hb.
  destruct (ReadBytes_length 8 x8) as [H8 _].
  destruct (ReadBytes 8 x8) as [bs r]. cbn in Hb, H8. intros [= <- <-].
  unfold message_wf, pack_wf. cbn [bus_idx mdata id frame_flags len data].
  assert (forall d' n, Forall byte_ok d' -> byte_ok (byte_at d' n)) as Hok
    by (intros; by apply byte_at_hd_ok).
  split; [unfold i32; Z.to_euclidean_division_equations; lia|].
  split; [|lia].
  split; [apply le32_range; auto using Forall_drop|]. split; [auto using Forall_drop|].
  split; [auto using Forall_drop|]. done.
Qed.

Lemma DecodeRecords_wf n d ms rest :
  Forall byte_ok d -> DecodeRecords n d = Some (ms, rest) -> Forall message_wf ms.
Proof.
  revert d ms rest. induction n as [|n IH]; intros d ms rest Hd; cbn [DecodeRecords].
  { intros [= <- <-]. constructor. }
  destruct (DecodeRecord d) as [[m d']|] eqn:E; [|done].
  assert (Forall byte_ok d') as Hd'.
  { assert (DecodeRecords 1 d = Some ([m], d')) as E1 by (cbn [DecodeRecords]; by rewrite E).
    apply DecodeRecords_length in E1 as [_ ->]. by apply Forall_drop. }
  destruct (DecodeRecords n d') as [[ms' d'']|] eqn:E2; [|done]. intros [= <- <-].
  constructor; [exact (DecodeRecord_wf _ _ _ Hd E)|exact (IH _ _ _ Hd' E2)].
Qed.

Lemma DecodeFrame_wf d fr rest :
  Forall byte_ok d -> DecodeFrame d = Some (fr, rest) ->
  Forall message_wf (fr_records fr) /\ Forall byte_ok rest.
Proof.
  intros Hd. unfold DecodeFrame. destruct (_ <? _)%nat; [done|].
  destruct (negb (bool_decide _)); [done|]. cbn -[kRecordSize Nat.ltb Z.to_nat Nat.mul].
  destruct (_ && _); [done|]. destruct (_ <? _)%nat; [done|].
  match goal with |- context [DecodeRecords ?n ?x] => set (x0 := x); set (n0 := n) end.
  assert (Forall byte_ok x0) as H0 by (subst x0; by repeat apply Forall_drop).
  destruct (DecodeRecords n0 x0) as [[rs d']|] eqn:E; [|done]. intros [= <- <-].
  split; [by eapply DecodeRecords_wf|].
  apply DecodeRecords_length in E as [_ ->]. by apply Forall_drop.
Qed.

Lemma DecodeLoop_cons f d fr rest :
  d <> [] -> DecodeFrame d = Some (fr, rest) ->
  DecodeLoop (S f) d = match DecodeLoop f rest with
                       | Some (Some frames) => Some (Some (fr :: frames))
                       | r => r
                       end.
Proof. intros Hd Hf. destruct d; [done|]. cbn [DecodeLoop]. by rewrite Hf. Qed.

Lemma EncodeFrame_nonempty type ms rest : EncodeFrame type ms ++ rest <> [].
Proof. done. Qed.

(** Frames that only hold records of one type, 255 at most each. *)
Definition frames_of (type : RelayFrameType) (ms : list MotorMessage) (frames : list Frame) : Prop :=
  concat (map fr_records frames) = ms /\
  Forall (fun f => fr_type f = type /\ (length (fr_records f) <= 255)%nat) frames.

Lemma DecodeLoop_Encode fuel type ms :
  Forall message_wf ms -> (length ms <= fuel)%nat ->
  exists frames, frames_of type ms frames /\ (ms <> [] -> frames <> []) /\
    forall df, (length (EncodeLoop fuel type ms) <= df)%nat ->
      DecodeLoop df (EncodeLoop fuel type ms) = Some (Some frames).
Proof.
  revert ms. induction fuel as [|f IH]; intros ms Hms Hlen.
  { destruct ms; [|cbn in Hlen; lia]. exists []. split; [done|]. split; [done|]. by intros []. }
  destruct ms as [|m ms]; [exists []; split; [done|]; split; [done|]; by intros []|].
  cbn [EncodeLoop]. set (chunk := take _ _). set (tl := drop _ _).
  assert (chunk ++ tl = m :: ms) as Hsplit by apply take_drop.
  assert (length tl <= f)%nat as Htl.
  { subst tl. rewrite length_drop. unfold kMaxRecordsPerFrame. lia. }
  assert (length chunk <= kMaxRecordsPerFrame)%nat as Hc by (subst chunk; rewrite length_take; lia).
  rewrite <- Hsplit in Hms. apply Forall_app in Hms as [Hchunk Htlwf].
  destruct (IH tl Htlwf Htl) as (frames & [Hcat Hall] & _ & Hdec).
  exists (mkFrame type chunk :: frames). split; [|split; [done|]].
  - split; [cbn; by rewrite Hcat|]. by constructor.
  - intros [|df] Hdf; [exfalso; cbn in Hdf; lia|].
    rewrite (DecodeLoop_cons _ _ (mkFrame type chunk) (EncodeLoop f type tl));
      [|by apply EncodeFrame_nonempty|by apply DecodeFrame_Encode].
    rewrite Hdec; [done|]. rewrite length_app in Hdf.
    assert (1 <= length (EncodeFrame type chunk))%nat by (cbn; lia). lia.
Qed.

Lemma DecodeRelayFrames_Encode type ms :
  Forall message_wf ms ->
  exists frames, DecodeRelayFrames (EncodeRelayFrames type ms) = Some frames /\
    frames_of type ms frames /\ frames <> [].
Proof.
  intros Hms. unfold EncodeRelayFrames, DecodeRelayFrames. destruct ms as [|m ms].
  - exists [mkFrame type []]. split; [by destruct type|]. split; [|done].
    split; [done|]. apply list.Forall_singleton. split; [done|cbn; lia].
  - destruct (DecodeLoop_Encode (length (m :: ms)) type (m :: ms) Hms (Nat.le_refl _))
      as (frames & Hf & Hne & Hdec).
    exists frames. rewrite Hdec by lia. split; [done|]. split; [done|]. by apply Hne.
Qed.

Lemma EncodeRelayFrames_single type ms :
  (length ms <= kMaxRecordsPerFrame)%nat -> EncodeRelayFrames type ms = EncodeFrame type ms.
Proof.
  intros Hlen. unfold EncodeRelayFrames. destruct ms as [|m ms]; [done|].
  set (l := m :: ms) in *. cbn [length]. subst l. cbn [EncodeLoop length].
  rewrite (take_ge (m :: ms)), (drop_ge (m :: ms)) by done.
  destruct (length ms); cbn [EncodeLoop]; apply app_nil_r.
Qed.

Lemma EncodeRecord_bytes m : message_wf m -> Forall byte_ok (EncodeRecord m).
Proof.
  intros (_ & (_ & Hf & Hl & H8 & Hb) & _). unfold EncodeRecord.
  repeat (apply Forall_app; split); [| | |by apply Forall_take];
    unfold WriteI32Le, WriteU32Le; bytes_ok.
Qed.

Lemma EncodeFrame_bytes type ms : Forall message_wf ms -> Forall byte_ok (EncodeFrame type ms).
Proof.
  intros Hms. unfold EncodeFrame, EncodeHeader. apply Forall_app; split.
  - unfold kMagic, WriteU16Le. destruct type; cbn [app RelayFrameType_code]; bytes_ok.
  - induction Hms as [|m ms Hm _ IH]; cbn [map concat]; [constructor|].
    apply Forall_app; split; [by apply EncodeRecord_bytes|done].
Qed.

Lemma EncodeFrame_length type ms :
  Forall message_wf ms -> length (EncodeFrame type ms) = (8 + length ms * kRecordSize)%nat.
Proof. intros H. unfold EncodeFrame. rewrite length_app, concat_records_length by done. done. Qed.

(** ** Theorems *)

(** C19: EMR1 round trip: any list of CAN records, of whatever length, is encoded
    as a non-empty sequence of frames of the given type, each of at most 255
    records, that decodes back to exactly the same records in order. *)
Theorem relay_roundtrip type ms :
  Forall message_wf ms ->
  exists frames, DecodeRelayFrames (EncodeRelayFrames type ms) = Some frames /\
    frames_of type ms frames /\ frames <> [].
Proof. apply DecodeRelayFrames_Encode. Qed.

Lemma relay_roundtrip_witness :
  exists frames, DecodeRelayFrames (EncodeRelayFrames RelayToHelper
    [mkMsg 3 (make_pack 1 8 [1; 2; 3; 4; 5; 6; 7; 255])]) = Some frames /\ frames <> [].
Proof.
  destruct (relay_roundtrip RelayToHelper [mkMsg 3 (make_pack 1 8 [1; 2; 3; 4; 5; 6; 7; 255])])
    as (fs & H & _ & Hne).
  - repeat constructor; unfold byte_ok; cbn; lia.
  - exists fs. split; [exact H | exact Hne].
Defined.

(** Decoding untrusted bytes is total and only lets valid records out: on any
    byte string the loop ends within its fuel, and every record of an accepted
    string is a storable CAN frame of at most eight bytes; the string is then
    exactly the headers and the records, with nothing left over. *)
Lemma relay_decode_safe (d : list Z) :
  Forall byte_ok d ->
  DecodeLoop (length d) d <> None /\
  forall frames, DecodeRelayFrames d = Some frames ->
    Forall (fun f => Forall message_wf (fr_records f)) frames /\
    length d = (length frames * kHeaderSize +
                length (concat (map fr_records frames)) * kRecordSize)%nat.
Proof.
  intros Hd. split.
  { destruct (DecodeLoop_total (length d) d (Nat.le_refl _)) as [r ->]. done. }
  unfold DecodeRelayFrames. generalize (length d) at 1. intros fuel. revert d Hd.
  induction fuel as [|fuel IH]; intros d Hd frames.
  { destruct d; [|done]. by intros [= <-]. }
  destruct d as [|b d]; [by intros [= <-]|]. cbn [DecodeLoop].
  destruct (DecodeFrame (b :: d)) as [[fr rest]|] eqn:E; [|done].
  pose proof (DecodeFrame_progress _ _ _ E) as Hlen.
  destruct (DecodeFrame_wf _ _ _ Hd E) as [Hfr Hrest].
  destruct (DecodeLoop fuel rest) as [[fs|]|] eqn:Er; try done. intros [= <-].
  destruct (IH rest Hrest fs) as [Hfs Hl]; [by rewrite Er|].
  split; [by constructor|]. cbn [length map concat]. rewrite length_app. cbn [length] in Hlen.
  unfold kHeaderSize, kRecordSize in *. lia.
Qed.

Lemma relay_decode_safe_witness :
  DecodeLoop 8 [69; 77; 82; 49; 2; 0; 0; 0] <> None.
Proof.
  apply (relay_decode_safe [69; 77; 82; 49; 2; 0; 0; 0]).
  repeat constructor; unfold byte_ok; lia.
Defined.
