(* ===== verification/EthernetProtocol.v ===== *)
(** * EthernetProtocol: plugins/adapter/ethernet/protocol

    The gateway payload (gateway_payload.cc), the IPv4/UDP framing with its
    checksums (ipv4.cc) and the management datagram (gateway_wire.h,
    management_protocol.cc).  A buffer is the list of its bytes, a
    [std::string] the list of its character codes; [None] is a thrown
    [std::invalid_argument] for an encoder or parser and [std::nullopt] for a
    decoder. *)
From stdpp Require Import base list numbers option.
From Stdlib Require Import ZArith Lia.
From S2P Require Import Prelude CFloat Types RelayFrame.
#[local] Open Scope Z_scope.
#[local] Open Scope cint_scope.

(** ** gateway_payload.cc *)

Definition kMaxPayloadMessages : nat := 80.

Definition Valid (message : MotorMessage) : bool :=
  let m := mdata message in
  let flag bit := negb (frame_flags m .& bit =? 0) in
  (0 <=? bus_idx message) && (bus_idx message <? 8) && (len m <=? 8) &&
  (frame_flags m .& 240 =? 0) &&
  (id m <=? (if flag 1 then 536870911 else 2047)) &&
  (negb (flag 4) || flag 2) && negb (flag 8 && flag 2).

Definition EncodePayload (messages : list MotorMessage) : option (list Z) :=
  if (kMaxPayloadMessages <? length messages)%nat || negb (forallb Valid messages) then None
  else Some (EncodeRelayFrames RelayToHelper messages).

(** The loop over the decoded frames. *)
Fixpoint CollectFrames (frames : list Frame) (messages : list MotorMessage)
    : option (list MotorMessage) :=
  match frames with
  | [] => Some messages
  | f :: rest =>
      if negb (bool_decide (fr_type f = HelperToRelay)) ||
         (kMaxPayloadMessages <? length messages + length (fr_records f))%nat ||
         negb (forallb Valid (fr_records f)) then None
      else CollectFrames rest (messages ++ fr_records f)
  end.

Definition DecodePayload (d : list Z) : option (list MotorMessage) :=
  if (length d <? 8)%nat || (1448 <? length d)%nat then None
  else match DecodeRelayFrames d with
       | None => None
       | Some frames => CollectFrames frames []
       end.

(** ** ipv4.cc: checksums *)

Definition Read16 (d : list Z) (o : nat) : Z := u16 ((byte_at d o ≪ 8) .| byte_at d (o + 1)).
Definition Write16 (n : Z) : list Z := [ u8 (n ≫ 8); u8 n ].

Fixpoint Sum (p : list Z) (sum : Z) : Z :=
  match p with
  | b0 :: b1 :: rest => Sum rest (u32 (sum + u16 ((b0 ≪ 8) .| b1)))
  | [b] => u32 (sum + (b ≪ 8))
  | [] => sum
  end.

(** [while (sum >> 16) ...]: two rounds bring any 32-bit sum below [2^16]
    ([Fold_done]). *)
Fixpoint Fold (fuel : nat) (sum : Z) : Z :=
  match fuel with
  | O => sum
  | S f => if sum ≫ 16 =? 0 then sum else Fold f (u32 ((sum .& 65535) + (sum ≫ 16)))
  end.
Definition Finish (sum : Z) : Z := u16 (Z.lnot (Fold 3 sum)).

(** ** ipv4.cc: text *)

Definition is_digit (c : Z) : bool := (48 <=? c) && (c <=? 57).
Definition dot : Z := 46.

(** [text.find(c, begin)] with the text before and after it, or [None] for npos. *)
Fixpoint split_at (c : Z) (text : list Z) : option (list Z * list Z) :=
  match text with
  | [] => None
  | x :: r =>
      if x =? c then Some ([], r)
      else match split_at c r with
           | Some (a, b) => Some (x :: a, b)
           | None => None
           end
  end.

(** [std::stoul] on a string of digits. *)
Definition stoul_digits (part : list Z) : Z := fold_left (fun v c => v * 10 + (c - 48)) part 0.

Definition ParsePart (part : list Z) : option Z :=
  if bool_decide (part = []) || (3 <? length part)%nat || negb (forallb is_digit part) ||
     ((1 <? length part)%nat && (hd 0 part =? 48)) then None
  else
    let value := stoul_digits part in
    if 255 <? value then None else Some (u8 value).

(** The four iterations; [last] is [i = 3]. *)
Fixpoint ParseParts (n : nat) (text : list Z) : option (list Z) :=
  match n with
  | O => None
  | S m =>
      let '(part, found) := match split_at dot text with
                            | Some (a, b) => (a, Some b)
                            | None => (text, None)
                            end in
      match ParsePart part with
      | None => None
      | Some v =>
          match m, found with
          | O, None => Some [v]
          | S _, Some rest =>
              match ParseParts m rest with
              | Some vs => Some (v :: vs)
              | None => None
              end
          | _, _ => None
          end
      end
  end.
Definition ParseIPv4 (text : list Z) : option (list Z) := ParseParts 4 text.

(** [std::to_string] of a byte. *)
Definition byte_to_string (b : Z) : list Z :=
  if b <? 10 then [48 + b]
  else if b <? 100 then [48 + b / 10; 48 + b mod 10]
  else [48 + b / 100; 48 + b / 10 mod 10; 48 + b mod 10].

Definition FormatIPv4 (b : list Z) : list Z :=
  byte_to_string (byte_at b 0) ++ [dot] ++ byte_to_string (byte_at b 1) ++ [dot] ++
  byte_to_string (byte_at b 2) ++ [dot] ++ byte_to_string (byte_at b 3).

Record Endpoint := mkEndpoint { ep_interface : list Z; ep_address : list Z; ep_port : Z }.

Definition ParsePort (port : list Z) : option Z :=
  if bool_decide (port = []) || (5 <? length port)%nat || negb (forallb is_digit port) then None
  else
    let value := stoul_digits port in
    if (value =? 0) || (65535 <? value) then None else Some (u16 value).

(** ["0.0.0.0"], ["255.255.255.255"] and ["192.168.100.254"] are compared as
    text; a text that [ParseIPv4] accepts is canonical, so as addresses. *)
Definition forbidden_address (address : list Z) (bytes : list Z) : bool :=
  (byte_at bytes 0 .& 240 =? 224) || bool_decide (address = FormatIPv4 [0; 0; 0; 0]) ||
  bool_decide (address = FormatIPv4 [255; 255; 255; 255]) ||
  bool_decide (address = FormatIPv4 [192; 168; 100; 254]).

Definition ParseEndpoint (text : list Z) : option Endpoint :=
  match split_at 64 text with
  | None => None
  | Some (interface_name, rest) =>
      if bool_decide (interface_name = []) || existsb (fun c => c =? 0) text then None
      else
        let '(address, port) := match split_at 44 rest with
                                | Some (a, p) => (a, Some p)
                                | None => (rest, None)
                                end in
        match ParseIPv4 address with
        | None => None
        | Some bytes =>
            if forbidden_address address bytes then None
            else match port with
                 | None => Some (mkEndpoint interface_name address 5000)
                 | Some p =>
                     match ParsePort p with
                     | None => None
                     | Some value => Some (mkEndpoint interface_name address value)
                     end
                 end
        end
  end.

(** ** ipv4.cc: packets *)

Record Route := mkRoute {
  local_mac : list Z; remote_mac : list Z;
  local_ip : list Z; remote_ip : list Z;      (* the four bytes, network order *)
  local_port : Z; remote_port : Z }.

Definition route_wf (r : Route) : Prop :=
  length (local_mac r) = 6%nat /\ length (remote_mac r) = 6%nat /\
  length (local_ip r) = 4%nat /\ length (remote_ip r) = 4%nat /\
  Forall byte_ok (local_mac r) /\ Forall byte_ok (remote_mac r) /\
  Forall byte_ok (local_ip r) /\ Forall byte_ok (remote_ip r) /\
  0 <= local_port r < 65536 /\ 0 <= remote_port r < 65536.

Definition ip_header (r : Route) (total checksum : Z) : list Z :=
  [69; 0] ++ Write16 total ++ [0; 0] ++ Write16 16384 ++ [64; 17] ++ Write16 checksum ++
  local_ip r ++ remote_ip r.

Definition udp_header (r : Route) (length checksum : Z) : list Z :=
  Write16 (local_port r) ++ Write16 (remote_port r) ++ Write16 length ++ Write16 checksum.

Definition EncodePacket (r : Route) (payload : list Z) : option (list Z) :=
  if (1448 <? length payload)%nat then None
  else
    let n := Z.of_nat (length payload) in
    let total := u16 (28 + n) in
    let ip := ip_header r total (Finish (Sum (ip_header r total 0) 0)) in
    let udp_length := u16 (8 + n) in
    let pseudo := u32 (Sum (local_ip r ++ remote_ip r) 0 + 17 + udp_length) in
    let checksum := Finish (Sum (udp_header r udp_length 0 ++ payload) pseudo) in
    let udp := udp_header r udp_length (if checksum =? 0 then 65535 else checksum) in
    Some (remote_mac r ++ local_mac r ++ Write16 2048 ++ ip ++ udp ++ payload).

Definition slice (d : list Z) (o n : nat) : list Z := take n (drop o d).

Definition DecodePacket (r : Route) (d : list Z) : option (list MotorMessage) :=
  if (length d <? 42)%nat || negb (bool_decide (slice d 0 6 = local_mac r)) ||
     negb (bool_decide (slice d 6 6 = remote_mac r)) || negb (Read16 d 12 =? 2048) then None
  else
    let ip := drop 14 d in
    let header := ((byte_at ip 0 .& 15) * 4) in
    let h := Z.to_nat header in
    if negb (byte_at ip 0 ≫ 4 =? 4) || (header <? 20) || (length d <? 14 + h + 8)%nat ||
       negb (byte_at ip 9 =? 17) || negb (Read16 ip 6 .& 16383 =? 0) ||
       negb (Finish (Sum (slice ip 0 h) 0) =? 0) ||
       negb (bool_decide (slice ip 12 4 = remote_ip r)) ||
       negb (bool_decide (slice ip 16 4 = local_ip r)) then None
    else
      let total := Read16 ip 2 in
      if (total <? header + 8) || (Z.of_nat (length d) <? 14 + total) then None
      else
        let udp := drop h ip in
        let udp_length := Read16 udp 4 in
        if (udp_length <? 8) || negb (udp_length =? total - header) ||
           negb (Read16 udp 0 =? remote_port r) || negb (Read16 udp 2 =? local_port r) then None
        else
          let pseudo := u32 (Sum (slice ip 12 8) 0 + 17 + udp_length) in
          if negb (Read16 udp 6 =? 0) &&
             negb (Finish (Sum (slice udp 0 (Z.to_nat udp_length)) pseudo) =? 0) then None
          else DecodePayload (slice udp 8 (Z.to_nat (udp_length - 8))).

(** ** Management datagrams *)

Definition GW_PACKET_SIZE : Z := 64.
Definition gw_get32 (d : list Z) (o : nat) : Z :=
  le32 (byte_at d o) (byte_at d (o + 1)) (byte_at d (o + 2)) (byte_at d (o + 3)).
Definition gw_put32 (v : Z) : list Z := [ u8 v; u8 (v ≫ 8); u8 (v ≫ 16); u8 (v ≫ 24) ].
Definition kManagementMagic : list Z := [69; 77; 77; 49].

(** [id] is [nullptr] ([None]) or sixteen bytes. *)
Definition gw_packet (type request : Z) (id : option (list Z)) : list Z :=
  kManagementMagic ++ [1; type; 64; 0] ++ gw_put32 request ++
  match id with Some b => take 16 b | None => replicate 16 0 end ++ replicate 36 0.

Definition gw_packet_valid (p : list Z) : bool :=
  (Z.of_nat (length p) =? GW_PACKET_SIZE) && bool_decide (take 4 p = kManagementMagic) &&
  (byte_at p 4 =? 1) && (1 <=? byte_at p 5) && (byte_at p 5 <=? 9) &&
  (byte_at p 6 =? GW_PACKET_SIZE) && (byte_at p 7 =? 0).

Record CanError := mkCanError {
  ce_sequence : Z; ce_uptime : Z; ce_channel : Z; ce_flags : Z; ce_psr : Z; ce_ecr : Z;
  ce_count : Z; ce_merged : Z; ce_recovered : Z }.

Definition DecodeCanError (d : list Z) (identity : list Z) : option CanError :=
  if negb (gw_packet_valid d) || negb (byte_at d 5 =? 5) ||
     negb (bool_decide (slice d 12 16 = identity)) || (8 <=? gw_get32 d 32) then None
  else Some (mkCanError (gw_get32 d 8) (gw_get32 d 28) (gw_get32 d 32) (gw_get32 d 36)
               (gw_get32 d 40) (gw_get32 d 44) (gw_get32 d 48) (gw_get32 d 52) (gw_get32 d 56)).

(** ** One's-complement sums *)

Fixpoint wsum (p : list Z) : Z :=
  match p with
  | b0 :: b1 :: rest => b0 * 256 + b1 + wsum rest
  | [b] => b * 256
  | [] => 0
  end.

(** Induction on lists two elements at a time. *)
Lemma list_pair_ind (P : list Z -> Prop) :
  P [] -> (forall b, P [b]) -> (forall b0 b1 r, P r -> P (b0 :: b1 :: r)) -> forall l, P l.
Proof.
  intros H0 H1 H2. fix IH 1. intros [|b0 [|b1 r]]; [done|apply H1|]. apply H2, IH.
Qed.

Lemma wsum_bound p : Forall byte_ok p -> 0 <= wsum p <= 65536 * Z.of_nat (length p).
Proof.
  induction p as [|b|b0 b1 r IH] using list_pair_ind; intros Hp; cbn [wsum length].
  - lia.
  - apply Forall_cons_1 in Hp as [Hb _]. unfold byte_ok in Hb. lia.
  - apply Forall_cons_1 in Hp as [H0 Hp]. apply Forall_cons_1 in Hp as [H1 Hp].
    specialize (IH Hp). unfold byte_ok in *. lia.
Qed.

Lemma Sum_wsum p sum :
  Forall byte_ok p -> 0 <= sum -> sum + 65536 * Z.of_nat (length p) < 4294967296 ->
  Sum p sum = sum + wsum p.
Proof.
  revert sum. induction p as [|b|b0 b1 r IH] using list_pair_ind; intros sum Hp Hs Hb;
    cbn [Sum wsum length] in *.
  - lia.
  - apply Forall_cons_1 in Hp as [H0 _]. unfold byte_ok in H0.
    rewrite Z.shiftl_mul_pow2 by lia. rewrite u32_small by lia. lia.
  - apply Forall_cons_1 in Hp as [H0 Hp]. apply Forall_cons_1 in Hp as [H1 Hp].
    change ((b0 ≪ 8) .| b1) with (be16 b0 b1). rewrite be16_eq by done.
    unfold byte_ok in *. rewrite (u16_small (b0 * 256 + b1)) by lia.
    rewrite u32_small by lia. rewrite IH by (done || lia). lia.
Qed.

Lemma wsum_app p q : Nat.Even (length p) -> wsum (p ++ q) = wsum p + wsum q.
Proof.
  induction p as [|b|b0 b1 r IH] using list_pair_ind; intros He; cbn [wsum app].
  - done.
  - destruct He as [k Hk]. cbn in Hk. lia.
  - rewrite IH; [lia|]. destruct He as [k Hk]. exists (k - 1)%nat. cbn in Hk. lia.
Qed.

Lemma Write16_wsum n : 0 <= n < 65536 -> wsum (Write16 n) = n.
Proof. intros. unfold Write16. cbn [wsum]. cint_solve. Qed.

Lemma Fold_done s :
  0 <= s < 4294967296 ->
  0 <= Fold 3 s < 65536 /\ (Fold 3 s) mod 65535 = s mod 65535 /\ (Fold 3 s = 0 <-> s = 0).
Proof.
  intros Hs.
  assert (Hstep : forall x, 0 <= x < 4294967296 ->
            u32 ((x .& 65535) + (x ≫ 16)) = x mod 65536 + x / 65536 /\ x ≫ 16 = x / 65536).
  { intros x Hx. bits_arith. split; Z.to_euclidean_division_equations; lia. }
  cbn [Fold].
  destruct (Hstep s Hs) as [-> ->].
  destruct (s / 65536 =? 0) eqn:E0; [split_and!; Z.to_euclidean_division_equations; lia|].
  set (s1 := s mod 65536 + s / 65536).
  assert (0 <= s1 <= 131070) as H1 by (subst s1; Z.to_euclidean_division_equations; lia).
  assert (s1 mod 65535 = s mod 65535 /\ 0 < s1) as [Hm1 Hp1]
    by (subst s1; split; Z.to_euclidean_division_equations; lia).
  clearbody s1. destruct (Hstep s1) as [-> ->]; [lia|].
  destruct (s1 / 65536 =? 0) eqn:E1; [split_and!; Z.to_euclidean_division_equations; lia|].
  set (s2 := s1 mod 65536 + s1 / 65536).
  assert (0 < s2 <= 65535 /\ s2 mod 65535 = s1 mod 65535) as [H2 Hm2]
    by (subst s2; split; Z.to_euclidean_division_equations; lia).
  clearbody s2. destruct (Hstep s2) as [-> ->]; [lia|].
  replace (s2 / 65536 =? 0) with true by (symmetry; apply Z.eqb_eq, Z.div_small; lia).
  split_and!; first [lia | Z.to_euclidean_division_equations; lia].
Qed.

Lemma Finish_eq s : 0 <= s < 4294967296 -> Finish s = 65535 - Fold 3 s.
Proof.
  intros Hs. destruct (Fold_done s Hs) as (Hf & _). unfold Finish, Z.lnot, u16.
  Z.to_euclidean_division_equations. lia.
Qed.

(** A sum completed by its own checksum folds to all ones. *)
Lemma Finish_checksum s c :
  0 <= s -> s + 65535 < 4294967296 -> c = Finish s \/ (Finish s = 0 /\ c = 65535) ->
  0 <= c < 65536 /\ Finish (s + c) = 0.
Proof.
  intros Hs Hb Hc. assert (0 <= s < 4294967296) as Hs' by lia.
  destruct (Fold_done s Hs') as (Hf & Hm & Hz). pose proof (Finish_eq s Hs') as Hfe.
  assert (0 <= c < 65536 /\ (s + c) mod 65535 = 0 /\ s + c <> 0) as (Hcr & Hsc & Hne).
  { assert (c = 65535 - Fold 3 s \/ (Fold 3 s = 65535 /\ c = 65535)) as Hc' by lia.
    split; [lia|]. split; [|lia].
    assert (s mod 65535 = Fold 3 s mod 65535) as Hm' by done.
    destruct Hc' as [-> | [HF ->]].
    - rewrite Zplus_mod, Hm', <- Zplus_mod. replace (_ + _) with 65535 by lia. done.
    - rewrite Zplus_mod, Hm', HF. done. }
  split; [done|]. rewrite Finish_eq by lia.
  destruct (Fold_done (s + c)) as (Hf2 & Hm2 & Hz2); [lia|].
  rewrite Hsc in Hm2.
  assert (Fold 3 (s + c) <> 0) by tauto.
  Z.to_euclidean_division_equations. lia.
Qed.

(** ** Payload lemmas *)

Lemma CollectFrames_ok frames acc ms :
  frames_of HelperToRelay ms frames ->
  (length acc + length ms <= kMaxPayloadMessages)%nat -> forallb Valid ms = true ->
  CollectFrames frames acc = Some (acc ++ ms).
Proof.
  revert acc ms. induction frames as [|f fs IH]; intros acc ms [Hc Hall] Hlen Hv; cbn in Hc.
  - subst ms. cbn. by rewrite app_nil_r.
  - apply Forall_cons_1 in Hall as [[Ht _] Hall]. subst ms. cbn [CollectFrames].
    rewrite length_app in Hlen. rewrite forallb_app in Hv. apply andb_true_iff in Hv as [Hv1 Hv2].
    rewrite bool_decide_true by done. rewrite Hv1.
    replace (_ <? _)%nat with false by (symmetry; apply Nat.ltb_ge; lia). cbn [negb orb].
    rewrite (IH _ (concat (map fr_records fs))); [by rewrite <- app_assoc|done|rewrite length_app; lia|done].
Qed.

Lemma DecodePayload_Encode ms :
  Forall message_wf ms -> forallb Valid ms = true -> (length ms <= kMaxPayloadMessages)%nat ->
  DecodePayload (EncodeRelayFrames HelperToRelay ms) = Some ms.
Proof.
  intros Hwf Hv Hlen. unfold kMaxPayloadMessages in Hlen. unfold DecodePayload.
  destruct (DecodeRelayFrames_Encode HelperToRelay ms Hwf) as (fs & Hd & Hf & _).
  rewrite EncodeRelayFrames_single in * by (unfold kMaxRecordsPerFrame; lia).
  rewrite EncodeFrame_length by done. unfold kRecordSize.
  rewrite !(proj2 (Nat.ltb_ge _ _)) by lia. cbn [orb]. rewrite Hd.
  by rewrite (CollectFrames_ok _ [] ms Hf).
Qed.

(** ** Packet round trip *)

Definition mirror (r : Route) : Route :=
  mkRoute (remote_mac r) (local_mac r) (remote_ip r) (local_ip r) (remote_port r) (local_port r).

Lemma ip_header_bytes r t c : route_wf r -> Forall byte_ok (ip_header r t c).
Proof.
  intros (_ & _ & _ & _ & _ & _ & Hl & Hr & _). unfold ip_header, Write16.
  repeat (apply Forall_app; split); try done; bytes_ok.
Qed.

Lemma udp_header_bytes r t c : Forall byte_ok (udp_header r t c).
Proof. unfold udp_header, Write16. repeat (apply Forall_app; split); bytes_ok. Qed.

(** The checksum fields only add their value to the sums. *)
Lemma ip_header_wsum r t c : 0 <= c < 65536 -> wsum (ip_header r t c) = wsum (ip_header r t 0) + c.
Proof.
  intros Hc. pose proof (Write16_wsum c Hc) as Hw. unfold ip_header, Write16 in *.
  cbn [app wsum] in *. change (u8 (0 ≫ 8)) with 0. change (u8 0) with 0. lia.
Qed.

Lemma udp_header_wsum r n c p :
  0 <= c < 65536 -> wsum (udp_header r n c ++ p) = wsum (udp_header r n 0 ++ p) + c.
Proof.
  intros Hc. pose proof (Write16_wsum c Hc) as Hw. unfold udp_header, Write16 in *.
  cbn [app wsum] in *. change (u8 (0 ≫ 8)) with 0. change (u8 0) with 0. lia.
Qed.

Lemma Read16_Write16 n rest : 0 <= n < 65536 -> Read16 (Write16 n ++ rest) 0 = n.
Proof. intros. unfold Read16, Write16, byte_at. cbn [app nth Nat.add]. cint_solve. Qed.

Lemma ip_checksum_ok r t :
  route_wf r ->
  let c := Finish (Sum (ip_header r t 0) 0) in
  0 <= c < 65536 /\ Finish (Sum (ip_header r t c) 0) = 0.
Proof.
  intros Hr. cbn zeta.
  assert (forall c, length (ip_header r t c) = 20%nat) as Hlen.
  { intros c. destruct Hr as (_ & _ & H1 & H2 & _). unfold ip_header. rewrite !length_app, H1, H2. done. }
  assert (forall c, Sum (ip_header r t c) 0 = wsum (ip_header r t c)) as HS.
  { intros c. rewrite Sum_wsum; [lia|by apply ip_header_bytes|lia|rewrite Hlen; lia]. }
  rewrite !HS.
  pose proof (wsum_bound _ (ip_header_bytes r t 0 Hr)) as Hb. rewrite Hlen in Hb.
  destruct (Finish_checksum (wsum (ip_header r t 0)) (Finish (wsum (ip_header r t 0))))
    as [Hc HF]; [lia|lia|by left|].
  split; [done|]. by rewrite ip_header_wsum.
Qed.

Lemma udp_checksum_ok r n p pseudo :
  Forall byte_ok p -> (length p <= 1448)%nat -> 0 <= pseudo < 16777216 ->
  let c0 := Finish (Sum (udp_header r n 0 ++ p) pseudo) in
  let c := if c0 =? 0 then 65535 else c0 in
  0 <= c < 65536 /\ Finish (Sum (udp_header r n c ++ p) pseudo) = 0.
Proof.
  intros Hp Hlen Hps. cbn zeta.
  assert (forall c, length (udp_header r n c ++ p) = (8 + length p)%nat) as Hl
    by (intros c; rewrite length_app; done).
  assert (forall c, Forall byte_ok (udp_header r n c ++ p)) as Hby
    by (intros c; apply Forall_app; split; [apply udp_header_bytes|done]).
  assert (forall c, Sum (udp_header r n c ++ p) pseudo = pseudo + wsum (udp_header r n c ++ p)) as HS.
  { intros c. apply Sum_wsum; [done|lia|rewrite Hl; lia]. }
  rewrite !HS. pose proof (wsum_bound _ (Hby 0)) as Hb. rewrite Hl in Hb.
  set (s := pseudo + wsum (udp_header r n 0 ++ p)).
  destruct (Finish_checksum s (if Finish s =? 0 then 65535 else Finish s)) as [Hc HF];
    [lia|lia|destruct (Finish s =? 0) eqn:E; [right|left]; split || idtac; lia || done|].
  split; [done|]. rewrite udp_header_wsum by done. by rewrite Z.add_assoc.
Qed.

Lemma byte_at_app_r a b k : byte_at (a ++ b) (length a + k) = byte_at b k.
Proof. unfold byte_at. rewrite app_nth2 by lia. f_equal. lia. Qed.

(** The network layers are transparent: a board's packet reaches the payload
    decoder with exactly the payload the board sent. *)
Lemma DecodePacket_Encode r payload d :
  route_wf r -> Forall byte_ok payload ->
  EncodePacket (mirror r) payload = Some d -> DecodePacket r d = DecodePayload payload.
Proof.
  intros Hr Hp. unfold EncodePacket.
  destruct (1448 <? length payload)%nat eqn:Hlen; [done|]. apply Nat.ltb_ge in Hlen.
  assert (route_wf (mirror r)) as Hmr by (unfold route_wf in *; cbn; tauto).
  set (total := u16 (28 + Z.of_nat (length payload))).
  assert (total = 28 + Z.of_nat (length payload)) as Ht by (apply u16_small; lia).
  set (n := u16 (8 + Z.of_nat (length payload))).
  assert (n = 8 + Z.of_nat (length payload)) as Hn by (apply u16_small; lia).
  destruct (ip_checksum_ok (mirror r) total Hmr) as [Hc1 HF1].
  set (c1 := Finish (Sum (ip_header (mirror r) total 0) 0)) in *. clearbody c1.
  set (ips := local_ip (mirror r) ++ remote_ip (mirror r)).
  set (pseudo := u32 (Sum ips 0 + 17 + n)).
  assert (0 <= pseudo < 16777216) as Hps.
  { destruct Hmr as (_ & _ & H1 & H2 & _ & _ & H3 & H4 & _).
    assert (Forall byte_ok ips) as Hips by by apply Forall_app.
    assert (length ips = 8%nat) as Hl8 by (subst ips; rewrite length_app; lia).
    pose proof (wsum_bound ips Hips) as Hb. rewrite Hl8 in Hb.
    subst pseudo. rewrite Sum_wsum by (done || lia || rewrite Hl8; lia).
    rewrite u32_small; lia. }
  destruct (udp_checksum_ok (mirror r) n payload pseudo Hp Hlen Hps) as [Hc2 HF2].
  set (c2 := if Finish (Sum (udp_header (mirror r) n 0 ++ payload) pseudo) =? 0 then _ else _) in *.
  clearbody c2. intros [= <-].
  destruct r as [lm rm lip rip lp rp].
  destruct Hr as (L1 & L2 & L3 & L4 & _ & _ & _ & _ & Hlp & Hrp). cbn in *.
  destruct lm as [|m0 [|m1 [|m2 [|m3 [|m4 [|m5 [|]]]]]]]; try discriminate L1.
  destruct rm as [|r0 [|r1 [|r2 [|r3 [|r4 [|r5 [|]]]]]]]; try discriminate L2.
  destruct lip as [|i0 [|i1 [|i2 [|i3 [|]]]]]; try discriminate L3.
  destruct rip as [|j0 [|j1 [|j2 [|j3 [|]]]]]; try discriminate L4.
  unfold ip_header, udp_header in *. cbn [app local_ip remote_ip local_port remote_port mirror] in *.
  unfold Write16 in *. cbn [app] in *.
  assert (Hrd : forall x, 0 <= x < 65536 -> u16 ((u8 (x ≫ 8) ≪ 8) .| u8 x) = x)
    by (intros x Hx; apply (Read16_Write16 x [] Hx)).
  match goal with |- DecodePacket _ ?x = _ => set (D := x) end.
  assert (length D = 42 + length payload)%nat as HlD by done.
  set (ip := drop 14 D). set (udp := drop 20 ip).
  assert (Read16 ip 2 = total) as Ht2 by (apply Hrd; lia).
  assert (Read16 udp 4 = n) as Hn4 by (apply Hrd; lia).
  assert (Read16 udp 0 = rp) as Hp0 by by apply Hrd.
  assert (Read16 udp 2 = lp) as Hp2 by by apply Hrd.
  assert (slice udp 0 (Z.to_nat n) = udp) as Hudp.
  { unfold slice. rewrite drop_0. apply take_ge. cbn [udp ip D drop length]. lia. }
  assert (slice udp 8 (Z.to_nat (n - 8)) = payload) as Hpl.
  { unfold slice. cbn [udp ip D drop]. rewrite drop_0. apply take_ge. lia. }
  unfold DecodePacket. cbn [local_mac remote_mac local_ip remote_ip local_port remote_port].
  rewrite HlD. rewrite (proj2 (Nat.ltb_ge _ _)) by lia.
  rewrite !bool_decide_true by done. change (Read16 D 12 =? 2048) with true. cbn [negb orb].
  fold ip. change ((byte_at ip 0 .& 15) * 4) with 20. change (Z.to_nat 20) with 20%nat.
  change (byte_at ip 0 ≫ 4 =? 4) with true. change (byte_at ip 9 =? 17) with true.
  change (Read16 ip 6 .& 16383 =? 0) with true. change (20 <? 20) with false.
  rewrite (proj2 (Nat.ltb_ge _ _)) by lia. cbn [negb orb].
  assert (Finish (Sum (slice ip 0 20) 0) = 0) as -> by exact HF1. cbn [Z.eqb negb orb].
  rewrite Ht2. rewrite (proj2 (Z.ltb_ge total _)) by lia.
  rewrite (proj2 (Z.ltb_ge _ _)) by lia. cbn [orb].
  fold udp. rewrite Hn4, Hp0, Hp2, !Z.eqb_refl. rewrite (proj2 (Z.ltb_ge n 8)) by lia.
  replace (n =? total - 20) with true by lia. cbn [negb orb].
  change (slice ip 12 8) with ips. change (u32 (Sum ips 0 + 17 + n)) with pseudo. rewrite Hudp.
  assert (Finish (Sum udp pseudo) = 0) as -> by exact HF2. rewrite andb_false_r.
  by rewrite Hpl.
Qed.

(** ** IPv4 text *)

Lemma split_at_spec c text :
  match split_at c text with
  | Some (a, b) => text = a ++ c :: b /\ c ∉ a
  | None => c ∉ text
  end.
Proof.
  induction text as [|x r IH]; cbn; [apply not_elem_of_nil|].
  destruct (x =? c) eqn:E.
  - apply Z.eqb_eq in E as ->. split; [done|apply not_elem_of_nil].
  - apply Z.eqb_neq in E. destruct (split_at c r) as [[a b]|].
    + destruct IH as [-> Ha]. split; [done|]. apply not_elem_of_cons. auto.
    + apply not_elem_of_cons. auto.
Qed.

Lemma split_at_app c a b : c ∉ a -> split_at c (a ++ c :: b) = Some (a, b).
Proof.
  induction a as [|x a IH]; intros Ha; cbn; [by rewrite Z.eqb_refl|].
  apply not_elem_of_cons in Ha as [Hx Ha].
  replace (x =? c) with false by lia. by rewrite IH.
Qed.

Lemma split_at_none c a : c ∉ a -> split_at c a = None.
Proof.
  induction a as [|x a IH]; intros Ha; cbn; [done|].
  apply not_elem_of_cons in Ha as [Hx Ha].
  replace (x =? c) with false by lia. by rewrite IH.
Qed.

(** A part is accepted exactly when it is the canonical decimal of a byte. *)
Lemma ParsePart_spec part v :
  ParsePart part = Some v <-> byte_ok v /\ part = byte_to_string v.
Proof.
  unfold byte_ok. split.
  - unfold ParsePart. destruct (_ || _ || _ || _) eqn:Hc; [done|].
    apply orb_false_iff in Hc as [Hc Hz]. apply orb_false_iff in Hc as [Hc Hd].
    apply orb_false_iff in Hc as [Hn Hl]. apply bool_decide_eq_false in Hn.
    apply negb_false_iff in Hd.
    destruct part as [|c0 [|c1 [|c2 [|]]]]; try done; cbn in *; unfold is_digit in Hd;
      unfold stoul_digits; cbn;
      (destruct (255 <? _) eqn:Hv; [done|]); intros [= <-]; rewrite u8_small by (unfold byte_ok; lia);
      (split; [lia|]); unfold byte_to_string.
    + replace (_ <? 10) with true by lia. f_equal. lia.
    + rewrite (proj2 (Z.ltb_ge _ 10)) by lia. rewrite (proj2 (Z.ltb_lt _ 100)) by lia.
      repeat f_equal; Z.to_euclidean_division_equations; lia.
    + rewrite (proj2 (Z.ltb_ge _ 10)) by lia. rewrite (proj2 (Z.ltb_ge _ 100)) by lia.
      repeat f_equal; Z.to_euclidean_division_equations; lia.
  - intros [Hv ->].
    assert (Forall (fun n => ParsePart (byte_to_string n) = Some n) (seqZ 0 256)) as Hall
      by (apply (bool_decide_unpack _); vm_compute; exact I).
    rewrite list.Forall_forall in Hall. apply Hall, elem_of_seqZ. lia.
Qed.

(** The digits of a byte contain no separator. *)
Lemma byte_to_string_no_dot v : byte_ok v -> dot ∉ byte_to_string v.
Proof.
  unfold byte_ok, byte_to_string, dot. intros Hv Hin.
  destruct (v <? 10), (v <? 100); repeat (apply elem_of_cons in Hin as [Hin | Hin];
    [Z.to_euclidean_division_equations; lia|]); by apply not_elem_of_nil in Hin.
Qed.

Lemma ParseParts_app m v rest :
  byte_ok v ->
  ParseParts (S (S m)) (byte_to_string v ++ [dot] ++ rest) =
    option_map (cons v) (ParseParts (S m) rest).
Proof.
  intros Hv. remember (S m) as m'. cbn [ParseParts app].
  rewrite split_at_app by by apply byte_to_string_no_dot.
  rewrite (proj2 (ParsePart_spec (byte_to_string v) v)) by done. subst m'.
  by destruct (ParseParts (S m) rest).
Qed.

Lemma ParseParts_one v : byte_ok v -> ParseParts 1 (byte_to_string v) = Some [v].
Proof.
  intros Hv. cbn [ParseParts]. rewrite split_at_none by by apply byte_to_string_no_dot.
  by rewrite (proj2 (ParsePart_spec (byte_to_string v) v)) by done.
Qed.

Lemma ParseParts_step m text vs :
  ParseParts (S (S m)) text = Some vs ->
  exists v rest vs', byte_ok v /\ vs = v :: vs' /\ text = byte_to_string v ++ [dot] ++ rest /\
    ParseParts (S m) rest = Some vs'.
Proof.
  remember (S m) as m'. cbn [ParseParts]. pose proof (split_at_spec dot text) as Hs.
  destruct (split_at dot text) as [[a b]|].
  - destruct Hs as [-> _]. destruct (ParsePart a) as [v|] eqn:E; [|done]. subst m'.
    apply ParsePart_spec in E as [Hv ->].
    destruct (ParseParts (S m) b) as [vs'|] eqn:Er; [|done]. intros [= <-].
    by exists v, b, vs'.
  - destruct (ParsePart text); [|done]. by subst m'.
Qed.

Lemma ParseParts_last text vs :
  ParseParts 1 text = Some vs ->
  exists v, byte_ok v /\ vs = [v] /\ text = byte_to_string v.
Proof.
  cbn [ParseParts]. destruct (split_at dot text) as [[a b]|].
  - by destruct (ParsePart a).
  - destruct (ParsePart text) as [v|] eqn:E; [|done]. intros [= <-].
    apply ParsePart_spec in E as [Hv ->]. by exists v.
Qed.

(** ** Theorems *)

(** [ParseIPv4] accepts exactly the canonical dotted decimals: the accepted
    texts are those that [FormatIPv4] prints, and each is read as the four bytes
    it was printed from. *)
Lemma ipv4_text_roundtrip text bytes :
  ParseIPv4 text = Some bytes <->
  exists a b c d, bytes = [a; b; c; d] /\ Forall byte_ok bytes /\ text = FormatIPv4 bytes.
Proof.
  unfold ParseIPv4. split.
  - intros H.
    destruct (ParseParts_step _ _ _ H) as (v0 & r0 & vs0 & H0 & -> & -> & P0).
    destruct (ParseParts_step _ _ _ P0) as (v1 & r1 & vs1 & H1 & -> & -> & P1).
    destruct (ParseParts_step _ _ _ P1) as (v2 & r2 & vs2 & H2 & -> & -> & P2).
    destruct (ParseParts_last _ _ P2) as (v3 & H3 & -> & ->).
    exists v0, v1, v2, v3. split; [done|]. split; [by bytes_ok|]. done.
  - intros (a & b & c & d & -> & Hb & ->).
    repeat (apply Forall_cons_1 in Hb as [? Hb]).
    unfold FormatIPv4, byte_at. cbn [nth].
    do 3 rewrite ParseParts_app by done. by rewrite ParseParts_one.
Qed.

(** C21: gateway round trip through all layers: for any route and any at most 80
    valid CAN records, the packet a board builds (EMR1 payload, UDP and IPv4
    headers with their checksums) passes every check of [DecodePacket] on the
    other end of the route and yields exactly those records. *)
Theorem ethernet_roundtrip r ms :
  route_wf r -> Forall message_wf ms -> forallb Valid ms = true ->
  (length ms <= kMaxPayloadMessages)%nat ->
  exists d, EncodePacket (mirror r) (EncodeRelayFrames HelperToRelay ms) = Some d /\
    DecodePacket r d = Some ms.
Proof.
  intros Hr Hwf Hv Hlen.
  assert (EncodeRelayFrames HelperToRelay ms = EncodeFrame HelperToRelay ms) as He
    by (apply EncodeRelayFrames_single; unfold kMaxPayloadMessages, kMaxRecordsPerFrame in *; lia).
  destruct (EncodePacket (mirror r) (EncodeRelayFrames HelperToRelay ms)) as [d|] eqn:E.
  - exists d. split; [done|].
    rewrite (DecodePacket_Encode r (EncodeRelayFrames HelperToRelay ms) d Hr); [|rewrite He|done].
    + by apply DecodePayload_Encode.
    + by apply EncodeFrame_bytes.
  - exfalso. unfold EncodePacket in E. rewrite He, EncodeFrame_length in E by done.
    unfold kMaxPayloadMessages, kRecordSize in *.
    by rewrite (proj2 (Nat.ltb_ge 1448 _)) in E by lia.
Qed.

Definition example_route : Route :=
  mkRoute [2; 0; 0; 0; 0; 1] [2; 0; 0; 0; 0; 2] [192; 168; 1; 10] [192; 168; 1; 20] 40000 5000.

Lemma ethernet_roundtrip_witness :
  let ms := [mkMsg 3 (mkPack 1 0 8 [1; 2; 3; 4; 5; 6; 7; 255])] in
  exists d, EncodePacket (mirror example_route) (EncodeRelayFrames HelperToRelay ms) = Some d /\
    DecodePacket example_route d = Some ms.
Proof.
  cbv zeta. apply ethernet_roundtrip.
  - unfold route_wf. cbn. repeat split; try lia; bytes_ok.
  - repeat constructor; unfold byte_ok; cbn; lia.
  - reflexivity.
  - cbn. unfold kMaxPayloadMessages. lia.
Defined.
