(* ===== verification/Slcan.v ===== *)
(** * Slcan: plugins/adapter/slcan

    The text protocol of the serial-line CAN adapter (slcan_adapter.cc) and its
    bit rate codes (slcan_timing.h).  Characters are their codes; the serial
    port is the list of the byte strings written to it, and the adapter's
    [OnMessage] the list of the messages it is called with. *)
From stdpp Require Import base list numbers option.
From Stdlib Require Import ZArith Lia.
From S2P Require Import Prelude CFloat Types.
#[local] Open Scope Z_scope.
#[local] Open Scope cint_scope.

(** ** Characters and the standard library's number formatting *)

Definition CR : Z := 13.
Definition LF : Z := 10.
Definition c_t : Z := 116.
Definition c_r : Z := 114.
Definition c_T : Z := 84.
Definition c_R : Z := 82.

Definition hex_char (d : Z) : Z := if d <? 10 then 48 + d else 87 + d.

(** The [w] low hexadecimal digits of [v], most significant first. *)
Fixpoint nibbles (w : nat) (v : Z) : list Z :=
  match w with
  | O => []
  | S n => v / 16 ^ Z.of_nat n mod 16 :: nibbles n v
  end.

Fixpoint strip_zeros (l : list Z) : list Z :=
  match l with
  | [d] => [d]
  | 0 :: r => strip_zeros r
  | _ => l
  end.

(** [ss << std::hex << std::setfill('0') << std::setw(w) << v] for a 32-bit [v]. *)
Definition put_hex (w : nat) (v : Z) : list Z :=
  let digits := strip_zeros (nibbles 8 v) in
  map hex_char (replicate (w - length digits) 0 ++ digits).

Definition hex_value (c : Z) : option Z :=
  if (48 <=? c) && (c <=? 57) then Some (c - 48)
  else if (97 <=? c) && (c <=? 102) then Some (c - 87)
  else if (65 <=? c) && (c <=? 70) then Some (c - 55)
  else None.

Definition is_space (c : Z) : bool := (c =? 32) || ((9 <=? c) && (c <=? 13)).

Fixpoint skip_spaces (s : list Z) : list Z :=
  match s with
  | c :: r => if is_space c then skip_spaces r else s
  | [] => []
  end.

(** The longest prefix of hexadecimal digits, as a number; [None] when empty. *)
Fixpoint hex_prefix (acc : option Z) (s : list Z) : option Z :=
  match s with
  | c :: r =>
      match hex_value c with
      | Some d => hex_prefix (Some (default 0 acc * 16 + d)) r
      | None => acc
      end
  | [] => acc
  end.

Definition hex_digits_of (s : list Z) : option Z :=
  match s with
  | 48 :: x :: r =>
      if ((x =? 120) || (x =? 88)) && bool_decide (is_Some (hex_value (hd 0 r)))
      then hex_prefix None r else hex_prefix None s
  | _ => hex_prefix None s
  end.

Definition take_sign (s : list Z) : bool * list Z :=
  match s with
  | c :: r => if c =? 45 then (true, r) else if c =? 43 then (false, r) else (false, s)
  | [] => (false, [])
  end.

(** [std::stoi(s, nullptr, 16)]; [None] is a thrown [std::invalid_argument] or
    [std::out_of_range]. *)
Definition stoi16 (s : list Z) : option Z :=
  let (neg, s) := take_sign (skip_spaces s) in
  match hex_digits_of s with
  | None => None
  | Some v =>
      let v := if neg then - v else v in
      if (-2147483648 <=? v) && (v <=? 2147483647) then Some v else None
  end.

(** ** Send *)

Definition SendCommand (message : MotorMessage) : option (list Z) :=
  let msg := mdata message in
  let flags := SanitizeCanFrameFlags (frame_flags msg) in
  if negb (CanFrameFlagsHaveValidCanFdBits flags) then None
  else if CanFrameFlagsUseCanFd flags then None
  else if 8 <? len msg then None
  else
    let extended := CanFrameFlagsUseExtendedId flags in
    let rtr := CanFrameFlagsUseRtr flags in
    let max_id := if extended then 536870911 else 2047 in
    if max_id <? id msg then None
    else
      let command_type := if extended then (if rtr then c_R else c_T)
                          else (if rtr then c_r else c_t) in
      Some ([command_type] ++ put_hex (if extended then 8 else 3) (id msg) ++
            put_hex 1 (len msg) ++
            (if rtr then [] else concat (map (put_hex 2) (take (Z.to_nat (len msg)) (data msg)))) ++
            [CR]).

(** [ok] is [Ok()]; the result is what is written to the port. *)
Definition Send (ok : bool) (message : MotorMessage) (port : list (list Z)) : list (list Z) :=
  if negb ok then port
  else match SendCommand message with
       | Some command => port ++ [command]
       | None => port
       end.

(** ** Receive *)

Definition substr (s : list Z) (pos n : nat) : list Z := take n (drop pos s).

Fixpoint ParseBytes (line : list Z) (start : nat) (count : nat) : option (list Z) :=
  match count with
  | O => Some []
  | S n =>
      match stoi16 (substr line start 2) with
      | None => None
      | Some byte =>
          match ParseBytes line (start + 2) n with
          | None => None
          | Some rest => Some (u8 byte :: rest)
          end
      end
  end.

(** The messages handed to [OnMessage]: one or none. *)
Definition ReceiveLine (line : list Z) : list MotorMessage :=
  match line with
  | [] => []
  | c0 :: _ =>
      if negb ((c0 =? c_t) || (c0 =? c_r) || (c0 =? c_T) || (c0 =? c_R)) then []
      else
        let extended := (c0 =? c_T) || (c0 =? c_R) in
        let rtr := (c0 =? c_r) || (c0 =? c_R) in
        let id_width := if extended then 8%nat else 3%nat in
        let len_index := (1 + id_width)%nat in
        let data_start := (len_index + 1)%nat in
        if (length line <? data_start)%nat then []
        else
          match stoi16 (substr line 1 id_width), stoi16 (substr line len_index 1) with
          | Some raw_id, Some raw_len =>
              let l := if 8 <? raw_len then 8 else raw_len in
              let data_len := if rtr then 0%nat else (Z.to_nat l * 2)%nat in
              if (length line <? data_start + data_len)%nat then []
              else
                let flags := (if extended then kCanFrameFlagEff else 0) .|
                             (if rtr then kCanFrameFlagRtr else 0) in
                match (if rtr then Some [] else ParseBytes line data_start (Z.to_nat l)) with
                | None => []
                | Some bytes =>
                    [mkMsg 0 (mkPack (u32 raw_id) (SanitizeCanFrameFlags flags) (u8 l)
                                (bytes ++ replicate (8 - length bytes) 0))]
                end
          | _, _ => []
          end
  end.

(** [read_buffer_] up to [read_buf_size_], and [discarding_line_]. *)
Record RxState := mkRx { rx_line : list Z; rx_discarding : bool }.
Definition rx_initial : RxState := mkRx [] false.
Definition kReadBufferSize : nat := 1024.

Definition ReceiveByte (s : RxState) (byte : Z) : RxState * list MotorMessage :=
  if (byte =? CR) || (byte =? LF) then
    (mkRx [] false, if rx_discarding s then [] else ReceiveLine (rx_line s))
  else if rx_discarding s then (s, [])
  else if (length (rx_line s) =? kReadBufferSize)%nat then (mkRx [] true, [])
  else (mkRx (rx_line s ++ [byte]) false, []).

Fixpoint ReceiveBytes (s : RxState) (bytes : list Z) : RxState * list MotorMessage :=
  match bytes with
  | [] => (s, [])
  | b :: r =>
      let (s1, m1) := ReceiveByte s b in
      let (s2, m2) := ReceiveBytes s1 r in
      (s2, m1 ++ m2)
  end.

(** ** slcan_timing.h *)

(** The JSON scope, as far as this code looks at it: keys with their values. *)
Inductive ScopeValue :=
| ScopeInteger (z : Z)            (* is_number_integer / is_number_unsigned *)
| ScopeFloat (x : F64.t)          (* any other number *)
| ScopeOther.                     (* not a number *)

Inductive ScopeKey := KeyBitrate | KeySamplePoint | KeyDbitrate | KeyDsamplePoint | KeyUnknown.
#[export] Instance ScopeKey_eq_dec : EqDecision ScopeKey.
Proof. solve_decision. Defined.

Definition kStandardSamplePoint : F64.t := F64.lit 765 1000.
Definition kStandardDataBitrate : Z := 5000000.
Definition kStandardDataSamplePoint : F64.t := F64.lit 882 1000.

(** [value.is_number() && value.get<double>() == standard] *)
Definition is_standard (v : ScopeValue) (standard : F64.t) : bool :=
  match v with
  | ScopeInteger z => SpecFloat.SFeqb (F64.of_Z z) standard
  | ScopeFloat x => SpecFloat.SFeqb x standard
  | ScopeOther => false
  end.

Definition check_field (f : ScopeKey * ScopeValue) : bool :=
  match f.1 with
  | KeySamplePoint => is_standard f.2 kStandardSamplePoint
  | KeyDbitrate => is_standard f.2 (F64.of_Z kStandardDataBitrate)
  | KeyDsamplePoint => is_standard f.2 kStandardDataSamplePoint
  | KeyBitrate => true
  | KeyUnknown => false
  end.

Definition rate_code (bitrate : Z) : option Z :=
  match bitrate with
  | 10000 => Some 0 | 20000 => Some 1 | 50000 => Some 2 | 100000 => Some 3 | 125000 => Some 4
  | 250000 => Some 5 | 500000 => Some 6 | 800000 => Some 7 | 1000000 => Some 8
  | _ => None
  end.

(** The digit of the rate code ["S0"]..["S8"]; [None] is a thrown
    [std::runtime_error]. *)
Definition ApplySlcanRateCode (scope : list (ScopeKey * ScopeValue)) : option Z :=
  if negb (forallb check_field scope) then None
  else
    match list_find (fun f => f.1 = KeyBitrate) scope with
    | None => rate_code 1000000
    | Some (_, (_, ScopeInteger parsed)) =>
        if (parsed <=? 0) || (INT_MAX <? parsed) then None else rate_code parsed
    | Some _ => None
    end.

(** ** Hexadecimal round trip *)

Definition digits_ok (ds : list Z) : Prop := Forall (fun d => 0 <= d < 16) ds.

Lemma hex_value_char d : 0 <= d < 16 -> hex_value (hex_char d) = Some d.
Proof.
  intros H. unfold hex_char, hex_value. destruct (Z.ltb_spec d 10).
  - replace (_ && _) with true by lia. f_equal; lia.
  - rewrite (proj2 (Z.leb_gt (87 + d) 57)) by lia. rewrite andb_false_r.
    replace (_ && _) with true by lia. f_equal; lia.
Qed.

Definition hex_fold (a : Z) (ds : list Z) : Z := fold_left (fun v d => v * 16 + d) ds a.

Lemma hex_prefix_map ds a :
  digits_ok ds -> hex_prefix (Some a) (map hex_char ds) = Some (hex_fold a ds).
Proof.
  revert a. induction ds as [|d ds IH]; intros a Hd; [done|].
  apply Forall_cons_1 in Hd as [H0 Hd]. cbn [map hex_prefix].
  rewrite hex_value_char by done. by apply IH.
Qed.

Lemma digit_cases (P : Z -> Prop) :
  P 0 -> P 1 -> P 2 -> P 3 -> P 4 -> P 5 -> P 6 -> P 7 -> P 8 -> P 9 -> P 10 -> P 11 -> P 12 ->
  P 13 -> P 14 -> P 15 -> forall d, 0 <= d < 16 -> P d.
Proof.
  intros. assert (d = 0 \/ d = 1 \/ d = 2 \/ d = 3 \/ d = 4 \/ d = 5 \/ d = 6 \/ d = 7 \/ d = 8 \/
    d = 9 \/ d = 10 \/ d = 11 \/ d = 12 \/ d = 13 \/ d = 14 \/ d = 15) as Hc by lia.
  repeat destruct Hc as [-> | Hc]; subst; done.
Qed.

(** Neither a sign, nor white space, nor a [0x] prefix. *)
Lemma hex_digits_of_map ds :
  digits_ok ds -> hex_digits_of (map hex_char ds) = hex_prefix None (map hex_char ds).
Proof.
  intros Hd. destruct ds as [|d [|d2 r]]; [done| |].
  - apply Forall_cons_1 in Hd as [H0 _]. revert d H0. by apply digit_cases.
  - apply Forall_cons_1 in Hd as [H0 Hd]. apply Forall_cons_1 in Hd as [H1 _].
    revert d H0. apply digit_cases; try reflexivity.
    revert d2 H1. by apply digit_cases.
Qed.

Lemma stoi16_hex ds :
  digits_ok ds -> ds <> [] -> hex_fold 0 ds <= 2147483647 ->
  stoi16 (map hex_char ds) = Some (hex_fold 0 ds).
Proof.
  intros Hd Hne Hle. destruct ds as [|d r]; [done|].
  pose proof Hd as Hd'. apply Forall_cons_1 in Hd' as [H0 Hr].
  assert (skip_spaces (map hex_char (d :: r)) = map hex_char (d :: r)) as Hsk
    by (cbn [map]; clear -H0; revert d H0; by apply digit_cases).
  assert (take_sign (map hex_char (d :: r)) = (false, map hex_char (d :: r))) as Hsign
    by (cbn [map]; clear -H0; revert d H0; by apply digit_cases).
  unfold stoi16. rewrite Hsk, Hsign.
  rewrite hex_digits_of_map by done. cbn [map hex_prefix].
  rewrite hex_value_char, hex_prefix_map by done. cbn [default].
  change (hex_fold (0 * 16 + d) r) with (hex_fold 0 (d :: r)).
  assert (0 <= hex_fold 0 (d :: r)) as Hge.
  { clear -Hd. unfold hex_fold. generalize (Z.le_refl 0). generalize 0 at 2 4.
    induction Hd as [|x l Hx _ IH]; intros a Ha; cbn; [done|]. apply IH. lia. }
  replace (_ && _) with true by lia. done.
Qed.

Lemma nibbles_ok w v : digits_ok (nibbles w v).
Proof.
  induction w as [|n IH]; [constructor|]. constructor; [apply Z.mod_pos_bound; lia|exact IH].
Qed.
Lemma nibbles_length w v : length (nibbles w v) = w.
Proof. induction w; cbn; lia. Qed.

Lemma hex_fold_nibbles w v a :
  hex_fold a (nibbles w v) = a * 16 ^ Z.of_nat w + v mod 16 ^ Z.of_nat w.
Proof.
  revert a. induction w as [|n IH]; intros a.
  { cbn. rewrite Z.mod_1_r. lia. }
  cbn [nibbles hex_fold fold_left]. fold (hex_fold (a * 16 + v / 16 ^ Z.of_nat n mod 16) (nibbles n v)).
  rewrite IH. rewrite Nat2Z.inj_succ, Z.pow_succ_r by lia.
  rewrite (Z.mul_comm 16), Z.rem_mul_r by (lia || (apply Z.pow_nonzero; lia)). lia.
Qed.

(** Leading zeros come and go without effect on a field of fixed width. *)
Lemma strip_pad l :
  l <> [] -> replicate (length l - length (strip_zeros l)) 0 ++ strip_zeros l = l /\
  (length (strip_zeros l) <= length l)%nat.
Proof.
  induction l as [|d l IH]; [done|]. intros _.
  destruct l as [|d2 l]; [destruct d; (split; [done|cbn; lia])|].
  destruct (decide (d = 0)) as [-> | Hd].
  - change (strip_zeros (0 :: d2 :: l)) with (strip_zeros (d2 :: l)).
    destruct IH as [Heq Hle]; [done|].
    split; [|cbn [length] in *; lia].
    change (length (0%Z :: d2 :: l)) with (S (length (d2 :: l))).
    rewrite Nat.sub_succ_l by done.
    cbn [replicate app]. by rewrite Heq.
  - replace (strip_zeros (d :: d2 :: l)) with (d :: d2 :: l) by (destruct d; done).
    split; [by rewrite Nat.sub_diag|done].
Qed.

Lemma strip_zeros_prefix k l : l <> [] -> strip_zeros (replicate k 0 ++ l) = strip_zeros l.
Proof.
  intros Hl. induction k as [|k IH]; [done|]. cbn [replicate app].
  destruct (replicate k 0 ++ l) as [|x r] eqn:E.
  - exfalso. destruct k; [done|]. discriminate E.
  - change (strip_zeros (0 :: x :: r)) with (strip_zeros (x :: r)). by rewrite <- IH.
Qed.

Lemma nibbles_high k w v :
  0 <= v < 16 ^ Z.of_nat w -> nibbles (k + w) v = replicate k 0 ++ nibbles w v.
Proof.
  intros Hv. induction k as [|k IH]; [done|]. cbn [nibbles Nat.add replicate app]. rewrite IH.
  f_equal. rewrite Z.div_small; [done|]. split; [lia|].
  apply Z.lt_le_trans with (16 ^ Z.of_nat w); [lia|]. apply Z.pow_le_mono_r; lia.
Qed.

Lemma put_hex_eq w v :
  (1 <= w <= 8)%nat -> 0 <= v < 16 ^ Z.of_nat w -> put_hex w v = map hex_char (nibbles w v).
Proof.
  intros Hw Hv. unfold put_hex. f_equal.
  replace 8%nat with ((8 - w) + w)%nat by lia. rewrite nibbles_high by done.
  assert (nibbles w v <> []) as Hne by (destruct w; [lia|done]).
  rewrite strip_zeros_prefix by done.
  rewrite <- (nibbles_length w v) at 1. by apply strip_pad.
Qed.

Lemma put_hex_length w v :
  (1 <= w <= 8)%nat -> 0 <= v < 16 ^ Z.of_nat w -> length (put_hex w v) = w.
Proof. intros. by rewrite put_hex_eq, length_map, nibbles_length. Qed.

Lemma stoi16_put_hex w v :
  (1 <= w <= 8)%nat -> 0 <= v < 16 ^ Z.of_nat w -> v <= 2147483647 ->
  stoi16 (put_hex w v) = Some v.
Proof.
  intros Hw Hv Hle. rewrite put_hex_eq by done.
  assert (hex_fold 0 (nibbles w v) = v) as Hf
    by (rewrite hex_fold_nibbles, Z.mod_small by lia; lia).
  rewrite stoi16_hex; [by rewrite Hf|apply nibbles_ok|destruct w; [lia|done]|lia].
Qed.

(** ** Parsing a command back *)

Lemma substr_app pre mid post :
  substr (pre ++ mid ++ post) (length pre) (length mid) = mid.
Proof. unfold substr. by rewrite drop_app_length, take_app_length. Qed.

Lemma substr_at pre mid post i n :
  i = length pre -> n = length mid -> substr (pre ++ mid ++ post) i n = mid.
Proof. intros -> ->. apply substr_app. Qed.

Lemma ParseBytes_put pre bytes :
  Forall byte_ok bytes ->
  ParseBytes (pre ++ concat (map (put_hex 2) bytes)) (length pre) (length bytes) = Some bytes.
Proof.
  revert pre. induction bytes as [|b bytes IH]; intros pre Hb; [done|].
  apply Forall_cons_1 in Hb as [H0 Hb]. unfold byte_ok in H0. cbn [length ParseBytes map concat].
  assert (length (put_hex 2 b) = 2%nat) as Hl by (apply put_hex_length; [lia|change (16 ^ Z.of_nat 2) with 256; lia]).
  rewrite (substr_at pre (put_hex 2 b)) by done.
  rewrite stoi16_put_hex by (change (16 ^ Z.of_nat 2) with 256; lia).
  rewrite app_assoc. replace (length pre + 2)%nat with (length (pre ++ put_hex 2 b))
    by (rewrite length_app; lia).
  rewrite IH by done. by rewrite u8_small by done.
Qed.

Lemma concat_put_length bytes :
  Forall byte_ok bytes -> length (concat (map (put_hex 2) bytes)) = (length bytes * 2)%nat.
Proof.
  induction 1 as [|b bytes Hb _ IH]; [done|]. unfold byte_ok in Hb. cbn [map concat length].
  rewrite length_app, IH, put_hex_length; [lia|lia|change (16 ^ Z.of_nat 2) with 256; lia].
Qed.

(** What a message looks like after a trip over the text protocol. *)
Definition normalised (m : MotorMessage) : MotorMessage :=
  let p := mdata m in
  let n := if CanFrameFlagsUseRtr (frame_flags p) then 0%nat else Z.to_nat (len p) in
  mkMsg 0 (mkPack (id p) (SanitizeCanFrameFlags (frame_flags p)) (len p)
             (take n (data p) ++ replicate (8 - n) 0)).

(** The classic CAN flags a command character stands for. *)
Lemma flags_cases flags :
  0 <= flags < 16 -> CanFrameFlagsHaveValidCanFdBits flags = true ->
  CanFrameFlagsUseCanFd flags = false ->
  SanitizeCanFrameFlags
    ((if CanFrameFlagsUseExtendedId flags then kCanFrameFlagEff else 0) .|
     (if CanFrameFlagsUseRtr flags then kCanFrameFlagRtr else 0)) = flags.
Proof.
  revert flags. refine (digit_cases _ _ _ _ _ _ _ _ _ _ _ _ _ _ _ _ _); done.
Qed.

Definition command_head (ext rtr : bool) (i l : Z) : list Z :=
  [if ext then (if rtr then c_R else c_T) else (if rtr then c_r else c_t)] ++
  put_hex (if ext then 8 else 3) i ++ put_hex 1 l.

Lemma ReceiveLine_eq line c0 r :
  line = c0 :: r ->
  ReceiveLine line =
    if negb ((c0 =? c_t) || (c0 =? c_r) || (c0 =? c_T) || (c0 =? c_R)) then []
    else
      let extended := (c0 =? c_T) || (c0 =? c_R) in
      let rtr := (c0 =? c_r) || (c0 =? c_R) in
      let id_width := if extended then 8%nat else 3%nat in
      let data_start := (1 + id_width + 1)%nat in
      if (length line <? data_start)%nat then []
      else
        match stoi16 (substr line 1 id_width), stoi16 (substr line (1 + id_width) 1) with
        | Some raw_id, Some raw_len =>
            let l := if 8 <? raw_len then 8 else raw_len in
            let data_len := if rtr then 0%nat else (Z.to_nat l * 2)%nat in
            if (length line <? data_start + data_len)%nat then []
            else
              match (if rtr then Some [] else ParseBytes line data_start (Z.to_nat l)) with
              | None => []
              | Some bytes =>
                  [mkMsg 0 (mkPack (u32 raw_id)
                     (SanitizeCanFrameFlags ((if extended then kCanFrameFlagEff else 0) .|
                                             (if rtr then kCanFrameFlagRtr else 0))) (u8 l)
                     (bytes ++ replicate (8 - length bytes) 0))]
              end
        | _, _ => []
        end.
Proof. by intros ->. Qed.

Lemma ReceiveLine_command (ext rtr : bool) i l bytes :
  0 <= i <= (if ext then 536870911 else 2047) -> 0 <= l <= 8 ->
  Forall byte_ok bytes -> length bytes = (if rtr then 0%nat else Z.to_nat l) ->
  ReceiveLine (command_head ext rtr i l ++ concat (map (put_hex 2) bytes)) =
    [mkMsg 0 (mkPack i
       (SanitizeCanFrameFlags ((if ext then kCanFrameFlagEff else 0) .|
                               (if rtr then kCanFrameFlagRtr else 0))) l
       (bytes ++ replicate (8 - length bytes) 0))].
Proof.
  intros Hi Hl Hb Hlen. set (w := if ext then 8%nat else 3%nat).
  assert (0 <= i < 16 ^ Z.of_nat w) as Hiw by (subst w; destruct ext; cbn; lia).
  assert (1 <= w <= 8)%nat as Hw by (subst w; destruct ext; lia).
  pose proof (put_hex_length w i Hw Hiw) as Hidl.
  assert (0 <= l < 16 ^ Z.of_nat 1) as Hl1 by (cbn; lia).
  pose proof (put_hex_length 1 l ltac:(lia) Hl1) as Hll.
  unfold command_head. fold w. set (c0 := if ext then _ else _).
  set (tail := concat _).
  assert (length (([c0] ++ put_hex w i ++ put_hex 1 l) ++ tail) = 2 + w + length bytes * 2)%nat as HL.
  { subst tail. rewrite !length_app, Hidl, Hll, concat_put_length by done. cbn. lia. }
  assert (substr (([c0] ++ put_hex w i ++ put_hex 1 l) ++ tail) 1 w = put_hex w i) as Hs1
    by (rewrite <- !app_assoc; by apply substr_at).
  assert (substr (([c0] ++ put_hex w i ++ put_hex 1 l) ++ tail) (1 + w) 1 = put_hex 1 l) as Hs2.
  { rewrite <- !app_assoc. rewrite (app_assoc [c0]). apply substr_at; [rewrite length_app, Hidl; cbn [length]; lia|done]. }
  assert (ParseBytes (([c0] ++ put_hex w i ++ put_hex 1 l) ++ tail) (1 + w + 1) (length bytes)
          = Some bytes) as Hp.
  { replace (1 + w + 1)%nat with (length ([c0] ++ put_hex w i ++ put_hex 1 l))
      by (rewrite !length_app, Hidl, Hll; cbn [length]; lia). by apply ParseBytes_put. }
  set (line := ([c0] ++ put_hex w i ++ put_hex 1 l) ++ tail) in *.
  assert (exists r, line = c0 :: r) as [r Hline] by by eexists.
  rewrite (ReceiveLine_eq line c0 r Hline). cbv zeta.
  replace (negb _) with false by (subst c0; by destruct ext, rtr).
  replace ((c0 =? c_T) || (c0 =? c_R)) with ext by (subst c0; by destruct ext, rtr).
  replace ((c0 =? c_r) || (c0 =? c_R)) with rtr by (subst c0; by destruct ext, rtr).
  fold w. rewrite HL. rewrite (proj2 (Nat.ltb_ge _ _)) by lia.
  rewrite Hs1, Hs2, !stoi16_put_hex by (done || lia || (destruct ext; lia)).
  rewrite (proj2 (Z.ltb_ge 8 l)) by lia.
  rewrite (proj2 (Nat.ltb_ge _ _)) by (destruct rtr; lia).
  rewrite u32_small, u8_small by (unfold byte_ok; destruct ext; lia).
  destruct rtr.
  - destruct bytes; done.
  - rewrite <- Hlen, Hp. done.
Qed.

(** ** Reference: the stream is a sequence of lines *)

Definition is_eol (b : Z) : bool := (b =? CR) || (b =? LF).

(** The complete lines of [acc ++ s], where [acc] has no end of line, and the
    unfinished one. *)
Fixpoint split_lines (acc s : list Z) : list (list Z) * list Z :=
  match s with
  | [] => ([], acc)
  | b :: r =>
      if is_eol b
      then let (ls, rest) := split_lines [] r in (acc :: ls, rest)
      else split_lines (acc ++ [b]) r
  end.

(** A line that fits the buffer is parsed, a longer one is dropped whole. *)
Definition line_messages (line : list Z) : list MotorMessage :=
  if (length line <=? kReadBufferSize)%nat then ReceiveLine line else [].

Definition rx_of_line (acc : list Z) : RxState :=
  if (length acc <=? kReadBufferSize)%nat then mkRx acc false else mkRx [] true.

Lemma ReceiveByte_line acc b :
  ReceiveByte (rx_of_line acc) b =
    if is_eol b then (rx_initial, line_messages acc) else (rx_of_line (acc ++ [b]), []).
Proof.
  unfold ReceiveByte, rx_of_line, line_messages. fold (is_eol b).
  rewrite length_app. cbn [length].
  destruct (Nat.leb_spec (length acc) kReadBufferSize) as [H|H]; cbn [rx_discarding rx_line].
  - destruct (is_eol b); [done|].
    destruct (Nat.eqb_spec (length acc) kReadBufferSize) as [E|E].
    + rewrite (proj2 (Nat.leb_gt _ _)) by lia. done.
    + rewrite (proj2 (Nat.leb_le _ _)) by lia. done.
  - destruct (is_eol b); [done|]. rewrite (proj2 (Nat.leb_gt _ _)) by lia. done.
Qed.

Lemma ReceiveBytes_lines s acc :
  ReceiveBytes (rx_of_line acc) s =
    let (ls, rest) := split_lines acc s in (rx_of_line rest, concat (map line_messages ls)).
Proof.
  revert acc. induction s as [|b r IH]; intros acc; [done|].
  cbn [ReceiveBytes split_lines]. rewrite ReceiveByte_line. destruct (is_eol b).
  - change rx_initial with (rx_of_line []). rewrite IH.
    by destruct (split_lines [] r).
  - rewrite IH. by destruct (split_lines (acc ++ [b]) r).
Qed.

Lemma split_lines_app acc s1 s2 :
  split_lines acc (s1 ++ s2) =
    let (ls1, rest1) := split_lines acc s1 in
    let (ls2, rest2) := split_lines rest1 s2 in (ls1 ++ ls2, rest2).
Proof.
  revert acc. induction s1 as [|b r IH]; intros acc; cbn [app split_lines].
  - by destruct (split_lines acc s2).
  - destruct (is_eol b); [|apply IH]. rewrite IH.
    destruct (split_lines [] r) as [ls1 rest1]. by destruct (split_lines rest1 s2).
Qed.

Lemma split_lines_line acc l rest :
  Forall (fun b => is_eol b = false) l ->
  split_lines acc (l ++ CR :: rest) =
    let (ls, r) := split_lines [] rest in ((acc ++ l) :: ls, r).
Proof.
  revert acc. induction l as [|b l IH]; intros acc Hl; cbn [app split_lines].
  - by rewrite app_nil_r.
  - apply Forall_cons_1 in Hl as [-> Hl]. rewrite IH by done. by rewrite <- app_assoc.
Qed.

Lemma put_hex_no_eol w v :
  (1 <= w <= 8)%nat -> 0 <= v < 16 ^ Z.of_nat w ->
  Forall (fun b => is_eol b = false) (put_hex w v).
Proof.
  intros Hw Hv. rewrite put_hex_eq by done.
  pose proof (nibbles_ok w v) as Hn. unfold digits_ok in Hn.
  induction Hn as [|d l Hd _ IH]; cbn [map]; constructor; [|done].
  revert d Hd. refine (digit_cases _ _ _ _ _ _ _ _ _ _ _ _ _ _ _ _ _); done.
Qed.

(** A command is one line, well within the buffer. *)
Lemma command_line (ext rtr : bool) i l bytes :
  0 <= i <= (if ext then 536870911 else 2047) -> 0 <= l <= 8 ->
  Forall byte_ok bytes -> (length bytes <= 8)%nat ->
  let body := command_head ext rtr i l ++ concat (map (put_hex 2) bytes) in
  Forall (fun b => is_eol b = false) body /\ (length body <= 26)%nat.
Proof.
  intros Hi Hl Hb Hn. cbv zeta. unfold command_head. set (w := if ext then 8%nat else 3%nat).
  assert (0 <= i < 16 ^ Z.of_nat w) as Hiw by (subst w; destruct ext; cbn; lia).
  assert (1 <= w <= 8)%nat as Hw by (subst w; destruct ext; lia).
  assert (0 <= l < 16 ^ Z.of_nat 1) as Hl1 by (cbn; lia).
  split.
  - repeat (apply Forall_app; split).
    + by destruct ext, rtr; repeat constructor.
    + by apply put_hex_no_eol.
    + apply put_hex_no_eol; [lia|done].
    + clear Hn. induction Hb as [|b bs Hb' _ IH]; cbn [map concat]; [constructor|].
      unfold byte_ok in Hb'. apply Forall_app; split; [|done].
      apply put_hex_no_eol; [lia|change (16 ^ Z.of_nat 2) with 256; lia].
  - rewrite !length_app, concat_put_length, !put_hex_length by (done || lia). cbn [length]. lia.
Qed.

(** ** Theorems *)

(** The receiver is equivalent to cutting the byte stream into lines: however
    the port chops the stream into chunks, the messages delivered are those of
    its complete lines in order, a line longer than the 1024-byte buffer being
    dropped whole without affecting the next one, and the receiver's state is
    determined by the unfinished line. *)
Lemma slcan_stream (chunks : list (list Z)) :
  fold_left (fun '(s, out) chunk => let (s', ms) := ReceiveBytes s chunk in (s', out ++ ms))
    chunks (rx_initial, []) =
  let (ls, rest) := split_lines [] (concat chunks) in
  (rx_of_line rest, concat (map line_messages ls)).
Proof.
  change rx_initial with (rx_of_line []).
  assert (H : forall chunks acc out,
    fold_left (fun '(s, out) chunk => let (s', ms) := ReceiveBytes s chunk in (s', out ++ ms))
      chunks (rx_of_line acc, out) =
    let (ls, rest) := split_lines acc (concat chunks) in
    (rx_of_line rest, out ++ concat (map line_messages ls))).
  2: by rewrite H.
  clear chunks. induction chunks as [|c cs IH]; intros acc out; cbn.
  - by rewrite app_nil_r.
  - rewrite ReceiveBytes_lines, split_lines_app.
    destruct (split_lines acc c) as [ls1 rest1]. rewrite IH.
    destruct (split_lines rest1 (concat cs)) as [ls2 rest2].
    by rewrite map_app, concat_app, app_assoc.
Qed.

(** Text round trip: whatever [Send] writes to the port for a message, the
    receiver reads back as that message (bus 0, undefined flags dropped, the
    payload beyond its length zeroed) and is then ready for the next line. *)
Lemma slcan_roundtrip (m : MotorMessage) (command : list Z) :
  pack_wf (mdata m) -> SendCommand m = Some command ->
  ReceiveBytes rx_initial command = (rx_initial, [normalised m]).
Proof.
  intros (Hi & Hfb & Hl0 & H8 & Hb) Hsend. destruct m as [bus [i f l d]]. cbn in Hi, Hfb, Hl0, H8, Hb.
  unfold byte_ok in Hl0. unfold SendCommand in Hsend. cbn [mdata frame_flags id len data] in Hsend.
  set (fl := SanitizeCanFrameFlags f) in *.
  assert (0 <= fl < 16) as Hfl by (subst fl; rewrite sanitize_mod; apply Z.mod_pos_bound; lia).
  assert (CanFrameFlagsUseRtr f = CanFrameFlagsUseRtr fl) as Hrtr
    by (unfold CanFrameFlagsUseRtr; subst fl; by rewrite sanitize_idem).
  destruct (CanFrameFlagsHaveValidCanFdBits fl) eqn:Hv; [|done].
  destruct (CanFrameFlagsUseCanFd fl) eqn:Hfd; [done|]. cbn [negb] in Hsend.
  destruct (Z.ltb_spec 8 l); [done|].
  pose proof (flags_cases fl Hfl Hv Hfd) as Hflags.
  set (ext := CanFrameFlagsUseExtendedId fl) in *. rewrite <- Hrtr in Hsend, Hflags.
  set (rtr := CanFrameFlagsUseRtr f) in *.
  destruct (Z.ltb_spec (if ext then 536870911 else 2047) i); [done|].
  injection Hsend as <-.
  set (bytes := if rtr then [] else take (Z.to_nat l) d).
  assert (Forall byte_ok bytes) as Hbytes by (subst bytes; destruct rtr; [done|by apply Forall_take]).
  assert (length bytes = if rtr then 0%nat else Z.to_nat l) as Hbl
    by (subst bytes; destruct rtr; [done|rewrite length_take; lia]).
  pose proof (ReceiveLine_command ext rtr i l bytes ltac:(lia) ltac:(lia) Hbytes Hbl) as HR.
  set (body := command_head ext rtr i l ++ concat (map (put_hex 2) bytes)) in *.
  match goal with |- ReceiveBytes _ ?c = _ => assert (c = body ++ CR :: []) as -> end.
  { subst body bytes. unfold command_head. destruct rtr; cbn [map concat]; rewrite <- !app_assoc; done. }
  destruct (command_line ext rtr i l bytes) as [Hnl Hlen]; [lia|lia|done|rewrite Hbl; destruct rtr; lia|].
  fold body in Hnl, Hlen.
  change rx_initial with (rx_of_line []) at 1. rewrite ReceiveBytes_lines, split_lines_line by done.
  cbn [split_lines map concat app]. unfold line_messages.
  rewrite (proj2 (Nat.leb_le _ _)) by (unfold kReadBufferSize; lia).
  rewrite HR, Hflags, app_nil_r. unfold normalised. cbn [mdata frame_flags id len data].
  fold rtr fl. rewrite Hbl. subst bytes. by destruct rtr.
Qed.

Lemma slcan_roundtrip_witness :
  let m := mkMsg 0 (make_pack 291 3 [1; 171; 255]) in
  exists c, SendCommand m = Some c /\ ReceiveBytes rx_initial c = (rx_initial, [m]).
Proof.
  cbv zeta. eexists. split; [vm_compute; reflexivity|].
  rewrite (slcan_roundtrip (mkMsg 0 (make_pack 291 3 [1; 171; 255]))).
  - reflexivity.
  - repeat constructor; unfold byte_ok; cbn; lia.
  - vm_compute. reflexivity.
Defined.
