(* ===== verification/UsbSerial.v ===== *)
(** * UsbSerial: plugins/adapter/usbSerial/usb_serial_adapter.cc

    The binary protocol of the USB serial adapter, with its checksum
    (src/utils/serial_crc.h) and the resynchronising receive parser.  The
    receive buffer is the list of its [read_buf_size_] bytes; a position in it
    is the list of the bytes from there on. *)
From stdpp Require Import base list numbers option.
From Stdlib Require Import ZArith Lia.
From S2P Require Import Prelude CFloat Types.
#[local] Open Scope Z_scope.
#[local] Open Scope cint_scope.

(** [SerialCrc::calc]: the byte sum. *)
Definition calc (input : list Z) : Z := fold_left (fun crc b => u8 (crc + b)) input 0.

(** ** Send *)

Definition SendFrame (message : MotorMessage) : option (list Z) :=
  let msg := mdata message in
  let flags := SanitizeCanFrameFlags (frame_flags msg) in
  if 8 <? len msg then None
  else
    let extended := CanFrameFlagsUseExtendedId flags in
    let header_size := if extended then 6 else 4 in
    let size := len msg + header_size + 1 in
    let header :=
      if extended
      then [187; u8 ((id msg ≫ 24) .& 255); u8 ((id msg ≫ 16) .& 255);
            u8 ((id msg ≫ 8) .& 255); u8 (id msg .& 255); u8 size]
      else [170; u8 (id msg ≫ 8); u8 (id msg .& 255); u8 size] in
    let buffer := header ++ take (Z.to_nat (len msg)) (data msg) in
    Some (buffer ++ [calc (buffer ++ [0])]).

(** [ok] is [Ok()]; the result is what is written to the port. *)
Definition Send (ok : bool) (message : MotorMessage) (port : list (list Z)) : list (list Z) :=
  if negb ok then port
  else match SendFrame message with
       | Some frame => port ++ [frame]
       | None => port
       end.

(** ** ParseBuffer *)

(** One iteration of the [for]: stop and wait for more bytes, skip one byte, or
    consume a packet of [n] bytes. *)
Inductive Step := Break | Skip | Packet (m : MotorMessage) (n : nat).

Definition packet_message (extended : bool) (packet : list Z) (header_size l : nat) : MotorMessage :=
  let n := (l - header_size - 1)%nat in
  let payload := take n (drop header_size packet) in
  let padded := payload ++ replicate (8 - length payload) 0 in
  if extended
  then mkMsg 0 (mkPack
         ((byte_at packet 1 ≪ 24) .| (byte_at packet 2 ≪ 16) .| (byte_at packet 3 ≪ 8) .|
          byte_at packet 4)
         (SanitizeCanFrameFlags kCanFrameFlagEff) (u8 (Z.of_nat n)) padded)
  else mkMsg 0 (mkPack ((byte_at packet 1 ≪ 8) .| byte_at packet 2) 0 (u8 (Z.of_nat n)) padded).

Definition ParseStep (rest : list Z) : Step :=
  let standard := byte_at rest 0 =? 170 in
  let extended := byte_at rest 0 =? 187 in
  if negb (standard || extended) then Skip
  else
    let header_size := if extended then 6%nat else 4%nat in
    let len_index := if extended then 5%nat else 3%nat in
    if (length rest <=? len_index)%nat then Break
    else
      let l := Z.to_nat (byte_at rest len_index) in
      let max_len := (header_size + 8 + 1)%nat in
      if (max_len <? l)%nat || (l <=? header_size)%nat then Skip
      else if (length rest <? l)%nat then Break
      else if negb (calc (take (l - 1) rest) =? byte_at rest (l - 1)) then Skip
      else Packet (packet_message extended rest header_size l) l.

(** [fuel] at least the number of bytes is enough: each iteration consumes one. *)
Fixpoint ParseLoop (fuel : nat) (rest : list Z) : list MotorMessage * list Z :=
  match rest, fuel with
  | [], _ => ([], [])
  | _, O => ([], rest)
  | _, S f =>
      match ParseStep rest with
      | Break => ([], rest)
      | Skip => ParseLoop f (drop 1 rest)
      | Packet m n => let (ms, rem) := ParseLoop f (drop n rest) in (m :: ms, rem)
      end
  end.

(** The delivered messages and the bytes moved to the front of the buffer. *)
Definition ParseBuffer (buffer : list Z) : list MotorMessage * list Z :=
  ParseLoop (length buffer) buffer.

(** ** ReceiveBytes *)

Definition kReadBufferSize : nat := 4096.

(** The [while (size > 0)] loop: [None] only when the fuel runs out. *)
Fixpoint ReceiveLoop (fuel : nat) (buffer bytes : list Z) : option (list MotorMessage * list Z) :=
  match bytes with
  | [] => Some ([], buffer)
  | _ =>
      match fuel with
      | O => None
      | S f =>
          let count := Nat.min (length bytes) (kReadBufferSize - length buffer) in
          let (ms, rem) := ParseBuffer (buffer ++ take count bytes) in
          match ReceiveLoop f rem (drop count bytes) with
          | None => None
          | Some (ms', rem') => Some (ms ++ ms', rem')
          end
      end
  end.
Definition ReceiveBytes (buffer bytes : list Z) : option (list MotorMessage * list Z) :=
  ReceiveLoop (length bytes) buffer bytes.

(** ** Lemmas *)

Lemma byte_at_app_l a b k : (k < length a)%nat -> byte_at (a ++ b) k = byte_at a k.
Proof. intros. unfold byte_at. by apply app_nth1. Qed.

Lemma ParseStep_packet rest m n :
  ParseStep rest = Packet m n -> (5 <= n <= 15)%nat /\ (n <= length rest)%nat.
Proof.
  unfold ParseStep. destruct (negb _); [done|]. cbv zeta.
  set (hs := if byte_at rest 0 =? 187 then 6%nat else 4%nat).
  assert (4 <= hs <= 6)%nat as Hh by (subst hs; destruct (_ =? _); lia).
  set (li := if byte_at rest 0 =? 187 then 5%nat else 3%nat). clearbody hs.
  destruct (_ <=? _)%nat; [done|].
  set (l := Z.to_nat (byte_at rest li)). clearbody l.
  destruct ((hs + 8 + 1 <? l)%nat || (l <=? hs)%nat) eqn:Hl; [done|].
  destruct (length rest <? l)%nat eqn:Hr; [done|]. destruct (negb _); [done|]. intros [= _ <-].
  apply orb_false_iff in Hl as [H1 H2]. apply Nat.ltb_ge in H1, Hr. apply Nat.leb_gt in H2. lia.
Qed.

(** A decision once taken does not change when more bytes arrive. *)
Lemma ParseStep_app a b :
  a <> [] -> ParseStep a <> Break -> ParseStep (a ++ b) = ParseStep a.
Proof.
  intros Hne. assert (0 < length a)%nat as H0 by (destruct a; [done|cbn; lia]).
  unfold ParseStep. rewrite byte_at_app_l by done.
  destruct (negb _); [done|]. rewrite length_app.
  set (li := if byte_at a 0 =? 187 then 5%nat else 3%nat).
  destruct (Nat.leb_spec (length a) li); [done|]. intros Hb.
  rewrite (proj2 (Nat.leb_gt _ _)) by lia. rewrite byte_at_app_l by lia.
  destruct (_ || _) eqn:Hl; [done|].
  apply orb_false_iff in Hl as [H1 H2]. apply Nat.ltb_ge in H1. apply Nat.leb_gt in H2.
  set (l := Z.to_nat (byte_at a li)) in *.
  destruct (Nat.ltb_spec (length a) l); [done|].
  rewrite (proj2 (Nat.ltb_ge _ _)) by lia.
  assert (4 < l)%nat by (destruct (byte_at a 0 =? 187); lia).
  rewrite take_app_le by lia. rewrite byte_at_app_l by lia.
  destruct (negb _); [done|]. f_equal. unfold packet_message.
  assert (Hh : forall h, (h <= l)%nat -> take (l - h - 1) (drop h (a ++ b)) = take (l - h - 1) (drop h a)).
  { intros h Hh. rewrite drop_app_le by lia. apply take_app_le. rewrite length_drop. lia. }
  destruct (byte_at a 0 =? 187) eqn:E.
  - rewrite Hh by lia. rewrite !byte_at_app_l by lia. done.
  - rewrite Hh by lia. rewrite !byte_at_app_l by lia. done.
Qed.

Lemma ParseLoop_fuel f1 f2 rest :
  (length rest <= f1)%nat -> (length rest <= f2)%nat -> ParseLoop f1 rest = ParseLoop f2 rest.
Proof.
  revert f2 rest. induction f1 as [|f1 IH]; intros f2 rest H1 H2.
  { destruct rest; [by destruct f2|cbn in H1; lia]. }
  destruct rest as [|b r]; [by destruct f2|]. destruct f2 as [|f2]; [cbn in H2; lia|].
  cbn [ParseLoop]. destruct (ParseStep (b :: r)) as [| |m n] eqn:E; [done| |].
  - apply IH; rewrite length_drop; cbn in *; lia.
  - apply ParseStep_packet in E as [Hn _]. rewrite (IH f2); [done| |]; rewrite length_drop; cbn in *; lia.
Qed.

Lemma ParseBuffer_unfold rest :
  rest <> [] ->
  ParseBuffer rest =
    match ParseStep rest with
    | Break => ([], rest)
    | Skip => ParseBuffer (drop 1 rest)
    | Packet m n => let (ms, rem) := ParseBuffer (drop n rest) in (m :: ms, rem)
    end.
Proof.
  intros Hne. unfold ParseBuffer. destruct rest as [|b r]; [done|]. cbn [length ParseLoop].
  destruct (ParseStep (b :: r)) as [| |m n] eqn:E; [done| |].
  - apply ParseLoop_fuel; rewrite ?length_drop; cbn; lia.
  - apply ParseStep_packet in E as [Hn _].
    rewrite (ParseLoop_fuel _ (length (drop n (b :: r)))); [done| |done].
    rewrite length_drop. cbn. lia.
Qed.

(** Induction along the parser. *)
Lemma parse_ind (P : list Z -> Prop) :
  P [] ->
  (forall rest, rest <> [] -> ParseStep rest = Break -> P rest) ->
  (forall rest, rest <> [] -> ParseStep rest = Skip -> P (drop 1 rest) -> P rest) ->
  (forall rest m n, rest <> [] -> ParseStep rest = Packet m n -> P (drop n rest) -> P rest) ->
  forall rest, P rest.
Proof.
  intros H0 HB HS HP rest. remember (length rest) as k eqn:Hk.
  assert (length rest <= k)%nat as Hle by lia. clear Hk. revert rest Hle.
  induction k as [|k IH]; intros rest Hle.
  { destruct rest; [done|cbn in Hle; lia]. }
  destruct rest as [|b r]; [done|]. destruct (ParseStep (b :: r)) as [| |m n] eqn:E.
  - by apply HB.
  - apply HS; [done..|]. apply IH. rewrite length_drop. cbn in *. lia.
  - apply (HP _ m n); [done..|]. apply ParseStep_packet in E as [Hn _].
    apply IH. rewrite length_drop. cbn in *. lia.
Qed.

Lemma ParseBuffer_app a b :
  ParseBuffer (a ++ b) =
    let (ms, rem) := ParseBuffer a in
    let (ms', rem') := ParseBuffer (rem ++ b) in (ms ++ ms', rem').
Proof.
  induction a as [|a Hne HB|a Hne HS IH|a m n Hne HP IH] using parse_ind.
  - change (ParseBuffer []) with (@nil MotorMessage, @nil Z). cbn -[ParseBuffer].
    by destruct (ParseBuffer b).
  - rewrite (ParseBuffer_unfold a), HB by done. cbn -[ParseBuffer]. by destruct (ParseBuffer (a ++ b)).
  - rewrite (ParseBuffer_unfold a), HS by done.
    rewrite ParseBuffer_unfold by (by destruct a).
    rewrite ParseStep_app, HS by (first [done | by rewrite HS]).
    rewrite <- IH. rewrite drop_app_le by (destruct a; [done|cbn; lia]). done.
  - rewrite (ParseBuffer_unfold a), HP by done.
    rewrite ParseBuffer_unfold by (by destruct a).
    rewrite ParseStep_app, HP by (first [done | by rewrite HP]).
    apply ParseStep_packet in HP as [_ Hn]. rewrite drop_app_le by lia. rewrite IH.
    destruct (ParseBuffer (drop n a)) as [ms rem]. by destruct (ParseBuffer (rem ++ b)).
Qed.

(** What stays behind is a proper prefix of a packet, so at most 14 bytes. *)
Lemma ParseStep_break rest :
  ParseStep rest = Break -> (length rest <= 14)%nat.
Proof.
  unfold ParseStep. destruct (negb _); [done|].
  set (li := if byte_at rest 0 =? 187 then 5%nat else 3%nat).
  destruct (Nat.leb_spec (length rest) li); [intros _; subst li; destruct (_ =? _); lia|].
  destruct (_ || _) eqn:Hl; [done|].
  apply orb_false_iff in Hl as [H1 H2]. apply Nat.ltb_ge in H1.
  destruct (Nat.ltb_spec (length rest) (Z.to_nat (byte_at rest li))); [|by destruct (negb _)].
  intros _. destruct (byte_at rest 0 =? 187); lia.
Qed.

Lemma ParseBuffer_left rest : (length (ParseBuffer rest).2 <= 14)%nat.
Proof.
  induction rest as [|a Hne HB|a Hne HS IH|a m n Hne HP IH] using parse_ind.
  - cbn. lia.
  - rewrite ParseBuffer_unfold, HB by done. by apply ParseStep_break.
  - by rewrite ParseBuffer_unfold, HS by done.
  - rewrite ParseBuffer_unfold, HP by done. by destruct (ParseBuffer (drop n a)).
Qed.

Lemma ParseBuffer_settled rest :
  ParseBuffer (ParseBuffer rest).2 = ([], (ParseBuffer rest).2).
Proof.
  pose proof (ParseBuffer_app rest []) as H. rewrite app_nil_r in H.
  destruct (ParseBuffer rest) as [ms rem]. rewrite app_nil_r in H. cbn [snd].
  destruct (ParseBuffer rem) as [ms' rem']. injection H as H1 ->.
  rewrite <- (app_nil_r ms) in H1 at 1. apply app_inv_head in H1. by rewrite <- H1.
Qed.

(** A buffer in which nothing is left to parse. *)
Definition settled (buffer : list Z) : Prop := ParseBuffer buffer = ([], buffer).

Lemma settled_length buffer : settled buffer -> (length buffer <= 14)%nat.
Proof. intros H. pose proof (ParseBuffer_left buffer) as Hl. by rewrite H in Hl. Qed.

(** The [while] makes progress, since a settled buffer has room. *)
Lemma ReceiveLoop_parse fuel : forall buffer bytes,
  settled buffer -> (length bytes <= fuel)%nat ->
  ReceiveLoop fuel buffer bytes = Some (ParseBuffer (buffer ++ bytes)).
Proof.
  induction fuel as [|f IH]; intros buffer bytes Hs Hf.
  { destruct bytes; [cbn; by rewrite app_nil_r, Hs|cbn in Hf; lia]. }
  destruct bytes as [|b bs]; [cbn; by rewrite app_nil_r, Hs|].
  set (bytes := b :: bs) in *. pose proof (settled_length buffer Hs) as Hl.
  assert (ReceiveLoop (S f) buffer bytes =
    let count := Nat.min (length bytes) (kReadBufferSize - length buffer) in
    let (ms, rem) := ParseBuffer (buffer ++ take count bytes) in
    match ReceiveLoop f rem (drop count bytes) with
    | None => None
    | Some (ms', rem') => Some (ms ++ ms', rem')
    end) as -> by reflexivity. cbv zeta.
  set (count := Nat.min (length bytes) (kReadBufferSize - length buffer)).
  assert (0 < count)%nat as Hc by (subst count bytes; unfold kReadBufferSize; cbn [length]; lia).
  replace (buffer ++ bytes) with ((buffer ++ take count bytes) ++ drop count bytes)
    by (by rewrite <- app_assoc, take_drop).
  rewrite (ParseBuffer_app (buffer ++ take count bytes)).
  pose proof (ParseBuffer_settled (buffer ++ take count bytes)) as Hset.
  destruct (ParseBuffer (buffer ++ take count bytes)) as [ms rem]. cbn [snd] in Hset.
  rewrite IH; [by destruct (ParseBuffer (rem ++ drop count bytes))|done|].
  rewrite length_drop. lia.
Qed.

(** The receiver over the chunks the port delivers. *)
Fixpoint ReceiveChunks (buffer : list Z) (chunks : list (list Z)) :
    option (list MotorMessage * list Z) :=
  match chunks with
  | [] => Some ([], buffer)
  | c :: cs =>
      match ReceiveBytes buffer c with
      | None => None
      | Some (ms, rem) =>
          match ReceiveChunks rem cs with
          | None => None
          | Some (ms', rem') => Some (ms ++ ms', rem')
          end
      end
  end.

Lemma ReceiveChunks_parse chunks : forall buffer,
  settled buffer -> ReceiveChunks buffer chunks = Some (ParseBuffer (buffer ++ concat chunks)).
Proof.
  induction chunks as [|c cs IH]; intros buffer Hs; cbn.
  - by rewrite app_nil_r, Hs.
  - unfold ReceiveBytes. rewrite ReceiveLoop_parse by done.
    rewrite app_assoc, (ParseBuffer_app (buffer ++ c)).
    pose proof (ParseBuffer_settled (buffer ++ c)) as Hset.
    destruct (ParseBuffer (buffer ++ c)) as [ms rem]. cbn [snd] in Hset.
    rewrite IH by done. by destruct (ParseBuffer (rem ++ concat cs)).
Qed.

(** What the peer sees of a message: undefined and unsupported flags dropped,
    the payload beyond its length zeroed. *)
Definition received (m : MotorMessage) : MotorMessage :=
  let msg := mdata m in
  mkMsg 0 (mkPack (id msg)
    (if CanFrameFlagsUseExtendedId (frame_flags msg) then kCanFrameFlagEff else 0) (len msg)
    (take (Z.to_nat (len msg)) (data msg) ++ replicate (8 - Z.to_nat (len msg)) 0)).

(** The ids the frame has room for. *)
Definition sendable (m : MotorMessage) : Prop :=
  pack_wf (mdata m) /\ len (mdata m) <= 8 /\
  (CanFrameFlagsUseExtendedId (frame_flags (mdata m)) = false -> id (mdata m) < 65536).

Lemma calc_byte l : byte_ok (calc l).
Proof.
  unfold calc. destruct l as [|b l _] using rev_ind; [by unfold byte_ok|].
  rewrite fold_left_app. apply u8_ok.
Qed.

Lemma calc_snoc_zero l : calc (l ++ [0]) = calc l.
Proof.
  pose proof (calc_byte l) as H. unfold calc in *. rewrite fold_left_app. cbn [fold_left].
  rewrite Z.add_0_r. by apply u8_small.
Qed.

(** A frame is a header, a payload and a checksum; the parser accepts it. *)
Lemma ParseStep_checked (header payload : list Z) (extended : bool) :
  let hs := if extended then 6%nat else 4%nat in
  let frame := (header ++ payload) ++ [calc (header ++ payload)] in
  length header = hs -> (length payload <= 8)%nat ->
  byte_at header 0 = (if extended then 187 else 170) ->
  byte_at header (hs - 1) = Z.of_nat (length frame) ->
  ParseStep frame = Packet (packet_message extended frame hs (length frame)) (length frame).
Proof.
  cbv zeta. intros Hh Hp H0 Hl. unfold ParseStep.
  set (body := header ++ payload) in *.
  assert (length body = length header + length payload)%nat as Hlb
    by (subst body; apply length_app).
  assert (length (body ++ [calc body]) = S (length body)) as Hlf
    by (rewrite length_app; cbn; lia).
  assert (Hat : forall k, (k < length header)%nat -> byte_at (body ++ [calc body]) k = byte_at header k).
  { intros k Hk. rewrite byte_at_app_l by lia. subst body. by apply byte_at_app_l. }
  rewrite Hat by (destruct extended; lia). rewrite H0.
  assert (((if extended then 187 else 170) =? 187) = extended) as -> by (by destruct extended).
  assert (negb (((if extended then 187 else 170) =? 170) || extended) = false) as ->
    by (by destruct extended).
  assert ((if extended then 5%nat else 3%nat) = ((if extended then 6 else 4) - 1)%nat) as ->
    by (by destruct extended).
  set (hs := if extended then 6%nat else 4%nat) in *.
  assert (4 <= hs <= 6)%nat as Hhs by (subst hs; destruct extended; lia).
  rewrite (proj2 (Nat.leb_gt _ _)) by lia. rewrite Hat, Hl, Nat2Z.id by lia.
  rewrite (proj2 (Nat.ltb_ge _ _)) by lia. rewrite (proj2 (Nat.leb_gt _ _)) by lia.
  cbn [orb]. rewrite (proj2 (Nat.ltb_ge _ _)) by lia.
  rewrite Hlf. replace (S (length body) - 1)%nat with (length body) by lia.
  rewrite take_app_length. unfold byte_at at 1. rewrite app_nth2, Nat.sub_diag by lia.
  cbn [nth]. by rewrite Z.eqb_refl.
Qed.

Lemma ParseStep_frame m f :
  sendable m -> SendFrame m = Some f -> ParseStep f = Packet (received m) (length f).
Proof.
  intros ((Hi & Hf & Hl & H8 & Hb) & Hl8 & Hid) Hs. destruct m as [bus [i fl l d]].
  cbn in Hi, Hf, Hl, H8, Hb, Hl8, Hid. unfold byte_ok in Hl. unfold SendFrame in Hs.
  cbn [mdata frame_flags id len data] in Hs. destruct (Z.ltb_spec 8 l); [done|].
  assert (CanFrameFlagsUseExtendedId (SanitizeCanFrameFlags fl) = CanFrameFlagsUseExtendedId fl) as He
    by (unfold CanFrameFlagsUseExtendedId; by rewrite sanitize_idem).
  rewrite He in Hs. set (ext := CanFrameFlagsUseExtendedId fl) in *.
  set (payload := take (Z.to_nat l) d) in *.
  assert (length payload = Z.to_nat l) as Hpl by (subst payload; rewrite length_take; lia).
  rewrite calc_snoc_zero in Hs. injection Hs as <-.
  assert (Hdrop : forall h, length h = (if ext then 6 else 4)%nat ->
    forall c, take (length ((h ++ payload) ++ [c]) - length h - 1)
      (drop (length h) ((h ++ payload) ++ [c])) = payload).
  { intros h Hh c. rewrite <- app_assoc, drop_app_length. rewrite !length_app. cbn [length].
    replace (_ + _ - _ - 1)%nat with (length payload) by lia. apply take_app_length. }
  assert (Z.of_nat (Z.to_nat l) = l) as Hzl by lia.
  unfold received. cbn [mdata frame_flags id len data]. fold ext payload.
  assert (Hm : forall x, u8 (x .& 255) = u8 x) by (intros; cint_solve).
  assert (Hlen : forall n, n = Z.to_nat l -> u8 (Z.of_nat n) = l)
    by (intros n ->; rewrite Hzl; apply u8_small; unfold byte_ok; lia).
  destruct ext.
  - rewrite (ParseStep_checked _ payload true); [f_equal|reflexivity|lia|reflexivity|].
    2: { cbn [Nat.sub byte_at nth]. rewrite !length_app, Hpl. cbn [length].
         rewrite u8_small by (unfold byte_ok; lia). lia. }
    unfold packet_message. rewrite Hdrop, Hpl by reflexivity.
    f_equal. f_equal; [|rewrite !length_app; apply Hlen; cbn [length]; lia].
    unfold byte_at. cbn [app nth]. rewrite !Hm. by apply be32_split.
  - rewrite (ParseStep_checked _ payload false); [f_equal|reflexivity|lia|reflexivity|].
    2: { cbn [Nat.sub byte_at nth]. rewrite !length_app, Hpl. cbn [length].
         rewrite u8_small by (unfold byte_ok; lia). lia. }
    unfold packet_message. rewrite Hdrop, Hpl by reflexivity.
    f_equal. f_equal; [|rewrite !length_app; apply Hlen; cbn [length]; lia].
    unfold byte_at. cbn [app nth]. rewrite !Hm. apply be16_split. specialize (Hid eq_refl). lia.
Qed.

Lemma SendFrame_nonempty m f : SendFrame m = Some f -> f <> [].
Proof.
  unfold SendFrame. destruct (8 <? _); [done|]. intros [= <-]. by destruct (CanFrameFlagsUseExtendedId _).
Qed.

Lemma ParseBuffer_frames ms fs :
  Forall sendable ms -> Forall2 (fun m f => SendFrame m = Some f) ms fs ->
  ParseBuffer (concat fs) = (map received ms, []).
Proof.
  intros Hms H. induction H as [|m f ms fs Hf _ IH]; [done|].
  apply Forall_cons_1 in Hms as [Hm Hms]. cbn [concat map].
  pose proof (SendFrame_nonempty m f Hf) as Hne. pose proof (ParseStep_frame m f Hm Hf) as HP.
  rewrite ParseBuffer_unfold by (by destruct f).
  rewrite ParseStep_app, HP by (first [done|by rewrite HP]).
  rewrite drop_app_length, IH by done. done.
Qed.

(** ** Theorems *)

(** The receiver always makes progress and is equivalent to one parse of the
    whole stream: however the port chops the bytes into chunks (even chunks
    larger than the read buffer), [ReceiveBytes] terminates, the messages
    delivered are those of parsing the concatenation at once, and at most 14
    bytes (a proper prefix of a packet) wait in the 4096-byte buffer. *)
Lemma usb_stream (chunks : list (list Z)) :
  ReceiveChunks [] chunks = Some (ParseBuffer (concat chunks)) /\
  (length (ParseBuffer (concat chunks)).2 <= 14)%nat.
Proof. split; [exact (ReceiveChunks_parse chunks [] eq_refl)|apply ParseBuffer_left]. Qed.

(** Stream round trip: the frames [Send] writes for any sequence of messages
    whose ids fit, cut into chunks in any way, are read back as exactly these
    messages in order (undefined flags dropped, payload padding zeroed), with
    nothing left in the buffer. *)
Lemma usb_roundtrip (ms : list MotorMessage) (fs chunks : list (list Z)) :
  Forall sendable ms -> Forall2 (fun m f => SendFrame m = Some f) ms fs ->
  concat chunks = concat fs ->
  ReceiveChunks [] chunks = Some (map received ms, []).
Proof.
  intros Hms Hfs Hc. rewrite ReceiveChunks_parse by done. cbn [app].
  by rewrite Hc, (ParseBuffer_frames ms fs).
Qed.

Lemma usb_roundtrip_witness :
  let m1 := mkMsg 0 (make_pack 291 3 [1; 171; 187]) in
  let m2 := mkMsg 0 (mkPack 305419896 1 1 (170 :: replicate 7 0)) in
  exists f1 f2, SendFrame m1 = Some f1 /\ SendFrame m2 = Some f2 /\
    ReceiveChunks [] [take 5 f1; drop 5 f1 ++ take 3 f2; drop 3 f2] = Some ([m1; m2], []).
Proof.
  cbv zeta. eexists _, _. split; [vm_compute; reflexivity|]. split; [vm_compute; reflexivity|].
  rewrite (usb_roundtrip
    [mkMsg 0 (make_pack 291 3 [1; 171; 187]); mkMsg 0 (mkPack 305419896 1 1 (170 :: replicate 7 0))]
    [[170; 1; 35; 8; 1; 171; 187; 61]; [187; 18; 52; 86; 120; 8; 170; 129]]).
  - reflexivity.
  - repeat constructor; unfold byte_ok; cbn; intros; try lia; done.
  - repeat constructor.
  - reflexivity.
Defined.
