(* ===== verification/Port.v ===== *)
(** * Port: include/utils/port.h

    The lock-free single-producer single-consumer mailbox.  [Push] and [Pop] run
    concurrently; every access to a shared word is one step of [step], so a
    reachable state is a state of some interleaving (all the atomics are
    sequentially consistent).  The payload is not atomic: its construction is
    two steps with an indeterminate value between them. *)
From stdpp Require Import base list numbers option functions relations.
From Stdlib Require Import ZArith Lia Sorted.
From S2P Require Import Prelude.
#[local] Open Scope Z_scope.
#[local] Open Scope cint_scope.

Definition kPortCellCount : nat := 3.
Definition kPortNoHazard : nat := kPortCellCount.

(** [PortSequenceMetadata] (words: sequence low, sequence high) and
    [PortSlotMetadata] (a third word: the cell). *)
Record Meta := mkMeta { version : Z; words : list Z; writer_version : Z }.

Inductive Loc := Head | SlotAt (i : nat).
#[export] Instance Loc_eq_dec : EqDecision Loc.
Proof. solve_decision. Defined.

(** The public operations of the consumer that read the head. *)
Inductive Call := CallPop | CallClear | CallEmpty.

Lemma sorted_snoc (l : list Z) (x : Z) :
  StronglySorted Z.lt l -> (forall y, y ∈ l -> y < x) -> StronglySorted Z.lt (l ++ [x]).
Proof.
  induction 1 as [|y l Hl IH Hy]; intros H; cbn; [by repeat constructor|].
  constructor; [apply IH; intros z Hz; apply H; by right|].
  apply list.Forall_app. split; [done|]. apply list.Forall_singleton. apply H. by left.
Qed.

Section Port.
Context {Message : Type} (Len : nat) (has_callback : bool).

(** ** Shared memory *)

(** A [Slot], or the [PortHeadPublication] (whose payloads are not used).  A
    payload is [None] when its storage holds no constructed message. *)
Record Object := mkObject {
  payloads : nat -> option Message;
  metadata : nat -> Meta;
  reader_hazard : nat;
  published_active : nat;
  producer_active : nat
}.

Definition new_object (nwords : nat) : Object :=
  mkObject (fun _ => None) (fun _ => mkMeta 0 (replicate nwords 0) 0) kPortNoHazard 0 0.

Definition set_hazard (h : nat) (o : Object) : Object :=
  mkObject (payloads o) (metadata o) h (published_active o) (producer_active o).

(** ** Producer *)

(** One store of the producer, to the cell [c] of the object it publishes. *)
Inductive Store :=
  | PayloadBegin (c : nat)
  | PayloadEnd (c : nat) (m : Message)
  | VersionOdd (c : nat) (v : Z)
  | WordStore (c : nat) (i : nat) (w : Z)
  | VersionDone (c : nat) (v : Z)   (* and [writer_version_ = next_version] *)
  | ActiveStore (c : nat).          (* and [producer_active = next_cell] *)

Definition set_payload (c : nat) (p : option Message) (o : Object) : Object :=
  mkObject (<[c := p]> (payloads o)) (metadata o) (reader_hazard o)
    (published_active o) (producer_active o).
Definition set_meta (c : nat) (f : Meta -> Meta) (o : Object) : Object :=
  mkObject (payloads o) (<[c := f (metadata o c)]> (metadata o)) (reader_hazard o)
    (published_active o) (producer_active o).

Definition apply_store (o : Object) (s : Store) : Object :=
  match s with
  | PayloadBegin c => set_payload c None o
  | PayloadEnd c m => set_payload c (Some m) o
  | VersionOdd c v => set_meta c (fun t => mkMeta v (words t) (writer_version t)) o
  | WordStore c i w => set_meta c (fun t => mkMeta (version t) (<[i := w]> (words t)) (writer_version t)) o
  | VersionDone c v => set_meta c (fun t => mkMeta v (words t) v) o
  | ActiveStore c => mkObject (payloads o) (metadata o) (reader_hazard o) c c
  end.

(** [Prepare]: odd version, the words in order, even version. *)
Definition Prepare (c : nat) (t : Meta) (ws : list Z) : list Store :=
  let next_version := u32 (writer_version t + 2) in
  [VersionOdd c (u32 (next_version - 1))] ++ imap (WordStore c) ws ++ [VersionDone c next_version].

Definition sequence_words (s : Z) : list Z := [u32 s; u32 (s ≫ 32)].

(** The first cell after the active one that the reader does not hold. *)
Definition next_cell (o : Object) : nat :=
  let n := ((producer_active o + 1) mod kPortCellCount)%nat in
  if decide (n = reader_hazard o) then ((n + 1) mod kPortCellCount)%nat else n.

Definition slot_stores (o : Object) (n : nat) (s : Z) (m : Message) : list Store :=
  [PayloadBegin n; PayloadEnd n m] ++
  Prepare n (metadata o n) (sequence_words s ++ [Z.of_nat n]) ++ [ActiveStore n].

(** [PortHeadPublication::Publish] after the load of the hazard. *)
Definition head_stores (o : Object) (n : nat) (s : Z) : list Store :=
  Prepare n (metadata o n) (sequence_words s) ++ [ActiveStore n].

(** Where the producer is in [Push]: about to load the slot's hazard, in the
    slot's stores, about to load the head's hazard, in the head's stores, or
    about to call the callback. *)
Inductive Producer :=
  | PIdle
  | PSlotHazard (m : Message)
  | PSlot (m : Message) (n : nat) (pending : list Store)
  | PHeadHazard (m : Message)
  | PHead (m : Message) (n : nat) (pending : list Store)
  | PCallback (m : Message).

(** ** Consumer *)

Inductive Outcome :=
  | ORetry                          (* a validation failed *)
  | OSeq (s : Z)                    (* the head, or another sequence than the target *)
  | OMessage (m : option Message).  (* the payload read; [None] would be a torn one *)

(** Where the consumer is in the protected read of an object. *)
Inductive Reader :=
  | RLoad
  | RHazard (c : nat)
  | RRecheck (c : nat)
  | RMeta (c : nat) (loaded : list Z)
  | RPayload (c : nat)
  | RClear (c : nat) (out : Outcome).

Inductive Consumer :=
  | CIdle
  | CHead (call : Call) (r : Reader)
  | CSlot (r : Reader).

Inductive Return :=
  | Popped (s : Z) (m : option Message)
  | PopEmpty
  | Cleared (h : Z)
  | IsEmpty (b : bool).

Record State := mkState {
  mem : Loc -> Object;
  producer : Producer;
  producer_sequence : Z;
  consumer : Consumer;
  consumer_sequence : Z;
  validation_failure_count : Z;
  (* what the threads have observed *)
  history : list Message;    (* the messages pushed, in order *)
  notified : list Message;   (* the calls of the callback *)
  returns : list Return;     (* the results of the consumer's calls *)
  call_floor : Z             (* the head published when the call began *)
}.

Definition initial : State :=
  mkState (fun l => new_object (match l with Head => 2 | SlotAt _ => 3 end)) PIdle 0 CIdle 1 0
    [] [] [] 0.

Definition slot_index (s : Z) : nat := Z.to_nat (u64 (s - 1) mod Z.of_nat Len).

Definition set_producer (p : Producer) (st : State) : State :=
  mkState (mem st) p (producer_sequence st) (consumer st) (consumer_sequence st)
    (validation_failure_count st) (history st) (notified st) (returns st) (call_floor st).
Definition set_mem (l : Loc) (o : Object) (st : State) : State :=
  mkState (<[l := o]> (mem st)) (producer st) (producer_sequence st) (consumer st)
    (consumer_sequence st) (validation_failure_count st) (history st) (notified st)
    (returns st) (call_floor st).
Definition set_consumer (c : Consumer) (cs : Z) (failures : Z) (st : State) : State :=
  mkState (mem st) (producer st) (producer_sequence st) c cs failures (history st)
    (notified st) (returns st) (call_floor st).
Definition answer (r : Return) (cs : Z) (failures : Z) (st : State) : State :=
  mkState (mem st) (producer st) (producer_sequence st) CIdle cs failures (history st)
    (notified st) (returns st ++ [r]) (call_floor st).

(** ** One step of [Push] *)

Definition push_slot (st : State) : Loc := SlotAt (slot_index (u64 (producer_sequence st + 1))).

Definition producer_step (st : State) : State :=
  let sequence := u64 (producer_sequence st + 1) in
  match producer st with
  | PIdle => st
  | PSlotHazard m =>
      let o := mem st (push_slot st) in
      let n := next_cell o in
      set_producer (PSlot m n (slot_stores o n sequence m)) st
  | PSlot m n (s :: pending) =>
      set_producer (PSlot m n pending)
        (set_mem (push_slot st) (apply_store (mem st (push_slot st)) s) st)
  | PSlot m n [] => set_producer (PHeadHazard m) st
  | PHeadHazard m =>
      let o := mem st Head in
      let n := next_cell o in
      set_producer (PHead m n (head_stores o n sequence)) st
  | PHead m n (s :: pending) =>
      set_producer (PHead m n pending) (set_mem Head (apply_store (mem st Head) s) st)
  | PHead m n [] =>
      mkState (mem st) (PCallback m) sequence (consumer st) (consumer_sequence st)
        (validation_failure_count st) (history st) (notified st) (returns st) (call_floor st)
  | PCallback m =>
      mkState (mem st) PIdle (producer_sequence st) (consumer st) (consumer_sequence st)
        (validation_failure_count st) (history st)
        (notified st ++ if has_callback then [m] else []) (returns st) (call_floor st)
  end.

(** ** One step of the consumer *)

Definition combine (low high : Z) : Z := low .| (high ≪ 32).

(** The [i]-th load of [ReadProtected]: the version, the words, the version. *)
Definition meta_load (t : Meta) (i : nat) : Z :=
  match i with
  | O => version t
  | S k => match words t !! k with Some w => w | None => version t end
  end.

Definition protected_ok (loaded : list Z) (nwords : nat) : bool :=
  Z.even (byte_at loaded 0) && (byte_at loaded 0 =? byte_at loaded (S nwords)).

(** After the last load of [ReadProtected]. *)
Definition decide_head (c : nat) (loaded : list Z) : Reader :=
  if protected_ok loaded 2 then RClear c (OSeq (combine (byte_at loaded 1) (byte_at loaded 2)))
  else RClear c ORetry.

Definition decide_slot (target : Z) (c : nat) (loaded : list Z) : Reader :=
  if negb (protected_ok loaded 3) || negb (byte_at loaded 3 =? Z.of_nat c) then RClear c ORetry
  else
    let sequence := combine (byte_at loaded 1) (byte_at loaded 2) in
    if negb (sequence =? target) then RClear c (OSeq sequence) else RPayload c.

(** The reader's next phase and the object after a step before [RClear]. *)
Definition reader_step (nwords : nat) (decision : nat -> list Z -> Reader) (o : Object)
    (r : Reader) : Reader * Object :=
  match r with
  | RLoad => (RHazard (published_active o), o)
  | RHazard c => (RRecheck c, set_hazard c o)
  | RRecheck c => (if decide (published_active o = c) then RMeta c [] else RClear c ORetry, o)
  | RMeta c loaded =>
      let loaded' := loaded ++ [meta_load (metadata o c) (length loaded)] in
      (if (length loaded' <? nwords + 2)%nat then RMeta c loaded' else decision c loaded', o)
  | RPayload c => (RClear c (OMessage (payloads o c)), o)
  | RClear c out => (RClear c out, set_hazard kPortNoHazard o)
  end.

Definition oldest_for (s : Z) : Z := if Z.of_nat Len <? s then u64 (s - Z.of_nat Len + 1) else 1.

(** [Pop], [Clear] or [Empty] with the head it read. *)
Definition after_head (call : Call) (head : Z) (st : State) : State :=
  let cs := consumer_sequence st in
  let failures := validation_failure_count st in
  match call with
  | CallPop =>
      if head <? cs then answer PopEmpty cs failures st
      else set_consumer (CSlot RLoad) (if cs <? oldest_for head then oldest_for head else cs)
             failures st
  | CallClear => answer (Cleared head) (u64 (head + 1)) failures st
  | CallEmpty => answer (IsEmpty (head <? cs)) cs failures st
  end.

(** [Pop] with the outcome of [ReadTarget]. *)
Definition after_slot (out : Outcome) (st : State) : State :=
  let cs := consumer_sequence st in
  let failures := validation_failure_count st in
  match out with
  | OMessage m => answer (Popped cs m) (u64 (cs + 1)) failures st
  | ORetry => set_consumer (CHead CallPop RLoad) cs (u64 (failures + 1)) st
  | OSeq s =>
      if negb (cs <? s) then answer PopEmpty cs (u64 (failures + 1)) st
      else set_consumer (CHead CallPop RLoad) (if cs <? oldest_for s then oldest_for s else cs)
             (u64 (failures + 1)) st
  end.

Definition consumer_step (st : State) : State :=
  let cs := consumer_sequence st in
  let failures := validation_failure_count st in
  match consumer st with
  | CIdle => st
  | CHead call r =>
      let (r', o) := reader_step 2 decide_head (mem st Head) r in
      let st' := set_mem Head o st in
      match r with
      | RClear _ (OSeq h) => after_head call h st'
      | RClear _ _ => set_consumer (CHead call RLoad) cs (u64 (failures + 1)) st'
      | _ => set_consumer (CHead call r') cs failures st'
      end
  | CSlot r =>
      let l := SlotAt (slot_index cs) in
      let (r', o) := reader_step 3 (decide_slot cs) (mem st l) r in
      let st' := set_mem l o st in
      match r with
      | RClear _ out => after_slot out st'
      | _ => set_consumer (CSlot r') cs failures st'
      end
  end.

(** ** Interleavings *)

(** The sequence that the head publishes. *)
Definition published_head (st : State) : Z :=
  let t := metadata (mem st Head) (published_active (mem st Head)) in
  combine (byte_at (words t) 0) (byte_at (words t) 1).

Definition start_push (m : Message) (st : State) : State :=
  mkState (mem st) (PSlotHazard m) (producer_sequence st) (consumer st) (consumer_sequence st)
    (validation_failure_count st) (history st ++ [m]) (notified st) (returns st) (call_floor st).
Definition start_call (call : Call) (st : State) : State :=
  mkState (mem st) (producer st) (producer_sequence st) (CHead call RLoad) (consumer_sequence st)
    (validation_failure_count st) (history st) (notified st) (returns st) (published_head st).

Inductive step : State -> State -> Prop :=
  | step_push st m : producer st = PIdle -> step st (start_push m st)
  | step_producer st : producer st <> PIdle -> step st (producer_step st)
  | step_call st call : consumer st = CIdle -> step st (start_call call st)
  | step_consumer st : consumer st <> CIdle -> step st (consumer_step st).

Definition reachable (st : State) : Prop := rtc step initial st.

(** A schedule: which thread moves, and what its environment asks. *)
Inductive Move := MPush (m : Message) | MCall (call : Call) | MProducer | MConsumer.

Definition move (st : State) (mv : Move) : State :=
  match mv with
  | MPush m => match producer st with PIdle => start_push m st | _ => st end
  | MCall call => match consumer st with CIdle => start_call call st | _ => st end
  | MProducer => producer_step st
  | MConsumer => consumer_step st
  end.
Definition run (schedule : list Move) (st : State) : State := fold_left move schedule st.

(** ** The invariant *)

Fixpoint slot_seq (n : nat) (i : nat) : nat :=
  match n with
  | O => O
  | S k => if decide (slot_index (Z.of_nat (S k)) = i) then S k else slot_seq k i
  end.

Definition seq_of (slots head : nat) (l : Loc) : nat :=
  match l with Head => head | SlotAt i => slot_seq slots i end.

Definition msg_at (h : list Message) (s : nat) : option Message :=
  match s with O => None | S k => h !! k end.

Definition nwords (l : Loc) : nat := match l with Head => 2 | SlotAt _ => 3 end.
Definition enc (l : Loc) (c s : nat) : list Z :=
  sequence_words (Z.of_nat s) ++ match l with Head => [] | SlotAt _ => [Z.of_nat c] end.

(** The cell [c] holds the publication of sequence [s]. *)
Record cell_ok (l : Loc) (h : list Message) (o : Object) (c s : nat) : Prop := {
  cell_version : version (metadata o c) = writer_version (metadata o c);
  cell_words : words (metadata o c) = enc l c s;
  cell_payload : match l with Head => True | SlotAt _ => payloads o c = msg_at h s end
}.

Record meta_ok (l : Loc) (t : Meta) : Prop := {
  meta_even : Z.even (writer_version t) = true;
  meta_range : 0 <= writer_version t < 4294967296;
  meta_words : length (words t) = nwords l
}.

Record object_ok (l : Loc) (h : list Message) (o : Object) (s : nat) : Prop := {
  object_active : producer_active o = published_active o;
  object_lt : (published_active o < 3)%nat;
  object_meta : forall c, meta_ok l (metadata o c);
  object_cell : cell_ok l h o (published_active o) s
}.

Definition store_on (n : nat) (s : Store) : Prop :=
  match s with
  | PayloadBegin c | PayloadEnd c _ | WordStore c _ _ | VersionOdd c _ => c = n
  | VersionDone c v => c = n /\ Z.even v = true /\ 0 <= v < 4294967296
  | ActiveStore _ => False
  end.

Lemma combine_words s :
  (Z.of_nat s < 2 ^ 64) ->
  combine (byte_at (sequence_words (Z.of_nat s)) 0) (byte_at (sequence_words (Z.of_nat s)) 1)
    = Z.of_nat s.
Proof.
  intros Hs. unfold combine, sequence_words, byte_at. cbn [nth].
  rewrite lor_add_shiftl; [|lia|apply u32_range]. cint_solve.
Qed.

Lemma apply_store_active n s o :
  store_on n s ->
  published_active (apply_store o s) = published_active o /\
  producer_active (apply_store o s) = producer_active o /\
  reader_hazard (apply_store o s) = reader_hazard o.
Proof. by destruct s. Qed.

Lemma apply_store_other n s o c :
  store_on n s -> c <> n ->
  metadata (apply_store o s) c = metadata o c /\ payloads (apply_store o s) c = payloads o c.
Proof.
  destruct s; cbn; intros Hs Hc; try done; destruct_and?; subst;
    by rewrite ?fn_lookup_insert_ne.
Qed.

Lemma apply_store_meta l n s o :
  store_on n s -> (forall c, meta_ok l (metadata o c)) ->
  forall c, meta_ok l (metadata (apply_store o s) c).
Proof.
  intros Hs Ho c. destruct (decide (c = n)) as [->|Hc].
  2: { by rewrite (proj1 (apply_store_other n s o c Hs Hc)). }
  destruct (Ho n) as [H1 H2 H3].
  destruct s; cbn in *; destruct_and?; subst; rewrite ?fn_lookup_insert; try done;
    constructor; cbn; rewrite ?length_insert; done.
Qed.

Lemma cell_ok_ext l h o o' c s :
  metadata o' c = metadata o c -> payloads o' c = payloads o c ->
  cell_ok l h o c s -> cell_ok l h o' c s.
Proof. intros Hm Hp []. constructor; by rewrite ?Hm, ?Hp. Qed.

Lemma cell_ok_store l h n s o c q :
  store_on n s -> c <> n -> cell_ok l h o c q -> cell_ok l h (apply_store o s) c q.
Proof. intros Hs Hc. by apply cell_ok_ext; apply (apply_store_other n). Qed.

Lemma msg_at_snoc h m s : (s <= length h)%nat -> msg_at (h ++ [m]) s = msg_at h s.
Proof. destruct s as [|k]; cbn; [done|]. intros. by rewrite lookup_app_l by lia. Qed.

Lemma cell_ok_snoc l h m o c s :
  (s <= length h)%nat -> cell_ok l h o c s -> cell_ok l (h ++ [m]) o c s.
Proof. intros Hs []. constructor; [done|done|]. destruct l; [done|]. by rewrite msg_at_snoc. Qed.

Lemma object_store l h n s o q :
  store_on n s -> n <> published_active o -> object_ok l h o q -> object_ok l h (apply_store o s) q.
Proof.
  intros Hs Hn [Ha Hl Hm Hc]. destruct (apply_store_active n s o Hs) as (E1 & E2 & E3).
  constructor; rewrite ?E1, ?E2; try done.
  - by apply (apply_store_meta l n).
  - by apply (cell_ok_store l h n).
Qed.

Lemma object_activate l h n o q q' :
  object_ok l h o q -> (n < 3)%nat -> cell_ok l h o n q' ->
  object_ok l h (apply_store o (ActiveStore n)) q'.
Proof. intros [Ha Hl Hm Hc] Hn Hc'. constructor; try done. by apply (cell_ok_ext _ _ o). Qed.

Lemma slot_seq_le n i : (slot_seq n i <= n)%nat.
Proof. induction n as [|k IH]; cbn; [lia|]. destruct (decide _); lia. Qed.

Lemma slot_seq_mono n n' i : (n <= n')%nat -> (slot_seq n i <= slot_seq n' i)%nat.
Proof.
  induction 1 as [|k Hk IH]; [done|]. cbn. pose proof (slot_seq_le n i).
  destruct (decide _); lia.
Qed.

Lemma slot_seq_ge n s :
  (1 <= s <= n)%nat -> (s <= slot_seq n (slot_index (Z.of_nat s)))%nat.
Proof.
  induction n as [|k IH]; [lia|]. intros Hs. cbn. destruct (decide _) as [|E]; [lia|].
  destruct (decide (s = S k)) as [->|]; [done|]. apply IH. lia.
Qed.

(** The publications completed: of the slots and of the head. *)
Definition slots_done (st : State) : nat :=
  match producer st with
  | PSlotHazard _ | PSlot _ _ (_ :: _) => pred (length (history st))
  | _ => length (history st)
  end.
Definition head_done (st : State) : nat :=
  match producer st with
  | PIdle | PCallback _ | PHead _ _ [] => length (history st)
  | _ => pred (length (history st))
  end.
Definition seqs (st : State) : Loc -> nat := seq_of (slots_done st) (head_done st).

Definition held (r : Reader) : nat :=
  match r with
  | RRecheck c | RMeta c _ | RPayload c | RClear c _ => c
  | _ => kPortNoHazard
  end.
(** The cell that the reader has validated and may read. *)
Definition protected (r : Reader) : option nat :=
  match r with RMeta c _ | RPayload c => Some c | _ => None end.

Definition reader_at (st : State) (l : Loc) : option Reader :=
  match consumer st with
  | CIdle => None
  | CHead _ r => if decide (l = Head) then Some r else None
  | CSlot r => if decide (l = SlotAt (slot_index (consumer_sequence st))) then Some r else None
  end.
Definition hazard_at (st : State) (l : Loc) : nat :=
  match reader_at st l with Some r => held r | None => kPortNoHazard end.
Definition protected_at (st : State) (l : Loc) : option nat :=
  match reader_at st l with Some r => protected r | None => None end.

Definition writing (st : State) : option (Loc * nat * list Store) :=
  match producer st with
  | PSlot _ n (s :: p) => Some (push_slot st, n, s :: p)
  | PHead _ n (s :: p) => Some (Head, n, s :: p)
  | _ => None
  end.

(** What the pending stores of the producer will do. *)
Definition writer_ok (m : Loc -> Object) (h : list Message) (prot : Loc -> option nat)
    (w : Loc * nat * list Store) : Prop :=
  let '(l, n, pending) := w in
  exists front, pending = front ++ [ActiveStore n] /\ Forall (store_on n) front /\
    (n < 3)%nat /\ n <> published_active (m l) /\ prot l <> Some n /\
    cell_ok l h (fold_left apply_store front (m l)) n (length h).

Definition reader_ok (l : Loc) (h : list Message) (o : Object) (lo hi : Z) (r : Reader) : Prop :=
  match r with
  | RMeta c loaded =>
      (exists q, lo <= Z.of_nat q <= hi /\ cell_ok l h o c q) /\
      loaded = map (meta_load (metadata o c)) (seq 0 (length loaded)) /\
      (length loaded < nwords l + 2)%nat
  | RPayload c => l <> Head /\ exists q, Z.of_nat q = lo /\ cell_ok l h o c q
  | RClear _ (OSeq s) => lo <= s <= hi /\ (l <> Head -> s <> lo)
  | RClear _ (OMessage m) => l <> Head /\ m = msg_at h (Z.to_nat lo)
  | _ => True
  end.

Definition producer_ok (st : State) : Prop :=
  let n := length (history st) in
  match producer st with
  | PIdle => producer_sequence st = Z.of_nat n
  | PCallback m => producer_sequence st = Z.of_nat n /\ msg_at (history st) n = Some m
  | PSlotHazard m | PSlot m _ _ | PHeadHazard m | PHead m _ _ =>
      producer_sequence st + 1 = Z.of_nat n /\ msg_at (history st) n = Some m
  end.

Definition consumer_ok (st : State) : Prop :=
  let cs := consumer_sequence st in
  match consumer st with
  | CIdle => True
  | CHead call r =>
      reader_ok Head (history st) (mem st Head) (call_floor st) (Z.of_nat (head_done st)) r /\
      call_floor st <= Z.of_nat (head_done st) /\ (call <> CallPop -> cs <= call_floor st + 1)
  | CSlot r =>
      let l := SlotAt (slot_index cs) in
      reader_ok l (history st) (mem st l) cs (Z.of_nat (slots_done st)) r /\
      cs <= Z.of_nat (head_done st) /\ call_floor st <= Z.of_nat (head_done st)
  end.

Definition popped_of (r : Return) : option Z := match r with Popped s _ => Some s | _ => None end.
Definition popped (st : State) : list Z := omap popped_of (returns st).

Record log_ok (st : State) : Prop := {
  log_range : 1 <= consumer_sequence st <= Z.of_nat (head_done st) + 1;
  log_value : forall s m, Popped s m ∈ returns st ->
    1 <= s < consumer_sequence st /\ m = msg_at (history st) (Z.to_nat s);
  log_sorted : StronglySorted Z.lt (popped st);
  log_cover : forall s, 1 <= s < consumer_sequence st ->
    s ∈ popped st \/ s + Z.of_nat Len <= Z.of_nat (length (history st)) \/
    exists hd, Cleared hd ∈ returns st /\ s <= hd
}.

Record Inv (st : State) : Prop := {
  inv_producer : producer_ok st;
  inv_objects : forall l, object_ok l (history st) (mem st l) (seqs st l);
  inv_hazard : forall l, reader_hazard (mem st l) = hazard_at st l;
  inv_writer : forall w, writing st = Some w ->
    writer_ok (mem st) (history st) (protected_at st) w;
  inv_consumer : consumer_ok st;
  inv_log : log_ok st
}.

Lemma done_le st :
  (head_done st <= slots_done st)%nat /\ (slots_done st <= length (history st))%nat /\
  (slots_done st <= S (head_done st))%nat.
Proof.
  unfold head_done, slots_done.
  destruct (producer st) as [|m|m n [|s p]|m|m n [|s p]|m]; lia.
Qed.

Lemma seqs_le st l : (seqs st l <= slots_done st)%nat.
Proof.
  unfold seqs, seq_of. pose proof (done_le st). pose proof slot_seq_le. destruct l; [lia|done].
Qed.

(** ** Stores *)

Lemma store_inv (m : Loc -> Object) h (sq sq' : Loc -> nat) prot l n s pending :
  (forall l, object_ok l h (m l) (sq l)) ->
  writer_ok m h prot (l, n, s :: pending) ->
  (forall l', sq' l' = if decide (pending = []) then <[l := length h]> sq l' else sq l') ->
  let m' := <[l := apply_store (m l) s]> m in
  (forall l, object_ok l h (m' l) (sq' l)) /\
  (pending <> [] -> writer_ok m' h prot (l, n, pending)) /\
  (forall l c, prot l = Some c ->
    metadata (m' l) c = metadata (m l) c /\ payloads (m' l) c = payloads (m l) c) /\
  (forall l, reader_hazard (m' l) = reader_hazard (m l)).
Proof.
  intros Ho (front & Hp & Hf & Hn3 & Hna & Hprot & Hcell) Hsq m'.
  destruct front as [|s' front]; cbn in Hp; injection Hp as -> ->.
  - split; [|split; [|split]].
    + intros l'. rewrite Hsq, decide_True by done. subst m'. destruct (decide (l = l')) as [<-|].
      * rewrite !fn_lookup_insert. by eapply object_activate.
      * by rewrite !fn_lookup_insert_ne by done.
    + done.
    + intros l' c Hc. subst m'. destruct (decide (l = l')) as [<-|].
      * by rewrite fn_lookup_insert.
      * by rewrite fn_lookup_insert_ne.
    + intros l'. subst m'. destruct (decide (l = l')) as [<-|].
      * by rewrite fn_lookup_insert.
      * by rewrite fn_lookup_insert_ne.
  - apply Forall_cons_1 in Hf as [Hs' Hf].
    destruct (apply_store_active n s' (m l) Hs') as (E1 & E2 & E3).
    assert (front ++ [ActiveStore n] <> []) as Hne by (by destruct front).
    split; [|split; [|split]].
    + intros l'. rewrite Hsq, decide_False by done. subst m'. destruct (decide (l = l')) as [<-|].
      * rewrite fn_lookup_insert. by apply (object_store l h n).
      * by rewrite fn_lookup_insert_ne.
    + intros _. exists front. subst m'. rewrite fn_lookup_insert, E1. done.
    + intros l' c Hc. subst m'. destruct (decide (l = l')) as [<-|].
      * rewrite fn_lookup_insert. apply (apply_store_other n); [done|by intros ->].
      * by rewrite fn_lookup_insert_ne.
    + intros l'. subst m'. destruct (decide (l = l')) as [<-|].
      * by rewrite fn_lookup_insert.
      * by rewrite fn_lookup_insert_ne.
Qed.

(** The loaded words of a reader only depend on its protected cell. *)
Lemma reader_ok_ext l h o o' lo hi hi' r :
  (forall c, protected r = Some c -> metadata o' c = metadata o c /\ payloads o' c = payloads o c) ->
  hi <= hi' -> reader_ok l h o lo hi r -> reader_ok l h o' lo hi' r.
Proof.
  intros Hext Hhi. destruct r as [| | |c loaded|c|c out]; cbn; try done.
  - intros ((q & Hq & Hc) & Hl & Hn). destruct (Hext c eq_refl) as [E1 E2]. rewrite E1.
    split; [|done]. exists q. split; [lia|]. by apply (cell_ok_ext _ _ o).
  - intros (Hl & q & Hq & Hc). destruct (Hext c eq_refl) as [E1 E2]. split; [done|].
    exists q. split; [done|]. by apply (cell_ok_ext _ _ o).
  - destruct out; try done. intros [??]. split; [lia|done].
Qed.

(** ** Choosing and preparing a cell *)

Lemma next_cell_spec o :
  producer_active o = published_active o -> (published_active o < 3)%nat ->
  let n := next_cell o in (n < 3)%nat /\ n <> published_active o /\ n <> reader_hazard o.
Proof.
  intros E Hlt. unfold next_cell, kPortCellCount. rewrite E. cbv zeta.
  destruct (published_active o) as [|[|[|k]]]; [| | |lia]; cbn; destruct (decide _); cbn; lia.
Qed.

Lemma next_version_ok v :
  Z.even v = true -> 0 <= v < 4294967296 ->
  Z.even (u32 (v + 2)) = true /\ 0 <= u32 (v + 2) < 4294967296.
Proof.
  intros He Hv. split; [|apply u32_range]. rewrite Z.even_spec in *. destruct He as [k ->].
  exists ((k + 1) mod 2147483648). unfold u32. Z.to_euclidean_division_equations. lia.
Qed.

Lemma slot_stores_ok l h m prot (o : Object) q n msg i :
  l = SlotAt i -> object_ok l h o q -> n = next_cell o -> m l = o ->
  (forall c, prot l = Some c -> c = reader_hazard o) -> msg_at h (length h) = Some msg ->
  writer_ok m h prot (l, n, slot_stores o n (Z.of_nat (length h)) msg).
Proof.
  intros -> [Ha Hl Hm Hc] -> <- Hprot Hmsg. destruct (next_cell_spec _ Ha Hl) as (Hn & Hna & Hnh).
  unfold writer_ok. set (n := next_cell _) in *. set (o := m _) in *. clearbody n o.
  destruct (Hm n) as [He Hr Hw]. destruct (next_version_ok _ He Hr) as [He' Hr'].
  unfold slot_stores. rewrite app_assoc. eexists. split; [reflexivity|].
  split; [|split; [done|split; [done|split; [intros E%Hprot; by apply Hnh|]]]].
  { unfold Prepare. repeat (apply List.Forall_cons; [first [done|exact (conj eq_refl (conj He' Hr'))]|]). apply List.Forall_nil. }
  destruct (words (metadata o n)) as [|a [|b [|d [|]]]] eqn:Ew; try done.
  constructor; unfold Prepare; cbn; rewrite ?fn_lookup_insert; cbn; rewrite ?fn_lookup_insert;
    cbn; rewrite ?fn_lookup_insert; cbn; rewrite ?Ew; done.
Qed.

Lemma head_stores_ok h m prot (o : Object) q n :
  object_ok Head h o q -> n = next_cell o -> m Head = o ->
  (forall c, prot Head = Some c -> c = reader_hazard o) ->
  writer_ok m h prot (Head, n, head_stores o n (Z.of_nat (length h))).
Proof.
  intros [Ha Hl Hm Hc] -> <- Hprot. destruct (next_cell_spec _ Ha Hl) as (Hn & Hna & Hnh).
  unfold writer_ok. set (n := next_cell _) in *. set (o := m _) in *. clearbody n o.
  destruct (Hm n) as [He Hr Hw]. destruct (next_version_ok _ He Hr) as [He' Hr'].
  unfold head_stores. eexists. split; [reflexivity|].
  split; [|split; [done|split; [done|split; [intros E%Hprot; by apply Hnh|]]]].
  { unfold Prepare. repeat (apply List.Forall_cons; [first [done|exact (conj eq_refl (conj He' Hr'))]|]). apply List.Forall_nil. }
  destruct (words (metadata o n)) as [|a [|b [|]]] eqn:Ew; try done.
  constructor; unfold Prepare; cbn; rewrite ?fn_lookup_insert; cbn; rewrite ?fn_lookup_insert;
    cbn; rewrite ?fn_lookup_insert; cbn; rewrite ?Ew; done.
Qed.

Lemma held_protected r c : protected r = Some c -> c = held r.
Proof. by destruct r; intros [= ->]. Qed.

Lemma protected_hazard st l c :
  (forall l, reader_hazard (mem st l) = hazard_at st l) ->
  protected_at st l = Some c -> c = reader_hazard (mem st l).
Proof.
  intros ->. unfold protected_at, hazard_at. destruct (reader_at st l); [|done].
  apply held_protected.
Qed.

(** ** The producer preserves the invariant *)

(** The consumer and its log when nothing it has seen changes. *)
Lemma consumer_ok_ext st st' :
  consumer st' = consumer st -> consumer_sequence st' = consumer_sequence st ->
  call_floor st' = call_floor st -> history st' = history st ->
  (head_done st <= head_done st')%nat -> (slots_done st <= slots_done st')%nat ->
  (forall l c, protected_at st l = Some c ->
    metadata (mem st' l) c = metadata (mem st l) c /\ payloads (mem st' l) c = payloads (mem st l) c) ->
  consumer_ok st -> consumer_ok st'.
Proof.
  intros E1 E2 E3 E4 Hh Hs Hext. unfold consumer_ok. rewrite E1, E2, E3, E4.
  unfold protected_at, reader_at in Hext.
  destruct (consumer st) as [|call r|r]; [done| |]; intros [Hr Hb].
  - split; [|split; [lia|apply Hb]]. apply (reader_ok_ext _ _ (mem st Head) _ _ (Z.of_nat (head_done st)));
      [|lia|done].
    specialize (Hext Head). by rewrite decide_True in Hext.
  - split; [|lia].
    eapply reader_ok_ext; [|apply inj_le, Hs|exact Hr].
    specialize (Hext (SlotAt (slot_index (consumer_sequence st)))). by rewrite decide_True in Hext.
Qed.

Lemma log_ok_ext st st' :
  consumer_sequence st' = consumer_sequence st -> returns st' = returns st ->
  history st' = history st -> (head_done st <= head_done st')%nat -> log_ok st -> log_ok st'.
Proof.
  intros E1 E2 E3 Hh [H1 H2 H3 H4].
  constructor; unfold popped in *; rewrite ?E1, ?E2, ?E3; [lia|done|done|done].
Qed.

(** A producer step that only moves its program counter. *)
Lemma inv_move st st' :
  mem st' = mem st -> consumer st' = consumer st ->
  consumer_sequence st' = consumer_sequence st -> call_floor st' = call_floor st ->
  history st' = history st -> returns st' = returns st ->
  slots_done st' = slots_done st -> head_done st' = head_done st -> producer_ok st' ->
  (forall w, writing st' = Some w -> writer_ok (mem st) (history st) (protected_at st) w) ->
  Inv st -> Inv st'.
Proof.
  intros Em Ec Es Ef Eh Er E1 E2 Hp Hw [I1 I2 I3 I4 I5 I6].
  assert (forall l, reader_at st' l = reader_at st l) as Era
    by (intros; unfold reader_at; by rewrite Ec, Es).
  constructor; rewrite ?Em, ?Eh; [done| | | | |].
  - intros l. unfold seqs. rewrite E1, E2. apply I2.
  - intros l. unfold hazard_at. rewrite Era. apply I3.
  - intros [[l n] pending] (front & W)%Hw. exists front. unfold protected_at in *.
    by rewrite Era.
  - apply (consumer_ok_ext st); rewrite ?E1, ?E2, ?Em; done.
  - apply (log_ok_ext st); rewrite ?E2; done.
Qed.

(** Sequences do not wrap. *)
Definition bounded (st : State) : Prop :=
  Z.of_nat (length (history st)) < 18446744073709551615.

Lemma push_slot_eq st :
  bounded st -> producer_sequence st + 1 = Z.of_nat (length (history st)) ->
  u64 (producer_sequence st + 1) = Z.of_nat (length (history st)) /\
  push_slot st = SlotAt (slot_index (Z.of_nat (length (history st)))).
Proof.
  unfold bounded. intros Hb E. unfold push_slot. rewrite E.
  assert (u64 (Z.of_nat (length (history st))) = Z.of_nat (length (history st))) as ->
    by (apply Z.mod_small; lia). done.
Qed.

(** The publication of a slot, and of the head. *)
Lemma seq_of_slot n hd i l :
  (0 < n)%nat -> i = slot_index (Z.of_nat n) ->
  seq_of n hd l = <[SlotAt i := n]> (seq_of (pred n) hd) l.
Proof.
  intros Hn ->. destruct n as [|k]; [lia|]. cbn [pred]. destruct l as [|j]; cbn [seq_of].
  - by rewrite fn_lookup_insert_ne.
  - cbn [slot_seq]. destruct (decide (slot_index (Z.of_nat (S k)) = j)) as [<-|Hne].
    + by rewrite fn_lookup_insert.
    + rewrite fn_lookup_insert_ne; [done|congruence].
Qed.

Lemma seq_of_head n hd hd' l : seq_of n hd l = <[Head := hd]> (seq_of n hd') l.
Proof. destruct l; [by rewrite fn_lookup_insert|by rewrite fn_lookup_insert_ne]. Qed.

(** A store step, of either object. *)
Lemma store_step_inv l n s p pr st :
  let st' := set_producer pr (set_mem l (apply_store (mem st l) s) st) in
  writing st = Some (l, n, s :: p) ->
  writing st' = match p with [] => None | _ => Some (l, n, p) end ->
  (forall l', seqs st' l' = if decide (p = []) then <[l := length (history st)]> (seqs st) l'
                            else seqs st l') ->
  (head_done st <= head_done st')%nat -> (slots_done st <= slots_done st')%nat ->
  producer_ok st' -> Inv st -> Inv st'.
Proof.
  intros st' Hw Hw' Hsq Hhd Hsd Hp [I1 I2 I3 I4 I5 I6].
  destruct (store_inv (mem st) (history st) (seqs st) (seqs st') (protected_at st) l n s p I2
    (I4 _ Hw) Hsq) as (O & W & X & Hz).
  constructor; [done|exact O| | | |].
  - intros l'. change (mem st') with (<[l := apply_store (mem st l) s]> (mem st)).
    rewrite Hz. apply I3.
  - intros w. rewrite Hw'. destruct p as [|s' p]; [done|]. intros [= <-]. by apply W.
  - by apply (consumer_ok_ext st).
  - by apply (log_ok_ext st).
Qed.

Ltac move_step :=
  match goal with
  | E : producer ?st = _ |- Inv _ =>
      apply (inv_move st); try done;
        try (unfold slots_done, head_done; cbn; rewrite E; done);
        try (unfold producer_ok; cbn; done); unfold writing; cbn
  end.

Lemma producer_step_inv st :
  bounded st -> producer st <> PIdle -> Inv st -> Inv (producer_step st).
Proof.
  intros Hb Hne HI. pose proof HI as [I1 I2 I3 I4 I5 I6]. unfold producer_step.
  unfold producer_ok in I1. unfold writing in I4.
  pose proof (protected_hazard st) as Hph.
  destruct (producer st) as [|m|m n [|s p]|m|m n [|s p]|m] eqn:Ep; [done|..];
    destruct I1 as [E Em]; try destruct (push_slot_eq st Hb E) as [Eu El];
    assert (0 < length (history st))%nat as Hpos by (destruct (history st); [done|cbn; lia]).
  - move_step.
    unfold writing. cbn. intros w [= <-]. rewrite Eu.
    apply (slot_stores_ok _ _ _ _ _ (seqs st (push_slot st)) _ _ (slot_index (Z.of_nat (length (history st)))));
      [done|apply I2|done|done|by intros c; apply Hph|done].
  - by move_step.
  - apply (store_step_inv _ n s p); [by unfold writing; rewrite Ep|by unfold writing; cbn; destruct p
      | | | |by unfold producer_ok; cbn|done].
    + intros l'. unfold seqs, slots_done, head_done. cbn. rewrite Ep, El. destruct p as [|s' p].
      * rewrite decide_True by done. by apply seq_of_slot.
      * by rewrite decide_False.
    + unfold head_done. cbn. by rewrite Ep.
    + unfold slots_done. cbn. rewrite Ep. destruct p; lia.
  - move_step.
    unfold writing. cbn. intros w [= <-]. rewrite Eu.
    apply (head_stores_ok _ _ _ _ (seqs st Head)); [apply I2|done|done|by intros c; apply Hph].
  - by move_step.
  - apply (store_step_inv _ n s p); [by unfold writing; rewrite Ep|by unfold writing; cbn; destruct p
      | | | |by unfold producer_ok; cbn|done].
    + intros l'. unfold seqs, slots_done, head_done. cbn. rewrite Ep. destruct p as [|s' p].
      * rewrite decide_True by done. apply seq_of_head.
      * by rewrite decide_False.
    + unfold head_done. cbn. rewrite Ep. destruct p; lia.
    + unfold slots_done. cbn. by rewrite Ep.
  - by move_step.
Qed.

(** ** The calls *)

Lemma reader_ok_snoc l h m o lo hi r :
  hi <= Z.of_nat (length h) -> lo <= Z.of_nat (length h) ->
  reader_ok l h o lo hi r -> reader_ok l (h ++ [m]) o lo hi r.
Proof.
  intros Hhi Hlo. destruct r as [| | |c loaded|c|c out]; cbn; try done.
  - intros ((q & Hq & Hc) & Hr). split; [|done]. exists q. split; [done|].
    apply cell_ok_snoc; [lia|done].
  - intros (Hl & q & Hq & Hc). split; [done|]. exists q. split; [done|].
    apply cell_ok_snoc; [lia|done].
  - destruct out; try done. intros [? ->]. split; [done|]. rewrite msg_at_snoc; [done|lia].
Qed.

Lemma start_push_inv st m : producer st = PIdle -> Inv st -> Inv (start_push m st).
Proof.
  intros Ep [I1 I2 I3 I4 I5 I6].
  assert (slots_done (start_push m st) = slots_done st) as Es
    by (unfold slots_done; cbn; rewrite Ep, length_app; cbn; lia).
  assert (head_done (start_push m st) = head_done st) as Eh
    by (unfold head_done; cbn; rewrite Ep, length_app; cbn; lia).
  pose proof (done_le st) as Hd. destruct I6 as [H1 H2 H3 H4].
  constructor.
  - unfold producer_ok in *. rewrite Ep in I1. cbn. rewrite length_app. cbn. split; [lia|].
    rewrite Nat.add_1_r. cbn. rewrite lookup_app_r, Nat.sub_diag by lia. done.
  - intros l. unfold seqs. rewrite Es, Eh. destruct (I2 l) as [Ha Hl Hm Hc].
    constructor; try done. apply cell_ok_snoc; [|done].
    pose proof (seqs_le st l) as Hsl. unfold seqs in Hsl. lia.
  - done.
  - done.
  - unfold consumer_ok in *. rewrite Es, Eh. cbn [start_push consumer consumer_sequence history mem call_floor].
    destruct (consumer st) as [|call r|r]; [done| |]; destruct I5 as [Hr Hb];
      (split; [|done]); apply reader_ok_snoc; [lia|lia|done|lia|lia|done].
  - constructor; rewrite ?Eh; cbn; try done.
    + intros s v Hin. destruct (H2 s v Hin) as [? ->]. split; [done|].
      rewrite msg_at_snoc; [done|lia].
    + intros s Hs. rewrite length_app. cbn. destruct (H4 s Hs) as [?|[?|?]]; [by left|right; left; lia|].
      by right; right.
Qed.

Lemma fold_set_hazard hz front o :
  fold_left apply_store front (set_hazard hz o) = set_hazard hz (fold_left apply_store front o).
Proof.
  revert o. induction front as [|s front IH]; intros o; [done|]. cbn [fold_left].
  rewrite <- IH. by destruct s.
Qed.

Lemma set_hazard_same hz o : reader_hazard o = hz -> o = set_hazard hz o.
Proof. intros <-. by destruct o. Qed.

(** A consumer step rewrites the hazard of the object it reads. *)
Lemma consumer_update_inv st st' l o' :
  mem st' = <[l := o']> (mem st) -> producer st' = producer st ->
  producer_sequence st' = producer_sequence st -> history st' = history st ->
  o' = set_hazard (hazard_at st' l) (mem st l) ->
  (forall l', l' <> l -> hazard_at st l' = hazard_at st' l') ->
  (forall l' c, protected_at st' l' = Some c ->
     protected_at st l' = Some c \/ c = published_active (mem st l')) ->
  consumer_ok st' -> log_ok st' -> Inv st -> Inv st'.
Proof.
  intros Em Ep Es Eh -> Hh' Hprot Hc Hl [I1 I2 I3 I4 I5 I6].
  assert (Hsame : forall l', metadata (mem st' l') = metadata (mem st l') /\
    payloads (mem st' l') = payloads (mem st l') /\
    published_active (mem st' l') = published_active (mem st l') /\
    producer_active (mem st' l') = producer_active (mem st l')).
  { intros l'. rewrite Em. destruct (decide (l = l')) as [<-|].
    - by rewrite fn_lookup_insert.
    - by rewrite fn_lookup_insert_ne. }
  assert (seqs st' = seqs st) as Esq by (unfold seqs, slots_done, head_done; by rewrite Ep, Eh).
  constructor; [| | | |done|done].
  - unfold producer_ok. by rewrite Ep, Es, Eh.
  - intros l'. rewrite Eh, Esq. destruct (Hsame l') as (E1 & E2 & E3 & E4).
    destruct (I2 l') as [Ha Hlt Hm Hcell]. constructor; rewrite ?E1, ?E3, ?E4; [done..|].
    eapply cell_ok_ext; [| |exact Hcell]; [by rewrite E1|by rewrite E2].
  - intros l'. destruct (decide (l' = l)) as [->|Hne].
    + rewrite Em, fn_lookup_insert. done.
    + rewrite Em, fn_lookup_insert_ne by done. rewrite I3. by apply Hh'.
  - intros [[l' n] pending] Hw.
    assert (writing st = Some (l', n, pending)) as Hw0.
    { unfold writing, push_slot in *. by rewrite Ep, Es in Hw. }
    destruct (I4 _ Hw0) as (front & -> & Hf & Hn & Hna & Hp & Hcell). exists front.
    destruct (Hsame l') as (E1 & E2 & E3 & E4). rewrite E3, Eh.
    split; [done|split; [done|split; [done|split; [done|split]]]].
    + intros [Hp'|Hp']%Hprot; [done|congruence].
    + rewrite Em. destruct (decide (l = l')) as [<-|Hne].
      * rewrite fn_lookup_insert, fold_set_hazard. by eapply cell_ok_ext; [..|exact Hcell].
      * by rewrite fn_lookup_insert_ne.
Qed.

(** ** The reads *)

Lemma meta_loads l h o c q :
  cell_ok l h o c q ->
  map (meta_load (metadata o c)) (seq 0 (nwords l + 2)) =
    writer_version (metadata o c) :: enc l c q ++ [writer_version (metadata o c)].
Proof.
  intros [Hv Hw _]. rewrite <- Hv. destruct l; cbn; unfold meta_load; rewrite Hw; done.
Qed.

Lemma decide_head_ok h o lo hi c s :
  object_ok Head h o s ->
  forall q, lo <= Z.of_nat q <= hi -> Z.of_nat q < 2 ^ 64 -> cell_ok Head h o c q ->
  let r := decide_head c (map (meta_load (metadata o c)) (seq 0 4)) in
  reader_ok Head h o lo hi r /\ held r = c /\ (forall c', protected r = Some c' -> c' = c).
Proof.
  intros [_ _ Hm _] q Hq Hb Hc. cbv zeta. pose proof (meta_loads Head h o c q Hc) as E. cbn [nwords Nat.add] in E. rewrite E. clear E.
  unfold decide_head, protected_ok. unfold byte_at at 1 2 3. cbn -[combine].
  rewrite (meta_even _ _ (Hm c)), Z.eqb_refl. cbn -[combine].
  pose proof (combine_words q Hb) as E. unfold byte_at in *. cbn -[combine] in *. rewrite E.
  done.
Qed.

Lemma decide_slot_ok i h o lo hi c s :
  object_ok (SlotAt i) h o s ->
  forall q, lo <= Z.of_nat q <= hi -> Z.of_nat q < 2 ^ 64 -> cell_ok (SlotAt i) h o c q ->
  let r := decide_slot lo c (map (meta_load (metadata o c)) (seq 0 5)) in
  reader_ok (SlotAt i) h o lo hi r /\ held r = c /\
  (forall c', protected r = Some c' -> c' = c).
Proof.
  intros [_ _ Hm _] q Hq Hb Hc. cbv zeta. pose proof (meta_loads (SlotAt i) h o c q Hc) as E. cbn [nwords Nat.add] in E. rewrite E. clear E.
  unfold decide_slot, protected_ok. unfold byte_at at 1 2 3 4. cbn -[combine].
  rewrite (meta_even _ _ (Hm c)), !Z.eqb_refl. cbn -[combine].
  pose proof (combine_words q Hb) as E. unfold byte_at in *. cbn -[combine] in *. rewrite E.
  destruct (Z.eqb_spec (Z.of_nat q) lo); cbn.
  - split; [|split; [done|by intros c' [= ->]]]. split; [done|]. by exists q.
  - split; [|done]. split; [lia|done].
Qed.

Definition clearing (r : Reader) : bool := match r with RClear _ _ => true | _ => false end.

Lemma reader_step_ok l h o s lo hi dec r :
  object_ok l h o s -> lo <= Z.of_nat s <= hi -> hi < 2 ^ 64 ->
  (forall c q, lo <= Z.of_nat q <= hi -> Z.of_nat q < 2 ^ 64 -> cell_ok l h o c q ->
    let d := dec c (map (meta_load (metadata o c)) (seq 0 (nwords l + 2))) in
    reader_ok l h o lo hi d /\ held d = c /\ (forall c', protected d = Some c' -> c' = c)) ->
  clearing r = false -> reader_ok l h o lo hi r -> reader_hazard o = held r ->
  let r' := (reader_step (nwords l) dec o r).1 in
  (reader_step (nwords l) dec o r).2 = set_hazard (held r') o /\
  reader_ok l h o lo hi r' /\
  (forall c, protected r' = Some c -> protected r = Some c \/ c = published_active o).
Proof.
  intros Ho Hs Hb Hdec Hclr Hr Hhz. destruct r as [|c|c|c loaded|c|]; try done;
    cbn [reader_step fst snd held reader_ok protected] in *.
  - split; [|done]. by apply set_hazard_same.
  - destruct (decide (published_active o = c)) as [<-|]; cbn.
    + split; [by apply set_hazard_same|]. split; [|intros ? [= <-]; by right].
      split; [|split; [done|lia]]. exists s. split; [done|]. apply Ho.
    + split; [by apply set_hazard_same|done].
  - destruct Hr as ((q & Hq & Hc) & Hl & Hn). rewrite length_app. cbn [length].
    assert (loaded ++ [meta_load (metadata o c) (length loaded)] =
      map (meta_load (metadata o c)) (seq 0 (length loaded + 1))) as E.
    { rewrite seq_app, map_app. cbn. by rewrite <- Hl. }
    destruct (Nat.ltb_spec (length loaded + 1) (nwords l + 2)).
    + cbn. split; [by apply set_hazard_same|]. split; [|by left].
      split; [by exists q|]. rewrite length_app. split; [done|cbn; lia].
    + rewrite E. replace (length loaded + 1)%nat with (nwords l + 2)%nat by lia.
      destruct (Hdec c q Hq ltac:(lia) Hc) as (H1 & H2 & H3).
      split; [rewrite H2; by apply set_hazard_same|]. split; [done|].
      intros c' ->%H3. by left.
  - destruct Hr as (Hl & q & Hq & Hc). split; [by apply set_hazard_same|]. split; [|done].
    split; [done|]. destruct l; [done|]. rewrite (cell_payload _ _ _ _ _ Hc). f_equal. lia.
Qed.

(** The log of an answer, and of an advance past overwritten messages. *)
Lemma log_advance st cs' :
  consumer_sequence st <= cs' <= Z.of_nat (head_done st) + 1 ->
  (forall s, consumer_sequence st <= s < cs' -> s + Z.of_nat Len <= Z.of_nat (length (history st))) ->
  forall st', head_done st' = head_done st -> returns st' = returns st ->
    history st' = history st -> consumer_sequence st' = cs' -> log_ok st -> log_ok st'.
Proof.
  intros Hr Hs st' E1 E2 E3 E4 [H1 H2 H3 H4].
  constructor; unfold popped in *; rewrite ?E1, ?E2, ?E3, ?E4; [lia| |done|].
  - intros s m Hin. destruct (H2 s m Hin) as [? ->]. split; [lia|done].
  - intros s Hs'. destruct (decide (s < consumer_sequence st)) as [Hlt|Hge].
    + apply H4. lia.
    + right; left. apply Hs. lia.
Qed.

Lemma log_answer st st' r :
  head_done st' = head_done st -> history st' = history st ->
  consumer_sequence st' = consumer_sequence st -> returns st' = returns st ++ [r] ->
  popped_of r = None -> log_ok st -> log_ok st'.
Proof.
  intros E1 E2 E3 E4 Hr [H1 H2 H3 H4].
  assert (popped st' = popped st) as Ep.
  { unfold popped. rewrite E4, omap_app. cbn. by rewrite Hr, app_nil_r. }
  constructor; rewrite ?Ep, ?E1, ?E2, ?E3, ?E4; [done| |done|].
  - intros s m [Hin|<-%list_elem_of_singleton]%elem_of_app; [by apply H2|done].
  - intros s Hs. destruct (H4 s Hs) as [?|[?|(hd & Hin & ?)]]; [by left|by right; left|].
    right; right. exists hd. split; [|done]. apply elem_of_app. by left.
Qed.

Lemma log_clear st st' hd :
  head_done st' = head_done st -> history st' = history st ->
  consumer_sequence st <= hd + 1 -> hd <= Z.of_nat (head_done st) ->
  consumer_sequence st' = hd + 1 -> returns st' = returns st ++ [Cleared hd] ->
  log_ok st -> log_ok st'.
Proof.
  intros E1 E2 Hlo Hhi E3 E4 [H1 H2 H3 H4].
  assert (popped st' = popped st) as Ep.
  { unfold popped. rewrite E4, omap_app. cbn. by rewrite app_nil_r. }
  constructor; rewrite ?Ep, ?E1, ?E2, ?E3, ?E4; [lia| |done|].
  - intros s m [Hin|[=]%list_elem_of_singleton]%elem_of_app.
    destruct (H2 s m Hin) as [? ->]. split; [lia|done].
  - intros s Hs. right; right. exists hd. split; [|lia]. apply elem_of_app. right. by left.
Qed.

Lemma log_pop st st' m :
  head_done st' = head_done st -> history st' = history st ->
  consumer_sequence st <= Z.of_nat (head_done st) ->
  m = msg_at (history st) (Z.to_nat (consumer_sequence st)) ->
  consumer_sequence st' = consumer_sequence st + 1 ->
  returns st' = returns st ++ [Popped (consumer_sequence st) m] ->
  log_ok st -> log_ok st'.
Proof.
  intros E1 E2 Hhi Hm E3 E4 [H1 H2 H3 H4].
  assert (popped st' = popped st ++ [consumer_sequence st]) as Ep.
  { unfold popped. by rewrite E4, omap_app. }
  constructor; rewrite ?Ep, ?E1, ?E2, ?E3, ?E4; [lia| | |].
  - intros s v [Hin|[= -> ->]%list_elem_of_singleton]%elem_of_app.
    + destruct (H2 s v Hin) as [? ->]. split; [lia|done].
    + split; [lia|done].
  - apply sorted_snoc; [done|]. intros s (r & Hin & Hs)%list_elem_of_omap.
    destruct r as [s' v| | |]; try done. injection Hs as ->. by destruct (H2 s v Hin) as [[_ ?] _].
  - intros s Hs. destruct (decide (s = consumer_sequence st)) as [->|Hne].
    + left. apply elem_of_app. right. by left.
    + destruct (H4 s ltac:(lia)) as [?|[?|(hd & Hin & ?)]]; [left; apply elem_of_app; by left|by right; left|].
      right; right. exists hd. split; [|done]. apply elem_of_app. by left.
Qed.

(** ** The consumer preserves the invariant *)

Lemma seqs_head st : seqs st Head = head_done st.
Proof. done. Qed.

Lemma bounded_done st :
  bounded st -> Z.of_nat (slots_done st) < 2 ^ 64 - 1 /\ Z.of_nat (head_done st) < 2 ^ 64 - 1.
Proof.
  unfold bounded. intros Hb. destruct (done_le st) as (? & ? & ?).
  change (2 ^ 64) with 18446744073709551616. lia.
Qed.

Lemma oldest_for_spec q :
  0 <= q < 2 ^ 64 - 1 -> 1 <= oldest_for q /\ (oldest_for q <= 1 \/ oldest_for q = q - Z.of_nat Len + 1).
Proof.
  change (2 ^ 64) with 18446744073709551616. intros Hq. unfold oldest_for. destruct (Z.ltb_spec (Z.of_nat Len) q); [|lia].
  unfold u64. rewrite Z.mod_small by lia. lia.
Qed.

(** A phase of the protected read of an object, before its end. *)
Lemma read_inv st l st' dec r :
  reader_at st l = Some r -> (forall l', reader_at st l' <> None -> l' = l) ->
  let p := reader_step (nwords l) dec (mem st l) r in
  reader_at st' l = Some p.1 -> (forall l', reader_at st' l' <> None -> l' = l) ->
  mem st' = <[l := p.2]> (mem st) -> producer st' = producer st ->
  producer_sequence st' = producer_sequence st -> history st' = history st ->
  p.2 = set_hazard (held p.1) (mem st l) ->
  (forall c, protected p.1 = Some c -> protected r = Some c \/ c = published_active (mem st l)) ->
  consumer_ok st' -> log_ok st' -> Inv st -> Inv st'.
Proof.
  intros Hr Hu p Hr' Hu' Em Ep Es Eh Hp Hprot Hc Hl HI.
  apply (consumer_update_inv st st' l p.2); try done.
  - unfold hazard_at. by rewrite Hr'.
  - intros l' Hne. unfold hazard_at.
    destruct (reader_at st l') eqn:E1; [by destruct Hne; apply Hu; rewrite E1|].
    destruct (reader_at st' l') eqn:E2; [by destruct Hne; apply Hu'; rewrite E2|done].
  - intros l' c. unfold protected_at. destruct (reader_at st' l') as [r'|] eqn:E2; [|done].
    assert (l' = l) as -> by (apply Hu'; by rewrite E2). rewrite Hr' in E2. injection E2 as <-.
    rewrite Hr. apply Hprot.
Qed.

(** The end of a read: the hazard is cleared and no read is in progress. *)
Lemma end_inv st l st' :
  reader_at st l <> None -> (forall l', reader_at st l' <> None -> l' = l) ->
  (forall l' r', reader_at st' l' = Some r' -> r' = RLoad) ->
  mem st' = <[l := set_hazard kPortNoHazard (mem st l)]> (mem st) ->
  producer st' = producer st ->
  producer_sequence st' = producer_sequence st -> history st' = history st ->
  consumer_ok st' -> log_ok st' -> Inv st -> Inv st'.
Proof.
  intros Hr Hu Hu' Em Ep Es Eh Hc Hl HI.
  assert (forall l', hazard_at st' l' = kPortNoHazard) as Hz.
  { intros l'. unfold hazard_at. destruct (reader_at st' l') eqn:E; [|done].
    by rewrite (Hu' _ _ E). }
  apply (consumer_update_inv st st' l (set_hazard kPortNoHazard (mem st l))); try done.
  - by rewrite Hz.
  - intros l' Hne. rewrite Hz. unfold hazard_at.
    destruct (reader_at st l') eqn:E1; [by destruct Hne; apply Hu; rewrite E1|done].
  - intros l' c. unfold protected_at. destruct (reader_at st' l') eqn:E; [|done].
    by rewrite (Hu' _ _ E).
Qed.

Lemma reader_at_unique st l l' : reader_at st l <> None -> reader_at st l' <> None -> l' = l.
Proof.
  unfold reader_at. destruct (consumer st); [done| |]; repeat destruct (decide _); congruence.
Qed.

Lemma head_read_inv st call r :
  bounded st -> consumer st = CHead call r -> clearing r = false -> Inv st ->
  let p := reader_step 2 decide_head (mem st Head) r in
  Inv (set_consumer (CHead call p.1) (consumer_sequence st) (validation_failure_count st)
         (set_mem Head p.2 st)).
Proof.
  intros Hb Ec Hclr HI p. pose proof HI as [I1 I2 I3 I4 I5 I6].
  destruct (bounded_done st Hb) as [_ Hhd]. unfold consumer_ok in I5. rewrite Ec in I5.
  destruct I5 as (Hr & Hfl & Hcl).
  assert (reader_at st Head = Some r) as Er by (unfold reader_at; by rewrite Ec, decide_True).
  pose proof (I3 Head) as Hz. unfold hazard_at in Hz. rewrite Er in Hz.
  destruct (reader_step_ok Head (history st) (mem st Head) (seqs st Head) (call_floor st)
    (Z.of_nat (head_done st)) decide_head r) as (P1 & P2 & P3); [apply I2|by rewrite seqs_head|lia| |done..|].
  { intros c q Hq Hq' Hc. by apply (decide_head_ok _ _ _ _ _ (seqs st Head) (I2 Head) q). }
  apply (read_inv st Head _ decide_head r); try done.
  - intros l'. by apply reader_at_unique; rewrite Er.
  - unfold reader_at. cbn. intros l'. by destruct (decide _).
  - unfold consumer_ok. cbn. rewrite fn_lookup_insert. split; [|done].
    change (nwords Head) with 2%nat in P1, P2. fold p in P1, P2.
    rewrite P1. by apply (reader_ok_ext _ _ (mem st Head) _ _ (Z.of_nat (head_done st))).
  - apply (log_ok_ext st); done.
Qed.

Lemma slot_read_inv st r :
  bounded st -> consumer st = CSlot r -> clearing r = false -> Inv st ->
  let cs := consumer_sequence st in
  let l := SlotAt (slot_index cs) in
  let p := reader_step 3 (decide_slot cs) (mem st l) r in
  Inv (set_consumer (CSlot p.1) cs (validation_failure_count st) (set_mem l p.2 st)).
Proof.
  intros Hb Ec Hclr HI cs l p. pose proof HI as [I1 I2 I3 I4 I5 I6].
  destruct (bounded_done st Hb) as [Hsd Hhd]. unfold consumer_ok in I5. rewrite Ec in I5.
  destruct I5 as (Hr & Hcs & Hfl). fold cs l in Hr, Hcs. destruct (log_range _ I6) as [Hcs1 _]. fold cs in Hcs1.
  pose proof (done_le st) as (Hd1 & Hd2 & Hd3).
  assert (reader_at st l = Some r) as Er by (unfold reader_at; by rewrite Ec, decide_True).
  pose proof (I3 l) as Hz. unfold hazard_at in Hz. rewrite Er in Hz.
  destruct (reader_step_ok l (history st) (mem st l) (seqs st l) cs
    (Z.of_nat (slots_done st)) (decide_slot cs) r) as (P1 & P2 & P3); [apply I2| |lia| |done..|].
  { split; [|pose proof (seqs_le st l); lia]. unfold seqs, seq_of, l.
    pose proof (slot_seq_ge (slots_done st) (Z.to_nat cs)) as Hge.
    rewrite Z2Nat.id in Hge by lia. lia. }
  { intros c q Hq Hq' Hc. by apply (decide_slot_ok _ _ _ _ _ _ (seqs st l) (I2 l) q). }
  apply (read_inv st l _ (decide_slot cs) r); try done.
  - intros l'. by apply reader_at_unique; rewrite Er.
  - unfold reader_at. cbn. by rewrite decide_True.
  - unfold reader_at. cbn. fold cs l. intros l'. by destruct (decide (l' = l)).
  - unfold consumer_ok. cbn. fold cs l. rewrite fn_lookup_insert. split; [|done].
    change (nwords l) with 3%nat in P1, P2. fold p in P1, P2.
    rewrite P1. by apply (reader_ok_ext _ _ (mem st l) _ _ (Z.of_nat (slots_done st))).
  - apply (log_ok_ext st); done.
Qed.

Lemma head_end_inv (HLen : (2 < Len)%nat) st call c out :
  bounded st -> consumer st = CHead call (RClear c out) -> Inv st -> Inv (consumer_step st).
Proof.
  intros Hb Ec HI. pose proof HI as [I1 I2 I3 I4 I5 I6].
  destruct (bounded_done st Hb) as [Hsd Hhd]. pose proof (done_le st) as (Hd1 & Hd2 & Hd3).
  unfold consumer_ok in I5. rewrite Ec in I5. destruct I5 as (Hr & Hfl & Hcl).
  pose proof (log_range _ I6) as Hcs.
  assert (forall st', mem st' = <[Head := set_hazard kPortNoHazard (mem st Head)]> (mem st) ->
    producer st' = producer st -> producer_sequence st' = producer_sequence st ->
    history st' = history st -> (forall l' r', reader_at st' l' = Some r' -> r' = RLoad) ->
    consumer_ok st' -> log_ok st' -> Inv st') as Hend.
  { intros. apply (end_inv st Head); try done; [unfold reader_at; by rewrite Ec, decide_True|].
    intros l'. apply reader_at_unique. unfold reader_at. by rewrite Ec, decide_True. }
  unfold consumer_step. rewrite Ec. cbn [reader_step]. destruct out as [|hd|v].
  - apply Hend; try done; [|by apply (log_ok_ext st)].
    intros l' r'. unfold reader_at. cbn. destruct (decide _); congruence.
  - cbn in Hr. destruct Hr as [Hhd1 _]. unfold after_head. cbn [set_mem consumer_sequence].
    destruct call.
    + destruct (Z.ltb_spec hd (consumer_sequence st)).
      { apply Hend; try done. by apply (log_answer st _ PopEmpty). }
      destruct (oldest_for_spec hd) as [Ho1 Ho2]; [lia|].
      set (cs' := if _ <? _ then _ else _).
      assert (consumer_sequence st <= cs' <= hd /\ (consumer_sequence st < cs' -> cs' = oldest_for hd))
        as [Hcs' Ho] by (subst cs'; destruct (Z.ltb_spec (consumer_sequence st) (oldest_for hd)); lia).
      clearbody cs'. apply Hend; try done.
      * intros l' r'. unfold reader_at. cbn. destruct (decide _); congruence.
      * unfold consumer_ok. cbn. split; [done|].
        change (cs' <= Z.of_nat (head_done st) /\ call_floor st <= Z.of_nat (head_done st)). lia.
      * apply (log_advance st cs'); try done; [lia|]. intros s Hs. lia.
    + assert (consumer_sequence st <= call_floor st + 1) as Hc by (by apply Hcl).
      assert (u64 (hd + 1) = hd + 1) as -> by (apply Z.mod_small; lia).
      apply Hend; try done. apply (log_clear st _ hd); try done; lia.
    + apply Hend; try done. by apply (log_answer st _ (IsEmpty (hd <? consumer_sequence st))).
  - by destruct Hr.
Qed.

Lemma slot_end_inv (HLen : (2 < Len)%nat) st c out :
  bounded st -> consumer st = CSlot (RClear c out) -> Inv st -> Inv (consumer_step st).
Proof.
  intros Hb Ec HI. pose proof HI as [I1 I2 I3 I4 I5 I6].
  destruct (bounded_done st Hb) as [Hsd Hhd]. pose proof (done_le st) as (Hd1 & Hd2 & Hd3).
  unfold consumer_ok in I5. rewrite Ec in I5. destruct I5 as (Hr & Hcsh & Hfl).
  pose proof (log_range _ I6) as Hcs. set (l := SlotAt (slot_index (consumer_sequence st))) in *.
  assert (forall st', mem st' = <[l := set_hazard kPortNoHazard (mem st l)]> (mem st) ->
    producer st' = producer st -> producer_sequence st' = producer_sequence st ->
    history st' = history st -> (forall l' r', reader_at st' l' = Some r' -> r' = RLoad) ->
    consumer_ok st' -> log_ok st' -> Inv st') as Hend.
  { intros. apply (end_inv st l); try done; [unfold reader_at; by rewrite Ec, decide_True|].
    intros l'. apply reader_at_unique. unfold reader_at. by rewrite Ec, decide_True. }
  unfold consumer_step. rewrite Ec. fold l. cbn [reader_step]. unfold after_slot.
  cbn [set_mem consumer_sequence].
  destruct out as [|q|v].
  - apply Hend; try done; [|by apply (log_ok_ext st)].
    intros l' r'. unfold reader_at. cbn. destruct (decide _); congruence.
  - cbn in Hr. destruct Hr as [Hq1 Hq2]. specialize (Hq2 ltac:(done)).
    rewrite (proj2 (Z.ltb_lt _ _)) by lia. cbn [negb].
    destruct (oldest_for_spec q) as [Ho1 Ho2]; [lia|].
    set (cs' := if _ <? _ then _ else _).
    assert (consumer_sequence st <= cs' <= Z.of_nat (head_done st) /\
      (consumer_sequence st < cs' -> cs' = oldest_for q)) as [Hcs' Ho]
      by (subst cs'; destruct (Z.ltb_spec (consumer_sequence st) (oldest_for q)); lia).
    clearbody cs'. apply Hend; try done.
    + intros l' r'. unfold reader_at. cbn. destruct (decide _); congruence.
    + apply (log_advance st cs'); try done; [lia|]. intros s Hs. lia.
  - cbn in Hr. destruct Hr as [_ Hv].
    assert (u64 (consumer_sequence st + 1) = consumer_sequence st + 1) as -> by (apply Z.mod_small; lia).
    apply Hend; try done. by apply (log_pop st _ v).
Qed.

Lemma published_head_done st : bounded st -> Inv st -> published_head st = Z.of_nat (head_done st).
Proof.
  intros Hb [_ I2 _ _ _ _]. destruct (bounded_done st Hb) as [_ Hh].
  unfold published_head. rewrite (cell_words _ _ _ _ _ (object_cell _ _ _ _ (I2 Head))).
  rewrite seqs_head. unfold enc. rewrite app_nil_r. apply combine_words. lia.
Qed.

Lemma start_call_inv st call :
  bounded st -> consumer st = CIdle -> Inv st -> Inv (start_call call st).
Proof.
  intros Hb Ec HI. pose proof (published_head_done st Hb HI) as Ef.
  destruct HI as [I1 I2 I3 I4 I5 I6].
  assert (forall l, reader_at st l = None) as Er by (intros; unfold reader_at; by rewrite Ec).
  assert (forall l, hazard_at (start_call call st) l = kPortNoHazard) as Hz.
  { intros l. unfold hazard_at, reader_at. cbn. by destruct (decide _). }
  constructor; [done|done| | | |by apply (log_ok_ext st)].
  - intros l. rewrite Hz. cbn. rewrite I3. unfold hazard_at. by rewrite Er.
  - intros [[l n] pending] (front & H1 & H2 & H3 & H4 & H5 & H6)%I4. exists front.
    split; [done|split; [done|split; [done|split; [done|split; [|done]]]]].
    unfold protected_at, reader_at. cbn. by destruct (decide _).
  - unfold consumer_ok. cbn. rewrite Ef. pose proof (log_range _ I6).
    split; [done|]. change (head_done (start_call call st)) with (head_done st). lia.
Qed.

Lemma consumer_step_inv (HLen : (2 < Len)%nat) st :
  bounded st -> consumer st <> CIdle -> Inv st -> Inv (consumer_step st).
Proof.
  intros Hb Hne HI. destruct (consumer st) as [|call r|r] eqn:Ec; [done| |].
  - destruct (clearing r) eqn:Hr.
    + destruct r as [| | | | |c out]; try done. by apply (head_end_inv HLen st call c out).
    + pose proof (head_read_inv st call r Hb Ec Hr HI) as H. cbv zeta in H.
      unfold consumer_step. rewrite Ec.
      destruct (reader_step _ _ _ r) as [r' o]. destruct r; first [exact H|done].
  - destruct (clearing r) eqn:Hr.
    + destruct r as [| | | | |c out]; try done. by apply (slot_end_inv HLen st c out).
    + pose proof (slot_read_inv st r Hb Ec Hr HI) as H. cbv zeta in H.
      unfold consumer_step. rewrite Ec.
      destruct (reader_step _ _ _ r) as [r' o]. destruct r; first [exact H|done].
Qed.

Lemma initial_inv : Inv initial.
Proof.
  constructor; [done| |done|done|done|].
  - intros [|i]; (constructor; [done|cbn; lia| |]); try done;
      intros c; constructor; cbn; lia || done.
  - constructor; [cbn; lia| |constructor|cbn; lia]. by intros s m Hin%elem_of_nil.
Qed.

Lemma after_head_history call h st : history (after_head call h st) = history st.
Proof. unfold after_head. destruct call; [destruct (_ <? _)| |]; done. Qed.
Lemma after_slot_history out st : history (after_slot out st) = history st.
Proof. unfold after_slot. destruct out; try done. by destruct (negb _). Qed.

Lemma consumer_step_history st : history (consumer_step st) = history st.
Proof.
  unfold consumer_step. destruct (consumer st) as [|call r|r]; [done| |];
    destruct (reader_step _ _ _ r) as [r' o]; destruct r as [| | | | |c out]; try done.
  - destruct out; [done|by rewrite after_head_history|done].
  - by rewrite after_slot_history.
Qed.

Lemma producer_step_history st : history (producer_step st) = history st.
Proof.
  unfold producer_step. by destruct (producer st) as [|m|m n [|s p]|m|m n [|s p]|m].
Qed.

Lemma step_bounded st st' : step st st' -> bounded st' -> bounded st.
Proof.
  unfold bounded. destruct 1 as [st m|st|st call|st]; intros Hb; try done.
  - cbn in Hb. rewrite length_app in Hb. lia.
  - by rewrite producer_step_history in Hb.
  - by rewrite consumer_step_history in Hb.
Qed.

Lemma step_inv (HLen : (2 < Len)%nat) st st' :
  step st st' -> bounded st -> Inv st -> Inv st'.
Proof.
  destruct 1; intros Hb HI.
  - by apply start_push_inv.
  - by apply producer_step_inv.
  - by apply start_call_inv.
  - by apply consumer_step_inv.
Qed.

Lemma reachable_inv (HLen : (2 < Len)%nat) st : reachable st -> bounded st -> Inv st.
Proof.
  unfold reachable. intros Hr. apply rtc_ind_r with (P := fun st => bounded st -> Inv st) in Hr; [done|..].
  - intros _. apply initial_inv.
  - intros y z _ Hs IH Hb. pose proof (step_bounded _ _ Hs Hb) as Hby. by apply (step_inv HLen y z), IH.
Qed.

Lemma move_reachable st mv : reachable st -> reachable (move st mv).
Proof.
  intros Hr. destruct mv as [m|call| |]; cbn.
  - destruct (producer st) eqn:E; try done. eapply rtc_r; [exact Hr|by constructor].
  - destruct (consumer st) eqn:E; try done. eapply rtc_r; [exact Hr|by constructor].
  - destruct (producer st) eqn:E; [unfold producer_step; by rewrite E|..];
      (eapply rtc_r; [exact Hr|constructor; by rewrite E]).
  - destruct (consumer st) eqn:E; [unfold consumer_step; by rewrite E|..];
      (eapply rtc_r; [exact Hr|constructor; by rewrite E]).
Qed.

Lemma run_reachable schedule st : reachable st -> reachable (run schedule st).
Proof.
  revert st. induction schedule as [|mv sch IH]; intros st Hr; [done|].
  cbn. by apply IH, move_reachable.
Qed.

(** ** Wait-freedom of [Push] *)

(** The producer's own moves left in the current [Push]. *)
Definition push_rank (p : Producer) : nat :=
  match p with
  | PIdle => 0
  | PCallback _ => 1
  | PHead _ _ pending => 2 + length pending
  | PHeadHazard _ => 8
  | PSlot _ _ pending => 9 + length pending
  | PSlotHazard _ => 18
  end.

Lemma producer_step_rank st :
  push_rank (producer (producer_step st)) = pred (push_rank (producer st)).
Proof.
  unfold producer_step. destruct (producer st) as [|m|m n [|s p]|m|m n [|s p]|m] eqn:E;
    first [by rewrite E|done|cbn; lia].
Qed.

Lemma consumer_step_producer st :
  producer (consumer_step st) = producer st /\ notified (consumer_step st) = notified st.
Proof.
  unfold consumer_step. destruct (consumer st) as [|call r|r]; [done| |];
    destruct (reader_step _ _ _ r) as [r' o]; destruct r as [| | | | |c out]; try done.
  - destruct out; try done. unfold after_head.
    destruct call; [destruct (_ <? _)| |]; done.
  - destruct out; try done. unfold after_slot. by destruct (negb _).
Qed.

Definition is_producer (mv : Move) : bool := match mv with MProducer => true | _ => false end.
Definition is_push (mv : Move) : bool := match mv with MPush _ => true | _ => false end.
Definition producer_moves (schedule : list Move) : nat :=
  length (List.filter is_producer schedule).

Lemma move_rank mv st :
  is_push mv = false ->
  push_rank (producer (move st mv)) =
    (push_rank (producer st) - (if is_producer mv then 1 else 0))%nat.
Proof.
  destruct mv as [m|call| |]; intros Hp; try done; cbn [move is_producer].
  - rewrite Nat.sub_0_r. by destruct (consumer st).
  - rewrite producer_step_rank. lia.
  - rewrite (proj1 (consumer_step_producer st)). lia.
Qed.

Lemma run_rank schedule st :
  forallb (fun mv => negb (is_push mv)) schedule = true ->
  push_rank (producer (run schedule st)) =
    (push_rank (producer st) - producer_moves schedule)%nat.
Proof.
  revert st. induction schedule as [|mv sch IH]; intros st; cbn; [lia|].
  intros [Hm Hs]%andb_prop. rewrite IH by done.
  rewrite move_rank by (by destruct (is_push mv)). unfold producer_moves. cbn.
  destruct (is_producer mv); cbn; lia.
Qed.

Lemma run_history schedule st :
  forallb (fun mv => negb (is_push mv)) schedule = true ->
  history (run schedule st) = history st.
Proof.
  revert st. induction schedule as [|mv sch IH]; intros st; cbn; [done|].
  intros [Hm Hs]%andb_prop. rewrite IH by done. destruct mv as [m|call| |]; try done; cbn.
  - by destruct (consumer st).
  - apply producer_step_history.
  - apply consumer_step_history.
Qed.

(** The callbacks made, and the one the current [Push] still owes. *)
Definition callback_of (m : Message) : list Message := if has_callback then [m] else [].
Definition notified_after (st : State) : list Message :=
  notified st ++
  match producer st with
  | PIdle => []
  | PSlotHazard m | PSlot m _ _ | PHeadHazard m | PHead m _ _ | PCallback m => callback_of m
  end.

Lemma run_notified schedule st :
  forallb (fun mv => negb (is_push mv)) schedule = true ->
  notified_after (run schedule st) = notified_after st.
Proof.
  revert st. induction schedule as [|mv sch IH]; intros st; cbn; [done|].
  intros [Hm Hs]%andb_prop. rewrite IH by done. unfold notified_after.
  destruct mv as [m|call| |]; try done; cbn.
  - by destruct (consumer st).
  - unfold producer_step. destruct (producer st) as [|m|m n [|s p]|m|m n [|s p]|m] eqn:E;
      cbn; rewrite ?E; rewrite ?app_nil_r; done.
  - by destruct (consumer_step_producer st) as [-> ->].
Qed.

End Port.

(** ** Theorems *)

(** C2: no data race: in every interleaving of one producer and one consumer, the
    cell the producer is writing (its payload and metadata stores, up to the
    store that publishes it) is neither the published cell nor the cell the
    consumer has validated and is reading, of any slot or of the head; and a
    payload about to be read is complete, the message of the target sequence. *)
Theorem port_no_race {Message : Type} (Len : nat) (cb : bool) (st : @State Message) :
  (2 < Len)%nat -> reachable Len cb st -> bounded st ->
  (forall l n pending, writing Len st = Some (l, n, pending) ->
     n <> published_active (mem st l) /\ protected_at Len st l <> Some n) /\
  (forall c, consumer st = CSlot (RPayload c) ->
     let o := mem st (SlotAt (slot_index Len (consumer_sequence st))) in
     exists m, payloads o c = Some m /\
       history st !! Z.to_nat (consumer_sequence st - 1) = Some m).
Proof.
  intros HLen Hr Hb. pose proof (reachable_inv Len cb HLen st Hr Hb) as [I1 I2 I3 I4 I5 I6].
  split.
  - intros l n pending Hw. destruct (I4 _ Hw) as (front & _ & _ & _ & H1 & H2 & _). done.
  - intros c Hc. unfold consumer_ok in I5. rewrite Hc in I5.
    destruct I5 as ((_ & q & Hq & Hcell) & Hcs & _). destruct (log_range _ _ I6) as [Hcs1 _].
    cbv zeta. rewrite (cell_payload _ _ _ _ _ Hcell). pose proof (done_le st) as (Hd1 & Hd2 & _).
    destruct q as [|k]; [lia|]. cbn [msg_at]. replace (Z.to_nat (consumer_sequence st - 1)) with k by lia.
    assert (k < length (history st))%nat as Hk by lia.
    destruct (lookup_lt_is_Some_2 _ _ Hk) as [m Hm]. by exists m.
Qed.

(** C18: functional correctness of [Pop]: in every interleaving, each result with
    sequence [s] is the whole message of the [s]-th [Push], and the sequences of
    successive results strictly increase, so no message is torn, invented,
    duplicated or reordered. *)
Theorem port_pop_exact {Message : Type} (Len : nat) (cb : bool) (st : @State Message) :
  (2 < Len)%nat -> reachable Len cb st -> bounded st ->
  (forall s v, Popped s v ∈ returns st ->
     1 <= s /\ exists m, v = Some m /\ history st !! Z.to_nat (s - 1) = Some m) /\
  StronglySorted Z.lt (popped st).
Proof.
  intros HLen Hr Hb. pose proof (reachable_inv Len cb HLen st Hr Hb) as [_ _ _ _ _ I6].
  destruct I6 as [H1 H2 H3 _]. split; [|done]. intros s v Hin.
  destruct (H2 s v Hin) as [Hs ->]. split; [lia|]. pose proof (done_le st) as (Hd1 & Hd2 & _).
  destruct (Z.to_nat s) as [|k] eqn:Ek; [lia|]. cbn [msg_at].
  replace (Z.to_nat (s - 1)) with k by lia.
  destruct (lookup_lt_is_Some_2 (history st) k) as [m Hm]; [lia|]. by exists m.
Qed.

(** No message is lost but by overwriting: a message the consumer has moved
    past was returned by [Pop], or at least [Len] newer messages have been
    pushed, or a [Clear] that saw it discarded it. *)
Lemma port_no_loss {Message : Type} (Len : nat) (cb : bool) (st : @State Message) (s : Z) :
  (2 < Len)%nat -> reachable Len cb st -> bounded st -> 1 <= s < consumer_sequence st ->
  s ∈ popped st \/ s + Z.of_nat Len <= Z.of_nat (length (history st)) \/
  exists h, Cleared h ∈ returns st /\ s <= h.
Proof.
  intros HLen Hr Hb. pose proof (reachable_inv Len cb HLen st Hr Hb) as [_ _ _ _ _ I6].
  apply (log_cover _ _ I6).
Qed.

(** [Pop] reports an empty port only when the consumer has passed everything
    that was published when the call began; in particular the [return nullopt]
    for a slot older than the target is never taken. *)
Lemma port_pop_empty {Message : Type} (Len : nat) (cb : bool) (st : @State Message) :
  (2 < Len)%nat -> reachable Len cb st -> bounded st -> consumer st <> CIdle ->
  returns (consumer_step Len st) = returns st ++ [PopEmpty] ->
  call_floor st < consumer_sequence st /\ (exists call r, consumer st = CHead call r).
Proof.
  intros HLen Hr Hb _. pose proof (reachable_inv Len cb HLen st Hr Hb) as [_ _ _ _ I5 I6].
  unfold consumer_step, consumer_ok in *.
  assert (Hne : returns st <> returns st ++ [PopEmpty])
    by (intros E; apply (f_equal length) in E; rewrite length_app in E; cbn in E; lia).
  destruct (consumer st) as [|call r|r]; intros E; [done| |].
  - split; [|by eexists _, _]. destruct I5 as (Hr' & _ & _).
    destruct (reader_step _ _ _ r) as [r' o]. destruct r as [| | | | |c out]; try done.
    destruct out as [|hd|]; [done| |done]. destruct Hr' as [Hhd _].
    unfold after_head in E. cbn in E. destruct call.
    + destruct (Z.ltb_spec hd (consumer_sequence st)); [lia|done].
    + by apply app_inj_tail in E as [_ ?].
    + by apply app_inj_tail in E as [_ ?].
  - exfalso. destruct I5 as (Hr' & _ & _).
    destruct (reader_step _ _ _ r) as [r' o]. destruct r as [| | | | |c out]; try done.
    unfold after_slot in E. cbn in E. destruct out as [|q|v]; [done| |].
    + destruct Hr' as [Hq Hq']. specialize (Hq' ltac:(done)).
      rewrite (proj2 (Z.ltb_lt _ _)) in E by lia. done.
    + by apply app_inj_tail in E as [_ ?].
Qed.

(** C39: [Push] is wait-free: 18 moves of the producer (the 13 atomic accesses, the
    two halves of the payload construction, two local moves and the callback)
    complete a [Push], its callback included, whatever the consumer does
    meanwhile, and the head then publishes its sequence. *)
Theorem port_push_wait_free {Message : Type} (Len : nat) (cb : bool) (st : @State Message)
    (m : Message) (schedule : list (@Move Message)) :
  (2 < Len)%nat -> reachable Len cb st -> bounded (start_push m st) -> producer st = PIdle ->
  forallb (fun mv => negb (is_push mv)) schedule = true -> (18 <= producer_moves schedule)%nat ->
  let st' := run Len cb schedule (start_push m st) in
  producer st' = PIdle /\ history st' = history st ++ [m] /\
  notified st' = notified st ++ (if cb then [m] else []) /\
  published_head st' = Z.of_nat (length (history st')).
Proof.
  intros HLen Hr Hb Hp Hs Hn st'.
  assert (Hr' : reachable Len cb st').
  { apply run_reachable. eapply rtc_r; [exact Hr|by constructor]. }
  assert (Hh : history st' = history st ++ [m]) by (by unfold st'; rewrite run_history).
  assert (Hb' : bounded st') by (unfold bounded in *; by rewrite Hh).
  assert (Hidle : producer st' = PIdle).
  { pose proof (run_rank Len cb schedule (start_push m st) Hs) as Hk. cbn [start_push producer push_rank] in Hk.
    fold st' in Hk. destruct (producer st') as [| | | | |]; cbn in Hk; [done|lia..]. }
  split; [done|]. split; [done|]. split.
  { pose proof (run_notified Len cb schedule (start_push m st) Hs) as Hk. fold st' in Hk.
    unfold notified_after in Hk. rewrite Hidle, app_nil_r in Hk. exact Hk. }
  rewrite (published_head_done Len st') by (first [done|by apply (reachable_inv Len cb)]).
  unfold head_done. by rewrite Hidle.
Qed.

(** A port of capacity 3 whose consumer is about to read the payload of the first
    message while the producer is writing the second. *)
Definition example_schedule : list (@Move nat) :=
  MPush 70%nat :: replicate 18 MProducer ++ MCall CallPop :: replicate 16 MConsumer ++
  MPush 80%nat :: replicate 4 MProducer.
Definition example_port : @State nat := run 3 true example_schedule initial.

Lemma example_reachable : reachable 3 true example_port.
Proof. apply run_reachable. apply rtc_refl. Qed.
Lemma example_bounded : bounded example_port.
Proof. unfold bounded. vm_compute. reflexivity. Qed.

Lemma port_no_race_witness :
  consumer example_port = CSlot (RPayload 1) /\
  exists m, payloads (mem example_port (SlotAt 0)) 1 = Some m /\
    history example_port !! 0%nat = Some m.
Proof.
  split; [vm_compute; reflexivity|].
  pose proof (port_no_race 3 true example_port ltac:(lia) example_reachable example_bounded) as [_ H].
  apply (H 1%nat). vm_compute. reflexivity.
Defined.

Lemma port_pop_exact_witness :
  let st := run 3 true [MConsumer; MConsumer] example_port in
  returns st = [Popped 1 (Some 70%nat)] /\ exists m, Some 70%nat = Some m /\ history st !! 0%nat = Some m.
Proof.
  cbv zeta. assert (E : returns (run 3 true [MConsumer; MConsumer] example_port) = [Popped 1 (Some 70%nat)])
    by (vm_compute; reflexivity).
  split; [exact E|].
  pose proof (port_pop_exact 3 true (run 3 true [MConsumer; MConsumer] example_port) ltac:(lia)
    (run_reachable 3 true _ _ example_reachable) ltac:(unfold bounded; vm_compute; reflexivity)) as [H _].
  apply (H 1). rewrite E. by left.
Defined.

Lemma port_no_loss_witness :
  let st := run 3 true [MConsumer; MConsumer] example_port in
  1 ∈ popped st \/ 1 + Z.of_nat 3 <= Z.of_nat (length (history st)) \/
  exists h, Cleared h ∈ returns st /\ 1 <= h.
Proof.
  cbv zeta. apply (port_no_loss 3 true _ 1); [lia|apply run_reachable, example_reachable| |].
  - unfold bounded. vm_compute. reflexivity.
  - vm_compute. split; [discriminate|reflexivity].
Defined.

Lemma port_pop_empty_witness :
  let st := run 3 true (MCall CallPop :: replicate 7 MConsumer) (@initial nat) in
  returns (consumer_step 3 st) = [PopEmpty] /\ call_floor st < consumer_sequence st.
Proof.
  cbv zeta. split; [vm_compute; reflexivity|].
  apply (port_pop_empty 3 true); [lia|apply run_reachable, rtc_refl| | |].
  - unfold bounded. vm_compute. reflexivity.
  - vm_compute. discriminate.
  - vm_compute. reflexivity.
Defined.

Definition example_moves : list (@Move nat) :=
  replicate 9 MProducer ++ MCall CallPop :: replicate 9 MProducer.

Lemma port_push_wait_free_witness :
  (18 <= producer_moves example_moves)%nat /\
  let st' := run 3 true example_moves (start_push 70%nat initial) in
  producer st' = PIdle /\ history st' = history initial ++ [70%nat] /\
  notified st' = notified initial ++ (if true then [70%nat] else []) /\
  published_head st' = Z.of_nat (length (history st')).
Proof.
  assert (18 <= producer_moves example_moves)%nat as Hn by (vm_compute; lia).
  split; [exact Hn|].
  exact (port_push_wait_free 3 true initial 70%nat example_moves ltac:(lia) (rtc_refl _ _)
    eq_refl eq_refl eq_refl Hn).
Defined.
