(* ===== verification/Devices.v ===== *)
(** * Devices: src/device/{battery,imu,pms,glove} and src/protocol/route_ids.h

    The devices other than motors: the decoders of their report frames, the
    freshness of the status they cache, their command frames and the glove's
    update cycle.  [now] is the steady clock in nanoseconds. *)
From stdpp Require Import base list numbers option.
From Stdlib Require Import ZArith Lia.
From S2P Require Import Prelude CFloat Types.
#[local] Open Scope Z_scope.
#[local] Open Scope cint_scope.

(** ** Route identifiers *)

Definition kBatteryStatusBaseIds : list Z := [1012; 756; 244; 500].
Definition BatteryStatusIds (idx : Z) : list Z := map (fun base => u32 (base + idx)) kBatteryStatusBaseIds.

Definition kImuPriority : Z := 3.
Definition kImuDefaultSourceAddress : Z := 89.
Definition kImuAccelerationPgn : Z := 61485.
Definition kImuAngularVelocityPgn : Z := 61482.
Definition kImuEulerAnglePgn : Z := 61481.
Definition kImuQuaternionPgn : Z := 61488.
Definition ImuCanId (pgn idx : Z) : Z :=
  (kImuPriority ≪ 26) .| (pgn ≪ 8) .| u32 (kImuDefaultSourceAddress + idx).
Definition ImuStatusIds (idx : Z) : list Z :=
  [ImuCanId kImuAccelerationPgn idx; ImuCanId kImuAngularVelocityPgn idx;
   ImuCanId kImuEulerAnglePgn idx; ImuCanId kImuQuaternionPgn idx].

Definition kPmsBaseStateId : Z := 418447346.
Definition kPmsV48Current1To4Id : Z := 418512882.
Definition kPmsV48AndV19CurrentId : Z := 418578418.
Definition kPmsCommandId : Z := 418643954.
Definition kPmsStatusIds : list Z := [kPmsBaseStateId; kPmsV48Current1To4Id; kPmsV48AndV19CurrentId].
Definition kGloveCalibrationId : Z := 33104.

(** ** Little-endian fields *)

Definition ReadU16Le (d : list Z) (o : nat) : Z := u16 (byte_at d o .| (byte_at d (o + 1) ≪ 8)).
Definition ReadI16Le (d : list Z) (o : nat) : Z := i16 (ReadU16Le d o).

(** [0.01f], [0.00001f], ... : decimal literals, correctly rounded. *)
Definition flit (num den : Z) : F32.t := F32.div (F32.of_Z num) (F32.of_Z den).

Definition bit_at (d : list Z) (i : nat) (mask : Z) : bool := negb (byte_at d i .& mask =? 0).

(** [now - last > timeout] clears the value. *)
Definition expire {A} (timeout now last : Z) (v : option A) : option A :=
  if timeout <? now - last then None else v.

(** ** Battery *)

Record BatteryState := mkBatteryState {
  is_master : bool; soc : F32.t; voltage : F32.t;
  allowed_discharge_current : F32.t; allowed_charge_current : F32.t }.
Record BatteryTemp := mkBatteryTemp {
  bt_battery : F32.t; bt_mos : F32.t; discharge_current : F32.t; charge_current : F32.t }.
Record BatteryError := mkBatteryError {
  could_not_charge : bool; could_not_discharge : bool; low_battery : bool;
  over_current_steady : bool; over_current_peak : bool; over_current_charge : bool;
  battery_over_temp : bool; mos_over_temp : bool; could_not_communicate : bool;
  stopped_emergency : bool; charger_fault : bool; comm_timeout : bool }.
Record BatteryActiveCommands := mkActive {
  shutdown_request : bool; discharge_request : bool; force_shutdown_broadcast : bool;
  allow_charging : bool; fault_shutdown_broadcast_status : bool; mos_status : bool }.
Record BatteryStatus := mkBatteryStatus {
  b_state : option BatteryState; b_temp : option BatteryTemp;
  b_active : option BatteryActiveCommands; b_error : BatteryError }.

Definition no_error : BatteryError :=
  mkBatteryError false false false false false false false false false false false false.
Definition comm_timeout_error : BatteryError :=
  mkBatteryError false false false false false false false false false false false true.

Definition AnyError (e : BatteryError) : bool :=
  could_not_charge e || could_not_discharge e || low_battery e || over_current_steady e ||
  over_current_peak e || over_current_charge e || battery_over_temp e || mos_over_temp e ||
  could_not_communicate e || stopped_emergency e || charger_fault e || comm_timeout e.

Record Battery := mkBattery {
  b_idx : Z;
  last_state_update : Z; last_temp_update : Z; last_error_update : Z;
  last_active_commands_update : Z;
  b_status : BatteryStatus;
  b_on_status : bool           (* a callback is installed *)
}.
Definition new_battery (idx : Z) : Battery :=
  mkBattery idx 0 0 0 0 (mkBatteryStatus None None None no_error) false.

Definition battery_timeout : Z := 1000000000.

Definition parse_battery_state (d : list Z) : BatteryState :=
  mkBatteryState (negb (byte_at d 0 =? 0)) (F32.div (F32.of_Z (byte_at d 1)) (F32.of_Z 100))
    (F32.mul (F32.of_Z (ReadU16Le d 2)) (flit 1 100))
    (F32.mul (F32.of_Z (ReadU16Le d 4)) (flit 1 100000))
    (F32.mul (F32.of_Z (ReadU16Le d 6)) (flit 1 100000)).
Definition parse_battery_temp (d : list Z) : BatteryTemp :=
  mkBatteryTemp (F32.of_Z (ReadI16Le d 0)) (F32.of_Z (ReadI16Le d 2))
    (F32.mul (F32.of_Z (ReadU16Le d 4)) (flit 1 100000))
    (F32.mul (F32.of_Z (ReadU16Le d 6)) (flit 1 100000)).
Definition parse_battery_error (d : list Z) : BatteryError :=
  mkBatteryError (bit_at d 0 1) (bit_at d 0 2) (bit_at d 0 4) (bit_at d 0 8) (bit_at d 0 16)
    (bit_at d 0 32) (bit_at d 0 64) (bit_at d 0 128) (bit_at d 1 1) (bit_at d 1 2) (bit_at d 1 4)
    false.
Definition parse_battery_active (d : list Z) : BatteryActiveCommands :=
  mkActive (bit_at d 0 1) (bit_at d 0 2) (bit_at d 0 4) (bit_at d 0 8) (bit_at d 0 16) (bit_at d 0 32).

Inductive BatteryFrame := BatteryStateFrame | BatteryTempFrame | BatteryErrorFrame | BatteryActiveFrame.

(** The chain of tests of [OnMessage]. *)
Definition battery_frame (idx : Z) (m : MotorPackMsg) : option BatteryFrame :=
  let route i := nth i (BatteryStatusIds idx) 0 in
  if (id m =? route 0%nat) && (8 <=? len m) then Some BatteryStateFrame
  else if (id m =? route 1%nat) && (8 <=? len m) then Some BatteryTempFrame
  else if (id m =? route 2%nat) && (2 <=? len m) then Some BatteryErrorFrame
  else if (id m =? route 3%nat) && (1 <=? len m) then Some BatteryActiveFrame
  else None.

Definition store_battery (now : Z) (f : BatteryFrame) (d : list Z) (b : Battery) : Battery :=
  let st := b_status b in
  match f with
  | BatteryStateFrame =>
      mkBattery (b_idx b) now (last_temp_update b) (last_error_update b) (last_active_commands_update b)
        (mkBatteryStatus (Some (parse_battery_state d)) (b_temp st) (b_active st) (b_error st)) (b_on_status b)
  | BatteryTempFrame =>
      mkBattery (b_idx b) (last_state_update b) now (last_error_update b) (last_active_commands_update b)
        (mkBatteryStatus (b_state st) (Some (parse_battery_temp d)) (b_active st) (b_error st)) (b_on_status b)
  | BatteryErrorFrame =>
      mkBattery (b_idx b) (last_state_update b) (last_temp_update b) now (last_active_commands_update b)
        (mkBatteryStatus (b_state st) (b_temp st) (b_active st) (parse_battery_error d)) (b_on_status b)
  | BatteryActiveFrame =>
      mkBattery (b_idx b) (last_state_update b) (last_temp_update b) (last_error_update b) now
        (mkBatteryStatus (b_state st) (b_temp st) (Some (parse_battery_active d)) (b_error st)) (b_on_status b)
  end.

(** The new state, [status_updated] and the calls of the callback. *)
Definition Battery_OnMessage (now : Z) (m : MotorPackMsg) (b : Battery)
    : Battery * bool * list BatteryStatus :=
  match battery_frame (b_idx b) m with
  | None => (b, false, [])
  | Some f =>
      let b' := store_battery now f (data m) b in
      (b', true, if b_on_status b then [b_status b'] else [])
  end.

Definition Battery_GetStatus (now : Z) (b : Battery) : Battery * BatteryStatus :=
  let st := b_status b in
  let st' := mkBatteryStatus
    (expire battery_timeout now (last_state_update b) (b_state st))
    (expire battery_timeout now (last_temp_update b) (b_temp st))
    (expire battery_timeout now (last_active_commands_update b) (b_active st))
    (if battery_timeout <? now - last_error_update b then comm_timeout_error else b_error st) in
  (mkBattery (b_idx b) (last_state_update b) (last_temp_update b) (last_error_update b)
     (last_active_commands_update b) st' (b_on_status b), st').

Record BatteryPassiveCommands := mkPassive {
  allow_shutdown : bool; allow_discharge : bool; parallel_discharge : bool; force_shutdown : bool;
  request_charging : bool; fault_shutdown_broadcast : bool; configure_fault_thresholds : bool;
  clear_fault : bool; factory_mode : bool; debug : bool }.
Definition no_commands : BatteryPassiveCommands :=
  mkPassive false false false false false false false false false false.

Definition SetBit (bit_index : Z) (enabled : bool) (target : Z) : Z :=
  if enabled then u8 (target .| (1 ≪ bit_index)) else target.

Definition SendPassiveCommands (idx : Z) (c : BatteryPassiveCommands) : MotorPackMsg :=
  let d0 := SetBit 7 (clear_fault c) (SetBit 6 (configure_fault_thresholds c)
    (SetBit 5 (fault_shutdown_broadcast c) (SetBit 4 (request_charging c)
    (SetBit 3 (force_shutdown c) (SetBit 2 (parallel_discharge c)
    (SetBit 1 (allow_discharge c) (SetBit 0 (allow_shutdown c) 0))))))) in
  let d1 := SetBit 1 (debug c) (SetBit 0 (factory_mode c) 0) in
  make_pack (u32 (1268 + idx)) 2 [d0; d1].

Definition ClearFault (idx : Z) : MotorPackMsg :=
  SendPassiveCommands idx (mkPassive false false false false false false false true false false).
Definition RequestCharging (idx : Z) (enabled : bool) : MotorPackMsg :=
  SendPassiveCommands idx (mkPassive false false false false enabled false false false false false).
Definition AllowDischarge (idx : Z) (enabled : bool) : MotorPackMsg :=
  SendPassiveCommands idx (mkPassive false enabled false false false false false false false false).

(** ** IMU *)

Fixpoint ExtractLoop (d : list Z) (start_bit : Z) (bits : list Z) (result : Z) : Z :=
  match bits with
  | [] => result
  | bit :: rest =>
      let absolute_bit := u8 (start_bit + bit) in
      let enabled :=
        negb (byte_at d (Z.to_nat (absolute_bit / 8)) .& (1 ≪ (absolute_bit mod 8)) =? 0) in
      ExtractLoop d start_bit rest (if enabled then result .| (1 ≪ bit) else result)
  end.
Definition ExtractUnsignedIntel (d : list Z) (start_bit bit_len : Z) : Z :=
  ExtractLoop d start_bit (seqZ 0 bit_len) 0.

Definition Scale (raw : Z) (resolution offset : F32.t) : F32.t :=
  F32.add (F32.mul (F32.of_Z raw) resolution) offset.

Record Triple := mkTriple { t_x : F32.t; t_y : F32.t; t_z : F32.t }.
Record ImuQuaternion := mkQuaternion { qw : F32.t; qx : F32.t; qy : F32.t; qz : F32.t }.
(** Acceleration, angular velocity and Euler angle are three floats each. *)
Record ImuStatus := mkImuStatus {
  acceleration : option Triple; angular_velocity : option Triple;
  euler_angle : option Triple; quaternion : option ImuQuaternion }.

Record Imu := mkImu {
  i_idx : Z;
  last_acceleration_update : Z; last_angular_velocity_update : Z; last_euler_angle_update : Z;
  last_quaternion_update : Z;
  i_status : ImuStatus;
  i_on_status : bool
}.
Definition new_imu (idx : Z) : Imu :=
  mkImu idx 0 0 0 0 (mkImuStatus None None None None) false.

Definition imu_timeout : Z := 1000000000.

Definition parse_acceleration (d : list Z) : Triple :=
  let s o := Scale (ReadU16Le d o) (flit 1 100) (F32.of_Z (-320)) in mkTriple (s 0%nat) (s 2%nat) (s 4%nat).
Definition parse_angular_velocity (d : list Z) : Triple :=
  let s o := Scale (ExtractUnsignedIntel d o 20) (flit 1 128) (F32.of_Z (-4000)) in
  mkTriple (s 0) (s 20) (s 40).
Definition parse_euler_angle (d : list Z) : Triple :=
  let s o := Scale (ReadU16Le d o) (flit 1 128) (F32.of_Z (-250)) in mkTriple (s 0%nat) (s 2%nat) (s 4%nat).
Definition parse_quaternion (d : list Z) : ImuQuaternion :=
  let s o := Scale (ReadU16Le d o) (flit 30519 1000000000) (F32.of_Z (-1)) in
  mkQuaternion (s 0%nat) (s 2%nat) (s 4%nat) (s 6%nat).

Inductive ImuFrame := ImuAccelerationFrame | ImuAngularVelocityFrame | ImuEulerFrame | ImuQuaternionFrame.

(** The ids are compared as [int]s. *)
Definition imu_frame (idx : Z) (m : MotorPackMsg) : option ImuFrame :=
  let route i := i32 (nth i (ImuStatusIds idx) 0) in
  let mid := i32 (id m) in
  if (mid =? route 0%nat) && (6 <=? len m) then Some ImuAccelerationFrame
  else if (mid =? route 1%nat) && (8 <=? len m) then Some ImuAngularVelocityFrame
  else if (mid =? route 2%nat) && (6 <=? len m) then Some ImuEulerFrame
  else if (mid =? route 3%nat) && (8 <=? len m) then Some ImuQuaternionFrame
  else None.

Definition store_imu (now : Z) (f : ImuFrame) (d : list Z) (i : Imu) : Imu :=
  let st := i_status i in
  match f with
  | ImuAccelerationFrame =>
      mkImu (i_idx i) now (last_angular_velocity_update i) (last_euler_angle_update i) (last_quaternion_update i)
        (mkImuStatus (Some (parse_acceleration d)) (angular_velocity st) (euler_angle st) (quaternion st)) (i_on_status i)
  | ImuAngularVelocityFrame =>
      mkImu (i_idx i) (last_acceleration_update i) now (last_euler_angle_update i) (last_quaternion_update i)
        (mkImuStatus (acceleration st) (Some (parse_angular_velocity d)) (euler_angle st) (quaternion st)) (i_on_status i)
  | ImuEulerFrame =>
      mkImu (i_idx i) (last_acceleration_update i) (last_angular_velocity_update i) now (last_quaternion_update i)
        (mkImuStatus (acceleration st) (angular_velocity st) (Some (parse_euler_angle d)) (quaternion st)) (i_on_status i)
  | ImuQuaternionFrame =>
      mkImu (i_idx i) (last_acceleration_update i) (last_angular_velocity_update i) (last_euler_angle_update i) now
        (mkImuStatus (acceleration st) (angular_velocity st) (euler_angle st) (Some (parse_quaternion d))) (i_on_status i)
  end.

Definition Imu_OnMessage (now : Z) (m : MotorPackMsg) (i : Imu) : Imu * bool * list ImuStatus :=
  match imu_frame (i_idx i) m with
  | None => (i, false, [])
  | Some f =>
      let i' := store_imu now f (data m) i in
      (i', true, if i_on_status i then [i_status i'] else [])
  end.

Definition Imu_GetStatus (now : Z) (i : Imu) : Imu * ImuStatus :=
  let st := i_status i in
  let st' := mkImuStatus
    (expire imu_timeout now (last_acceleration_update i) (acceleration st))
    (expire imu_timeout now (last_angular_velocity_update i) (angular_velocity st))
    (expire imu_timeout now (last_euler_angle_update i) (euler_angle st))
    (expire imu_timeout now (last_quaternion_update i) (quaternion st)) in
  (mkImu (i_idx i) (last_acceleration_update i) (last_angular_velocity_update i)
     (last_euler_angle_update i) (last_quaternion_update i) st' (i_on_status i), st').

(** [Bus::SendImuControl], sent by the constructor and the destructor. *)
Definition SendImuControl (bus_idx : Z) (enabled : bool) : MotorMessage :=
  mkMsg bus_idx (mkPack 217066842 kCanFrameFlagEff 1 ((if enabled then 1 else 0) :: replicate 7 0)).

(** ** PMS *)

Record PmsStatus := mkPmsStatus {
  v48_channel_enabled : list bool;   (* 6 *)
  battery_soc : Z; battery_voltage : F32.t; battery_current : F32.t; v5_current : F32.t;
  v48_currents : list F32.t;         (* 6 *)
  v19_currents : list F32.t          (* 2 *)
}.
Definition pms_default : PmsStatus :=
  mkPmsStatus (replicate 6 false) 0 F32.zero F32.zero F32.zero (replicate 6 F32.zero) (replicate 2 F32.zero).

Record Pms := mkPms {
  last_base_state_update : Z; last_v48_current_1_to_4_update : Z; last_v48_and_v19_currents_update : Z;
  updated_since_callback : Z;
  p_status : PmsStatus;
  p_on_status : bool
}.
Definition new_pms : Pms := mkPms 0 0 0 0 pms_default false.

Definition pms_timeout : Z := 2000000000.
Definition kBaseStateUpdated : Z := 1.
Definition kV48Current1To4Updated : Z := 2.
Definition kV48AndV19CurrentUpdated : Z := 4.
Definition kAllStateFramesUpdated : Z :=
  kBaseStateUpdated .| kV48Current1To4Updated .| kV48AndV19CurrentUpdated.

Definition pms_current (d : list Z) (channel : nat) : F32.t :=
  F32.mul (F32.of_Z (ReadI16Le d (channel * 2))) (flit 1 100).

Inductive PmsFrame := PmsBaseFrame | PmsV48Frame | PmsV19Frame.
Definition pms_frame (m : MotorPackMsg) : option PmsFrame :=
  if len m <? 8 then None
  else if id m =? kPmsBaseStateId then Some PmsBaseFrame
  else if id m =? kPmsV48Current1To4Id then Some PmsV48Frame
  else if id m =? kPmsV48AndV19CurrentId then Some PmsV19Frame
  else None.

Definition store_pms (now : Z) (f : PmsFrame) (d : list Z) (p : Pms) : Pms :=
  let st := p_status p in
  match f with
  | PmsBaseFrame =>
      mkPms now (last_v48_current_1_to_4_update p) (last_v48_and_v19_currents_update p)
        (u8 (updated_since_callback p .| kBaseStateUpdated))
        (mkPmsStatus (map (fun ch => bit_at d 0 (1 ≪ ch)) (seqZ 0 6)) (byte_at d 1)
           (F32.mul (F32.of_Z (ReadU16Le d 2)) (flit 1 100)) (pms_current d 2) (pms_current d 3)
           (v48_currents st) (v19_currents st)) (p_on_status p)
  | PmsV48Frame =>
      mkPms (last_base_state_update p) now (last_v48_and_v19_currents_update p)
        (u8 (updated_since_callback p .| kV48Current1To4Updated))
        (mkPmsStatus (v48_channel_enabled st) (battery_soc st) (battery_voltage st) (battery_current st)
           (v5_current st) (map (pms_current d) (seq 0 4) ++ drop 4 (v48_currents st)) (v19_currents st))
        (p_on_status p)
  | PmsV19Frame =>
      mkPms (last_base_state_update p) (last_v48_current_1_to_4_update p) now
        (u8 (updated_since_callback p .| kV48AndV19CurrentUpdated))
        (mkPmsStatus (v48_channel_enabled st) (battery_soc st) (battery_voltage st) (battery_current st)
           (v5_current st) (take 4 (v48_currents st) ++ map (pms_current d) (seq 0 2))
           (map (pms_current d) (seq 2 2))) (p_on_status p)
  end.

Definition IsStatusValid (now : Z) (p : Pms) : bool :=
  (now - last_base_state_update p <=? pms_timeout) &&
  (now - last_v48_current_1_to_4_update p <=? pms_timeout) &&
  (now - last_v48_and_v19_currents_update p <=? pms_timeout).

Definition clear_updated (p : Pms) : Pms :=
  mkPms (last_base_state_update p) (last_v48_current_1_to_4_update p)
    (last_v48_and_v19_currents_update p) 0 (p_status p) (p_on_status p).

Definition Pms_OnMessage (now : Z) (m : MotorPackMsg) (p : Pms) : Pms * list PmsStatus :=
  match pms_frame m with
  | None => (p, [])
  | Some f =>
      let p' := store_pms now f (data m) p in
      if (updated_since_callback p' =? kAllStateFramesUpdated) && IsStatusValid now p' then
        (clear_updated p', if p_on_status p then [p_status p'] else [])
      else (p', [])
  end.

Definition Pms_GetStatus (now : Z) (p : Pms) : option PmsStatus :=
  if negb (IsStatusValid now p) then None else Some (p_status p).

(** [None] is [std::invalid_argument]. *)
Definition Pms_SendCommand (command : Z) : option MotorPackMsg :=
  let raw := u16 command in
  let disable_channels := u8 (raw .& 63) in
  let enable_channels := u8 ((raw ≫ 8) .& 63) in
  if negb (disable_channels .& enable_channels =? 0) then None
  else Some (mkPack kPmsCommandId kCanFrameFlagEff 8 (disable_channels :: enable_channels :: replicate 6 0)).

(** ** Glove *)

Definition kFingerCount : nat := 5.
Definition kEncodersPerFinger : nat := 10.
Definition kEncoderCount : nat := kFingerCount * kEncodersPerFinger.

(** [status_[f][e]] is the element [f * kEncodersPerFinger + e] of the list. *)
Record Glove := mkGlove {
  g_status : list (option F32.t);
  updated_in_cycle : list bool;
  g_on_status : bool
}.
Definition new_glove : Glove :=
  mkGlove (replicate kEncoderCount None) (replicate kEncoderCount false) false.

Definition kTwoPi : F32.t := F32.of_bits 1086918619.

(** [GloveEncoder::OnMessage]: [None] when the frame is ignored. *)
Definition GloveEncoder_OnMessage (m : MotorPackMsg) : option (option F32.t) :=
  if negb (len m =? 3) then None
  else Some (if byte_at (data m) 2 =? 0 then None
             else Some (F32.mul (F32.div (F32.of_Z (ReadU16Le (data m) 0)) (F32.of_Z 65535)) kTwoPi)).

Definition OnEncoderUpdate (encoder_idx : nat) (v : option F32.t) (g : Glove)
    : Glove * list (list (option F32.t)) :=
  if (kEncoderCount <=? encoder_idx)%nat then (g, [])
  else
    let status' := <[encoder_idx := v]> (g_status g) in
    let updated' := <[encoder_idx := true]> (updated_in_cycle g) in
    if forallb (fun u => u) updated' then
      (mkGlove status' (replicate kEncoderCount false) (g_on_status g),
       if g_on_status g then [status'] else [])
    else (mkGlove status' updated' (g_on_status g), []).

Inductive GloveCalibrationStatus := CalSuccess | CalFailed | CalLimited | CalTimeout.
#[export] Instance GloveCalibrationStatus_eq_dec : EqDecision GloveCalibrationStatus.
Proof. solve_decision. Defined.

Definition calibration_of_byte (b : Z) : option GloveCalibrationStatus :=
  match b with
  | 160 => Some CalSuccess
  | 161 => Some CalFailed
  | 162 => Some CalLimited
  | _ => None
  end.

Definition MergeCalibrationStatus (current next : GloveCalibrationStatus) : GloveCalibrationStatus :=
  if decide (current = CalFailed \/ next = CalFailed) then CalFailed
  else if decide (current = CalLimited \/ next = CalLimited) then CalLimited
  else CalSuccess.

(** [Glove::CalibrateAll]: the answers of the calibrators that are asked. *)
Fixpoint CalibrateAllLoop (result : GloveCalibrationStatus) (responses : list GloveCalibrationStatus)
    : GloveCalibrationStatus :=
  match responses with
  | [] => result
  | r :: rest =>
      if decide (r = CalTimeout) then CalTimeout
      else CalibrateAllLoop (MergeCalibrationStatus result r) rest
  end.
Definition Glove_CalibrateAll (responses : list GloveCalibrationStatus) : GloveCalibrationStatus :=
  CalibrateAllLoop CalSuccess (take kFingerCount responses).

(** [None] is [std::invalid_argument]. *)
Definition CalibrateByMaskMessage (finger_idx encoder_mask : Z) : option MotorPackMsg :=
  if 5 <=? finger_idx then None
  else if negb (encoder_mask .& 64512 =? 0) then None
  else Some (mkPack kGloveCalibrationId kCanFrameFlagEff 8
         (161 :: u8 (encoder_mask .& 255) :: u8 (encoder_mask ≫ 8) :: replicate 5 0)).
Definition CalibrateAllMessage : MotorPackMsg :=
  mkPack kGloveCalibrationId kCanFrameFlagEff 8 (160 :: replicate 7 0).

Record Calibrator := mkCalibrator {
  response : GloveCalibrationStatus; response_received : bool; waiting_for_response : bool }.

Definition GloveCalibrator_OnMessage (m : MotorPackMsg) (c : Calibrator) : Calibrator :=
  if negb (len m =? 8) then c
  else match calibration_of_byte (byte_at (data m) 0) with
       | None => c
       | Some s =>
           if negb (waiting_for_response c) || response_received c then c
           else mkCalibrator s true (waiting_for_response c)
       end.

(** [GloveCalibrator::SendAndWait]: [sent] is [false] when the writer throws,
    [before] are the frames received until the wait ends. *)
Definition GloveCalibrator_SendAndWait (sent : bool) (before : list MotorPackMsg) (c : Calibrator)
    : Calibrator * GloveCalibrationStatus :=
  let armed := mkCalibrator CalTimeout false true in
  if negb sent then (mkCalibrator (response armed) false false, CalTimeout)
  else
    let c' := fold_left (fun c m => GloveCalibrator_OnMessage m c) before armed in
    (mkCalibrator (response c') false false, if response_received c' then response c' else CalTimeout).

(** ** Freshness *)

(** What a read at [now] sees of a value received at [last]. *)
Definition seen_at {A} (timeout now last : Z) (dflt v : A) : A :=
  if timeout <? now - last then dflt else v.

Lemma seen_twice {A} timeout now now' last (dflt v : A) :
  now' <= now -> seen_at timeout now last dflt (seen_at timeout now' last dflt v) =
                 seen_at timeout now last dflt v.
Proof.
  intros H. unfold seen_at.
  destruct (Z.ltb_spec timeout (now - last)); [done|].
  by rewrite (proj2 (Z.ltb_ge timeout (now' - last))) by lia.
Qed.

(** The events of a battery or an IMU, with their times. *)
Inductive DevEvent := EvMessage (t : Z) (m : MotorPackMsg) | EvRead (t : Z).
Definition ev_time (e : DevEvent) : Z := match e with EvMessage t _ | EvRead t => t end.

(** The last frame of a kind, with its time. *)
Definition last_frame {K} `{EqDecision K} (kind : MotorPackMsg -> option K) (k : K)
    (trace : list DevEvent) : option (Z * list Z) :=
  fold_left (fun acc e =>
    match e with
    | EvMessage t m => if decide (kind m = Some k) then Some (t, data m) else acc
    | EvRead _ => acc
    end) trace None.

(** The value a read at [now] must show: the last frame decoded, while fresh. *)
Definition fresh {A} (timeout now : Z) (dflt initial : A) (parse : list Z -> A)
    (frame : option (Z * list Z)) : A :=
  match frame with
  | Some (t, d) => seen_at timeout now t dflt (parse d)
  | None => seen_at timeout now 0 dflt initial
  end.

#[export] Instance BatteryFrame_eq_dec : EqDecision BatteryFrame.
Proof. solve_decision. Defined.
#[export] Instance ImuFrame_eq_dec : EqDecision ImuFrame.
Proof. solve_decision. Defined.

Definition battery_event (b : Battery) (e : DevEvent) : Battery :=
  match e with
  | EvMessage t m => (Battery_OnMessage t m b).1.1
  | EvRead t => (Battery_GetStatus t b).1
  end.
Definition run_battery (idx : Z) (trace : list DevEvent) : Battery :=
  fold_left battery_event trace (new_battery idx).

(** What a read at [now] must return after a trace. *)
Definition battery_spec (idx : Z) (trace : list DevEvent) (now : Z) : BatteryStatus :=
  let frame k := last_frame (battery_frame idx) k trace in
  mkBatteryStatus
    (fresh battery_timeout now None None (fun d => Some (parse_battery_state d)) (frame BatteryStateFrame))
    (fresh battery_timeout now None None (fun d => Some (parse_battery_temp d)) (frame BatteryTempFrame))
    (fresh battery_timeout now None None (fun d => Some (parse_battery_active d)) (frame BatteryActiveFrame))
    (fresh battery_timeout now comm_timeout_error no_error parse_battery_error (frame BatteryErrorFrame)).

Definition imu_event (i : Imu) (e : DevEvent) : Imu :=
  match e with
  | EvMessage t m => (Imu_OnMessage t m i).1.1
  | EvRead t => (Imu_GetStatus t i).1
  end.
Definition run_imu (idx : Z) (trace : list DevEvent) : Imu := fold_left imu_event trace (new_imu idx).

Definition imu_spec (idx : Z) (trace : list DevEvent) (now : Z) : ImuStatus :=
  let frame k := last_frame (imu_frame idx) k trace in
  mkImuStatus
    (fresh imu_timeout now None None (fun d => Some (parse_acceleration d)) (frame ImuAccelerationFrame))
    (fresh imu_timeout now None None (fun d => Some (parse_angular_velocity d)) (frame ImuAngularVelocityFrame))
    (fresh imu_timeout now None None (fun d => Some (parse_euler_angle d)) (frame ImuEulerFrame))
    (fresh imu_timeout now None None (fun d => Some (parse_quaternion d)) (frame ImuQuaternionFrame)).

Lemma last_frame_snoc {K} `{EqDecision K} (kind : MotorPackMsg -> option K) k trace e :
  last_frame kind k (trace ++ [e]) =
    match e with
    | EvMessage t m => if decide (kind m = Some k) then Some (t, data m) else last_frame kind k trace
    | EvRead _ => last_frame kind k trace
    end.
Proof. unfold last_frame. by rewrite fold_left_app. Qed.

Lemma run_battery_idx idx trace : b_idx (run_battery idx trace) = idx.
Proof.
  unfold run_battery. change idx with (b_idx (new_battery idx)) at 2.
  generalize (new_battery idx). induction trace as [|e trace IH]; intros b; [done|].
  cbn. rewrite IH. destruct e as [t m|t]; cbn; [|done]. unfold Battery_OnMessage.
  destruct (battery_frame _ m) as [f|]; [|done]. by destruct f.
Qed.

Lemma run_imu_idx idx trace : i_idx (run_imu idx trace) = idx.
Proof.
  unfold run_imu. change idx with (i_idx (new_imu idx)) at 2.
  generalize (new_imu idx). induction trace as [|e trace IH]; intros b; [done|].
  cbn. rewrite IH. destruct e as [t m|t]; cbn; [|done]. unfold Imu_OnMessage.
  destruct (imu_frame _ m) as [f|]; [|done]. by destruct f.
Qed.

(** Events in order of time. *)
Inductive timed : list DevEvent -> Z -> Prop :=
  | timed_nil t : timed [] t
  | timed_snoc trace e t : timed trace (ev_time e) -> ev_time e <= t -> timed (trace ++ [e]) t.

Lemma battery_fresh_inv idx trace now0 :
  timed trace now0 -> forall now, now0 <= now ->
  (Battery_GetStatus now (run_battery idx trace)).2 = battery_spec idx trace now.
Proof.
  induction 1 as [t|trace e t _ IH He]; intros now Hnow; [done|].
  specialize (IH now ltac:(lia)). unfold run_battery in *. rewrite fold_left_app. cbn [fold_left].
  pose proof (run_battery_idx idx trace) as Hidx. unfold run_battery in Hidx.
  set (b := fold_left battery_event trace (new_battery idx)) in *.
  unfold battery_spec in *. rewrite !last_frame_snoc. destruct e as [te m|te]; cbn [battery_event].
  - unfold Battery_OnMessage. rewrite Hidx. destruct (battery_frame idx m) as [f|]; [|done].
    injection IH as I1 I2 I3 I4.
    destruct f; cbn; rewrite ?I1, ?I2, ?I3, ?I4; done.
  - rewrite <- IH. cbn in He. unfold Battery_GetStatus. cbn [fst snd].
    f_equal; change (@expire) with (fun A to n l (v : option A) => seen_at to n l None v);
      cbv beta; by apply seen_twice; lia.
Qed.

Lemma imu_fresh_inv idx trace now0 :
  timed trace now0 -> forall now, now0 <= now ->
  (Imu_GetStatus now (run_imu idx trace)).2 = imu_spec idx trace now.
Proof.
  induction 1 as [t|trace e t _ IH He]; intros now Hnow; [done|].
  specialize (IH now ltac:(lia)). unfold run_imu in *. rewrite fold_left_app. cbn [fold_left].
  pose proof (run_imu_idx idx trace) as Hidx. unfold run_imu in Hidx.
  set (b := fold_left imu_event trace (new_imu idx)) in *.
  unfold imu_spec in *. rewrite !last_frame_snoc. destruct e as [te m|te]; cbn [imu_event].
  - unfold Imu_OnMessage. rewrite Hidx. destruct (imu_frame idx m) as [f|]; [|done].
    injection IH as I1 I2 I3 I4.
    destruct f; cbn; rewrite ?I1, ?I2, ?I3, ?I4; done.
  - rewrite <- IH. cbn in He. unfold Imu_GetStatus. cbn [fst snd].
    f_equal; change (@expire) with (fun A to n l (v : option A) => seen_at to n l None v);
      cbv beta; by apply seen_twice; lia.
Qed.

(** ** Bit fields *)

(** The little-endian integer of the bytes. *)
Fixpoint le_value (d : list Z) : Z :=
  match d with [] => 0 | b :: r => b + 256 * le_value r end.

Lemma le_value_testbit d i :
  Forall byte_ok d -> 0 <= i ->
  Z.testbit (le_value d) i = Z.testbit (byte_at d (Z.to_nat (i / 8))) (i mod 8).
Proof.
  intros Hd. revert i. induction Hd as [|b d Hb Hd IH]; intros i Hi; cbn [le_value].
  { unfold byte_at. destruct (Z.to_nat _); cbn; by rewrite !Z.testbit_0_l. }
  replace (b + 256 * le_value d) with ((le_value d ≪ 8) .| b)
    by (unfold byte_ok in Hb; rewrite lor_shiftl_add by lia; lia).
  rewrite Z.lor_spec, Z.shiftl_spec by lia. unfold byte_ok in Hb.
  destruct (Z.lt_ge_cases i 8) as [Hlt|Hge].
  - rewrite (Z.testbit_neg_r _ (i - 8)) by lia. rewrite Z.div_small, Z.mod_small by lia. done.
  - rewrite IH by lia. replace (Z.testbit b i) with false.
    2: { symmetry. rewrite <- (Z.mod_small b (2 ^ 8)) by lia. apply Z.mod_pow2_bits_high. lia. }
    rewrite orb_false_r. replace (i / 8) with ((i - 8) / 8 + 1) by (Z.to_euclidean_division_equations; lia).
    replace (i mod 8) with ((i - 8) mod 8) by (Z.to_euclidean_division_equations; lia).
    rewrite Z2Nat.inj_add by (Z.to_euclidean_division_equations; lia).
    unfold byte_at. by rewrite Nat.add_1_r.
Qed.

Lemma mask_testbit x k : 0 <= k -> negb (x .& (1 ≪ k) =? 0) = Z.testbit x k.
Proof.
  intros Hk. destruct (Z.testbit x k) eqn:E.
  - apply negb_true_iff, Z.eqb_neq. intros H0.
    assert (Z.testbit (x .& (1 ≪ k)) k = true) as H.
    { rewrite Z.land_spec, E, Z.shiftl_spec by lia. by rewrite Z.sub_diag. }
    by rewrite H0, Z.testbit_0_l in H.
  - apply negb_false_iff, Z.eqb_eq. apply Z.bits_inj'. intros i Hi.
    rewrite Z.land_spec, Z.shiftl_spec, Z.testbit_0_l by lia.
    destruct (decide (i = k)) as [->|]; [by rewrite E|].
    destruct (Z.lt_ge_cases i k); [by rewrite (Z.testbit_neg_r 1), andb_false_r by lia|].
    replace (Z.testbit 1 (i - k)) with false; [apply andb_false_r|].
    symmetry. apply Z.bits_above_log2; cbn; lia.
Qed.

Lemma ExtractLoop_testbit d s bits r i :
  Forall byte_ok d -> 0 <= s -> Forall (fun b => 0 <= b /\ s + b < 64) bits -> 0 <= i ->
  Z.testbit (ExtractLoop d s bits r) i =
    Z.testbit r i || (bool_decide (i ∈ bits) && Z.testbit (le_value d) (s + i)).
Proof.
  intros Hd Hs Hb Hi. revert r. induction Hb as [|b bits Hb _ IH]; intros r; cbn [ExtractLoop].
  { rewrite bool_decide_false by (by intros ?%elem_of_nil). by rewrite orb_false_r. }
  rewrite IH. rewrite mask_testbit by (apply Z.mod_pos_bound; lia).
  assert (u8 (s + b) = s + b) as -> by (apply u8_small; unfold byte_ok; lia).
  rewrite <- le_value_testbit by (done || lia).
  destruct (decide (i = b)) as [->|Hne].
  - rewrite (bool_decide_true (b ∈ b :: bits)) by (by left).
    destruct (Z.testbit (le_value d) (s + b)).
    + rewrite Z.lor_spec, Z.shiftl_spec, Z.sub_diag by lia. cbn. by rewrite !orb_true_r.
    + by rewrite !andb_false_r.
  - assert (Z.testbit (if Z.testbit (le_value d) (s + b) then r .| (1 ≪ b) else r) i = Z.testbit r i) as ->.
    { destruct (Z.testbit (le_value d) (s + b)); [|done]. rewrite Z.lor_spec, Z.shiftl_spec by lia.
      destruct (Z.lt_ge_cases i b); [by rewrite (Z.testbit_neg_r 1), orb_false_r by lia|].
      replace (Z.testbit 1 (i - b)) with false; [apply orb_false_r|].
      symmetry. apply Z.bits_above_log2; cbn; lia. }
    f_equal. f_equal. apply bool_decide_ext. split; [by right|]. by intros [?|?]%elem_of_cons.
Qed.

Lemma ExtractUnsignedIntel_eq d s n :
  Forall byte_ok d -> 0 <= s -> 0 <= n -> s + n <= 64 ->
  ExtractUnsignedIntel d s n = (le_value d ≫ s) mod 2 ^ n.
Proof.
  intros Hd Hs Hn Hle. apply Z.bits_inj'. intros i Hi. unfold ExtractUnsignedIntel.
  rewrite ExtractLoop_testbit; [|done|done| |done].
  2: { apply list.Forall_forall. intros b Hb%elem_of_seqZ. lia. }
  rewrite Z.testbit_0_l, orb_false_l.
  destruct (Z.lt_ge_cases i n) as [Hlt|Hge].
  - rewrite bool_decide_true by (apply elem_of_seqZ; lia).
    rewrite Z.mod_pow2_bits_low, Z.shiftr_spec by lia. cbn. f_equal. lia.
  - rewrite bool_decide_false by (rewrite elem_of_seqZ; lia).
    by rewrite Z.mod_pow2_bits_high by lia.
Qed.

Lemma bit_at_testbit d i k : 0 <= k -> bit_at d i (1 ≪ k) = Z.testbit (byte_at d i) k.
Proof. apply mask_testbit. Qed.

(** ** The glove's cycle *)

Definition encoder_updates := list (nat * option F32.t).

(** The encoders that have reported since the last complete cycle. *)
Definition covers (since : list nat) : bool :=
  forallb (fun j => bool_decide (j ∈ since)) (seq 0 kEncoderCount).
Definition since_step (since : list nat) (u : nat * option F32.t) : list nat :=
  if (kEncoderCount <=? u.1)%nat then since
  else let s := since ++ [u.1] in if covers s then [] else s.
Definition since_last_cycle (us : encoder_updates) : list nat := fold_left since_step us [].

(** The latest value of every encoder. *)
Definition latest_step (cur : nat -> option F32.t) (u : nat * option F32.t) : nat -> option F32.t :=
  fun j => if decide (j = u.1) then u.2 else cur j.
Definition latest (us : encoder_updates) : list (option F32.t) :=
  map (fold_left latest_step us (fun _ => None)) (seq 0 kEncoderCount).

Definition glove_step (g : Glove) (u : nat * option F32.t) : Glove := (OnEncoderUpdate u.1 u.2 g).1.
Definition run_glove (us : encoder_updates) (callback : bool) : Glove :=
  fold_left glove_step us (mkGlove (replicate kEncoderCount None) (replicate kEncoderCount false) callback).

Lemma insert_map_seq {A} (f : nat -> A) i x n :
  (i < n)%nat ->
  <[i := x]> (map f (seq 0 n)) = map (fun j => if decide (j = i) then x else f j) (seq 0 n).
Proof.
  intros Hi. apply list_eq. intros k. destruct (decide (k < n)%nat) as [Hk|Hk].
  - change (map f (seq 0 n)) with (f <$> seq 0 n).
    change (map (fun j => if decide (j = i) then x else f j) (seq 0 n)) with
      ((fun j => if decide (j = i) then x else f j) <$> seq 0 n).
    rewrite (list_lookup_fmap _ (seq 0 n)), lookup_seq_lt by done. cbn.
    destruct (decide (k = i)) as [->|Hne].
    + rewrite list_lookup_insert_eq; [done|]. by rewrite length_fmap, length_seq.
    + rewrite list_lookup_insert_ne by done. by rewrite list_lookup_fmap, lookup_seq_lt.
  - rewrite !lookup_ge_None_2; [done| |]; rewrite ?length_insert, length_map, length_seq; lia.
Qed.

Lemma forallb_map {A} (f : A -> bool) l : forallb (fun u : bool => u) (map f l) = forallb f l.
Proof. induction l as [|a l IH]; cbn; [done|by rewrite IH]. Qed.

Lemma OnEncoderUpdate_since since cur cb i v :
  (i < kEncoderCount)%nat ->
  let g := mkGlove (map cur (seq 0 kEncoderCount))
             (map (fun j => bool_decide (j ∈ since)) (seq 0 kEncoderCount)) cb in
  OnEncoderUpdate i v g =
    (mkGlove (map (latest_step cur (i, v)) (seq 0 kEncoderCount))
       (map (fun j => bool_decide (j ∈ since_step since (i, v))) (seq 0 kEncoderCount)) cb,
     if covers (since ++ [i]) then
       if cb then [map (latest_step cur (i, v)) (seq 0 kEncoderCount)] else []
     else []).
Proof.
  intros Hi g. unfold OnEncoderUpdate, since_step. cbn [fst].
  rewrite (proj2 (Nat.leb_gt _ _)) by done. subst g. cbn [g_status updated_in_cycle g_on_status].
  rewrite !insert_map_seq by done.
  change (fun j => if decide (j = i) then v else cur j) with (latest_step cur (i, v)).
  assert (map (fun j => if decide (j = i) then true else bool_decide (j ∈ since)) (seq 0 kEncoderCount)
    = map (fun j => bool_decide (j ∈ since ++ [i])) (seq 0 kEncoderCount)) as ->.
  { apply map_ext. intros j. destruct (decide (j = i)) as [->|Hne].
    - symmetry. apply bool_decide_true. apply elem_of_app. right. by left.
    - apply bool_decide_ext. rewrite elem_of_app, list_elem_of_singleton.
      split; [by left|]. by intros [?|?]. }
  rewrite forallb_map. fold (covers (since ++ [i])). by destruct (covers (since ++ [i])).
Qed.

Lemma run_glove_eq us cb :
  run_glove us cb =
    mkGlove (latest us) (map (fun j => bool_decide (j ∈ since_last_cycle us)) (seq 0 kEncoderCount)) cb.
Proof.
  induction us as [|[i v] us IH] using rev_ind; [done|].
  unfold run_glove, latest, since_last_cycle in *. rewrite !fold_left_app. cbn [fold_left].
  rewrite IH. unfold glove_step. cbn [fst snd].
  destruct (decide (i < kEncoderCount)%nat) as [Hi|Hi].
  - rewrite OnEncoderUpdate_since by done. done.
  - unfold OnEncoderUpdate, since_step. cbn [fst]. rewrite (proj2 (Nat.leb_le _ _)) by lia. cbn [fst].
    f_equal. apply map_ext_in. intros j Hj%in_seq. unfold latest_step. cbn.
    by rewrite decide_False by lia.
Qed.

(** ** Theorems *)

(** Freshness: whatever the sequence of received frames and earlier reads, a
    status read shows, for each kind of frame, the decoding of the last frame of
    that kind if it is at most one second old and nothing otherwise (the
    battery's fault set then says "communication timeout"), so reads never
    disturb later reads and a frame of one kind never refreshes another. *)
Lemma device_freshness (idx : Z) (trace : list DevEvent) (now : Z) :
  timed trace now ->
  (Battery_GetStatus now (run_battery idx trace)).2 = battery_spec idx trace now /\
  (Imu_GetStatus now (run_imu idx trace)).2 = imu_spec idx trace now.
Proof. intros H. split; [eapply battery_fresh_inv|eapply imu_fresh_inv]; done || lia. Qed.

Lemma device_freshness_witness :
  let m := mkPack 1012 0 8 [1; 50; 16; 39; 0; 0; 0; 0] in
  let s := (Battery_GetStatus 1500000000 (run_battery 0 [EvMessage 600000000 m])).2 in
  b_state s = Some (parse_battery_state (data m)) /\ b_error s = comm_timeout_error.
Proof.
  cbv zeta.
  destruct (device_freshness 0 [EvMessage 600000000 (mkPack 1012 0 8 [1; 50; 16; 39; 0; 0; 0; 0])]
    1500000000) as [-> _].
  - apply (timed_snoc [] (EvMessage 600000000 (mkPack 1012 0 8 [1; 50; 16; 39; 0; 0; 0; 0]))); [constructor|cbn; lia].
  - split; reflexivity.
Defined.

(** [ExtractUnsignedIntel], the bit-by-bit loop that reads the IMU's 20-bit
    fields, computes the slice of the little-endian integer of the payload, for
    every field within the eight bytes. *)
Lemma imu_bit_fields (d : list Z) (start_bit bit_len : Z) :
  Forall byte_ok d -> 0 <= start_bit -> 0 <= bit_len -> start_bit + bit_len <= 64 ->
  ExtractUnsignedIntel d start_bit bit_len = (le_value d ≫ start_bit) mod 2 ^ bit_len.
Proof. apply ExtractUnsignedIntel_eq. Qed.

Lemma imu_bit_fields_witness :
  ExtractUnsignedIntel [1; 2; 3; 4; 5; 6; 7; 8] 20 20 = (le_value [1; 2; 3; 4; 5; 6; 7; 8] ≫ 20) mod 2 ^ 20.
Proof. apply imu_bit_fields; [by bytes_ok|lia..]. Defined.

(** The glove reports in whole cycles: an encoder update calls the user exactly
    when it completes the set of all 50 encoders that have reported since the
    previous complete cycle, with the latest value of every encoder; an index
    out of range changes nothing. *)
Lemma glove_cycle (us : encoder_updates) (callback : bool) (i : nat) (v : option F32.t) :
  (OnEncoderUpdate i v (run_glove us callback)).2 =
    (if (i <? kEncoderCount)%nat && covers (since_last_cycle us ++ [i]) && callback
     then [latest (us ++ [(i, v)])] else []) /\
  g_status (run_glove us callback) = latest us.
Proof.
  rewrite run_glove_eq. split; [|done]. destruct (Nat.ltb_spec i kEncoderCount) as [Hi|Hi]; cbn [andb].
  - unfold latest at 1. rewrite OnEncoderUpdate_since by done. cbn [snd]. unfold latest.
    rewrite fold_left_app. cbn [fold_left]. by destruct (covers _), callback.
  - unfold OnEncoderUpdate. by rewrite (proj2 (Nat.leb_le _ _)) by done.
Qed.

(** A PMS command is refused exactly when it both enables and disables some
    channel; otherwise the frame's two mask bytes are the disable and the enable
    bits of the six channels, bit for bit. *)
Lemma pms_command (command : Z) :
  match Pms_SendCommand command with
  | None => exists ch, 0 <= ch < 6 /\ Z.testbit command ch = true /\ Z.testbit command (ch + 8) = true
  | Some m =>
      id m = kPmsCommandId /\
      forall ch, 0 <= ch < 6 ->
        bit_at (data m) 0 (1 ≪ ch) = Z.testbit command ch /\
        bit_at (data m) 1 (1 ≪ ch) = Z.testbit command (ch + 8) /\
        (Z.testbit command ch && Z.testbit command (ch + 8) = false)
  end.
Proof.
  unfold Pms_SendCommand.
  assert (Hbits : forall ch, 0 <= ch ->
    Z.testbit (u8 (u16 command .& 63)) ch = (ch <? 6) && Z.testbit command ch /\
    Z.testbit (u8 ((u16 command ≫ 8) .& 63)) ch = (ch <? 6) && Z.testbit command (ch + 8)).
  { intros ch Hch. unfold u8, u16. change 256 with (2 ^ 8). change 65536 with (2 ^ 16).
    change 63 with (Z.ones 6). rewrite !Z.land_ones by lia.
    destruct (Z.ltb_spec ch 6); cbn [andb].
    - rewrite !Z.mod_pow2_bits_low, Z.shiftr_spec, Z.mod_pow2_bits_low by lia. done.
    - destruct (Z.lt_ge_cases ch 8).
      + rewrite !(Z.mod_pow2_bits_low _ 8) by lia. by rewrite !Z.mod_pow2_bits_high by lia.
      + by rewrite !Z.mod_pow2_bits_high by lia. }
  set (dis := u8 _) in *. set (en := u8 ((u16 command ≫ 8) .& 63)) in *.
  destruct (Z.eqb_spec (dis .& en) 0) as [E|E]; cbn [negb].
  - split; [done|]. intros ch Hch. cbn [data]. rewrite !bit_at_testbit by lia. unfold byte_at. cbn [nth].
    destruct (Hbits ch ltac:(lia)) as [E1 E2]. rewrite (proj2 (Z.ltb_lt ch 6)) in E1, E2 by lia.
    cbn [andb] in *. split; [done|]. split; [done|]. rewrite <- E1, <- E2, <- Z.land_spec, E.
    apply Z.testbit_0_l.
  - destruct (existsb (fun ch => Z.testbit command ch && Z.testbit command (ch + 8)) (seqZ 0 6)) eqn:Ex.
    { apply existsb_exists in Ex as (ch & Hin & [H1 H2]%andb_prop). exists ch.
      apply list_elem_of_In, elem_of_seqZ in Hin. split; [lia|done]. }
    destruct E. apply Z.bits_inj'. intros i Hi. rewrite Z.land_spec, Z.testbit_0_l.
    destruct (Hbits i Hi) as [-> ->]. destruct (Z.ltb_spec i 6); [|done]. cbn [andb].
    destruct (Z.testbit command i && Z.testbit command (i + 8)) eqn:Eb; [|done].
    assert (existsb (fun ch => Z.testbit command ch && Z.testbit command (ch + 8)) (seqZ 0 6) = true) as Ht;
      [|by rewrite Ht in Ex].
    apply existsb_exists. exists i. split; [|done]. apply list_elem_of_In, elem_of_seqZ. lia.
Qed.


(** Within the source-address byte the IMU id is a sum. *)
Lemma ImuCanId_eq pgn idx :
  0 <= pgn < 262144 -> 0 <= idx < 167 -> ImuCanId pgn idx = 201326592 + pgn * 256 + (89 + idx).
Proof.
  intros Hp Hi. unfold ImuCanId, kImuPriority, kImuDefaultSourceAddress.
  rewrite u32_small by lia. rewrite (lor_shiftl_add 3 (pgn ≪ 8) 26);
    [|lia|rewrite Z.shiftl_mul_pow2 by lia; lia].
  rewrite Z.shiftl_mul_pow2 by lia.
  replace (3 * 2 ^ 26 + pgn * 2 ^ 8) with ((786432 + pgn) ≪ 8) by (rewrite Z.shiftl_mul_pow2 by lia; lia).
  rewrite lor_shiftl_add by lia. lia.
Qed.

Definition imu_pgns : list Z :=
  [kImuAccelerationPgn; kImuAngularVelocityPgn; kImuEulerAnglePgn; kImuQuaternionPgn].

(** Which device indexes share a CAN id: two batteries do exactly when their
    indexes are equal or differ by 256, 512 or 768; IMUs never do for indexes
    below 167 (where source address and index fit one byte), whatever the frame
    kinds, but beyond that the index runs into the PGN: index 256 has the
    acceleration id of index 0. *)
Lemma device_route_ids :
  (forall i j, 0 <= i < 65536 -> 0 <= j < 65536 ->
     ((exists x, x ∈ BatteryStatusIds i /\ x ∈ BatteryStatusIds j) <->
      Z.abs (i - j) ∈ [0; 256; 512; 768])) /\
  (forall p q i j, p ∈ imu_pgns -> q ∈ imu_pgns -> 0 <= i < 167 -> 0 <= j < 167 ->
     ImuCanId p i = ImuCanId q j -> p = q /\ i = j) /\
  ImuCanId kImuAccelerationPgn 256 = ImuCanId kImuAccelerationPgn 0.
Proof.
  split; [|split; [|reflexivity]].
  - intros i j Hi Hj. unfold BatteryStatusIds, kBatteryStatusBaseIds. cbn [map].
    rewrite !u32_small by lia. split.
    + intros (x & H1 & H2). rewrite !elem_of_cons, elem_of_nil in *. lia.
    + rewrite !elem_of_cons, elem_of_nil. intros H.
      exists (if i <? j then (if Z.abs (i - j) =? 0 then 244 + i else 244 + j) else 244 + i).
      rewrite !elem_of_cons. destruct (Z.ltb_spec i j), (Z.eqb_spec (Z.abs (i - j)) 0); lia.
  - intros p q i j Hp Hq Hi Hj. unfold imu_pgns in *. rewrite !elem_of_cons, elem_of_nil in *.
    unfold kImuAccelerationPgn, kImuAngularVelocityPgn, kImuEulerAnglePgn, kImuQuaternionPgn in *.
    rewrite !ImuCanId_eq by lia. lia.
Qed.
