(* ===== verification/SyncQueue.v ===== *)
(** * SyncQueue: src/adapter/base_adapter.cc and the outgoing side of src/bus/bus.cc

    The submission path of the adapter: a bus is either in direct mode (every
    submission goes to the driver at once) or in synchronised mode (submissions
    wait in the bus until a commit sends them as one batch).  All operations run
    under the adapter's [submit_mutex], so each is one step.  The driver behind
    the virtual [Send] and [SendSynchronized] is the log of the batches handed to
    it and, per call, whether it throws. *)
From stdpp Require Import base list numbers option functions.
From Stdlib Require Import ZArith Lia.
From S2P Require Import Prelude Types.
#[local] Open Scope Z_scope.

(** ** State *)

(** A device's send channel: its [Port<10, MotorMessage>], the unread messages. *)
Record SendChannel := mkChannel { ch_id : nat; port : list MotorMessage }.

Record BusQueue := mkBusQueue {
  sync_mode : bool;
  send_channels : list SendChannel;
  bulk_queue : list MotorMessage
}.
Definition new_bus : BusQueue := mkBusQueue false [] [].

Inductive Sent := SentDirect (batch : list MotorMessage) | SentSynchronized (batch : list MotorMessage).
Definition batch_of (s : Sent) : list MotorMessage :=
  match s with SentDirect b | SentSynchronized b => b end.

Record Adapter := mkAdapter {
  default_sync_mode : bool;
  buses : Z -> BusQueue;
  next_channel : nat;
  wire : list Sent;          (* the batches handed to the driver, in order *)
  throws : list bool         (* whether the next calls of the driver throw *)
}.
Definition new_adapter (faults : list bool) : Adapter := mkAdapter false (fun _ => new_bus) 0 [] faults.

(** ** Channels *)

Definition kChannelCapacity : nat := 10.

(** [Port::Push] on an idle port: the newest 10 unread messages are retained. *)
Definition push_port (q : list MotorMessage) (m : MotorMessage) : list MotorMessage :=
  let q' := q ++ [m] in drop (length q' - kChannelCapacity) q'.

Definition push_channel (ch : nat) (m : MotorMessage) (b : BusQueue) : BusQueue :=
  mkBusQueue (sync_mode b)
    (map (fun c => if decide (ch_id c = ch) then mkChannel ch (push_port (port c) m) else c)
       (send_channels b))
    (bulk_queue b).

(** [Bus::Impl::DrainOutgoingLocked]: at most 10 messages of every channel in
    registration order, then the whole bulk queue. *)
Definition DrainOutgoingLocked (b : BusQueue) : list MotorMessage * BusQueue :=
  (concat (map (fun c => take 10 (port c)) (send_channels b)) ++ bulk_queue b,
   mkBusQueue (sync_mode b) (map (fun c => mkChannel (ch_id c) (drop 10 (port c))) (send_channels b)) []).

Definition set_sync (enabled : bool) (b : BusQueue) : BusQueue :=
  mkBusQueue enabled (send_channels b) (bulk_queue b).

(** ** Operations *)

Definition set_bus (i : Z) (b : BusQueue) (a : Adapter) : Adapter :=
  mkAdapter (default_sync_mode a) (<[i := b]> (buses a)) (next_channel a) (wire a) (throws a).

(** A call of the driver; [true] when it returns normally. *)
Definition driver (s : Sent) (a : Adapter) : bool * Adapter :=
  (negb (hd false (throws a)),
   mkAdapter (default_sync_mode a) (buses a) (next_channel a) (wire a ++ [s]) (tl (throws a))).

Definition driver_unless_empty (mk : list MotorMessage -> Sent) (messages : list MotorMessage)
    (a : Adapter) : bool * Adapter :=
  match messages with [] => (true, a) | _ => driver (mk messages) a end.

(** [MakeDeviceWriter]: the new channel. *)
Definition MakeDeviceWriter (i : Z) (a : Adapter) : nat * Adapter :=
  let b := buses a i in
  let ch := next_channel a in
  (ch, mkAdapter (default_sync_mode a)
         (<[i := mkBusQueue (sync_mode b) (send_channels b ++ [mkChannel ch []]) (bulk_queue b)]> (buses a))
         (S ch) (wire a) (throws a)).

Definition UnregisterSendChannel (i : Z) (ch : nat) (a : Adapter) : Adapter :=
  let b := buses a i in
  set_bus i (mkBusQueue (sync_mode b) (List.filter (fun c => negb (bool_decide (ch_id c = ch))) (send_channels b))
               (bulk_queue b)) a.

Definition InitializeBusSyncMode (i : Z) (a : Adapter) : Adapter :=
  set_bus i (set_sync (default_sync_mode a) (buses a i)) a.

(** The driver's exception is logged and swallowed. *)
Definition SubmitDeviceMessage (i : Z) (ch : nat) (m : MotorMessage) (a : Adapter) : bool * Adapter :=
  if sync_mode (buses a i) then (true, set_bus i (push_channel ch m (buses a i)) a)
  else (true, snd (driver (SentDirect [m]) a)).

Definition SubmitBusMessages (i : Z) (messages : list MotorMessage) (immediate : bool) (a : Adapter)
    : bool * Adapter :=
  match messages with
  | [] => (true, a)
  | _ =>
      let b := buses a i in
      if sync_mode b && negb immediate then
        (true, set_bus i (mkBusQueue (sync_mode b) (send_channels b) (bulk_queue b ++ messages)) a)
      else driver (SentDirect messages) a
  end.

Definition RelaySendRaw (messages : list MotorMessage) (a : Adapter) : bool * Adapter :=
  driver_unless_empty SentDirect messages a.

Definition CommitBus (i : Z) (a : Adapter) : bool * Adapter :=
  let (messages, b) := DrainOutgoingLocked (set_sync true (buses a i)) in
  driver_unless_empty SentSynchronized messages (set_bus i b a).

Definition SetBusSyncMode (i : Z) (enabled : bool) (a : Adapter) : bool * Adapter :=
  let b := buses a i in
  if negb enabled && sync_mode b then
    let (messages, b') := DrainOutgoingLocked (set_sync enabled b) in
    driver_unless_empty SentDirect messages (set_bus i b' a)
  else (true, set_bus i (set_sync enabled b) a).

(** The loops of [Commit] and [SetSyncMode]; [snapshot] lists the known buses
    whose operation could be acquired, in the map's order.  [drain b] says
    whether a bus is drained. *)
Fixpoint collect (drain : BusQueue -> bool) (mode : bool) (snapshot : list Z) (a : Adapter)
    : list MotorMessage * Adapter :=
  match snapshot with
  | [] => ([], a)
  | i :: rest =>
      let b := buses a i in
      let (batch, b') := if drain b then DrainOutgoingLocked (set_sync mode b)
                         else ([], set_sync mode b) in
      let (messages, a') := collect drain mode rest (set_bus i b' a) in
      (batch ++ messages, a')
  end.

Definition set_default (enabled : bool) (a : Adapter) : Adapter :=
  mkAdapter enabled (buses a) (next_channel a) (wire a) (throws a).

Definition Commit (snapshot : list Z) (a : Adapter) : bool * Adapter :=
  let (messages, a') := collect sync_mode true snapshot (set_default true a) in
  driver_unless_empty SentSynchronized messages a'.

Definition SetSyncMode (enabled : bool) (snapshot : list Z) (a : Adapter) : bool * Adapter :=
  let (messages, a') := collect (fun b => negb enabled && sync_mode b) enabled snapshot
                          (set_default enabled a) in
  driver_unless_empty SentDirect messages a'.

(** Any operation. *)
Inductive Op :=
  | OpDevice (i : Z) (ch : nat) (m : MotorMessage)
  | OpBulk (i : Z) (ms : list MotorMessage) (immediate : bool)
  | OpRaw (ms : list MotorMessage)
  | OpCommitBus (i : Z)
  | OpSetBusSync (i : Z) (enabled : bool)
  | OpCommit (snapshot : list Z)
  | OpSetSync (enabled : bool) (snapshot : list Z)
  | OpWriter (i : Z)
  | OpUnregister (i : Z) (ch : nat)
  | OpNewBus (i : Z).

Definition exec (a : Adapter) (op : Op) : Adapter :=
  match op with
  | OpDevice i ch m => (SubmitDeviceMessage i ch m a).2
  | OpBulk i ms im => (SubmitBusMessages i ms im a).2
  | OpRaw ms => (RelaySendRaw ms a).2
  | OpCommitBus i => (CommitBus i a).2
  | OpSetBusSync i e => (SetBusSyncMode i e a).2
  | OpCommit s => (Commit s a).2
  | OpSetSync e s => (SetSyncMode e s a).2
  | OpWriter i => (MakeDeviceWriter i a).2
  | OpUnregister i ch => UnregisterSendChannel i ch a
  | OpNewBus i => InitializeBusSyncMode i (set_bus i new_bus a)
  end.
Definition run_ops (a : Adapter) (ops : list Op) : Adapter := fold_left exec ops a.

(** ** The queue invariant *)

(** In direct mode nothing waits; a channel never holds more than 10 messages. *)
Record bus_ok (b : BusQueue) : Prop := {
  bus_direct : sync_mode b = false -> bulk_queue b = [] /\ Forall (fun c => port c = []) (send_channels b);
  bus_ports : Forall (fun c => (length (port c) <= 10)%nat) (send_channels b)
}.

Lemma push_port_length q m : (length (push_port q m) <= 10)%nat.
Proof. unfold push_port, kChannelCapacity. rewrite length_drop, length_app. cbn. lia. Qed.

Lemma push_channel_ok ch m b : sync_mode b = true -> bus_ok b -> bus_ok (push_channel ch m b).
Proof.
  intros Hs [_ H2]. constructor; cbn; [by rewrite Hs|]. apply Forall_map.
  apply (list.Forall_impl _ _ _ H2). intros c Hc. cbn. destruct (decide _); [|done]. apply push_port_length.
Qed.

Lemma drain_ok mode b : bus_ok b -> bus_ok (DrainOutgoingLocked (set_sync mode b)).2.
Proof.
  intros [_ H2]. cbn in *. constructor; cbn.
  - intros _. split; [done|]. apply Forall_map. apply (list.Forall_impl _ _ _ H2).
    intros c Hc. cbn. by apply drop_ge.
  - apply Forall_map. apply (list.Forall_impl _ _ _ H2). intros c Hc. cbn. rewrite length_drop. lia.
Qed.

Lemma set_sync_ok mode b : mode = true \/ sync_mode b = false -> bus_ok b -> bus_ok (set_sync mode b).
Proof.
  intros Hm [H1 H2]. constructor; cbn; [|done]. intros ->. destruct Hm as [|Hm]; [done|]. by apply H1.
Qed.

Lemma Forall_filter_imp {A} (P : A -> Prop) f l : Forall P l -> Forall P (List.filter f l).
Proof.
  induction 1 as [|x l Hx _ IH]; cbn; [done|]. destruct (f x); [by constructor|done].
Qed.

(** ** Conservation of the messages of one bus *)
Section Conservation.
Context (P : MotorMessage -> bool) (i0 : Z).

Definition keep : list MotorMessage -> list MotorMessage := List.filter P.
Definition foreign (ms : list MotorMessage) : Prop := Forall (fun m => P m = false) ms.

Lemma keep_app a b : keep (a ++ b) = keep a ++ keep b.
Proof. apply List.filter_app. Qed.
Lemma keep_foreign ms : foreign ms -> keep ms = [].
Proof. induction 1 as [|m ms Hm _ IH]; cbn; [done|]. by rewrite Hm. Qed.

(** The messages of interest ([P]) are those submitted in bulk to the bus [i0]. *)
Definition op_ok (op : Op) : Prop :=
  match op with
  | OpDevice _ _ m => P m = false
  | OpBulk i ms immediate => (i = i0 /\ immediate = false) \/ foreign ms
  | OpRaw ms => foreign ms
  | OpNewBus i => i <> i0
  | _ => True
  end.
Definition submitted (op : Op) : list MotorMessage :=
  match op with OpBulk i ms false => if decide (i = i0) then keep ms else [] | _ => [] end.

Definition on_wire (a : Adapter) : list MotorMessage := keep (concat (map batch_of (wire a))).

Record Good (a : Adapter) : Prop := {
  good_bus : forall i, bus_ok (buses a i);
  good_ports : forall i, Forall (fun c => foreign (port c)) (send_channels (buses a i));
  good_bulk : forall i, i <> i0 -> foreign (bulk_queue (buses a i))
}.
Definition accounted (a : Adapter) : list MotorMessage := on_wire a ++ keep (bulk_queue (buses a i0)).

Lemma good_set_bus i b a :
  bus_ok b -> Forall (fun c => foreign (port c)) (send_channels b) ->
  (i <> i0 -> foreign (bulk_queue b)) -> Good a -> Good (set_bus i b a).
Proof.
  intros H1 H2 H3 [G1 G2 G3]. constructor; intros j; cbn; destruct (decide (i = j)) as [<-|Hne];
    rewrite ?fn_lookup_insert, ?(fn_lookup_insert_ne _ i j) by done; auto.
Qed.

Lemma good_driver s a : Good a -> Good (driver s a).2.
Proof. by intros [G1 G2 G3]. Qed.
Lemma good_driver_unless mk ms a : Good a -> Good (driver_unless_empty mk ms a).2.
Proof. intros. destruct ms; [done|]. by apply good_driver. Qed.

Lemma accounted_driver mk ms a :
  (forall b, batch_of (mk b) = b) ->
  accounted (driver_unless_empty mk ms a).2 = on_wire a ++ keep ms ++ keep (bulk_queue (buses a i0)).
Proof.
  intros Hmk. unfold accounted, on_wire. destruct ms as [|m ms]; [done|]. cbn [driver_unless_empty driver snd wire buses].
  by rewrite map_app, concat_app, keep_app, app_assoc; cbn; rewrite Hmk, app_nil_r.
Qed.

(** What a drain takes from a bus. *)
Lemma drain_keep b mode :
  Forall (fun c => foreign (port c)) (send_channels b) ->
  keep (DrainOutgoingLocked (set_sync mode b)).1 = keep (bulk_queue b) /\
  bulk_queue (DrainOutgoingLocked (set_sync mode b)).2 = [] /\
  Forall (fun c => foreign (port c)) (send_channels (DrainOutgoingLocked (set_sync mode b)).2).
Proof.
  intros H. cbn. split; [|split; [done|]].
  - rewrite keep_app, keep_foreign; [done|]. clear -H. induction H as [|c l Hc _ IH]; cbn; [constructor|].
    apply Forall_app. split; [by apply Forall_take|done].
  - apply Forall_map. apply (list.Forall_impl _ _ _ H). intros c Hc. by apply Forall_drop.
Qed.

Lemma drain_step i mode a :
  Good a ->
  let p := DrainOutgoingLocked (set_sync mode (buses a i)) in
  Good (set_bus i p.2 a) /\
  keep p.1 ++ keep (bulk_queue (buses (set_bus i p.2 a) i0)) = keep (bulk_queue (buses a i0)) /\
  on_wire (set_bus i p.2 a) = on_wire a.
Proof.
  intros G p. destruct (drain_keep (buses a i) mode (good_ports _ G i)) as (K1 & K2 & K3).
  fold p in K1, K2, K3. split; [|split; [|done]].
  - apply good_set_bus; [by apply drain_ok, G|done|rewrite K2; constructor|done].
  - cbn [set_bus buses]. clearbody p. destruct (decide (i = i0)) as [->|Hne].
    + by rewrite fn_lookup_insert, K2, app_nil_r.
    + rewrite fn_lookup_insert_ne by done. rewrite K1, keep_foreign; [done|]. by apply G.
Qed.

Lemma collect_ok drain mode snapshot a :
  (forall b, drain b = false -> mode = true \/ sync_mode b = false) -> Good a ->
  let p := collect drain mode snapshot a in
  Good p.2 /\ keep p.1 ++ keep (bulk_queue (buses p.2 i0)) = keep (bulk_queue (buses a i0)) /\
  on_wire p.2 = on_wire a.
Proof.
  intros Hd. revert a. induction snapshot as [|i rest IH]; intros a G; [done|]. cbn [collect].
  assert (exists batch b', (if drain (buses a i) then DrainOutgoingLocked (set_sync mode (buses a i))
      else ([], set_sync mode (buses a i))) = (batch, b') /\ Good (set_bus i b' a) /\
      keep batch ++ keep (bulk_queue (buses (set_bus i b' a) i0)) = keep (bulk_queue (buses a i0)) /\
      on_wire (set_bus i b' a) = on_wire a) as (batch & b' & -> & G' & K & W).
  { destruct (drain (buses a i)) eqn:E.
    - destruct (drain_step i mode a G) as (G' & K & W).
      destruct (DrainOutgoingLocked _) as [batch b']. by exists batch, b'.
    - exists [], (set_sync mode (buses a i)). split; [done|]. split; [|split; [|done]].
      + apply good_set_bus; [apply set_sync_ok; [by apply Hd|by apply G]|by apply G| |done]. by apply G.
      + cbn. destruct (decide (i = i0)) as [->|Hne]; [by rewrite fn_lookup_insert|].
        by rewrite fn_lookup_insert_ne. }
  specialize (IH (set_bus i b' a) G'). destruct (collect drain mode rest (set_bus i b' a)) as [ms a'].
  cbn in *. destruct IH as (IG & IK & IW). split; [done|]. split; [|by rewrite IW].
  by rewrite keep_app, <- app_assoc, IK.
Qed.

Lemma push_channel_foreign ch m b :
  P m = false -> Forall (fun c => foreign (port c)) (send_channels b) ->
  Forall (fun c => foreign (port c)) (send_channels (push_channel ch m b)).
Proof.
  intros Hm H. cbn. apply Forall_map. apply (list.Forall_impl _ _ _ H). intros c Hc. cbn.
  destruct (decide _); [|done]. apply Forall_drop, Forall_app. split; [done|by constructor].
Qed.

(** A write to the bus [i] that keeps the bulk queue. *)
Lemma accounted_set_bus i b a :
  bulk_queue b = bulk_queue (buses a i) -> accounted (set_bus i b a) = accounted a.
Proof.
  intros E. unfold accounted. f_equal. cbn. destruct (decide (i = i0)) as [->|Hne].
  - by rewrite fn_lookup_insert, E.
  - by rewrite fn_lookup_insert_ne.
Qed.

Lemma bulk_ok i ms immediate a :
  op_ok (OpBulk i ms immediate) -> Good a ->
  Good (exec a (OpBulk i ms immediate)) /\
  accounted (exec a (OpBulk i ms immediate)) = accounted a ++ submitted (OpBulk i ms immediate).
Proof.
  intros Hop G. cbn [exec]. unfold SubmitBusMessages. destruct ms as [|m ms'] eqn:Em.
  { split; [done|]. cbn. destruct immediate; [|destruct (decide _)]; by rewrite app_nil_r. }
  rewrite <- Em in *. clear Em m ms'.
  assert (Hsub : submitted (OpBulk i ms immediate) = keep ms /\ i = i0 /\ immediate = false \/
    foreign ms /\ submitted (OpBulk i ms immediate) = []).
  { cbn in *. destruct Hop as [[-> ->]|Hf]; [left; by rewrite decide_True|right].
    split; [done|]. destruct immediate; [done|]. destruct (decide _); [by apply keep_foreign|done]. }
  destruct (sync_mode (buses a i) && negb immediate) eqn:E.
  - apply andb_prop in E as [Es Ei]. destruct immediate; [done|]. cbn [snd]. split.
    + pose proof (good_bus _ G i) as [B1 B2]. apply good_set_bus; [|by apply G| |done].
      * constructor; cbn; [by rewrite Es|done].
      * intros Hne. cbn. apply Forall_app. split; [by apply G|]. by destruct Hsub as [(_ & ? & _)|[? _]].
    + unfold accounted. rewrite <- app_assoc. cbn [set_bus buses]. f_equal.
      destruct (decide (i = i0)) as [->|Hne].
      * rewrite fn_lookup_insert. cbn [bulk_queue]. rewrite keep_app. f_equal.
        destruct Hsub as [[-> _]|[Hf ->]]; [done|by apply keep_foreign].
      * rewrite fn_lookup_insert_ne by done. destruct Hsub as [(_ & ? & _)|[_ ->]]; [done|].
        by rewrite app_nil_r.
  - split; [by apply good_driver|].
    unfold accounted, on_wire. cbn [driver snd wire buses].
    rewrite map_app, concat_app, keep_app. cbn [map concat batch_of]. rewrite app_nil_r, <- !app_assoc. f_equal.
    destruct Hsub as [(-> & -> & ->)|[Hf ->]].
    + rewrite andb_true_r in E. destruct (bus_direct _ (good_bus _ G i0) E) as [-> _]. cbn.
      by rewrite app_nil_r.
    + by rewrite (keep_foreign _ Hf), app_nil_r.
Qed.

Lemma exec_ok a op :
  op_ok op -> Good a -> Good (exec a op) /\ accounted (exec a op) = accounted a ++ submitted op.
Proof.
  intros Hop G. destruct op as [i ch m|i ms im|ms|i|i e|s|e s|i|i ch|i]; [|by apply bulk_ok|..];
    cbn [exec submitted]; rewrite ?app_nil_r.
  - unfold SubmitDeviceMessage. destruct (sync_mode (buses a i)) eqn:Es; cbn [snd].
    + split; [|by apply accounted_set_bus]. apply good_set_bus; [|by apply push_channel_foreign, G|by apply G|done].
      apply push_channel_ok; [done|apply G].
    + split; [by apply good_driver|]. pose proof (accounted_driver SentDirect [m] a ltac:(done)) as H.
      cbn in H, Hop. rewrite Hop in H. exact H.
  - unfold RelaySendRaw. split; [by apply good_driver_unless|].
    rewrite accounted_driver by done. cbn in Hop. by rewrite (keep_foreign _ Hop).
  - unfold CommitBus. destruct (drain_step i true a G) as (G' & K & W).
    destruct (DrainOutgoingLocked _) as [ms b]. cbn [fst snd] in G', K, W. split; [by apply good_driver_unless|].
    rewrite accounted_driver by done. by rewrite W, K.
  - unfold SetBusSyncMode. destruct (negb e && sync_mode (buses a i)) eqn:E.
    + destruct (drain_step i e a G) as (G' & K & W).
      destruct (DrainOutgoingLocked _) as [ms b]. cbn [fst snd] in G', K, W. split; [by apply good_driver_unless|].
      rewrite accounted_driver by done. by rewrite W, K.
    + cbn [snd]. split; [|by apply accounted_set_bus].
      apply good_set_bus; [apply set_sync_ok; [|by apply G]|by apply G|by apply G|done].
      destruct e; [by left|right]. by cbn in E.
  - unfold Commit. destruct (collect_ok sync_mode true s (set_default true a)) as (G' & K & W).
    { by left. } { by destruct G. }
    destruct (collect _ _ _ _) as [ms a']. cbn [fst snd] in G', K, W. split; [by apply good_driver_unless|].
    rewrite accounted_driver by done. by rewrite W, K.
  - unfold SetSyncMode. destruct (collect_ok (fun b => negb e && sync_mode b) e s (set_default e a)) as (G' & K & W).
    { intros b. destruct e; [by left|]. cbn. by right. } { by destruct G. }
    destruct (collect _ _ _ _) as [ms a']. cbn [fst snd] in G', K, W. split; [by apply good_driver_unless|].
    rewrite accounted_driver by done. by rewrite W, K.
  - set (b' := mkBusQueue (sync_mode (buses a i)) (send_channels (buses a i) ++ [mkChannel (next_channel a) []])
      (bulk_queue (buses a i))).
    assert (Good (set_bus i b' a) /\ accounted (set_bus i b' a) = accounted a) as [G' E].
    2: { split; [by destruct G'|exact E]. }
    split; [|by apply accounted_set_bus]. pose proof (good_bus _ G i) as [B1 B2].
    apply good_set_bus; [|cbn|by apply G|done].
    + constructor; cbn.
      * intros [? ?]%B1. split; [done|]. apply Forall_app. split; [done|by constructor].
      * apply Forall_app. split; [done|]. constructor; [cbn; lia|constructor].
    + apply Forall_app. split; [by apply G|]. by repeat constructor.
  - unfold UnregisterSendChannel. split; [|by apply accounted_set_bus].
    pose proof (good_bus _ G i) as [B1 B2].
    apply good_set_bus; [|by apply Forall_filter_imp, G|by apply G|done].
    constructor; cbn; [|by apply Forall_filter_imp].
    intros [? ?]%B1. split; [done|by apply Forall_filter_imp].
  - cbn in Hop. unfold InitializeBusSyncMode, set_bus. cbn. split.
    + constructor; intros j; cbn; (destruct (decide (i = j)) as [<-|Hne];
        [rewrite !fn_lookup_insert; cbn|rewrite !fn_lookup_insert_ne by done; by apply G]);
        repeat constructor.
    + unfold accounted, on_wire. cbn. by rewrite !fn_lookup_insert_ne.
Qed.

Lemma run_ok ops a :
  Forall op_ok ops -> Good a ->
  Good (run_ops a ops) /\ accounted (run_ops a ops) = accounted a ++ concat (map submitted ops).
Proof.
  intros Hops. revert a. induction Hops as [|op ops Hop _ IH]; intros a G.
  { cbn. by rewrite app_nil_r. }
  change (run_ops a (op :: ops)) with (run_ops (exec a op) ops). cbn [map concat].
  destruct (exec_ok a op Hop G) as [G' E]. destruct (IH _ G') as [G'' E']. split; [done|].
  by rewrite E', E, app_assoc.
Qed.

Lemma good_new faults : Good (new_adapter faults).
Proof. by repeat constructor. Qed.

End Conservation.

(** ** What a commit sends *)

Definition lastn (n : nat) (l : list MotorMessage) : list MotorMessage := drop (length l - n) l.

Lemma push_port_lastn l m : push_port (lastn 10 l) m = lastn 10 (l ++ [m]).
Proof.
  unfold push_port, lastn, kChannelCapacity. rewrite !length_app, length_drop. cbn [length].
  destruct (decide (length l <= 9)%nat) as [Hl|Hl].
  - replace (length l - 10)%nat with 0%nat by lia.
    replace (length l - 0 + 1 - 10)%nat with 0%nat by lia.
    by replace (length l + 1 - 10)%nat with 0%nat by lia.
  - replace (length l - (length l - 10) + 1 - 10)%nat with 1%nat by lia.
    rewrite <- drop_app_le by lia. rewrite drop_drop. f_equal. lia.
Qed.

(** Submissions to one bus in synchronised mode. *)
Inductive Submission := SubDevice (ch : nat) (m : MotorMessage) | SubBulk (ms : list MotorMessage).
Definition op_of (i : Z) (s : Submission) : Op :=
  match s with SubDevice ch m => OpDevice i ch m | SubBulk ms => OpBulk i ms false end.
Definition device_messages (ch : nat) (s : Submission) : list MotorMessage :=
  match s with SubDevice ch' m => if decide (ch' = ch) then [m] else [] | SubBulk _ => [] end.
Definition bulk_messages (s : Submission) : list MotorMessage :=
  match s with SubBulk ms => ms | SubDevice _ _ => [] end.

Definition pending_channels (chs : list nat) (subs : list Submission) : list SendChannel :=
  map (fun ch => mkChannel ch (lastn 10 (concat (map (device_messages ch) subs)))) chs.

Lemma submissions_pending i chs subs a :
  buses a i = mkBusQueue true (map (fun ch => mkChannel ch []) chs) [] ->
  let a' := run_ops a (map (op_of i) subs) in
  buses a' i = mkBusQueue true (pending_channels chs subs) (concat (map bulk_messages subs)) /\
  wire a' = wire a /\ throws a' = throws a.
Proof.
  intros H0. induction subs as [|s subs IH] using rev_ind; [done|].
  rewrite map_app. unfold run_ops in *. rewrite fold_left_app. cbn [map fold_left].
  destruct IH as (Hb & Hw & Ht). set (a' := fold_left exec (map (op_of i) subs) a) in *. clearbody a'.
  rewrite map_app, concat_app. cbn [map concat].
  destruct s as [ch m|ms]; cbn [op_of exec bulk_messages].
  - unfold SubmitDeviceMessage. rewrite Hb. cbn [sync_mode snd set_bus wire throws buses].
    split; [|done]. rewrite fn_lookup_insert. unfold push_channel. cbn. f_equal; [|by rewrite app_nil_r].
    unfold pending_channels. rewrite map_map. apply map_ext. intros c. cbn [ch_id port].
    rewrite map_app, concat_app. cbn [map concat device_messages].
    destruct (decide (c = ch)) as [->|Hne].
    + rewrite decide_True by done. f_equal. rewrite app_nil_r. by apply push_port_lastn.
    + rewrite decide_False by done. by rewrite !app_nil_r.
  - assert (Hch : pending_channels chs (subs ++ [SubBulk ms]) = pending_channels chs subs).
    { unfold pending_channels. apply map_ext. intros c. rewrite map_app, concat_app. cbn.
      by rewrite app_nil_r. }
    rewrite Hch, app_nil_r. unfold SubmitBusMessages. destruct ms as [|m ms]; [by rewrite app_nil_r|].
    rewrite Hb. cbn [sync_mode negb andb snd set_bus wire throws buses send_channels bulk_queue].
    by rewrite fn_lookup_insert.
Qed.

(** ** Theorems *)

(** C20: no bulk message is lost, duplicated or reordered by the queueing: over any
    sequence of operations of any threads (mode switches, commits of one bus or
    of the adapter, device traffic, buses coming up), with or without driver
    exceptions, the messages submitted in bulk to a bus are, in order, those
    already handed to the driver followed by those still queued; and a bus in
    direct mode never has anything queued, so none can be stranded there. *)
Theorem bulk_conservation (P : MotorMessage -> bool) (i : Z) (faults : list bool) (ops : list Op) :
  Forall (op_ok P i) ops ->
  let a := run_ops (new_adapter faults) ops in
  on_wire P a ++ keep P (bulk_queue (buses a i)) = concat (map (submitted P i) ops) /\
  forall j, sync_mode (buses a j) = false ->
    bulk_queue (buses a j) = [] /\ Forall (fun c => port c = []) (send_channels (buses a j)).
Proof.
  intros Hops. destruct (run_ok P i ops (new_adapter faults) Hops (good_new P i faults)) as [G E].
  split; [exact E|]. intros j Hj. by apply (bus_direct _ (good_bus _ _ _ G j)).
Qed.

Lemma bulk_conservation_witness :
  let m k := mkMsg 1 (make_pack k 1 [0]) in
  let ops := [OpNewBus 2; OpSetBusSync 1 true; OpBulk 1 [m 1; m 2] false; OpCommit [1; 2];
              OpBulk 1 [m 3] false] in
  let a := run_ops (new_adapter [true]) ops in
  on_wire (fun _ => true) a = [m 1; m 2] /\ keep (fun _ => true) (bulk_queue (buses a 1)) = [m 3] /\
  on_wire (fun _ => true) a ++ keep (fun _ => true) (bulk_queue (buses a 1)) = [m 1; m 2; m 3].
Proof.
  cbv zeta. split; [reflexivity|]. split; [reflexivity|].
  apply (bulk_conservation (fun _ => true) 1 [true]
    [OpNewBus 2; OpSetBusSync 1 true; OpBulk 1 [mkMsg 1 (make_pack 1 1 [0]); mkMsg 1 (make_pack 2 1 [0])] false;
     OpCommit [1; 2]; OpBulk 1 [mkMsg 1 (make_pack 3 1 [0])] false]).
  repeat constructor; try done; by left.
Defined.

(** A commit of a bus sends one synchronised batch: after any interleaving of
    device and bulk submissions in synchronised mode nothing has reached the
    driver, and [CommitBus] hands it, for each send channel in registration
    order, the newest 10 messages of the channel, then every bulk message in
    order; the queues are then empty. *)
Lemma commit_batch (i : Z) (chs : list nat) (subs : list Submission) (a : Adapter) :
  buses a i = mkBusQueue true (map (fun ch => mkChannel ch []) chs) [] ->
  let a' := run_ops a (map (op_of i) subs) in
  let batch := concat (map (fun ch => lastn 10 (concat (map (device_messages ch) subs))) chs) ++
               concat (map bulk_messages subs) in
  wire a' = wire a /\
  wire (CommitBus i a').2 = wire a ++ (match batch with [] => [] | _ => [SentSynchronized batch] end) /\
  buses (CommitBus i a').2 i = mkBusQueue true (map (fun ch => mkChannel ch []) chs) [] /\
  ((CommitBus i a').1 = false <-> batch <> [] /\ hd false (throws a) = true).
Proof.
  intros H0 a' batch. destruct (submissions_pending i chs subs a H0) as (Hb & Hw & Ht).
  fold a' in Hb, Hw, Ht. split; [done|].
  assert (Hlast : forall l, (length (lastn 10 l) <= 10)%nat)
    by (intros; unfold lastn; rewrite length_drop; lia).
  assert (DrainOutgoingLocked (set_sync true (buses a' i)) =
    (batch, mkBusQueue true (map (fun ch => mkChannel ch []) chs) [])) as E.
  { rewrite Hb. unfold DrainOutgoingLocked, set_sync, pending_channels. cbn [send_channels bulk_queue sync_mode].
    subst batch. f_equal.
    - f_equal. rewrite map_map. f_equal. apply map_ext. intros c. cbn [port]. by apply take_ge.
    - f_equal. rewrite map_map. apply map_ext. intros c. cbn [port ch_id]. f_equal. by apply drop_ge. }
  unfold CommitBus. rewrite E. destruct batch as [|m ms].
  - cbn. rewrite fn_lookup_insert, app_nil_r. split; [done|]. split; [done|].
    split; [done|]. by intros [? _].
  - cbn. rewrite fn_lookup_insert, Hw, Ht. split; [done|]. split; [done|]. split.
    + by intros H%negb_false_iff.
    + by intros [_ ->].
Qed.

Lemma commit_batch_witness :
  let m k := mkMsg 1 (make_pack k 1 [0]) in
  let a := (MakeDeviceWriter 1 (SetBusSyncMode 1 true (new_adapter [])).2).2 in
  wire (CommitBus 1 (run_ops a (map (op_of 1) [SubDevice 0 (m 1); SubBulk [m 2]; SubDevice 0 (m 3)]))).2 =
    [SentSynchronized [m 1; m 3; m 2]].
Proof.
  cbv zeta.
  destruct (commit_batch 1 [0%nat] [SubDevice 0 (mkMsg 1 (make_pack 1 1 [0]));
      SubBulk [mkMsg 1 (make_pack 2 1 [0])]; SubDevice 0 (mkMsg 1 (make_pack 3 1 [0]))]
    (MakeDeviceWriter 1 (SetBusSyncMode 1 true (new_adapter [])).2).2) as (_ & H & _).
  - reflexivity.
  - exact H.
Defined.
