(* ===== verification/OperationGate.v ===== *)
(** * OperationGate: the class OperationGate of src/operation_gate.h

    One gate and any number of threads that enter, leave, retire and wait for the
    drain, at the granularity of the atomic accesses and of the mutex and
    condition variable.  [threads !! i] is what thread [i] is doing; a step is
    taken by one thread, chosen by the scheduler.  [Leave] is only called by a
    thread that has entered, and [WaitForDrain] only after [Retire], as the
    deletion paths of the driver manager do. *)
From stdpp Require Import base list numbers option relations.
From Stdlib Require Import ZArith Lia.
From S2P Require Import Prelude.
#[local] Open Scope Z_scope.
#[local] Open Scope cint_scope.

(** ** Counting threads *)

Fixpoint count_if {A} (f : A -> bool) (l : list A) : nat :=
  match l with [] => O | x :: r => ((if f x then 1 else 0) + count_if f r)%nat end.

Lemma count_if_insert {A} (f : A -> bool) l i x y :
  l !! i = Some x ->
  (count_if f (<[i := y]> l) + (if f x then 1 else 0) = count_if f l + (if f y then 1 else 0))%nat.
Proof.
  revert i. induction l as [|z l IH]; intros [|i] H; try done.
  - injection H as ->. cbn. destruct (f x), (f y); lia.
  - specialize (IH i H). change (<[S i := y]> (z :: l)) with (z :: <[i := y]> l).
    cbn [count_if]. destruct (f z); lia.
Qed.

Lemma count_if_pos {A} (f : A -> bool) l i x :
  l !! i = Some x -> f x = true -> (0 < count_if f l)%nat.
Proof.
  revert i. induction l as [|z l IH]; intros [|i] H Hf; try done; cbn in *.
  - injection H as ->. rewrite Hf. lia.
  - specialize (IH i H Hf). lia.
Qed.

Lemma count_if_le {A} (f : A -> bool) l : (count_if f l <= length l)%nat.
Proof. induction l as [|z l IH]; cbn; [lia|]. destruct (f z); lia. Qed.

Module Gate.

Definition kRetiring : Z := 2147483648.
Definition kActiveMask : Z := kRetiring - 1.

Inductive Thread :=
  | Idle
  | Loaded (state : Z)  (* in [TryEnter], about to test and compare-and-exchange *)
  | Inside              (* [TryEnter] has returned [true] *)
  | Notify              (* in [Leave], about to lock [wait_mutex_] *)
  | Notifying           (* in [Leave], holding [wait_mutex_], about to notify *)
  | DrainLock           (* in [WaitForDrain], about to lock [wait_mutex_] *)
  | DrainCheck          (* holding it, about to evaluate the predicate *)
  | DrainWait           (* holding it, the predicate was false *)
  | Blocked             (* waiting on [drained_], the mutex released *)
  | Drained             (* [WaitForDrain] has returned *)
  | Terminated.         (* [std::terminate] *)

Record State := mkState {
  state_ : Z;               (* uint32_t *)
  wait_mutex_ : option nat; (* the owner *)
  threads : list Thread
}.
Definition initial (n : nat) : State := mkState 0 None (replicate n Idle).

Definition at_thread (i : nat) (t : Thread) (st : State) : State :=
  mkState (state_ st) (wait_mutex_ st) (<[i := t]> (threads st)).

(** [TryEnter]'s loop body after a load: refuse, or try the exchange. *)
Definition refuses (state : Z) : bool :=
  negb (state .& kRetiring =? 0) || (state .& kActiveMask =? kActiveMask).

(** [Leave] after the [fetch_sub] returned [previous]. *)
Definition after_leave (previous : Z) : Thread :=
  if previous .& kActiveMask =? 0 then Terminated
  else if negb (previous .& kRetiring =? 0) && (previous .& kActiveMask =? 1) then Notify
  else Idle.

Definition wake (t : Thread) : Thread := match t with Blocked => DrainLock | _ => t end.

(** What thread [i] may do next. *)
Inductive Action :=
  | ALoad | AExchange | AExchangeFails | ALeave | ARetire | AWaitForDrain | AStep | AWake.

Definition act (i : nat) (a : Action) (st : State) : option State :=
  match a, threads st !! i with
  (* TryEnter *)
  | ALoad, Some Idle => Some (at_thread i (Loaded (state_ st)) st)
  | AExchange, Some (Loaded s) =>
      if refuses s then Some (at_thread i Idle st)
      else if state_ st =? s then
        Some (mkState (u32 (s + 1)) (wait_mutex_ st) (<[i := Inside]> (threads st)))
      else Some (at_thread i (Loaded (state_ st)) st)
  | AExchangeFails, Some (Loaded s) =>
      if refuses s then None else Some (at_thread i (Loaded (state_ st)) st)
  (* Leave *)
  | ALeave, Some Inside =>
      Some (mkState (u32 (state_ st - 1)) (wait_mutex_ st) (<[i := after_leave (state_ st)]> (threads st)))
  | AStep, Some Notify =>
      match wait_mutex_ st with
      | None => Some (mkState (state_ st) (Some i) (<[i := Notifying]> (threads st)))
      | Some _ => None
      end
  | AStep, Some Notifying =>
      Some (mkState (state_ st) None (map wake (<[i := Idle]> (threads st))))
  (* Retire *)
  | ARetire, Some Idle =>
      Some (mkState (state_ st .| kRetiring) (wait_mutex_ st) (threads st))
  (* WaitForDrain, called after Retire *)
  | AWaitForDrain, Some Idle =>
      if state_ st .& kRetiring =? 0 then None else Some (at_thread i DrainLock st)
  | AStep, Some DrainLock =>
      match wait_mutex_ st with
      | None => Some (mkState (state_ st) (Some i) (<[i := DrainCheck]> (threads st)))
      | Some _ => None
      end
  | AStep, Some DrainCheck =>
      if state_ st .& kActiveMask =? 0
      then Some (mkState (state_ st) None (<[i := Drained]> (threads st)))
      else Some (at_thread i DrainWait st)
  | AStep, Some DrainWait =>
      Some (mkState (state_ st) None (<[i := Blocked]> (threads st)))
  | AWake, Some Blocked => Some (at_thread i DrainLock st)   (* spurious *)
  | _, _ => None
  end.

Definition step (st st' : State) : Prop := exists i a, act i a st = Some st'.
Definition reachable (n : nat) (st : State) : Prop := rtc step (initial n) st.

Definition run (schedule : list (nat * Action)) (st : State) : State :=
  fold_left (fun st '(i, a) => default st (act i a st)) schedule st.

Lemma gate_run_reachable n schedule st : reachable n st -> reachable n (run schedule st).
Proof.
  revert st. induction schedule as [|[i a] sch IH]; intros st Hr; [done|]. cbn. apply IH.
  destruct (act i a st) as [st'|] eqn:E; [|done]. eapply rtc_r; [exact Hr|]. by exists i, a.
Qed.

(** ** The invariant *)

Definition inside (t : Thread) : bool := match t with Inside => true | _ => false end.
Definition notifier (t : Thread) : bool := match t with Notify | Notifying => true | _ => false end.
Definition draining (t : Thread) : bool :=
  match t with DrainLock | DrainCheck | DrainWait | Blocked | Drained => true | _ => false end.
Definition holds_mutex (t : Thread) : bool :=
  match t with Notifying | DrainCheck | DrainWait => true | _ => false end.
Definition waits (t : Thread) : bool := match t with DrainWait | Blocked => true | _ => false end.
Definition active (st : State) : nat := count_if inside (threads st).

Record Inv (retired : bool) (st : State) : Prop := {
  inv_word : state_ st = Z.of_nat (active st) + (if retired then kRetiring else 0);
  inv_active : Z.of_nat (active st) <= kActiveMask;
  inv_mutex : forall i t, threads st !! i = Some t -> holds_mutex t = true -> wait_mutex_ st = Some i;
  inv_owner : forall i, wait_mutex_ st = Some i ->
    exists t, threads st !! i = Some t /\ holds_mutex t = true;
  inv_draining : forall i t, threads st !! i = Some t -> draining t = true -> retired = true;
  inv_drained : forall i, threads st !! i = Some Drained -> active st = 0%nat;
  inv_wakeup : forall i t, threads st !! i = Some t -> waits t = true ->
    (0 < active st)%nat \/ exists j t', threads st !! j = Some t' /\ notifier t' = true;
  inv_alive : forall i, threads st !! i <> Some Terminated
}.

Lemma bits_of_word (a : Z) (retired : bool) :
  0 <= a <= kActiveMask ->
  let w := a + (if retired then kRetiring else 0) in
  w .& kActiveMask = a /\ (w .& kRetiring =? 0) = negb retired /\
  w .| kRetiring = a + kRetiring /\ 0 <= w < 4294967296.
Proof.
  intros Ha w. unfold kActiveMask, kRetiring in *. change (2147483648 - 1) with (Z.ones 31).
  assert (Hr : forall b : bool, Z.testbit (if b then 2147483648 else 0) 31 = b) by (intros []; reflexivity).
  assert (Hhi : Z.testbit a 31 = false).
  { rewrite <- (Z.mod_small a (2 ^ 31)) by lia. apply Z.mod_pow2_bits_high. lia. }
  assert (Hor : w = (if retired then 2147483648 else 0) .| a).
  { subst w. destruct retired; [|by rewrite Z.lor_0_l, Z.add_0_r].
    rewrite (lor_high_add 2147483648 a 31) by (done || lia). lia. }
  assert (Ht : Z.testbit w 31 = retired) by (rewrite Hor, Z.lor_spec, Hr, Hhi; by destruct retired).
  split; [|split; [|split]].
  - rewrite Z.land_ones by lia. subst w. destruct retired; [|rewrite Z.add_0_r; apply Z.mod_small; lia].
    replace (a + 2147483648) with (a + 1 * 2 ^ 31) by lia. rewrite Z.mod_add by lia. apply Z.mod_small. lia.
  - change 2147483648 with (1 ≪ 31). destruct (w .& (1 ≪ 31) =? 0) eqn:E.
    + apply Z.eqb_eq in E. assert (Z.testbit (w .& (1 ≪ 31)) 31 = retired) as Hl
        by (rewrite Z.land_spec, Ht; cbn; by rewrite andb_true_r).
      rewrite E, Z.testbit_0_l in Hl. by destruct retired.
    + destruct retired; [done|]. exfalso. apply Z.eqb_neq in E. apply E. apply Z.bits_inj'.
      intros k Hk. rewrite Z.land_spec, Z.testbit_0_l. destruct (decide (k = 31)) as [->|Hne]; [by rewrite Ht|].
      replace (Z.testbit (1 ≪ 31) k) with false; [apply andb_false_r|]. symmetry.
      change (1 ≪ 31) with (2 ^ 31). by apply Z.pow2_bits_false.
  - rewrite Hor. rewrite <- Z.lor_assoc, (Z.lor_comm a), Z.lor_assoc.
    replace ((if retired then 2147483648 else 0) .| 2147483648) with 2147483648 by (by destruct retired).
    rewrite (lor_high_add 2147483648 a 31) by (done || lia). lia.
  - subst w. destruct retired; lia.
Qed.

Lemma active_insert i t t' st :
  threads st !! i = Some t ->
  (count_if inside (<[i := t']> (threads st)) + (if inside t then 1 else 0) =
   active st + (if inside t' then 1 else 0))%nat.
Proof. apply count_if_insert. Qed.

Lemma insert_cases {A} (l : list A) i j x y :
  <[i := x]> l !! j = Some y -> (j = i /\ y = x) \/ (j <> i /\ l !! j = Some y).
Proof.
  intros H. destruct (decide (i = j)) as [->|Hne].
  - left. assert (j < length l)%nat as Hl.
    { apply lookup_lt_Some in H. by rewrite length_insert in H. }
    rewrite list_lookup_insert_eq in H by done. by injection H as ->.
  - right. by rewrite list_lookup_insert_ne in H.
Qed.

(** A step of thread [i] that neither enters nor leaves. *)
Lemma gate_inv_move retired i t t' mutex' st :
  threads st !! i = Some t -> inside t = false -> inside t' = false -> Inv retired st ->
  (forall j u, j <> i -> threads st !! j = Some u -> holds_mutex u = true -> mutex' = Some j) ->
  (holds_mutex t' = true -> mutex' = Some i) ->
  (forall j, mutex' = Some j -> if decide (j = i) then holds_mutex t' = true else wait_mutex_ st = Some j) ->
  (draining t' = true -> retired = true) ->
  (t' = Drained -> active st = 0%nat) ->
  (waits t' = true -> waits t = true \/ (0 < active st)%nat) ->
  (notifier t = true -> notifier t' = true) ->
  t' <> Terminated ->
  Inv retired (mkState (state_ st) mutex' (<[i := t']> (threads st))).
Proof.
  intros Hi Ht Ht' [I1 I2 I3 I3' I4 I5 I6 I7] Hm Hm' Ho Hd Hdr Hw Hn Hterm.
  assert (active (mkState (state_ st) mutex' (<[i := t']> (threads st))) = active st) as Ea.
  { pose proof (active_insert i t t' st Hi) as E. rewrite Ht, Ht' in E. unfold active at 1. cbn. lia. }
  assert (Hnot : (exists j u, threads st !! j = Some u /\ notifier u = true) ->
    exists j u, <[i := t']> (threads st) !! j = Some u /\ notifier u = true).
  { intros (j & u & Hj & Hu). destruct (decide (j = i)) as [->|Hne].
    - exists i, t'. split; [|apply Hn; congruence].
      apply list_lookup_insert_eq. by apply lookup_lt_Some in Hi.
    - exists j, u. by rewrite list_lookup_insert_ne. }
  constructor; rewrite ?Ea; cbn [state_ wait_mutex_ threads]; [done|done|..].
  - intros j u [[-> ->]|[Hne Hj]]%insert_cases Hu; [by apply Hm'|by apply (Hm j u)].
  - intros j Hj. specialize (Ho j Hj). destruct (decide (j = i)) as [->|Hne].
    + exists t'. split; [|done]. apply list_lookup_insert_eq. by apply lookup_lt_Some in Hi.
    + destruct (I3' j Ho) as (u & Hu & Hh). exists u. by rewrite list_lookup_insert_ne.
  - intros j u [[-> ->]|[Hne Hj]]%insert_cases Hu; [by apply Hd|by apply (I4 j u)].
  - intros j [[-> E]|[Hne Hj]]%insert_cases; [by apply Hdr|by apply (I5 j)].
  - intros j u [[-> ->]|[Hne Hj]]%insert_cases Hu.
    + destruct (Hw Hu) as [Hwt|?]; [|by left].
      destruct (I6 i t Hi Hwt) as [?|?]; [by left|right; by apply Hnot].
    + destruct (I6 j u Hj Hu) as [?|?]; [by left|right; by apply Hnot].
  - intros j [[-> E]|[Hne Hj]]%insert_cases; [done|by apply (I7 j)].
Qed.

(** No other thread holds the mutex that [i] holds, or that nobody holds. *)
Lemma mutex_free retired st i j u :
  Inv retired st -> wait_mutex_ st = None \/ wait_mutex_ st = Some i -> j <> i ->
  threads st !! j = Some u -> holds_mutex u = true -> False.
Proof.
  intros HI Hm Hne Hj Hu. pose proof (inv_mutex _ _ HI j u Hj Hu) as E.
  rewrite E in Hm. destruct Hm; congruence.
Qed.

Lemma inv_enter retired i s st :
  threads st !! i = Some (Loaded s) -> refuses s = false -> state_ st = s -> Inv retired st ->
  Inv retired (mkState (u32 (s + 1)) (wait_mutex_ st) (<[i := Inside]> (threads st))).
Proof.
  intros Hi Hr <- HI. pose proof HI as [I1 I2 I3 I3' I4 I5 I6 I7].
  pose proof (bits_of_word (Z.of_nat (active st)) retired ltac:(lia)) as (B1 & B2 & _ & B4).
  rewrite <- I1 in B1, B2, B4. unfold refuses in Hr. rewrite B1, B2, negb_involutive in Hr.
  apply orb_false_iff in Hr as [-> Hlt%Z.eqb_neq].
  pose proof (active_insert i _ Inside st Hi) as E. cbn in E.
  set (st' := mkState _ _ _). assert (active st' = S (active st)) as Ea by (unfold active at 1; subst st'; cbn [threads]; lia).
  constructor; rewrite ?Ea; subst st'; cbn [state_ wait_mutex_ threads].
  - rewrite I1. unfold u32. unfold kActiveMask, kRetiring in *. rewrite Z.mod_small by lia. lia.
  - lia.
  - intros j u [[-> ->]|[Hne Hj]]%insert_cases Hu; [done|by apply (I3 j u)].
  - intros j Hj. destruct (I3' j Hj) as (u & Hu & Hh). exists u. rewrite list_lookup_insert_ne; [done|].
    intros ->. rewrite Hi in Hu. by injection Hu as <-.
  - intros j u [[-> ->]|[Hne Hj]]%insert_cases Hu; [done|by apply (I4 j u)].
  - intros j [[-> E']|[Hne Hj]]%insert_cases; [done|]. by specialize (I4 j Drained Hj eq_refl).
  - intros j u _ _. left. lia.
  - intros j [[-> E']|[Hne Hj]]%insert_cases; [done|by apply (I7 j)].
Qed.

Lemma inv_leave retired i st :
  threads st !! i = Some Inside -> Inv retired st ->
  Inv retired (mkState (u32 (state_ st - 1)) (wait_mutex_ st) (<[i := after_leave (state_ st)]> (threads st))).
Proof.
  intros Hi HI. pose proof HI as [I1 I2 I3 I3' I4 I5 I6 I7].
  pose proof (bits_of_word (Z.of_nat (active st)) retired ltac:(lia)) as (B1 & B2 & _ & B4).
  rewrite <- I1 in B1, B2, B4. pose proof (count_if_pos inside _ _ _ Hi eq_refl) as Hpos. fold (active st) in Hpos.
  unfold after_leave. rewrite B1, B2, negb_involutive. rewrite (proj2 (Z.eqb_neq _ 0)) by lia.
  set (t' := if retired && _ then Notify else Idle).
  assert (t' = Notify \/ t' = Idle) as Ht' by (subst t'; destruct (retired && _); auto).
  pose proof (active_insert i _ t' st Hi) as E.
  assert (inside t' = false) as Hin by (by destruct Ht' as [-> | ->]). rewrite Hin in E. cbn in E.
  set (st' := mkState _ _ _). assert (active st' = (active st - 1)%nat) as Ea by (unfold active at 1; subst st'; cbn [threads]; lia).
  constructor; rewrite ?Ea; subst st'; cbn [state_ wait_mutex_ threads].
  - rewrite I1. unfold u32, kActiveMask, kRetiring in *.
    rewrite Z.mod_small by (destruct retired; lia). lia.
  - lia.
  - intros j u [[-> ->]|[Hne Hj]]%insert_cases Hu; [by destruct Ht' as [E'|E']; rewrite E' in Hu|by apply (I3 j u)].
  - intros j Hj. destruct (I3' j Hj) as (u & Hu & Hh). exists u. rewrite list_lookup_insert_ne; [done|].
    intros ->. rewrite Hi in Hu. by injection Hu as <-.
  - intros j u [[-> ->]|[Hne Hj]]%insert_cases Hu; [by destruct Ht' as [E'|E']; rewrite E' in Hu|by apply (I4 j u)].
  - intros j [[-> E']|[Hne Hj]]%insert_cases; [by destruct Ht' as [E''|E'']; rewrite E'' in E'|].
    specialize (I5 j Hj). lia.
  - intros j u [[-> ->]|[Hne Hj]]%insert_cases Hu; [by destruct Ht' as [E'|E']; rewrite E' in Hu|].
    destruct (decide (active st = 1%nat)) as [E1|]; [right|left; lia].
    exists i, t'. split; [apply list_lookup_insert_eq; by apply lookup_lt_Some in Hi|].
    subst t'. assert (retired = true) as -> by (apply (I4 j u Hj); by destruct u).
    by rewrite E1.
  - intros j [[-> E']|[Hne Hj]]%insert_cases; [by destruct Ht' as [E''|E'']; rewrite E'' in E'|by apply (I7 j)].
Qed.

Lemma inv_notify retired i st :
  threads st !! i = Some Notifying -> Inv retired st ->
  Inv retired (mkState (state_ st) None (map wake (<[i := Idle]> (threads st)))).
Proof.
  intros Hi HI. pose proof HI as [I1 I2 I3 I3' I4 I5 I6 I7].
  pose proof (I3 i _ Hi eq_refl) as Hown.
  assert (Hlook : forall j u, map wake (<[i := Idle]> (threads st)) !! j = Some u ->
    (j = i /\ u = Idle) \/ (j <> i /\ exists v, threads st !! j = Some v /\ u = wake v)).
  { intros j u Hj. change (map wake) with (fmap wake : list Thread -> list Thread) in Hj.
    rewrite list_lookup_fmap in Hj. destruct (<[i := Idle]> (threads st) !! j) as [v|] eqn:E; [|done].
    cbn in Hj. injection Hj as <-. apply insert_cases in E as [[-> ->]|[Hne E]]; [by left|right].
    split; [done|]. by exists v. }
  assert (active (mkState (state_ st) None (map wake (<[i := Idle]> (threads st)))) = active st) as Ea.
  { pose proof (active_insert i _ Idle st Hi) as E. cbn in E. unfold active at 1. cbn [threads].
    rewrite <- (Nat.add_0_r (active st)), <- E, Nat.add_0_r.
    generalize (<[i := Idle]> (threads st)). intros l. induction l as [|u l IH]; [done|].
    cbn. rewrite IH. by destruct u. }
  constructor; rewrite ?Ea; cbn [state_ wait_mutex_ threads]; [done|done|..].
  - intros j u [[-> ->]|(Hne & v & Hj & ->)]%Hlook Hu; [done|].
    exfalso. apply (mutex_free retired st i j v); [done|by right|done|done|by destruct v].
  - done.
  - intros j u [[-> ->]|(Hne & v & Hj & ->)]%Hlook Hu; [done|]. apply (I4 j v Hj). by destruct v.
  - intros j [[-> E]|(Hne & v & Hj & E)]%Hlook; [done|]. apply (I5 j). by destruct v.
  - intros j u [[-> ->]|(Hne & v & Hj & ->)]%Hlook Hu; [done|]. destruct v; try done.
    exfalso. by apply (mutex_free retired st i j DrainWait); [|right|..].
  - intros j [[-> E]|(Hne & v & Hj & E)]%Hlook; [done|]. apply (I7 j). by destruct v.
Qed.

Lemma inv_retire retired st :
  Inv retired st -> Inv true (mkState (state_ st .| kRetiring) (wait_mutex_ st) (threads st)).
Proof.
  intros HI. pose proof HI as [I1 I2 I3 I3' I4 I5 I6 I7].
  pose proof (bits_of_word (Z.of_nat (active st)) retired ltac:(lia)) as (_ & _ & B3 & _).
  constructor; cbn [state_ wait_mutex_ threads]; try done. by rewrite I1, B3.
Qed.

Lemma not_owner retired st i t j :
  Inv retired st -> threads st !! i = Some t -> holds_mutex t = false ->
  wait_mutex_ st = Some j -> j <> i.
Proof.
  intros HI Hi Ht Hj ->. destruct (inv_owner _ _ HI i Hj) as (u & Hu & Hh). congruence.
Qed.

Ltac move_thread HI :=
  eapply gate_inv_move; [eassumption|done|done|exact HI|..]; try done;
  try (intros j Hj; case_decide; [|congruence];
       first [done | exfalso; by eapply (not_owner _ _ _ _ _ HI) | congruence]).

Lemma act_inv retired i a st st' :
  act i a st = Some st' -> Inv retired st -> exists retired', Inv retired' st'.
Proof.
  intros H HI. pose proof HI as [I1 I2 I3 I3' I4 I5 I6 I7]. unfold act in H.
  pose proof (bits_of_word (Z.of_nat (active st)) retired ltac:(lia)) as (B1 & B2 & _ & _).
  rewrite <- I1 in B1, B2.
  assert (Hkeep : forall j u, j <> i -> threads st !! j = Some u -> holds_mutex u = true ->
    wait_mutex_ st = Some j) by (intros j u _; apply I3).
  assert (Hfree : forall m, wait_mutex_ st = None \/ wait_mutex_ st = Some i ->
    forall j u, j <> i -> threads st !! j = Some u -> holds_mutex u = true -> m = Some j).
  { intros m Hm j u Hne Hj Hu. exfalso. by eapply mutex_free. }
  destruct a; destruct (threads st !! i) as [[|s| | | | | | | | |]|] eqn:Hi; try discriminate H.
  - injection H as <-. exists retired. by move_thread HI.
  - destruct (refuses s) eqn:Er; [injection H as <-; exists retired; by move_thread HI|].
    destruct (Z.eqb_spec (state_ st) s) as [E|E]; injection H as <-; exists retired.
    + by apply inv_enter.
    + by move_thread HI.
  - destruct (refuses s); [done|]. injection H as <-. exists retired. by move_thread HI.
  - injection H as <-. exists retired. by apply inv_leave.
  - injection H as <-. exists true. by eapply inv_retire.
  - rewrite B2 in H. destruct retired; [|done]. injection H as <-. exists true. by move_thread HI.
  - destruct (wait_mutex_ st) eqn:Em; [done|]. injection H as <-. exists retired. move_thread HI.
    by apply Hfree; left.
  - injection H as <-. exists retired. by apply inv_notify.
  - destruct (wait_mutex_ st) eqn:Em; [done|]. injection H as <-. exists retired. move_thread HI.
    + by apply Hfree; left.
    + intros _. by apply (I4 i DrainLock).
  - pose proof (I3 i _ Hi eq_refl) as Hown. rewrite B1 in H.
    destruct (Z.eqb_spec (Z.of_nat (active st)) 0); injection H as <-; exists retired; move_thread HI.
    + by apply Hfree; right.
    + intros _. by apply (I4 i DrainCheck).
    + intros _. lia.
    + intros _. by apply (I4 i DrainCheck).
    + intros _. right. lia.
  - pose proof (I3 i _ Hi eq_refl) as Hown. injection H as <-. exists retired. move_thread HI.
    + by apply Hfree; right.
    + intros _. by apply (I4 i DrainWait).
    + intros _. by left.
  - injection H as <-. exists retired. move_thread HI. intros _. by apply (I4 i Blocked).
Qed.

Lemma gate_reachable_inv n st : reachable n st -> exists retired, Inv retired st.
Proof.
  intros Hr. apply rtc_ind_r with (P := fun st => exists retired, Inv retired st) in Hr; [done|..].
  - exists false. assert (forall i t, replicate n Idle !! i = Some t -> t = Idle) as Hidle
      by (intros i t [-> _]%lookup_replicate; done).
    assert (active (initial n) = 0%nat) as Ea by (unfold active, initial; cbn [threads]; clear; induction n as [|n IH]; [done|exact IH]).
    constructor; rewrite ?Ea; cbn [state_ wait_mutex_ threads initial]; try (by intros i t ->%Hidle).
    + done.
    + unfold kActiveMask, kRetiring. lia.
    + done.
    + intros i E. by apply Hidle in E.
    + intros i E. by apply Hidle in E.
  - intros y z _ (i & a & Ha) [r Hy]. by eapply act_inv.
Qed.

(** ** Draining *)

(** Threads that only finish what they have begun in [Leave] and in [WaitForDrain]. *)
Definition finish (st st' : State) : Prop := exists i, act i AStep st = Some st'.

Definition rank (t : Thread) : nat :=
  match t with
  | Notifying | DrainCheck => 1 | Notify | DrainLock => 2 | Blocked => 3 | DrainWait => 4
  | _ => 0
  end.
Fixpoint ranks (l : list Thread) : nat := match l with [] => O | t :: r => (rank t + ranks r)%nat end.

Lemma ranks_insert l i x y :
  l !! i = Some x -> (ranks (<[i := y]> l) + rank x = ranks l + rank y)%nat.
Proof.
  revert i. induction l as [|z l IH]; intros [|i] H; try done.
  - injection H as ->. cbn [list_insert insert ranks]. change (<[0%nat := y]> (x :: l)) with (y :: l).
    cbn [ranks]. lia.
  - specialize (IH i H). change (<[S i := y]> (z :: l)) with (z :: <[i := y]> l). cbn [ranks]. lia.
Qed.

Lemma ranks_wake l : (ranks (map wake l) <= ranks l)%nat.
Proof. induction l as [|t l IH]; [done|]. cbn [map ranks]. destruct t; cbn [wake rank]; lia. Qed.

Lemma active_wake l : count_if inside (map wake l) = count_if inside l.
Proof. induction l as [|t l IH]; [done|]. cbn [map count_if]. rewrite IH. by destruct t. Qed.

(** With no operation inside, every such step comes closer to the end and lets none in. *)
Lemma finish_decreases retired i st st' :
  Inv retired st -> active st = 0%nat -> act i AStep st = Some st' ->
  (ranks (threads st') < ranks (threads st))%nat /\ active st' = 0%nat.
Proof.
  intros HI Ha H. pose proof (bits_of_word (Z.of_nat (active st)) retired) as B.
  rewrite Ha in B. destruct B as (B1 & _); [unfold kActiveMask, kRetiring; lia|].
  rewrite <- Ha, <- (inv_word _ _ HI), Ha in B1.
  unfold act in H. destruct (threads st !! i) as [t|] eqn:Hi; [|done].
  pose proof (fun u => ranks_insert _ i t u Hi) as R. pose proof (fun u => active_insert i t u st Hi) as A.
  destruct t; try discriminate H.
  - destruct (wait_mutex_ st); [done|]. injection H as <-. cbn [threads]. unfold active at 1. cbn [threads].
    specialize (R Notifying). specialize (A Notifying). cbn in R, A. lia.
  - injection H as <-. cbn [threads]. unfold active at 1. cbn [threads]. rewrite active_wake.
    specialize (R Idle). specialize (A Idle). cbn in R, A.
    pose proof (ranks_wake (<[i := Idle]> (threads st))). lia.
  - destruct (wait_mutex_ st); [done|]. injection H as <-. cbn [threads]. unfold active at 1. cbn [threads].
    specialize (R DrainCheck). specialize (A DrainCheck). cbn in R, A. lia.
  - rewrite B1 in H. injection H as <-. cbn [threads]. unfold active at 1. cbn [threads].
    specialize (R Drained). specialize (A Drained). cbn in R, A. lia.
  - injection H as <-. cbn [threads]. unfold active at 1. cbn [threads].
    specialize (R Blocked). specialize (A Blocked). cbn in R, A. lia.
Qed.

Lemma holder_steps i t st :
  threads st !! i = Some t -> holds_mutex t = true -> exists st', act i AStep st = Some st'.
Proof.
  intros Hi Ht. unfold act. rewrite Hi. destruct t; try done; try by eexists.
  destruct (_ =? 0); by eexists.
Qed.

(** Some thread can go on as long as a waiter is not done. *)
Lemma finish_progress retired i t st :
  Inv retired st -> active st = 0%nat -> threads st !! i = Some t -> draining t = true ->
  t = Drained \/ exists st', finish st st'.
Proof.
  intros HI Ha Hi Ht.
  assert (Hlock : forall k u, threads st !! k = Some u -> u = Notify \/ u = DrainLock -> exists st', finish st st').
  { intros k u Hk Hu. destruct (wait_mutex_ st) as [o|] eqn:Em.
    - destruct (inv_owner _ _ HI o Em) as (v & Ho & Hv).
      destruct (holder_steps o v st Ho Hv) as [st' ?]. by exists st', o.
    - destruct Hu as [-> | ->]; eexists _, k; unfold act; by rewrite Hk, Em. }
  destruct t; try done; [right..|by left].
  - by eapply Hlock; [|right].
  - destruct (holder_steps i _ st Hi eq_refl) as [st' ?]. by exists st', i.
  - destruct (holder_steps i _ st Hi eq_refl) as [st' ?]. by exists st', i.
  - destruct (inv_wakeup _ _ HI i _ Hi eq_refl) as [?|(j & u & Hj & Hu)]; [lia|].
    destruct u; try done; [by eapply Hlock; [|left]|].
    destruct (holder_steps j _ st Hj eq_refl) as [st' ?]. by exists st', j.
Qed.

Lemma finish_all retired st :
  Inv retired st -> active st = 0%nat ->
  exists st', rtc finish st st' /\ active st' = 0%nat /\
    forall t, t ∈ threads st' -> draining t = true -> t = Drained.
Proof.
  remember (ranks (threads st)) as k eqn:Ek. revert retired st Ek.
  induction (lt_wf k) as [k _ IH]. intros retired st -> HI Ha.
  destruct (decide (Exists (fun t => draining t = true /\ rank t <> 0%nat) (threads st))) as [He|He].
  - apply Exists_exists in He as (t & [i Hi]%list_elem_of_lookup & Ht & Hk).
    destruct (finish_progress _ i t st HI Ha Hi Ht) as [-> |[st' [j Hj]]]; [done|].
    destruct (finish_decreases retired j st st' HI Ha Hj) as [Hlt Ha'].
    destruct (act_inv retired j AStep st st' Hj HI) as [r' HI'].
    destruct (IH _ Hlt r' st' eq_refl HI' Ha') as (st2 & Hrtc & Hst2).
    exists st2. split; [|done]. eapply rtc_l; [by exists j|done].
  - exists st. split; [apply rtc_refl|]. split; [done|]. intros t Ht Hd.
    destruct (decide (rank t = 0%nat)) as [E|E]; [by destruct t|].
    exfalso. apply He, Exists_exists. by exists t.
Qed.

Lemma drained_stays st st' i :
  rtc step st st' -> threads st !! i = Some Drained -> threads st' !! i = Some Drained.
Proof.
  induction 1 as [|st st1 st2 (j & a & Hact) _ IH]; [done|]. intros Hi. apply IH.
  assert (Hins : forall t, t <> Drained -> threads st !! j = Some t ->
    forall u, <[j := u]> (threads st) !! i = Some Drained).
  { intros t Hne Hj u. rewrite list_lookup_insert_ne; [done|congruence]. }
  unfold act in Hact. destruct a; destruct (threads st !! j) as [[|s| | | | | | | | |]|] eqn:Hj;
    try discriminate Hact; match type of Hj with _ = Some ?t => specialize (Hins t ltac:(done) eq_refl) end;
    repeat (case_match; try discriminate Hact); injection Hact as <-; cbn [threads at_thread]; try done;
    try by apply Hins.
  change (map wake) with (fmap wake : list Thread -> list Thread). by rewrite list_lookup_fmap, Hins.
Qed.

(** ** What the gate promises *)

(** C16: for any number of threads and any interleaving of their atomic accesses,
    lock acquisitions and (possibly spurious) wake-ups: the state word is the
    number of operations that have entered and not left, plus the retiring bit;
    the count never reaches the bit and [Leave] never terminates; once a
    [WaitForDrain] has returned, no operation is inside in any later state; and
    once the last operation has left, the wake-up is not lost: the threads can
    run to a state where every [WaitForDrain] has returned, and as long as one
    has not, some thread can take the next step of its [Leave] or [WaitForDrain]. *)
Theorem gate_drain n st :
  reachable n st ->
  (exists retired : bool,
     state_ st = Z.of_nat (active st) + (if retired then kRetiring else 0)) /\
  Z.of_nat (active st) <= kActiveMask /\
  ~ (Terminated ∈ threads st) /\
  (Drained ∈ threads st -> forall st', rtc step st st' -> active st' = 0%nat) /\
  (active st = 0%nat ->
     ((exists t, t ∈ threads st /\ draining t = true /\ t <> Drained) -> exists st', finish st st') /\
     (forall st', finish st st' -> (ranks (threads st') < ranks (threads st))%nat) /\
     exists st', rtc finish st st' /\ active st' = 0%nat /\
       forall t, t ∈ threads st' -> draining t = true -> t = Drained).
Proof.
  intros Hr. destruct (gate_reachable_inv n st Hr) as [retired HI]. pose proof HI as [I1 I2 _ _ _ _ _ I7].
  split; [by exists retired|]. split; [done|]. split; [|split; [|intros Ha; split; [|split]]].
  - intros [i Hi]%list_elem_of_lookup. by apply (I7 i).
  - intros [i Hi]%list_elem_of_lookup st' Hst'.
    assert (reachable n st') as [r' HI']%gate_reachable_inv by (unfold reachable in *; by etrans).
    apply (inv_drained _ _ HI' i). by apply (drained_stays st).
  - intros (t & [i Hi]%list_elem_of_lookup & Ht & Hne). by destruct (finish_progress _ i t st HI Ha Hi Ht).
  - intros st' [i Hi]. by apply (finish_decreases retired i st).
  - by apply (finish_all retired).
Qed.

(** Two threads enter; the gate is retired; a waiter blocks; they leave; the
    last one wakes it up. *)
Definition drain_schedule : list (nat * Action) :=
  [(0, ALoad); (1, ALoad); (0, AExchange); (1, AExchange); (1, AExchange); (2, ARetire);
   (2, AWaitForDrain); (2, AStep); (2, AStep); (2, AStep); (0, ALeave); (1, ALeave);
   (1, AStep); (1, AStep); (2, AStep); (2, AStep)]%nat.

Example drain_schedule_drains :
  run drain_schedule (initial 3) = mkState kRetiring None [Idle; Idle; Drained].
Proof. reflexivity. Qed.

(** A [WaitForDrain] may return between the [fetch_sub] of the last [Leave] and
    the moment it locks [wait_mutex_]: the gate is then idle for the deletion
    path while a thread is still about to use its mutex. *)
Example drained_before_notify :
  exists st, reachable 2 st /\ threads st !! 0%nat = Some Drained /\ threads st !! 1%nat = Some Notify.
Proof.
  exists (run [(1, ALoad); (1, AExchange); (0, ARetire); (1, ALeave); (0, AWaitForDrain);
               (0, AStep); (0, AStep)]%nat (initial 2)).
  split; [|done]. apply gate_run_reachable. apply rtc_refl.
Qed.

Lemma gate_drain_witness :
  reachable 3 (run drain_schedule (initial 3)) /\
  (exists retired : bool,
     state_ (run drain_schedule (initial 3)) =
     Z.of_nat (active (run drain_schedule (initial 3))) + (if retired then kRetiring else 0)).
Proof.
  assert (reachable 3 (run drain_schedule (initial 3))) as Hr
    by (apply gate_run_reachable; apply rtc_refl).
  split; [exact Hr|]. exact (proj1 (gate_drain 3 _ Hr)).
Defined.

End Gate.
