(* ===== verification/Registry.v ===== *)
(** * Registry: BasicOperationRegistry of src/operation_gate.h

    [Entry], [Snapshot], [build] and [Find] are the open-addressing table through
    which a thread finds the gate of an object.  The second half is the registry
    itself: reader threads that protect a snapshot with a hazard slot, find an
    entry and enter its gate, and one writer at a time (under [writer_mutex_])
    that registers, retires and reclaims entries and publishes new snapshots.
    Memory is explicit: snapshots and entries live in finite maps from addresses,
    deletion removes them, addresses may be reused, and touching a freed object
    raises [bad_access]. *)
From stdpp Require Import base list numbers option relations gmap.
From Stdlib Require Import ZArith Lia.
From S2P Require Import Prelude.
From S2P Require Import OperationGate.
#[local] Open Scope Z_scope.
#[local] Open Scope cint_scope.

Record Entry := mkEntry {
  object : Z;          (* the address of the managed object *)
  kind : Z;            (* OperationKind *)
  gate : Z;            (* the word of its [OperationGate] *)
  registered : bool;
  reclaimable : bool
}.
Definition new_entry (object kind : Z) : Entry := mkEntry object kind 0 true false.
Definition is_key (o k : Z) (en : Entry) : bool := (object en =? o) && (kind en =? k).

(** ** The snapshot table *)

Record Snapshot := mkSnapshot { slots : list (option nat); max_probe : nat }.

Definition Hash (o k : Z) : Z :=
  let value := o ≫ 4 in
  let value := Z.lxor value ((k * 2654435769) mod 2 ^ 64) in
  Z.lxor value (value ≫ 16).

Fixpoint GrowCapacity (fuel : nat) (active capacity : Z) : Z :=
  match fuel with
  | O => capacity
  | S fuel => if capacity <? active * 2 then GrowCapacity fuel active (capacity * 2) else capacity
  end.

Definition probe_index (capacity start : Z) (probe : nat) : nat :=
  Z.to_nat ((start + Z.of_nat probe) .& (capacity - 1)).
Definition home (capacity : Z) (en : Entry) : Z := Hash (object en) (kind en) .& (capacity - 1).

(** The probe loop of the constructor. *)
Fixpoint FreeProbe (fuel : nat) (slots : list (option nat)) (capacity start : Z) (probe : nat) : option nat :=
  match fuel with
  | O => None
  | S fuel =>
      match slots !! probe_index capacity start probe with
      | Some None => Some probe
      | _ => FreeProbe fuel slots capacity start (S probe)
      end
  end.

Section table.
Context (entries : gmap nat Entry).

Definition is_registered (e : nat) : bool :=
  match entries !! e with Some en => registered en | None => false end.

Definition place (capacity : Z) (sn : Snapshot) (e : nat) : Snapshot :=
  match entries !! e with
  | Some en =>
      if registered en then
        match FreeProbe (Z.to_nat capacity) (slots sn) capacity (home capacity en) 0 with
        | Some probe =>
            mkSnapshot (<[probe_index capacity (home capacity en) probe := Some e]> (slots sn))
                       (Nat.max (max_probe sn) probe)
        | None => sn
        end
      else sn
  | None => sn
  end.

Definition capacity_of (order : list nat) : Z :=
  let active := Z.of_nat (count_if is_registered order) in
  GrowCapacity (Z.to_nat active) active 8.

(** The constructor [Snapshot(entries)]. *)
Definition build (order : list nat) : Snapshot :=
  let capacity := capacity_of order in
  fold_left (place capacity) order (mkSnapshot (replicate (Z.to_nat capacity) None) 0).

(** [Find] reads [entry->object] and [entry->kind]: [BadAccess] when an entry it
    looks at has been freed. *)
Inductive Lookup := BadAccess | NotFound | Found (e : nat).

Fixpoint FindLoop (fuel : nat) (sn : Snapshot) (o k start : Z) (probe : nat) : Lookup :=
  match fuel with
  | O => NotFound
  | S fuel =>
      match slots sn !! probe_index (Z.of_nat (length (slots sn))) start probe with
      | Some (Some e) =>
          match entries !! e with
          | None => BadAccess
          | Some en => if is_key o k en then Found e else FindLoop fuel sn o k start (S probe)
          end
      | _ => NotFound
      end
  end.

Definition Find (sn : Snapshot) (o k : Z) : Lookup :=
  FindLoop (S (max_probe sn)) sn o k (Hash o k .& (Z.of_nat (length (slots sn)) - 1)) 0.

(** Reference: the registered entry with the key, by linear search. *)
Definition registered_key (o k : Z) (e : nat) : bool :=
  match entries !! e with Some en => registered en && is_key o k en | None => false end.
Definition Lookup_spec (order : list nat) (o k : Z) : Lookup :=
  match list_find (fun e => registered_key o k e = true) order with
  | Some (_, e) => Found e
  | None => NotFound
  end.

End table.

(** ** The table is exact *)

Lemma GrowCapacity_spec fuel active n :
  0 <= n -> active * 2 <= 2 ^ n * 2 ^ Z.of_nat fuel ->
  exists m, n <= m /\ GrowCapacity fuel active (2 ^ n) = 2 ^ m /\ active * 2 <= 2 ^ m.
Proof.
  revert n. induction fuel as [|fuel IH]; intros n Hn Ha.
  - exists n. cbn in Ha. rewrite Z.mul_1_r in Ha. split; [lia|done].
  - cbn [GrowCapacity]. destruct (Z.ltb_spec (2 ^ n) (active * 2)).
    + replace (2 ^ n * 2) with (2 ^ (n + 1)) by (rewrite Z.pow_add_r by lia; lia).
      destruct (IH (n + 1)) as (m & Hm & E & Hle); [lia| |exists m; split; [lia|done]].
      rewrite Nat2Z.inj_succ, Z.pow_succ_r in Ha by lia. rewrite Z.pow_add_r by lia. lia.
    + exists n. split; [lia|done].
Qed.

Lemma capacity_of_spec entries order :
  exists m, 3 <= m /\ capacity_of entries order = 2 ^ m /\
    Z.of_nat (count_if (is_registered entries) order) * 2 <= 2 ^ m.
Proof.
  unfold capacity_of. set (active := Z.of_nat _). change 8 with (2 ^ 3).
  apply GrowCapacity_spec; [lia|]. rewrite Z2Nat.id by lia.
  pose proof (Z.pow_gt_lin_r 2 active). lia.
Qed.

Section probing.
Context (entries : gmap nat Entry) (m : Z) (Hm : 3 <= m).
#[local] Abbreviation capacity := (2 ^ m).

Lemma probe_index_mod start probe :
  probe_index capacity start probe = Z.to_nat ((start + Z.of_nat probe) mod capacity).
Proof using Hm. unfold probe_index. rewrite Z.sub_1_r, <- Z.ones_equiv, Z.land_ones by lia. done. Qed.

Lemma probe_index_lt start probe : (probe_index capacity start probe < Z.to_nat capacity)%nat.
Proof using Hm.
  rewrite probe_index_mod. pose proof (Z.mod_pos_bound (start + Z.of_nat probe) capacity). lia.
Qed.

(** Every slot is probed. *)
Lemma probe_index_onto start i :
  (i < Z.to_nat capacity)%nat ->
  exists probe, (probe < Z.to_nat capacity)%nat /\ probe_index capacity start probe = i.
Proof using Hm.
  intros Hi. pose proof (Z.mod_pos_bound (Z.of_nat i - start) capacity ltac:(lia)) as Hb.
  exists (Z.to_nat ((Z.of_nat i - start) mod capacity)). split; [lia|].
  rewrite probe_index_mod, Z2Nat.id by lia. rewrite Zplus_mod_idemp_r.
  replace (start + (Z.of_nat i - start)) with (Z.of_nat i) by lia. rewrite Z.mod_small; lia.
Qed.

Definition occupied (slots : list (option nat)) (i : nat) : Prop := exists e, slots !! i = Some (Some e).

Lemma FreeProbe_spec fuel slots start probe q :
  length slots = Z.to_nat capacity ->
  (probe <= q < probe + fuel)%nat -> slots !! probe_index capacity start q = Some None ->
  exists p, FreeProbe fuel slots capacity start probe = Some p /\
    slots !! probe_index capacity start p = Some None /\
    forall r, (probe <= r < p)%nat -> occupied slots (probe_index capacity start r).
Proof using Hm.
  intros Hlen. revert probe. induction fuel as [|fuel IH]; intros probe Hq Hfree; [lia|].
  cbn [FreeProbe]. pose proof (probe_index_lt start probe) as Hlt. rewrite <- Hlen in Hlt.
  destruct (lookup_lt_is_Some_2 _ _ Hlt) as [[e|] E]; rewrite E.
  - destruct (decide (q = probe)) as [->|Hne]; [congruence|].
    destruct (IH (S probe)) as (p & Hp & Hfp & Hr); [lia|done|]. exists p. split; [done|]. split; [done|].
    intros r Hr'. destruct (decide (r = probe)) as [->|]; [by exists e|apply Hr; lia].
  - exists probe. split; [done|]. split; [done|]. intros r Hr. lia.
Qed.

Definition is_some (o : option nat) : bool := match o with Some _ => true | None => false end.

Lemma free_slot slots :
  (count_if is_some slots < length slots)%nat -> exists i, (i < length slots)%nat /\ slots !! i = Some None.
Proof.
  induction slots as [|[e|] slots IH]; cbn [count_if length is_some]; intros H; [lia| |].
  - destruct IH as (i & Hi & E); [lia|]. exists (S i). split; [lia|done].
  - exists 0%nat. split; [lia|done].
Qed.

(** The table [sn] holds the entries [P]. *)
Record Table (P : list nat) (sn : Snapshot) : Prop := {
  t_length : length (slots sn) = Z.to_nat capacity;
  t_count : count_if is_some (slots sn) = length P;
  t_sound : forall i e, slots sn !! i = Some (Some e) -> e ∈ P;
  t_found : forall e en, e ∈ P -> entries !! e = Some en ->
    exists p, (p <= max_probe sn)%nat /\
      slots sn !! probe_index capacity (home capacity en) p = Some (Some e) /\
      forall q, (q < p)%nat -> occupied (slots sn) (probe_index capacity (home capacity en) q)
}.

Lemma place_table P sn e :
  Table P sn -> is_registered entries e = true -> (length P < Z.to_nat capacity)%nat ->
  Table (P ++ [e]) (place entries capacity sn e).
Proof using Hm.
  intros [T1 T2 T3 T4] He HP. unfold place. unfold is_registered in He.
  destruct (entries !! e) as [en|] eqn:Een; [|done]. rewrite He.
  destruct (free_slot (slots sn)) as (i & Hi & Hfree); [lia|]. rewrite T1 in Hi.
  destruct (probe_index_onto (home capacity en) i Hi) as (q & Hq & Eq). rewrite <- Eq in Hfree.
  destruct (FreeProbe_spec (Z.to_nat capacity) (slots sn) (home capacity en) 0 q T1 ltac:(lia) Hfree)
    as (p & -> & Hp & Hocc).
  set (j := probe_index capacity (home capacity en) p) in *.
  assert (Hj : (j < length (slots sn))%nat) by (by apply lookup_lt_Some in Hp).
  assert (Hkeep : forall x e', slots sn !! x = Some (Some e') -> <[j := Some e]> (slots sn) !! x = Some (Some e')).
  { intros x e' Hx. rewrite list_lookup_insert_ne; [done|congruence]. }
  constructor; cbn [slots max_probe].
  - by rewrite length_insert.
  - pose proof (count_if_insert is_some _ _ _ (Some e) Hp). cbn in *. rewrite length_app. cbn. lia.
  - intros x e' [[-> [= ->]]|[_ Hx]]%Gate.insert_cases; set_solver.
  - intros e' en' He' Hen'. rewrite elem_of_app, list_elem_of_singleton in He'. destruct He' as [He'| ->].
    + destruct (T4 e' en' He' Hen') as (p' & Hp' & Hs & Hall). exists p'.
      split; [lia|]. split; [by apply Hkeep|]. intros r Hr.
      destruct (Hall r Hr) as [x Hx]. exists x. by apply Hkeep.
    + assert (en' = en) as -> by congruence. exists p. split; [lia|]. split.
      * by apply list_lookup_insert_eq.
      * intros r Hr. destruct (Hocc r ltac:(lia)) as [x Hx]. exists x. by apply Hkeep.
Qed.

Lemma fold_place_table l P sn :
  Table P sn -> (length P + count_if (is_registered entries) l < Z.to_nat capacity)%nat ->
  Table (P ++ filter (fun e => is_registered entries e = true) l) (fold_left (place entries capacity) l sn).
Proof using Hm.
  revert P sn. induction l as [|e l IH]; intros P sn HT Hlen; [by rewrite app_nil_r|].
  cbn [fold_left count_if] in *. rewrite filter_cons. destruct (is_registered entries e) eqn:He.
  - rewrite decide_True by done. replace (P ++ e :: _) with ((P ++ [e]) ++ filter (fun e => is_registered entries e = true) l)
      by (by rewrite <- app_assoc).
    apply IH; [apply place_table; [done|done|lia]|]. rewrite length_app. cbn. lia.
  - rewrite decide_False by done. replace (place entries capacity sn e) with sn; [apply IH; [done|lia]|].
    unfold place. unfold is_registered in He. destruct (entries !! e); [by rewrite He|done].
Qed.

End probing.

Lemma build_table entries order :
  exists m, 3 <= m /\
    Table entries m (filter (fun e => is_registered entries e = true) order) (build entries order).
Proof.
  destruct (capacity_of_spec entries order) as (m & Hm & E & Hc). exists m. split; [done|].
  unfold build. rewrite E.
  assert (8 <= 2 ^ m) by (change 8 with (2 ^ 3); apply Z.pow_le_mono_r; lia).
  apply (fold_place_table entries m Hm order [] _); [|cbn; lia].
  assert (Hnone : forall i e, replicate (Z.to_nat (2 ^ m)) (@None nat) !! i <> Some (Some e)).
  { intros i e [Hx _]%lookup_replicate. done. }
  constructor; cbn [slots].
  - by rewrite length_replicate.
  - generalize (Z.to_nat (2 ^ m)). intros k. induction k as [|k IHk]; [done|exact IHk].
  - intros i e Hi. by apply Hnone in Hi.
  - intros e en He. set_solver.
Qed.

(** Lookups happen later, when gates and flags have moved on: only the keys of the
    registered entries are still the same. *)
Definition same_keys (entries entries' : gmap nat Entry) (order : list nat) : Prop :=
  forall e en, e ∈ order -> entries !! e = Some en -> registered en = true ->
    exists en', entries' !! e = Some en' /\ object en' = object en /\ kind en' = kind en.

Lemma FindLoop_hit entries sn o k start p e fuel probe :
  (probe <= p < probe + fuel)%nat ->
  slots sn !! probe_index (Z.of_nat (length (slots sn))) start p = Some (Some e) ->
  (forall q, (probe <= q <= p)%nat -> exists e' en',
     slots sn !! probe_index (Z.of_nat (length (slots sn))) start q = Some (Some e') /\
     entries !! e' = Some en' /\ (is_key o k en' = true <-> e' = e)) ->
  FindLoop entries fuel sn o k start probe = Found e.
Proof.
  intros Hp He. revert probe Hp. induction fuel as [|fuel IH]; intros probe Hp Hall; [lia|].
  cbn [FindLoop]. destruct (Hall probe ltac:(lia)) as (e' & en' & Es & En & Hkey). rewrite Es, En.
  destruct (is_key o k en') eqn:Ek.
  - f_equal. by apply Hkey.
  - apply IH; [|intros q Hq; apply Hall; lia]. destruct (decide (probe = p)) as [->|]; [|lia].
    assert (e' = e) as E by congruence. apply Hkey in E. congruence.
Qed.

Lemma FindLoop_miss entries sn o k start fuel probe :
  (forall i e, slots sn !! i = Some (Some e) -> exists en, entries !! e = Some en /\ is_key o k en = false) ->
  FindLoop entries fuel sn o k start probe = NotFound.
Proof.
  intros Hall. revert probe. induction fuel as [|fuel IH]; intros probe; [done|]. cbn [FindLoop].
  destruct (slots sn !! _) as [[e|]|] eqn:E; [|done|done]. destruct (Hall _ _ E) as (en & -> & ->). apply IH.
Qed.

Lemma is_key_true o k en : is_key o k en = true <-> object en = o /\ kind en = k.
Proof. unfold is_key. by rewrite andb_true_iff, !Z.eqb_eq. Qed.

(** C23: the open-addressing snapshot is a correct index: for any list of entries
    in which no two registered ones have the same key, the constructor's loops
    find room for every registered entry, and [Find], at any later time at which
    these entries are alive, returns exactly the registered entry with the given
    object and kind, and no entry when there is none; it never reads a freed one. *)
Theorem snapshot_find entries entries' order o k :
  (forall e1 e2, e1 ∈ order -> e2 ∈ order ->
     registered_key entries o k e1 = true -> registered_key entries o k e2 = true -> e1 = e2) ->
  same_keys entries entries' order ->
  Find entries' (build entries order) o k = Lookup_spec entries order o k.
Proof.
  intros Huniq Hsame. destruct (build_table entries order) as (m & Hm & [T1 _ T3 T4]).
  set (sn := build entries order) in *.
  assert (Hcap : Z.of_nat (length (slots sn)) = 2 ^ m) by (rewrite T1, Z2Nat.id; lia).
  assert (Hslot : forall i e, slots sn !! i = Some (Some e) -> exists en en',
    e ∈ order /\ entries !! e = Some en /\ registered en = true /\ entries' !! e = Some en' /\
    is_key o k en' = is_key o k en).
  { intros i e [Hr He]%T3%list_elem_of_filter. unfold is_registered in Hr.
    destruct (entries !! e) as [en|] eqn:Een; [|done].
    destruct (Hsame e en He Een Hr) as (en' & Hen' & Ho & Hk). exists en, en'.
    unfold is_key. by rewrite Ho, Hk. }
  unfold Lookup_spec, Find. rewrite Hcap. destruct (list_find _ order) as [[i e]|] eqn:Ef.
  - apply list_find_Some in Ef as (Hi & Hkey & _). apply list_elem_of_lookup_2 in Hi.
    pose proof Hkey as Hkey'. unfold registered_key in Hkey'.
    destruct (entries !! e) as [en|] eqn:Een; [|done]. apply andb_true_iff in Hkey' as [Hreg Hk].
    destruct (T4 e en) as (p & Hp & He & Hocc); [apply list_elem_of_filter; unfold is_registered; by rewrite Een|done|].
    apply is_key_true in Hk as Hk2. destruct Hk2 as [Ho' Hk']. unfold home in He, Hocc. rewrite Ho', Hk' in He, Hocc.
    apply FindLoop_hit with (p := p); rewrite ?Hcap; [lia|done|].
    intros q Hq. assert (exists e', slots sn !! probe_index (2 ^ m) (Hash o k .& (2 ^ m - 1)) q = Some (Some e')) as [e' He'].
    { destruct (decide (q = p)) as [->|]; [by exists e|]. apply Hocc. lia. }
    destruct (Hslot _ _ He') as (en1 & en1' & Hin & Hen1 & Hreg1 & Hen1' & Hkk).
    exists e', en1'. split; [done|]. split; [done|]. rewrite Hkk. split; intros H.
    + apply Huniq; [done|done| |done]. unfold registered_key. by rewrite Hen1, Hreg1.
    + subst e'. congruence.
  - apply list_find_None in Ef. rewrite Forall_forall in Ef. apply FindLoop_miss. intros i e He.
    destruct (Hslot _ _ He) as (en & en' & Hin & Hen & Hreg & Hen' & Hkk). exists en'. split; [done|].
    specialize (Ef e Hin). unfold registered_key in Ef. rewrite Hen, Hreg in Ef. rewrite Hkk.
    by destruct (is_key o k en).
Qed.

(** Five entries, one of them unregistered, whose hashes all collide. *)
Definition colliding : gmap nat Entry :=
  list_to_map [(0%nat, new_entry 0 2); (1%nat, new_entry 4096 2); (2%nat, new_entry 8192 2);
               (3%nat, mkEntry 12288 2 2147483648 false false); (4%nat, new_entry 12288 2)].

Lemma snapshot_find_witness :
  Find colliding (build colliding [0; 1; 2; 3; 4]%nat) 12288 2 = Lookup_spec colliding [0; 1; 2; 3; 4]%nat 12288 2 /\
  Lookup_spec colliding [0; 1; 2; 3; 4]%nat 12288 2 = Found 4 /\
  (0 < max_probe (build colliding [0; 1; 2; 3; 4]%nat))%nat.
Proof.
  split; [|split; [reflexivity|vm_compute; lia]]. apply snapshot_find.
  - intros e1 e2 H1 H2. rewrite !elem_of_cons in H1, H2.
    destruct_or! H1; try (by apply elem_of_nil in H1); subst e1; try discriminate;
    destruct_or! H2; try (by apply elem_of_nil in H2); subst e2; try discriminate; done.
  - intros e en _ He _. by exists en.
Defined.

(** ** Threads and the writer *)

(** What a thread is doing in [TryEnterDetailed]; [slot] is its [ThreadHazard]. *)
Inductive Phase :=
  | NoSlot                              (* no hazard slot claimed *)
  | Quiet (slot : nat)
  | Loading (slot : nat)                (* back at the loop of [ProtectSnapshot] *)
  | HasLoaded (slot snapshot : nat)     (* [snapshot = current_.load()] *)
  | HasStored (slot snapshot : nat)     (* [hazard->snapshot.store(snapshot)] *)
  | Protected (slot snapshot : nat)     (* [current_] was still [snapshot] *)
  | HasFound (slot snapshot entry : nat)
  | Enterable (slot snapshot entry : nat) (* [entry->registered] was true *)
  | Clearing (slot : nat).

Record Thread := mkThread {
  phase : Phase;
  held : list nat;      (* the entries whose gates it has entered and not left *)
  notifying : list nat  (* [Leave]s past their [fetch_sub], not yet returned *)
}.

(** The owner of [writer_mutex_]. *)
Inductive Writer :=
  | WNone
  | WRetire (entry : nat)                 (* [registered] exchanged, before [gate.Retire()] *)
  | WMark (object kind : Z) (next : nat)  (* in the loop of [ReclaimRetired] *)
  | WPublish (registering : option nat)   (* about to build and exchange the snapshot *)
  | WWait (previous slot : nat)           (* in [WaitForReaders], at hazard [slot] *)
  | WErase.                               (* [previous] deleted *)

Record State := mkState {
  entries : gmap nat Entry;      (* the entries alive *)
  order : list nat;              (* entries_ *)
  snapshots : gmap nat Snapshot; (* the snapshots alive *)
  current : nat;                 (* current_ *)
  hazards : list (option nat);   (* hazard_slots_[..].snapshot *)
  claimed : list bool;           (* hazard_slots_[..].claimed *)
  writer : Writer;
  threads : list Thread;
  bad_access : bool;             (* a lookup, an entry or a [fetch_sub] has touched freed memory *)
  bad_notify : bool              (* the end of a [Leave] has *)
}.

Definition initial (slot_count thread_count : nat) : State :=
  mkState ∅ [] {[0%nat := build ∅ []]} 0 (replicate slot_count None) (replicate slot_count false)
    WNone (replicate thread_count (mkThread NoSlot [] [])) false false.

Definition with_thread (i : nat) (t : Thread) (st : State) : State :=
  mkState (entries st) (order st) (snapshots st) (current st) (hazards st) (claimed st)
    (writer st) (<[i := t]> (threads st)) (bad_access st) (bad_notify st).
Definition with_hazard (k : nat) (h : option nat) (st : State) : State :=
  mkState (entries st) (order st) (snapshots st) (current st) (<[k := h]> (hazards st)) (claimed st)
    (writer st) (threads st) (bad_access st) (bad_notify st).
Definition with_claim (k : nat) (c : bool) (st : State) : State :=
  mkState (entries st) (order st) (snapshots st) (current st) (hazards st) (<[k := c]> (claimed st))
    (writer st) (threads st) (bad_access st) (bad_notify st).
Definition with_writer (w : Writer) (st : State) : State :=
  mkState (entries st) (order st) (snapshots st) (current st) (hazards st) (claimed st)
    w (threads st) (bad_access st) (bad_notify st).
Definition with_entries (es : gmap nat Entry) (os : list nat) (st : State) : State :=
  mkState es os (snapshots st) (current st) (hazards st) (claimed st)
    (writer st) (threads st) (bad_access st) (bad_notify st).
Definition with_snapshots (sns : gmap nat Snapshot) (cur : nat) (st : State) : State :=
  mkState (entries st) (order st) sns cur (hazards st) (claimed st)
    (writer st) (threads st) (bad_access st) (bad_notify st).
Definition fault (access notify : bool) (st : State) : State :=
  mkState (entries st) (order st) (snapshots st) (current st) (hazards st) (claimed st)
    (writer st) (threads st) (bad_access st || access) (bad_notify st || notify).

Definition with_gate (en : Entry) (word : Z) : Entry :=
  mkEntry (object en) (kind en) word (registered en) (reclaimable en).
Definition unregister (en : Entry) : Entry :=
  mkEntry (object en) (kind en) (gate en) false (reclaimable en).
(** The loop body of [ReclaimRetired]. *)
Definition mark (o k : Z) (en : Entry) : Entry :=
  if is_key o k en && negb (registered en) && (gate en .& Gate.kActiveMask =? 0)
  then mkEntry (object en) (kind en) (gate en) (registered en) true else en.

Definition to_phase (t : Thread) (p : Phase) : Thread := mkThread p (held t) (notifying t).

(** The steps of reader thread [i]. *)
Inductive ReaderAction :=
  | RClaim (slot : nat) | RExit                 (* HazardOwner *)
  | RLoad | RStore | RRecheck                   (* ProtectSnapshot *)
  | RFind (object kind : Z) | RRegistered | REnter | RClear   (* TryEnterDetailed *)
  | RLeave (entry : nat) | RNotify (entry : nat).             (* OperationGate::Leave *)

Definition read (i : nat) (a : ReaderAction) (st : State) : option State :=
  match threads st !! i with
  | None => None
  | Some t =>
      let go p := Some (with_thread i (to_phase t p) st) in
      match a, phase t with
      | RClaim k, NoSlot =>
          match claimed st !! k with
          | Some false => Some (with_thread i (to_phase t (Quiet k)) (with_claim k true st))
          | _ => None
          end
      | RExit, Quiet k =>
          Some (with_thread i (to_phase t NoSlot) (with_claim k false (with_hazard k None st)))
      | RLoad, (Quiet k | Loading k) => go (HasLoaded k (current st))
      | RStore, HasLoaded k s => Some (with_thread i (to_phase t (HasStored k s)) (with_hazard k (Some s) st))
      | RRecheck, HasStored k s =>
          if (current st =? s)%nat then go (Protected k s) else go (Loading k)
      | RFind o kd, Protected k s =>
          match snapshots st !! s with
          | None => Some (fault true false st)
          | Some sn =>
              match Find (entries st) sn o kd with
              | BadAccess => Some (fault true false st)
              | NotFound => go (Clearing k)
              | Found e => go (HasFound k s e)
              end
          end
      | RRegistered, HasFound k s e =>
          match entries st !! e with
          | None => Some (fault true false st)
          | Some en => if registered en then go (Enterable k s e) else go (Clearing k)
          end
      | REnter, Enterable k s e =>
          match entries st !! e with
          | None => Some (fault true false st)
          | Some en =>
              if Gate.refuses (gate en) then go (Clearing k)
              else Some (with_thread i (mkThread (Clearing k) (e :: held t) (notifying t))
                     (with_entries (<[e := with_gate en (u32 (gate en + 1))]> (entries st)) (order st) st))
          end
      | RClear, Clearing k => Some (with_thread i (to_phase t (Quiet k)) (with_hazard k None st))
      | RLeave e, _ =>
          match list_find (eq e) (held t) with
          | None => None
          | Some (n, _) =>
              match entries st !! e with
              | None => Some (fault true false st)
              | Some en =>
                  let notifying' := match Gate.after_leave (gate en) with
                                    | Gate.Notify => e :: notifying t | _ => notifying t end in
                  Some (with_thread i (mkThread (phase t) (delete n (held t)) notifying')
                     (with_entries (<[e := with_gate en (u32 (gate en - 1))]> (entries st)) (order st) st))
              end
          end
      | RNotify e, _ =>
          match list_find (eq e) (notifying t) with
          | None => None
          | Some (n, _) =>
              let st := with_thread i (mkThread (phase t) (held t) (delete n (notifying t))) st in
              Some (match entries st !! e with None => fault false true st | Some _ => st end)
          end
      | _, _ => None
      end
  end.

(** The steps of the writer; [WStart...] locks [writer_mutex_].  [address] is
    what the allocator returns: any address that is not in use. *)
Inductive WriterAction :=
  | WRegister (object kind : Z) (address : nat)
  | WStartRetire (object kind : Z) | WRetireGate
  | WReclaim (object kind : Z) | WMarkNext
  | WExchange (address : nat) | WExchangeFails  (* PublishSnapshot, and its allocation failing *)
  | WScan                                       (* WaitForReaders *)
  | WEraseEntries.                              (* EraseReclaimableEntries *)

Definition write (a : WriterAction) (st : State) : option State :=
  match a, writer st with
  | WRegister o k e, WNone =>
      if existsb (registered_key (entries st) o k) (order st) then Some st (* std::logic_error *)
      else match entries st !! e with
           | Some _ => None
           | None => Some (with_writer (WPublish (Some e))
                       (with_entries (<[e := new_entry o k]> (entries st)) (order st ++ [e]) st))
           end
  | WStartRetire o k, WNone =>
      match list_find (fun e => from_option (is_key o k) false (entries st !! e) = true) (reverse (order st)) with
      | None => Some st
      | Some (_, e) =>
          match entries st !! e with
          | Some en =>
              if registered en
              then Some (with_writer (WRetire e)
                     (with_entries (<[e := unregister en]> (entries st)) (order st) st))
              else Some st
          | None => None
          end
      end
  | WRetireGate, WRetire e =>
      match entries st !! e with
      | Some en => Some (with_writer WNone
          (with_entries (<[e := with_gate en (gate en .| Gate.kRetiring)]> (entries st)) (order st) st))
      | None => None
      end
  | WReclaim o k, WNone => Some (with_writer (WMark o k 0) st)
  | WMarkNext, WMark o k n =>
      match order st !! n with
      | None => Some (with_writer (WPublish None) st)
      | Some e => Some (with_writer (WMark o k (S n))
                    (with_entries (alter (mark o k) e (entries st)) (order st) st))
      end
  | WExchange s, WPublish _ =>
      match snapshots st !! s with
      | Some _ => None
      | None => Some (with_writer (WWait (current st) 0)
          (with_snapshots (<[s := build (entries st) (order st)]> (snapshots st)) s st))
      end
  | WExchangeFails, WPublish (Some e) =>  (* entries_.pop_back(); throw *)
      Some (with_writer WNone (with_entries (delete e (entries st)) (take (length (order st) - 1) (order st)) st))
  | WExchangeFails, WPublish None => Some (with_writer WNone st)
  | WScan, WWait previous k =>
      match hazards st !! k with
      | Some h => if bool_decide (h = Some previous) then None
                  else Some (with_writer (WWait previous (S k)) st)
      | None => Some (with_writer WErase (with_snapshots (delete previous (snapshots st)) (current st) st))
      end
  | WEraseEntries, WErase =>
      let keep e := from_option (fun en => negb (reclaimable en)) false (entries st !! e) in
      Some (with_writer WNone
        (with_entries (filter (fun '(_, en) => reclaimable en = false) (entries st))
                      (filter (fun e => keep e = true) (order st)) st))
  | _, _ => None
  end.

Inductive Action := AReader (i : nat) (a : ReaderAction) | AWriter (a : WriterAction).
Definition act (a : Action) (st : State) : option State :=
  match a with AReader i a => read i a st | AWriter a => write a st end.
Definition step (st st' : State) : Prop := exists a, act a st = Some st'.
Definition reachable (slot_count thread_count : nat) (st : State) : Prop :=
  rtc step (initial slot_count thread_count) st.
Definition run (schedule : list Action) (st : State) : State :=
  fold_left (fun st a => default st (act a st)) schedule st.

(** ** The invariant *)

Definition slot_of (p : Phase) : option nat :=
  match p with
  | NoSlot => None
  | Quiet k | Loading k | Clearing k => Some k
  | HasLoaded k _ | HasStored k _ | Protected k _ => Some k
  | HasFound k _ _ | Enterable k _ _ => Some k
  end.
Definition stored_of (p : Phase) : option nat :=
  match p with
  | HasStored _ s | Protected _ s | HasFound _ s _ | Enterable _ s _ => Some s | _ => None
  end.
Definition protected_of (p : Phase) : option nat :=
  match p with Protected _ s | HasFound _ s _ | Enterable _ s _ => Some s | _ => None end.
Definition found_of (p : Phase) : option (nat * nat) :=
  match p with HasFound _ s e | Enterable _ s e => Some (s, e) | _ => None end.

Fixpoint holders (e : nat) (ts : list Thread) : nat :=
  match ts with [] => O | t :: r => (count_if (Nat.eqb e) (held t) + holders e r)%nat end.

Definition in_snapshot (sn : Snapshot) (e : nat) : Prop := exists i, slots sn !! i = Some (Some e).

(** An entry in memory; [hold] is the number of operations inside it. *)
Definition entry_ok (w : Writer) (e hold : nat) (en : Entry) : Prop :=
  exists retired : bool,
    gate en = Z.of_nat hold + (if retired then Gate.kRetiring else 0) /\
    Z.of_nat hold <= Gate.kActiveMask /\
    (registered en = false -> retired = true \/ w = WRetire e) /\
    (reclaimable en = true -> registered en = false /\ retired = true /\ hold = 0%nat).

Definition published (w : Writer) : bool := match w with WWait _ _ | WErase => true | _ => false end.

Record Mem (es : gmap nat Entry) (os : list nat) (sns : gmap nat Snapshot) (cur : nat)
    (w : Writer) (hold : nat -> nat) : Prop := {
  m_current : is_Some (sns !! cur);
  m_alive : forall s sn, sns !! s = Some sn -> s = cur \/ exists k, w = WWait s k;
  m_previous : forall s k, w = WWait s k -> is_Some (sns !! s) /\ s <> cur;
  m_slots : forall s sn e, sns !! s = Some sn -> in_snapshot sn e ->
    is_Some (es !! e) /\ w <> WPublish (Some e);
  m_order : forall e, is_Some (es !! e) <-> e ∈ os;
  m_nodup : NoDup os;
  m_registering : forall e, w = WPublish (Some e) -> last os = Some e /\ hold e = 0%nat;
  m_fresh : published w = true -> forall sn e en, sns !! cur = Some sn -> in_snapshot sn e ->
    es !! e = Some en -> reclaimable en = false;
  m_entry : forall e en, es !! e = Some en -> entry_ok w e (hold e) en;
  m_freed : forall e, es !! e = None -> hold e = 0%nat
}.

(** What a reader in phase [p] relies on. *)
Record phase_ok (sns : gmap nat Snapshot) (cur : nat) (w : Writer)
    (hz : list (option nat)) (cl : list bool) (p : Phase) : Prop := {
  p_slot : forall k, slot_of p = Some k -> cl !! k = Some true;
  p_stored : forall k s, slot_of p = Some k -> stored_of p = Some s -> hz !! k = Some (Some s);
  p_protected : forall k s, slot_of p = Some k -> protected_of p = Some s ->
    s = cur \/ exists j, w = WWait s j /\ (j <= k)%nat;
  p_found : forall s e, found_of p = Some (s, e) -> exists sn, sns !! s = Some sn /\ in_snapshot sn e
}.

Record Inv (st : State) : Prop := {
  inv_mem : Mem (entries st) (order st) (snapshots st) (current st) (writer st) (fun e => holders e (threads st));
  inv_phase : forall i t, threads st !! i = Some t ->
    phase_ok (snapshots st) (current st) (writer st) (hazards st) (claimed st) (phase t);
  inv_own : forall i j t u k, threads st !! i = Some t -> threads st !! j = Some u ->
    slot_of (phase t) = Some k -> slot_of (phase u) = Some k -> i = j;
  inv_length : length (claimed st) = length (hazards st);
  inv_ok : bad_access st = false
}.

(** A protected snapshot is alive, and so is every entry in it. *)
Lemma protected_alive st i t s :
  Inv st -> threads st !! i = Some t -> protected_of (phase t) = Some s -> is_Some (snapshots st !! s).
Proof.
  intros HI Hi Hp. assert (exists k, slot_of (phase t) = Some k) as [k Hk] by (destruct (phase t); try done; by eexists).
  destruct (p_protected _ _ _ _ _ _ (inv_phase _ HI i t Hi) k s Hk Hp) as [->|(j & Hw & _)].
  - apply (m_current _ _ _ _ _ _ (inv_mem _ HI)).
  - by apply (m_previous _ _ _ _ _ _ (inv_mem _ HI) s j).
Qed.

Lemma found_alive st i t s e :
  Inv st -> threads st !! i = Some t -> found_of (phase t) = Some (s, e) -> is_Some (entries st !! e).
Proof.
  intros HI Hi Hf. destruct (p_found _ _ _ _ _ _ (inv_phase _ HI i t Hi) s e Hf) as (sn & Hs & He).
  by apply (m_slots _ _ _ _ _ _ (inv_mem _ HI) s sn e).
Qed.

Lemma holders_insert e ts i t t' :
  ts !! i = Some t ->
  (holders e (<[i := t']> ts) + count_if (Nat.eqb e) (held t) =
   holders e ts + count_if (Nat.eqb e) (held t'))%nat.
Proof.
  revert i. induction ts as [|u ts IH]; intros [|i] H; try done.
  - injection H as ->. change (<[0%nat := t']> (t :: ts)) with (t' :: ts). cbn [holders]. lia.
  - specialize (IH i H). change (<[S i := t']> (u :: ts)) with (u :: <[i := t']> ts). cbn [holders]. lia.
Qed.

Lemma holders_held e ts i t : ts !! i = Some t -> e ∈ held t -> (0 < holders e ts)%nat.
Proof.
  intros Hi [n Hn]%list_elem_of_lookup. pose proof (count_if_pos (Nat.eqb e) _ _ _ Hn (Nat.eqb_refl e)) as Hpos.
  revert i Hi. induction ts as [|u ts IH]; intros [|i] H; try done; cbn [holders].
  - injection H as ->. lia.
  - specialize (IH i H). lia.
Qed.

Lemma held_alive st i t e :
  Inv st -> threads st !! i = Some t -> e ∈ held t -> is_Some (entries st !! e).
Proof.
  intros HI Hi He. pose proof (holders_held e _ _ _ Hi He) as Hpos.
  destruct (entries st !! e) eqn:E; [by eexists|].
  pose proof (m_freed _ _ _ _ _ _ (inv_mem _ HI) e E). lia.
Qed.

Lemma mem_ext es os sns cur w hold hold' :
  (forall e, hold' e = hold e) -> Mem es os sns cur w hold -> Mem es os sns cur w hold'.
Proof.
  intros E [M1 M2 M3 M4 M5 M6 M7 M8 M9 M10].
  constructor; try done; intros e; rewrite E; [apply M7|apply M9|apply M10].
Qed.

(** A step of thread [i] that enters and leaves no gate. *)
Lemma reader_inv st st' i t t' :
  Inv st -> threads st !! i = Some t ->
  entries st' = entries st -> order st' = order st -> snapshots st' = snapshots st ->
  current st' = current st -> writer st' = writer st -> bad_access st' = bad_access st ->
  threads st' = <[i := t']> (threads st) -> held t' = held t ->
  length (claimed st') = length (hazards st') ->
  (forall k, Some k <> slot_of (phase t) -> claimed st !! k = Some true ->
     hazards st' !! k = hazards st !! k /\ claimed st' !! k = claimed st !! k) ->
  (slot_of (phase t') = None \/ slot_of (phase t') = slot_of (phase t) \/
   exists k, slot_of (phase t') = Some k /\ claimed st !! k = Some false) ->
  phase_ok (snapshots st') (current st') (writer st') (hazards st') (claimed st') (phase t') ->
  Inv st'.
Proof.
  intros HI Hi Ee Eo Es Ec Ew Eb Et Hh Hl Hother Hslot Hok.
  pose proof HI as [HM HP HO HL HB].
  constructor; [rewrite Ee, Eo, Es, Ec, Ew|..|congruence].
  - eapply mem_ext; [|exact HM]. intros e. cbv beta. rewrite Et.
    pose proof (holders_insert e _ _ _ t' Hi). rewrite Hh in H. lia.
  - intros j u Hj. rewrite Et in Hj. apply Gate.insert_cases in Hj as [[-> ->]|[Hne Hj]]; [done|].
    destruct (HP j u Hj) as [P1 P2 P3 P4]. rewrite Es, Ec, Ew.
    assert (Hsame : forall k, slot_of (phase u) = Some k ->
      hazards st' !! k = hazards st !! k /\ claimed st' !! k = claimed st !! k).
    { intros k Hk. apply Hother; [|by apply P1]. intros E. apply Hne. by apply (HO j i u t k). }
    constructor; [..|done|done].
    + intros k Hk. destruct (Hsame k Hk) as [_ ->]. by apply P1.
    + intros k s Hk Hs. destruct (Hsame k Hk) as [-> _]. by apply P2.
  - assert (Hne : forall j u k, j <> i -> threads st !! j = Some u -> slot_of (phase u) = Some k ->
      slot_of (phase t') = Some k -> False).
    { intros j u k Hne Hj Hk Hk'. pose proof (p_slot _ _ _ _ _ _ (HP j u Hj) k Hk) as Hc.
      destruct Hslot as [E|[E|(k0 & E & Hc')]]; [congruence| |congruence].
      apply Hne. apply (HO j i u t k); congruence. }
    intros j1 j2 u1 u2 k H1 H2 K1 K2. rewrite Et in H1, H2.
    apply Gate.insert_cases in H1 as [[-> ->]|[N1 H1]], H2 as [[-> ->]|[N2 H2]]; [done|..].
    + exfalso. by eapply (Hne j2).
    + exfalso. by eapply (Hne j1).
    + by apply (HO j1 j2 u1 u2 k).
  - done.
Qed.

Lemma mem_alter es es' os sns cur w w' hold hold' :
  Mem es os sns cur w hold ->
  (forall e, is_Some (es' !! e) <-> is_Some (es !! e)) ->
  (forall s k, w' = WWait s k <-> w = WWait s k) ->
  (forall e, w' = WPublish (Some e) <-> w = WPublish (Some e)) ->
  published w' = published w ->
  (forall e en', published w = true -> es' !! e = Some en' ->
     exists en, es !! e = Some en /\ reclaimable en' = reclaimable en) ->
  (forall e en', es' !! e = Some en' -> entry_ok w' e (hold' e) en') ->
  (forall e, es !! e = None \/ w = WPublish (Some e) -> hold' e = 0%nat) ->
  Mem es' os sns cur w' hold'.
Proof.
  intros [M1 M2 M3 M4 M5 M6 M7 M8 M9 M10] Hdom Hwait Hpub Hpubl Hrec Hentry Hhold.
  constructor; [done|..].
  - intros s sn Hs. destruct (M2 s sn Hs) as [?|[k Hk]]; [by left|right; exists k; by apply Hwait].
  - intros s k Hk. apply (M3 s k). by apply Hwait.
  - intros s sn e Hs He. destruct (M4 s sn e Hs He) as [? Hn]. split; [by apply Hdom|].
    intros E. by apply Hn, Hpub.
  - intros e. rewrite Hdom. apply M5.
  - done.
  - intros e He%Hpub. destruct (M7 e He). split; [done|]. apply Hhold. by right.
  - rewrite Hpubl. intros Hp sn e en' Hcur Hin Hen'. destruct (Hrec e en' Hp Hen') as (en & Hen & ->).
    by apply (M8 Hp sn e).
  - done.
  - intros e He. apply Hhold. left. destruct (es !! e) eqn:E; [|done].
    assert (is_Some (es' !! e)) as [x Hx] by (apply Hdom; by eexists). congruence.
Qed.

Lemma phase_ok_writer sns cur w w' hz cl p :
  phase_ok sns cur w hz cl p -> (forall s j, w <> WWait s j) -> phase_ok sns cur w' hz cl p.
Proof.
  intros [P1 P2 P3 P4] Hw. constructor; [done|done| |done].
  intros k s Hk Hs. destruct (P3 k s Hk Hs) as [?|(j & Hj & _)]; [by left|by apply Hw in Hj].
Qed.

(** A step of thread [i] that enters or leaves the gate of [e]. *)
Lemma gate_step_inv st i t t' e en word :
  Inv st -> threads st !! i = Some t -> entries st !! e = Some en ->
  (phase t' = phase t \/ exists k, phase t' = Clearing k /\ slot_of (phase t) = Some k) ->
  (forall x, x <> e -> count_if (Nat.eqb x) (held t') = count_if (Nat.eqb x) (held t)) ->
  writer st <> WPublish (Some e) ->
  entry_ok (writer st) e (holders e (<[i := t']> (threads st))) (with_gate en word) ->
  Inv (with_thread i t' (with_entries (<[e := with_gate en word]> (entries st)) (order st) st)).
Proof.
  intros HI Hi He Hphase Hcount Hw Hok. pose proof HI as [HM HP HO HL HB].
  assert (Hhold : forall x, x <> e -> holders x (<[i := t']> (threads st)) = holders x (threads st)).
  { intros x Hx. pose proof (holders_insert x _ _ _ t' Hi). rewrite (Hcount x Hx) in H. lia. }
  constructor; cbn [entries order snapshots current writer threads hazards claimed bad_access with_thread with_entries];
    [..|done|done].
  - eapply mem_alter; [exact HM|..]; try done.
    + intros x. destruct (decide (x = e)) as [->|Hne]; [|by rewrite lookup_insert_ne].
      rewrite lookup_insert_eq, He. done.
    + intros x en' _ Hx. destruct (decide (x = e)) as [->|Hne].
      * rewrite lookup_insert_eq in Hx. injection Hx as <-. by exists en.
      * rewrite lookup_insert_ne in Hx by done. by exists en'.
    + intros x en' Hx. destruct (decide (x = e)) as [->|Hne].
      * rewrite lookup_insert_eq in Hx. by injection Hx as <-.
      * rewrite lookup_insert_ne in Hx by done. cbv beta. rewrite (Hhold x Hne).
        by apply (m_entry _ _ _ _ _ _ HM).
    + intros x Hx. cbv beta. rewrite Hhold by (intros ->; destruct Hx; congruence).
      destruct Hx as [Hx|Hx]; [by apply (m_freed _ _ _ _ _ _ HM)|by apply (m_registering _ _ _ _ _ _ HM)].
  - intros j u [[-> ->]|[Hne Hj]]%Gate.insert_cases; [|by apply (HP j)].
    destruct Hphase as [-> |(k & -> & Hk)]; [by apply (HP i)|].
    constructor; try done. intros k' [= <-]. by apply (p_slot _ _ _ _ _ _ (HP i t Hi)).
  - assert (Hslot : slot_of (phase t') = slot_of (phase t)).
    { destruct Hphase as [-> |(k & -> & Hk)]; [done|]. by rewrite Hk. }
    intros j1 j2 u1 u2 k H1 H2 K1 K2.
    apply Gate.insert_cases in H1 as [[-> ->]|[N1 H1]], H2 as [[-> ->]|[N2 H2]]; [done|..].
    + apply (HO i j2 t u2 k); congruence.
    + apply (HO j1 i u1 t k); congruence.
    + by apply (HO j1 j2 u1 u2 k).
Qed.

Lemma hazard_in_range st i t k :
  Inv st -> threads st !! i = Some t -> slot_of (phase t) = Some k ->
  claimed st !! k = Some true /\ (k < length (hazards st))%nat.
Proof.
  intros HI Hi Hk. pose proof (p_slot _ _ _ _ _ _ (inv_phase _ HI i t Hi) k Hk) as Hc.
  split; [done|]. rewrite <- (inv_length _ HI). by apply lookup_lt_Some in Hc.
Qed.

Lemma FindLoop_alive es sn o k start fuel probe :
  (forall e, in_snapshot sn e -> is_Some (es !! e)) ->
  match FindLoop es fuel sn o k start probe with
  | BadAccess => False | NotFound => True | Found e => in_snapshot sn e end.
Proof.
  intros Hall. revert probe. induction fuel as [|fuel IH]; intros probe; [done|]. cbn [FindLoop].
  destruct (slots sn !! _) as [[e|]|] eqn:E; [|done|done].
  assert (in_snapshot sn e) as Hin by (by eexists).
  destruct (Hall e Hin) as [en ->]. destruct (is_key o k en); [done|apply IH].
Qed.

Lemma enter_ok w e n en :
  entry_ok w e n en -> Gate.refuses (gate en) = false ->
  entry_ok w e (S n) (with_gate en (u32 (gate en + 1))).
Proof.
  intros (retired & Hg & Hn & Hr & Hc) Href.
  pose proof (Gate.bits_of_word (Z.of_nat n) retired ltac:(lia)) as (B1 & B2 & _ & B4).
  rewrite <- Hg in B1, B2, B4. unfold Gate.refuses in Href. rewrite B1, B2, negb_involutive in Href.
  apply orb_false_iff in Href as [-> Hlt%Z.eqb_neq]. exists false. cbn [gate registered reclaimable with_gate].
  unfold Gate.kActiveMask, Gate.kRetiring in *.
  split; [unfold u32; rewrite Z.mod_small by lia; lia|]. split; [lia|]. split; [done|].
  intros Hrec. by destruct (Hc Hrec) as (_ & ? & _).
Qed.

Lemma leave_ok w e n en :
  entry_ok w e (S n) en -> entry_ok w e n (with_gate en (u32 (gate en - 1))).
Proof.
  intros (retired & Hg & Hn & Hr & Hc). exists retired. cbn [gate registered reclaimable with_gate].
  unfold Gate.kActiveMask, Gate.kRetiring in *.
  split; [unfold u32; rewrite Z.mod_small by (destruct retired; lia); lia|]. split; [lia|]. split; [done|].
  intros Hrec. by destruct (Hc Hrec) as (_ & _ & ?).
Qed.

Lemma count_if_delete f (l : list nat) n x :
  l !! n = Some x -> (count_if f (delete n l) + (if f x then 1 else 0) = count_if f l)%nat.
Proof.
  revert n. induction l as [|z l IH]; intros [|n] H; try done.
  - injection H as ->. cbn. destruct (f x); lia.
  - specialize (IH n H). change (delete (S n) (z :: l)) with (z :: delete n l). cbn [count_if]. destruct (f z); lia.
Qed.

Ltac solve_lookup :=
  repeat first [ rewrite list_lookup_insert_ne by congruence
               | rewrite list_lookup_insert_eq by (rewrite ?length_insert; lia) ].

(** A step of thread [i] to phase [p'] that may change its own hazard slot. *)
Ltac reader_step HI Hi Ep :=
  match goal with |- Inv (with_thread _ ?t' _) => eapply (reader_inv _ _ _ _ t' HI Hi) end;
  cbn; rewrite ?length_insert, ?Ep; try reflexivity;
  [ try apply (inv_length _ HI)
  | intros k' Hk' Hc'; cbn in Hk'; solve_lookup; try done; try (split; congruence)
  | auto
  | ].

Lemma registry_read_inv i a st st' : read i a st = Some st' -> Inv st -> Inv st'.
Proof.
  intros H HI. unfold read in H. destruct (threads st !! i) as [t|] eqn:Hi; [|done].
  pose proof (inv_phase _ HI i t Hi) as HP. pose proof (inv_length _ HI) as HL.
  pose proof (fun k => hazard_in_range st i t k HI Hi) as Hrange.
  destruct a as [k| | | | |o kd| | | |e|e].
  - destruct (phase t) eqn:Ep; try done. destruct (claimed st !! k) as [[]|] eqn:Ec; try done. injection H as <-.
    pose proof (lookup_lt_Some _ _ _ Ec). reader_step HI Hi Ep.
    + right; right. by exists k.
    + constructor; try done. intros k' [= <-]. by solve_lookup.
  - destruct (phase t) as [|k| | | | | | |] eqn:Ep; try done. injection H as <-. reader_step HI Hi Ep.
    constructor; done.
  - assert (exists k, slot_of (phase t) = Some k /\
      st' = with_thread i (to_phase t (HasLoaded k (current st))) st) as (k & Hk & ->).
    { destruct (phase t) as [|k|k| | | | | |]; try done; injection H as <-; by exists k. }
    reader_step HI Hi Hk.
    constructor; try done. intros k' [= <-]. by apply Hrange.
  - destruct (phase t) as [| | |k s| | | | |] eqn:Ep; try done. injection H as <-.
    destruct (Hrange k eq_refl) as [Hc Hlt]. reader_step HI Hi Ep.
    constructor; try done; cbn.
    + intros k' [= <-]. done.
    + intros k' s' [= <-] [= <-]. by solve_lookup.
  - destruct (phase t) as [| | | |k s| | | |] eqn:Ep; try done.
    destruct (Nat.eqb_spec (current st) s) as [<-|]; injection H as <-; reader_step HI Hi Ep;
      destruct HP as [P1 P2 P3 P4]; constructor; try done.
    intros k' s' _ [= <-]. by left.
  - destruct (phase t) as [| | | | |k s| | |] eqn:Ep; try done.
    destruct (protected_alive st i t s HI Hi) as [sn Hs]; [by rewrite Ep|]. rewrite Hs in H.
    pose proof (FindLoop_alive (entries st) sn o kd (Hash o kd .& (Z.of_nat (length (slots sn)) - 1)) (S (max_probe sn)) 0) as HF.
    unfold Find in H. destruct (FindLoop _ _ _ _ _ _ _) as [| |e].
    + exfalso. apply HF. intros e He. by apply (m_slots _ _ _ _ _ _ (inv_mem _ HI) s sn).
    + injection H as <-. reader_step HI Hi Ep. destruct HP as [P1 P2 P3 P4]. constructor; done.
    + injection H as <-. reader_step HI Hi Ep. destruct HP as [P1 P2 P3 P4]. constructor; try done.
      intros s' e' [= <- <-]. exists sn. split; [done|]. apply HF.
      intros x Hx. by apply (m_slots _ _ _ _ _ _ (inv_mem _ HI) s sn).
  - destruct (phase t) as [| | | | | |k s e| |] eqn:Ep; try done.
    destruct (found_alive st i t s e HI Hi) as [en He]; [by rewrite Ep|]. rewrite He in H.
    destruct (registered en); injection H as <-; reader_step HI Hi Ep; destruct HP as [P1 P2 P3 P4]; constructor; done.
  - destruct (phase t) as [| | | | | | |k s e|] eqn:Ep; try done.
    destruct (found_alive st i t s e HI Hi) as [en He]; [by rewrite Ep|]. rewrite He in H.
    destruct (Gate.refuses (gate en)) eqn:Er.
    + injection H as <-. reader_step HI Hi Ep. destruct HP as [P1 P2 P3 P4]; constructor; done.
    + injection H as <-. eapply gate_step_inv; [done|done|done|..]; cbn [phase held].
      * right. exists k. by rewrite Ep.
      * intros x Hx. cbn [count_if]. by rewrite (proj2 (Nat.eqb_neq x e) Hx).
      * destruct (p_found _ _ _ _ _ _ HP s e eq_refl) as (sn & Hs & Hin).
        by apply (m_slots _ _ _ _ _ _ (inv_mem _ HI) s sn e).
      * pose proof (holders_insert e _ _ _ (mkThread (Clearing k) (e :: held t) (notifying t)) Hi) as Eh.
        cbn [held count_if] in Eh. rewrite Nat.eqb_refl in Eh.
        replace (holders e _) with (S (holders e (threads st))) by lia.
        apply enter_ok; [|done]. by apply (m_entry _ _ _ _ _ _ (inv_mem _ HI)).
  - destruct (phase t) as [| | | | | | | |k] eqn:Ep; try done. injection H as <-.
    reader_step HI Hi Ep. destruct HP as [P1 P2 P3 P4]. constructor; done.
  - destruct (list_find (eq e) (held t)) as [[n x]|] eqn:Ef; [|by destruct (phase t)].
    apply list_find_Some in Ef as (Hn & <- & _).
    pose proof (list_elem_of_lookup_2 _ _ _ Hn) as Hin.
    destruct (held_alive st i t e HI Hi Hin) as [en He].
    assert (exists t', st' = with_thread i t' (with_entries (<[e := with_gate en (u32 (gate en - 1))]> (entries st)) (order st) st)
      /\ phase t' = phase t /\ held t' = delete n (held t)) as (t' & -> & Hp & Hh).
    { rewrite He in H. destruct (phase t); injection H as <-; by eexists. }
    pose proof (count_if_delete (Nat.eqb e) _ _ _ Hn) as Hc. rewrite Nat.eqb_refl in Hc.
    pose proof (holders_insert e _ _ _ t' Hi) as Eh. rewrite Hh in Eh.
    pose proof (m_entry _ _ _ _ _ _ (inv_mem _ HI) e en He) as Hok. cbv beta in Hok.
    pose proof (holders_held e _ _ _ Hi Hin) as Hpos.
    eapply gate_step_inv; [done|done|done|by left|..].
    + intros y Hy. rewrite Hh. pose proof (count_if_delete (Nat.eqb y) _ _ _ Hn) as Hc'.
      rewrite (proj2 (Nat.eqb_neq y e) Hy) in Hc'. lia.
    + intros Hw. destruct (m_registering _ _ _ _ _ _ (inv_mem _ HI) e Hw). lia.
    + apply leave_ok. replace (S _) with (holders e (threads st)) by lia. done.
  - destruct (list_find (eq e) (notifying t)) as [[n x]|] eqn:Ef; [|by destruct (phase t)].
    assert (exists b, st' = fault false b (with_thread i (mkThread (phase t) (held t) (delete n (notifying t))) st)) as [b ->].
    { destruct (phase t); injection H as <-; cbn [entries with_thread]; destruct (entries st !! e);
        try (by exists true); exists false; destruct st; unfold fault, with_thread; cbn; by rewrite !orb_false_r. }
    eapply (reader_inv _ _ _ _ _ HI Hi); cbn; try reflexivity; auto. by rewrite orb_false_r.
Qed.

Lemma build_in es os e : in_snapshot (build es os) e -> e ∈ os /\ exists en, es !! e = Some en /\ registered en = true.
Proof.
  intros [i Hi]. destruct (build_table es os) as (m & _ & HT).
  apply (t_sound _ _ _ _ HT) in Hi. apply list_elem_of_filter in Hi as [Hr Ho]. split; [done|].
  unfold is_registered in Hr. destruct (es !! e) as [en|]; [by exists en|done].
Qed.

Lemma entry_ok_writer w w' e n en :
  entry_ok w e n en -> (w = WRetire e -> w' = WRetire e) -> entry_ok w' e n en.
Proof.
  intros (r & Hg & Hn & Hr & Hc) Hw. exists r. split; [done|]. split; [done|]. split; [|done].
  intros H. destruct (Hr H); [by left|right; by apply Hw].
Qed.

(** Writer states between which nothing is published. *)
Definition quiet (w : Writer) : bool :=
  match w with WNone | WRetire _ | WMark _ _ _ | WPublish None => true | _ => false end.

Lemma writer_inv st es os sns cur w :
  Inv st -> Mem es os sns cur w (fun e => holders e (threads st)) ->
  (forall i t, threads st !! i = Some t -> phase_ok sns cur w (hazards st) (claimed st) (phase t)) ->
  Inv (mkState es os sns cur (hazards st) (claimed st) w (threads st) (bad_access st) (bad_notify st)).
Proof. intros [H1 H2 H3 H4 H5] HM HP. by constructor. Qed.

(** The entries and the writer change, the published snapshot does not. *)
Lemma quiet_inv st es w :
  Inv st -> quiet (writer st) = true -> quiet w = true ->
  (forall e, is_Some (es !! e) <-> is_Some (entries st !! e)) ->
  (forall e en', es !! e = Some en' -> entry_ok w e (holders e (threads st)) en') ->
  Inv (with_writer w (with_entries es (order st) st)).
Proof.
  intros HI Hq Hq' Hdom Hentry. apply (writer_inv st); cbn [entries order snapshots current with_entries with_snapshots]; [done|..].
  - eapply mem_alter; [apply (inv_mem _ HI)|..]; try done.
    + intros s k. split; intros E; rewrite E in *; done.
    + intros e. split; intros E; rewrite E in *; done.
    + by destruct w as [| | |[]| |], (writer st) as [| | |[]| |].
    + intros e en' Hp. by destruct (writer st) as [| | |[]| |].
    + intros e [He|He]; [by apply (m_freed _ _ _ _ _ _ (inv_mem _ HI))|]. by rewrite He in Hq.
  - intros i t Hi. eapply phase_ok_writer; [by apply (inv_phase _ HI i)|]. intros s j E. by rewrite E in Hq.
Qed.

Lemma insert_dom (es : gmap nat Entry) e en en' :
  es !! e = Some en -> forall x, is_Some (<[e := en']> es !! x) <-> is_Some (es !! x).
Proof.
  intros He x. destruct (decide (x = e)) as [->|]; [|by rewrite lookup_insert_ne].
  rewrite lookup_insert_eq, He. done.
Qed.

Lemma insert_entry (es : gmap nat Entry) e en' x y :
  <[e := en']> es !! x = Some y -> (x = e /\ y = en') \/ (x <> e /\ es !! x = Some y).
Proof. intros [[-> ->]|[]]%lookup_insert_Some; auto. Qed.

Lemma register_inv st o k e :
  Inv st -> writer st = WNone -> entries st !! e = None ->
  Inv (with_writer (WPublish (Some e)) (with_entries (<[e := new_entry o k]> (entries st)) (order st ++ [e]) st)).
Proof.
  intros HI Hw He. destruct (inv_mem _ HI) as [M1 M2 M3 M4 M5 M6 M7 M8 M9 M10].
  assert (e ∉ order st) as Hnin by (intros Hin; apply M5 in Hin as [x Hx]; congruence).
  apply (writer_inv st); cbn [entries order snapshots current with_entries with_snapshots]; [done|constructor|].
  - done.
  - intros s sn Hs. left. destruct (M2 s sn Hs) as [?|[j Hj]]; [done|congruence].
  - done.
  - intros s sn e' Hs Hin. destruct (M4 s sn e' Hs Hin) as [Hsome _].
    assert (e' <> e) as Hne by (intros ->; destruct Hsome; congruence).
    rewrite lookup_insert_ne by done. split; [done|congruence].
  - intros x. rewrite elem_of_app, list_elem_of_singleton, <- M5. destruct (decide (x = e)) as [->|Hne].
    + rewrite lookup_insert_eq. split; [by right|by eexists].
    + rewrite lookup_insert_ne by done. split; [by left|by intros [?|?]].
  - apply NoDup_app. split; [done|]. split; [|apply NoDup_singleton].
    intros x Hx ->%list_elem_of_singleton. done.
  - intros x [= <-]. split; [apply last_snoc|by apply M10].
  - done.
  - intros x en [[-> ->]|[Hne Hx]]%insert_entry.
    + rewrite M10 by done. exists false. cbn. unfold Gate.kActiveMask, Gate.kRetiring. split_and!; [lia|lia|done|done].
    + eapply entry_ok_writer; [by apply M9|]. by rewrite Hw.
  - intros x [Hx _]%lookup_insert_None. by apply M10.
  - intros i t Hi. eapply phase_ok_writer; [by apply (inv_phase _ HI i)|]. by rewrite Hw.
Qed.

Lemma unregister_inv st e en :
  Inv st -> writer st = WNone -> entries st !! e = Some en -> registered en = true ->
  Inv (with_writer (WRetire e) (with_entries (<[e := unregister en]> (entries st)) (order st) st)).
Proof.
  intros HI Hw He Hr. apply quiet_inv; [done|by rewrite Hw|done|by eapply insert_dom|].
  intros x y [[-> ->]|[Hne Hx]]%insert_entry; pose proof (m_entry _ _ _ _ _ _ (inv_mem _ HI)) as HE.
  - destruct (HE e en He) as (r & Hg & Hn & _ & Hc). exists r. cbn. split_and!; [done|done|by right|].
    intros Hrec. destruct (Hc Hrec). congruence.
  - eapply entry_ok_writer; [by apply HE|]. by rewrite Hw.
Qed.

Lemma retire_gate_inv st e en :
  Inv st -> writer st = WRetire e -> entries st !! e = Some en ->
  Inv (with_writer WNone
    (with_entries (<[e := with_gate en (gate en .| Gate.kRetiring)]> (entries st)) (order st) st)).
Proof.
  intros HI Hw He. apply quiet_inv; [done|by rewrite Hw|done|by eapply insert_dom|].
  intros x y [[-> ->]|[Hne Hx]]%insert_entry; pose proof (m_entry _ _ _ _ _ _ (inv_mem _ HI)) as HE.
  - destruct (HE e en He) as (r & Hg & Hn & _ & Hc). exists true. cbn.
    pose proof (Gate.bits_of_word (Z.of_nat (holders e (threads st))) r ltac:(lia)) as (_ & _ & B3 & _).
    split_and!; [rewrite Hg; exact B3|done|by left|].
    intros Hrec. by destruct (Hc Hrec) as (? & _ & ?).
  - eapply entry_ok_writer; [by apply HE|]. rewrite Hw. congruence.
Qed.

Lemma mark_inv st o k n e :
  Inv st -> writer st = WMark o k n ->
  Inv (with_writer (WMark o k (S n)) (with_entries (alter (mark o k) e (entries st)) (order st) st)).
Proof.
  intros HI Hw. apply quiet_inv; [done|by rewrite Hw|done|..].
  - intros x. destruct (decide (e = x)) as [->|]; [|by rewrite lookup_alter_ne].
    rewrite lookup_alter_eq. apply fmap_is_Some.
  - intros x y Hx. pose proof (m_entry _ _ _ _ _ _ (inv_mem _ HI)) as HE.
    assert (exists en, entries st !! x = Some en /\ (y = en \/ y = mark o k en)) as (en & Hen & Hy).
    { destruct (decide (e = x)) as [->|].
      - rewrite lookup_alter_eq in Hx. destruct (entries st !! x) as [en|]; [|done].
        injection Hx as <-. exists en. split; [done|by right].
      - rewrite lookup_alter_ne in Hx by done. exists y. split; [done|by left]. }
    pose proof (HE x en Hen) as Hok. assert (entry_ok (WMark o k (S n)) x (holders x (threads st)) en) as Hok'
      by (eapply entry_ok_writer; [exact Hok|by rewrite Hw]).
    destruct Hy as [-> | ->]; [done|]. unfold mark. destruct (is_key o k en && _ && _) eqn:E; [|done].
    apply andb_true_iff in E as [[_ Hr%negb_true_iff]%andb_true_iff Hz%Z.eqb_eq].
    destruct Hok' as (r & Hg & Hn & Hr' & Hc). exists r. cbn. split_and!; [done|done|done|].
    intros _. destruct (Hr' Hr) as [-> |?]; [|done]. split_and!; [done|done|].
    pose proof (Gate.bits_of_word (Z.of_nat (holders x (threads st))) true ltac:(lia)) as (B1 & _).
    rewrite <- Hg, Hz in B1. lia.
Qed.

Lemma exchange_inv st r s :
  Inv st -> writer st = WPublish r -> snapshots st !! s = None ->
  Inv (with_writer (WWait (current st) 0)
    (with_snapshots (<[s := build (entries st) (order st)]> (snapshots st)) s st)).
Proof.
  intros HI Hw Hs. destruct (inv_mem _ HI) as [M1 M2 M3 M4 M5 M6 M7 M8 M9 M10].
  assert (Hcur : forall s' sn, snapshots st !! s' = Some sn -> s' = current st).
  { intros s' sn Hs'. destruct (M2 s' sn Hs') as [?|[k Hk]]; [done|congruence]. }
  assert (current st <> s) as Hne by (intros E; rewrite E, Hs in M1; by destruct M1).
  assert (Hreg : forall e, in_snapshot (build (entries st) (order st)) e ->
    exists en, entries st !! e = Some en /\ reclaimable en = false).
  { intros e (_ & en & He & Hr)%build_in. exists en. split; [done|].
    destruct (M9 e en He) as (ret & _ & _ & _ & Hc). destruct (reclaimable en); [|done].
    destruct (Hc eq_refl). congruence. }
  apply (writer_inv st); cbn [entries order snapshots current with_entries with_snapshots]; [done|constructor|].
  - rewrite lookup_insert_eq. by eexists.
  - intros s' sn [[-> _]|[_ Hs']]%lookup_insert_Some; [by left|right]. exists 0%nat.
    by rewrite (Hcur s' sn Hs').
  - intros s' k [= <- <-]. split; [|done]. by rewrite lookup_insert_ne.
  - intros s' sn e [[-> <-]|[_ Hs']]%lookup_insert_Some Hin; split; try done.
    + destruct (Hreg e Hin) as (en & -> & _). done.
    + by apply (M4 s' sn e).
  - done.
  - done.
  - done.
  - intros _ sn e en Hsn Hin He. rewrite lookup_insert_eq in Hsn. injection Hsn as <-.
    destruct (Hreg e Hin) as (en' & He' & ?). congruence.
  - intros e en He. eapply entry_ok_writer; [by apply M9|]. by rewrite Hw.
  - done.
  - intros i t Hi. destruct (inv_phase _ HI i t Hi) as [P1 P2 P3 P4]. constructor; [done|done|..].
    + intros k s' Hk Hp. right. exists 0%nat.
      destruct (P3 k s' Hk Hp) as [->|(j & Hj & _)]; [split; [done|lia]|congruence].
    + intros s' e Hf. destruct (P4 s' e Hf) as (sn & Hsn & Hin). exists sn.
      rewrite lookup_insert_ne by congruence. done.
Qed.

Lemma take_last {A} (l : list A) x : last l = Some x -> l = take (length l - 1) l ++ [x].
Proof.
  intros [l' ->]%last_Some. rewrite length_app. cbn [length].
  replace (length l' + 1 - 1)%nat with (length l') by lia. by rewrite take_app_length.
Qed.

Lemma register_fails_inv st e :
  Inv st -> writer st = WPublish (Some e) ->
  Inv (with_writer WNone (with_entries (delete e (entries st)) (take (length (order st) - 1) (order st)) st)).
Proof.
  intros HI Hw. destruct (inv_mem _ HI) as [M1 M2 M3 M4 M5 M6 M7 M8 M9 M10].
  destruct (M7 e Hw) as [Hlast Hhold]. apply take_last in Hlast.
  set (os := take _ (order st)) in *. assert (NoDup (os ++ [e])) as (N1 & N2 & _)%NoDup_app by (rewrite <- Hlast; exact M6).
  apply (writer_inv st); cbn [entries order snapshots current with_entries with_snapshots]; [done|constructor|].
  - done.
  - intros s sn Hs. left. destruct (M2 s sn Hs) as [?|[j Hj]]; [done|congruence].
  - done.
  - intros s sn x Hs Hin. destruct (M4 s sn x Hs Hin) as [Hsome Hne]. split; [|done].
    rewrite lookup_delete_ne by congruence. done.
  - intros x. assert (is_Some (entries st !! x) <-> x ∈ os \/ x = e) as M5'
      by (rewrite M5, <- list_elem_of_singleton, <- elem_of_app, <- Hlast; done).
    destruct (decide (x = e)) as [->|Hne].
    + rewrite lookup_delete_eq. split; [by intros []|]. intros Hx. exfalso. by apply (N2 e Hx), list_elem_of_singleton.
    + rewrite lookup_delete_ne by done. rewrite M5'. split; [by intros [?|?]|by left].
  - done.
  - done.
  - done.
  - intros x en [Hne Hx]%lookup_delete_Some. eapply entry_ok_writer; [by apply M9|]. by rewrite Hw.
  - intros x [->|Hx]%lookup_delete_None; [done|by apply M10].
  - intros i t Hi. eapply phase_ok_writer; [by apply (inv_phase _ HI i)|]. by rewrite Hw.
Qed.

Lemma scan_next_inv st s k h :
  Inv st -> writer st = WWait s k -> hazards st !! k = Some h -> h <> Some s ->
  Inv (with_writer (WWait s (S k)) st).
Proof.
  intros HI Hw Hk Hh. destruct (inv_mem _ HI) as [M1 M2 M3 M4 M5 M6 M7 M8 M9 M10].
  destruct (M3 s k Hw) as [Hs Hne].
  apply (writer_inv st); [done|constructor; try done|].
  - intros s' sn Hs'. destruct (M2 s' sn Hs') as [?|[j Hj]]; [by left|right].
    exists (S k). congruence.
  - intros s' k' [= <- <-]. done.
  - intros s' sn e Hs' Hin. split; [by apply (M4 s' sn e)|done].
  - intros _. apply M8. by rewrite Hw.
  - intros e en He. eapply entry_ok_writer; [by apply M9|]. by rewrite Hw.
  - intros i t Hi. destruct (inv_phase _ HI i t Hi) as [P1 P2 P3 P4]. constructor; try done.
    intros k' s' Hk' Hp. destruct (P3 k' s' Hk' Hp) as [->|(j & Hj & Hle)]; [by left|right].
    rewrite Hw in Hj. injection Hj as <- <-. exists (S k). split; [done|].
    destruct (decide (k' = k)) as [->|]; [|lia].
    assert (stored_of (phase t) = Some s) as Hst by (destruct (phase t); cbn in *; congruence).
    pose proof (P2 k s Hk' Hst). congruence.
Qed.

Lemma scan_done_inv st s k :
  Inv st -> writer st = WWait s k -> hazards st !! k = None ->
  Inv (with_writer WErase (with_snapshots (delete s (snapshots st)) (current st) st)).
Proof.
  intros HI Hw Hk. destruct (inv_mem _ HI) as [M1 M2 M3 M4 M5 M6 M7 M8 M9 M10].
  destruct (M3 s k Hw) as [Hs Hne]. apply lookup_ge_None in Hk.
  assert (Hprot : forall i t s', threads st !! i = Some t -> protected_of (phase t) = Some s' -> s' = current st).
  { intros i t s' Hi Hp. assert (exists k', slot_of (phase t) = Some k') as [k' Hk']
      by (destruct (phase t); try done; by eexists).
    destruct (p_protected _ _ _ _ _ _ (inv_phase _ HI i t Hi) k' s' Hk' Hp) as [?|(j & Hj & Hle)]; [done|].
    rewrite Hw in Hj. injection Hj as <- <-. destruct (hazard_in_range st i t k' HI Hi Hk'). lia. }
  apply (writer_inv st); cbn [entries order snapshots current with_entries with_snapshots]; [done|constructor; try done|].
  - by rewrite lookup_delete_ne.
  - intros s' sn [Hne' Hs']%lookup_delete_Some. left. destruct (M2 s' sn Hs') as [?|[j Hj]]; [done|congruence].
  - intros s' sn e [_ Hs']%lookup_delete_Some Hin. split; [by apply (M4 s' sn e)|done].
  - intros _ sn e en Hsn. rewrite lookup_delete_ne in Hsn by done. apply M8; [by rewrite Hw|done].
  - intros e en He. eapply entry_ok_writer; [by apply M9|]. by rewrite Hw.
  - intros i t Hi. destruct (inv_phase _ HI i t Hi) as [P1 P2 P3 P4]. constructor; try done.
    + intros k' s' _ Hp. left. by eapply Hprot.
    + intros s' e Hf. destruct (P4 s' e Hf) as (sn & Hsn & Hin). exists sn. split; [|done].
      rewrite lookup_delete_ne; [done|]. intros E. apply Hne. rewrite E. eapply Hprot; [exact Hi|].
      destruct (phase t); cbn in *; congruence.
Qed.

Lemma erase_inv st :
  Inv st -> writer st = WErase ->
  Inv (with_writer WNone
    (with_entries (filter (fun '(_, en) => reclaimable en = false) (entries st))
       (filter (fun e => from_option (fun en => negb (reclaimable en)) false (entries st !! e) = true) (order st)) st)).
Proof.
  intros HI Hw. destruct (inv_mem _ HI) as [M1 M2 M3 M4 M5 M6 M7 M8 M9 M10].
  assert (Hcur : forall s' sn, snapshots st !! s' = Some sn -> s' = current st).
  { intros s' sn Hs'. destruct (M2 s' sn Hs') as [?|[k Hk]]; [done|congruence]. }
  apply (writer_inv st); cbn [entries order snapshots current with_entries with_snapshots]; [done|constructor; try done|].
  - intros s sn Hs. left. by apply (Hcur s sn).
  - intros s sn e Hs Hin. split; [|done]. destruct (M4 s sn e Hs Hin) as [[en He] _]. exists en.
    apply map_lookup_filter_Some. split; [done|]. rewrite (Hcur s sn Hs) in Hs. by apply (M8 ltac:(by rewrite Hw) sn e).
  - intros e. rewrite list_elem_of_filter, <- M5. split.
    + intros [en [He Hr]%map_lookup_filter_Some]. rewrite He. cbn in *. by rewrite Hr.
    + intros [Hr [en He]]. exists en. apply map_lookup_filter_Some. split; [done|].
      rewrite He in Hr. cbn in Hr. by apply negb_true_iff in Hr.
  - by apply NoDup_filter.
  - intros e en [He _]%map_lookup_filter_Some. eapply entry_ok_writer; [by apply M9|]. by rewrite Hw.
  - intros e He. destruct (entries st !! e) as [en|] eqn:E; [|by apply M10].
    apply map_lookup_filter_None in He as [He|He]; [congruence|]. specialize (He en E).
    destruct (M9 e en E) as (r & _ & _ & _ & Hc). apply Hc. destruct (reclaimable en); [done|]. by destruct He.
  - intros i t Hi. eapply phase_ok_writer; [by apply (inv_phase _ HI i)|]. by rewrite Hw.
Qed.

Lemma idle_writer_inv st w : Inv st -> quiet (writer st) = true -> quiet w = true ->
  (forall e, writer st <> WRetire e) -> Inv (with_writer w st).
Proof.
  intros HI Hq Hq' Hr. pose proof (quiet_inv st (entries st) w HI Hq Hq') as Hinv.
  destruct st. apply Hinv; [done|]. intros e en He. cbn in *.
  eapply entry_ok_writer; [by apply (m_entry _ _ _ _ _ _ (inv_mem _ HI))|]. intros E. by apply Hr in E.
Qed.

Lemma registry_write_inv a st st' : write a st = Some st' -> Inv st -> Inv st'.
Proof.
  intros H HI. unfold write in H. destruct a as [o k e|o k| |o k| |s| | |], (writer st) as [|e'|o' k' n|[e'|]|s' n|] eqn:Hw; try done.
  - destruct (existsb _ _); [by injection H as <-|]. destruct (entries st !! e) eqn:He; [done|]. injection H as <-.
    by apply register_inv.
  - destruct (list_find _ _) as [[n e]|]; [|by injection H as <-]. destruct (entries st !! e) as [en|] eqn:He; [|done].
    destruct (registered en) eqn:Hr; injection H as <-; [by apply unregister_inv|done].
  - destruct (entries st !! e') as [en|] eqn:He; [|done]. injection H as <-. by apply retire_gate_inv.
  - injection H as <-. apply idle_writer_inv; [done|by rewrite Hw|done|by rewrite Hw].
  - destruct (order st !! n) as [e|]; injection H as <-; [by apply mark_inv|].
    apply idle_writer_inv; [done|by rewrite Hw|done|by rewrite Hw].
  - destruct (snapshots st !! s) eqn:Hs; [done|]. injection H as <-. by eapply exchange_inv.
  - destruct (snapshots st !! s) eqn:Hs; [done|]. injection H as <-. by eapply exchange_inv.
  - injection H as <-. by apply register_fails_inv.
  - injection H as <-. apply idle_writer_inv; [done|by rewrite Hw|done|by rewrite Hw].
  - destruct (hazards st !! n) as [h|] eqn:Hh.
    + case_bool_decide; [done|]. injection H as <-. by eapply scan_next_inv.
    + injection H as <-. by eapply scan_done_inv.
  - injection H as <-. by apply erase_inv.
Qed.

Lemma registry_initial_inv slot_count thread_count : Inv (initial slot_count thread_count).
Proof.
  assert (Hno : forall s sn, ({[0%nat := build ∅ []]} : gmap nat Snapshot) !! s = Some sn ->
    s = 0%nat /\ forall e, ~ in_snapshot sn e).
  { intros s sn [<- <-]%lookup_singleton_Some. split; [done|]. intros e [? _]%build_in. set_solver. }
  assert (Hth : forall i t, replicate thread_count (mkThread NoSlot [] []) !! i = Some t -> t = mkThread NoSlot [] [])
    by (intros i t [? _]%lookup_replicate; done).
  constructor; cbn [initial entries order snapshots current writer threads hazards claimed bad_access].
  - constructor; try done.
    + intros s sn [-> _]%Hno. by left.
    + intros s sn e [_ Hs]%Hno Hin. by apply Hs in Hin.
    + intros e. split; [by intros []|]. intros He. set_solver.
    + apply NoDup_nil_2.
    + intros e _. clear. induction thread_count as [|n IH]; [done|exact IH].
  - intros i t ->%Hth. by constructor.
  - intros i j t u k ->%Hth. done.
  - by rewrite !length_replicate.
  - done.
Qed.

Lemma registry_reachable_inv slot_count thread_count st : reachable slot_count thread_count st -> Inv st.
Proof.
  intros Hr. apply rtc_ind_r with (P := Inv) in Hr; [done|apply registry_initial_inv|].
  intros y z _ [[i a|a] Ha] Hy; [by eapply registry_read_inv|by eapply registry_write_inv].
Qed.

Lemma registry_run_reachable slot_count thread_count schedule :
  reachable slot_count thread_count (run schedule (initial slot_count thread_count)).
Proof.
  enough (forall st, reachable slot_count thread_count st -> reachable slot_count thread_count (run schedule st)) as H
    by (apply H, rtc_refl).
  induction schedule as [|a sch IH]; intros st Hr; [done|]. cbn. apply IH.
  destruct (act a st) as [st'|] eqn:E; [|done]. eapply rtc_r; [exact Hr|]. by exists a.
Qed.

(** C3: for any number of threads and hazard slots and any interleaving of lookups,
    operations, registrations, retirements and reclamations, with addresses reused
    by the allocator: no lookup, no [TryEnter] and no decrement of a [Leave] ever
    touches a freed snapshot or entry; an entry with an operation inside is alive
    and not up for reclamation; the count in a gate is the number of operations
    inside, so [HasActiveOperations] is exact; between two writers every entry that
    was retired refuses new operations and only the current snapshot is left. *)
Theorem registry_memory_safe slot_count thread_count st :
  reachable slot_count thread_count st ->
  bad_access st = false /\
  (forall i t e, threads st !! i = Some t -> e ∈ held t ->
     exists en, entries st !! e = Some en /\ reclaimable en = false) /\
  (forall e en, entries st !! e = Some en -> gate en .& Gate.kActiveMask = Z.of_nat (holders e (threads st))) /\
  (writer st = WNone ->
     (forall e en, entries st !! e = Some en -> registered en = false -> Gate.refuses (gate en) = true) /\
     (forall s sn, snapshots st !! s = Some sn -> s = current st)).
Proof.
  intros HI%registry_reachable_inv. pose proof (m_entry _ _ _ _ _ _ (inv_mem _ HI)) as HE.
  assert (Hbits : forall e en, entries st !! e = Some en -> exists r, (r = false -> registered en = true \/ writer st = WRetire e) /\
    gate en .& Gate.kActiveMask = Z.of_nat (holders e (threads st)) /\ (gate en .& Gate.kRetiring =? 0) = negb r).
  { intros e en He. destruct (HE e en He) as (r & Hg & Hn & Hr & _). exists r.
    pose proof (Gate.bits_of_word (Z.of_nat (holders e (threads st))) r ltac:(lia)) as (B1 & B2 & _).
    rewrite <- Hg in B1, B2. split; [|done]. intros ->. destruct (registered en); [by left|right].
    by destruct (Hr eq_refl). }
  split; [apply (inv_ok _ HI)|]. split; [|split; [|intros Hw; split]].
  - intros i t e Hi He. destruct (held_alive st i t e HI Hi He) as [en Hen]. exists en. split; [done|].
    destruct (reclaimable en) eqn:Er; [|done]. pose proof (holders_held e _ _ _ Hi He).
    destruct (HE e en Hen) as (r & _ & _ & _ & Hc). destruct (Hc Er) as (_ & _ & ?). lia.
  - intros e en He. by destruct (Hbits e en He) as (r & _ & ? & _).
  - intros e en He Hreg. destruct (Hbits e en He) as (r & Hr & _ & Hret). unfold Gate.refuses.
    rewrite Hret, negb_involutive. destruct r; [done|]. destruct (Hr eq_refl); congruence.
  - intros s sn Hs. destruct (m_alive _ _ _ _ _ _ (inv_mem _ HI) s sn Hs) as [?|[k Hk]]; [done|congruence].
Qed.

(** One object is registered, entered, retired and, once left, reclaimed. *)
Definition enter_schedule : list Action :=
  [AWriter (WRegister 4096 2 0); AWriter (WExchange 1); AWriter WScan; AWriter WScan; AWriter WScan;
   AWriter WEraseEntries;
   AReader 0 (RClaim 1); AReader 0 RLoad; AReader 0 RStore; AReader 0 RRecheck;
   AReader 0 (RFind 4096 2); AReader 0 RRegistered; AReader 0 REnter]%nat.
Definition retire_schedule : list Action := [AWriter (WStartRetire 4096 2); AWriter WRetireGate].
Definition reclaim_schedule (address : nat) : list Action :=
  [AWriter (WReclaim 4096 2); AWriter WMarkNext; AWriter WMarkNext; AWriter (WExchange address);
   AWriter WScan; AWriter WScan; AWriter WScan; AWriter WEraseEntries].

(** While thread 0 is inside, reclaiming does nothing; after it has left, the
    entry goes. *)
Example reclaim_waits_for_leave :
  let st := run (enter_schedule ++ retire_schedule ++ AReader 0 RClear :: reclaim_schedule 0) (initial 2 1) in
  order st = [0%nat] /\
  order (run (AReader 0 (RLeave 0) :: AReader 0 (RNotify 0) :: reclaim_schedule 1) st) = [].
Proof. split; vm_compute; reflexivity. Qed.

(** A [Leave] that is the last one out of a retired gate still has to notify: if
    the entry is reclaimed before it does, it touches freed memory. *)
Example leave_outlives_entry :
  bad_notify (run (enter_schedule ++ retire_schedule ++ AReader 0 RClear :: AReader 0 (RLeave 0) ::
    reclaim_schedule 0 ++ [AReader 0 (RNotify 0)]) (initial 2 1)) = true.
Proof. vm_compute. reflexivity. Qed.

Lemma registry_memory_safe_witness :
  reachable 2 1 (run (enter_schedule ++ retire_schedule) (initial 2 1)) /\
  bad_access (run (enter_schedule ++ retire_schedule) (initial 2 1)) = false.
Proof.
  split; [apply registry_run_reachable|].
  exact (proj1 (registry_memory_safe 2 1 _ (registry_run_reachable 2 1 (enter_schedule ++ retire_schedule)))).
Defined.
