(* ===== verification/DriverManager.v ===== *)
(** * DriverManager: the tables of EncosDriverManager (src/driver_manager*.cc)

    Which adapters, buses and devices are registered, the receive routes of each
    adapter (src/adapter_route_domain.h), the reservations of motor indexes and
    the status callbacks.  Every definition is one critical section of the code,
    run under [object_mutex], [route_mutex] and the domain's mutex; how they
    interleave is [ManagerLifetime].  Objects are known by their addresses, a
    [shared_ptr<RouteRecord>] by its number in the heap [records], and a
    [std::function] given by the user by a number.  Hooks for tests and failing
    allocations are left out. *)
From stdpp Require Import base list numbers option gmap.
From Stdlib Require Import ZArith Lia.
From S2P Require Import Prelude Types.
#[local] Open Scope Z_scope.
#[local] Open Scope cint_scope.

(** ** Keys *)

Inductive DeviceKind :=
  | KMotor | KBattery | KImu | KPms | KGloveEncoder | KGloveCalibrator | KExternal.
#[export] Instance DeviceKind_eq_dec : EqDecision DeviceKind.
Proof. solve_decision. Defined.
#[export] Instance DeviceKind_countable : Countable DeviceKind.
Proof.
  refine (inj_countable'
    (fun k => match k with KMotor => 0 | KBattery => 1 | KImu => 2 | KPms => 3 | KGloveEncoder => 4
                         | KGloveCalibrator => 5 | KExternal => 6 end)
    (fun z => if z =? 0 then KMotor else if z =? 1 then KBattery else if z =? 2 then KImu
              else if z =? 3 then KPms else if z =? 4 then KGloveEncoder
              else if z =? 5 then KGloveCalibrator else KExternal) _).
  by intros [].
Defined.

Record BusKey := mkBusKey { bk_adapter : nat; bk_raw_idx : Z }.
#[export] Instance BusKey_eq_dec : EqDecision BusKey.
Proof. solve_decision. Defined.
#[export] Instance BusKey_countable : Countable BusKey.
Proof.
  refine (inj_countable' (fun k => (bk_adapter k, bk_raw_idx k)) (fun p => mkBusKey p.1 p.2) _).
  by intros [].
Defined.

Record DeviceKey := mkDeviceKey {
  dk_bus : nat;
  dk_kind : DeviceKind;
  dk_idx : Z;
  dk_type_token : nat;
  dk_config_token : nat
}.
#[export] Instance DeviceKey_eq_dec : EqDecision DeviceKey.
Proof. solve_decision. Defined.
#[export] Instance DeviceKey_countable : Countable DeviceKey.
Proof.
  refine (inj_countable'
    (fun k => (dk_bus k, dk_kind k, dk_idx k, dk_type_token k, dk_config_token k))
    (fun '(b, kd, i, t, c) => mkDeviceKey b kd i t c) _).
  by intros [].
Defined.
(** [{bus, DeviceKind::Motor, idx}]; the tokens are null. *)
Definition motor_key (bus : nat) (idx : Z) : DeviceKey := mkDeviceKey bus KMotor idx 0 0.

Record RouteKey := mkRouteKey { rk_adapter : nat; rk_unique_id : Z }.
#[export] Instance RouteKey_eq_dec : EqDecision RouteKey.
Proof. solve_decision. Defined.
#[export] Instance RouteKey_countable : Countable RouteKey.
Proof.
  refine (inj_countable' (fun k => (rk_adapter k, rk_unique_id k)) (fun p => mkRouteKey p.1 p.2) _).
  by intros [].
Defined.

Definition MakeReceiveUniqueId (raw_bus_idx can_id : Z) : Z := (u32 raw_bus_idx ≪ 32) .| can_id.
Definition kDeviceClaimBusRouteId : Z := UINT32_MAX.

(** The route of CAN id [id] on a bus. *)
Definition route_of (bk : BusKey) (id : Z) : RouteKey :=
  mkRouteKey (bk_adapter bk) (MakeReceiveUniqueId (bk_raw_idx bk) (u32 id)).

(** ** State *)

Record RouteRecord := mkRecord {
  rr_device : nat;
  rr_bus : nat;
  rr_adapter : nat;
  rr_callback : bool;    (* is [callback] set *)
  rr_in_flight : nat;
  rr_retiring : bool
}.
Record RouteEntry := mkEntry { re_key : RouteKey; re_record : nat; re_claim : bool }.
Record DeviceRegistration := mkRegistration {
  rg_adapter : nat;
  rg_bus : nat;
  rg_routes : list RouteEntry;
  rg_cancel_waiters : bool
}.
Record MotorIndexReservation := mkReservation {
  rv_motor : nat;
  rv_callback : option nat;
  rv_install_callback : bool
}.
Record StatusConfig := mkConfig {
  max_life_cycle : Z;
  median_window_size : nat;
  limit_max_deltas : MotorStatus
}.

Record Objects := mkObjects {
  adapter_names : gset nat;
  buses : gmap BusKey nat;
  bus_keys : gmap nat BusKey;
  devices : gmap DeviceKey nat;
  device_keys : gmap nat DeviceKey;
  pending_devices : gset DeviceKey;
  deleting : gset nat;
  resetting_buses : gset nat
}.
Record Routing := mkRouting {
  routes : gmap RouteKey nat;        (* every domain's [routes] *)
  claim_routes : gmap BusKey nat;    (* every domain's [claim_routes] *)
  domain_buses : gmap BusKey nat;    (* every domain's [buses] *)
  records : gmap nat RouteRecord;    (* the heap *)
  next_record : nat;
  registrations : gmap nat DeviceRegistration;
  motor_route_reservations : gmap RouteKey nat
}.
Record Statuses := mkStatuses {
  motor_index_reservations : gmap DeviceKey MotorIndexReservation;
  status_callbacks : gmap RouteKey nat;
  adapter_status_configs : gmap nat StatusConfig;
  on_status : gmap nat nat           (* [on_status] of the motors that have one *)
}.
Record Manager := mkManager { objects : Objects; routing : Routing; statuses : Statuses }.

Definition set_objects (o : Objects) (m : Manager) : Manager := mkManager o (routing m) (statuses m).
Definition set_routing (r : Routing) (m : Manager) : Manager := mkManager (objects m) r (statuses m).
Definition set_statuses (s : Statuses) (m : Manager) : Manager := mkManager (objects m) (routing m) s.

Definition empty_objects : Objects := mkObjects ∅ ∅ ∅ ∅ ∅ ∅ ∅ ∅.
Definition empty_routing : Routing := mkRouting ∅ ∅ ∅ ∅ 0 ∅ ∅.
Definition empty_statuses : Statuses := mkStatuses ∅ ∅ ∅ ∅.
Definition new_manager : Manager := mkManager empty_objects empty_routing empty_statuses.

Definition set_routes (x : gmap RouteKey nat) (r : Routing) : Routing :=
  mkRouting x (claim_routes r) (domain_buses r) (records r) (next_record r) (registrations r)
    (motor_route_reservations r).
Definition set_claim_routes (x : gmap BusKey nat) (r : Routing) : Routing :=
  mkRouting (routes r) x (domain_buses r) (records r) (next_record r) (registrations r)
    (motor_route_reservations r).
Definition set_records (x : gmap nat RouteRecord) (r : Routing) : Routing :=
  mkRouting (routes r) (claim_routes r) (domain_buses r) x (next_record r) (registrations r)
    (motor_route_reservations r).
Definition set_registrations (x : gmap nat DeviceRegistration) (r : Routing) : Routing :=
  mkRouting (routes r) (claim_routes r) (domain_buses r) (records r) (next_record r) x
    (motor_route_reservations r).
Definition set_route_reservations (x : gmap RouteKey nat) (r : Routing) : Routing :=
  mkRouting (routes r) (claim_routes r) (domain_buses r) (records r) (next_record r) (registrations r) x.

Definition set_devices (ds : gmap DeviceKey nat) (dks : gmap nat DeviceKey) (o : Objects) : Objects :=
  mkObjects (adapter_names o) (buses o) (bus_keys o) ds dks (pending_devices o) (deleting o) (resetting_buses o).
Definition set_index_reservations (x : gmap DeviceKey MotorIndexReservation) (s : Statuses) : Statuses :=
  mkStatuses x (status_callbacks s) (adapter_status_configs s) (on_status s).
Definition set_status_callbacks (x : gmap RouteKey nat) (s : Statuses) : Statuses :=
  mkStatuses (motor_index_reservations s) x (adapter_status_configs s) (on_status s).
Definition set_on_status (x : gmap nat nat) (s : Statuses) : Statuses :=
  mkStatuses (motor_index_reservations s) (status_callbacks s) (adapter_status_configs s) x.

Definition with_callback (rr : RouteRecord) : RouteRecord :=
  mkRecord (rr_device rr) (rr_bus rr) (rr_adapter rr) true (rr_in_flight rr) (rr_retiring rr).
Definition retire (rr : RouteRecord) : RouteRecord :=
  mkRecord (rr_device rr) (rr_bus rr) (rr_adapter rr) (rr_callback rr) (rr_in_flight rr) true.
Definition enter (rr : RouteRecord) : RouteRecord :=
  mkRecord (rr_device rr) (rr_bus rr) (rr_adapter rr) (rr_callback rr) (S (rr_in_flight rr)) (rr_retiring rr).
Definition leave (rr : RouteRecord) : RouteRecord :=
  mkRecord (rr_device rr) (rr_bus rr) (rr_adapter rr) (rr_callback rr) (pred (rr_in_flight rr)) (rr_retiring rr).

(** ** Publishing and detaching the routes of a device *)

(** The part of [DeviceRecipe] and [DeviceRoute] that the tables depend on. *)
Record Recipe := mkRecipe {
  rc_can_ids : list Z;      (* uint32_t *)
  rc_claims_bus : bool;
  rc_callback : bool;       (* [binding.callback] is set *)
  rc_cancel_waiters : bool
}.

(** The loop over [can_ids]: the entries and records to publish, or [None] when a
    route is taken, reserved or named twice. *)
Fixpoint PrepareRoutes (device bus : nat) (bk : BusKey) (rc : Recipe) (r : Routing)
    (can_ids : list Z) (prepared : list RouteEntry) : option (list RouteEntry) :=
  match can_ids with
  | [] => Some prepared
  | can_id :: rest =>
      let key := route_of bk can_id in
      if bool_decide (is_Some (routes r !! key)) || bool_decide (is_Some (motor_route_reservations r !! key)) ||
         existsb (fun e => bool_decide (re_key e = key)) prepared
      then None
      else PrepareRoutes device bus bk rc r rest
             (prepared ++ [mkEntry key (next_record r + length prepared) false])
  end.

Definition new_record (device bus adapter : nat) (rc : Recipe) : RouteRecord :=
  mkRecord device bus adapter (rc_callback rc) 0 false.

(** [map.emplace(key, value)] for every element. *)
Definition insert_all {K A B} `{Countable K} (kf : B -> K) (vf : B -> A) (l : list B) (t : gmap K A) : gmap K A :=
  fold_left (fun t e => <[kf e := vf e]> t) l t.

(** [registrations.emplace] with the records of the entries. *)
Definition register (device bus : nat) (bk : BusKey) (rc : Recipe) (entries : list RouteEntry) (r : Routing) : Routing :=
  let rec := new_record device bus (bk_adapter bk) rc in
  mkRouting (routes r) (claim_routes r) (domain_buses r)
    (insert_all re_record (fun _ => rec) entries (records r)) (next_record r + length entries)
    (<[device := mkRegistration (bk_adapter bk) bus entries (rc_cancel_waiters rc)]> (registrations r))
    (motor_route_reservations r).

(** [None] is the exception of [bus_keys.at(bus)]. *)
Definition PublishRoutesLocked (device bus : nat) (rc : Recipe) (m : Manager) : option (bool * Manager) :=
  match bus_keys (objects m) !! bus with
  | None => None
  | Some bk =>
      let r := routing m in
      if rc_claims_bus rc then
        if bool_decide (is_Some (claim_routes r !! bk)) || bool_decide (is_Some (registrations r !! device))
        then Some (false, m)
        else
          let entry := mkEntry (route_of bk kDeviceClaimBusRouteId) (next_record r) true in
          Some (true, set_routing (set_claim_routes (<[bk := re_record entry]> (claim_routes r))
                                    (register device bus bk rc [entry] r)) m)
      else
        match PrepareRoutes device bus bk rc r (rc_can_ids rc) [] with
        | None => Some (false, m)
        | Some entries =>
            if bool_decide (is_Some (registrations r !! device)) then Some (false, m)
            else Some (true, set_routing (set_routes (insert_all re_key re_record entries (routes r))
                                            (register device bus bk rc entries r)) m)
        end
  end.

Definition detach_entry (r : Routing) (e : RouteEntry) : Routing :=
  let r := set_records (alter retire (re_record e) (records r)) r in
  if re_claim e then
    let bk := mkBusKey (rk_adapter (re_key e)) (i32 (u32 (rk_unique_id (re_key e) ≫ 32))) in
    if bool_decide (claim_routes r !! bk = Some (re_record e))
    then set_claim_routes (delete bk (claim_routes r)) r else r
  else if bool_decide (routes r !! re_key e = Some (re_record e))
  then set_routes (delete (re_key e) (routes r)) r else r.

(** Also returns the entries that were detached. *)
Definition DetachRegistrationLocked (device : nat) (m : Manager) : list RouteEntry * Manager :=
  let r := routing m in
  match registrations r !! device with
  | None => ([], m)
  | Some reg =>
      (rg_routes reg,
       set_routing (fold_left detach_entry (rg_routes reg)
         (set_registrations (delete device (registrations r)) r)) m)
  end.

(** The checks of [RegisterReceiveRoutes] on one entry. *)
Definition can_activate (adapter : nat) (can_ids : list Z) (r : Routing) (e : RouteEntry) : bool :=
  bool_decide (rk_adapter (re_key e) = adapter) && bool_decide (u32 (rk_unique_id (re_key e)) ∈ can_ids) &&
  bool_decide (routes r !! re_key e = Some (re_record e)) &&
  match records r !! re_record e with
  | Some rr => negb (rr_retiring rr) && negb (rr_callback rr)
  | None => false
  end.

Definition RegisterReceiveRoutes (device adapter bus : nat) (can_ids : list Z) (cancel_waiters : bool)
    (m : Manager) : bool * Manager :=
  let o := objects m in let r := routing m in
  match device_keys o !! device, bus_keys o !! bus, registrations r !! device with
  | Some dk, Some bk, Some reg =>
      if bool_decide (can_ids <> []) && bool_decide (dk_bus dk = bus) && bool_decide (bk_adapter bk = adapter) &&
         bool_decide (device ∉ deleting o) && bool_decide (bus ∉ deleting o) &&
         bool_decide (adapter ∉ deleting o) &&
         bool_decide (length (rg_routes reg) = length can_ids) &&
         forallb (can_activate adapter can_ids r) (rg_routes reg)
      then
        (true, set_routing
           (set_registrations
              (<[device := mkRegistration (rg_adapter reg) (rg_bus reg) (rg_routes reg) cancel_waiters]> (registrations r))
              (set_records (fold_left (fun h e => alter with_callback (re_record e) h) (rg_routes reg) (records r)) r)) m)
      else (false, m)
  | _, _, _ => (false, m)
  end.

(** ** Dispatch *)

Definition is_ready (rr : RouteRecord) : bool := negb (rr_retiring rr) && rr_callback rr.

(** The record, if a frame may be delivered to it now. *)
Definition ready_record (r : Routing) (n : nat) : option nat :=
  match records r !! n with
  | Some rr => if is_ready rr then Some n else None
  | None => None
  end.

Definition enter_route (n : nat) (r : Routing) : Routing := set_records (alter enter n (records r)) r.
Definition leave_route (n : nat) (r : Routing) : Routing := set_records (alter leave n (records r)) r.

(** The critical section of [DeliverToClaimRoute]. *)
Definition claim_target (bk : BusKey) (r : Routing) : option nat :=
  match claim_routes r !! bk with
  | Some n => ready_record r n
  | None => None
  end.

(** The critical section for the id 0x7FF: the ready routes of the bus, in the
    order of the map, which the code leaves unspecified. *)
Definition system_targets (bk : BusKey) (r : Routing) : list nat :=
  omap (fun '(key, n) =>
    if bool_decide (rk_adapter key = bk_adapter bk) &&
       (u32 (rk_unique_id key ≫ 32) =? u32 (bk_raw_idx bk))
    then ready_record r n else None) (map_to_list (routes r)).

Definition exact_target (bk : BusKey) (can_id : Z) (r : Routing) : option nat :=
  match routes r !! route_of bk can_id with
  | Some n => ready_record r n
  | None => None
  end.

Definition device_of (r : Routing) (n : nat) : option nat := rr_device <$> records r !! n.

(** The callbacks of entered routes run one after the other, each followed by its
    [--in_flight]; [call] lists the devices called. *)
Fixpoint call_routes (targets : list nat) (r : Routing) : list nat * Routing :=
  match targets with
  | [] => ([], r)
  | n :: rest =>
      let (called, r') := call_routes rest (leave_route n r) in
      (match device_of r n with Some d => d :: called | None => called end, r')
  end.

Definition deliver (targets : list nat) (r : Routing) : list nat * Routing :=
  call_routes targets (fold_left (fun r n => enter_route n r) targets r).

Definition DeliverToClaimRoute (bk : BusKey) (r : Routing) : list nat * Routing :=
  deliver (match claim_target bk r with Some n => [n] | None => [] end) r.

(** Whether the frame was routed, the devices called in order, the tables after. *)
Definition DispatchReceive (bk : BusKey) (message : MotorPackMsg) (r : Routing) : bool * list nat * Routing :=
  if id message =? 2047 then
    let (called, r) := deliver (system_targets bk r) r in
    let (claimed, r) := DeliverToClaimRoute bk r in
    (false, called ++ claimed, r)
  else
    match exact_target bk (id message) r with
    | None => let (claimed, r) := DeliverToClaimRoute bk r in (false, claimed, r)
    | Some n => let (called, r) := deliver [n] r in (true, called, r)
    end.

Definition IsBusRegistered (bk : BusKey) (r : Routing) : bool := bool_decide (is_Some (domain_buses r !! bk)).

(** What the loop of [BaseAdapter::Impl::OnMessage] does with a frame. *)
Inductive Received :=
  | ToDevice (device : nat) (message : MotorPackMsg)
  | ToMailbox (bus : nat) (message : MotorPackMsg)   (* [unknown_messages.Push] *)
  | Dropped.                                         (* [unknown_bus_drop_count] *)

Definition DispatchUnknownReceive (bk : BusKey) (message : MotorPackMsg) (r : Routing) : list Received :=
  match domain_buses r !! bk with Some bus => [ToMailbox bus message] | None => [] end.

Definition receive_one (adapter : nat) (msg : MotorMessage) (r : Routing) : list Received * Routing :=
  let bk := mkBusKey adapter (bus_idx msg) in
  if IsBusRegistered bk r then
    let '(routed, called, r) := DispatchReceive bk (mdata msg) r in
    (map (fun d => ToDevice d (mdata msg)) called ++
     (if routed then [] else DispatchUnknownReceive bk (mdata msg) r), r)
  else ([Dropped], r).

Fixpoint OnMessages (adapter : nat) (messages : list MotorMessage) (r : Routing) : list Received * Routing :=
  match messages with
  | [] => ([], r)
  | msg :: rest =>
      let (events, r) := receive_one adapter msg r in
      let (events', r) := OnMessages adapter rest r in (events ++ events', r)
  end.

(** ** Motor indexes *)

(** The status callback to install with a migration. *)
Definition callback_for (target source : option nat) : option nat * bool :=
  match target, source with
  | Some cb, _ => (Some cb, true)
  | None, Some cb => (Some cb, true)
  | None, None => (None, false)
  end.

Definition is_deleting (x : nat) (m : Manager) : bool := bool_decide (x ∈ deleting (objects m)).

Definition ReserveMotorIndex (motor : nat) (new_idx : Z) (m : Manager) : bool * Manager :=
  let o := objects m in let r := routing m in let s := statuses m in
  match device_keys o !! motor with
  | None => (false, m)
  | Some old_key =>
      if negb (bool_decide (dk_kind old_key = KMotor)) || is_deleting motor m then (false, m)
      else
        let new_key := motor_key (dk_bus old_key) new_idx in
        if bool_decide (new_key = old_key) then (true, m)
        else
          match bus_keys o !! dk_bus old_key with
          | None => (false, m)
          | Some bk =>
              let new_route := route_of bk new_idx in
              if is_deleting (dk_bus old_key) m || is_deleting (bk_adapter bk) m ||
                 bool_decide (is_Some (devices o !! new_key)) || bool_decide (new_key ∈ pending_devices o) ||
                 bool_decide (is_Some (routes r !! new_route))
              then (false, m)
              else
                match motor_index_reservations s !! new_key, motor_route_reservations r !! new_route with
                | Some res, _ => (bool_decide (rv_motor res = motor), m)
                | None, Some owner => (bool_decide (owner = motor), m)
                | None, None =>
                    match registrations r !! motor with
                    | Some (mkRegistration _ _ [e] _) =>
                        let (cb, install) := callback_for (status_callbacks s !! new_route) (status_callbacks s !! re_key e) in
                        (true, set_statuses (set_index_reservations
                                 (<[new_key := mkReservation motor cb install]> (motor_index_reservations s)) s)
                               (set_routing (set_route_reservations
                                 (<[new_route := motor]> (motor_route_reservations r)) r) m))
                    | _ => (false, m)
                    end
                end
          end
  end.

Definition ReleaseMotorIndexReservation (motor : nat) (new_idx : Z) (m : Manager) : Manager :=
  let o := objects m in let r := routing m in let s := statuses m in
  match device_keys o !! motor with
  | None => m
  | Some old_key =>
      let new_key := motor_key (dk_bus old_key) new_idx in
      match motor_index_reservations s !! new_key with
      | None => m
      | Some res =>
          if bool_decide (rv_motor res = motor) then
            let r' := match bus_keys o !! dk_bus old_key with
                      | Some bk =>
                          if bool_decide (motor_route_reservations r !! route_of bk new_idx = Some motor)
                          then set_route_reservations (delete (route_of bk new_idx) (motor_route_reservations r)) r
                          else r
                      | None => r
                      end in
            set_statuses (set_index_reservations (delete new_key (motor_index_reservations s)) s) (set_routing r' m)
          else m
      end
  end.

(** [map.extract(old)], the node's key changed to [new], [map.insert]. *)
Definition rekey {K A} `{Countable K} (old new : K) (t : gmap K A) : gmap K A :=
  match t !! old with
  | None => t
  | Some v =>
      let t := delete old t in
      match t !! new with Some _ => t | None => <[new := v]> t end
  end.

(** The tables after the commit of [MigrateMotorIndex]. *)
Definition commit_migration (motor : nat) (old_key new_key : DeviceKey) (old_route new_route : RouteKey)
    (e : RouteEntry) (reg : DeviceRegistration) (cb : option nat) (install : bool)
    (has_reservation has_route_reservation has_target : bool) (m : Manager) : Manager :=
  let o := objects m in let r := routing m in let s := statuses m in
  mkManager
    (set_devices (rekey old_key new_key (devices o)) (<[motor := new_key]> (device_keys o)) o)
    (set_registrations
       (<[motor := mkRegistration (rg_adapter reg) (rg_bus reg) [mkEntry new_route (re_record e) (re_claim e)]
                     (rg_cancel_waiters reg)]> (registrations r))
       (set_route_reservations
          (if has_route_reservation then delete new_route (motor_route_reservations r) else motor_route_reservations r)
          (set_routes (rekey old_route new_route (routes r)) r)))
    (set_index_reservations
       (if has_reservation then delete new_key (motor_index_reservations s) else motor_index_reservations s)
       (set_status_callbacks
          (if has_target then delete old_route (status_callbacks s) else rekey old_route new_route (status_callbacks s))
          (if install then set_on_status (match cb with Some c => <[motor := c]> (on_status s)
                                          | None => delete motor (on_status s) end) s
           else s))).

Definition MigrateMotorIndex (motor : nat) (new_idx : Z) (m : Manager) : bool * Manager :=
  let o := objects m in let r := routing m in let s := statuses m in
  match device_keys o !! motor with
  | None => (false, m)
  | Some old_key =>
      if negb (bool_decide (dk_kind old_key = KMotor)) || is_deleting motor m then (false, m)
      else
        let new_key := motor_key (dk_bus old_key) new_idx in
        if bool_decide (old_key = new_key) then (true, m)
        else
          let res := motor_index_reservations s !! new_key in
          if bool_decide (is_Some (devices o !! new_key)) ||
             match res with Some v => negb (bool_decide (rv_motor v = motor)) | None => false end
          then (false, m)
          else
            match bus_keys o !! dk_bus old_key with
            | None => (false, m)
            | Some bk =>
                if is_deleting (dk_bus old_key) m || is_deleting (bk_adapter bk) m then (false, m)
                else
                  let new_route := route_of bk new_idx in
                  let route_res := motor_route_reservations r !! new_route in
                  if bool_decide (is_Some (routes r !! new_route)) ||
                     match route_res with Some owner => negb (bool_decide (owner = motor)) | None => false end
                  then (false, m)
                  else
                    match registrations r !! motor with
                    | Some (mkRegistration ra rb [e] rc as reg) =>
                        let old_route := re_key e in
                        if bool_decide (is_Some (routes r !! old_route)) then
                          let target := status_callbacks s !! new_route in
                          let (cb, install) :=
                            match res with
                            | Some v => (rv_callback v, rv_install_callback v)
                            | None => callback_for target (status_callbacks s !! old_route)
                            end in
                          (true, commit_migration motor old_key new_key old_route new_route e reg cb install
                                   (bool_decide (is_Some res)) (bool_decide (is_Some route_res))
                                   (bool_decide (is_Some target)) m)
                        else (false, m)
                    | _ => (false, m)
                    end
            end
  end.

(** ** Queries and status configuration *)

Definition bus_usable (bus : nat) (m : Manager) : option BusKey :=
  match bus_keys (objects m) !! bus with
  | Some bk => if is_deleting bus m || is_deleting (bk_adapter bk) m then None else Some bk
  | None => None
  end.

(** A device may be created on [bus]: its parents are registered and not retiring. *)
Definition parent_usable (bus : nat) (m : Manager) : bool :=
  match bus_usable bus m with Some _ => negb (bool_decide (bus ∈ resetting_buses (objects m))) | None => false end.

Definition FindMotor (bus : nat) (idx : Z) (m : Manager) : option nat :=
  match bus_usable bus m, devices (objects m) !! motor_key bus idx with
  | Some _, Some d => if is_deleting d m then None else Some d
  | _, _ => None
  end.

Definition GetMotors (bus : nat) (m : Manager) : list (Z * nat) :=
  match bus_usable bus m with
  | Some _ =>
      omap (fun '(k, d) => if bool_decide (dk_bus k = bus) && bool_decide (dk_kind k = KMotor) && negb (is_deleting d m)
                           then Some (dk_idx k, d) else None) (map_to_list (devices (objects m)))
  | None => []
  end.

Definition HasRegisteredExternalDevice (bus : nat) (m : Manager) : bool :=
  match bus_usable bus m with
  | Some _ => existsb (fun '(k, d) => bool_decide (dk_bus k = bus) && negb (bool_decide (dk_kind k = KMotor)) &&
                                      negb (is_deleting d m)) (map_to_list (devices (objects m)))
  | None => false
  end.

Definition IsBusAlive (bus : nat) (m : Manager) : bool := bool_decide (is_Some (bus_keys (objects m) !! bus)).

Definition adapter_usable (adapter : nat) (m : Manager) : bool :=
  bool_decide (adapter ∈ adapter_names (objects m)) && negb (is_deleting adapter m).

Definition ConfigureAdapterStatusCallback (adapter : nat) (raw_bus_idx idx : Z) (callback : option nat)
    (m : Manager) : Manager :=
  let s := statuses m in let o := objects m in
  if adapter_usable adapter m then
    let key := route_of (mkBusKey adapter raw_bus_idx) idx in
    let s := set_status_callbacks (match callback with Some c => <[key := c]> (status_callbacks s)
                                   | None => delete key (status_callbacks s) end) s in
    set_statuses
      (match buses o !! mkBusKey adapter raw_bus_idx with
       | Some bus =>
           match devices o !! motor_key bus idx with
           | Some motor => set_on_status (match callback with Some c => <[motor := c]> (on_status s)
                                          | None => delete motor (on_status s) end) s
           | None => s
           end
       | None => s
       end) m
  else m.

(** The callback that [ApplyMotorStatusConfigurationLocked] installs. *)
Definition ApplyMotorStatusConfigurationLocked (bus : nat) (idx : Z) (motor : nat) (m : Manager) : Manager :=
  let s := statuses m in
  match bus_keys (objects m) !! bus with
  | Some bk =>
      if adapter_usable (bk_adapter bk) m then
        set_statuses (set_on_status
          (match status_callbacks s !! route_of bk idx with
           | Some c => <[motor := c]> (on_status s) | None => delete motor (on_status s) end) s) m
      else m
  | None => m
  end.

(** [WithCanFdFlag], the flags [ReconcileDiscoveredMotor] gives a motor. *)
Definition WithCanFdFlag (flags : Z) (canfd : bool) : Z :=
  let flags := SanitizeCanFrameFlags flags in
  if canfd then u8 (flags .| kCanFrameFlagFdMask) else u8 (flags .& u8 (Z.lnot kCanFrameFlagFdMask)).

(** ** Registering and erasing objects *)

(** [map.emplace]: an element already there stays. *)
Definition emplace {K A} `{Countable K} (k : K) (v : A) (t : gmap K A) : gmap K A :=
  match t !! k with Some _ => t | None => <[k := v]> t end.

Definition set_pending (x : gset DeviceKey) (o : Objects) : Objects :=
  mkObjects (adapter_names o) (buses o) (bus_keys o) (devices o) (device_keys o) x (deleting o) (resetting_buses o).
Definition set_deleting (x : gset nat) (o : Objects) : Objects :=
  mkObjects (adapter_names o) (buses o) (bus_keys o) (devices o) (device_keys o) (pending_devices o) x (resetting_buses o).
Definition set_buses (bs : gmap BusKey nat) (bks : gmap nat BusKey) (o : Objects) : Objects :=
  mkObjects (adapter_names o) bs bks (devices o) (device_keys o) (pending_devices o) (deleting o) (resetting_buses o).
Definition set_adapters (x : gset nat) (o : Objects) : Objects :=
  mkObjects x (buses o) (bus_keys o) (devices o) (device_keys o) (pending_devices o) (deleting o) (resetting_buses o).
Definition set_domain_buses (x : gmap BusKey nat) (r : Routing) : Routing :=
  mkRouting (routes r) (claim_routes r) x (records r) (next_record r) (registrations r) (motor_route_reservations r).

(** The last critical section of [CreateDevice]. *)
Definition commit_device (key : DeviceKey) (device : nat) (m : Manager) : Manager :=
  let o := objects m in
  set_objects (set_pending (pending_devices o ∖ {[key]})
    (set_devices (emplace key device (devices o)) (emplace device key (device_keys o)) o)) m.

(** [devices.erase(key)], [device_keys.erase(device)]. *)
Definition erase_device (key : DeviceKey) (device : nat) (m : Manager) : Manager :=
  let o := objects m in
  set_objects (set_devices (delete key (devices o)) (delete device (device_keys o)) o) m.

Definition insert_bus (bk : BusKey) (bus : nat) (m : Manager) : Manager :=
  let o := objects m in
  set_routing (set_domain_buses (emplace bk bus (domain_buses (routing m))) (routing m))
    (set_objects (set_buses (emplace bk bus (buses o)) (emplace bus bk (bus_keys o)) o) m).
Definition erase_bus (bk : BusKey) (bus : nat) (m : Manager) : Manager :=
  let o := objects m in set_objects (set_buses (delete bk (buses o)) (delete bus (bus_keys o)) o) m.
