(* ===== verification/ManagerTables.v ===== *)
(** * ManagerTables: the tables of the driver manager stay consistent

    [Tables] relates the maps of [DriverManager] to each other: objects and their
    keys, routes and registrations, reservations of motor indexes and the routes
    they reserve.  Every critical section preserves it. *)
From stdpp Require Import base list numbers option gmap.
From Stdlib Require Import ZArith Lia.
From S2P Require Import Prelude Types.
From S2P Require Import DriverManager.
#[local] Open Scope Z_scope.
#[local] Open Scope cint_scope.

(** ** Route keys *)

(** The range of a C++ [int]. *)
Definition int_ok (z : Z) : Prop := -2147483648 <= z < 2147483648.

Lemma unique_id_eq raw can :
  0 <= can < 4294967296 -> MakeReceiveUniqueId raw can = u32 raw * 4294967296 + can.
Proof.
  intros H. unfold MakeReceiveUniqueId. rewrite lor_shiftl_add by (try done; cbn; lia).
  reflexivity.
Qed.

Lemma u32_int a b : int_ok a -> int_ok b -> u32 a = u32 b -> a = b.
Proof. unfold int_ok, u32. intros Ha Hb E. Z.to_euclidean_division_equations. lia. Qed.

Lemma unique_id_inj raw can raw' can' :
  0 <= can < 4294967296 -> 0 <= can' < 4294967296 ->
  MakeReceiveUniqueId raw can = MakeReceiveUniqueId raw' can' -> u32 raw = u32 raw' /\ can = can'.
Proof. intros H H'. rewrite !unique_id_eq by done. lia. Qed.

Lemma route_of_inj bk id bk' id' :
  int_ok (bk_raw_idx bk) -> int_ok (bk_raw_idx bk') ->
  route_of bk id = route_of bk' id' -> bk = bk' /\ u32 id = u32 id'.
Proof.
  intros H H'. unfold route_of. intros [= Ea Eu].
  apply unique_id_inj in Eu as [Er Ei]; try apply u32_range.
  apply u32_int in Er; try done. destruct bk, bk'. cbn in *. by subst.
Qed.

Lemma unique_id_raw raw can :
  0 <= can < 4294967296 -> u32 (MakeReceiveUniqueId raw can ≫ 32) = u32 raw.
Proof.
  intros H. rewrite unique_id_eq by done. rewrite Z.shiftr_div_pow2 by lia.
  unfold u32. change (2 ^ 32) with 4294967296. rewrite Z.div_add_l by lia.
  rewrite (Z.div_small can) by lia. rewrite Z.add_0_r. apply Z.mod_mod. lia.
Qed.

Lemma i32_u32 z : int_ok z -> i32 (u32 z) = z.
Proof. unfold int_ok, i32, u32. intros H. Z.to_euclidean_division_equations. lia. Qed.

(** The key under which [DetachRegistrationLocked] looks for a claim. *)
Lemma claim_key bk id :
  int_ok (bk_raw_idx bk) ->
  mkBusKey (rk_adapter (route_of bk id)) (i32 (u32 (rk_unique_id (route_of bk id) ≫ 32))) = bk.
Proof.
  intros H. unfold route_of. cbn [rk_adapter rk_unique_id].
  rewrite unique_id_raw by apply u32_range. rewrite i32_u32 by done. by destruct bk.
Qed.

(** ** The invariant of the tables *)

Record ObjectsOk (o : Objects) : Prop := {
  o_devices : forall k d, devices o !! k = Some d <-> device_keys o !! d = Some k;
  o_buses : forall bk b, buses o !! bk = Some b <-> bus_keys o !! b = Some bk;
  o_raw : forall b bk, bus_keys o !! b = Some bk -> int_ok (bk_raw_idx bk)
}.

(** An entry of the registration of [device] is backed by its record and table. *)
Definition entry_backed (bks : gmap nat BusKey) (r : Routing) (device : nat) (reg : DeviceRegistration)
    (e : RouteEntry) : Prop :=
  exists rr bk can_id,
    records r !! re_record e = Some rr /\ rr_device rr = device /\ rr_bus rr = rg_bus reg /\
    rr_adapter rr = rg_adapter reg /\ rr_retiring rr = false /\
    bks !! rg_bus reg = Some bk /\ bk_adapter bk = rg_adapter reg /\ re_key e = route_of bk can_id /\
    (if re_claim e then u32 can_id = kDeviceClaimBusRouteId /\ claim_routes r !! bk = Some (re_record e)
     else routes r !! re_key e = Some (re_record e)).

Record RoutingOk (bks : gmap nat BusKey) (r : Routing) : Prop := {
  r_route : forall key n, routes r !! key = Some n ->
    exists d reg, registrations r !! d = Some reg /\ mkEntry key n false ∈ rg_routes reg;
  r_claim : forall bk n, claim_routes r !! bk = Some n ->
    exists d reg key, registrations r !! d = Some reg /\ mkEntry key n true ∈ rg_routes reg /\
      bks !! rg_bus reg = Some bk;
  r_entry : forall d reg e, registrations r !! d = Some reg -> e ∈ rg_routes reg ->
    entry_backed bks r d reg e;
  r_fresh : forall n rr, records r !! n = Some rr -> (n < next_record r)%nat
}.

(** A reserved index belongs to a live motor of the same bus, and neither its key
    nor its route is in use. *)
Definition reservation_ok (o : Objects) (r : Routing) (k : DeviceKey) (v : MotorIndexReservation) : Prop :=
  exists k0 bk, device_keys o !! rv_motor v = Some k0 /\ dk_kind k0 = KMotor /\
    k = motor_key (dk_bus k0) (dk_idx k) /\ int_ok (dk_idx k) /\ bus_keys o !! dk_bus k0 = Some bk /\
    motor_route_reservations r !! route_of bk (dk_idx k) = Some (rv_motor v) /\
    routes r !! route_of bk (dk_idx k) = None /\ devices o !! k = None.

Record ReservationsOk (o : Objects) (r : Routing) (rs : gmap DeviceKey MotorIndexReservation) : Prop := {
  v_index : forall k v, rs !! k = Some v -> reservation_ok o r k v;
  v_route : forall rk motor, motor_route_reservations r !! rk = Some motor ->
    exists k v bk, rs !! k = Some v /\ rv_motor v = motor /\ bus_keys o !! dk_bus k = Some bk /\
      rk = route_of bk (dk_idx k)
}.

(** The key of a motor, and its one route. *)
Definition motor_ok (o : Objects) (r : Routing) (d : nat) (k : DeviceKey) : Prop :=
  k = motor_key (dk_bus k) (dk_idx k) /\ int_ok (dk_idx k) /\
  forall reg, registrations r !! d = Some reg -> rg_bus reg = dk_bus k /\
    exists n bk, bus_keys o !! dk_bus k = Some bk /\
      rg_routes reg = [mkEntry (route_of bk (dk_idx k)) n false].

Record Tables (m : Manager) : Prop := {
  t_objects : ObjectsOk (objects m);
  t_routing : RoutingOk (bus_keys (objects m)) (routing m);
  t_reservations : ReservationsOk (objects m) (routing m) (motor_index_reservations (statuses m));
  t_motors : forall d k, device_keys (objects m) !! d = Some k -> dk_kind k = KMotor ->
    motor_ok (objects m) (routing m) d k;
  t_distinct : forall d reg, registrations (routing m) !! d = Some reg -> NoDup (rg_routes reg)
}.

(** ** Operations on the tables preserve it *)

Lemma insert_all_cases {K A B} `{Countable K} (kf : B -> K) (vf : B -> A) l (t : gmap K A) k v :
  insert_all kf vf l t !! k = Some v ->
  (exists e, e ∈ l /\ kf e = k /\ vf e = v) \/ ((forall e, e ∈ l -> kf e <> k) /\ t !! k = Some v).
Proof.
  unfold insert_all. revert t. induction l as [|e l IH]; intros t; cbn [fold_left].
  - intros Ht. right. split; [|done]. intros e He. by apply elem_of_nil in He.
  - intros [(e' & He' & E)|[Hno Ht]]%IH; [left; exists e'; split; [by right|done]|].
    destruct (decide (kf e = k)) as [<-|Hne].
    + rewrite lookup_insert_eq in Ht. injection Ht as <-. left. exists e. split; [left|done].
    + right. rewrite lookup_insert_ne in Ht by done. split; [|done].
      intros e' [->|He']%elem_of_cons; [done|by apply Hno].
Qed.

Lemma insert_all_notin {K A B} `{Countable K} (kf : B -> K) (vf : B -> A) l (t : gmap K A) k :
  (forall e, e ∈ l -> kf e <> k) -> insert_all kf vf l t !! k = t !! k.
Proof.
  unfold insert_all. revert t. induction l as [|e l IH]; intros t Hno; [done|]. cbn [fold_left].
  rewrite IH by (intros e' He'; apply Hno; by right). apply lookup_insert_ne. apply Hno. left.
Qed.

Lemma insert_all_in {K A B} `{Countable K} (kf : B -> K) (vf : B -> A) l (t : gmap K A) e :
  NoDup (kf <$> l) -> e ∈ l -> insert_all kf vf l t !! kf e = Some (vf e).
Proof.
  unfold insert_all. revert t. induction l as [|x l IH]; intros t Hnd He; [by apply elem_of_nil in He|].
  cbn [fold_left fmap list_fmap] in *. apply NoDup_cons in Hnd as [Hnotin Hnd].
  apply elem_of_cons in He as [->|He]; [|by apply IH].
  fold (insert_all kf vf l (<[kf x := vf x]> t)). rewrite insert_all_notin; [apply lookup_insert_eq|].
  intros e' He' E. apply Hnotin. rewrite <- E. by apply list_elem_of_fmap_2.
Qed.

(** What [PrepareRoutes] prepares. *)
Definition prepared_ok (bk : BusKey) (r : Routing) (base : nat) (l : list RouteEntry) : Prop :=
  NoDup (re_key <$> l) /\
  forall i e, l !! i = Some e -> re_record e = (base + i)%nat /\ re_claim e = false /\
    (exists can_id, re_key e = route_of bk can_id) /\
    routes r !! re_key e = None /\ motor_route_reservations r !! re_key e = None.

Lemma PrepareRoutes_ok device bus bk rc r can_ids prepared entries :
  PrepareRoutes device bus bk rc r can_ids prepared = Some entries ->
  prepared_ok bk r (next_record r) prepared -> prepared_ok bk r (next_record r) entries.
Proof.
  revert prepared. induction can_ids as [|c cs IH]; intros prepared; cbn [PrepareRoutes]; [by intros [= ->]|].
  destruct (_ || _ || _) eqn:E; [done|]. intros H. apply orb_false_iff in E as [[E1 E2]%orb_false_iff E3].
  apply bool_decide_eq_false in E1, E2. rewrite <- eq_None_not_Some in E1, E2.
  intros [Hnd Hall]. apply (IH _ H). split.
  - rewrite fmap_app. apply NoDup_app. split; [done|]. split; [|apply NoDup_singleton].
    intros k (e & -> & He)%list_elem_of_fmap Hk. cbn in Hk. apply list_elem_of_singleton in Hk.
    assert (existsb (fun e => bool_decide (re_key e = route_of bk c)) prepared = true) as Hx; [|congruence].
    apply existsb_exists. exists e. split; [by apply list_elem_of_In|]. by apply bool_decide_eq_true.
  - intros i e [Hi|[Hge Hi]]%lookup_app_Some; [by apply Hall|].
    destruct (i - length prepared)%nat as [|j] eqn:Ej; [|done]. injection Hi as <-. cbn.
    split; [lia|]. split; [done|]. split; [by exists c|done].
Qed.

Lemma prepared_nil bk r base : prepared_ok bk r base [].
Proof. split; [constructor|]. intros i e Hi. done. Qed.

(** Two records of the same route, in flight or not, with a callback or not. *)
Definition same_route (rr rr' : RouteRecord) : Prop :=
  rr_device rr' = rr_device rr /\ rr_bus rr' = rr_bus rr /\ rr_adapter rr' = rr_adapter rr /\
  rr_retiring rr' = rr_retiring rr.

Lemma routing_records bks r h :
  RoutingOk bks r ->
  (forall n rr, records r !! n = Some rr -> exists rr', h !! n = Some rr' /\ same_route rr rr') ->
  (forall n rr', h !! n = Some rr' -> is_Some (records r !! n)) ->
  RoutingOk bks (set_records h r).
Proof.
  intros [R1 R2 R3 R4] Hsame Hdom. constructor; [done|done| |].
  - intros d reg e Hd He. destruct (R3 d reg e Hd He) as (rr & bk & can & H1 & H2 & H3 & H4 & H5 & H).
    destruct (Hsame _ _ H1) as (rr' & Hr' & S1 & S2 & S3 & S4).
    exists rr', bk, can. cbn. rewrite S1, S2, S3, S4. done.
  - intros n rr' Hn. destruct (Hdom n rr' Hn) as [rr Hrr]. by apply (R4 n rr).
Qed.

Lemma alter_same {A} (f : A -> A) (P : A -> A -> Prop) (h : gmap nat A) n :
  (forall x, P x (f x)) -> (forall x, P x x) ->
  (forall i x, h !! i = Some x -> exists x', alter f n h !! i = Some x' /\ P x x') /\
  (forall i x', alter f n h !! i = Some x' -> is_Some (h !! i)).
Proof.
  intros Hf Hid. split; intros i x Hi; destruct (decide (n = i)) as [->|Hne].
  - exists (f x). rewrite lookup_alter_eq, Hi. by split.
  - exists x. rewrite lookup_alter_ne by done. by split.
  - rewrite lookup_alter_eq in Hi. by destruct (h !! i).
  - rewrite lookup_alter_ne in Hi by done. by eexists.
Qed.

Lemma routing_alter bks r f n :
  (forall rr, same_route rr (f rr)) -> RoutingOk bks r ->
  RoutingOk bks (set_records (alter f n (records r)) r).
Proof.
  intros Hf HR. destruct (alter_same f same_route (records r) n Hf) as [H1 H2]; [done|].
  by apply routing_records.
Qed.

(** Registering the records and entries of [device]; the tables follow. *)
Lemma register_backed (bks : gmap nat BusKey) r device bus bk rc entries r' e :
  bks !! bus = Some bk ->
  (forall i x, entries !! i = Some x -> re_record x = (next_record r + i)%nat) ->
  r' = register device bus bk rc entries r -> e ∈ entries ->
  exists rr, records r' !! re_record e = Some rr /\ rr_device rr = device /\ rr_bus rr = bus /\
    rr_adapter rr = bk_adapter bk /\ rr_retiring rr = false.
Proof.
  intros Hbk Hrec -> He. exists (new_record device bus (bk_adapter bk) rc). split; [|done].
  unfold register. cbn [records]. apply (insert_all_in re_record (fun _ => _)); [|done].
  apply NoDup_alt. intros i j x Hi Hj. rewrite list_lookup_fmap in Hi, Hj.
  destruct (entries !! i) as [x1|] eqn:E1, (entries !! j) as [x2|] eqn:E2; try done. cbn in Hi, Hj.
  pose proof (Hrec _ _ E1). pose proof (Hrec _ _ E2). injection Hi as Hi. injection Hj as Hj. lia.
Qed.

Lemma register_old bks r device bus bk rc entries d reg e :
  RoutingOk bks r -> (forall i x, entries !! i = Some x -> re_record x = (next_record r + i)%nat) ->
  registrations r !! d = Some reg -> e ∈ rg_routes reg ->
  records (register device bus bk rc entries r) !! re_record e = records r !! re_record e.
Proof.
  intros HR Hrec Hd He. destruct (r_entry _ _ HR d reg e Hd He) as (rr & _ & _ & Hrr & _).
  apply (r_fresh _ _ HR) in Hrr. unfold register. cbn [records]. apply insert_all_notin.
  intros x [i Hi]%list_elem_of_lookup E. pose proof (Hrec _ _ Hi). lia.
Qed.

Lemma register_fresh bks r device bus bk rc entries n rr :
  RoutingOk bks r -> (forall i x, entries !! i = Some x -> re_record x = (next_record r + i)%nat) ->
  records (register device bus bk rc entries r) !! n = Some rr -> (n < next_record r + length entries)%nat.
Proof.
  intros HR Hrec [(x & [i Hi]%list_elem_of_lookup & <- & _)|[_ Hn]]%insert_all_cases.
  - rewrite (Hrec _ _ Hi). apply lookup_lt_Some in Hi. lia.
  - apply (r_fresh _ _ HR) in Hn. lia.
Qed.

Lemma publish_ok bks r device bus bk rc entries :
  RoutingOk bks r -> bks !! bus = Some bk -> registrations r !! device = None ->
  prepared_ok bk r (next_record r) entries ->
  RoutingOk bks (set_routes (insert_all re_key re_record entries (routes r)) (register device bus bk rc entries r)).
Proof.
  intros HR Hbk Hnone [Hnd Hall]. pose proof HR as [R1 R2 R3 R4].
  assert (Hrec : forall i x, entries !! i = Some x -> re_record x = (next_record r + i)%nat)
    by (intros i x Hi; by destruct (Hall i x Hi)).
  assert (Hfree : forall x, x ∈ entries -> routes r !! re_key x = None /\ re_claim x = false /\
    exists can, re_key x = route_of bk can).
  { intros x [i Hi]%list_elem_of_lookup. destruct (Hall i x Hi) as (_ & ? & ? & ? & _). done. }
  constructor; cbn [routes claim_routes registrations next_record set_routes register].
  - intros key n [(e & He & <- & <-)|[_ Hn]]%insert_all_cases.
    + exists device, (mkRegistration (bk_adapter bk) bus entries (rc_cancel_waiters rc)).
      rewrite lookup_insert_eq. split; [done|]. cbn. destruct (Hfree e He) as (_ & Hc & _). destruct e. cbn in *. by subst.
    + destruct (R1 key n Hn) as (d & reg & Hd & Hin). exists d, reg.
      rewrite lookup_insert_ne by congruence. done.
  - intros k n Hn. destruct (R2 k n Hn) as (d & reg & key & Hd & Hin & Hb). exists d, reg, key.
    rewrite lookup_insert_ne by congruence. done.
  - intros d reg e [[<- <-]|[Hne Hd]]%lookup_insert_Some He.
    + cbn in He. destruct (register_backed bks r device bus bk rc entries _ e Hbk Hrec eq_refl He) as (rr & H1 & H2 & H3 & H4 & H5).
      destruct (Hfree e He) as (_ & Hc & can & Hkey). exists rr, bk, can. cbn. rewrite Hc. split_and!; try done.
      by apply insert_all_in.
    + destruct (R3 d reg e Hd He) as (rr & bk' & can & H1 & H2 & H3 & H4 & H5 & H6 & H7 & H8 & H9).
      exists rr, bk', can. split_and!; try done.
      * rewrite <- H1. by eapply register_old.
      * destruct (re_claim e); [done|]. cbn. rewrite insert_all_notin; [done|].
        intros x Hx E. destruct (Hfree x Hx) as (Hx' & _). congruence.
  - intros n rr Hn. exact (register_fresh bks r device bus bk rc entries n rr HR Hrec Hn).
Qed.

Lemma publish_claim_ok bks r device bus bk rc e :
  RoutingOk bks r -> (forall b b' k, bks !! b = Some k -> bks !! b' = Some k -> b = b') ->
  bks !! bus = Some bk -> registrations r !! device = None -> claim_routes r !! bk = None ->
  e = mkEntry (route_of bk kDeviceClaimBusRouteId) (next_record r) true ->
  RoutingOk bks (set_claim_routes (<[bk := re_record e]> (claim_routes r)) (register device bus bk rc [e] r)).
Proof.
  intros HR Hinj Hbk Hnone Hfree Ee. pose proof HR as [R1 R2 R3 R4].
  assert (Hrec : forall i x, [e] !! i = Some x -> re_record x = (next_record r + i)%nat).
  { intros [|i] x Hx; [|done]. injection Hx as <-. subst e. cbn. lia. }
  constructor; cbn [routes claim_routes registrations next_record set_claim_routes register].
  - intros key n Hn. destruct (R1 key n Hn) as (d & reg & Hd & Hin). exists d, reg.
    rewrite lookup_insert_ne by congruence. done.
  - intros k n [[<- <-]|[Hne Hn]]%lookup_insert_Some.
    + exists device, (mkRegistration (bk_adapter bk) bus [e] (rc_cancel_waiters rc)), (re_key e).
      rewrite lookup_insert_eq. split; [done|]. cbn. split; [|done]. subst e. by left.
    + destruct (R2 k n Hn) as (d & reg & key & Hd & Hin & Hb). exists d, reg, key.
      rewrite lookup_insert_ne by congruence. done.
  - intros d reg x [[<- <-]|[Hne Hd]]%lookup_insert_Some Hx.
    + cbn in Hx. destruct (register_backed bks r device bus bk rc [e] _ x Hbk Hrec eq_refl Hx) as (rr & H1 & H2 & H3 & H4 & H5).
      apply list_elem_of_singleton in Hx as ->. exists rr, bk, kDeviceClaimBusRouteId. subst e. cbn. split_and!; try done.
      by rewrite lookup_insert_eq.
    + destruct (R3 d reg x Hd Hx) as (rr & bk' & can & H1 & H2 & H3 & H4 & H5 & H6 & H7 & H8 & H9).
      exists rr, bk', can. split_and!; try done.
      * rewrite <- H1. by eapply register_old.
      * destruct (re_claim x); [|done]. destruct H9 as [H9 H10]. split; [done|]. cbn.
        rewrite lookup_insert_ne; [done|]. intros ->. congruence.
  - intros n rr Hn. pose proof (register_fresh bks r device bus bk rc [e] n rr HR Hrec Hn) as Hlt. exact Hlt.
Qed.

(** The tables while the entries [l] of [device] remain to be detached. *)
Record Detaching (bks : gmap nat BusKey) (r : Routing) (device : nat) (bus_key : BusKey) (l : list RouteEntry) : Prop := {
  x_route : forall key n, routes r !! key = Some n ->
    mkEntry key n false ∈ l \/
    exists d reg, registrations r !! d = Some reg /\ mkEntry key n false ∈ rg_routes reg;
  x_claim : forall bk n, claim_routes r !! bk = Some n ->
    (bk = bus_key /\ exists key, mkEntry key n true ∈ l) \/
    exists d reg key, registrations r !! d = Some reg /\ mkEntry key n true ∈ rg_routes reg /\
      bks !! rg_bus reg = Some bk;
  x_entry : forall d reg e, registrations r !! d = Some reg -> e ∈ rg_routes reg ->
    d <> device /\ entry_backed bks r d reg e;
  x_left : forall e, e ∈ l -> (exists can_id, re_key e = route_of bus_key can_id) /\
    exists rr, records r !! re_record e = Some rr /\ rr_device rr = device;
  x_fresh : forall n rr, records r !! n = Some rr -> (n < next_record r)%nat
}.

(** Retiring a record of [device] does not touch the entries of another. *)
Lemma backed_retire bks r device n rr d reg e :
  records r !! n = Some rr -> rr_device rr = device -> d <> device ->
  entry_backed bks r d reg e ->
  entry_backed bks (set_records (alter retire n (records r)) r) d reg e.
Proof.
  intros Hn Hd Hne (rr' & bk & can & H1 & H2 & H). exists rr', bk, can. cbn.
  rewrite lookup_alter_ne by congruence. done.
Qed.

Lemma detach_step bks r device bus_key e l :
  int_ok (bk_raw_idx bus_key) ->
  Detaching bks r device bus_key (e :: l) -> Detaching bks (detach_entry r e) device bus_key l.
Proof.
  intros Hint [X1 X2 X3 X4 X5]. destruct (X4 e ltac:(left)) as ((can & Hkey) & rr & Hrr & Hdev).
  unfold detach_entry. set (r1 := set_records _ r).
  assert (Hleft : forall x, x ∈ l -> (exists can_id, re_key x = route_of bus_key can_id) /\
    exists y, records r1 !! re_record x = Some y /\ rr_device y = device).
  { intros x Hx. destruct (X4 x ltac:(by right)) as (? & y & Hy & Hyd). split; [done|].
    destruct (alter_same retire (fun a b => rr_device b = rr_device a) (records r) (re_record e) ltac:(done) ltac:(done)) as [Ha _].
    destruct (Ha _ _ Hy) as (y' & Hy' & E). exists y'. split; [done|congruence]. }
  assert (Hfresh : forall n y, records r1 !! n = Some y -> (n < next_record r1)%nat).
  { intros n y Hn. destruct (alter_same retire (fun _ _ => True) (records r) (re_record e) ltac:(done) ltac:(done)) as [_ Hb].
    destruct (Hb n y Hn) as [z Hz]. by apply (X5 n z). }
  assert (Hentry : forall d reg x, registrations r !! d = Some reg -> x ∈ rg_routes reg ->
    d <> device /\ entry_backed bks r1 d reg x).
  { intros d reg x Hd Hx. destruct (X3 d reg x Hd Hx) as [Hne Hb]. split; [done|]. by eapply backed_retire. }
  assert (Hother : forall d reg x y, registrations r !! d = Some reg -> x ∈ rg_routes reg -> records r !! re_record x = Some y ->
    re_record x <> re_record e).
  { intros d reg x y Hd Hx Hy E. destruct (X3 d reg x Hd Hx) as [Hne (rx & _ & _ & H1 & H2 & _)]. congruence. }
  assert (Hrec : forall d reg x, registrations r !! d = Some reg -> x ∈ rg_routes reg -> re_record x <> re_record e).
  { intros d reg x Hd Hx. destruct (X3 d reg x Hd Hx) as [_ (rx & _ & _ & H1 & _)]. by eapply Hother. }
  destruct (re_claim e) eqn:Hc.
  - rewrite Hkey, claim_key by done. case_bool_decide as Hb.
    + constructor; cbn [routes claim_routes registrations set_claim_routes]; try done.
      * intros key n Hn. destruct (X1 key n Hn) as [[E|Hin]%elem_of_cons|?]; [|by left|by right].
        rewrite <- E in Hc. done.
      * intros k n [Hne Hn]%lookup_delete_Some. destruct (X2 k n Hn) as [[-> _]|?]; [done|by right].
      * intros d reg x Hd Hx. destruct (Hentry d reg x Hd Hx) as [Hne (rx & bk & cx & H1 & H2 & H3 & H4 & H5 & H6 & H7 & H8 & H9)].
        split; [done|]. exists rx, bk, cx. split_and!; try done. destruct (re_claim x); [|done].
        destruct H9 as [H9 H10]. split; [done|]. cbn. rewrite lookup_delete_ne; [done|]. intros <-.
        apply (Hrec d reg x Hd Hx). cbn in Hb, H10. congruence.
    + constructor; try done.
      * intros key n Hn. destruct (X1 key n Hn) as [[E|Hin]%elem_of_cons|?]; [|by left|by right].
        rewrite <- E in Hc. done.
      * intros k n Hn. destruct (X2 k n Hn) as [[-> [key [E|Hin]%elem_of_cons]]|?]; [|left; split; [done|by exists key]|by right].
        exfalso. apply Hb. cbn. rewrite <- E. done.
  - case_bool_decide as Hb.
    + constructor; cbn [routes claim_routes registrations set_routes]; try done.
      * intros key n [Hne Hn]%lookup_delete_Some.
        destruct (X1 key n Hn) as [[E|Hin]%elem_of_cons|?]; [|by left|by right]. exfalso. apply Hne. by rewrite <- E.
      * intros k n Hn. destruct (X2 k n Hn) as [[-> [key [E|Hin]%elem_of_cons]]|?]; [|left; split; [done|by exists key]|by right].
        rewrite <- E in Hc. done.
      * intros d reg x Hd Hx. destruct (Hentry d reg x Hd Hx) as [Hne (rx & bk & cx & H1 & H2 & H3 & H4 & H5 & H6 & H7 & H8 & H9)].
        split; [done|]. exists rx, bk, cx. split_and!; try done. destruct (re_claim x); [done|].
        cbn. rewrite lookup_delete_ne; [done|]. intros E. rewrite <- E in H9.
        apply (Hrec d reg x Hd Hx). cbn in Hb, H9. congruence.
    + constructor; try done.
      * intros key n Hn. destruct (X1 key n Hn) as [[E|Hin]%elem_of_cons|?]; [|by left|by right].
        exfalso. apply Hb. rewrite <- E. done.
      * intros k n Hn. destruct (X2 k n Hn) as [[-> [key [E|Hin]%elem_of_cons]]|?]; [|left; split; [done|by exists key]|by right].
        rewrite <- E in Hc. done.
Qed.

Lemma detach_all bks r device bus_key l :
  int_ok (bk_raw_idx bus_key) ->
  Detaching bks r device bus_key l -> RoutingOk bks (fold_left detach_entry l r).
Proof.
  intros Hint. revert r. induction l as [|e l IH]; intros r HX; cbn [fold_left].
  - destruct HX as [X1 X2 X3 X4 X5]. constructor; [..|done].
    + intros key n Hn. destruct (X1 key n Hn) as [Hin|?]; [by apply elem_of_nil in Hin|done].
    + intros bk n Hn. destruct (X2 bk n Hn) as [[_ [key Hin]]|?]; [by apply elem_of_nil in Hin|done].
    + intros d reg e Hd He. by apply (X3 d reg e).
  - apply IH. by apply detach_step.
Qed.

(** Detaching only removes entries from the tables and retires records. *)
Lemma detach_fold_spec l r :
  registrations (fold_left detach_entry l r) = registrations r /\
  motor_route_reservations (fold_left detach_entry l r) = motor_route_reservations r /\
  domain_buses (fold_left detach_entry l r) = domain_buses r /\
  (forall k n, routes (fold_left detach_entry l r) !! k = Some n -> routes r !! k = Some n) /\
  (forall n rr', records (fold_left detach_entry l r) !! n = Some rr' ->
     exists rr, records r !! n = Some rr /\ rr_device rr' = rr_device rr /\ rr_bus rr' = rr_bus rr /\
       rr_in_flight rr' = rr_in_flight rr).
Proof.
  revert r. induction l as [|e l IH]; intros r; [split_and!; try done; by intros n rr Hn; exists rr|].
  cbn [fold_left]. destruct (IH (detach_entry r e)) as (-> & -> & -> & Hr & Hrec).
  assert (Hone : registrations (detach_entry r e) = registrations r /\
    motor_route_reservations (detach_entry r e) = motor_route_reservations r /\
    domain_buses (detach_entry r e) = domain_buses r /\
    records (detach_entry r e) = alter retire (re_record e) (records r) /\
    (forall k n, routes (detach_entry r e) !! k = Some n -> routes r !! k = Some n)).
  { unfold detach_entry. destruct (re_claim e); case_bool_decide; split_and!; try done.
    intros k n Hk. cbn in Hk. by apply lookup_delete_Some in Hk as [_ Hk]. }
  destruct Hone as (-> & -> & -> & Erec & Hroutes). split_and!; try done; [by intros k n Hk%Hr%Hroutes|].
  intros n rr' Hn. destruct (Hrec n rr' Hn) as (rr & Hrr & H1 & H2 & H3). rewrite Erec in Hrr.
  destruct (decide (re_record e = n)) as [<-|Hne].
  - rewrite lookup_alter_eq in Hrr. destruct (records r !! re_record e) as [x|]; [|done].
    injection Hrr as <-. exists x. cbn in *. done.
  - rewrite lookup_alter_ne in Hrr by done. exists rr. done.
Qed.

Lemma routing_bks bks bks' r :
  RoutingOk bks r ->
  (forall d reg bk, registrations r !! d = Some reg -> bks !! rg_bus reg = Some bk -> bks' !! rg_bus reg = Some bk) ->
  RoutingOk bks' r.
Proof.
  intros [R1 R2 R3 R4] Hb. constructor; [done|..|done].
  - intros bk n Hn. destruct (R2 bk n Hn) as (d & reg & key & Hd & Hin & Hbk). exists d, reg, key.
    split_and!; [done|done|by eapply Hb].
  - intros d reg e Hd He. destruct (R3 d reg e Hd He) as (rr & bk & can & H1 & H2 & H3 & H4 & H5 & H6 & H).
    exists rr, bk, can. split_and!; try done; try apply H. by eapply Hb.
Qed.

Lemma reservations_ext o o' r r' rs :
  ReservationsOk o r rs ->
  motor_route_reservations r' = motor_route_reservations r ->
  (forall k v, rs !! k = Some v -> device_keys o' !! rv_motor v = device_keys o !! rv_motor v) ->
  (forall b bk, bus_keys o !! b = Some bk -> (exists k v, rs !! k = Some v /\ dk_bus k = b) -> bus_keys o' !! b = Some bk) ->
  (forall key motor, motor_route_reservations r !! key = Some motor -> routes r !! key = None -> routes r' !! key = None) ->
  (forall k v, rs !! k = Some v -> devices o !! k = None -> devices o' !! k = None) ->
  ReservationsOk o' r' rs.
Proof.
  intros [V1 V2] Em Hdk Hbk Hroute Hdev. constructor.
  - intros k v Hk. destruct (V1 k v Hk) as (k0 & bk & H1 & H2 & H3 & H4 & H5 & H6 & H7 & H8).
    exists k0, bk. rewrite (Hdk k v Hk), Em. split_and!; try done; [|by eapply Hroute|by eapply Hdev].
    apply Hbk; [done|]. exists k, v. split; [done|]. by rewrite H3.
  - intros rk motor. rewrite Em. intros Hm. destruct (V2 rk motor Hm) as (k & v & bk & H1 & H2 & H3 & H4).
    exists k, v, bk. split_and!; try done. apply Hbk; [done|]. by exists k, v.
Qed.

(** Only flags and sets that the tables do not depend on change. *)
Lemma tables_objects o m :
  Tables m -> buses o = buses (objects m) -> bus_keys o = bus_keys (objects m) ->
  devices o = devices (objects m) -> device_keys o = device_keys (objects m) -> Tables (set_objects o m).
Proof.
  intros [[O1 O2 O3] HR HV HM HN] E1 E2 E3 E4. constructor; cbn [objects routing statuses set_objects].
  - constructor; rewrite ?E1, ?E2, ?E3, ?E4; done.
  - by rewrite E2.
  - eapply reservations_ext; [exact HV|done|..]; rewrite ?E2, ?E3, ?E4; done.
  - intros d k. rewrite E4. intros Hd Hk. destruct (HM d k Hd Hk) as (H1 & H2 & H3).
    split_and!; try done. intros reg Hreg. rewrite E2. by apply H3.
  - done.
Qed.

Lemma emplace_none {K A} `{Countable K} (k : K) (v : A) t : t !! k = None -> emplace k v t = <[k := v]> t.
Proof. unfold emplace. by intros ->. Qed.

Lemma pair_insert {K L} `{Countable K, Countable L} (t : gmap K L) (u : gmap L K) k l :
  (forall x y, t !! x = Some y <-> u !! y = Some x) -> t !! k = None -> u !! l = None ->
  forall x y, <[k := l]> t !! x = Some y <-> <[l := k]> u !! y = Some x.
Proof.
  intros E Hk Hl x y. destruct (decide (x = k)) as [->|Hx], (decide (y = l)) as [->|Hy].
  - rewrite !lookup_insert_eq. done.
  - rewrite lookup_insert_eq, lookup_insert_ne by done. split; [congruence|]. intros Hu%E. congruence.
  - rewrite lookup_insert_eq, lookup_insert_ne by done. split; [|congruence]. intros Ht%E. congruence.
  - rewrite !lookup_insert_ne by done. apply E.
Qed.

Lemma pair_delete {K L} `{Countable K, Countable L} (t : gmap K L) (u : gmap L K) k l :
  (forall x y, t !! x = Some y <-> u !! y = Some x) -> t !! k = Some l \/ (t !! k = None /\ u !! l = None) ->
  forall x y, delete k t !! x = Some y <-> delete l u !! y = Some x.
Proof.
  intros E Hkl x y. rewrite !lookup_delete_Some.
  split; intros [Hne Hxy]; (split; [|by apply E]); intros ->.
  - pose proof (proj1 (E _ _) Hxy). destruct Hkl as [Hk%E|[Hk Hl]]; congruence.
  - pose proof (proj2 (E _ _) Hxy). destruct Hkl as [Hk|[Hk Hl]]; congruence.
Qed.

Lemma bus_keys_inj o b b' bk : ObjectsOk o -> bus_keys o !! b = Some bk -> bus_keys o !! b' = Some bk -> b = b'.
Proof. intros [_ O2 _] H%O2 H'%O2. congruence. Qed.

Lemma tables_publish device bus rc m ok m' :
  Tables m -> device_keys (objects m) !! device = None ->
  PublishRoutesLocked device bus rc m = Some (ok, m') -> Tables m'.
Proof.
  intros HT Hdev H. pose proof HT as [HO HR HV HM HN]. unfold PublishRoutesLocked in H.
  destruct (bus_keys (objects m) !! bus) as [bk|] eqn:Hbk; [|done].
  assert (Hmot : forall r', (forall d, d <> device -> registrations r' !! d = registrations (routing m) !! d) ->
    forall d k, device_keys (objects m) !! d = Some k -> dk_kind k = KMotor -> motor_ok (objects m) r' d k).
  { intros r' Hreg d k Hd Hk. destruct (HM d k Hd Hk) as (H1 & H2 & H3). split_and!; try done.
    rewrite Hreg by congruence. done. }
  destruct (rc_claims_bus rc).
  - case_bool_decide as Hc; [by injection H as <- <-|]. case_bool_decide as Hr; [by injection H as <- <-|].
    apply eq_None_not_Some in Hc, Hr. injection H as <- <-. constructor; cbn [objects routing statuses set_routing].
    + done.
    + apply publish_claim_ok; try done. intros b b' k. by apply bus_keys_inj.
    + eapply reservations_ext; [exact HV|done..].
    + apply Hmot. intros d Hne. cbn. by rewrite lookup_insert_ne.
    + intros d reg. cbn. intros [[<- <-]|[_ Hd]]%lookup_insert_Some; [apply NoDup_singleton|by eapply HN].
  - destruct (PrepareRoutes _ _ _ _ _ _ _) as [entries|] eqn:Hp; [|by injection H as <- <-].
    case_bool_decide as Hr; [by injection H as <- <-|]. rewrite <- eq_None_not_Some in Hr. injection H as <- <-.
    pose proof (PrepareRoutes_ok _ _ _ _ _ _ _ _ Hp (prepared_nil _ _ _)) as Hok.
    constructor; cbn [objects routing statuses set_routing].
    + done.
    + by apply publish_ok.
    + eapply reservations_ext; [exact HV|done..| |done]. intros key motor Hm Hnone. cbn.
      rewrite insert_all_notin; [done|]. intros e [i He]%list_elem_of_lookup E.
      destruct Hok as [_ Hall]. destruct (Hall i e He) as (_ & _ & _ & _ & ?). congruence.
    + apply Hmot. intros d Hne. cbn. by rewrite lookup_insert_ne.
    + intros d reg. cbn. intros [[<- <-]|[_ Hd]]%lookup_insert_Some; [|by eapply HN].
      destruct Hok as [Hnd _]. by apply NoDup_fmap_1 in Hnd.
Qed.

Lemma tables_detach device m : Tables m -> Tables (snd (DetachRegistrationLocked device m)).
Proof.
  intros HT. pose proof HT as [HO HR HV HM HN]. unfold DetachRegistrationLocked.
  destruct (registrations (routing m) !! device) as [reg|] eqn:Hreg; [|done]. cbn [snd].
  set (r0 := set_registrations _ _). destruct (detach_fold_spec (rg_routes reg) r0) as (Er & Em & _ & Hsub & _).
  constructor; cbn [objects routing statuses set_routing].
  - done.
  - assert (forall bk, bus_keys (objects m) !! rg_bus reg = Some bk -> Detaching (bus_keys (objects m)) r0 device bk (rg_routes reg)) as Hstart.
    { intros bk Hbk. pose proof HR as [R1 R2 R3 R4]. constructor; cbn [registrations r0 set_registrations]; [..|done].
      - intros key n Hn. destruct (R1 key n Hn) as (d & reg' & Hd & Hin).
        destruct (decide (d = device)) as [->|Hne]; [left; congruence|right].
        exists d, reg'. by rewrite lookup_delete_ne.
      - intros k n Hn. destruct (R2 k n Hn) as (d & reg' & key & Hd & Hin & Hk).
        destruct (decide (d = device)) as [->|Hne].
        + left. assert (reg' = reg) as -> by congruence. split; [congruence|by exists key].
        + right. exists d, reg', key. by rewrite lookup_delete_ne.
      - intros d reg' e [Hne Hd]%lookup_delete_Some He. split; [done|]. by apply (R3 d reg' e).
      - intros e He. destruct (R3 device reg e Hreg He) as (rr & bk' & can & H1 & H2 & _ & _ & _ & H6 & _ & H8 & _).
        assert (bk' = bk) as -> by congruence. split; [by exists can|by exists rr]. }
    destruct (rg_routes reg) as [|e l] eqn:El.
    + cbn [fold_left]. pose proof HR as [R1 R2 R3 R4]. constructor; cbn [registrations r0 set_registrations]; [..|done].
      * intros key n Hn. destruct (R1 key n Hn) as (d & reg' & Hd & Hin). exists d, reg'.
        rewrite lookup_delete_ne; [done|]. intros ->. rewrite Hreg in Hd. injection Hd as <-. rewrite El in Hin. by apply elem_of_nil in Hin.
      * intros k n Hn. destruct (R2 k n Hn) as (d & reg' & key & Hd & Hin & Hk). exists d, reg', key.
        rewrite lookup_delete_ne; [done|]. intros ->. rewrite Hreg in Hd. injection Hd as <-. rewrite El in Hin. by apply elem_of_nil in Hin.
      * intros d reg' e [Hne Hd]%lookup_delete_Some He. by apply (R3 d reg' e).
    + destruct (r_entry _ _ HR device reg e Hreg) as (_ & bk & _ & _ & _ & _ & _ & _ & Hbk & _); [rewrite El; left|].
      eapply detach_all; [by eapply (o_raw _ HO)|by apply Hstart].
  - eapply reservations_ext; [exact HV|by rewrite Em|done|done| |done].
    intros key motor _ Hnone. apply eq_None_not_Some. intros [n E]. apply Hsub in E. cbn in E. congruence.
  - intros d k Hd Hk. destruct (HM d k Hd Hk) as (H1 & H2 & H3). split_and!; try done.
    intros reg'. rewrite Er. cbn. intros [_ Hreg']%lookup_delete_Some. by apply H3.
  - intros d reg'. rewrite Er. cbn. intros [_ Hd]%lookup_delete_Some. by eapply HN.
Qed.

Lemma tables_records h m :
  Tables m ->
  (forall n rr, records (routing m) !! n = Some rr -> exists rr', h !! n = Some rr' /\ same_route rr rr') ->
  (forall n rr', h !! n = Some rr' -> is_Some (records (routing m) !! n)) ->
  Tables (set_routing (set_records h (routing m)) m).
Proof.
  intros [HO HR HV HM HN] H1 H2. constructor; cbn [objects routing statuses set_routing]; [done| | | |done].
  - by apply routing_records.
  - eapply reservations_ext; [exact HV|done..].
  - done.
Qed.

Lemma tables_alter f n m :
  (forall rr, same_route rr (f rr)) -> Tables m ->
  Tables (set_routing (set_records (alter f n (records (routing m))) (routing m)) m).
Proof.
  intros Hf HT. destruct (alter_same f same_route (records (routing m)) n Hf) as [H1 H2]; [done|].
  by apply tables_records.
Qed.

Lemma tables_activate device adapter bus can_ids cancel m ok m' :
  Tables m -> RegisterReceiveRoutes device adapter bus can_ids cancel m = (ok, m') -> Tables m'.
Proof.
  intros HT H. unfold RegisterReceiveRoutes in H.
  destruct (device_keys (objects m) !! device) as [dk0|], (bus_keys (objects m) !! bus) as [bk0|],
    (registrations (routing m) !! device) as [reg|] eqn:Hreg;
    try by injection H as <- <-.
  destruct (_ && _); injection H as <- <-; [|done].
  set (h := fold_left _ _ _).
  assert (Hh : forall l (h0 : gmap nat RouteRecord), (forall n rr, h0 !! n = Some rr -> exists rr',
      fold_left (fun h e => alter with_callback (re_record e) h) l h0 !! n = Some rr' /\ same_route rr rr') /\
    (forall n rr', fold_left (fun h e => alter with_callback (re_record e) h) l h0 !! n = Some rr' -> is_Some (h0 !! n))).
  { induction l as [|e l IH]; intros h0; [split; intros n rr Hn; by exists rr|]. cbn [fold_left].
    destruct (IH (alter with_callback (re_record e) h0)) as [I1 I2].
    destruct (alter_same with_callback same_route h0 (re_record e)) as [A1 A2]; [done..|]. split.
    - intros n rr Hn. destruct (A1 n rr Hn) as (rr1 & Hn1 & S1 & S2 & S3 & S4).
      destruct (I1 n rr1 Hn1) as (rr2 & Hn2 & T1 & T2 & T3 & T4). exists rr2. split; [done|].
      unfold same_route. by rewrite T1, T2, T3, T4.
    - intros n rr' Hn. destruct (I2 n rr' Hn) as [x Hx]. by apply (A2 n x). }
  destruct (Hh (rg_routes reg) (records (routing m))) as [H1 H2]. fold h in H1, H2.
  destruct (tables_records h m HT H1 H2) as [HO HR HV HM HN].
  set (reg' := mkRegistration _ _ _ _).
  assert (Hback : forall d x, <[device := reg']> (registrations (routing m)) !! d = Some x ->
    exists y, registrations (routing m) !! d = Some y /\ rg_routes y = rg_routes x /\ rg_bus y = rg_bus x /\ rg_adapter y = rg_adapter x).
  { intros d x [[<- <-]|[_ Hx]]%lookup_insert_Some; [by exists reg|by exists x]. }
  assert (Hfwd : forall d y, registrations (routing m) !! d = Some y ->
    exists x, <[device := reg']> (registrations (routing m)) !! d = Some x /\ rg_routes x = rg_routes y /\ rg_bus x = rg_bus y).
  { intros d y Hy. destruct (decide (device = d)) as [<-|Hne].
    - exists reg'. rewrite lookup_insert_eq. split; [done|]. rewrite Hreg in Hy. by injection Hy as <-.
    - exists y. by rewrite lookup_insert_ne. }
  constructor; cbn [objects routing statuses set_routing] in *.
  - done.
  - destruct HR as [R1 R2 R3 R4]. constructor; cbn [routes claim_routes registrations set_registrations] in *; [..|done].
    + intros key n Hn. destruct (R1 key n Hn) as (d & y & Hy & Hin). destruct (Hfwd d y Hy) as (x & Hx & E1 & E2).
      exists d, x. by rewrite E1.
    + intros k n Hn. destruct (R2 k n Hn) as (d & y & key & Hy & Hin & Hb). destruct (Hfwd d y Hy) as (x & Hx & E1 & E2).
      exists d, x, key. by rewrite E1, E2.
    + intros d x e Hx He. destruct (Hback d x Hx) as (y & Hy & E1 & E2 & E3). rewrite <- E1 in He.
      destruct (R3 d y e Hy He) as (rr & bk & can & R). exists rr, bk, can. rewrite <- E2, <- E3. exact R.
  - eapply reservations_ext; [exact HV|done..].
  - intros d k Hd Hk. destruct (HM d k Hd Hk) as (M1 & M2 & M3). split_and!; try done.
    intros x Hx. destruct (Hback d x Hx) as (y & Hy & E1 & E2 & E3). rewrite <- E1, <- E2. by apply M3.
  - intros d x Hx. destruct (Hback d x Hx) as (y & Hy & <- & _). by eapply HN.
Qed.

Lemma tables_commit key device m :
  Tables m -> devices (objects m) !! key = None -> device_keys (objects m) !! device = None ->
  is_Some (registrations (routing m) !! device) ->
  (dk_kind key = KMotor -> motor_ok (objects m) (routing m) device key) ->
  Tables (commit_device key device m).
Proof.
  intros [HO HR HV HM HN] Hk Hd [reg Hreg] Hmot. unfold commit_device.
  rewrite (emplace_none key), (emplace_none device) by done.
  constructor; cbn [objects routing statuses set_objects set_pending set_devices bus_keys devices device_keys].
  - destruct HO as [O1 O2 O3]. constructor; cbn; [|done|done]. by apply pair_insert.
  - done.
  - eapply reservations_ext; [exact HV|done|..]; cbn; try done.
    + intros k v Hv. rewrite lookup_insert_ne; [done|]. intros ->.
      destruct (v_index _ _ _ HV k v Hv) as (k0 & _ & H1 & _). congruence.
    + intros k v Hv Hnone. rewrite lookup_insert_ne; [done|]. intros <-.
      destruct (v_index _ _ _ HV key v Hv) as (k0 & bk & _ & _ & Ek & _ & Hbk & _ & Hroute & _).
      destruct Hmot as (_ & _ & Hshape); [by rewrite Ek|].
      destruct (Hshape reg Hreg) as (Hbus & n & bk' & Hbk' & Hroutes).
      rewrite Ek in Hbk'. cbn in Hbk'. assert (bk' = bk) as -> by congruence.
      assert (mkEntry (route_of bk (dk_idx key)) n false ∈ rg_routes reg) as Hin by (rewrite Hroutes; left).
      destruct (r_entry _ _ HR device reg _ Hreg Hin) as (rr & bk' & can & _ & _ & _ & _ & _ & _ & _ & _ & Hr).
      cbn in Hr. congruence.
  - intros d k [[<- <-]|[Hne Hdk]]%lookup_insert_Some Hkind; [by apply Hmot|by apply HM].
  - done.
Qed.

Lemma tables_erase key device m :
  Tables m ->
  devices (objects m) !! key = Some device \/
    (devices (objects m) !! key = None /\ device_keys (objects m) !! device = None) ->
  (forall k v, motor_index_reservations (statuses m) !! k = Some v -> rv_motor v <> device) ->
  Tables (erase_device key device m).
Proof.
  intros [HO HR HV HM HN] Hk Hres. unfold erase_device.
  constructor; cbn [objects routing statuses set_objects set_devices bus_keys devices device_keys].
  - destruct HO as [O1 O2 O3]. constructor; cbn; [|done|done]. by apply pair_delete.
  - done.
  - eapply reservations_ext; [exact HV|done|..]; cbn; try done.
    + intros k v Hv. rewrite lookup_delete_ne; [done|]. intros E. by apply (Hres k v Hv).
    + intros k v Hv Hnone. apply lookup_delete_None. by right.
  - intros d k [_ Hd]%lookup_delete_Some. by apply HM.
  - done.
Qed.

(** [ApplyMotorStatusConfigurationLocked] only installs a callback. *)
Lemma apply_status_effect bus idx d m :
  let m' := ApplyMotorStatusConfigurationLocked bus idx d m in
  objects m' = objects m /\ routing m' = routing m /\
  motor_index_reservations (statuses m') = motor_index_reservations (statuses m).
Proof.
  unfold ApplyMotorStatusConfigurationLocked. destruct (bus_keys (objects m) !! bus) as [bk|]; [|done].
  destruct (adapter_usable (bk_adapter bk) m); [|done]. split_and!; try done.
Qed.

Lemma tables_statuses m m' :
  Tables m -> objects m' = objects m -> routing m' = routing m ->
  motor_index_reservations (statuses m') = motor_index_reservations (statuses m) -> Tables m'.
Proof. intros [HO HR HV HM HN] E1 E2 E3. constructor; rewrite ?E1, ?E2, ?E3; done. Qed.

Lemma tables_insert_bus bk bus m :
  Tables m -> int_ok (bk_raw_idx bk) -> buses (objects m) !! bk = None -> bus_keys (objects m) !! bus = None ->
  Tables (insert_bus bk bus m).
Proof.
  intros [HO HR HV HM HN] Hint Hbk Hbus. unfold insert_bus.
  rewrite (emplace_none bk bus (buses _)), (emplace_none bus bk) by done.
  assert (Hmono : forall b k, bus_keys (objects m) !! b = Some k -> <[bus := bk]> (bus_keys (objects m)) !! b = Some k).
  { intros b k Hb. rewrite lookup_insert_ne; [done|congruence]. }
  constructor; cbn [objects routing statuses set_objects set_routing set_domain_buses set_buses bus_keys devices device_keys].
  - destruct HO as [O1 O2 O3]. constructor; cbn; [done|by apply pair_insert|].
    intros b k [[<- <-]|[_ Hb]]%lookup_insert_Some; [done|by eapply O3].
  - destruct (routing_bks _ (<[bus := bk]> (bus_keys (objects m))) _ HR) as [R1 R2 R3 R4].
    { intros d reg k _ Hb. by apply Hmono. } by constructor.
  - eapply reservations_ext; [exact HV|done|done| |done|done]. intros b k Hb _. by apply Hmono.
  - intros d k Hd Hk. destruct (HM d k Hd Hk) as (H1 & H2 & H3). split_and!; try done.
    intros reg Hreg. destruct (H3 reg Hreg) as (? & n & b & Hb & ?). split; [done|]. exists n, b.
    split; [by apply Hmono|done].
  - done.
Qed.

Lemma tables_erase_bus bk bus m :
  Tables m -> buses (objects m) !! bk = Some bus \/ (buses (objects m) !! bk = None /\ bus_keys (objects m) !! bus = None) ->
  (forall d reg, registrations (routing m) !! d = Some reg -> rg_bus reg <> bus) ->
  (forall d k, device_keys (objects m) !! d = Some k -> dk_bus k <> bus) ->
  Tables (erase_bus bk bus m).
Proof.
  intros [HO HR HV HM HN] Hbk Hreg Hdev. unfold erase_bus.
  constructor; cbn [objects routing statuses set_objects set_buses bus_keys devices device_keys].
  - destruct HO as [O1 O2 O3]. constructor; cbn; [done|by apply pair_delete|].
    intros b k [_ Hb]%lookup_delete_Some. by eapply O3.
  - eapply routing_bks; [exact HR|]. intros d reg k Hd Hb. rewrite lookup_delete_ne; [done|].
    intros E. by apply (Hreg d reg Hd).
  - eapply reservations_ext; [exact HV|done|done| |done|done].
    intros b k Hb (k' & v & Hv & <-). cbn. rewrite lookup_delete_ne; [done|]. intros E.
    destruct (v_index _ _ _ HV k' v Hv) as (k0 & _ & H1 & _ & H2 & _). rewrite H2 in E. by apply (Hdev _ k0 H1).
  - intros d k Hd Hk. destruct (HM d k Hd Hk) as (H1 & H2 & H3). split_and!; try done.
    intros reg Hr. destruct (H3 reg Hr) as (E & n & b & Hb & Hn). split; [done|]. exists n, b. split; [|done].
    cbn. rewrite lookup_delete_ne; [done|]. intros E'. by apply (Hdev d k Hd).
  - done.
Qed.

(** ** Reserving, releasing and migrating a motor index *)

(** A live motor that may take index [n] of its bus. *)
Record Movable (m : Manager) (motor : nat) (n : Z) (old : DeviceKey) (bk : BusKey) (reg : DeviceRegistration)
    (e : RouteEntry) : Prop := {
  mv_key : device_keys (objects m) !! motor = Some old;
  mv_motor : dk_kind old = KMotor;
  mv_new : motor_key (dk_bus old) n <> old;
  mv_bus : bus_keys (objects m) !! dk_bus old = Some bk;
  mv_device_free : devices (objects m) !! motor_key (dk_bus old) n = None;
  mv_route_free : routes (routing m) !! route_of bk n = None;
  mv_registered : registrations (routing m) !! motor = Some reg;
  mv_entry : rg_routes reg = [e]
}.

Definition reserve (key : DeviceKey) (route : RouteKey) (motor : nat) (cb : option nat) (install : bool)
    (m : Manager) : Manager :=
  set_statuses (set_index_reservations
      (<[key := mkReservation motor cb install]> (motor_index_reservations (statuses m))) (statuses m))
    (set_routing (set_route_reservations (<[route := motor]> (motor_route_reservations (routing m))) (routing m)) m).

Inductive reserve_result (motor : nat) (n : Z) (m : Manager) : bool * Manager -> Prop :=
  | ReserveRefused : reserve_result motor n m (false, m)
  | ReserveOwn old :
      device_keys (objects m) !! motor = Some old -> dk_kind old = KMotor -> motor_key (dk_bus old) n = old ->
      reserve_result motor n m (true, m)
  | ReserveAgain old v :
      device_keys (objects m) !! motor = Some old ->
      motor_index_reservations (statuses m) !! motor_key (dk_bus old) n = Some v -> rv_motor v = motor ->
      reserve_result motor n m (true, m)
  | ReserveNew old bk reg e cb install :
      Movable m motor n old bk reg e ->
      motor_index_reservations (statuses m) !! motor_key (dk_bus old) n = None ->
      motor_route_reservations (routing m) !! route_of bk n = None ->
      motor_key (dk_bus old) n ∉ pending_devices (objects m) ->
      callback_for (status_callbacks (statuses m) !! route_of bk n) (status_callbacks (statuses m) !! re_key e) = (cb, install) ->
      reserve_result motor n m (true, reserve (motor_key (dk_bus old) n) (route_of bk n) motor cb install m).

(** The same bus and the same [int] give the same reservation key. *)
Lemma route_reserved_key m rk motor bk bus n :
  Tables m -> motor_route_reservations (routing m) !! rk = Some motor ->
  bus_keys (objects m) !! bus = Some bk -> int_ok n -> rk = route_of bk n ->
  exists v, motor_index_reservations (statuses m) !! motor_key bus n = Some v /\ rv_motor v = motor.
Proof.
  intros HT Hm Hbk Hn ->. pose proof HT as [HO _ HV _ _].
  destruct (v_route _ _ _ HV _ _ Hm) as (k & v & bk' & Hk & Hv & Hbk' & E).
  destruct (v_index _ _ _ HV k v Hk) as (k0 & b & _ & _ & Ek & Hint & _).
  apply route_of_inj in E as [<- Eid]; [|by eapply (o_raw _ HO)|by eapply (o_raw _ HO)].
  apply u32_int in Eid; [|done|done]. rewrite (bus_keys_inj _ _ _ _ HO Hbk Hbk'), Eid.
  exists v. split; [|done]. rewrite Ek in Hk. cbn in Hk. rewrite Ek. cbn. exact Hk.
Qed.

Lemma reserve_ok motor n m :
  Tables m -> int_ok n -> reserve_result motor n m (ReserveMotorIndex motor n m).
Proof.
  intros HT Hn. pose proof HT as [HO HR HV HM HN]. unfold ReserveMotorIndex.
  destruct (device_keys (objects m) !! motor) as [old|] eqn:Hold; [|by constructor].
  destruct (_ || is_deleting motor m) eqn:E1; [constructor|].
  apply orb_false_iff in E1 as [E1%negb_false_iff%bool_decide_eq_true _].
  case_bool_decide as Eown; [by eapply ReserveOwn|].
  destruct (bus_keys (objects m) !! dk_bus old) as [bk|] eqn:Hbk; [|constructor].
  destruct (_ || _ || _ || _ || _) eqn:E2; [constructor|].
  apply orb_false_iff in E2 as [[[_ E2]%orb_false_iff E3]%orb_false_iff E4].
  apply bool_decide_eq_false in E2, E3, E4. apply eq_None_not_Some in E2. apply eq_None_not_Some in E4.
  destruct (motor_index_reservations (statuses m) !! motor_key (dk_bus old) n) as [v|] eqn:Hv.
  { case_bool_decide; [by eapply ReserveAgain|constructor]. }
  destruct (motor_route_reservations (routing m) !! route_of bk n) as [owner|] eqn:Ho.
  { destruct (route_reserved_key m _ owner bk (dk_bus old) n HT Ho Hbk Hn eq_refl) as (v & Hv' & _). congruence. }
  destruct (registrations (routing m) !! motor) as [[ra rb [|e [|]] rc]|] eqn:Hreg; try constructor.
  destruct (callback_for _ _) as [cb install] eqn:Hcb. eapply ReserveNew; [|done..]. by econstructor.
Qed.

Lemma tables_reserve motor n m r :
  Tables m -> int_ok n -> reserve_result motor n m r -> Tables (snd r).
Proof.
  intros HT Hn H. pose proof HT as [HO HR HV HM HN].
  destruct H as [| | |old bk reg e cb install [H1 H2 H3 H4 H5 H6 H7 H8] Hfree Hrfree Hpend Hcb]; [done..|].
  unfold reserve. constructor; cbn [objects routing statuses set_routing set_statuses snd]; [done|..].
  - destruct HR as [R1 R2 R3 R4]. by constructor.
  - constructor; cbn [motor_index_reservations set_index_reservations motor_route_reservations set_route_reservations routes].
    + intros k v [[<- <-]|[Hne Hv]]%lookup_insert_Some.
      * exists old, bk. cbn. rewrite lookup_insert_eq. split_and!; done.
      * destruct (v_index _ _ _ HV k v Hv) as (k0 & bk' & G1 & G2 & G3 & G4 & G5 & G6 & G7 & G8).
        exists k0, bk'. cbn. split_and!; try done. rewrite lookup_insert_ne; [done|]. congruence.
    + intros rk mo [[<- <-]|[Hne Hm]]%lookup_insert_Some.
      * exists (motor_key (dk_bus old) n), (mkReservation motor cb install), bk. rewrite lookup_insert_eq. done.
      * destruct (v_route _ _ _ HV rk mo Hm) as (k & v & bk' & G1 & G2 & G3 & G4). exists k, v, bk'.
        rewrite lookup_insert_ne by congruence. done.
  - done.
  - done.
Qed.

Lemma tables_release motor n m : Tables m -> Tables (ReleaseMotorIndexReservation motor n m).
Proof.
  intros HT. pose proof HT as [HO HR HV HM HN]. unfold ReleaseMotorIndexReservation.
  destruct (device_keys (objects m) !! motor) as [old|] eqn:Hold; [|done].
  destruct (motor_index_reservations (statuses m) !! motor_key (dk_bus old) n) as [res|] eqn:Hres; [|done].
  case_bool_decide as Em; [|done].
  destruct (v_index _ _ _ HV _ _ Hres) as (k0 & bk & G1 & G2 & G3 & G4 & G5 & G6 & G7 & G8).
  assert (k0 = old) as -> by congruence. rewrite G5, bool_decide_true by (cbn in G6; congruence).
  constructor; cbn [objects routing statuses set_routing set_statuses]; [done|..].
  - destruct HR as [R1 R2 R3 R4]. by constructor.
  - constructor; cbn [motor_index_reservations set_index_reservations motor_route_reservations set_route_reservations routes].
    + intros k v [Hne Hv]%lookup_delete_Some.
      destruct (v_index _ _ _ HV k v Hv) as (k1 & bk' & F1 & F2 & F3 & F4 & F5 & F6 & F7 & F8).
      exists k1, bk'. cbn. split_and!; try done. rewrite lookup_delete_ne; [done|]. intros E.
      apply route_of_inj in E as [<- Eid]; [|by eapply (o_raw _ HO)|by eapply (o_raw _ HO)].
      apply u32_int in Eid; [|done|done]. apply Hne. rewrite F3, (bus_keys_inj _ _ _ _ HO F5 G5). cbn in Eid. congruence.
    + intros rk mo [Hne Hm]%lookup_delete_Some.
      destruct (v_route _ _ _ HV rk mo Hm) as (k & v & bk' & F1 & F2 & F3 & F4). exists k, v, bk'.
      split_and!; try done. rewrite lookup_delete_ne; [done|]. intros <-. apply Hne. rewrite F4. cbn in *. congruence.
  - done.
  - done.
Qed.

Inductive migrate_result (motor : nat) (n : Z) (m : Manager) : bool * Manager -> Prop :=
  | MigrateRefused : migrate_result motor n m (false, m)
  | MigrateOwn old :
      device_keys (objects m) !! motor = Some old -> dk_kind old = KMotor -> motor_key (dk_bus old) n = old ->
      migrate_result motor n m (true, m)
  | MigrateMoved old bk reg e cb install :
      Movable m motor n old bk reg e ->
      (forall v, motor_index_reservations (statuses m) !! motor_key (dk_bus old) n = Some v -> rv_motor v = motor) ->
      (forall owner, motor_route_reservations (routing m) !! route_of bk n = Some owner -> owner = motor) ->
      is_Some (routes (routing m) !! re_key e) ->
      (cb, install) = match motor_index_reservations (statuses m) !! motor_key (dk_bus old) n with
                      | Some v => (rv_callback v, rv_install_callback v)
                      | None => callback_for (status_callbacks (statuses m) !! route_of bk n)
                                  (status_callbacks (statuses m) !! re_key e)
                      end ->
      migrate_result motor n m
        (true, commit_migration motor old (motor_key (dk_bus old) n) (re_key e) (route_of bk n) e reg cb install
                 (bool_decide (is_Some (motor_index_reservations (statuses m) !! motor_key (dk_bus old) n)))
                 (bool_decide (is_Some (motor_route_reservations (routing m) !! route_of bk n)))
                 (bool_decide (is_Some (status_callbacks (statuses m) !! route_of bk n))) m).

Lemma migrate_ok motor n m : migrate_result motor n m (MigrateMotorIndex motor n m).
Proof.
  unfold MigrateMotorIndex.
  destruct (device_keys (objects m) !! motor) as [old|] eqn:Hold; [|by constructor].
  destruct (_ || is_deleting motor m) eqn:E1; [constructor|].
  apply orb_false_iff in E1 as [E1%negb_false_iff%bool_decide_eq_true _].
  case_bool_decide as Eown; [by eapply MigrateOwn|].
  destruct (_ || _) eqn:E2; [constructor|]. apply orb_false_iff in E2 as [E2%bool_decide_eq_false E3].
  apply eq_None_not_Some in E2.
  destruct (bus_keys (objects m) !! dk_bus old) as [bk|] eqn:Hbk; [|constructor].
  destruct (is_deleting (dk_bus old) m || _); [constructor|].
  destruct (_ || _) eqn:E4; [constructor|]. apply orb_false_iff in E4 as [E4%bool_decide_eq_false E5].
  apply eq_None_not_Some in E4.
  destruct (registrations (routing m) !! motor) as [[ra rb [|e [|]] rc]|] eqn:Hreg; try constructor.
  case_bool_decide as Hr; [|constructor].
  destruct (match motor_index_reservations (statuses m) !! motor_key (dk_bus old) n with
            | Some v => (rv_callback v, rv_install_callback v) | None => _ end) as [cb install] eqn:Hcb.
  eapply (MigrateMoved motor n m old bk _ e cb install).
  - by econstructor.
  - intros v Hv. rewrite Hv in E3. by apply negb_false_iff, bool_decide_eq_true in E3.
  - intros owner Ho. rewrite Ho in E5. by apply negb_false_iff, bool_decide_eq_true in E5.
  - done.
  - done.
Qed.

Lemma rekey_eq {K A} `{Countable K} (old new : K) (t : gmap K A) v :
  t !! old = Some v -> t !! new = None -> rekey old new t = <[new := v]> (delete old t).
Proof.
  intros Hold Hnew. unfold rekey. rewrite Hold, lookup_delete_ne, Hnew; [done|congruence].
Qed.

Lemma delete_if {K A} `{Countable K} (k : K) (t : gmap K A) :
  (if bool_decide (is_Some (t !! k)) then delete k t else t) = delete k t.
Proof. case_bool_decide as Hk; [done|]. apply eq_None_not_Some in Hk. by rewrite delete_id. Qed.

(** A motor's registration, as [Movable] finds it. *)
Lemma movable_entry m motor n old bk reg e :
  Tables m -> Movable m motor n old bk reg e ->
  old = motor_key (dk_bus old) (dk_idx old) /\ rg_bus reg = dk_bus old /\
  e = mkEntry (route_of bk (dk_idx old)) (re_record e) false /\
  routes (routing m) !! re_key e = Some (re_record e) /\
  re_key e <> route_of bk n /\
  exists rr, records (routing m) !! re_record e = Some rr /\ rr_device rr = motor.
Proof.
  intros [HO HR HV HM HN] [H1 H2 H3 H4 H5 H6 H7 H8].
  destruct (HM motor old H1 H2) as (E1 & _ & Hshape). destruct (Hshape reg H7) as (E2 & nr & bk' & Hbk' & E3).
  assert (bk' = bk) as -> by congruence. rewrite H8 in E3. injection E3 as ->.
  assert (mkEntry (route_of bk (dk_idx old)) nr false ∈ rg_routes reg) as Hin by (rewrite H8; left).
  destruct (r_entry _ _ HR motor reg _ H7 Hin) as (rr & b & c & G1 & G2 & _ & _ & _ & _ & _ & G8 & G9). cbn in *.
  split_and!; try done; [congruence|by exists rr].
Qed.

Lemma migrated_eq m motor n old bk reg e cb install :
  Tables m -> Movable m motor n old bk reg e ->
  let m' := commit_migration motor old (motor_key (dk_bus old) n) (re_key e) (route_of bk n) e reg cb install
     (bool_decide (is_Some (motor_index_reservations (statuses m) !! motor_key (dk_bus old) n)))
     (bool_decide (is_Some (motor_route_reservations (routing m) !! route_of bk n)))
     (bool_decide (is_Some (status_callbacks (statuses m) !! route_of bk n))) m in
  let new := motor_key (dk_bus old) n in
  devices (objects m') = <[new := motor]> (delete old (devices (objects m))) /\
  device_keys (objects m') = <[motor := new]> (device_keys (objects m)) /\
  bus_keys (objects m') = bus_keys (objects m) /\ buses (objects m') = buses (objects m) /\
  routes (routing m') = <[route_of bk n := re_record e]> (delete (re_key e) (routes (routing m))) /\
  claim_routes (routing m') = claim_routes (routing m) /\
  records (routing m') = records (routing m) /\ next_record (routing m') = next_record (routing m) /\
  registrations (routing m') = <[motor := mkRegistration (rg_adapter reg) (rg_bus reg)
     [mkEntry (route_of bk n) (re_record e) false] (rg_cancel_waiters reg)]> (registrations (routing m)) /\
  motor_route_reservations (routing m') = delete (route_of bk n) (motor_route_reservations (routing m)) /\
  motor_index_reservations (statuses m') = delete new (motor_index_reservations (statuses m)).
Proof.
  intros HT HMv m' new. destruct (movable_entry _ _ _ _ _ _ _ HT HMv) as (_ & _ & He & Hroute & _ & _).
  destruct HMv as [H1 H2 H3 H4 H5 H6 H7 H8]. pose proof (o_devices _ (t_objects _ HT)) as O1.
  unfold m', commit_migration.
  cbn [objects routing statuses devices device_keys bus_keys buses routes claim_routes records next_record registrations
       motor_route_reservations motor_index_reservations set_devices set_registrations set_route_reservations set_routes
       set_index_reservations set_status_callbacks set_on_status].
  rewrite (rekey_eq old new _ motor) by (try done; by apply O1).
  rewrite (rekey_eq (re_key e) (route_of bk n) _ (re_record e)) by done.
  rewrite delete_if. split_and!; try done; [by rewrite He|].
  destruct install; cbn; apply delete_if.
Qed.

(** Another device's route is not the one that moves. *)
Lemma other_entry m motor n old bk reg e d y x :
  Tables m -> Movable m motor n old bk reg e -> d <> motor ->
  registrations (routing m) !! d = Some y -> x ∈ rg_routes y -> re_claim x = false ->
  re_key x <> re_key e /\ re_key x <> route_of bk n.
Proof.
  intros HT HMv Hne Hd Hx Hc. destruct (movable_entry _ _ _ _ _ _ _ HT HMv) as (_ & _ & _ & Hroute & _ & rr & Hrr & Hdev).
  destruct (r_entry _ _ (t_routing _ HT) d y x Hd Hx) as (rx & b & c & G1 & G2 & _ & _ & _ & _ & _ & _ & G9).
  rewrite Hc in G9. split; intros E.
  - rewrite E in G9. assert (re_record x = re_record e) as Er by congruence. congruence.
  - rewrite E, (mv_route_free _ _ _ _ _ _ _ HMv) in G9. done.
Qed.

Lemma tables_migrate motor n m r :
  Tables m -> int_ok n -> migrate_result motor n m r -> Tables (snd r).
Proof.
  intros HT Hn H. destruct H as [| |old bk reg e cb install HMv Hres Hrres Hroute Hcb]; [done..|].
  cbn [snd]. set (m' := commit_migration _ _ _ _ _ _ _ _ _ _ _ _ _).
  destruct (migrated_eq m motor n old bk reg e cb install HT HMv)
    as (E1 & E2 & E3 & E4 & E5 & E6 & E7 & E8 & E9 & E10 & E11). fold m' in E1, E2, E3, E4, E5, E6, E7, E8, E9, E10, E11. clearbody m'.
  destruct (movable_entry _ _ _ _ _ _ _ HT HMv) as (Hold & Hbus & He & Hr & Hkey & rr & Hrr & Hdev).
  pose proof (other_entry m motor n old bk reg e) as Hother.
  pose proof HT as [[O1 O2 O3] HR HV HM HN]. pose proof HMv as [V1 V2 V3 V4 V5 V6 V7 V8].
  constructor.
  - constructor; rewrite ?E1, ?E2, ?E3, ?E4; [|done|done].
    rewrite <- (insert_delete_eq (device_keys _)). apply pair_insert; [|by rewrite lookup_delete_ne|apply lookup_delete_eq].
    apply pair_delete; [done|]. left. by apply O1.
  - pose proof HR as [R1 R2 R3 R4]. constructor; rewrite ?E3, ?E5, ?E6, ?E7, ?E8, ?E9; [..|done].
    + intros key nr [[<- <-]|[Hne [Hne' Hk]%lookup_delete_Some]]%lookup_insert_Some.
      * eexists motor, _. rewrite lookup_insert_eq. split; [done|]. left.
      * destruct (R1 key nr Hk) as (d & y & Hd & Hin). exists d, y. rewrite lookup_insert_ne; [done|].
        intros ->. rewrite V7 in Hd. injection Hd as <-. rewrite V8 in Hin. apply list_elem_of_singleton in Hin.
        apply Hne'. by rewrite <- Hin.
    + intros k nr Hk. destruct (R2 k nr Hk) as (d & y & key & Hd & Hin & Hb). exists d, y, key.
      rewrite lookup_insert_ne; [done|]. intros ->. rewrite V7 in Hd. injection Hd as <-.
      rewrite V8 in Hin. apply list_elem_of_singleton in Hin. rewrite <- Hin in He. done.
    + intros d y x [[<- <-]|[Hne Hd]]%lookup_insert_Some Hx.
      * cbn in Hx. apply list_elem_of_singleton in Hx as ->.
        assert (e ∈ rg_routes reg) as Hin by (rewrite V8; left).
        destruct (R3 motor reg e V7 Hin) as (rx & b & c & G1 & G2 & G3 & G4 & G5 & G6 & G7 & G8 & G9).
        exists rx, b, n. unfold entry_backed; cbn. rewrite E5, E7. split_and!; try done; [|apply lookup_insert_eq].
        f_equal. congruence.
      * destruct (R3 d y x Hd Hx) as (rx & b & c & G1 & G2 & G3 & G4 & G5 & G6 & G7 & G8 & G9).
        exists rx, b, c. rewrite E5, E6, E7. split_and!; try done. destruct (re_claim x) eqn:Hc; [done|].
        destruct (Hother d y x HT HMv) as [N1 N2]; [done..|].
        by rewrite lookup_insert_ne, lookup_delete_ne.
  - constructor; rewrite ?E2, ?E3, ?E5, ?E10, ?E11.
    + intros k v [Hne Hv]%lookup_delete_Some.
      destruct (v_index _ _ _ HV k v Hv) as (k1 & bk' & F1 & F2 & F3 & F4 & F5 & F6 & F7 & F8).
      assert (Hk : route_of bk n <> route_of bk' (dk_idx k)).
      { intros E. apply route_of_inj in E as [<- Eid]; [|by eapply O3|by eapply O3].
        apply u32_int in Eid; [|done|done]. apply Hne.
        rewrite F3, Eid, (bus_keys_inj _ _ _ _ (t_objects _ HT) F5 V4). done. }
      assert (exists k2, <[motor := motor_key (dk_bus old) n]> (device_keys (objects m)) !! rv_motor v = Some k2 /\
        dk_kind k2 = KMotor /\ dk_bus k2 = dk_bus k1) as (k2 & K1 & K2 & K3).
      { destruct (decide (motor = rv_motor v)) as [Em|Hnm].
        - rewrite <- Em in F1 |- *. eexists. rewrite lookup_insert_eq. split; [done|]. cbn. split; [done|]. congruence.
        - exists k1. by rewrite lookup_insert_ne. }
      exists k2, bk'. rewrite E1, E2, E3, E5, E10, K3. split_and!; try done.
      * by rewrite lookup_delete_ne.
      * rewrite lookup_insert_ne by done. apply lookup_delete_None. by right.
      * rewrite lookup_insert_ne by done. apply lookup_delete_None. by right.
    + intros rk mo [Hne Hmo]%lookup_delete_Some.
      destruct (v_route _ _ _ HV rk mo Hmo) as (k & v & bk' & F1 & F2 & F3 & F4). exists k, v, bk'.
      split_and!; try done. rewrite lookup_delete_ne; [done|]. intros <-. apply Hne. rewrite F4. cbn in *. congruence.
  - intros d k. rewrite E2. intros [[<- <-]|[Hne Hd]]%lookup_insert_Some Hk.
    + split; [done|]. split; [done|]. intros y. rewrite E9, E3, lookup_insert_eq. intros [= <-]. cbn.
      split; [done|]. by exists (re_record e), bk.
    + destruct (HM d k Hd Hk) as (M1 & M2 & M3). split; [done|]. split; [done|].
      rewrite E9, E3, lookup_insert_ne by done. done.
  - intros d y. rewrite E9. intros [[<- <-]|[_ Hd]]%lookup_insert_Some; [apply NoDup_singleton|by eapply HN].
Qed.

(** ** Example: a motor and a device that claims the bus *)

Definition publish_or_keep (device bus : nat) (rc : Recipe) (m : Manager) : Manager :=
  match PublishRoutesLocked device bus rc m with Some (_, m) => m | None => m end.

Definition example_bus : Manager :=
  insert_bus (mkBusKey 1 0) 10 (set_objects (set_adapters {[1%nat]} empty_objects) new_manager).
(** Motor 20 at index 5. *)
Definition example_motor : Manager :=
  commit_device (motor_key 10 5) 20 (publish_or_keep 20 10 (mkRecipe [5] false true false) example_bus).
(** Device 21 takes what nobody else takes. *)
Definition example_manager : Manager := publish_or_keep 21 10 (mkRecipe [] true true false) example_motor.

Lemma tables_empty o : devices o = ∅ -> device_keys o = ∅ -> buses o = ∅ -> bus_keys o = ∅ ->
  Tables (mkManager o empty_routing empty_statuses).
Proof.
  intros E1 E2 E3 E4. constructor; cbn.
  - constructor; rewrite ?E1, ?E2, ?E3, ?E4; done.
  - by constructor.
  - by constructor.
  - intros d k. by rewrite E2.
  - done.
Qed.

Lemma tables_publish_or_keep device bus rc m :
  Tables m -> device_keys (objects m) !! device = None -> Tables (publish_or_keep device bus rc m).
Proof.
  intros HT Hd. unfold publish_or_keep. destruct (PublishRoutesLocked _ _ _ _) as [[b m']|] eqn:E; [|done].
  by eapply tables_publish.
Qed.

Lemma example_motor_tables : Tables example_motor.
Proof.
  apply tables_commit; [|done|done|by eexists|].
  - apply tables_publish_or_keep; [|done]. by apply tables_insert_bus; [apply tables_empty|..].
  - intros _. split; [done|]. split; [done|]. intros reg Hreg. vm_compute in Hreg. injection Hreg as <-.
    split; [done|]. exists 0%nat, (mkBusKey 1 0). done.
Qed.

Lemma example_tables : Tables example_manager.
Proof. apply tables_publish_or_keep; [apply example_motor_tables|done]. Qed.
