(* ===== verification/ManagerLifetime.v ===== *)
(** * ManagerLifetime: creation, use and deletion of buses and devices

    The critical sections of [DriverManager] interleaved by any number of threads:
    [CreateDevice], [DestroyDevice], [CreateBus], [DestroyBus], the callbacks of
    [DispatchReceive], the public operations inside a gate and [Motor::SetId].
    The heap is explicit: [heap !! x] is the object at address [x] and how far its
    creation or deletion has come, freeing removes it and the allocator may use the
    address again.  A gate is what [OperationGate] promises: it can be entered
    while it is open, and once it is retired and nobody is inside it stays so.

    Adapters are alive throughout; gloves, [ResetBusMotorsToIdOne] and hooks for
    tests are left out.  A step may happen whenever its guard allows, whoever
    takes it: that a callback may not delete its own device only removes steps. *)
From stdpp Require Import base list numbers option gmap relations.
From Stdlib Require Import ZArith Lia.
From S2P Require Import Prelude Types.
From S2P Require Import OperationGate.
From S2P Require Import DriverManager.
From S2P Require Import ManagerTables.
#[local] Open Scope Z_scope.

(** ** State *)

(** Why a device is taken down: [CreateDevice] failed, or [DestroyDevice]. *)
Inductive Why := Failure | Destruction.

Inductive DevicePhase :=
  | Constructed (k : DeviceKey)              (* [recipe.construct()], gate registered *)
  | Published (k : DeviceKey)                (* [PublishRoutesLocked] succeeded, initialising *)
  | Live                                     (* in [devices] and [device_keys] *)
  | Draining (w : Why) (k : DeviceKey) (todo : list RouteEntry)  (* detached, waiting for callbacks *)
  | GateWait (w : Why) (k : DeviceKey)       (* in [gate->WaitForDrain] *)
  | Erasing (w : Why) (k : DeviceKey)        (* gate reclaimed *)
  | Freeing (w : Why) (k : DeviceKey).       (* keys erased *)

Inductive BusPhase :=
  | BConstructed | BLive
  | BGateWait       (* in [deleting], in [operation_gate->WaitForDrain] *)
  | BChildWait      (* in [WaitForChildCreations] *)
  | BChildren       (* destroying the children, in [WaitForBusChildren] *)
  | BErasing        (* no child is left *)
  | BFreeing.       (* keys erased *)

Inductive Object := ODevice (bus : nat) (ph : DevicePhase) | OBus (bk : BusKey) (ph : BusPhase).

Inductive SetIdPhase := SEntered | SReserved | SReleased.

Record Life := mkLife {
  mgr : Manager;
  heap : gmap nat Object;
  gates : gmap nat bool;                   (* registered gates; [true]: retired *)
  inside : list nat;                       (* operations inside a gate, [SetId]s excepted *)
  setids : list (nat * Z * SetIdPhase);    (* [SetId]s inside the gate of their motor *)
  running : list nat;                      (* the route records of running callbacks *)
  creations : gmap DeviceKey (option nat); (* pending creations and the device they own *)
  ending : list nat;                       (* creations about to call [EndChildCreation(bus)] *)
  child_creations : gmap nat nat;          (* of buses *)
  deleting_device_parents : gmap nat nat;
  freed : gset nat;                        (* freed, about to leave [deleting] *)
  pending_buses : gset BusKey;
  initialising : list (BusKey * nat);      (* in [InitializeBusSyncMode] *)
  bad_initialise : bool                    (* which has touched a freed bus *)
}.

Definition new_life (adapters : gset nat) : Life :=
  mkLife (set_objects (set_adapters adapters empty_objects) new_manager)
    ∅ ∅ [] [] [] ∅ [] ∅ ∅ ∅ ∅ [] false.

Definition with_mgr (m : Manager) (L : Life) : Life :=
  mkLife m (heap L) (gates L) (inside L) (setids L) (running L) (creations L) (ending L) (child_creations L)
    (deleting_device_parents L) (freed L) (pending_buses L) (initialising L) (bad_initialise L).
Definition with_heap (h : gmap nat Object) (L : Life) : Life :=
  mkLife (mgr L) h (gates L) (inside L) (setids L) (running L) (creations L) (ending L) (child_creations L)
    (deleting_device_parents L) (freed L) (pending_buses L) (initialising L) (bad_initialise L).
Definition with_gates (g : gmap nat bool) (L : Life) : Life :=
  mkLife (mgr L) (heap L) g (inside L) (setids L) (running L) (creations L) (ending L) (child_creations L)
    (deleting_device_parents L) (freed L) (pending_buses L) (initialising L) (bad_initialise L).
Definition with_inside (l : list nat) (L : Life) : Life :=
  mkLife (mgr L) (heap L) (gates L) l (setids L) (running L) (creations L) (ending L) (child_creations L)
    (deleting_device_parents L) (freed L) (pending_buses L) (initialising L) (bad_initialise L).
Definition with_setids (l : list (nat * Z * SetIdPhase)) (L : Life) : Life :=
  mkLife (mgr L) (heap L) (gates L) (inside L) l (running L) (creations L) (ending L) (child_creations L)
    (deleting_device_parents L) (freed L) (pending_buses L) (initialising L) (bad_initialise L).
Definition with_running (l : list nat) (L : Life) : Life :=
  mkLife (mgr L) (heap L) (gates L) (inside L) (setids L) l (creations L) (ending L) (child_creations L)
    (deleting_device_parents L) (freed L) (pending_buses L) (initialising L) (bad_initialise L).
Definition with_creations (c : gmap DeviceKey (option nat)) (e : list nat) (n : gmap nat nat) (L : Life) : Life :=
  mkLife (mgr L) (heap L) (gates L) (inside L) (setids L) (running L) c e n
    (deleting_device_parents L) (freed L) (pending_buses L) (initialising L) (bad_initialise L).
Definition with_freed (p : gmap nat nat) (f : gset nat) (L : Life) : Life :=
  mkLife (mgr L) (heap L) (gates L) (inside L) (setids L) (running L) (creations L) (ending L) (child_creations L)
    p f (pending_buses L) (initialising L) (bad_initialise L).
Definition with_buses (p : gset BusKey) (i : list (BusKey * nat)) (bad : bool) (L : Life) : Life :=
  mkLife (mgr L) (heap L) (gates L) (inside L) (setids L) (running L) (creations L) (ending L) (child_creations L)
    (deleting_device_parents L) (freed L) p i bad.

Definition set_phase (d bus : nat) (ph : DevicePhase) (L : Life) : Life := with_heap (<[d := ODevice bus ph]> (heap L)) L.
Definition set_bus_phase (b : nat) (bk : BusKey) (ph : BusPhase) (L : Life) : Life := with_heap (<[b := OBus bk ph]> (heap L)) L.

Definition pend (ks : gset DeviceKey) (m : Manager) : Manager := set_objects (set_pending ks (objects m)) m.
Definition mark_deleting (xs : gset nat) (m : Manager) : Manager := set_objects (set_deleting xs (objects m)) m.

Definition gate_free (x : nat) (L : Life) : bool :=
  bool_decide (x ∉ inside L) && forallb (fun '(d, _, _) => negb (bool_decide (d = x))) (setids L).

(** The recipe of a device: its routes follow from its key, but for external devices. *)
Definition recipe_ok (k : DeviceKey) (rc : Recipe) : bool :=
  match dk_kind k with
  | KMotor => bool_decide (rc_can_ids rc = [u32 (dk_idx k)]) && negb (rc_claims_bus rc)
  | _ => true
  end.

(** A C++ key: motors carry no tokens. *)
Definition key_ok (k : DeviceKey) : bool :=
  (-2147483648 <=? dk_idx k) && (dk_idx k <? 2147483648) &&
  match dk_kind k with KMotor => bool_decide (k = motor_key (dk_bus k) (dk_idx k)) | _ => true end.

Definition remove_nth {A} (n : nat) (l : list A) : list A := delete n l.

Definition begin_child (bus : nat) (n : gmap nat nat) : gmap nat nat := <[bus := S (default 0%nat (n !! bus))]> n.
Definition end_child (bus : nat) (n : gmap nat nat) : gmap nat nat :=
  match n !! bus with
  | None => n
  | Some c => if (pred c =? 0)%nat then delete bus n else <[bus := pred c]> n
  end.

(** ** Steps *)

Inductive Action :=
  (* CreateDevice *)
  | ACreate (k : DeviceKey) | AConstruct (k : DeviceKey) (d : nat) | APublish (d : nat) (rc : Recipe)
  | ACommit (d : nat) | AFail (d : nat) | AConstructFails (k : DeviceKey) | AEndCreation (i : nat)
  (* DestroyDevice and DrainDevice *)
  | ADestroy (d : nat) | ADrainRoute (d : nat) | ADrainGate (d : nat) | AErase (d : nat) | AFree (d : nat)
  | AFinish (x : nat)
  (* CreateBus *)
  | ACreateBus (bk : BusKey) | AConstructBus (bk : BusKey) (b : nat) | APublishBus (b : nat) | AFailBus (b : nat)
  | AInitialised (i : nat)
  (* DestroyBus *)
  | ADestroyBus (b : nat) | ADrainBus (b : nat) | ANoCreations (b : nat) | ANoChildren (b : nat)
  | AEraseBus (b : nat) | AFreeBus (b : nat)
  (* operations *)
  | AEnter (x : nat) | ALeave (i : nat)
  (* DispatchReceive *)
  | ACall (key : RouteKey) | ACallClaim (bk : BusKey) | AReturn (i : nat)
  (* Motor::SetId *)
  | ASetId (d : nat) (n : Z) | AReserve (i : nat) | AMigrate (i : nat) | ARelease (i : nat) | ASetIdDone (i : nat).

(** [EndChildCreation] follows for the creation of [k]. *)
Definition finish_creation (k : DeviceKey) (L : Life) : Life :=
  with_creations (delete k (creations L)) (dk_bus k :: ending L) (child_creations L)
    (with_mgr (pend (pending_devices (objects (mgr L)) ∖ {[k]}) (mgr L)) L).

(** Retires the gate and detaches the routes of [d]. *)
Definition take_down (w : Why) (k : DeviceKey) (bus d : nat) (L : Life) : Life :=
  let (entries, m) := DetachRegistrationLocked d (mgr L) in
  set_phase d bus (Draining w k entries) (with_gates (<[d := true]> (gates L)) (with_mgr m L)).

Definition device_act (a : Action) (L : Life) : option Life :=
  let m := mgr L in let o := objects m in
  match a with
  | ACreate k =>
      if key_ok k && parent_usable (dk_bus k) m && bool_decide (devices o !! k = None) &&
         bool_decide (k ∉ pending_devices o)
      then Some (with_creations (<[k := None]> (creations L)) (ending L) (begin_child (dk_bus k) (child_creations L))
                  (with_mgr (pend (pending_devices o ∪ {[k]}) m) L))
      else None
  | AConstruct k d =>
      match creations L !! k, heap L !! d with
      | Some None, None =>
          Some (set_phase d (dk_bus k) (Constructed k) (with_gates (<[d := false]> (gates L))
                 (with_creations (<[k := Some d]> (creations L)) (ending L) (child_creations L) L)))
      | _, _ => None
      end
  | AConstructFails k =>
      match creations L !! k with Some None => Some (finish_creation k L) | _ => None end
  | APublish d rc =>
      match heap L !! d with
      | Some (ODevice bus (Constructed k)) =>
          if parent_usable bus m && recipe_ok k rc then
            match PublishRoutesLocked d bus rc m with
            | Some (true, m) => Some (set_phase d bus (Published k) (with_mgr m L))
            | _ => None
            end
          else None
      | _ => None
      end
  | ACommit d =>
      match heap L !! d with
      | Some (ODevice bus (Published k)) =>
          if parent_usable bus m then
            let m := if bool_decide (dk_kind k = KMotor)
                     then ApplyMotorStatusConfigurationLocked bus (dk_idx k) d m else m in
            Some (set_phase d bus Live (finish_creation k (with_mgr (commit_device k d m) L)))
          else None
      | _ => None
      end
  | AFail d =>
      match heap L !! d with
      | Some (ODevice bus (Constructed k)) | Some (ODevice bus (Published k)) => Some (take_down Failure k bus d L)
      | _ => None
      end
  | AEndCreation i =>
      match ending L !! i with
      | Some bus => Some (with_creations (creations L) (remove_nth i (ending L)) (end_child bus (child_creations L)) L)
      | None => None
      end
  | ADestroy d =>
      match device_keys o !! d with
      | Some k =>
          if bool_decide (d ∉ deleting o) then
            Some (with_freed (<[d := dk_bus k]> (deleting_device_parents L)) (freed L)
                   (take_down Destruction k (dk_bus k) d (with_mgr (mark_deleting (deleting o ∪ {[d]}) m) L)))
          else None
      | None => None
      end
  | ADrainRoute d =>
      match heap L !! d with
      | Some (ODevice bus (Draining w k (e :: todo))) =>
          match records (routing m) !! re_record e with
          | Some rr => if (rr_in_flight rr =? 0)%nat then Some (set_phase d bus (Draining w k todo) L) else None
          | None => None
          end
      | Some (ODevice bus (Draining w k [])) => Some (set_phase d bus (GateWait w k) L)
      | _ => None
      end
  | ADrainGate d =>
      match heap L !! d with
      | Some (ODevice bus (GateWait w k)) =>
          if gate_free d L then Some (set_phase d bus (Erasing w k) (with_gates (delete d (gates L)) L)) else None
      | _ => None
      end
  | AErase d =>
      match heap L !! d with
      | Some (ODevice bus (Erasing w k)) => Some (set_phase d bus (Freeing w k) (with_mgr (erase_device k d m) L))
      | _ => None
      end
  | AFree d =>
      match heap L !! d with
      | Some (ODevice bus (Freeing Failure k)) => Some (finish_creation k (with_heap (delete d (heap L)) L))
      | Some (ODevice bus (Freeing Destruction k)) =>
          Some (with_freed (deleting_device_parents L) (freed L ∪ {[d]}) (with_heap (delete d (heap L)) L))
      | _ => None
      end
  | AFinish x =>
      if bool_decide (x ∈ freed L) then
        Some (with_freed (delete x (deleting_device_parents L)) (freed L ∖ {[x]})
               (with_mgr (mark_deleting (deleting o ∖ {[x]}) m) L))
      else None
  | _ => None
  end.

Definition bus_act (a : Action) (L : Life) : option Life :=
  let m := mgr L in let o := objects m in
  match a with
  | ACreateBus bk =>
      if adapter_usable (bk_adapter bk) m && bool_decide (buses o !! bk = None) && bool_decide (bk ∉ pending_buses L)
      then Some (with_buses (pending_buses L ∪ {[bk]}) (initialising L) (bad_initialise L) L)
      else None
  | AConstructBus bk b =>
      if bool_decide (bk ∈ pending_buses L) && bool_decide (buses o !! bk = None) && bool_decide (heap L !! b = None)
      then Some (set_bus_phase b bk BConstructed L) else None
  | APublishBus b =>
      match heap L !! b with
      | Some (OBus bk BConstructed) =>
          (* the index of a bus is an [int] *)
          if negb (is_deleting (bk_adapter bk) m) && bool_decide (buses o !! bk = None) &&
             (-2147483648 <=? bk_raw_idx bk) && (bk_raw_idx bk <? 2147483648) then
            Some (set_bus_phase b bk BLive (with_gates (<[b := false]> (gates L))
                   (with_buses (pending_buses L) ((bk, b) :: initialising L) (bad_initialise L)
                     (with_mgr (insert_bus bk b m) L))))
          else None
      | _ => None
      end
  | AFailBus b =>
      match heap L !! b with
      | Some (OBus bk BConstructed) =>
          Some (with_heap (delete b (heap L)) (with_buses (pending_buses L ∖ {[bk]}) (initialising L) (bad_initialise L) L))
      | _ => None
      end
  | AInitialised i =>
      match initialising L !! i with
      | Some (bk, b) =>
          let ok := match heap L !! b with Some (OBus bk' _) => bool_decide (bk' = bk) | _ => false end in
          Some (with_buses (pending_buses L ∖ {[bk]}) (remove_nth i (initialising L)) (bad_initialise L || negb ok) L)
      | None => None
      end
  | ADestroyBus b =>
      match bus_keys o !! b with
      | Some bk =>
          if bool_decide (b ∉ deleting o) then
            let child d := match device_keys o !! d with Some k => bool_decide (dk_bus k = b) | None => false end in
            Some (set_bus_phase b bk BGateWait
                   (with_gates (map_imap (fun x g => Some (g || bool_decide (x = b) || child x)) (gates L))
                     (with_mgr (set_routing (set_domain_buses (delete bk (domain_buses (routing m))) (routing m))
                                 (mark_deleting (deleting o ∪ {[b]}) m)) L)))
          else None
      | None => None
      end
  | ADrainBus b =>
      match heap L !! b with
      | Some (OBus bk BGateWait) =>
          if gate_free b L then Some (set_bus_phase b bk BChildWait (with_gates (delete b (gates L)) L)) else None
      | _ => None
      end
  | ANoCreations b =>
      match heap L !! b with
      | Some (OBus bk BChildWait) =>
          if bool_decide (child_creations L !! b = None) then Some (set_bus_phase b bk BChildren L) else None
      | _ => None
      end
  | ANoChildren b =>
      match heap L !! b with
      | Some (OBus bk BChildren) =>
          if forallb (fun '(k, _) => negb (bool_decide (dk_bus k = b))) (map_to_list (devices o)) &&
             forallb (fun '(_, p) => negb (bool_decide (p = b))) (map_to_list (deleting_device_parents L))
          then Some (set_bus_phase b bk BErasing L) else None
      | _ => None
      end
  | AEraseBus b =>
      match heap L !! b with
      | Some (OBus bk BErasing) => Some (set_bus_phase b bk BFreeing (with_mgr (erase_bus bk b m) L))
      | _ => None
      end
  | AFreeBus b =>
      match heap L !! b with
      | Some (OBus bk BFreeing) =>
          Some (with_freed (deleting_device_parents L) (freed L ∪ {[b]}) (with_heap (delete b (heap L)) L))
      | _ => None
      end
  | _ => None
  end.

Definition call (n : nat) (L : Life) : option Life :=
  match ready_record (routing (mgr L)) n with
  | Some n => Some (with_running (n :: running L) (with_mgr (set_routing (enter_route n (routing (mgr L))) (mgr L)) L))
  | None => None
  end.

Definition use_act (a : Action) (L : Life) : option Life :=
  let m := mgr L in
  match a with
  | AEnter x => if bool_decide (gates L !! x = Some false) then Some (with_inside (x :: inside L) L) else None
  | ALeave i => match inside L !! i with Some _ => Some (with_inside (remove_nth i (inside L)) L) | None => None end
  | ACall key => match routes (routing m) !! key with Some n => call n L | None => None end
  | ACallClaim bk => match claim_routes (routing m) !! bk with Some n => call n L | None => None end
  | AReturn i =>
      match running L !! i with
      | Some n => Some (with_running (remove_nth i (running L)) (with_mgr (set_routing (leave_route n (routing m)) m) L))
      | None => None
      end
  | ASetId d n =>
      if bool_decide (gates L !! d = Some false) && (-2147483648 <=? n) && (n <? 2147483648)
      then Some (with_setids ((d, n, SEntered) :: setids L) L) else None
  | AReserve i =>
      match setids L !! i with
      | Some (d, n, SEntered) =>
          let (ok, m) := ReserveMotorIndex d n m in
          Some (with_setids (<[i := (d, n, if ok then SReserved else SReleased)]> (setids L)) (with_mgr m L))
      | _ => None
      end
  | AMigrate i =>
      match setids L !! i with
      | Some (d, n, SReserved) => Some (with_mgr (snd (MigrateMotorIndex d n m)) L)
      | _ => None
      end
  | ARelease i =>
      match setids L !! i with
      | Some (d, n, SReserved) =>
          Some (with_setids (<[i := (d, n, SReleased)]> (setids L)) (with_mgr (ReleaseMotorIndexReservation d n m) L))
      | _ => None
      end
  | ASetIdDone i =>
      match setids L !! i with
      | Some (_, _, SReleased) => Some (with_setids (remove_nth i (setids L)) L)
      | _ => None
      end
  | _ => None
  end.

(** Every action belongs to one of the three. *)
Definition act (a : Action) (L : Life) : option Life :=
  match device_act a L with
  | Some L' => Some L'
  | None => match bus_act a L with Some L' => Some L' | None => use_act a L end
  end.

Fixpoint run (actions : list Action) (L : Life) : option Life :=
  match actions with
  | [] => Some L
  | a :: rest => match act a L with Some L' => run rest L' | None => None end
  end.

(** [MigrateMotorIndex] does not look at [pending_devices]: a motor may move to the
    key of a device that is being created.  [no_clash] leaves that step out. *)
Definition no_clash (a : Action) (L : Life) : bool :=
  match a with
  | AMigrate i =>
      match setids L !! i with
      | Some (d, n, _) =>
          match device_keys (objects (mgr L)) !! d with
          | Some k => bool_decide (motor_key (dk_bus k) n ∉ pending_devices (objects (mgr L)))
          | None => true
          end
      | None => true
      end
  | _ => true
  end.

Inductive lifetime_step : Life -> Life -> Prop :=
  | LifetimeStep a L L' : act a L = Some L' -> no_clash a L = true -> lifetime_step L L'.

Definition reachable (adapters : gset nat) (L : Life) : Prop := rtc lifetime_step (new_life adapters) L.
