(* ===== verification/LifetimeInvariant.v ===== *)
(** * LifetimeInvariant: what holds of the driver manager between two steps

    The invariant of the interleavings of [ManagerLifetime]: the phase of every
    object in the heap agrees with the tables that mention its address, a device
    implies a bus that still hosts devices, a callback in flight implies a device
    that is not past its drain, and what the critical sections of [DriverManager]
    change of all this. *)
From stdpp Require Import base list numbers option gmap relations.
From Stdlib Require Import ZArith Lia.
From S2P Require Import Prelude Types.
From S2P Require Import DriverManager.
From S2P Require Import ManagerTables.
From S2P Require Import ManagerLifetime.
#[local] Open Scope Z_scope.

(** ** Views of the tables *)

(** The bus of a registration and the records of its entries. *)
Definition shape (reg : DeviceRegistration) : nat * list nat := (rg_bus reg, re_record <$> rg_routes reg).
Definition shapes (r : Routing) (d : nat) : option (nat * list nat) := shape <$> registrations r !! d.

(** The owner of a record and its callbacks in flight. *)
Definition flight (rr : RouteRecord) : nat * nat * nat := (rr_device rr, rr_bus rr, rr_in_flight rr).
Definition flights (r : Routing) (n : nat) : option (nat * nat * nat) := flight <$> records r !! n.

(** ** What the phase of an object says *)

Definition registered_bus (ob : option Object) : option nat :=
  match ob with Some (ODevice bus (Published _)) | Some (ODevice bus Live) => Some bus | _ => None end.

Definition doomed (w : Why) (k : DeviceKey) : option DeviceKey :=
  match w with Destruction => Some k | Failure => None end.
Definition failed (w : Why) (k : DeviceKey) : option DeviceKey :=
  match w with Failure => Some k | Destruction => None end.

(** The key of a device being destroyed, until it is erased. *)
Definition doomed_key (ob : option Object) : option DeviceKey :=
  match ob with
  | Some (ODevice _ (Draining w k _)) | Some (ODevice _ (GateWait w k)) | Some (ODevice _ (Erasing w k)) => doomed w k
  | _ => None
  end.
Definition key_agrees (ob : option Object) (k : option DeviceKey) : Prop :=
  match ob with
  | Some (ODevice bus Live) => exists k', k = Some k' /\ dk_bus k' = bus
  | _ => k = doomed_key ob
  end.

(** The key whose pending creation owns the device. *)
Definition creation_key (ob : option Object) : option DeviceKey :=
  match ob with
  | Some (ODevice _ (Constructed k)) | Some (ODevice _ (Published k)) => Some k
  | Some (ODevice _ (Draining w k _)) | Some (ODevice _ (GateWait w k))
  | Some (ODevice _ (Erasing w k)) | Some (ODevice _ (Freeing w k)) => failed w k
  | _ => None
  end.
Definition bus_key_of (ob : option Object) : option BusKey :=
  match ob with
  | Some (OBus bk (BLive | BGateWait | BChildWait | BChildren | BErasing)) => Some bk
  | _ => None
  end.
Definition has_gate (ob : option Object) : bool :=
  match ob with
  | Some (ODevice _ (Constructed _ | Published _ | Live | Draining _ _ _ | GateWait _ _)) => true
  | Some (OBus _ (BLive | BGateWait)) => true
  | _ => false
  end.
Definition destruction (w : Why) : bool := match w with Destruction => true | Failure => false end.
Definition destroying (ob : option Object) : bool :=
  match ob with
  | Some (ODevice _ (Draining w _ _)) | Some (ODevice _ (GateWait w _))
  | Some (ODevice _ (Erasing w _)) | Some (ODevice _ (Freeing w _)) => destruction w
  | Some (OBus _ (BGateWait | BChildWait | BChildren | BErasing | BFreeing)) => true
  | _ => false
  end.
Definition parent_of (ob : option Object) : option nat :=
  match ob with Some (ODevice bus _) => Some bus | _ => None end.
(** A bus that may have devices; one that may have creations of devices. *)
Definition hosts (ob : option Object) : bool :=
  match ob with Some (OBus _ (BLive | BGateWait | BChildWait | BChildren)) => true | _ => false end.
Definition creating (ob : option Object) : bool :=
  match ob with Some (OBus _ (BLive | BGateWait | BChildWait)) => true | _ => false end.
Definition phase_key (ph : DevicePhase) : option DeviceKey :=
  match ph with
  | Live => None
  | Constructed k | Published k | Draining _ k _ | GateWait _ k | Erasing _ k | Freeing _ k => Some k
  end.

(** ** The invariant *)

(** An object against the tables, at its address. *)
Record View := mkView {
  vw_object : option Object;
  vw_registered : option nat;
  vw_key : option DeviceKey;
  vw_bus_key : option BusKey;
  vw_gate : bool;
  vw_deleting : bool;
  vw_freed : bool;
  vw_parent : option nat
}.
Definition view (L : Life) (x : nat) : View :=
  mkView (heap L !! x) (fst <$> shapes (routing (mgr L)) x) (device_keys (objects (mgr L)) !! x)
    (bus_keys (objects (mgr L)) !! x) (bool_decide (is_Some (gates L !! x)))
    (bool_decide (x ∈ deleting (objects (mgr L)))) (bool_decide (x ∈ freed L)) (deleting_device_parents L !! x).

Record Agrees (v : View) : Prop := {
  ag_registered : vw_registered v = registered_bus (vw_object v);
  ag_key : key_agrees (vw_object v) (vw_key v);
  ag_bus : vw_bus_key v = bus_key_of (vw_object v);
  ag_gate : vw_gate v = has_gate (vw_object v);
  ag_deleting : vw_deleting v = vw_freed v || destroying (vw_object v);
  ag_freed : vw_freed v && destroying (vw_object v) = false;
  ag_parent : forall bus, parent_of (vw_object v) = Some bus -> destroying (vw_object v) = true -> vw_parent v = Some bus;
  ag_phase : forall bus ph k, vw_object v = Some (ODevice bus ph) -> phase_key ph = Some k -> dk_bus k = bus
}.

(** The number of pending creations of devices on a bus. *)
Definition creations_on (b : nat) (c : gmap DeviceKey (option nat)) : nat :=
  size (filter (fun p => dk_bus p.1 = b) c).

Record Creating (L : Life) : Prop := {
  c_device : forall k d, creations L !! k = Some (Some d) <-> creation_key (heap L !! d) = Some k;
  c_pending : forall k, k ∈ pending_devices (objects (mgr L)) <-> is_Some (creations L !! k);
  c_free : forall k, is_Some (creations L !! k) -> devices (objects (mgr L)) !! k = None /\ key_ok k = true;
  c_bus : forall k, is_Some (creations L !! k) -> creating (heap L !! dk_bus k) = true;
  c_count : forall b, default 0%nat (child_creations L !! b) = (creations_on b (creations L) + count_occ Nat.eq_dec (ending L) b)%nat;
  c_nonzero : forall b, child_creations L !! b <> Some 0%nat
}.

(** A published motor has the one route of its key. *)
Definition Shaped (L : Life) : Prop :=
  forall d bus k, heap L !! d = Some (ODevice bus (Published k)) -> dk_kind k = KMotor ->
    motor_ok (objects (mgr L)) (routing (mgr L)) d k.

(** The entry of a running callback is registered or waits to be drained. *)
Definition attached (L : Life) (n d : nat) : Prop :=
  (exists bus l, shapes (routing (mgr L)) d = Some (bus, l) /\ n ∈ l) \/
  (exists bus w k todo, heap L !! d = Some (ODevice bus (Draining w k todo)) /\ n ∈ re_record <$> todo).

Record Running (L : Life) : Prop := {
  u_count : forall n d bus c, flights (routing (mgr L)) n = Some (d, bus, c) -> c = count_occ Nat.eq_dec (running L) n;
  u_running : forall n, n ∈ running L ->
    exists d bus c, flights (routing (mgr L)) n = Some (d, bus, c) /\ attached L n d /\ parent_of (heap L !! d) = Some bus
}.

Record Gated (L : Life) : Prop := {
  i_inside : forall x, x ∈ inside L -> is_Some (gates L !! x);
  i_setid : forall d n ph, (d, n, ph) ∈ setids L -> is_Some (gates L !! d) /\ int_ok n;
  i_reserved : forall k v, motor_index_reservations (statuses (mgr L)) !! k = Some v ->
    (rv_motor v, dk_idx k, SReserved) ∈ setids L
}.

Record Inv (L : Life) : Prop := {
  n_tables : Tables (mgr L);
  n_agrees : forall x, Agrees (view L x);
  n_hosted : forall d bus, parent_of (heap L !! d) = Some bus -> hosts (heap L !! bus) = true;
  n_creating : Creating L;
  n_shaped : Shaped L;
  n_running : Running L;
  n_gated : Gated L
}.

(** ** What the critical sections change *)

Lemma flights_alter f r n n' :
  (forall rr, rr_device (f rr) = rr_device rr /\ rr_bus (f rr) = rr_bus rr) ->
  flights (set_records (alter f n (records r)) r) n' =
    (if decide (n = n') then (fun rr => flight (f rr)) <$> records r !! n' else flights r n').
Proof.
  intros Hf. unfold flights. cbn. destruct (decide (n = n')) as [<-|Hne].
  - rewrite lookup_alter_eq. by destruct (records r !! n).
  - by rewrite lookup_alter_ne.
Qed.

Lemma enter_flights n n' r :
  flights (enter_route n r) n' =
    (if decide (n = n') then (fun '(d, b, c) => (d, b, S c)) <$> flights r n' else flights r n').
Proof.
  unfold enter_route. rewrite flights_alter by done. case_decide; [|done]. unfold flights. by destruct (records r !! n').
Qed.
Lemma leave_flights n n' r :
  flights (leave_route n r) n' =
    (if decide (n = n') then (fun '(d, b, c) => (d, b, pred c)) <$> flights r n' else flights r n').
Proof.
  unfold leave_route. rewrite flights_alter by done. case_decide; [|done]. unfold flights. by destruct (records r !! n').
Qed.

Lemma publish_effect device bus rc m m' :
  Tables m -> PublishRoutesLocked device bus rc m = Some (true, m') ->
  objects m' = objects m /\ statuses m' = statuses m /\ registrations (routing m) !! device = None /\
  exists bk entries, bus_keys (objects m) !! bus = Some bk /\
    registrations (routing m') =
      <[device := mkRegistration (bk_adapter bk) bus entries (rc_cancel_waiters rc)]> (registrations (routing m)) /\
    (rc_claims_bus rc = false -> re_key <$> entries = route_of bk <$> rc_can_ids rc /\
       forall e, e ∈ entries -> re_claim e = false) /\
    forall n, flights (routing m') n = flights (routing m) n \/
      (flights (routing m) n = None /\ flights (routing m') n = Some (device, bus, 0%nat)).
Proof.
  intros HT H. unfold PublishRoutesLocked in H. destruct (bus_keys (objects m) !! bus) as [bk|] eqn:Hbk; [|done].
  assert (Hrec : forall entries h, (forall i x, entries !! i = Some x -> re_record x = (next_record (routing m) + i)%nat) ->
    h = insert_all re_record (fun _ => new_record device bus (bk_adapter bk) rc) entries (records (routing m)) ->
    forall n, flight <$> h !! n = flights (routing m) n \/
      (flights (routing m) n = None /\ flight <$> h !! n = Some (device, bus, 0%nat))).
  { intros entries h Hent -> n. unfold flights.
    destruct (insert_all re_record _ entries _ !! n) as [rr|] eqn:E.
    - apply insert_all_cases in E as [(e & [i Hi]%list_elem_of_lookup & <- & <-)|[_ E]]; [right|left; by rewrite E].
      rewrite (Hent i e Hi). destruct (records (routing m) !! (next_record (routing m) + i)%nat) as [y|] eqn:Ey; [|done].
      apply (r_fresh _ _ (t_routing _ HT)) in Ey. lia.
    - left. destruct (records (routing m) !! n) as [y|] eqn:Ey; [|done]. exfalso.
      rewrite insert_all_notin in E; [congruence|]. intros e [i Hi]%list_elem_of_lookup <-.
      rewrite (Hent i e Hi) in Ey. apply (r_fresh _ _ (t_routing _ HT)) in Ey. lia. }
  destruct (rc_claims_bus rc) eqn:Hclaim.
  - case_bool_decide as Hc; [done|]. case_bool_decide as Hr; [done|]. apply eq_None_not_Some in Hr. injection H as <-.
    split_and!; try done. eexists bk, _. split; [done|]. split; [reflexivity|]. split; [done|].
    eapply Hrec; [|reflexivity]. intros [|i] x Hx; [|done]. injection Hx as <-. cbn. lia.
  - destruct (PrepareRoutes _ _ _ _ _ _ _) as [entries|] eqn:Hp; [|done]. case_bool_decide as Hr; [done|].
    apply eq_None_not_Some in Hr. injection H as <-. split_and!; try done. exists bk, entries. split; [done|]. split; [reflexivity|].
    pose proof (PrepareRoutes_ok _ _ _ _ _ _ _ _ Hp (prepared_nil _ _ _)) as [_ Hall].
    split; [|eapply Hrec; [|reflexivity]; intros i x Hi; by destruct (Hall i x Hi)].
    intros _. split; [|intros e [i Hi]%list_elem_of_lookup; by destruct (Hall i e Hi) as (_ & ? & _)].
    clear Hall Hrec. assert (Hk : forall ids prepared, PrepareRoutes device bus bk rc (routing m) ids prepared = Some entries ->
      re_key <$> entries = (re_key <$> prepared) ++ (route_of bk <$> ids)).
    { induction ids as [|c ids IH]; intros prepared; cbn [PrepareRoutes]; [intros [= ->]; by rewrite app_nil_r|].
      destruct (_ || _ || _); [done|]. intros E. apply IH in E. rewrite E, fmap_app, <- app_assoc. done. }
    by apply (Hk _ []) in Hp.
Qed.

Lemma detach_effect device m :
  Tables m ->
  let (entries, m') := DetachRegistrationLocked device m in
  objects m' = objects m /\ statuses m' = statuses m /\
  registrations (routing m') = delete device (registrations (routing m)) /\
  entries = match registrations (routing m) !! device with Some reg => rg_routes reg | None => [] end /\
  forall n, flights (routing m') n = flights (routing m) n.
Proof.
  intros HT. unfold DetachRegistrationLocked. destruct (registrations (routing m) !! device) as [reg|] eqn:Hreg.
  - set (r0 := set_registrations _ _). destruct (detach_fold_spec (rg_routes reg) r0) as (Er & _).
    split_and!; try done. intros n. cbn [routing set_routing].
    assert (Hfold : forall l r, flights (fold_left detach_entry l r) n = flights r n).
    { induction l as [|e l IH]; intros r; [done|]. cbn [fold_left]. rewrite IH. clear.
      transitivity (flights (set_records (alter retire (re_record e) (records r)) r) n).
      - unfold detach_entry. destruct (re_claim e); by case_bool_decide.
      - rewrite flights_alter by done. case_decide; [|done]. unfold flights. by destruct (records r !! n). }
    rewrite Hfold. done.
  - split_and!; try done. symmetry. by apply delete_id.
Qed.

Lemma migrate_effect motor n m :
  Tables m -> int_ok n ->
  let (b, m') := MigrateMotorIndex motor n m in
  m' = m \/
  exists old, device_keys (objects m) !! motor = Some old /\ (motor ∉ deleting (objects m)) /\ dk_kind old = KMotor /\
    device_keys (objects m') = <[motor := motor_key (dk_bus old) n]> (device_keys (objects m)) /\
    devices (objects m') = <[motor_key (dk_bus old) n := motor]> (delete old (devices (objects m))) /\
    bus_keys (objects m') = bus_keys (objects m) /\
    pending_devices (objects m') = pending_devices (objects m) /\ deleting (objects m') = deleting (objects m) /\
    resetting_buses (objects m') = resetting_buses (objects m) /\
    (forall d, shapes (routing m') d = shapes (routing m) d) /\
    (forall d, d <> motor -> registrations (routing m') !! d = registrations (routing m) !! d) /\
    records (routing m') = records (routing m) /\
    motor_index_reservations (statuses m') =
      delete (motor_key (dk_bus old) n) (motor_index_reservations (statuses m)).
Proof.
  intros HT Hn. pose proof (migrate_ok motor n m) as H.
  assert (Hdel : motor ∈ deleting (objects m) -> MigrateMotorIndex motor n m = (false, m)).
  { intros Hd. unfold MigrateMotorIndex. destruct (device_keys (objects m) !! motor) as [old|]; [|done].
    unfold is_deleting. rewrite (bool_decide_true (motor ∈ _)) by done. by rewrite orb_true_r. }
  destruct (decide (motor ∈ deleting (objects m))) as [Hd|Hd]; [rewrite (Hdel Hd); by left|]. clear Hdel.
  destruct (MigrateMotorIndex motor n m) as [b m'].
  inversion H as [|old H1 H2 H3|old bk reg e cb install HM H1 H2 H3 H4]; subst; [by left|by left|right].
  exists old. destruct (migrated_eq m motor n old bk reg e cb install HT HM) as (E1 & E2 & E3 & _ & _ & _ & E7 & _ & E9 & _ & E11).
  split; [by eapply mv_key|]. split; [done|]. split; [by eapply mv_motor|].
  split; [exact E2|]. split; [exact E1|]. split; [exact E3|]. split; [done|]. split; [done|]. split; [done|].
  split; [|split; [|split; [exact E7|exact E11]]].
  - intros d. unfold shapes. rewrite E9. destruct (decide (d = motor)) as [->|Hne]; [|by rewrite lookup_insert_ne].
    rewrite lookup_insert_eq, (mv_registered _ _ _ _ _ _ _ HM). unfold shape. cbn.
    by rewrite (mv_entry _ _ _ _ _ _ _ HM).
  - intros d Hne. rewrite E9. by rewrite lookup_insert_ne.
Qed.

Lemma reserve_effect motor n m :
  Tables m -> int_ok n ->
  let (b, m') := ReserveMotorIndex motor n m in
  objects m' = objects m /\ (forall d, registrations (routing m') !! d = registrations (routing m) !! d) /\
  records (routing m') = records (routing m) /\
  forall k v, motor_index_reservations (statuses m') !! k = Some v ->
    motor_index_reservations (statuses m) !! k = Some v \/ (b = true /\ rv_motor v = motor /\ dk_idx k = n).
Proof.
  intros HT Hn. pose proof (reserve_ok motor n m HT Hn) as H. destruct (ReserveMotorIndex motor n m) as [b m'].
  inversion H as [|old H1 H2 H3|old v H1 H2 H3|old bk reg e cb install Hm H1 H2 H3 H4]; subst; split_and!; try done; auto.
  unfold reserve. cbn. intros k v [[<- <-]|[_ Hv]]%lookup_insert_Some; [right|left]; done.
Qed.

Lemma release_effect motor n m :
  Tables m ->
  let m' := ReleaseMotorIndexReservation motor n m in
  objects m' = objects m /\ (forall d, registrations (routing m') !! d = registrations (routing m) !! d) /\
  records (routing m') = records (routing m) /\
  forall k v, motor_index_reservations (statuses m') !! k = Some v ->
    motor_index_reservations (statuses m) !! k = Some v /\ (rv_motor v = motor -> dk_idx k <> n).
Proof.
  intros HT. unfold ReleaseMotorIndexReservation.
  assert (Hkey : forall k v, motor_index_reservations (statuses m) !! k = Some v -> rv_motor v = motor -> dk_idx k = n ->
    exists old, device_keys (objects m) !! motor = Some old /\ k = motor_key (dk_bus old) n).
  { intros k v Hv Em En. destruct (v_index _ _ _ (t_reservations _ HT) _ _ Hv) as (k0 & bk & G1 & _ & G3 & _).
    rewrite Em in G1. exists k0. split; [done|]. by rewrite G3, En. }
  destruct (device_keys (objects m) !! motor) as [old|] eqn:Hold.
  2:{ split_and!; try done. intros k v Hv. split; [done|]. intros Em En. by destruct (Hkey k v Hv Em En) as (? & ? & _). }
  destruct (motor_index_reservations (statuses m) !! motor_key (dk_bus old) n) as [res|] eqn:Hres.
  2:{ split_and!; try done. intros k v Hv. split; [done|]. intros Em En. destruct (Hkey k v Hv Em En) as (o & [= <-] & ->). congruence. }
  case_bool_decide as Em.
  - split; [done|]. cbn [routing set_statuses set_routing statuses motor_index_reservations set_index_reservations].
    split; [intros d; destruct (bus_keys (objects m) !! dk_bus old); [case_bool_decide|]; done|].
    split; [destruct (bus_keys (objects m) !! dk_bus old); [case_bool_decide|]; done|].
    intros k v [Hne Hv]%lookup_delete_Some. split; [done|]. intros Ev En. destruct (Hkey k v Hv Ev En) as (o & [= <-] & ->). done.
  - split_and!; try done. intros k v Hv. split; [done|]. intros Ev En. destruct (Hkey k v Hv Ev En) as (o & [= <-] & ->). congruence.
Qed.

(** ** Frames: what a step that leaves a group of tables alone preserves *)

Ltac lsimpl :=
  cbn [mgr heap gates inside setids running creations ending child_creations deleting_device_parents freed
       pending_buses initialising bad_initialise
       with_mgr with_heap with_gates with_inside with_setids with_running with_creations with_freed with_buses
       set_phase set_bus_phase finish_creation pend mark_deleting commit_device erase_device insert_bus erase_bus
       objects routing statuses set_objects set_routing set_statuses
       devices device_keys buses bus_keys pending_devices deleting resetting_buses adapter_names
       set_devices set_pending set_deleting set_buses set_adapters set_domain_buses
       registrations records vw_object vw_registered vw_key vw_bus_key vw_gate vw_deleting vw_freed vw_parent].

Lemma creating_frame L L' :
  Creating L ->
  creations L' = creations L -> ending L' = ending L -> child_creations L' = child_creations L ->
  pending_devices (objects (mgr L')) = pending_devices (objects (mgr L)) ->
  (forall d, creation_key (heap L' !! d) = creation_key (heap L !! d)) ->
  (forall b, creating (heap L !! b) = true -> creating (heap L' !! b) = true \/ creations_on b (creations L) = 0%nat) ->
  (forall k, is_Some (creations L !! k) -> devices (objects (mgr L)) !! k = None -> devices (objects (mgr L')) !! k = None) ->
  Creating L'.
Proof.
  intros [C1 C2 C3 C4 C5 C6] Ec Ee En Ep Hk Hb Hd. constructor; rewrite ?Ec, ?Ee, ?En, ?Ep; try done.
  - intros k d. rewrite Hk. apply C1.
  - intros k Hc. destruct (C3 k Hc) as [H1 H2]. split; [by apply Hd|done].
  - intros k Hc. destruct (Hb (dk_bus k) (C4 k Hc)) as [H|H]; [done|]. exfalso. destruct Hc as [v Hv].
    unfold creations_on in H. apply map_size_empty_inv in H.
    assert (filter (fun p : DeviceKey * option nat => dk_bus p.1 = dk_bus k) (creations L) !! k = Some v) as Hf
      by (by apply map_lookup_filter_Some).
    rewrite H in Hf. done.
Qed.

Lemma running_frame L L' :
  Running L -> running L' = running L ->
  (forall n, flights (routing (mgr L')) n = flights (routing (mgr L)) n \/
     (flights (routing (mgr L)) n = None /\ exists d bus, flights (routing (mgr L')) n = Some (d, bus, 0%nat))) ->
  (forall n d bus, n ∈ running L -> attached L n d -> parent_of (heap L !! d) = Some bus ->
     attached L' n d /\ parent_of (heap L' !! d) = Some bus) ->
  Running L'.
Proof.
  intros [U1 U2] Er Hf Ha. constructor; rewrite ?Er.
  - intros n d bus c Hn. destruct (Hf n) as [E|[E (d' & bus' & E')]]; [rewrite E in Hn; by eapply U1|].
    rewrite E' in Hn. injection Hn as <- <- <-. symmetry. apply count_occ_not_In. intros Hin%list_elem_of_In.
    destruct (U2 n Hin) as (d0 & b0 & c0 & H0 & _). congruence.
  - intros n Hn. destruct (U2 n Hn) as (d & bus & c & H1 & H2 & H3). destruct (Ha n d bus Hn H2 H3) as [H4 H5].
    exists d, bus, c. split_and!; try done. destruct (Hf n) as [E|[E _]]; [by rewrite E|congruence].
Qed.

Lemma gated_frame L L' :
  Gated L -> inside L' = inside L -> setids L' = setids L ->
  (forall x, x ∈ inside L \/ (exists n ph, (x, n, ph) ∈ setids L) -> is_Some (gates L !! x) -> is_Some (gates L' !! x)) ->
  (forall k v, motor_index_reservations (statuses (mgr L')) !! k = Some v ->
     motor_index_reservations (statuses (mgr L)) !! k = Some v) ->
  Gated L'.
Proof.
  intros [G1 G2 G3] Ei Es Hg Hr. constructor; rewrite ?Ei, ?Es.
  - intros x Hx. apply Hg; [by left|by apply G1].
  - intros d n ph Hd. destruct (G2 d n ph Hd) as [H1 H2]. split; [|done]. apply Hg; [|done]. right. by exists n, ph.
  - intros k v Hv. by apply G3, Hr.
Qed.

(** ** Steps that touch one address *)

Section Local.
Context (L L' : Life) (x : nat).
Context (Hinv : Inv L).
Context (Hoff : forall y, y <> x -> view L' y = view L y).
Context (Hregs : forall y, y <> x -> registrations (routing (mgr L')) !! y = registrations (routing (mgr L)) !! y).

Lemma heap_off y : y <> x -> heap L' !! y = heap L !! y.
Proof. intros Hy. by pose proof (f_equal vw_object (Hoff y Hy)). Qed.
Lemma bus_keys_off y : y <> x -> bus_keys (objects (mgr L')) !! y = bus_keys (objects (mgr L)) !! y.
Proof. intros Hy. by pose proof (f_equal vw_bus_key (Hoff y Hy)). Qed.
Lemma gates_off y : y <> x -> is_Some (gates L !! y) -> is_Some (gates L' !! y).
Proof.
  intros Hy. pose proof (f_equal vw_gate (Hoff y Hy)) as E. cbn in E.
  intros Hs. destruct (bool_decide_reflect (is_Some (gates L' !! y))) as [H|H]; [done|].
  rewrite bool_decide_true in E by done. done.
Qed.
Lemma shapes_off y : y <> x -> shapes (routing (mgr L')) y = shapes (routing (mgr L)) y.
Proof. intros Hy. unfold shapes. by rewrite Hregs. Qed.

Lemma attached_off n d : d <> x -> attached L n d -> attached L' n d.
Proof.
  intros Hd [(bus & l & H & Hn)|(bus & w & k & todo & H & Hn)]; [left|right].
  - exists bus, l. by rewrite shapes_off.
  - exists bus, w, k, todo. by rewrite heap_off.
Qed.

Lemma running_local :
  running L' = running L ->
  (forall n, flights (routing (mgr L')) n = flights (routing (mgr L)) n \/
     (flights (routing (mgr L)) n = None /\ exists d bus, flights (routing (mgr L')) n = Some (d, bus, 0%nat))) ->
  (forall n bus, n ∈ running L -> attached L n x -> parent_of (heap L !! x) = Some bus ->
     attached L' n x /\ parent_of (heap L' !! x) = Some bus) ->
  Running L'.
Proof.
  intros Er Hf Hx. apply (running_frame L); [apply (n_running _ Hinv)|done|done|].
  intros n d bus Hn Ha Hp. destruct (decide (d = x)) as [->|Hne]; [by apply Hx|].
  split; [by apply attached_off|by rewrite heap_off].
Qed.

Lemma gated_local :
  inside L' = inside L -> setids L' = setids L ->
  (is_Some (gates L !! x) -> is_Some (gates L' !! x) \/ ((x ∉ inside L) /\ forall n ph, (x, n, ph) ∉ setids L)) ->
  (forall k v, motor_index_reservations (statuses (mgr L')) !! k = Some v ->
     motor_index_reservations (statuses (mgr L)) !! k = Some v) ->
  Gated L'.
Proof.
  intros Ei Es Hx Hr. apply (gated_frame L); [apply (n_gated _ Hinv)|done..| |done].
  intros y Hy Hg. destruct (decide (y = x)) as [->|Hne]; [|by apply gates_off].
  destruct (Hx Hg) as [H|[H1 H2]]; [done|]. exfalso. destruct Hy as [Hy|(n & ph & Hy)]; [done|by apply (H2 n ph)].
Qed.

Lemma creating_local :
  creations L' = creations L -> ending L' = ending L -> child_creations L' = child_creations L ->
  pending_devices (objects (mgr L')) = pending_devices (objects (mgr L)) ->
  creation_key (heap L' !! x) = creation_key (heap L !! x) ->
  (creating (heap L !! x) = true -> creating (heap L' !! x) = true \/ creations_on x (creations L) = 0%nat) ->
  (forall k, is_Some (creations L !! k) -> devices (objects (mgr L)) !! k = None -> devices (objects (mgr L')) !! k = None) ->
  Creating L'.
Proof.
  intros Ec Ee En Ep Hk Hb Hd. apply (creating_frame L); [apply (n_creating _ Hinv)|done..| | |done].
  - intros d. destruct (decide (d = x)) as [->|Hne]; [done|by rewrite heap_off].
  - intros b. destruct (decide (b = x)) as [->|Hne]; [done|]. rewrite heap_off by done. by left.
Qed.

Lemma inv_local :
  Tables (mgr L') -> Agrees (view L' x) ->
  (forall bus, parent_of (heap L' !! x) = Some bus -> bus <> x /\ hosts (heap L !! bus) = true) ->
  (hosts (heap L !! x) = true ->
     (hosts (heap L' !! x) = true /\ bus_keys (objects (mgr L')) !! x = bus_keys (objects (mgr L)) !! x) \/
     forall d, parent_of (heap L !! d) = Some x -> False) ->
  (forall bus k, heap L' !! x = Some (ODevice bus (Published k)) -> dk_kind k = KMotor ->
     motor_ok (objects (mgr L')) (routing (mgr L')) x k) ->
  Creating L' -> Running L' -> Gated L' -> Inv L'.
Proof.
  intros HT Hx Hp Hh Hpub HC HR HG.
  assert (HA : forall y, Agrees (view L' y)).
  { intros y. destruct (decide (y = x)) as [->|Hne]; [done|]. rewrite Hoff by done. apply (n_agrees _ Hinv). }
  assert (Hhost : forall d bus, parent_of (heap L' !! d) = Some bus -> d = x \/ parent_of (heap L !! d) = Some bus).
  { intros d bus. destruct (decide (d = x)) as [->|Hne]; [by left|right]. by rewrite <- heap_off. }
  assert (HH : forall d bus, parent_of (heap L' !! d) = Some bus -> hosts (heap L' !! bus) = true).
  { intros d bus Hd. assert (hosts (heap L !! bus) = true) as Hb.
    { destruct (Hhost d bus Hd) as [->|Hd']; [by apply Hp|by apply (n_hosted _ Hinv d)]. }
    destruct (decide (bus = x)) as [->|Hne]; [|by rewrite heap_off].
    destruct (Hh Hb) as [[H _]|H]; [done|]. exfalso. destruct (Hhost d x Hd) as [->|Hd']; [|by apply (H d)].
    by destruct (Hp x Hd). }
  constructor; try done.
  intros d bus k Hd Hm. destruct (decide (d = x)) as [->|Hne]; [by eapply Hpub|].
  pose proof Hd as Hd'. rewrite heap_off in Hd' by done.
  destruct (n_shaped _ Hinv d bus k Hd' Hm) as (H1 & H2 & H3). split; [done|]. split; [done|].
  intros reg. rewrite Hregs by done. intros Hr. destruct (H3 reg Hr) as (H4 & n & bk & H5 & H6). split; [done|].
  exists n, bk. split; [|done]. destruct (decide (dk_bus k = x)) as [E|Hb]; [|by rewrite bus_keys_off].
  pose proof (ag_phase _ (n_agrees _ Hinv d) bus (Published k) k Hd' eq_refl) as Ebus. cbn in Ebus.
  assert (parent_of (heap L !! d) = Some x) as Hpx by (rewrite Hd'; cbn; congruence).
  destruct (Hh (n_hosted _ Hinv d x Hpx)) as [[_ Eb]|H]; [|by destruct (H d)]. rewrite E, Eb. by rewrite <- E.
Qed.
End Local.

(** A device changes its phase. *)
Lemma device_local L L' d bus ph ph' :
  Inv L ->
  (forall y, y <> d -> view L' y = view L y) ->
  (forall y, y <> d -> registrations (routing (mgr L')) !! y = registrations (routing (mgr L)) !! y) ->
  heap L !! d = Some (ODevice bus ph) -> heap L' !! d = Some (ODevice bus ph') ->
  Tables (mgr L') -> Agrees (view L' d) ->
  (forall k, ph' = Published k -> dk_kind k = KMotor -> motor_ok (objects (mgr L')) (routing (mgr L')) d k) ->
  Creating L' -> Running L' -> Gated L' -> Inv L'.
Proof.
  intros HI Hoff Hregs Hd Hd' HT HA Hpub HC HR HG. eapply inv_local; try done.
  - rewrite Hd'. intros b [= <-]. assert (hosts (heap L !! bus) = true) as Hb.
    { apply (n_hosted _ HI d). by rewrite Hd. }
    split; [|done]. intros ->. by rewrite Hd in Hb.
  - rewrite Hd. done.
  - rewrite Hd'. intros b k [= -> ->]. by apply Hpub.
Qed.

(** ** Counting creations *)

Lemma creations_insert b c k v :
  c !! k = None -> creations_on b (<[k := v]> c) = ((if decide (dk_bus k = b) then 1 else 0) + creations_on b c)%nat.
Proof.
  intros Hk. unfold creations_on. rewrite map_filter_insert. cbn [fst]. case_decide as Hb.
  - rewrite map_size_insert_None; [done|]. apply map_lookup_filter_None. by left.
  - by rewrite delete_id.
Qed.

Lemma creations_delete b c k v :
  c !! k = Some v -> creations_on b c = ((if decide (dk_bus k = b) then 1 else 0) + creations_on b (delete k c))%nat.
Proof.
  intros Hk. rewrite <- (creations_insert b (delete k c) k v) by apply lookup_delete_eq.
  by rewrite insert_delete_id.
Qed.

Lemma creations_replace b c k v v' :
  c !! k = Some v -> creations_on b (<[k := v']> c) = creations_on b c.
Proof.
  intros Hk. rewrite (creations_delete b c k v Hk), <- insert_delete_eq.
  by rewrite creations_insert by apply lookup_delete_eq.
Qed.

Lemma creation_counted L k : Creating L -> is_Some (creations L !! k) -> is_Some (child_creations L !! dk_bus k).
Proof.
  intros HC [v Hv]. pose proof (c_count _ HC (dk_bus k)) as E.
  rewrite (creations_delete _ _ k v Hv), decide_True in E by done.
  destruct (child_creations L !! dk_bus k); [done|]. cbn in E. lia.
Qed.

Lemma count_occ_cons_nat (e : list nat) (x b : nat) :
  count_occ Nat.eq_dec (x :: e) b = ((if decide (x = b) then 1 else 0) + count_occ Nat.eq_dec e b)%nat.
Proof. cbn. destruct (Nat.eq_dec x b), (decide (x = b)); done. Qed.

(** A creation ends: its device is committed or gone. *)
Lemma creating_finish L L' k :
  Creating L -> is_Some (creations L !! k) ->
  creations L' = delete k (creations L) -> ending L' = dk_bus k :: ending L -> child_creations L' = child_creations L ->
  pending_devices (objects (mgr L')) = pending_devices (objects (mgr L)) ∖ {[k]} ->
  (forall d k', creation_key (heap L' !! d) = Some k' <-> creation_key (heap L !! d) = Some k' /\ k' <> k) ->
  (forall b, creating (heap L !! b) = true -> creating (heap L' !! b) = true) ->
  (forall k', k' <> k -> devices (objects (mgr L)) !! k' = None -> devices (objects (mgr L')) !! k' = None) ->
  Creating L'.
Proof.
  intros [C1 C2 C3 C4 C5 C6] [v Hv] Ec Ee En Ep Hk Hb Hd. constructor; rewrite ?Ec, ?Ee, ?En, ?Ep.
  - intros k' d. rewrite Hk, lookup_delete_Some, C1. split; intros [? ?]; by split.
  - intros k'. rewrite elem_of_difference, elem_of_singleton, C2, lookup_delete_is_Some. split; intros [? ?]; by split.
  - intros k' [Hne Hc]%lookup_delete_is_Some. destruct (C3 k' Hc) as [H1 H2]. split; [by apply Hd|done].
  - intros k' [Hne Hc]%lookup_delete_is_Some. by apply Hb, C4.
  - intros b. rewrite C5, count_occ_cons_nat, (creations_delete b _ k v Hv). lia.
  - done.
Qed.
