(* ===== verification/LifetimeSafety.v ===== *)
(** * LifetimeSafety: no callback and no operation outlives its object

    Every step of [ManagerLifetime] preserves the invariant of [LifetimeInvariant],
    one lemma per step; what it says of running callbacks and operations is the
    theorem at the end, and the step [no_clash] excludes is shown to be needed. *)
From stdpp Require Import base list numbers option gmap relations.
From Stdlib Require Import ZArith Lia.
From S2P Require Import Prelude Types.
From S2P Require Import DriverManager.
From S2P Require Import ManagerTables.
From S2P Require Import ManagerLifetime.
From S2P Require Import LifetimeInvariant.
#[local] Open Scope Z_scope.

(** ** Reading the invariant at an address *)

Ltac at_address HI x Hx :=
  let H := fresh "A" in
  pose proof (n_agrees _ HI x) as H;
  destruct H as [Areg Akey Abus Agate Adel Afreed Apar Aph];
  unfold view in Areg, Akey, Abus, Agate, Adel, Afreed, Apar, Aph;
  cbn [vw_object vw_registered vw_key vw_bus_key vw_gate vw_deleting vw_freed vw_parent] in Areg, Akey, Abus, Agate, Adel, Afreed, Apar, Aph;
  rewrite Hx in Areg, Akey, Abus, Agate, Adel, Afreed, Apar, Aph;
  cbn [registered_bus key_agrees doomed_key bus_key_of has_gate destroying parent_of] in Areg, Akey, Abus, Agate, Adel, Afreed, Apar.

(** Everything but address [x] is looked up as before. *)
Ltac off_view :=
  intros y Hy; unfold view, shapes; lsimpl; f_equal;
  first [ reflexivity
        | rewrite ?lookup_insert_ne, ?lookup_delete_ne by congruence; reflexivity
        | apply bool_decide_ext; rewrite ?lookup_insert_ne, ?lookup_delete_ne by congruence;
          rewrite ?elem_of_union, ?elem_of_difference, ?elem_of_singleton; tauto ].

Ltac off_regs := intros y Hy; lsimpl; rewrite ?lookup_insert_ne, ?lookup_delete_ne by congruence; reflexivity.

Lemma added {A} `{Countable A} (x : A) (X : gset A) : x ∈ X ∪ {[x]}.
Proof. apply elem_of_union_r, elem_of_singleton. done. Qed.
Lemma removed {A} `{Countable A} (x : A) (X : gset A) : x ∉ X ∖ {[x]}.
Proof. rewrite elem_of_difference, elem_of_singleton. tauto. Qed.

(** The phases of a device in which its key names its bus. *)
Lemma phase_bus L d bus ph k :
  Inv L -> heap L !! d = Some (ODevice bus ph) -> phase_key ph = Some k -> dk_bus k = bus.
Proof. intros HI Hd Hk. exact (ag_phase _ (n_agrees _ HI d) bus ph k Hd Hk). Qed.

Lemma hosted_bus L d bus ph :
  Inv L -> heap L !! d = Some (ODevice bus ph) ->
  hosts (heap L !! bus) = true /\ exists bk, bus_keys (objects (mgr L)) !! bus = Some bk.
Proof.
  intros HI Hd. assert (hosts (heap L !! bus) = true) as Hb by (apply (n_hosted _ HI d); by rewrite Hd).
  split; [done|]. pose proof (ag_bus _ (n_agrees _ HI bus)) as E. cbn in E. rewrite E.
  destruct (heap L !! bus) as [[|bk []]|]; try done; by eexists.
Qed.

(** ** DrainDevice *)

Lemma inv_drain_route L d L' : Inv L -> device_act (ADrainRoute d) L = Some L' -> Inv L'.
Proof.
  intros HI H. cbn [device_act] in H.
  destruct (heap L !! d) as [[bus [| | |w k [|e todo]| | |]|]|] eqn:Hd; try done.
  - injection H as <-. at_address HI d Hd.
    eapply (device_local L _ d bus); [done|off_view|off_regs|exact Hd|apply lookup_insert_eq|apply (n_tables _ HI)|..].
    + unfold view. lsimpl. rewrite lookup_insert_eq. constructor; lsimpl; try done.
      intros b ph k' [= <- <-] [= <-]. by eapply phase_bus.
    + done.
    + eapply (creating_local L _ d); [done|off_view|done..| | |done]; lsimpl; rewrite lookup_insert_eq, Hd; done.
    + eapply (running_local L _ d); [done|off_view|off_regs|done|by left|]. intros n b Hn.
      intros [(b' & l & Hs & Hin)|(b' & w' & k' & t & Ht & Hin)].
      * rewrite Hs in Areg. done.
      * rewrite Hd in Ht. injection Ht as <- <- <- <-. by apply elem_of_nil in Hin.
    + eapply (gated_local L _ d); [done|off_view|done|done|by left|done].
  - destruct (records (routing (mgr L)) !! re_record e) as [rr|] eqn:Hrr; [|done].
    destruct (Nat.eqb_spec (rr_in_flight rr) 0) as [E0|]; [|done]. injection H as <-. at_address HI d Hd.
    eapply (device_local L _ d bus); [done|off_view|off_regs|exact Hd|apply lookup_insert_eq|apply (n_tables _ HI)|..].
    + unfold view. lsimpl. rewrite lookup_insert_eq. constructor; lsimpl; try done.
      intros b ph k' [= <- <-] [= <-]. by eapply phase_bus.
    + done.
    + eapply (creating_local L _ d); [done|off_view|done..| | |done]; lsimpl; rewrite lookup_insert_eq, Hd; done.
    + eapply (running_local L _ d); [done|off_view|off_regs|done|by left|]. lsimpl. rewrite lookup_insert_eq, Hd.
      intros n b Hn Ha Hb. split; [|done].
      destruct Ha as [(b' & l & Hs & Hin)|(b' & w' & k' & t & Ht & Hin)]; [by rewrite Hs in Areg|].
      rewrite Hd in Ht. injection Ht as <- <- <- <-. cbn in Hin. apply elem_of_cons in Hin as [->|Hin].
      * exfalso. pose proof (u_count _ (n_running _ HI) (re_record e) (rr_device rr) (rr_bus rr) (rr_in_flight rr)) as Hc.
        unfold flights in Hc. rewrite Hrr in Hc. specialize (Hc eq_refl).
        apply list_elem_of_In, (count_occ_In Nat.eq_dec) in Hn. lia.
      * right. exists bus, w, k, todo. lsimpl. by rewrite lookup_insert_eq.
    + eapply (gated_local L _ d); [done|off_view|done|done|by left|done].
Qed.

Lemma parent_not_self L x bus : Inv L -> parent_of (heap L !! x) = Some bus -> bus <> x.
Proof.
  intros HI Hp ->. pose proof (n_hosted _ HI x x Hp) as Hb. by destruct (heap L !! x) as [[]|].
Qed.

Lemma gate_free_spec x L :
  gate_free x L = true -> (x ∉ inside L) /\ forall n ph, (x, n, ph) ∉ setids L.
Proof.
  unfold gate_free. intros [H1%bool_decide_eq_true H2]%andb_true_iff. split; [done|]. intros n ph Hin.
  rewrite forallb_forall in H2. apply list_elem_of_In, H2 in Hin. by rewrite bool_decide_true in Hin.
Qed.

(** Nobody is in a gate that is gone. *)
Lemma no_gate_no_user L x :
  Inv L -> has_gate (heap L !! x) = false -> (x ∉ inside L) /\ forall n ph, (x, n, ph) ∉ setids L.
Proof.
  intros HI Hg. pose proof (ag_gate _ (n_agrees _ HI x)) as E. cbn in E. rewrite Hg in E. apply bool_decide_eq_false in E.
  split; [by intros H%(i_inside _ (n_gated _ HI))|]. intros n ph H. by destruct (i_setid _ (n_gated _ HI) _ _ _ H).
Qed.

Lemma gate_gone L x (g : option bool) :
  Inv L -> has_gate (heap L !! x) = false -> is_Some (gates L !! x) -> is_Some g \/ ((x ∉ inside L) /\ forall n ph, (x, n, ph) ∉ setids L).
Proof. intros HI Hg _. right. by apply no_gate_no_user. Qed.

Lemma inv_drain_gate L d L' : Inv L -> device_act (ADrainGate d) L = Some L' -> Inv L'.
Proof.
  intros HI H. cbn [device_act] in H.
  destruct (heap L !! d) as [[bus [| | | |w k| |]|]|] eqn:Hd; try done.
  destruct (gate_free d L) eqn:Hf; [|done]. injection H as <-. at_address HI d Hd. apply gate_free_spec in Hf.
  eapply (device_local L _ d bus); [done|off_view|off_regs|exact Hd|apply lookup_insert_eq|apply (n_tables _ HI)|..].
  - unfold view. lsimpl. rewrite lookup_insert_eq, lookup_delete_eq. constructor; lsimpl; try done.
    intros b ph k' [= <- <-] [= <-]. by eapply phase_bus.
  - done.
  - eapply (creating_local L _ d); [done|off_view|done..| | |done]; lsimpl; rewrite lookup_insert_eq, Hd; done.
  - eapply (running_local L _ d); [done|off_view|off_regs|done|by left|]. intros n b Hn.
    intros [(b' & l & Hs & Hin)|(b' & w' & k' & t & Ht & Hin)]; [by rewrite Hs in Areg|by rewrite Hd in Ht].
  - eapply (gated_local L _ d); [done|off_view|done|done|by right|done].
Qed.

(** A device past its drain has no callback running. *)
Lemma not_attached L d n :
  Inv L -> registered_bus (heap L !! d) = None ->
  (forall bus w k todo, heap L !! d <> Some (ODevice bus (Draining w k todo))) -> ~ attached L n d.
Proof.
  intros HI Hr Hd [(bus & l & Hs & _)|(bus & w & k & todo & Ht & _)]; [|by eapply Hd].
  pose proof (ag_registered _ (n_agrees _ HI d)) as E. cbn in E. rewrite Hs, Hr in E. done.
Qed.

Lemma erasing_unreserved L d bus w k k' v :
  Inv L -> heap L !! d = Some (ODevice bus (Erasing w k)) ->
  motor_index_reservations (statuses (mgr L)) !! k' = Some v -> rv_motor v <> d.
Proof.
  intros HI Hd Hv Ev. destruct (no_gate_no_user L d HI) as [_ H]; [by rewrite Hd|].
  eapply H. rewrite <- Ev. by apply (i_reserved _ (n_gated _ HI)).
Qed.

Lemma inv_erase L d L' : Inv L -> device_act (AErase d) L = Some L' -> Inv L'.
Proof.
  intros HI H. cbn [device_act] in H.
  destruct (heap L !! d) as [[bus [| | | | |w k|]|]|] eqn:Hd; try done.
  injection H as <-. at_address HI d Hd.
  assert (Hpair : devices (objects (mgr L)) !! k = Some d \/
    (devices (objects (mgr L)) !! k = None /\ device_keys (objects (mgr L)) !! d = None)).
  { destruct w; cbn in Akey; [right|left].
    - split; [|done]. apply (c_free _ (n_creating _ HI)). exists (Some d). apply (c_device _ (n_creating _ HI)). by rewrite Hd.
    - by apply (o_devices _ (t_objects _ (n_tables _ HI))). }
  eapply (device_local L _ d bus); [done|off_view|off_regs|exact Hd|apply lookup_insert_eq| |..].
  - lsimpl. apply (tables_erase k d (mgr L)); [apply (n_tables _ HI)|done|].
    intros k' v Hv. by eapply erasing_unreserved.
  - unfold view. lsimpl. rewrite lookup_insert_eq, lookup_delete_eq. constructor; lsimpl; try done.
    intros b ph k' [= <- <-] [= <-]. by eapply phase_bus.
  - done.
  - eapply (creating_local L _ d); [done|off_view|done..| | |]; lsimpl; rewrite ?lookup_insert_eq, ?Hd; [done|done|].
    intros k' _ Hk'. apply lookup_delete_None. by right.
  - eapply (running_local L _ d); [done|off_view|off_regs|done|by left|]. intros n b Hn Ha.
    exfalso. revert Ha. apply not_attached; [done|by rewrite Hd|by rewrite Hd].
  - eapply (gated_local L _ d); [done|off_view|done|done| |done]. lsimpl. by left.
Qed.

Lemma inv_free L d L' : Inv L -> device_act (AFree d) L = Some L' -> Inv L'.
Proof.
  intros HI H. cbn [device_act] in H.
  destruct (heap L !! d) as [[bus [| | | | | |w k]|]|] eqn:Hd; try done.
  assert (Hrun : forall n, ~ attached L n d) by (intros n; apply not_attached; [done|by rewrite Hd|by rewrite Hd]).
  at_address HI d Hd. destruct w; injection H as <-.
  - eapply (inv_local L _ d); [done|off_view|off_regs|..]; lsimpl; rewrite ?lookup_delete_eq, ?Hd; try done.
    + apply tables_objects; [apply (n_tables _ HI)|done..].
    + unfold view. lsimpl. rewrite lookup_delete_eq. by constructor.
    + apply (creating_finish L _ k); [apply (n_creating _ HI)| |done..| | |done].
      * exists (Some d). apply (c_device _ (n_creating _ HI)). by rewrite Hd.
      * intros d' k'. lsimpl. destruct (decide (d = d')) as [<-|Hne].
        -- rewrite lookup_delete_eq, Hd. cbn. split; [done|]. intros [[= ->] ?]. done.
        -- rewrite lookup_delete_ne by done. split; [|by intros []]. intros Hk. split; [done|]. intros ->.
           apply Hne. assert (creations L !! k = Some (Some d)) as E1 by (apply (c_device _ (n_creating _ HI)); by rewrite Hd).
           apply (c_device _ (n_creating _ HI)) in Hk. congruence.
      * intros b Hb. lsimpl. destruct (decide (d = b)) as [<-|Hne]; [by rewrite Hd in Hb|by rewrite lookup_delete_ne].
    + eapply (running_local L _ d); [done|off_view|off_regs|done|by left|]. intros n b Hn Ha. by destruct (Hrun n).
    + eapply (gated_local L _ d); [done|off_view|done|done| |done]. by left.
  - eapply (inv_local L _ d); [done|off_view|off_regs|..]; lsimpl; rewrite ?lookup_delete_eq, ?Hd; try done.
    + apply (n_tables _ HI).
    + unfold view. lsimpl. rewrite lookup_delete_eq, (bool_decide_true (d ∈ freed L ∪ _)) by apply added.
      constructor; lsimpl; try done. rewrite Adel. by rewrite orb_true_r.
    + eapply (creating_local L _ d); [done|off_view|done..| | |done]; lsimpl; rewrite lookup_delete_eq, Hd; done.
    + eapply (running_local L _ d); [done|off_view|off_regs|done|by left|]. intros n b Hn Ha. by destruct (Hrun n).
    + eapply (gated_local L _ d); [done|off_view|done|done| |done]. by left.
Qed.

Lemma inv_finish L x L' : Inv L -> device_act (AFinish x) L = Some L' -> Inv L'.
Proof.
  intros HI H. cbn [device_act] in H. case_bool_decide as Hx; [|done]. injection H as <-.
  pose proof (n_agrees _ HI x) as [Areg Akey Abus Agate Adel Afreed Apar Aph]. cbn in *.
  rewrite (bool_decide_true (x ∈ freed L)) in Adel, Afreed by done. cbn in Adel, Afreed.
  eapply (inv_local L _ x); [done|off_view|off_regs|..]; lsimpl.
  - apply tables_objects; [apply (n_tables _ HI)|done..].
  - unfold view. lsimpl. rewrite (bool_decide_false (x ∈ freed L ∖ _)), (bool_decide_false (x ∈ deleting _ ∖ _)) by apply removed. constructor; lsimpl; try done.
    intros b Hp Hdes. congruence.
  - intros b Hp. split; [by eapply parent_not_self|by apply (n_hosted _ HI x)].
  - intros Hh. by left.
  - intros b k Hd Hm. exact (n_shaped _ HI x b k Hd Hm).
  - eapply (creating_local L _ x); [done|off_view|done..|by left|done].
  - eapply (running_local L _ x); [done|off_view|off_regs|done|by left|]. done.
  - eapply (gated_local L _ x); [done|off_view|done|done|by left|done].
Qed.

(** ** Taking a device down *)

Lemma inv_take_down L d bus ph w k par fr del :
  Inv L -> heap L !! d = Some (ODevice bus ph) ->
  (ph = Live /\ w = Destruction /\ device_keys (objects (mgr L)) !! d = Some k /\ dk_bus k = bus /\
     del = deleting (objects (mgr L)) ∪ {[d]} /\ par = <[d := bus]> (deleting_device_parents L) /\ fr = freed L /\
     (d ∉ freed L)) \/
  ((ph = Constructed k \/ ph = Published k) /\ w = Failure /\
     del = deleting (objects (mgr L)) /\ par = deleting_device_parents L /\ fr = freed L) ->
  Inv (with_freed par fr (take_down w k bus d (with_mgr (mark_deleting del (mgr L)) L))).
Proof.
  intros HI Hd Hcase. at_address HI d Hd.
  assert (HT : Tables (mark_deleting del (mgr L))) by (apply tables_objects; [apply (n_tables _ HI)|done..]).
  unfold take_down. lsimpl. pose proof (detach_effect d (mark_deleting del (mgr L)) HT) as He.
  pose proof (tables_detach d (mark_deleting del (mgr L)) HT) as HT'.
  destruct (DetachRegistrationLocked d (mark_deleting del (mgr L))) as [entries m'] eqn:E. cbn [snd] in HT'.
  destruct He as (Eo & Es & Er & Eent & Efl). unfold mark_deleting in Eo, Es, Er, Eent, Efl. lsimpl.
  cbn [objects statuses routing set_objects] in Eo, Es, Er, Eent, Efl.
  assert (Hcr : creation_key (Some (ODevice bus (Draining w k entries))) = creation_key (heap L !! d)).
  { rewrite Hd. by destruct Hcase as [(-> & -> & _)|([-> | ->] & -> & _)]. }
  eapply (device_local L _ d bus _ (Draining w k entries)); [done| | |exact Hd| |exact HT'| | | | |].
  - intros y Hy. unfold view, shapes. lsimpl. rewrite Eo, Er, !lookup_insert_ne, lookup_delete_ne by congruence.
    f_equal; [|destruct Hcase as [(_ & _ & _ & _ & _ & _ & -> & _)|(_ & _ & _ & _ & ->)]; done|].
    + apply bool_decide_ext. cbn. destruct Hcase as [(_ & _ & _ & _ & -> & _)|(_ & _ & -> & _)]; [rewrite elem_of_union, elem_of_singleton; tauto|done].
    + destruct Hcase as [(_ & _ & _ & _ & _ & -> & _)|(_ & _ & _ & -> & _)]; [by rewrite lookup_insert_ne|done].
  - intros y Hy. lsimpl. rewrite Er. by rewrite lookup_delete_ne.
  - lsimpl. apply lookup_insert_eq.
  - unfold view, shapes. lsimpl. rewrite Eo, Er, !lookup_insert_eq, lookup_delete_eq. lsimpl.
    destruct Hcase as [(-> & -> & Hk & <- & -> & -> & -> & Hfr)|([-> | ->] & -> & -> & -> & ->)].
    + constructor; lsimpl; try done.
      * rewrite (bool_decide_true (d ∈ _ ∪ _)) by apply added. cbn. by rewrite orb_true_r.
      * rewrite bool_decide_false by done. done.
      * intros b [= <-] _. apply lookup_insert_eq.
      * intros b ph' k' [= <- <-] [= <-]. done.
    + constructor; lsimpl; try done. intros b ph' k' [= <- <-] [= <-]. by eapply (phase_bus L d).
    + constructor; lsimpl; try done. intros b ph' k' [= <- <-] [= <-]. by eapply (phase_bus L d).
  - done.
  - eapply (creating_frame L); [apply (n_creating _ HI)|done|done|done| | | |]; lsimpl.
    + rewrite Eo. done.
    + intros y. destruct (decide (d = y)) as [<-|Hne]; [by rewrite lookup_insert_eq|by rewrite lookup_insert_ne].
    + intros b Hb. left. destruct (decide (d = b)) as [<-|Hne]; [by rewrite Hd in Hb|by rewrite lookup_insert_ne].
    + rewrite Eo. done.
  - apply (running_frame L); [apply (n_running _ HI)|done|..]; lsimpl.
    + intros n. left. apply Efl.
    + intros n y b Hn Ha Hp. destruct (decide (d = y)) as [<-|Hne].
      * rewrite lookup_insert_eq. split; [|by rewrite Hd in Hp]. right.
        exists bus, w, k, entries. lsimpl. rewrite lookup_insert_eq. split; [done|].
        destruct Ha as [(b' & l & Hs & Hin)|(b' & w' & k' & t & Ht & _)].
        -- unfold shapes in Hs. rewrite Eent. destruct (registrations (routing (mgr L)) !! d); [|done].
           injection Hs as _ <-. done.
        -- rewrite Hd in Ht. by destruct Hcase as [(-> & _)|([-> | ->] & _)].
      * rewrite lookup_insert_ne by done. split; [|done]. destruct Ha as [(b' & l & Hs & Hin)|(b' & w' & k' & t & Ht & Hin)].
        -- left. exists b', l. lsimpl. unfold shapes. rewrite Er, lookup_delete_ne by done. done.
        -- right. exists b', w', k', t. lsimpl. by rewrite lookup_insert_ne.
  - apply (gated_frame L); [apply (n_gated _ HI)|done|done|..]; lsimpl.
    + intros y _ Hy. destruct (decide (d = y)) as [<-|Hne]; [by rewrite lookup_insert_eq|by rewrite lookup_insert_ne].
    + by rewrite Es.
Qed.

Lemma mark_same L : with_mgr (mark_deleting (deleting (objects (mgr L))) (mgr L)) L = L.
Proof. by destruct L as [[[] ? ?] ? ? ? ? ? ? ? ? ? ? ? ? ?]. Qed.
Lemma freed_same L : with_freed (deleting_device_parents L) (freed L) L = L.
Proof. by destruct L. Qed.

Lemma inv_fail L d L' : Inv L -> device_act (AFail d) L = Some L' -> Inv L'.
Proof.
  intros HI H. cbn [device_act] in H.
  assert (exists bus ph k, heap L !! d = Some (ODevice bus ph) /\ (ph = Constructed k \/ ph = Published k) /\
    L' = take_down Failure k bus d L) as (bus & ph & k & Hd & Hph & ->).
  { destruct (heap L !! d) as [[bus ph|]|]; try done. destruct ph as [k|k| | | | |]; try done; injection H as <-;
      [exists bus, (Constructed k), k|exists bus, (Published k), k]; auto. }
  pose proof (inv_take_down L d bus ph Failure k (deleting_device_parents L) (freed L) (deleting (objects (mgr L))) HI Hd) as HI'.
  rewrite mark_same in HI'.
  assert (Esame : with_freed (deleting_device_parents L) (freed L) (take_down Failure k bus d L) = take_down Failure k bus d L).
  { unfold take_down. destruct (DetachRegistrationLocked d (mgr L)). done. }
  rewrite Esame in HI'. apply HI'. right. split; [exact Hph|done].
Qed.

Lemma inv_destroy L d L' : Inv L -> device_act (ADestroy d) L = Some L' -> Inv L'.
Proof.
  intros HI H. cbn [device_act] in H. destruct (device_keys (objects (mgr L)) !! d) as [k|] eqn:Hk; [|done].
  case_bool_decide as Hdel; [|done]. injection H as <-.
  pose proof (n_agrees _ HI d) as [Areg Akey Abus Agate Adel Afreed Apar Aph]. cbn in *. rewrite Hk in Akey.
  rewrite (bool_decide_false (d ∈ deleting _)) in Adel by done. symmetry in Adel. apply orb_false_iff in Adel as [Hfr%bool_decide_eq_false Hdes].
  assert (exists bus, heap L !! d = Some (ODevice bus Live) /\ dk_bus k = bus) as (bus & Hd & Hbus).
  { destruct (heap L !! d) as [[bus [| | |[] ? ?|[] ?|[] ?|]|]|]; try done. destruct Akey as (k' & [= <-] & Hb). by exists bus. }
  rewrite Hbus. apply (inv_take_down L d bus Live Destruction k); [done|done|]. left. split_and!; try done.
Qed.

(** ** CreateDevice *)

(** No object changes its phase. *)
Lemma inv_views L L' :
  Inv L -> (forall y, view L' y = view L y) ->
  (forall y, registrations (routing (mgr L')) !! y = registrations (routing (mgr L)) !! y) ->
  Tables (mgr L') -> Creating L' -> Running L' -> Gated L' -> Inv L'.
Proof.
  intros HI Hv Hr HT HC HR HG.
  assert (Hh : forall y, heap L' !! y = heap L !! y) by (intros y; by pose proof (f_equal vw_object (Hv y))).
  assert (Hb : forall y, bus_keys (objects (mgr L')) !! y = bus_keys (objects (mgr L)) !! y)
    by (intros y; by pose proof (f_equal vw_bus_key (Hv y))).
  eapply (inv_local L _ 0%nat); try done; [rewrite Hv; apply (n_agrees _ HI)|..]; rewrite ?Hh.
  - intros bus Hp. split; [by eapply parent_not_self|by apply (n_hosted _ HI 0%nat)].
  - intros Hhost. left. by rewrite Hb.
  - intros bus k Hd Hm. destruct (n_shaped _ HI 0%nat bus k Hd Hm) as (H1 & H2 & H3). split; [done|]. split; [done|].
    intros reg. rewrite Hr, Hb. by apply H3.
Qed.

Lemma usable_parent L bus :
  Inv L -> parent_usable bus (mgr L) = true ->
  exists bk, heap L !! bus = Some (OBus bk BLive) /\ bus_keys (objects (mgr L)) !! bus = Some bk.
Proof.
  intros HI H. unfold parent_usable, bus_usable, is_deleting in H.
  destruct (bus_keys (objects (mgr L)) !! bus) as [bk|] eqn:Hb; [|done].
  destruct (bool_decide (bus ∈ deleting (objects (mgr L)))) eqn:Hdel; [done|]. clear H.
  pose proof (n_agrees _ HI bus) as [_ _ Abus _ Adel _ _ _]. cbn in Abus, Adel. rewrite Hb in Abus. rewrite Hdel in Adel.
  symmetry in Adel. apply orb_false_iff in Adel as [_ Hdes]. exists bk.
  destruct (heap L !! bus) as [[|bk' []]|]; try done. cbn in Abus. by injection Abus as ->.
Qed.

Lemma begin_child_lookup bus n b :
  default 0%nat (begin_child bus n !! b) = ((if decide (bus = b) then 1 else 0) + default 0%nat (n !! b))%nat /\
  (n !! b <> Some 0%nat -> begin_child bus n !! b <> Some 0%nat).
Proof.
  unfold begin_child. destruct (decide (bus = b)) as [->|Hne]; [by rewrite lookup_insert_eq|by rewrite lookup_insert_ne].
Qed.

Lemma inv_create L k L' : Inv L -> device_act (ACreate k) L = Some L' -> Inv L'.
Proof.
  intros HI H. cbn [device_act] in H. destruct (_ && _) eqn:E; [|done]. injection H as <-.
  apply andb_true_iff in E as [E Hp%bool_decide_eq_true]. apply andb_true_iff in E as [E Hd%bool_decide_eq_true].
  apply andb_true_iff in E as [Hkey Hpar]. destruct (usable_parent L _ HI Hpar) as (bk & Hb & _).
  pose proof (n_creating _ HI) as [C1 C2 C3 C4 C5 C6].
  assert (Hnone : creations L !! k = None) by (apply eq_None_not_Some; by rewrite <- C2).
  apply (inv_views L); [done|done|done|..].
  - lsimpl. apply tables_objects; [apply (n_tables _ HI)|done..].
  - constructor; lsimpl.
    + intros k' d. rewrite <- C1. destruct (decide (k = k')) as [<-|Hne]; [|by rewrite lookup_insert_ne].
      rewrite lookup_insert_eq, Hnone. done.
    + intros k'. rewrite elem_of_union, elem_of_singleton, C2. destruct (decide (k = k')) as [<-|Hne].
      * rewrite lookup_insert_eq. split; [by eexists|by right].
      * rewrite lookup_insert_ne by done. split; [intros [?|E]; [done|by destruct Hne]|by left].
    + intros k' Hk'. destruct (decide (k = k')) as [<-|Hne]; [done|]. apply C3. by rewrite lookup_insert_ne in Hk'.
    + intros k' Hk'. destruct (decide (k = k')) as [<-|Hne]; [by rewrite Hb|]. apply C4. by rewrite lookup_insert_ne in Hk'.
    + intros b. rewrite creations_insert by done. rewrite (proj1 (begin_child_lookup _ _ _)), C5. lia.
    + intros b. apply begin_child_lookup. apply C6.
  - apply (running_frame L); [apply (n_running _ HI)|done|by left|done].
  - apply (gated_frame L); [apply (n_gated _ HI)|done|done|done|done].
Qed.

Lemma inv_construct_fails L k L' : Inv L -> device_act (AConstructFails k) L = Some L' -> Inv L'.
Proof.
  intros HI H. cbn [device_act] in H. destruct (creations L !! k) as [[d|]|] eqn:Hk; try done. injection H as <-.
  apply (inv_views L); [done|done|done|..]; lsimpl.
  - apply tables_objects; [apply (n_tables _ HI)|done..].
  - apply (creating_finish L _ k); [apply (n_creating _ HI)|by eexists|done..| |done|done].
    intros d k'. split; [|by intros []]. intros Hc. split; [done|]. intros ->.
    apply (c_device _ (n_creating _ HI)) in Hc. congruence.
  - apply (running_frame L); [apply (n_running _ HI)|done|by left|done].
  - apply (gated_frame L); [apply (n_gated _ HI)|done|done|done|done].
Qed.

Lemma inv_construct L k d L' : Inv L -> device_act (AConstruct k d) L = Some L' -> Inv L'.
Proof.
  intros HI H. cbn [device_act] in H. destruct (creations L !! k) as [[|]|] eqn:Hk; try done.
  destruct (heap L !! d) eqn:Hd; [done|]. injection H as <-. at_address HI d Hd.
  pose proof (n_creating _ HI) as [C1 C2 C3 C4 C5 C6]. pose proof (C4 k ltac:(by rewrite Hk)) as Hb.
  assert (dk_bus k <> d) as Hbd by (intros E; by rewrite E, Hd in Hb).
  eapply (inv_local L _ d); [done|off_view|off_regs|..]; lsimpl; rewrite ?lookup_insert_eq, ?Hd.
  - apply (n_tables _ HI).
  - unfold view. lsimpl. rewrite !lookup_insert_eq. constructor; lsimpl; try done.
    intros b ph k' [= <- <-] [= <-]. done.
  - intros b [= <-]. split; [done|]. by destruct (heap L !! dk_bus k) as [[|bk []]|].
  - done.
  - done.
  - constructor; lsimpl.
    + intros k' d'. destruct (decide (d = d')) as [<-|Hd'], (decide (k = k')) as [<-|Hk'];
        rewrite ?lookup_insert_eq, ?lookup_insert_ne by done; cbn; [done|..].
      * rewrite C1, Hd. cbn. split; [done|congruence].
      * rewrite <- C1, Hk. split; [congruence|done].
      * apply C1.
    + intros k'. rewrite C2. destruct (decide (k = k')) as [<-|Hk']; [rewrite lookup_insert_eq, Hk|by rewrite lookup_insert_ne].
      split; intros _; by eexists.
    + intros k' Hk'. apply C3. destruct (decide (k = k')) as [<-|Hne]; [by rewrite Hk|by rewrite lookup_insert_ne in Hk'].
    + intros k' Hk'. assert (is_Some (creations L !! k')) as Hs
        by (destruct (decide (k = k')) as [<-|Hne]; [by rewrite Hk|by rewrite lookup_insert_ne in Hk']).
      pose proof (C4 k' Hs) as Hc. rewrite lookup_insert_ne; [done|]. intros E. by rewrite <- E, Hd in Hc.
    + intros b. by rewrite (creations_replace b _ k None).
    + done.
  - eapply (running_local L _ d); [done|off_view|off_regs|done|by left|]. intros n b _ Ha.
    exfalso. revert Ha. apply not_attached; [done|by rewrite Hd|by rewrite Hd].
  - eapply (gated_local L _ d); [done|off_view|done|done| |done]. lsimpl. rewrite lookup_insert_eq. intros _. left. by eexists.
Qed.

Lemma count_delete (l : list nat) i x b :
  l !! i = Some x -> count_occ Nat.eq_dec l b = ((if decide (x = b) then 1 else 0) + count_occ Nat.eq_dec (delete i l) b)%nat.
Proof.
  revert i. induction l as [|y l IH]; intros [|i] Hi; try done.
  - injection Hi as ->. apply count_occ_cons_nat.
  - change (delete (S i) (y :: l)) with (y :: delete i l). rewrite !count_occ_cons_nat, (IH i Hi). lia.
Qed.

Lemma end_child_lookup bus n b :
  n !! bus <> None -> (forall b, n !! b <> Some 0%nat) ->
  default 0%nat (n !! b) = ((if decide (bus = b) then 1 else 0) + default 0%nat (end_child bus n !! b))%nat /\
  end_child bus n !! b <> Some 0%nat.
Proof.
  intros Hb Hz. unfold end_child. destruct (n !! bus) as [c|] eqn:Hc; [|done].
  assert (c <> 0%nat) by (intros ->; by apply (Hz bus)).
  destruct (Nat.eqb_spec (pred c) 0) as [E|E]; destruct (decide (bus = b)) as [<-|Hne].
  - rewrite lookup_delete_eq, Hc. cbn. split; [lia|done].
  - rewrite lookup_delete_ne by done. split; [done|apply Hz].
  - rewrite lookup_insert_eq, Hc. cbn. split; [lia|congruence].
  - rewrite lookup_insert_ne by done. split; [done|apply Hz].
Qed.

Lemma inv_end_creation L i L' : Inv L -> device_act (AEndCreation i) L = Some L' -> Inv L'.
Proof.
  intros HI H. cbn [device_act] in H. destruct (ending L !! i) as [bus|] eqn:Hi; [|done]. injection H as <-.
  pose proof (n_creating _ HI) as [C1 C2 C3 C4 C5 C6].
  assert (Hbus : child_creations L !! bus <> None).
  { intros E. pose proof (C5 bus) as Hc. rewrite E, (count_delete _ i bus bus Hi), decide_True in Hc by done. cbn in Hc. lia. }
  apply (inv_views L); [done|done|done|apply (n_tables _ HI)|..].
  - constructor; lsimpl; try done.
    + intros b. pose proof (C5 b) as Hc. rewrite (count_delete _ i bus b Hi) in Hc.
      destruct (end_child_lookup bus (child_creations L) b Hbus C6) as [E _]. unfold remove_nth. lia.
    + intros b. by apply end_child_lookup.
  - apply (running_frame L); [apply (n_running _ HI)|done|by left|done].
  - apply (gated_frame L); [apply (n_gated _ HI)|done|done|done|done].
Qed.

Lemma shapes_registered L d :
  Inv L -> registered_bus (heap L !! d) = None -> registrations (routing (mgr L)) !! d = None.
Proof.
  intros HI Hr. pose proof (ag_registered _ (n_agrees _ HI d)) as E. cbn in E. rewrite Hr in E. unfold shapes in E.
  by destruct (registrations (routing (mgr L)) !! d).
Qed.

(** The motor's recipe asks for the route of its key. *)
Lemma motor_recipe k bk rc entries :
  key_ok k = true -> dk_kind k = KMotor -> recipe_ok k rc = true ->
  (rc_claims_bus rc = false -> re_key <$> entries = route_of bk <$> rc_can_ids rc /\ forall e, e ∈ entries -> re_claim e = false) ->
  k = motor_key (dk_bus k) (dk_idx k) /\ int_ok (dk_idx k) /\
  exists n, entries = [mkEntry (route_of bk (dk_idx k)) n false].
Proof.
  unfold key_ok, recipe_ok. intros Hk Hm Hr He. rewrite Hm in Hk, Hr.
  apply andb_true_iff in Hr as [Hids%bool_decide_eq_true Hcl%negb_true_iff].
  apply andb_true_iff in Hk as [[Hlo Hhi]%andb_true_iff Hk%bool_decide_eq_true].
  split; [done|]. split; [unfold int_ok; lia|]. destruct (He Hcl) as [Hkeys Hclaim]. rewrite Hids in Hkeys.
  destruct entries as [|e [|]]; try done. cbn in Hkeys. injection Hkeys as Hkey. exists (re_record e).
  rewrite <- (Hclaim e ltac:(left)). destruct e as [key rec cl]. cbn in *. f_equal. rewrite Hkey.
  unfold route_of. by rewrite (u32_small (u32 _)) by apply u32_range.
Qed.

Lemma inv_publish L d rc L' : Inv L -> device_act (APublish d rc) L = Some L' -> Inv L'.
Proof.
  intros HI H. cbn [device_act] in H. destruct (heap L !! d) as [[bus [k| | | | | |]|]|] eqn:Hd; try done.
  destruct (parent_usable bus (mgr L) && recipe_ok k rc) eqn:E; [|done]. apply andb_true_iff in E as [Hpar Hrc].
  destruct (PublishRoutesLocked d bus rc (mgr L)) as [[[] m']|] eqn:Hp; try done. injection H as <-.
  at_address HI d Hd.
  destruct (publish_effect d bus rc (mgr L) m' (n_tables _ HI) Hp) as (Eo & Es & Enone & bk & entries & Hbk & Er & Ekeys & Efl).
  pose proof (tables_publish d bus rc (mgr L) true m' (n_tables _ HI) Akey Hp) as HT'.
  pose proof (phase_bus L d bus (Constructed k) k HI Hd eq_refl) as Hbus.
  assert (Hcre : is_Some (creations L !! k)).
  { exists (Some d). apply (c_device _ (n_creating _ HI)). by rewrite Hd. }
  destruct (c_free _ (n_creating _ HI) k Hcre) as [_ Hkey].
  eapply (device_local L _ d bus); [done| | |exact Hd|apply lookup_insert_eq|exact HT'|..].
  - intros y Hy. unfold view, shapes. lsimpl. by rewrite Eo, Er, !lookup_insert_ne by congruence.
  - intros y Hy. lsimpl. by rewrite Er, lookup_insert_ne by congruence.
  - unfold view, shapes. lsimpl. rewrite Eo, Er, !lookup_insert_eq. constructor; lsimpl; try done.
    intros b ph k' [= <- <-] [= <-]. done.
  - intros k' [= <-] Hm. lsimpl. destruct (motor_recipe k bk rc entries Hkey Hm Hrc Ekeys) as (H1 & H2 & n & ->).
    split; [done|]. split; [done|]. rewrite Er, lookup_insert_eq, Eo, Hbus. intros reg [= <-]. cbn. split; [done|].
    by exists n, bk.
  - eapply (creating_frame L); [apply (n_creating _ HI)|done|done|done| | | |]; lsimpl; rewrite ?Eo; [done|..|done].
    + intros y. destruct (decide (d = y)) as [<-|Hne]; [by rewrite lookup_insert_eq, Hd|by rewrite lookup_insert_ne].
    + intros b Hb. left. destruct (decide (d = b)) as [<-|Hne]; [by rewrite Hd in Hb|by rewrite lookup_insert_ne].
  - apply (running_frame L); [apply (n_running _ HI)|done|..]; lsimpl.
    + intros n. destruct (Efl n) as [?|[? ?]]; [by left|right]. split; [done|]. by exists d, bus.
    + intros n y b Hn Ha Hb. destruct (decide (d = y)) as [<-|Hne].
      * exfalso. revert Ha. apply not_attached; [done|by rewrite Hd|by rewrite Hd].
      * rewrite lookup_insert_ne by done. split; [|done]. destruct Ha as [(b' & l & Hs & Hin)|(b' & w' & k' & t & Ht & Hin)].
        -- left. exists b', l. lsimpl. unfold shapes. by rewrite Er, lookup_insert_ne.
        -- right. exists b', w', k', t. lsimpl. by rewrite lookup_insert_ne.
  - apply (gated_frame L); [apply (n_gated _ HI)|done|done|done|]. lsimpl. by rewrite Es.
Qed.

Lemma inv_commit L d L' : Inv L -> device_act (ACommit d) L = Some L' -> Inv L'.
Proof.
  intros HI H. cbn [device_act] in H. destruct (heap L !! d) as [[bus [|k| | | | |]|]|] eqn:Hd; try done.
  destruct (parent_usable bus (mgr L)); [|done]. injection H as <-. at_address HI d Hd.
  set (m1 := if bool_decide (dk_kind k = KMotor) then ApplyMotorStatusConfigurationLocked bus (dk_idx k) d (mgr L) else mgr L).
  assert (Hm1 : objects m1 = objects (mgr L) /\ routing m1 = routing (mgr L) /\
    motor_index_reservations (statuses m1) = motor_index_reservations (statuses (mgr L))).
  { unfold m1. destruct (bool_decide (dk_kind k = KMotor)); [apply apply_status_effect|done]. }
  clearbody m1. destruct Hm1 as (Eo & Er & Ev).
  pose proof (phase_bus L d bus (Published k) k HI Hd eq_refl) as Hbus.
  assert (Hcre : is_Some (creations L !! k)).
  { exists (Some d). apply (c_device _ (n_creating _ HI)). by rewrite Hd. }
  destruct (c_free _ (n_creating _ HI) k Hcre) as [Hfree Hkey].
  assert (Hreg : is_Some (registrations (routing (mgr L)) !! d)).
  { unfold shapes in Areg. by destruct (registrations (routing (mgr L)) !! d). }
  assert (HT1 : Tables m1) by (eapply tables_statuses; [apply (n_tables _ HI)|done..]).
  assert (HT2 : Tables (commit_device k d m1)).
  { apply tables_commit; rewrite ?Eo, ?Er; try done. intros Hm. by eapply (n_shaped _ HI). }
  set (L' := set_phase d bus Live (finish_creation k (with_mgr (commit_device k d m1) L))).
  assert (Hdk : device_keys (objects (mgr L')) = <[d := k]> (device_keys (objects (mgr L)))).
  { unfold L'. lsimpl. by rewrite emplace_none, Eo by (by rewrite Eo). }
  assert (Hdv : devices (objects (mgr L')) = <[k := d]> (devices (objects (mgr L)))).
  { unfold L'. lsimpl. by rewrite emplace_none, Eo by (by rewrite Eo). }
  assert (Hrt : routing (mgr L') = routing (mgr L)) by (unfold L'; lsimpl; done).
  assert (Hpend : pending_devices (objects (mgr L')) = pending_devices (objects (mgr L)) ∖ {[k]}).
  { unfold L'. lsimpl. rewrite Eo. apply set_eq. intros k'. rewrite !elem_of_difference. tauto. }
  assert (Hrest : bus_keys (objects (mgr L')) = bus_keys (objects (mgr L)) /\
    deleting (objects (mgr L')) = deleting (objects (mgr L))) by (unfold L'; lsimpl; by rewrite Eo).
  destruct Hrest as [Hbk Hdel]. assert (Hheap : heap L' = <[d := ODevice bus Live]> (heap L)) by done.
  assert (HT' : Tables (mgr L')) by (unfold L'; lsimpl; apply (tables_objects _ _ HT2); done).
  assert (Hst : motor_index_reservations (statuses (mgr L')) = motor_index_reservations (statuses (mgr L))) by done.
  assert (Hoff : forall y, y <> d -> view L' y = view L y).
  { intros y Hy. unfold view, shapes. rewrite Hdk, Hbk, Hdel, Hheap, Hrt. by rewrite !lookup_insert_ne by congruence. }
  eapply (device_local L L' d bus); [done|done|by rewrite Hrt|exact Hd|by rewrite Hheap, lookup_insert_eq|done|..].
  - unfold view, shapes. rewrite Hdk, Hbk, Hdel, Hheap, Hrt, !lookup_insert_eq. constructor; lsimpl; try done.
    + by exists k.
    + by intros b ph k' [= <- <-].
  - done.
  - apply (creating_finish L L' k); [apply (n_creating _ HI)|done|done|done|done|done|..].
    + intros d' k'. rewrite Hheap. destruct (decide (d = d')) as [<-|Hne].
      * rewrite lookup_insert_eq, Hd. cbn. split; [done|]. intros [[= ->] ?]. done.
      * rewrite lookup_insert_ne by done. split; [|by intros []]. intros Hk. split; [done|]. intros ->.
        apply Hne. assert (creations L !! k = Some (Some d)) as E1 by (apply (c_device _ (n_creating _ HI)); by rewrite Hd).
        apply (c_device _ (n_creating _ HI)) in Hk. congruence.
    + intros b Hb. rewrite Hheap. destruct (decide (d = b)) as [<-|Hne]; [by rewrite Hd in Hb|by rewrite lookup_insert_ne].
    + intros k' Hne Hk'. rewrite Hdv. by rewrite lookup_insert_ne.
  - eapply (running_local L L' d); [done|done|by rewrite Hrt|done|left; by rewrite Hrt|].
    intros n b Hn Ha Hb. rewrite Hheap, lookup_insert_eq. rewrite Hd in Hb. split; [|done].
    destruct Ha as [(b' & l & Hs & Hin)|(b' & w' & k' & t & Ht & Hin)]; [|by rewrite Hd in Ht].
    left. exists b', l. by rewrite Hrt.
  - eapply (gated_local L L' d); [done|done|done|done|by left|by rewrite Hst].
Qed.

(** ** CreateBus *)

Lemma tables_domain x m : Tables m -> Tables (set_routing (set_domain_buses x (routing m)) m).
Proof. intros [HO [R1 R2 R3 R4] [V1 V2] HM HN]. constructor; lsimpl; [done|by constructor|by constructor|done|done]. Qed.

(** Only [pending_buses] and the like change. *)
Lemma inv_buses p i bad L : Inv L -> Inv (with_buses p i bad L).
Proof.
  intros HI. apply (inv_views L); [done..|apply (n_tables _ HI)| | |].
  - destruct (n_creating _ HI). by constructor.
  - apply (running_frame L); [apply (n_running _ HI)|done|by left|done].
  - apply (gated_frame L); [apply (n_gated _ HI)|done|done|done|done].
Qed.

(** A bus changes its phase, or comes to be. *)
Lemma bus_local L L' b :
  Inv L ->
  (forall y, y <> b -> view L' y = view L y) ->
  registrations (routing (mgr L')) = registrations (routing (mgr L)) ->
  records (routing (mgr L')) = records (routing (mgr L)) ->
  motor_index_reservations (statuses (mgr L')) = motor_index_reservations (statuses (mgr L)) ->
  devices (objects (mgr L')) = devices (objects (mgr L)) ->
  pending_devices (objects (mgr L')) = pending_devices (objects (mgr L)) ->
  creations L' = creations L -> ending L' = ending L -> child_creations L' = child_creations L ->
  running L' = running L -> inside L' = inside L -> setids L' = setids L ->
  parent_of (heap L !! b) = None -> parent_of (heap L' !! b) = None ->
  creation_key (heap L !! b) = None -> creation_key (heap L' !! b) = None ->
  (is_Some (gates L !! b) -> is_Some (gates L' !! b) \/ ((b ∉ inside L) /\ forall n ph, (b, n, ph) ∉ setids L)) ->
  Tables (mgr L') -> Agrees (view L' b) ->
  (hosts (heap L !! b) = true ->
     (hosts (heap L' !! b) = true /\ bus_keys (objects (mgr L')) !! b = bus_keys (objects (mgr L)) !! b) \/
     forall d, parent_of (heap L !! d) = Some b -> False) ->
  (creating (heap L !! b) = true -> creating (heap L' !! b) = true \/ creations_on b (creations L) = 0%nat) ->
  Inv L'.
Proof.
  intros HI Hoff Er Erec Ev Ed Ep Ec Ee En Eru Ei Es Hp Hp' Hk Hk' Hg HT HA Hh Hc.
  eapply (inv_local L L' b); try done; [by rewrite Er|by rewrite Hp'|..].
  - intros bus k Hd. by rewrite Hd in Hp'.
  - eapply (creating_local L L' b); try done; [by rewrite Hk, Hk'|]. intros k _. by rewrite Ed.
  - eapply (running_local L L' b); try done; [by rewrite Er|left; unfold flights; by rewrite Erec|].
    intros n bus _ _ Hb. by rewrite Hb in Hp.
  - eapply (gated_local L L' b); try done. by rewrite Ev.
Qed.

Lemma inv_construct_bus L bk b L' : Inv L -> bus_act (AConstructBus bk b) L = Some L' -> Inv L'.
Proof.
  intros HI H. cbn [bus_act] in H. destruct (_ && _) eqn:E; [|done]. injection H as <-.
  apply andb_true_iff in E as [_ Hb%bool_decide_eq_true]. at_address HI b Hb.
  eapply (bus_local L _ b); lsimpl; rewrite ?lookup_insert_eq, ?Hb; try done.
  - off_view.
  - by left.
  - apply (n_tables _ HI).
  - unfold view. lsimpl. rewrite lookup_insert_eq. by constructor.
Qed.

Lemma inv_fail_bus L b L' : Inv L -> bus_act (AFailBus b) L = Some L' -> Inv L'.
Proof.
  intros HI H. cbn [bus_act] in H. destruct (heap L !! b) as [[|bk []]|] eqn:Hb; try done. injection H as <-.
  at_address HI b Hb.
  eapply (bus_local L _ b); lsimpl; rewrite ?lookup_delete_eq, ?Hb; try done.
  - off_view.
  - by left.
  - apply (n_tables _ HI).
  - unfold view. lsimpl. rewrite lookup_delete_eq. by constructor.
Qed.

Lemma inv_publish_bus L b L' : Inv L -> bus_act (APublishBus b) L = Some L' -> Inv L'.
Proof.
  intros HI H. cbn [bus_act] in H. destruct (heap L !! b) as [[|bk []]|] eqn:Hb; try done.
  destruct (_ && _) eqn:E; [|done]. injection H as <-.
  apply andb_true_iff in E as [[[_ Hbk%bool_decide_eq_true]%andb_true_iff Hlo]%andb_true_iff Hhi].
  assert (Hint : int_ok (bk_raw_idx bk)) by (unfold int_ok; lia). at_address HI b Hb.
  eapply (bus_local L _ b); lsimpl; rewrite ?lookup_insert_eq, ?Hb; try done.
  - intros y Hy. unfold view, shapes. lsimpl. rewrite (emplace_none b bk) by done.
    by rewrite !lookup_insert_ne by congruence.
  - intros _. left. by eexists.
  - apply (tables_insert_bus bk b (mgr L)); [apply (n_tables _ HI)|done..].
  - unfold view, shapes in *. lsimpl. rewrite (emplace_none b bk), !lookup_insert_eq by done. by constructor.
Qed.

(** ** DestroyBus *)

Lemma inv_destroy_bus L b L' : Inv L -> bus_act (ADestroyBus b) L = Some L' -> Inv L'.
Proof.
  intros HI H. cbn [bus_act] in H. destruct (bus_keys (objects (mgr L)) !! b) as [bk|] eqn:Hbk; [|done].
  case_bool_decide as Hdel; [|done]. injection H as <-.
  assert (Hb : heap L !! b = Some (OBus bk BLive)).
  { pose proof (n_agrees _ HI b) as [_ _ Abus _ Adel _ _ _]. cbn in Abus, Adel. rewrite Hbk in Abus.
    rewrite (bool_decide_false (b ∈ deleting _)) in Adel by done. symmetry in Adel. apply orb_false_iff in Adel as [_ Hdes].
    destruct (heap L !! b) as [[|bk' []]|]; try done. cbn in Abus. by injection Abus as ->. }
  at_address HI b Hb. rewrite bool_decide_false in Adel by done. symmetry in Adel. rewrite orb_false_r in Adel.
  set (f := fun (x : nat) (g : bool) => Some (g || bool_decide (x = b) ||
    match device_keys (objects (mgr L)) !! x with Some k => bool_decide (dk_bus k = b) | None => false end)).
  assert (Hg : forall y, is_Some (map_imap f (gates L) !! y) <-> is_Some (gates L !! y)).
  { intros y. rewrite map_lookup_imap. by destruct (gates L !! y). }
  eapply (bus_local L _ b); lsimpl; rewrite ?lookup_insert_eq, ?Hb; try done.
  - intros y Hy. unfold view, shapes. lsimpl. rewrite lookup_insert_ne by congruence. f_equal.
    + apply bool_decide_ext. apply Hg.
    + apply bool_decide_ext. rewrite elem_of_union, elem_of_singleton. tauto.
  - intros Hs. left. by apply Hg.
  - apply (tables_domain _ (mark_deleting (deleting (objects (mgr L)) ∪ {[b]}) (mgr L))).
    apply tables_objects; [apply (n_tables _ HI)|done..].
  - unfold view, shapes in *. lsimpl. rewrite lookup_insert_eq, (bool_decide_true (b ∈ _ ∪ _)) by apply added.
    constructor; lsimpl; try done.
    + etransitivity; [|exact Agate]. apply bool_decide_ext. apply Hg.
    + by rewrite orb_true_r.
    + by rewrite Adel.
  - intros _. by left.
  - by left.
Qed.

Ltac bus_phase HI H b :=
  cbn [bus_act] in H;
  let Hb := fresh "Hb" in
  destruct (heap _ !! b) as [[|bk []]|] eqn:Hb; try done; at_address HI b Hb.

Lemma inv_drain_bus L b L' : Inv L -> bus_act (ADrainBus b) L = Some L' -> Inv L'.
Proof.
  intros HI H. bus_phase HI H b. destruct (gate_free b L) eqn:Hf; [|done]. injection H as <-. apply gate_free_spec in Hf.
  eapply (bus_local L _ b); lsimpl; rewrite ?lookup_insert_eq, ?Hb; try done.
  - off_view.
  - by right.
  - apply (n_tables _ HI).
  - unfold view. lsimpl. rewrite lookup_insert_eq, lookup_delete_eq. constructor; lsimpl; try done.
  - intros _. by left.
  - by left.
Qed.

Lemma no_creations L b : Inv L -> child_creations L !! b = None -> creations_on b (creations L) = 0%nat.
Proof. intros HI Hb. pose proof (c_count _ (n_creating _ HI) b) as E. rewrite Hb in E. cbn in E. lia. Qed.

Lemma inv_no_creations L b L' : Inv L -> bus_act (ANoCreations b) L = Some L' -> Inv L'.
Proof.
  intros HI H. bus_phase HI H b.
  destruct (bool_decide (child_creations L !! b = None)) eqn:Hc; [apply bool_decide_eq_true in Hc|done]. injection H as <-.
  eapply (bus_local L _ b); lsimpl; rewrite ?lookup_insert_eq, ?Hb; try done.
  - off_view.
  - by left.
  - apply (n_tables _ HI).
  - unfold view. lsimpl. rewrite lookup_insert_eq. constructor; lsimpl; try done.
  - intros _. by left.
  - intros _. right. by apply no_creations.
Qed.

(** A bus that is past its creations and has no child left. *)
Lemma no_children L b bk :
  Inv L -> heap L !! b = Some (OBus bk BChildren) ->
  forallb (fun '(k, _) => negb (bool_decide (dk_bus k = b))) (map_to_list (devices (objects (mgr L)))) = true ->
  forallb (fun '(_, p) => negb (bool_decide (p = b))) (map_to_list (deleting_device_parents L)) = true ->
  forall d, parent_of (heap L !! d) = Some b -> False.
Proof.
  intros HI Hb Hdev Hpar d Hd. destruct (heap L !! d) as [[bus ph|]|] eqn:Eh; try done. injection Hd as ->.
  rewrite forallb_forall in Hdev, Hpar.
  assert (Hcre : forall k, creation_key (heap L !! d) = Some k -> phase_key ph = Some k -> False).
  { intros k Hk Hph. apply (c_device _ (n_creating _ HI)) in Hk.
    assert (is_Some (creations L !! k)) as Hs by (by eexists). apply (c_bus _ (n_creating _ HI)) in Hs.
    rewrite (phase_bus L d b ph k HI Eh Hph), Hb in Hs. done. }
  assert (Hdes : destroying (heap L !! d) = true -> False).
  { intros H. pose proof (ag_parent _ (n_agrees _ HI d) b) as Hp. cbn in Hp. rewrite Eh in Hp, H.
    specialize (Hp eq_refl H). apply elem_of_map_to_list, list_elem_of_In, Hpar in Hp. by rewrite bool_decide_true in Hp. }
  rewrite Eh in Hcre, Hdes. destruct ph as [k|k| |[] k t|[] k|[] k|[] k];
    try (by apply (Hcre k)); try (by apply Hdes). at_address HI d Eh. destruct Akey as (k & Hk & Hkb).
  apply (o_devices _ (t_objects _ (n_tables _ HI))) in Hk. apply elem_of_map_to_list, list_elem_of_In, Hdev in Hk.
  by rewrite bool_decide_true in Hk.
Qed.

Lemma inv_no_children L b L' : Inv L -> bus_act (ANoChildren b) L = Some L' -> Inv L'.
Proof.
  intros HI H. bus_phase HI H b. destruct (_ && _) eqn:E; [|done]. injection H as <-. apply andb_true_iff in E as [E1 E2].
  eapply (bus_local L _ b); lsimpl; rewrite ?lookup_insert_eq, ?Hb; try done.
  - off_view.
  - by left.
  - apply (n_tables _ HI).
  - unfold view. lsimpl. rewrite lookup_insert_eq. constructor; lsimpl; try done.
  - intros _. right. by apply (no_children L b bk).
Qed.

(** A bus that hosts nobody is nobody's bus. *)
Lemma childless L b : Inv L -> hosts (heap L !! b) = false -> forall d, parent_of (heap L !! d) <> Some b.
Proof. intros HI Hh d Hd. by rewrite (n_hosted _ HI d b Hd) in Hh. Qed.

Lemma inv_erase_bus L b L' : Inv L -> bus_act (AEraseBus b) L = Some L' -> Inv L'.
Proof.
  intros HI H. bus_phase HI H b. injection H as <-.
  pose proof (childless L b HI ltac:(by rewrite Hb)) as Hno.
  eapply (bus_local L _ b); lsimpl; rewrite ?lookup_insert_eq, ?Hb; try done.
  - off_view.
  - by left.
  - apply (tables_erase_bus bk b (mgr L)); [apply (n_tables _ HI)|..].
    + left. by apply (o_buses _ (t_objects _ (n_tables _ HI))).
    + intros d reg Hd Er. apply (Hno d). pose proof (ag_registered _ (n_agrees _ HI d)) as E. cbn in E.
      unfold shapes in E. rewrite Hd in E. cbn in E. rewrite Er in E.
      destruct (heap L !! d) as [[bus []|]|]; try done; cbn in *; congruence.
    + intros d k Hd Ek. apply (Hno d). pose proof (ag_key _ (n_agrees _ HI d)) as E. cbn in E. rewrite Hd in E.
      pose proof (fun bus ph k => ag_phase _ (n_agrees _ HI d) bus ph k) as Hph. cbn in Hph.
      destruct (heap L !! d) as [[bus [| | |[] k' ?|[] k'|[] k'|[] k']|bk' []]|]; try done; cbn in *;
        try (injection E as <-; rewrite <- Ek; f_equal; symmetry; by eapply Hph).
      destruct E as (k' & [= <-] & <-). by rewrite Ek.
  - unfold view. lsimpl. rewrite lookup_insert_eq, lookup_delete_eq. constructor; lsimpl; try done.
Qed.

Lemma inv_free_bus L b L' : Inv L -> bus_act (AFreeBus b) L = Some L' -> Inv L'.
Proof.
  intros HI H. bus_phase HI H b. injection H as <-.
  eapply (bus_local L _ b); lsimpl; rewrite ?lookup_delete_eq, ?Hb; try done.
  - off_view.
  - by left.
  - apply (n_tables _ HI).
  - unfold view. lsimpl. rewrite lookup_delete_eq, (bool_decide_true (b ∈ freed L ∪ _)) by apply added.
    constructor; lsimpl; try done. rewrite Adel. by rewrite orb_true_r.
Qed.

(** ** Operations and callbacks *)

Lemma with_mgr_views m L :
  objects m = objects (mgr L) -> (forall y, registrations (routing m) !! y = registrations (routing (mgr L)) !! y) ->
  forall y, view (with_mgr m L) y = view L y.
Proof. intros Eo Er y. unfold view, shapes. lsimpl. by rewrite Eo, Er. Qed.

Lemma creating_mgr m L : Creating L -> objects m = objects (mgr L) -> Creating (with_mgr m L).
Proof. intros HC Eo. apply (creating_frame L); lsimpl; rewrite ?Eo; try done. intros b ?. by left. Qed.

Lemma attached_mgr m L n d :
  (forall y, registrations (routing m) !! y = registrations (routing (mgr L)) !! y) ->
  attached L n d -> attached (with_mgr m L) n d.
Proof. intros Er. unfold attached, shapes. lsimpl. by rewrite Er. Qed.

Lemma running_mgr m L :
  Running L -> (forall y, registrations (routing m) !! y = registrations (routing (mgr L)) !! y) ->
  records (routing m) = records (routing (mgr L)) -> Running (with_mgr m L).
Proof.
  intros HR Er Erec. apply (running_frame L); [done|done|..]; lsimpl.
  - intros n. left. unfold flights. by rewrite Erec.
  - intros n d bus _ Ha Hb. split; [by apply attached_mgr|done].
Qed.

Lemma inv_inside L l :
  Inv L -> (forall x, x ∈ l -> is_Some (gates L !! x)) -> Inv (with_inside l L).
Proof.
  intros HI Hl. apply (inv_views L); [done..|apply (n_tables _ HI)| | |].
  - destruct (n_creating _ HI). by constructor.
  - apply (running_frame L); [apply (n_running _ HI)|done|by left|done].
  - destruct (n_gated _ HI) as [G1 G2 G3]. by constructor.
Qed.

Lemma inv_setids L l m :
  Inv L -> Tables m -> objects m = objects (mgr L) ->
  (forall y, registrations (routing m) !! y = registrations (routing (mgr L)) !! y) ->
  records (routing m) = records (routing (mgr L)) ->
  (forall d n ph, (d, n, ph) ∈ l -> is_Some (gates L !! d) /\ int_ok n) ->
  (forall k v, motor_index_reservations (statuses m) !! k = Some v -> (rv_motor v, dk_idx k, SReserved) ∈ l) ->
  Inv (with_setids l (with_mgr m L)).
Proof.
  intros HI HT Eo Er Erec Hl Hv.
  apply (inv_views L); [done| |done|done| | |].
  - intros y. rewrite <- (with_mgr_views m L Eo Er y). done.
  - pose proof (creating_mgr m L (n_creating _ HI) Eo) as []. by constructor.
  - apply (running_frame (with_mgr m L)); [by apply running_mgr; [apply (n_running _ HI)|..]|done|by left|done].
  - destruct (n_gated _ HI) as [G1 G2 G3]. by constructor.
Qed.

(** Lists updated or cut at one place. *)
Lemma insert_list_inv {A} (l : list A) i x y : x ∈ <[i := y]> l -> x = y \/ x ∈ l.
Proof.
  intros [j Hj]%list_elem_of_lookup. apply list_lookup_insert_Some in Hj as [(_ & <- & _)|[_ Hj]]; [by left|right].
  by eapply list_elem_of_lookup_2.
Qed.
Lemma insert_list_keep {A} (l : list A) i x y z : l !! i = Some y -> x <> y -> x ∈ l -> x ∈ <[i := z]> l.
Proof.
  intros Hi Hne [j Hj]%list_elem_of_lookup. apply list_elem_of_lookup_2 with j.
  rewrite list_lookup_insert_ne; [done|congruence].
Qed.
Lemma delete_list_keep {A} (l : list A) i x y : l !! i = Some y -> x <> y -> x ∈ l -> x ∈ delete i l.
Proof.
  intros Hi Hne Hx. rewrite <- (take_drop_middle l i y Hi) in Hx. rewrite delete_take_drop.
  apply elem_of_app in Hx as [Hx|Hx]; apply elem_of_app; [by left|right].
  by apply elem_of_cons in Hx as [?|?].
Qed.

Lemma inv_enter_use L x L' : Inv L -> use_act (AEnter x) L = Some L' -> Inv L'.
Proof.
  intros HI H. cbn [use_act] in H. case_bool_decide as Hx; [|done]. injection H as <-.
  apply inv_inside; [done|]. intros y [->|Hy]%elem_of_cons; [by eexists|]. by apply (i_inside _ (n_gated _ HI)).
Qed.

Lemma inv_leave_use L i L' : Inv L -> use_act (ALeave i) L = Some L' -> Inv L'.
Proof.
  intros HI H. cbn [use_act] in H. destruct (inside L !! i); [|done]. injection H as <-.
  apply inv_inside; [done|]. intros y Hy%list_elem_of_delete_inv. by apply (i_inside _ (n_gated _ HI)).
Qed.

Lemma inv_call L n L' :
  Inv L -> (exists d reg e, registrations (routing (mgr L)) !! d = Some reg /\ e ∈ rg_routes reg /\ re_record e = n) ->
  call n L = Some L' -> Inv L'.
Proof.
  intros HI (d & reg & e & Hd & He & <-) H. unfold call, ready_record in H.
  destruct (r_entry _ _ (t_routing _ (n_tables _ HI)) d reg e Hd He) as (rr & bk & can & G1 & G2 & G3 & _).
  rewrite G1 in H. destruct (is_ready rr); [|done]. injection H as <-.
  pose proof (n_agrees _ HI d) as [Areg _ _ _ _ _ _ _]. cbn in Areg. unfold shapes in Areg. rewrite Hd in Areg. cbn in Areg.
  apply (inv_views L); [done|done|done|..].
  - apply tables_alter; [done|apply (n_tables _ HI)].
  - apply (creating_frame L); [apply (n_creating _ HI)|done..| |done]. intros b ?. by left.
  - destruct (n_running _ HI) as [U1 U2]. constructor; lsimpl.
    + intros n d' bus c. rewrite enter_flights, count_occ_cons_nat. case_decide as En; [subst n|apply U1].
      destruct (flights (routing (mgr L)) (re_record e)) as [[[x y] z]|] eqn:Ef; [|done].
      intros [= <- <- <-]. by rewrite (U1 _ _ _ _ Ef).
    + intros n [->|Hn]%elem_of_cons.
      * exists d, (rg_bus reg), (S (rr_in_flight rr)). rewrite enter_flights, decide_True by done. unfold flights. rewrite G1. cbn.
        rewrite G2, G3. split; [done|]. split.
        -- left. exists (rg_bus reg), (re_record <$> rg_routes reg). unfold shapes. lsimpl.
           unfold enter_route. cbn [registrations set_records routing set_routing]. rewrite Hd. split; [done|]. by apply list_elem_of_fmap_2.
        -- by destruct (heap L !! d) as [[b []|]|]; cbn in *; try done.
      * destruct (U2 n Hn) as (d' & bus & c & H1 & H2 & H3). exists d', bus.
        exists (if decide (re_record e = n) then S c else c).
        split; [rewrite enter_flights; case_decide; by rewrite H1|]. split; [exact H2|done].
  - apply (gated_frame L); [apply (n_gated _ HI)|done|done|done|done].
Qed.

Lemma inv_call_route L key L' : Inv L -> use_act (ACall key) L = Some L' -> Inv L'.
Proof.
  intros HI H. cbn [use_act] in H. destruct (routes (routing (mgr L)) !! key) as [n|] eqn:Hn; [|done].
  apply (inv_call L n); [done| |done].
  destruct (r_route _ _ (t_routing _ (n_tables _ HI)) key n Hn) as (d & reg & Hd & He). by eexists d, reg, _.
Qed.

Lemma inv_call_claim L bk L' : Inv L -> use_act (ACallClaim bk) L = Some L' -> Inv L'.
Proof.
  intros HI H. cbn [use_act] in H. destruct (claim_routes (routing (mgr L)) !! bk) as [n|] eqn:Hn; [|done].
  apply (inv_call L n); [done| |done].
  destruct (r_claim _ _ (t_routing _ (n_tables _ HI)) bk n Hn) as (d & reg & key & Hd & He & _). by eexists d, reg, _.
Qed.

Lemma inv_return L i L' : Inv L -> use_act (AReturn i) L = Some L' -> Inv L'.
Proof.
  intros HI H. cbn [use_act] in H. destruct (running L !! i) as [n|] eqn:Hi; [|done]. injection H as <-.
  apply (inv_views L); [done|done|done|..].
  - apply tables_alter; [done|apply (n_tables _ HI)].
  - apply (creating_frame L); [apply (n_creating _ HI)|done..| |done]. intros b ?. by left.
  - destruct (n_running _ HI) as [U1 U2]. unfold remove_nth. constructor; lsimpl.
    + intros n' d bus c. rewrite leave_flights. pose proof (count_delete (running L) i n n' Hi) as Hc.
      destruct (decide (n = n')) as [<-|En].
      * destruct (flights (routing (mgr L)) n) as [[[x y] z]|] eqn:Ef; [|done]. intros [= <- <- <-].
        rewrite (U1 _ _ _ _ Ef). lia.
      * intros Hf. rewrite (U1 _ _ _ _ Hf). lia.
    + intros n' Hn'%list_elem_of_delete_inv. destruct (U2 n' Hn') as (d & bus & c & H1 & H2 & H3). exists d, bus.
      exists (if decide (n = n') then pred c else c).
      split; [rewrite leave_flights; case_decide; by rewrite H1|]. split; [exact H2|done].
  - apply (gated_frame L); [apply (n_gated _ HI)|done|done|done|done].
Qed.

Lemma with_mgr_same L : with_mgr (mgr L) L = L.
Proof. by destruct L. Qed.

Lemma inv_set_id L d n L' : Inv L -> use_act (ASetId d n) L = Some L' -> Inv L'.
Proof.
  intros HI H. cbn [use_act] in H. destruct (_ && _) eqn:E; [|done]. injection H as <-.
  apply andb_true_iff in E as [[Hg%bool_decide_eq_true Hlo]%andb_true_iff Hhi]. destruct (n_gated _ HI) as [G1 G2 G3].
  rewrite <- (with_mgr_same L) at 2. apply inv_setids; try done; [apply (n_tables _ HI)|..].
  - intros d' n' ph [[= -> -> ->]|Hin]%elem_of_cons; [|by eapply G2]. split; [by eexists|unfold int_ok; lia].
  - intros k v Hv. right. by apply G3.
Qed.

Lemma inv_reserve L i L' : Inv L -> use_act (AReserve i) L = Some L' -> Inv L'.
Proof.
  intros HI H. cbn [use_act] in H. destruct (setids L !! i) as [[[d n] []]|] eqn:Hi; try done.
  destruct (n_gated _ HI) as [G1 G2 G3]. destruct (G2 d n SEntered) as [Hg Hn]; [by eapply list_elem_of_lookup_2|].
  pose proof (reserve_effect d n (mgr L) (n_tables _ HI) Hn) as He.
  pose proof (tables_reserve d n (mgr L) _ (n_tables _ HI) Hn (reserve_ok d n _ (n_tables _ HI) Hn)) as HT.
  destruct (ReserveMotorIndex d n (mgr L)) as [ok m']. injection H as <-. destruct He as (Eo & Er & Erec & Ev).
  apply inv_setids; try done.
  - intros d' n' ph [[= -> -> ->]|Hin]%insert_list_inv; [done|by eapply G2].
  - intros k v Hv. destruct (Ev k v Hv) as [Hold|(-> & -> & ->)].
    + eapply insert_list_keep; [exact Hi|done|by apply G3].
    + apply list_elem_of_insert. by eapply lookup_lt_Some.
Qed.

Lemma inv_release L i L' : Inv L -> use_act (ARelease i) L = Some L' -> Inv L'.
Proof.
  intros HI H. cbn [use_act] in H. destruct (setids L !! i) as [[[d n] []]|] eqn:Hi; try done. injection H as <-.
  destruct (n_gated _ HI) as [G1 G2 G3]. destruct (G2 d n SReserved) as [Hg Hn]; [by eapply list_elem_of_lookup_2|].
  pose proof (release_effect d n (mgr L) (n_tables _ HI)) as (Eo & Er & Erec & Ev).
  apply inv_setids; try done; [apply tables_release, (n_tables _ HI)|..].
  - intros d' n' ph [[= -> -> ->]|Hin]%insert_list_inv; [done|by eapply G2].
  - intros k v Hv. destruct (Ev k v Hv) as [Hold Hne].
    eapply insert_list_keep; [exact Hi| |by apply G3]. intros [= Em En]. by apply Hne.
Qed.

Lemma inv_set_id_done L i L' : Inv L -> use_act (ASetIdDone i) L = Some L' -> Inv L'.
Proof.
  intros HI H. cbn [use_act] in H. destruct (setids L !! i) as [[[d n] []]|] eqn:Hi; try done. injection H as <-.
  destruct (n_gated _ HI) as [G1 G2 G3].
  rewrite <- (with_mgr_same L) at 2. apply inv_setids; try done; [apply (n_tables _ HI)|..].
  - intros d' n' ph Hin%list_elem_of_delete_inv. by eapply G2.
  - intros k v Hv. eapply delete_list_keep; [exact Hi|done|by apply G3].
Qed.

(** A motor moves to an index that no pending creation has. *)
Lemma inv_migrated L d n :
  Inv L -> int_ok n ->
  (forall k, device_keys (objects (mgr L)) !! d = Some k -> motor_key (dk_bus k) n ∉ pending_devices (objects (mgr L))) ->
  Inv (with_mgr (snd (MigrateMotorIndex d n (mgr L))) L).
Proof.
  intros HI Hn Hclash.
  pose proof (migrate_effect d n (mgr L) (n_tables _ HI) Hn) as He.
  pose proof (tables_migrate d n (mgr L) _ (n_tables _ HI) Hn (migrate_ok d n (mgr L))) as HT.
  destruct (MigrateMotorIndex d n (mgr L)) as [ok m']. cbn [snd] in *.
  destruct He as [->|(old & Hold & Hdel & Hkind & Edk & Edv & Ebk & Epend & Edel & _ & Esh & Ereg & Erec & Ev)];
    [by rewrite with_mgr_same|].
  specialize (Hclash _ Hold).
  pose proof (n_agrees _ HI d) as [Areg Akey Abus Agate Adel Afreed Apar Aph]. cbn in *.
  rewrite (bool_decide_false (d ∈ deleting _)) in Adel by done. symmetry in Adel. apply orb_false_iff in Adel as [Hfr Hdes].
  assert (exists bus, heap L !! d = Some (ODevice bus Live) /\ dk_bus old = bus) as (bus & Hd & Hbus).
  { rewrite Hold in Akey. destruct (heap L !! d) as [[bus [| | |[] ? ?|[] ?|[] ?|]|]|]; try done.
    destruct Akey as (k' & [= <-] & Hb). by exists bus. }
  eapply (device_local L _ d bus Live Live); [done| |done|exact Hd|exact Hd|exact HT|..].
  - intros y Hy. unfold view. lsimpl. by rewrite Edk, Ebk, Edel, Esh, lookup_insert_ne by congruence.
  - unfold view. lsimpl. rewrite Edk, Ebk, Edel, Esh, lookup_insert_eq, Hd. rewrite Hd in Areg, Abus, Agate, Aph.
    constructor; lsimpl; try done.
    + eexists. split; [done|]. done.
    + rewrite (bool_decide_false (d ∈ deleting _)) by done. by rewrite Hfr.
    + by rewrite andb_false_r.
  - done.
  - apply (creating_frame L); [apply (n_creating _ HI)|done|done|done|done|done|..]; lsimpl.
    + intros b ?. by left.
    + intros k Hk Hfree. rewrite Edv, lookup_insert_ne.
      * apply lookup_delete_None. by right.
      * intros <-. apply Hclash. by apply (c_pending _ (n_creating _ HI)).
  - apply (running_frame L); [apply (n_running _ HI)|done|..]; lsimpl.
    + intros n'. left. unfold flights. by rewrite Erec.
    + intros n' y b _ Ha Hb. split; [|done]. destruct Ha as [(b' & l & Hs & Hin)|Ha]; [left|by right].
      exists b', l. lsimpl. by rewrite Esh.
  - apply (gated_frame L); [apply (n_gated _ HI)|done|done|done|]. lsimpl. rewrite Ev. by intros k v [_ Hv]%lookup_delete_Some.
Qed.

Lemma inv_migrate L i L' : Inv L -> no_clash (AMigrate i) L = true -> use_act (AMigrate i) L = Some L' -> Inv L'.
Proof.
  intros HI Hclash H. cbn [use_act] in H. destruct (setids L !! i) as [[[d n] []]|] eqn:Hi; try done. injection H as <-.
  cbn [no_clash] in Hclash. rewrite Hi in Hclash. destruct (n_gated _ HI) as [_ G2 _].
  destruct (G2 d n SReserved) as [_ Hn]; [by eapply list_elem_of_lookup_2|].
  apply inv_migrated; [done|done|]. intros k Hk. rewrite Hk in Hclash. by apply bool_decide_eq_true in Hclash.
Qed.

(** ** Every step *)

Lemma inv_new adapters : Inv (new_life adapters).
Proof.
  constructor.
  - by apply tables_empty.
  - intros x. by constructor.
  - done.
  - constructor; try done; cbn.
    + intros k. split; [done|by intros []].
    + intros k [v Hv]. done.
    + intros k [v Hv]. done.
  - done.
  - constructor; [done|]. intros n Hn. by apply elem_of_nil in Hn.
  - constructor; [|..|done].
    + intros x Hx. by apply elem_of_nil in Hx.
    + intros d n ph H. by apply elem_of_nil in H.
Qed.

Lemma inv_device_act a L L' : Inv L -> device_act a L = Some L' -> Inv L'.
Proof.
  intros HI H. destruct a; try done.
  - by eapply inv_create.
  - by eapply inv_construct.
  - by eapply inv_publish.
  - by eapply inv_commit.
  - by eapply inv_fail.
  - by eapply inv_construct_fails.
  - by eapply inv_end_creation.
  - by eapply inv_destroy.
  - by eapply inv_drain_route.
  - by eapply inv_drain_gate.
  - by eapply inv_erase.
  - by eapply inv_free.
  - by eapply inv_finish.
Qed.

Lemma inv_bus_act a L L' : Inv L -> bus_act a L = Some L' -> Inv L'.
Proof.
  intros HI H. destruct a; try done.
  - cbn [bus_act] in H. destruct (_ && _); [|done]. injection H as <-. by apply inv_buses.
  - by eapply inv_construct_bus.
  - by eapply inv_publish_bus.
  - by eapply inv_fail_bus.
  - cbn [bus_act] in H. destruct (initialising L !! i) as [[bk b]|]; [|done]. injection H as <-. by apply inv_buses.
  - by eapply inv_destroy_bus.
  - by eapply inv_drain_bus.
  - by eapply inv_no_creations.
  - by eapply inv_no_children.
  - by eapply inv_erase_bus.
  - by eapply inv_free_bus.
Qed.

Lemma inv_use_act a L L' : Inv L -> no_clash a L = true -> use_act a L = Some L' -> Inv L'.
Proof.
  intros HI Hc H. destruct a; try done.
  - by eapply inv_enter_use.
  - by eapply inv_leave_use.
  - by eapply inv_call_route.
  - by eapply inv_call_claim.
  - by eapply inv_return.
  - by eapply inv_set_id.
  - by eapply inv_reserve.
  - by eapply inv_migrate.
  - by eapply inv_release.
  - by eapply inv_set_id_done.
Qed.

Lemma inv_step L L' : Inv L -> lifetime_step L L' -> Inv L'.
Proof.
  intros HI Hstep. destruct Hstep as [a L1 L2 H Hc]. unfold act in H.
  destruct (device_act a L1) eqn:E1; [injection H as <-; exact (inv_device_act a L1 _ HI E1)|].
  destruct (bus_act a L1) eqn:E2; [injection H as <-; exact (inv_bus_act a L1 _ HI E2)|].
  exact (inv_use_act a L1 L2 HI Hc H).
Qed.

Lemma inv_reachable adapters L : reachable adapters L -> Inv L.
Proof.
  unfold reachable. intros H. remember (new_life adapters) as L0 eqn:E0.
  assert (Inv L0) as HI by (subst; apply inv_new). clear E0.
  induction H as [|L1 L2 L3 Hs _ IH]; [done|]. apply IH. by eapply inv_step.
Qed.

(** ** Memory safety *)

(** A bus and a device that is not freed. *)
Definition bus_alive (L : Life) (b : nat) : Prop := exists bk ph, heap L !! b = Some (OBus bk ph).
Definition device_alive (L : Life) (d bus : nat) : Prop := exists ph, heap L !! d = Some (ODevice bus ph).

(** The record of a route belongs to a device and a bus that are alive. *)
Definition record_alive (L : Life) (n : nat) : Prop :=
  exists rr, records (routing (mgr L)) !! n = Some rr /\ device_alive L (rr_device rr) (rr_bus rr) /\ bus_alive L (rr_bus rr).

Lemma alive_parent L d bus : Inv L -> parent_of (heap L !! d) = Some bus -> device_alive L d bus /\ bus_alive L bus.
Proof.
  intros HI Hp. pose proof (n_hosted _ HI d bus Hp) as Hh. split.
  - destruct (heap L !! d) as [[b ph|]|] eqn:E; try done. injection Hp as ->. by exists ph.
  - destruct (heap L !! bus) as [[|bk ph]|] eqn:E; try done. by exists bk, ph.
Qed.

Lemma registered_alive L d reg e :
  Inv L -> registrations (routing (mgr L)) !! d = Some reg -> e ∈ rg_routes reg -> record_alive L (re_record e).
Proof.
  intros HI Hd He. destruct (r_entry _ _ (t_routing _ (n_tables _ HI)) d reg e Hd He) as (rr & bk & can & G1 & G2 & G3 & _).
  exists rr. split; [done|]. rewrite G2, G3. apply (alive_parent L); [done|].
  pose proof (ag_registered _ (n_agrees _ HI d)) as Areg. cbn in Areg. unfold shapes in Areg. rewrite Hd in Areg.
  by destruct (heap L !! d) as [[b []|]|]; cbn in *.
Qed.

Fixpoint checked_run (actions : list Action) (L : Life) : option Life :=
  match actions with
  | [] => Some L
  | a :: rest => if no_clash a L then match act a L with Some L' => checked_run rest L' | None => None end else None
  end.

Lemma checked_run_reachable adapters actions L L' :
  reachable adapters L -> checked_run actions L = Some L' -> reachable adapters L'.
Proof.
  revert L. induction actions as [|a actions IH]; intros L HL; cbn [checked_run]; [by intros [= <-]|].
  destruct (no_clash a L) eqn:Hc; [|done]. destruct (act a L) as [L1|] eqn:Ha; [|done]. apply IH.
  eapply rtc_r; [exact HL|]. by econstructor.
Qed.


Definition example_key : BusKey := mkBusKey 1 0.
Definition motor_recipe_for (idx : Z) : Recipe := mkRecipe [u32 idx] false true false.

(** A bus at address 10 and a motor of index 5 at address 20. *)
Definition example_creation : list Action :=
  [ACreateBus example_key; AConstructBus example_key 10; APublishBus 10; AInitialised 0;
   ACreate (motor_key 10 5); AConstruct (motor_key 10 5) 20; APublish 20 (motor_recipe_for 5); ACommit 20; AEndCreation 0].


(** ** A destruction completes *)

Lemma drain_routes L d bus w k todo :
  heap L !! d = Some (ODevice bus (Draining w k todo)) ->
  (forall e, e ∈ todo -> exists rr, records (routing (mgr L)) !! re_record e = Some rr /\ rr_in_flight rr = 0%nat) ->
  run (replicate (S (length todo)) (ADrainRoute d)) L = Some (set_phase d bus (GateWait w k) L).
Proof.
  revert L. induction todo as [|e todo IH]; intros L Hd Hall.
  - cbn. unfold act. cbn [device_act]. by rewrite Hd.
  - cbn [length]. change (replicate (S (S (length todo))) (ADrainRoute d))
      with (ADrainRoute d :: replicate (S (length todo)) (ADrainRoute d)).
    cbn [run]. unfold act. cbn [device_act]. rewrite Hd.
    destruct (Hall e ltac:(left)) as (rr & -> & ->). cbn [Nat.eqb]. rewrite IH.
    + unfold set_phase, with_heap. lsimpl. by rewrite insert_insert_eq.
    + lsimpl. apply lookup_insert_eq.
    + lsimpl. intros e' He'. apply Hall. by right.
Qed.

Lemma run_app l l' L : run (l ++ l') L = match run l L with Some L1 => run l' L1 | None => None end.
Proof. revert L. induction l as [|a l IH]; intros L; [done|]. cbn. by destruct (act a L). Qed.

(** The steps of a destruction that waits for nobody. *)
Definition drain_actions (d n : nat) : list Action :=
  replicate (S n) (ADrainRoute d) ++ [ADrainGate d; AErase d; AFree d; AFinish d].

Lemma destruction_runs L d bus k todo :
  heap L !! d = Some (ODevice bus (Draining Destruction k todo)) ->
  (forall e, e ∈ todo -> exists rr, records (routing (mgr L)) !! re_record e = Some rr /\ rr_in_flight rr = 0%nat) ->
  gate_free d L = true ->
  exists L', run (drain_actions d (length todo)) L = Some L' /\
    mgr L' = mark_deleting (deleting (objects (mgr L)) ∖ {[d]}) (erase_device k d (mgr L)) /\
    heap L' !! d = None /\ (forall x, x <> d -> heap L' !! x = heap L !! x) /\
    inside L' = inside L /\ setids L' = setids L /\ running L' = running L /\ creations L' = creations L /\
    ending L' = ending L /\ deleting_device_parents L' = delete d (deleting_device_parents L).
Proof.
  intros Hd Hall Hg. unfold drain_actions. rewrite run_app, (drain_routes L d bus Destruction k todo Hd Hall).
  unfold run, act. cbn [device_act]. lsimpl. rewrite lookup_insert_eq.
  change (gate_free d (set_phase d bus (GateWait Destruction k) L)) with (gate_free d L). rewrite Hg. lsimpl.
  rewrite lookup_insert_eq. lsimpl. rewrite lookup_insert_eq. lsimpl.
  rewrite bool_decide_true by apply added. eexists. split; [reflexivity|]. lsimpl.
  split_and!; try done; [apply lookup_delete_eq|].
  intros x Hx. by rewrite lookup_delete_ne, !lookup_insert_ne by congruence.
Qed.

(** C17: a destruction does not wait for anything but its users: once no callback of
    the device's routes is in flight and no operation is inside its gate, its own
    steps run to the end, and then the device is freed, its address is no longer
    marked as being deleted, and neither table of devices knows it. *)
Theorem destruction_completes L d bus k todo :
  heap L !! d = Some (ODevice bus (Draining Destruction k todo)) ->
  (forall e, e ∈ todo -> exists rr, records (routing (mgr L)) !! re_record e = Some rr /\ rr_in_flight rr = 0%nat) ->
  gate_free d L = true ->
  exists L', run (drain_actions d (length todo)) L = Some L' /\
    heap L' !! d = None /\ (d ∉ deleting (objects (mgr L'))) /\
    devices (objects (mgr L')) !! k = None /\ device_keys (objects (mgr L')) !! d = None /\
    (forall x, x <> d -> heap L' !! x = heap L !! x).
Proof.
  intros Hd Hall Hg. destruct (destruction_runs L d bus k todo Hd Hall Hg) as (L' & Hrun & Hm & Hh & Ho & _).
  exists L'. split; [done|]. rewrite Hm. lsimpl. split_and!; [done|apply removed|apply lookup_delete_eq|apply lookup_delete_eq|done].
Qed.

Lemma destruction_completes_witness :
  (heap <$> run (example_creation ++ [ADestroy 20]) (new_life {[1%nat]})) ≫= (fun h => h !! 20%nat) =
    Some (ODevice 10 (Draining Destruction (motor_key 10 5) [mkEntry (route_of example_key 5) 0 false])) /\
  exists L', (run (example_creation ++ [ADestroy 20]) (new_life {[1%nat]}) ≫=
    run [ADrainRoute 20; ADrainRoute 20; ADrainGate 20; AErase 20; AFree 20; AFinish 20]) = Some L' /\ heap L' !! 20%nat = None.
Proof.
  split; [vm_compute; reflexivity|].
  match goal with |- context [run ?l ?x ≫= _] => destruct (run l x) as [L|] eqn:E; [|vm_compute in E; discriminate E] end.
  vm_compute in E. injection E as E.
  destruct (destruction_completes L 20 10 (motor_key 10 5) [mkEntry (route_of example_key 5) 0 false]) as (L' & Hrun & Hfree & _).
  - subst L. vm_compute. reflexivity.
  - intros e ->%list_elem_of_singleton. subst L. eexists. split; vm_compute; reflexivity.
  - subst L. vm_compute. reflexivity.
  - exists L'. split; [exact Hrun|exact Hfree].
Defined.

(** ** What happens otherwise *)

(** [SetId] has reserved index 9 when [CreateMotor] for index 9 begins - it does not
    look at the reservations - and the motor moves while the new one is being
    constructed.  The publication of the new motor fails, and its clean-up erases
    the entry of the motor that has moved: [FindMotor] does not find it, and
    [DestroyBus] frees the bus under it. *)
Definition migration_clash_actions : list Action :=
  example_creation ++
  [ASetId 20 9; AReserve 0; ACreate (motor_key 10 9); AMigrate 0; AConstruct (motor_key 10 9) 21;
   AFail 21; ADrainRoute 21; ADrainGate 21; AErase 21; AFree 21; AEndCreation 0; ARelease 0; ASetIdDone 0].

Example migration_clash :
  exists L, run migration_clash_actions (new_life {[1%nat]}) = Some L /\
    no_clash (AMigrate 0) <$> run (firstn 12 migration_clash_actions) (new_life {[1%nat]}) = Some false /\
    device_keys (objects (mgr L)) !! 20%nat = Some (motor_key 10 9) /\
    devices (objects (mgr L)) !! motor_key 10 9 = None /\ FindMotor 10 9 (mgr L) = None /\
    exists L', run [ADestroyBus 10; ADrainBus 10; ANoCreations 10; ANoChildren 10; AEraseBus 10; AFreeBus 10] L = Some L' /\
      heap L' !! 10%nat = None /\ heap L' !! 20%nat = Some (ODevice 10 Live).
Proof.
  destruct (run migration_clash_actions (new_life {[1%nat]})) as [L|] eqn:E; [|vm_compute in E; discriminate E].
  exists L. split; [done|]. vm_compute in E. injection E as <-.
  split_and!; [vm_compute; reflexivity..|]. eexists. vm_compute. done.
Qed.

(** [CreateBus] publishes the bus before [InitializeBusSyncMode] has touched it:
    another thread may find it there and destroy it in between. *)
Example initialise_after_free :
  bad_initialise <$> run [ACreateBus example_key; AConstructBus example_key 10; APublishBus 10;
    ADestroyBus 10; ADrainBus 10; ANoCreations 10; ANoChildren 10; AEraseBus 10; AFreeBus 10; AInitialised 0]
    (new_life {[1%nat]}) = Some true.
Proof. vm_compute. reflexivity. Qed.
