(* ===== verification/ManagerDispatch.v ===== *)
(** * ManagerDispatch: frames reach the devices registered for them

    The tables of [DriverManager] seen as subscriptions: which device listens on
    which bus, for which CAN id or for the frames nobody else takes, and whether
    its route is active.  [DispatchReceive] is compared with a delivery computed
    from the subscriptions alone, and every operation on the tables with its
    effect on them. *)
From stdpp Require Import base list numbers option gmap.
From Stdlib Require Import ZArith Lia.
From S2P Require Import Prelude Types.
From S2P Require Import DriverManager.
From S2P Require Import ManagerTables.
#[local] Open Scope Z_scope.
#[local] Open Scope cint_scope.

(** ** Subscriptions *)

Record Subscription := mkSub {
  sb_bus : BusKey;
  sb_claim : bool;     (* takes the frames of the bus that no route takes *)
  sb_can_id : Z;
  sb_ready : bool
}.
Abbreviation Subscriptions := (gmap nat (list Subscription)).

(** The bus of a route key. *)
Definition bus_of_key (key : RouteKey) : BusKey :=
  mkBusKey (rk_adapter key) (i32 (u32 (rk_unique_id key ≫ 32))).

Definition route_ready (r : Routing) (n : nat) : bool := bool_decide (is_Some (ready_record r n)).

Definition subscription (r : Routing) (e : RouteEntry) : Subscription :=
  mkSub (bus_of_key (re_key e)) (re_claim e) (u32 (rk_unique_id (re_key e))) (route_ready r (re_record e)).

Definition subscriptions (r : Routing) : Subscriptions :=
  (fun reg => subscription r <$> rg_routes reg) <$> registrations r.

(** The devices with an active subscription that satisfies [p], once for each. *)
Definition listeners (p : Subscription -> bool) (s : Subscriptions) : list nat :=
  map_to_list s ≫= fun '(d, l) => omap (fun x => if p x && sb_ready x then Some d else None) l.

Definition routes_on (bk : BusKey) (x : Subscription) : bool := bool_decide (sb_bus x = bk) && negb (sb_claim x).
Definition routes_for (bk : BusKey) (can_id : Z) (x : Subscription) : bool := routes_on bk x && (sb_can_id x =? can_id).
Definition claims_on (bk : BusKey) (x : Subscription) : bool := bool_decide (sb_bus x = bk) && sb_claim x.

(** Who gets a frame that arrives on a bus, and whether it counts as routed. *)
Definition delivery (bk : BusKey) (can_id : Z) (s : Subscriptions) : bool * list nat :=
  if can_id =? 2047 then (false, listeners (routes_on bk) s ++ listeners (claims_on bk) s)
  else match listeners (routes_for bk can_id) s with
       | [] => (false, listeners (claims_on bk) s)
       | l => (true, l)
       end.

(** ** The registered entries and the tables *)

Definition registered (r : Routing) : list (nat * RouteEntry) :=
  map_to_list (registrations r) ≫= fun '(d, reg) => pair d <$> rg_routes reg.

Lemma elem_registered r d e :
  (d, e) ∈ registered r <-> exists reg, registrations r !! d = Some reg /\ e ∈ rg_routes reg.
Proof.
  unfold registered. rewrite list_elem_of_bind. split.
  - intros ([d' reg] & (e' & [= <- <-] & He)%list_elem_of_fmap & Hd%elem_of_map_to_list). by exists reg.
  - intros (reg & Hd & He). exists (d, reg). split; [by apply list_elem_of_fmap_2|by apply elem_of_map_to_list].
Qed.

Lemma NoDup_registered m : Tables m -> NoDup (registered (routing m)).
Proof.
  intros HT. apply NoDup_bind.
  - intros [d reg] [d' reg'] y Hd%elem_of_map_to_list Hd'%elem_of_map_to_list
      (e & -> & _)%list_elem_of_fmap (e' & [= <- _] & _)%list_elem_of_fmap. congruence.
  - intros [d reg] Hd%elem_of_map_to_list. apply NoDup_fmap_2; [intros x y; congruence|by eapply t_distinct].
  - apply NoDup_map_to_list.
Qed.

Lemma perm_eq {A} (l l' : list A) : l = l' -> l ≡ₚ l'.
Proof. by intros ->. Qed.

Lemma omap_fmap_l {A B C} (f : B -> option C) (g : A -> B) (l : list A) : omap f (g <$> l) = omap (fun x => f (g x)) l.
Proof. induction l as [|x l IH]; [done|]. cbn. by rewrite IH. Qed.

Lemma omap_filter {A B} (P : A -> Prop) `{forall x, Decision (P x)} (f : A -> option B) (l : list A) :
  (forall x, ~ P x -> f x = None) -> omap f (filter P l) = omap f l.
Proof.
  intros Hf. induction l as [|x l IH]; [done|]. rewrite filter_cons. case_decide as HP; cbn; rewrite IH; [done|].
  by rewrite Hf.
Qed.

Lemma omap_omap {A B C} (f : B -> option C) (g : A -> option B) (l : list A) :
  omap f (omap g l) = omap (fun x => g x ≫= f) l.
Proof. induction l as [|x l IH]; [done|]. cbn. destruct (g x); cbn; by rewrite IH. Qed.

Lemma omap_ext_in {A B} (f g : A -> option B) (l : list A) : (forall x, x ∈ l -> f x = g x) -> omap f l = omap g l.
Proof.
  induction l as [|x l IH]; intros H; [done|]. cbn. rewrite IH by (intros; apply H; by right).
  by rewrite H by left.
Qed.

(** At most one element of a map has a given key. *)
Lemma omap_lookup {K A B} `{Countable K} (t : gmap K A) (k : K) (h : A -> option B) :
  omap (fun '(k', x) => if bool_decide (k' = k) then h x else None) (map_to_list t) ≡ₚ
  match t !! k with Some x => match h x with Some y => [y] | None => [] end | None => [] end.
Proof.
  assert (Hno : forall t' : gmap K A, t' !! k = None ->
    omap (fun '(k', x) => if bool_decide (k' = k) then h x else None) (map_to_list t') = []).
  { intros t' Hk. rewrite (omap_ext_in _ (fun _ => None)).
    - induction (map_to_list t'); done.
    - intros [k' x] Hx%elem_of_map_to_list. rewrite bool_decide_false; congruence. }
  destruct (t !! k) as [x|] eqn:Hk; [|by rewrite Hno].
  rewrite <- (map_to_list_delete t k x Hk). cbn. rewrite bool_decide_true by done.
  rewrite Hno by apply lookup_delete_eq. by destruct (h x).
Qed.

Lemma listeners_registered p r :
  listeners p (subscriptions r) ≡ₚ
  omap (fun '(d, e) => if p (subscription r e) && route_ready r (re_record e) then Some d else None) (registered r).
Proof.
  unfold listeners, registered. setoid_rewrite map_to_list_fmap.
  induction (map_to_list (registrations r)) as [|[d reg] l IH]; [done|].
  cbn. rewrite IH. rewrite omap_app. apply Permutation_app_tail.
  rewrite !omap_fmap_l. done.
Qed.

Definition device_or (r : Routing) (n : nat) : nat := default 0%nat (device_of r n).

(** The ordinary entries are exactly the table [routes]; the claims, [claim_routes]. *)
Lemma routes_registered m :
  Tables m ->
  filter (fun '(_, e) => re_claim e = false) (registered (routing m)) ≡ₚ
  (fun '(key, n) => (device_or (routing m) n, mkEntry key n false)) <$> map_to_list (routes (routing m)).
Proof.
  intros HT. pose proof (t_routing _ HT) as HR. apply NoDup_Permutation.
  - by apply NoDup_filter, NoDup_registered.
  - apply NoDup_fmap_2; [|apply NoDup_map_to_list]. intros [k n] [k' n']. by intros [= _ -> ->].
  - intros [d e]. rewrite list_elem_of_filter, elem_registered, list_elem_of_fmap. split.
    + intros (Hc & reg & Hd & He). destruct (r_entry _ _ HR d reg e Hd He) as (rr & bk & can & G1 & G2 & _ & _ & _ & _ & _ & _ & G9).
      rewrite Hc in G9. exists (re_key e, re_record e). split; [|by apply elem_of_map_to_list].
      unfold device_or, device_of. rewrite G1. cbn. rewrite G2. f_equal. destruct e; cbn in *; congruence.
    + intros ([key n] & [= -> ->] & Hn%elem_of_map_to_list). split; [done|].
      destruct (r_route _ _ HR key n Hn) as (d' & reg & Hd & Hin). exists reg. split; [|done].
      destruct (r_entry _ _ HR d' reg _ Hd Hin) as (rr & bk & can & G1 & G2 & _). cbn in G1.
      unfold device_or, device_of. rewrite G1. cbn. by rewrite G2.
Qed.

Lemma claims_registered m :
  Tables m ->
  filter (fun '(_, e) => re_claim e = true) (registered (routing m)) ≡ₚ
  (fun '(bk, n) => (device_or (routing m) n, mkEntry (route_of bk kDeviceClaimBusRouteId) n true)) <$>
    map_to_list (claim_routes (routing m)).
Proof.
  intros HT. pose proof (t_routing _ HT) as HR.
  assert (Hkey : forall bk can, u32 can = kDeviceClaimBusRouteId -> route_of bk can = route_of bk kDeviceClaimBusRouteId).
  { intros bk can E. unfold route_of. by rewrite E. }
  apply NoDup_Permutation.
  - by apply NoDup_filter, NoDup_registered.
  - apply NoDup_fmap_2_strong; [|apply NoDup_map_to_list].
    intros [k n] [k' n'] Hk%elem_of_map_to_list Hk'%elem_of_map_to_list [= _ E1 E2 ->].
    f_equal. destruct (r_claim _ _ HR k n' Hk) as (d & reg & key & Hd & Hin & Hb).
    destruct (r_claim _ _ HR k' n' Hk') as (d' & reg' & key' & Hd' & Hin' & Hb').
    assert (route_of k kDeviceClaimBusRouteId = route_of k' kDeviceClaimBusRouteId) as E.
    { unfold route_of. by rewrite E1, E2. }
    apply route_of_inj in E as [-> _]; [done|by eapply (o_raw _ (t_objects _ HT))..].
  - intros [d e]. rewrite list_elem_of_filter, elem_registered, list_elem_of_fmap. split.
    + intros (Hc & reg & Hd & He). destruct (r_entry _ _ HR d reg e Hd He) as (rr & bk & can & G1 & G2 & _ & _ & _ & _ & _ & G8 & G9).
      rewrite Hc in G9. destruct G9 as [Hcan Hcl]. exists (bk, re_record e). split; [|by apply elem_of_map_to_list].
      unfold device_or, device_of. rewrite G1. cbn. rewrite G2, <- (Hkey bk can Hcan), <- G8.
      destruct e; cbn in *; congruence.
    + intros ([bk n] & [= -> ->] & Hn%elem_of_map_to_list). split; [done|].
      destruct (r_claim _ _ HR bk n Hn) as (d' & reg & key & Hd & Hin & Hb). exists reg.
      destruct (r_entry _ _ HR d' reg _ Hd Hin) as (rr & bk' & can & G1 & G2 & _ & _ & _ & G6 & _ & G8 & G9 & G10).
      cbn in *. assert (bk' = bk) as -> by congruence. rewrite <- (Hkey bk can G9), <- G8.
      split; [|done]. unfold device_or, device_of. rewrite G1. cbn. by rewrite G2.
Qed.

(** ** Who [DispatchReceive] calls *)

(** [deliver] calls the device of every target and restores [in_flight]. *)
Lemma routing_eta r : set_records (records r) r = r.
Proof. by destruct r. Qed.

Lemma leave_enter n r : leave_route n (enter_route n r) = r.
Proof.
  transitivity (set_records (records r) r); [|apply routing_eta]. unfold leave_route, enter_route, set_records. cbn. f_equal.
  apply map_eq. intros i. destruct (decide (n = i)) as [<-|Hne].
  - rewrite !lookup_alter_eq. destruct (records r !! n) as [[]|]; done.
  - by rewrite !lookup_alter_ne.
Qed.

Lemma enter_comm n i r : enter_route n (enter_route i r) = enter_route i (enter_route n r).
Proof.
  unfold enter_route, set_records. cbn. f_equal. destruct (decide (n = i)) as [->|Hne]; [done|].
  apply map_eq. intros j. rewrite !lookup_alter. repeat case_decide; congruence.
Qed.

Lemma enter_fold n l r :
  fold_left (fun r n => enter_route n r) l (enter_route n r) = enter_route n (fold_left (fun r n => enter_route n r) l r).
Proof. revert r. induction l as [|i l IH]; intros r; [done|]. cbn [fold_left]. by rewrite enter_comm, IH. Qed.

Lemma device_of_enter n i r : device_of (enter_route i r) n = device_of r n.
Proof.
  unfold device_of, enter_route. cbn. destruct (decide (i = n)) as [<-|Hne].
  - rewrite lookup_alter_eq. by destruct (records r !! i).
  - by rewrite lookup_alter_ne.
Qed.

Lemma device_of_fold n l r : device_of (fold_left (fun r n => enter_route n r) l r) n = device_of r n.
Proof. revert r. induction l as [|i l IH]; intros r; [done|]. cbn [fold_left]. by rewrite IH, device_of_enter. Qed.

Lemma deliver_spec l r : deliver l r = (omap (device_of r) l, r).
Proof.
  unfold deliver. induction l as [|n l IH]; [done|]. cbn [fold_left call_routes omap list_omap].
  rewrite enter_fold, leave_enter, IH, device_of_enter, device_of_fold. by destruct (device_of r n).
Qed.

Lemma ready_record_spec r n : ready_record r n = if route_ready r n then Some n else None.
Proof.
  unfold route_ready, ready_record. destruct (records r !! n) as [rr|]; [|done]. by destruct (is_ready rr).
Qed.

Lemma ready_device r n : route_ready r n = true -> device_of r n = Some (device_or r n).
Proof.
  unfold route_ready, ready_record, device_or, device_of. destruct (records r !! n); [done|].
  by rewrite bool_decide_false.
Qed.

(** The decoding of a key undoes its encoding. *)
Lemma key_bus bk id : int_ok (bk_raw_idx bk) -> bus_of_key (route_of bk id) = bk.
Proof. apply claim_key. Qed.

Lemma key_id bk id : u32 (rk_unique_id (route_of bk id)) = u32 id.
Proof.
  unfold route_of. cbn. rewrite unique_id_eq by apply u32_range.
  unfold u32. rewrite Z.add_comm, Z.mul_comm, Z.add_mod, (Z.mul_comm 4294967296), Z.mod_mul, Z.add_0_r by lia.
  rewrite !Z.mod_mod by lia. done.
Qed.

Lemma table_key m key n :
  Tables m -> routes (routing m) !! key = Some n ->
  exists bk can, int_ok (bk_raw_idx bk) /\ key = route_of bk can.
Proof.
  intros HT Hn. destruct (r_route _ _ (t_routing _ HT) key n Hn) as (d & reg & Hd & Hin).
  destruct (r_entry _ _ (t_routing _ HT) d reg _ Hd Hin) as (rr & bk & can & _ & _ & _ & _ & _ & G6 & _ & G8 & _).
  exists bk, can. split; [by eapply (o_raw _ (t_objects _ HT))|done].
Qed.

(** Listeners on routes, through the table. *)
Lemma listeners_routes p m :
  Tables m -> (forall x, p x = true -> sb_claim x = false) ->
  listeners p (subscriptions (routing m)) ≡ₚ
  omap (fun '(key, n) => if p (mkSub (bus_of_key key) false (u32 (rk_unique_id key)) (route_ready (routing m) n)) &&
                            route_ready (routing m) n then Some (device_or (routing m) n) else None)
    (map_to_list (routes (routing m))).
Proof.
  intros HT Hp. rewrite listeners_registered.
  rewrite <- (omap_filter (fun '(_, e) => re_claim e = false)).
  - rewrite routes_registered by done. rewrite omap_fmap_l. apply perm_eq, omap_ext_in. by intros [key n] _.
  - intros [d e] Hc. destruct (p (subscription (routing m) e)) eqn:E; [|done]. apply Hp in E. by destruct Hc.
Qed.

Lemma listeners_claims bk m :
  Tables m -> int_ok (bk_raw_idx bk) ->
  listeners (claims_on bk) (subscriptions (routing m)) = omap (device_of (routing m))
    (match claim_target bk (routing m) with Some n => [n] | None => [] end).
Proof.
  intros HT Hint.
  assert (Hl : listeners (claims_on bk) (subscriptions (routing m)) ≡ₚ omap (device_of (routing m))
    (match claim_target bk (routing m) with Some n => [n] | None => [] end)).
  { rewrite listeners_registered. rewrite <- (omap_filter (fun '(_, e) => re_claim e = true)).
    - rewrite claims_registered, omap_fmap_l by done.
      transitivity (omap (fun '(k', n) => if bool_decide (k' = bk) then
        (if route_ready (routing m) n then device_of (routing m) n else None) else None)
        (map_to_list (claim_routes (routing m)))).
      + apply perm_eq, omap_ext_in. intros [k n] Hk%elem_of_map_to_list.
        destruct (r_claim _ _ (t_routing _ HT) k n Hk) as (d & reg & key & Hd & Hin & Hb).
        unfold claims_on, subscription. cbn [sb_bus sb_claim re_key re_claim re_record].
        rewrite key_bus by (by eapply (o_raw _ (t_objects _ HT))). rewrite andb_true_r.
        case_bool_decide as Hkb; [|done]. destruct (route_ready (routing m) n) eqn:Er; [|done].
        by rewrite (ready_device _ _ Er).
      + rewrite omap_lookup. unfold claim_target. destruct (claim_routes (routing m) !! bk) as [n|]; [|done].
        rewrite ready_record_spec. destruct (route_ready (routing m) n) eqn:Er; [|done].
        cbn. by destruct (device_of (routing m) n).
    - intros [d e] Hc. unfold claims_on, subscription. cbn [sb_bus sb_claim].
      destruct (re_claim e); [done|]. by rewrite andb_false_r. }
  destruct (claim_target bk (routing m)) as [n|]; cbn in Hl |- *.
  - destruct (device_of (routing m) n) as [d|].
    + by apply Permutation_singleton_r in Hl.
    + by apply Permutation_nil_r in Hl.
  - by apply Permutation_nil_r in Hl.
Qed.

Lemma listeners_system bk m :
  Tables m -> int_ok (bk_raw_idx bk) ->
  listeners (routes_on bk) (subscriptions (routing m)) ≡ₚ
  omap (device_of (routing m)) (system_targets bk (routing m)).
Proof.
  intros HT Hint. rewrite listeners_routes; [|done|].
  - unfold system_targets. rewrite omap_omap. apply perm_eq, omap_ext_in.
    intros [key n] Hk%elem_of_map_to_list. destruct (table_key m key n HT Hk) as (bk' & can & Hint' & ->).
    unfold routes_on. cbn [sb_bus sb_claim]. rewrite key_bus by done. rewrite andb_true_r, ready_record_spec.
    unfold route_of. cbn [rk_adapter rk_unique_id]. rewrite unique_id_raw by apply u32_range.
    case_bool_decide as Hb; cbn [andb].
    + subst bk'. rewrite bool_decide_true by done. rewrite Z.eqb_refl. cbn [andb].
      destruct (route_ready (routing m) n) eqn:Er; [|done]. cbn. by rewrite (ready_device _ _ Er).
    + case_bool_decide as Ha; [|done]. destruct (Z.eqb_spec (u32 (bk_raw_idx bk')) (u32 (bk_raw_idx bk))) as [E|]; [|done].
      apply u32_int in E; [|done|done]. exfalso. apply Hb. destruct bk, bk'. cbn in *. by subst.
  - intros x Hx. unfold routes_on in Hx. apply andb_true_iff in Hx as [_ Hx]. by apply negb_true_iff.
Qed.

Lemma listeners_exact bk can_id m :
  Tables m -> int_ok (bk_raw_idx bk) -> 0 <= can_id < 4294967296 ->
  listeners (routes_for bk can_id) (subscriptions (routing m)) =
  match exact_target bk can_id (routing m) with Some n => [device_or (routing m) n] | None => [] end.
Proof.
  intros HT Hint Hcan.
  assert (Hl : listeners (routes_for bk can_id) (subscriptions (routing m)) ≡ₚ
    match exact_target bk can_id (routing m) with Some n => [device_or (routing m) n] | None => [] end).
  { rewrite listeners_routes; [|done|].
    - transitivity (omap (fun '(k', n) => if bool_decide (k' = route_of bk can_id) then
        (if route_ready (routing m) n then Some (device_or (routing m) n) else None) else None)
        (map_to_list (routes (routing m)))).
      + apply perm_eq, omap_ext_in. intros [key n] Hk%elem_of_map_to_list.
        destruct (table_key m key n HT Hk) as (bk' & can & Hint' & ->).
        unfold routes_for, routes_on. cbn [sb_bus sb_claim sb_can_id]. rewrite key_bus, key_id by done.
        rewrite andb_true_r. assert (Hu : u32 can_id = can_id) by (unfold u32; apply Z.mod_small; lia).
        case_bool_decide as Hb; cbn [andb].
        * subst bk'. destruct (Z.eqb_spec (u32 can) can_id) as [E|Hne]; cbn [andb].
          -- rewrite bool_decide_true; [done|]. unfold route_of. by rewrite E, Hu.
          -- rewrite bool_decide_false; [done|]. intros E. apply route_of_inj in E as [_ E]; [congruence|done|done].
        * rewrite bool_decide_false; [done|]. intros E. apply route_of_inj in E as [E _]; [done..].
      + rewrite omap_lookup. unfold exact_target. destruct (routes (routing m) !! route_of bk can_id) as [n|]; [|done].
        rewrite ready_record_spec. by destruct (route_ready (routing m) n).
    - intros x Hx. unfold routes_for, routes_on in Hx. apply andb_true_iff in Hx as [Hx _].
      apply andb_true_iff in Hx as [_ Hx]. by apply negb_true_iff. }
  destruct (exact_target _ _ _); [by apply Permutation_singleton_r in Hl|by apply Permutation_nil_r in Hl].
Qed.

(** [DispatchReceive] delivers as the subscriptions say, and leaves the tables as
    they were; [=p] up to the order of the ready routes for the id 0x7FF. *)
Lemma dispatch_delivers m bk message :
  Tables m -> int_ok (bk_raw_idx bk) -> 0 <= id message < 4294967296 ->
  exists called, DispatchReceive bk message (routing m) =
    (fst (delivery bk (id message) (subscriptions (routing m))), called, routing m) /\
    called ≡ₚ snd (delivery bk (id message) (subscriptions (routing m))) /\
    (id message <> 2047 -> called = snd (delivery bk (id message) (subscriptions (routing m))) /\
       (fst (delivery bk (id message) (subscriptions (routing m))) = true -> length called = 1%nat)).
Proof.
  intros HT Hint Hid. unfold DispatchReceive, delivery, DeliverToClaimRoute. rewrite !deliver_spec.
  rewrite listeners_claims, listeners_exact by done.
  destruct (Z.eqb_spec (id message) 2047) as [E|Hne].
  - eexists. split; [done|]. split; [|done]. cbn [snd]. apply Permutation_app_tail.
    by rewrite listeners_system.
  - destruct (exact_target bk (id message) (routing m)) as [n|] eqn:Et.
    + rewrite deliver_spec. cbn [omap list_omap fst snd].
      assert (route_ready (routing m) n = true) as Hr.
      { unfold exact_target in Et. destruct (routes (routing m) !! _) as [x|]; [|done].
        rewrite ready_record_spec in Et. destruct (route_ready (routing m) x) eqn:Ex; [|done]. by injection Et as <-. }
      rewrite (ready_device _ _ Hr). eexists. split; [done|]. done.
    + eexists. split; [done|]. done.
Qed.

(** The events of a batch, one message at a time: nothing a delivery does to the
    tables is left for the next message. *)
Definition events_of (adapter : nat) (r : Routing) (msg : MotorMessage) : list Received :=
  fst (receive_one adapter msg r).

Definition message_ok (msg : MotorMessage) : Prop := int_ok (bus_idx msg) /\ 0 <= id (mdata msg) < 4294967296.

Lemma receive_one_events m adapter msg :
  Tables m -> message_ok msg ->
  let bk := mkBusKey adapter (bus_idx msg) in
  let '(routed, who) := delivery bk (id (mdata msg)) (subscriptions (routing m)) in
  exists called, called ≡ₚ who /\
    receive_one adapter msg (routing m) =
      (match domain_buses (routing m) !! bk with
       | None => [Dropped]
       | Some bus => map (fun d => ToDevice d (mdata msg)) called ++
                     (if routed then [] else [ToMailbox bus (mdata msg)])
       end, routing m).
Proof.
  intros HT [Hint Hid] bk. destruct (dispatch_delivers m bk (mdata msg) HT Hint Hid) as (called & E & Hp & _).
  unfold receive_one, IsBusRegistered, DispatchUnknownReceive. fold bk. cbv zeta.
  destruct (delivery _ _ _) as [routed who]. cbn [fst snd] in *. exists called. split; [done|]. rewrite E.
  destruct (domain_buses (routing m) !! bk) as [bus|]; [rewrite bool_decide_true by done|by rewrite bool_decide_false].
  by destruct routed.
Qed.

(** C9: [BaseAdapter::Impl::OnMessage] on a batch of frames, against the
    subscriptions alone: a frame of an unknown bus is dropped; a frame for the id
    0x7FF goes to every active route of its bus and to the claim; any other frame to
    the one active route of its CAN id or else to the bus's claim; and a frame no
    ordinary route takes also goes to the bus's mailbox.  No frame is delivered
    twice, lost, or delivered to a device of another bus, and the reference counts
    of the routes are back where they were. *)
Theorem receive_exact m adapter messages :
  Tables m -> Forall message_ok messages ->
  snd (OnMessages adapter messages (routing m)) = routing m /\
  exists per_message,
    fst (OnMessages adapter messages (routing m)) = concat per_message /\
    Forall2 (fun msg events =>
      let bk := mkBusKey adapter (bus_idx msg) in
      let '(routed, who) := delivery bk (id (mdata msg)) (subscriptions (routing m)) in
      match domain_buses (routing m) !! bk with
      | None => events = [Dropped]
      | Some bus => events ≡ₚ map (fun d => ToDevice d (mdata msg)) who ++
                              (if routed then [] else [ToMailbox bus (mdata msg)])
      end /\ (routed = true -> length who = 1%nat)) messages per_message.
Proof.
  intros HT Hall. induction Hall as [|msg messages Hmsg Hall IH]; [split; [done|]; exists []; split; [done|constructor]|].
  cbn [OnMessages].
  pose proof (receive_one_events m adapter msg HT Hmsg) as Hone. cbv zeta in Hone.
  destruct Hmsg as [Hint Hid]. set (bk := mkBusKey adapter (bus_idx msg)) in *.
  destruct (dispatch_delivers m bk (mdata msg) HT Hint Hid) as (called0 & _ & Hp0 & Hlen).
  destruct (delivery bk (id (mdata msg)) (subscriptions (routing m))) as [routed who] eqn:Ed.
  destruct Hone as (called & Hp & E). rewrite E.
  destruct IH as (Hr & per & Hfst & Hper). destruct (OnMessages adapter messages (routing m)) as [ev r'].
  cbn [fst snd] in *. subst r' ev. split; [done|]. eexists (_ :: per). split; [reflexivity|].
  constructor; [|done]. cbv zeta. fold bk. rewrite Ed. split.
  - destruct (domain_buses (routing m) !! bk); [|done]. apply Permutation_app_tail.
    by apply Permutation_map.
  - intros ->. unfold delivery in Ed. destruct (Z.eqb_spec (id (mdata msg)) 2047) as [|Hne]; [done|].
    destruct (Hlen Hne) as [-> Hl]. cbn in Hl. by apply Hl.
Qed.

Lemma receive_exact_witness :
  fst (OnMessages 1 [mkMsg 0 (make_pack 5 1 [0]); mkMsg 0 (make_pack 6 1 [0]);
                     mkMsg 3 (make_pack 5 1 [0])] (routing example_manager)) =
    [ToDevice 20 (make_pack 5 1 [0]); ToDevice 21 (make_pack 6 1 [0]); ToMailbox 10 (make_pack 6 1 [0]); Dropped] /\
  snd (OnMessages 1 [mkMsg 0 (make_pack 5 1 [0]); mkMsg 0 (make_pack 6 1 [0]);
                     mkMsg 3 (make_pack 5 1 [0])] (routing example_manager)) = routing example_manager.
Proof.
  split; [vm_compute; reflexivity|].
  apply (receive_exact example_manager 1); [apply example_tables|]. repeat constructor; unfold message_ok, int_ok; done.
Defined.

(** ** What the operations on the tables do to the subscriptions *)

Lemma subscriptions_lookup r d :
  subscriptions r !! d = (fun reg => subscription r <$> rg_routes reg) <$> registrations r !! d.
Proof. apply lookup_fmap. Qed.

Lemma subscriptions_none r d : subscriptions r !! d = None <-> registrations r !! d = None.
Proof. rewrite subscriptions_lookup. by destruct (registrations r !! d). Qed.

(** The same registrations and the same readiness of their records. *)
Lemma subscriptions_ext r r' :
  registrations r' = registrations r ->
  (forall d reg e, registrations r !! d = Some reg -> e ∈ rg_routes reg ->
     records r' !! re_record e = records r !! re_record e) ->
  subscriptions r' = subscriptions r.
Proof.
  intros E H. apply map_eq. intros d. rewrite !subscriptions_lookup, E.
  destruct (registrations r !! d) as [reg|] eqn:Hd; [|done]. cbn. f_equal. apply list_fmap_ext.
  intros i e He%list_elem_of_lookup_2. unfold subscription, route_ready, ready_record. by rewrite (H d reg e).
Qed.

(** The same, one device at a time. *)
Lemma subscriptions_device r r' d reg :
  registrations r' !! d = Some reg -> registrations r !! d = Some reg ->
  (forall e, e ∈ rg_routes reg -> records r' !! re_record e = records r !! re_record e) ->
  subscriptions r' !! d = subscriptions r !! d.
Proof.
  intros E E' H. rewrite !subscriptions_lookup, E, E'. cbn. f_equal. apply list_fmap_ext.
  intros i e He%list_elem_of_lookup_2. unfold subscription, route_ready, ready_record. by rewrite (H e).
Qed.

(** Nobody listens to [can_id] on the bus. *)
Definition unheard (s : Subscriptions) (bk : BusKey) (can_id : Z) : Prop :=
  forall d l x, s !! d = Some l -> x ∈ l -> sb_bus x = bk -> sb_claim x = false -> sb_can_id x <> u32 can_id.
Definition unclaimed (s : Subscriptions) (bk : BusKey) : Prop :=
  forall d l x, s !! d = Some l -> x ∈ l -> sb_bus x = bk -> sb_claim x = false.

(** A subscription comes from an entry of the tables. *)
Lemma subscription_entry m d l x :
  Tables m -> subscriptions (routing m) !! d = Some l -> x ∈ l ->
  exists reg e bk can, registrations (routing m) !! d = Some reg /\ e ∈ rg_routes reg /\
    bus_keys (objects m) !! rg_bus reg = Some bk /\ int_ok (bk_raw_idx bk) /\ re_key e = route_of bk can /\
    x = mkSub bk (re_claim e) (u32 can) (route_ready (routing m) (re_record e)) /\
    (if re_claim e then u32 can = kDeviceClaimBusRouteId /\ claim_routes (routing m) !! bk = Some (re_record e)
     else routes (routing m) !! re_key e = Some (re_record e)).
Proof.
  intros HT. rewrite subscriptions_lookup. destruct (registrations (routing m) !! d) as [reg|] eqn:Hd; [|done].
  intros [= <-] (e & -> & He)%list_elem_of_fmap.
  destruct (r_entry _ _ (t_routing _ HT) d reg e Hd He) as (rr & bk & can & _ & _ & _ & _ & _ & G6 & _ & G8 & G9).
  pose proof (o_raw _ (t_objects _ HT) _ _ G6) as Hint.
  exists reg, e, bk, can. split_and!; try done. unfold subscription. by rewrite G8, key_bus, key_id.
Qed.

Lemma unheard_route m bk can_id :
  Tables m -> int_ok (bk_raw_idx bk) ->
  unheard (subscriptions (routing m)) bk can_id <-> routes (routing m) !! route_of bk can_id = None.
Proof.
  intros HT Hint. split.
  - intros H. destruct (routes (routing m) !! route_of bk can_id) as [n|] eqn:Hn; [|done]. exfalso.
    destruct (r_route _ _ (t_routing _ HT) _ _ Hn) as (d & reg & Hd & Hin).
    apply (H d (subscription (routing m) <$> rg_routes reg) (subscription (routing m) (mkEntry (route_of bk can_id) n false))).
    + by rewrite subscriptions_lookup, Hd.
    + by apply list_elem_of_fmap_2.
    + cbn. by apply key_bus.
    + done.
    + cbn. apply key_id.
  - intros Hn d l x Hd Hx Hb Hc E.
    destruct (subscription_entry m d l x HT Hd Hx) as (reg & e & bk' & can & _ & _ & _ & _ & Hk & -> & He).
    cbn in *. subst bk'. rewrite Hc, Hk in He. unfold route_of in *. congruence.
Qed.

Lemma unclaimed_route m bk :
  Tables m -> unclaimed (subscriptions (routing m)) bk <-> claim_routes (routing m) !! bk = None.
Proof.
  intros HT. split.
  - intros H. destruct (claim_routes (routing m) !! bk) as [n|] eqn:Hn; [|done]. exfalso.
    destruct (r_claim _ _ (t_routing _ HT) _ _ Hn) as (d & reg & key & Hd & Hin & Hb).
    assert (true = false) as [=].
    apply (H d (subscription (routing m) <$> rg_routes reg) (subscription (routing m) (mkEntry key n true))).
    + by rewrite subscriptions_lookup, Hd.
    + by apply list_elem_of_fmap_2.
    + cbn. destruct (r_entry _ _ (t_routing _ HT) d reg _ Hd Hin) as (rr & bk' & can & _ & _ & _ & _ & _ & G6 & _ & G8 & _).
      cbn in G8. rewrite G8. assert (bk' = bk) as -> by congruence. apply key_bus. by eapply (o_raw _ (t_objects _ HT)).
  - intros Hn d l x Hd Hx Hb.
    destruct (subscription_entry m d l x HT Hd Hx) as (reg & e & bk' & can & _ & _ & _ & _ & Hk & -> & He).
    cbn in *. subst bk'. destruct (re_claim e); [|done]. destruct He as [_ He]. congruence.
Qed.

(** The entries [PrepareRoutes] prepares, and when it refuses. *)
Definition preparable (bk : BusKey) (r : Routing) (can_ids : list Z) : Prop :=
  NoDup (route_of bk <$> can_ids) /\
  forall id, id ∈ can_ids -> routes r !! route_of bk id = None /\ motor_route_reservations r !! route_of bk id = None.

Lemma PrepareRoutes_spec device bus bk rc r can_ids prepared :
  NoDup (re_key <$> prepared) ->
  match PrepareRoutes device bus bk rc r can_ids prepared with
  | Some entries => re_key <$> entries = (re_key <$> prepared) ++ (route_of bk <$> can_ids) /\
      NoDup (re_key <$> entries) /\
      (forall id, id ∈ can_ids -> routes r !! route_of bk id = None /\ motor_route_reservations r !! route_of bk id = None)
  | None => ~ (NoDup ((re_key <$> prepared) ++ (route_of bk <$> can_ids)) /\
      forall id, id ∈ can_ids -> routes r !! route_of bk id = None /\ motor_route_reservations r !! route_of bk id = None)
  end.
Proof.
  revert prepared. induction can_ids as [|c cs IH]; intros prepared Hnd; cbn [PrepareRoutes].
  { rewrite app_nil_r. split_and!; try done. intros id Hid. by apply elem_of_nil in Hid. }
  destruct (_ || _ || _) eqn:E.
  - intros [Hdup Hall]. destruct (Hall c ltac:(left)) as [H1 H2]. rewrite H1, H2 in E.
    rewrite !bool_decide_false in E by (by intros [? ?]). cbn [orb] in E.
    apply existsb_exists in E as (e & He & Ek%bool_decide_eq_true). apply list_elem_of_In in He.
    apply NoDup_app in Hdup as (_ & Hdis & _). apply (Hdis (re_key e)); [by apply list_elem_of_fmap_2|].
    rewrite Ek. left.
  - apply orb_false_iff in E as [[E1 E2]%orb_false_iff E3]. apply bool_decide_eq_false in E1, E2.
    apply eq_None_not_Some in E1. apply eq_None_not_Some in E2.
    assert (Hnd' : NoDup (re_key <$> prepared ++ [mkEntry (route_of bk c) (next_record r + length prepared) false])).
    { rewrite fmap_app. apply NoDup_app. split; [done|]. split; [|apply NoDup_singleton].
      intros k (e & -> & He)%list_elem_of_fmap Hk%list_elem_of_singleton. cbn in Hk.
      assert (existsb (fun e => bool_decide (re_key e = route_of bk c)) prepared = true) as Hx; [|congruence].
      apply existsb_exists. exists e. split; [by apply list_elem_of_In|by apply bool_decide_eq_true]. }
    pose proof (IH _ Hnd') as HIH. rewrite fmap_app in HIH. cbn [fmap list_fmap re_key] in HIH. rewrite <- app_assoc in HIH.
    destruct (PrepareRoutes _ _ _ _ _ cs _) as [entries|].
    + destruct HIH as (H1 & H2 & H3). split_and!; try done. intros id [->|Hid]%elem_of_cons; [done|by apply H3].
    + intros [Hdup Hall]. apply HIH. split; [done|]. intros id Hid. apply Hall. by right.
Qed.
