(* ===== verification/ManagerRefinement.v ===== *)
(** * ManagerRefinement: the routing tables implement a subscription desk

    The abstract desk keeps, for every device, its subscriptions, and the CAN ids
    held for motors that are about to change theirs.  Publishing, activating,
    detaching, reserving, releasing, migrating and delivering, as [DriverManager]
    implements them on six tables, are transitions of the desk. *)
From stdpp Require Import base list numbers option gmap.
From Stdlib Require Import ZArith Lia.
From S2P Require Import Prelude Types.
From S2P Require Import DriverManager.
From S2P Require Import ManagerTables.
From S2P Require Import ManagerDispatch.
#[local] Open Scope Z_scope.

(** ** Operations *)

Inductive TableOp :=
  | OPublish (device bus : nat) (rc : Recipe)
  | OActivate (device adapter bus : nat) (can_ids : list Z) (cancel : bool)
  | ODetach (device : nat)
  | OReserve (motor : nat) (n : Z)
  | ORelease (motor : nat) (n : Z)
  | OMigrate (motor : nat) (n : Z)
  | OFrame (bk : BusKey) (message : MotorPackMsg).

Inductive Answer := ABool (b : bool) | ADone | ADelivered (routed : bool) (called : list nat).

Definition is_int (n : Z) : bool := (-2147483648 <=? n) && (n <? 2147483648).

(** An operation on the tables; [None] when its caller would not ask for it: a
    device is published before it is registered, on a registered bus, and numbers
    have their C++ types. *)
Definition apply_op (op : TableOp) (m : Manager) : option (Answer * Manager) :=
  match op with
  | OPublish device bus rc =>
      match device_keys (objects m) !! device, PublishRoutesLocked device bus rc m with
      | None, Some (b, m) => Some (ABool b, m)
      | _, _ => None
      end
  | OActivate device adapter bus can_ids cancel =>
      let (b, m) := RegisterReceiveRoutes device adapter bus can_ids cancel m in Some (ABool b, m)
  | ODetach device => Some (ADone, snd (DetachRegistrationLocked device m))
  | OReserve motor n =>
      if is_int n then let (b, m) := ReserveMotorIndex motor n m in Some (ABool b, m) else None
  | ORelease motor n => Some (ADone, ReleaseMotorIndexReservation motor n m)
  | OMigrate motor n =>
      if is_int n then let (b, m) := MigrateMotorIndex motor n m in Some (ABool b, m) else None
  | OFrame bk message =>
      if is_int (bk_raw_idx bk) && (0 <=? id message) && (id message <? 4294967296) then
        let '(routed, called, r) := DispatchReceive bk message (routing m) in
        Some (ADelivered routed called, set_routing r m)
      else None
  end.

Fixpoint run_ops (ops : list TableOp) (m : Manager) : option (list Answer * Manager) :=
  match ops with
  | [] => Some ([], m)
  | op :: ops =>
      match apply_op op m with
      | Some (a, m) => match run_ops ops m with Some (l, m) => Some (a :: l, m) | None => None end
      | None => None
      end
  end.

(** ** The desk *)

Record Desk := mkDesk { subs : Subscriptions; held : gmap RouteKey nat }.
Definition desk (r : Routing) : Desk := mkDesk (subscriptions r) (motor_route_reservations r).

(** The ids of a recipe can be had: different, unheard, and held for nobody. *)
Definition obtainable (s : Desk) (bk : BusKey) (can_ids : list Z) : Prop :=
  NoDup (u32 <$> can_ids) /\
  forall id, id ∈ can_ids -> unheard (subs s) bk id /\ held s !! route_of bk id = None.

Definition publishable (s : Desk) (device : nat) (bk : BusKey) (rc : Recipe) : Prop :=
  subs s !! device = None /\
  (if rc_claims_bus rc then unclaimed (subs s) bk else obtainable s bk (rc_can_ids rc)).

Definition published (bk : BusKey) (rc : Recipe) : list Subscription :=
  if rc_claims_bus rc then [mkSub bk true kDeviceClaimBusRouteId (rc_callback rc)]
  else (fun id => mkSub bk false (u32 id) (rc_callback rc)) <$> rc_can_ids rc.

Definition activated (x : Subscription) : Subscription := mkSub (sb_bus x) (sb_claim x) (sb_can_id x) true.

(** [motor], when it is registered, already listens to [n] and nothing else. *)
Definition listens_to (s : Desk) (motor : nat) (n : Z) : Prop :=
  forall l, subs s !! motor = Some l -> exists bk ready, l = [mkSub bk false (u32 n) ready].

Inductive served (bks : gmap nat BusKey) (s : Desk) : TableOp -> Answer -> Desk -> Prop :=
  | ServePublish device bus bk rc :
      bks !! bus = Some bk -> publishable s device bk rc ->
      served bks s (OPublish device bus rc) (ABool true) (mkDesk (<[device := published bk rc]> (subs s)) (held s))
  | RefusePublish device bus bk rc :
      bks !! bus = Some bk -> ~ publishable s device bk rc ->
      served bks s (OPublish device bus rc) (ABool false) s
  | ServeActivate device adapter bus can_ids cancel l :
      subs s !! device = Some l -> l <> [] ->
      (forall x, x ∈ l -> sb_ready x = false /\ sb_can_id x ∈ can_ids) ->
      served bks s (OActivate device adapter bus can_ids cancel) (ABool true)
        (mkDesk (<[device := activated <$> l]> (subs s)) (held s))
  | RefuseActivate device adapter bus can_ids cancel :
      served bks s (OActivate device adapter bus can_ids cancel) (ABool false) s
  | ServeDetach device : served bks s (ODetach device) ADone (mkDesk (delete device (subs s)) (held s))
  | ServeReserve motor n bk :
      unheard (subs s) bk n -> held s !! route_of bk n = None ->
      served bks s (OReserve motor n) (ABool true) (mkDesk (subs s) (<[route_of bk n := motor]> (held s)))
  | ServeReserveAgain motor n bk :
      held s !! route_of bk n = Some motor -> served bks s (OReserve motor n) (ABool true) s
  | ServeReserveOwn motor n : listens_to s motor n -> served bks s (OReserve motor n) (ABool true) s
  | RefuseReserve motor n : served bks s (OReserve motor n) (ABool false) s
  | ServeRelease motor n bk :
      held s !! route_of bk n = Some motor ->
      served bks s (ORelease motor n) ADone (mkDesk (subs s) (delete (route_of bk n) (held s)))
  | ServeReleaseNone motor n : served bks s (ORelease motor n) ADone s
  | ServeMigrate motor n bk i ready :
      subs s !! motor = Some [mkSub bk false i ready] -> unheard (subs s) bk n ->
      (forall owner, held s !! route_of bk n = Some owner -> owner = motor) ->
      served bks s (OMigrate motor n) (ABool true)
        (mkDesk (<[motor := [mkSub bk false (u32 n) ready]]> (subs s)) (delete (route_of bk n) (held s)))
  | ServeMigrateOwn motor n : listens_to s motor n -> served bks s (OMigrate motor n) (ABool true) s
  | RefuseMigrate motor n : served bks s (OMigrate motor n) (ABool false) s
  | ServeFrame bk message called :
      called ≡ₚ snd (delivery bk (id message) (subs s)) ->
      served bks s (OFrame bk message) (ADelivered (fst (delivery bk (id message) (subs s))) called) s.

Inductive served_all (bks : gmap nat BusKey) : Desk -> list TableOp -> list Answer -> Desk -> Prop :=
  | ServedNone s : served_all bks s [] [] s
  | ServedMore s op a s' ops answers s'' :
      served bks s op a s' -> served_all bks s' ops answers s'' ->
      served_all bks s (op :: ops) (a :: answers) s''.

(** ** Each operation *)

Lemma is_int_ok n : is_int n = true -> int_ok n.
Proof. unfold is_int, int_ok. intros [H1 H2]%andb_true_iff. lia. Qed.

Lemma NoDup_routes bk ids : int_ok (bk_raw_idx bk) -> NoDup (route_of bk <$> ids) <-> NoDup (u32 <$> ids).
Proof.
  intros Hint. induction ids as [|c ids IH]; [by split; constructor|]. rewrite !fmap_cons, !NoDup_cons, IH.
  enough (route_of bk c ∈ route_of bk <$> ids <-> u32 c ∈ u32 <$> ids) as -> by done.
  rewrite !list_elem_of_fmap. split; intros (x & E & Hx); exists x; (split; [|done]).
  - by apply route_of_inj in E as [_ E].
  - unfold route_of. by rewrite E.
Qed.

(** The record of another device's entry is not touched by what happens to [device]'s. *)
Lemma other_record m d reg e device reg' e' :
  Tables m -> registrations (routing m) !! d = Some reg -> e ∈ rg_routes reg -> d <> device ->
  registrations (routing m) !! device = Some reg' -> e' ∈ rg_routes reg' -> re_record e <> re_record e'.
Proof.
  intros HT Hd He Hne Hd' He' E.
  destruct (r_entry _ _ (t_routing _ HT) d reg e Hd He) as (rr & _ & _ & G1 & G2 & _).
  destruct (r_entry _ _ (t_routing _ HT) device reg' e' Hd' He') as (rr' & _ & _ & F1 & F2 & _).
  congruence.
Qed.

(** Registering entries adds the subscriptions of [device] only. *)
Lemma register_subscriptions m device bus bk rc entries r' :
  Tables m -> registrations (routing m) !! device = None ->
  (forall i x, entries !! i = Some x -> re_record x = (next_record (routing m) + i)%nat) ->
  registrations r' = registrations (register device bus bk rc entries (routing m)) ->
  records r' = records (register device bus bk rc entries (routing m)) ->
  subscriptions r' = <[device := (fun e => mkSub (bus_of_key (re_key e)) (re_claim e)
    (u32 (rk_unique_id (re_key e))) (rc_callback rc)) <$> entries]> (subscriptions (routing m)).
Proof.
  intros HT Hnone Hrec Ereg Erec. apply map_eq. intros d. destruct (decide (d = device)) as [->|Hne].
  - rewrite lookup_insert_eq, subscriptions_lookup, Ereg. unfold register. cbn [registrations].
    rewrite lookup_insert_eq. cbn. f_equal. apply list_fmap_ext. intros i e Hi.
    unfold subscription. f_equal. unfold route_ready, ready_record. rewrite Erec. unfold register. cbn [records].
    rewrite (insert_all_in re_record (fun _ => new_record device bus (bk_adapter bk) rc) entries _ e).
    + unfold is_ready, new_record. cbn. by destruct (rc_callback rc).
    + apply NoDup_alt. intros j k x Hj Hk. rewrite list_lookup_fmap in Hj, Hk.
      destruct (entries !! j) as [x1|] eqn:E1, (entries !! k) as [x2|] eqn:E2; try done. cbn in Hj, Hk.
      pose proof (Hrec _ _ E1). pose proof (Hrec _ _ E2). injection Hj as Hj. injection Hk as Hk. lia.
    + by eapply list_elem_of_lookup_2.
  - rewrite lookup_insert_ne by done. destruct (registrations (routing m) !! d) as [reg|] eqn:Hd.
    + eapply subscriptions_device; [|exact Hd|].
      * rewrite Ereg. unfold register. cbn [registrations]. by rewrite lookup_insert_ne.
      * intros e He. rewrite Erec. by eapply (register_old (bus_keys (objects m))); [apply t_routing|..].
    + rewrite !subscriptions_lookup, Hd, Ereg. unfold register. cbn [registrations].
      rewrite lookup_insert_ne by done. by rewrite Hd.
Qed.

Lemma publish_served m device bus rc b m' :
  Tables m -> PublishRoutesLocked device bus rc m = Some (b, m') ->
  objects m' = objects m /\
  served (bus_keys (objects m)) (desk (routing m)) (OPublish device bus rc) (ABool b) (desk (routing m')).
Proof.
  intros HT. unfold PublishRoutesLocked. destruct (bus_keys (objects m) !! bus) as [bk|] eqn:Hbk; [|done].
  pose proof (o_raw _ (t_objects _ HT) _ _ Hbk) as Hint.
  assert (Hpub : forall P : Prop, (publishable (desk (routing m)) device bk rc <-> P) -> ~ P ->
    served (bus_keys (objects m)) (desk (routing m)) (OPublish device bus rc) (ABool false) (desk (routing m))).
  { intros P E HP. eapply RefusePublish; [done|by rewrite E]. }
  unfold publishable, obtainable in Hpub. cbn [subs held desk] in Hpub.
  destruct (rc_claims_bus rc) eqn:Hclaim.
  - destruct (bool_decide (is_Some (claim_routes (routing m) !! bk)) || _) eqn:E.
    + intros [= <- <-]. split; [done|]. eapply Hpub; [reflexivity|].
      rewrite subscriptions_none, unclaimed_route by done. intros [H1 H2]. by rewrite H1, H2 in E.
    + intros [= <- <-]. split; [done|]. apply orb_false_iff in E as [H1%bool_decide_eq_false H2%bool_decide_eq_false].
      apply eq_None_not_Some in H1. apply eq_None_not_Some in H2.
      pose proof (ServePublish (bus_keys (objects m)) (desk (routing m)) device bus bk rc Hbk) as Hs.
      unfold publishable, published in Hs. rewrite Hclaim in Hs. cbn [subs held desk] in Hs.
      unfold desk at 2. cbn [routing set_routing].
      rewrite (register_subscriptions m device bus bk rc [mkEntry (route_of bk kDeviceClaimBusRouteId) (next_record (routing m)) true]); try done.
      * cbn [fmap list_fmap re_key re_claim]. rewrite key_bus, key_id by done. apply Hs.
        split; [by apply subscriptions_none|by apply unclaimed_route].
      * intros [|i] x Hx; [|done]. injection Hx as <-. cbn. lia.
  - pose proof (PrepareRoutes_spec device bus bk rc (routing m) (rc_can_ids rc) [] (NoDup_nil_2)) as Hprep.
    pose proof (fun entries H => PrepareRoutes_ok device bus bk rc (routing m) (rc_can_ids rc) [] entries H (prepared_nil _ _ _)) as Hok.
    assert (Hiff : (NoDup (u32 <$> rc_can_ids rc) /\ forall id, id ∈ rc_can_ids rc ->
        unheard (subscriptions (routing m)) bk id /\ motor_route_reservations (routing m) !! route_of bk id = None) <->
      (NoDup (route_of bk <$> rc_can_ids rc) /\ forall id, id ∈ rc_can_ids rc ->
        routes (routing m) !! route_of bk id = None /\ motor_route_reservations (routing m) !! route_of bk id = None)).
    { rewrite NoDup_routes by done. by setoid_rewrite (unheard_route m bk _ HT Hint). }
    destruct (PrepareRoutes _ _ _ _ _ _ _) as [entries|].
    + cbn [fmap list_fmap app] in Hprep. destruct Hprep as (Hkeys & Hnd & Hall). destruct (Hok _ eq_refl) as [_ Hent].
      case_bool_decide as Hreg; intros [= <- <-]; (split; [done|]).
      * eapply Hpub; [reflexivity|]. rewrite subscriptions_none. intros [H _]. rewrite H in Hreg. by destruct Hreg.
      * apply eq_None_not_Some in Hreg.
        pose proof (ServePublish (bus_keys (objects m)) (desk (routing m)) device bus bk rc Hbk) as Hs.
        unfold publishable, published, obtainable in Hs. rewrite Hclaim in Hs. cbn [subs held desk] in Hs.
        unfold desk at 2. cbn [routing set_routing].
        rewrite (register_subscriptions m device bus bk rc entries); try done.
        -- enough ((fun e => mkSub (bus_of_key (re_key e)) (re_claim e) (u32 (rk_unique_id (re_key e))) (rc_callback rc)) <$> entries
             = (fun id => mkSub bk false (u32 id) (rc_callback rc)) <$> rc_can_ids rc) as ->.
           { apply Hs. split; [by apply subscriptions_none|]. apply Hiff. rewrite <- Hkeys. done. }
           apply list_eq. intros i. rewrite !list_lookup_fmap.
           assert (Hi : re_key <$> entries !! i = route_of bk <$> rc_can_ids rc !! i)
             by (rewrite <- !list_lookup_fmap; by rewrite Hkeys).
           destruct (entries !! i) as [e|] eqn:Ei, (rc_can_ids rc !! i) as [c|] eqn:Ec; try done. cbn in Hi |- *.
           destruct (Hent i e Ei) as (_ & -> & _). injection Hi as ->. by rewrite key_bus, key_id.
        -- intros i x Hi. by destruct (Hent i x Hi) as [? _].
    + intros [= <- <-]. split; [done|]. eapply Hpub; [reflexivity|]. rewrite Hiff. intros [_ H]. by apply Hprep.
Qed.

Lemma detach_served m device :
  Tables m ->
  let m' := snd (DetachRegistrationLocked device m) in
  objects m' = objects m /\
  served (bus_keys (objects m)) (desk (routing m)) (ODetach device) ADone (desk (routing m')).
Proof.
  intros HT. unfold DetachRegistrationLocked.
  destruct (registrations (routing m) !! device) as [reg|] eqn:Hreg; cbn [snd].
  - split; [done|]. cbn [routing set_routing]. set (r0 := set_registrations _ _).
    destruct (detach_fold_spec (rg_routes reg) r0) as (Er & Em & _).
    assert (E : desk (fold_left detach_entry (rg_routes reg) r0) =
      mkDesk (delete device (subscriptions (routing m))) (motor_route_reservations (routing m))).
    { unfold desk. rewrite Em. f_equal. apply map_eq. intros d. destruct (decide (d = device)) as [->|Hne].
      - rewrite lookup_delete_eq. apply subscriptions_none. rewrite Er. cbn. apply lookup_delete_eq.
      - rewrite lookup_delete_ne by done. destruct (registrations (routing m) !! d) as [x|] eqn:Hd.
        + eapply subscriptions_device; [|exact Hd|].
          * rewrite Er. cbn. by rewrite lookup_delete_ne.
          * intros e He. assert (Hl : forall l r, (forall e', e' ∈ l -> re_record e <> re_record e') ->
              records (fold_left detach_entry l r) !! re_record e = records r !! re_record e).
            { induction l as [|y l IH]; intros r Hl; [done|]. cbn [fold_left]. rewrite IH by (intros; apply Hl; by right).
              unfold detach_entry. assert (re_record y <> re_record e) by (intros ?; by apply (Hl y ltac:(left))).
              destruct (re_claim y); case_bool_decide; cbn; by rewrite lookup_alter_ne. }
            rewrite Hl; [done|]. intros e' He'. by eapply (other_record m d x e device reg e').
        + transitivity (@None (list Subscription)); [|symmetry]; apply subscriptions_none; [|done].
          rewrite Er. cbn. by rewrite lookup_delete_ne. }
    rewrite E. apply ServeDetach.
  - split; [done|]. assert (E : subscriptions (routing m) = delete device (subscriptions (routing m))).
    { symmetry. apply delete_id. by apply subscriptions_none. }
    unfold desk at 2. rewrite E. apply (ServeDetach _ (desk (routing m))).
Qed.

(** Activating only sets [callback] in records of the entries. *)
Lemma callback_fold l (h : gmap nat RouteRecord) n :
  fold_left (fun h e => alter with_callback (re_record e) h) l h !! n =
  (if bool_decide (n ∈ re_record <$> l) then with_callback <$> h !! n else h !! n).
Proof.
  revert h. induction l as [|e l IH]; intros h; cbn [fold_left]; [by rewrite bool_decide_false by (by intros ?%elem_of_nil)|].
  rewrite IH, fmap_cons. destruct (decide (re_record e = n)) as [<-|Hne].
  - rewrite lookup_alter_eq, (bool_decide_true (_ ∈ _ :: _)) by left.
    case_bool_decide; [|done]. by destruct (h !! re_record e) as [[]|].
  - rewrite lookup_alter_ne by done. erewrite (bool_decide_ext (n ∈ _ :: _)); [done|].
    rewrite elem_of_cons. split; [|by right]. intros [->|?]; done.
Qed.

Lemma activate_served m device adapter bus can_ids cancel :
  Tables m ->
  let '(b, m') := RegisterReceiveRoutes device adapter bus can_ids cancel m in
  objects m' = objects m /\
  served (bus_keys (objects m)) (desk (routing m)) (OActivate device adapter bus can_ids cancel) (ABool b) (desk (routing m')).
Proof.
  intros HT. unfold RegisterReceiveRoutes.
  destruct (device_keys (objects m) !! device) as [dk|]; [|split; [done|apply RefuseActivate]].
  destruct (bus_keys (objects m) !! bus) as [bk|]; [|split; [done|apply RefuseActivate]].
  destruct (registrations (routing m) !! device) as [reg|] eqn:Hreg; [|split; [done|apply RefuseActivate]].
  destruct (_ && _) eqn:E; [|split; [done|apply RefuseActivate]].
  split; [done|]. cbn [routing set_routing]. set (r' := set_registrations _ _).
  apply andb_true_iff in E as [E Hcan]. apply andb_true_iff in E as [E Hlen%bool_decide_eq_true].
  repeat apply andb_true_iff in E as [E _]. apply bool_decide_eq_true in E.
  assert (Hcan' : forall e, e ∈ rg_routes reg -> can_activate adapter can_ids (routing m) e = true).
  { intros e He. rewrite forallb_forall in Hcan. by apply Hcan, list_elem_of_In. }
  assert (Hsub : subscriptions r' = <[device := activated <$> (subscription (routing m) <$> rg_routes reg)]> (subscriptions (routing m))).
  { apply map_eq. intros d. destruct (decide (d = device)) as [->|Hne].
    - rewrite lookup_insert_eq, subscriptions_lookup. unfold r'. cbn [registrations set_registrations].
      rewrite lookup_insert_eq. cbn [fmap option_fmap option_map rg_routes]. f_equal.
      rewrite <- list_fmap_compose. apply list_fmap_ext. intros i e He%list_elem_of_lookup_2.
      unfold subscription, activated. cbn. f_equal. unfold route_ready, ready_record. cbn [records set_registrations set_records].
      rewrite callback_fold, (bool_decide_true (re_record e ∈ _)) by (by apply list_elem_of_fmap_2).
      specialize (Hcan' e He). unfold can_activate in Hcan'. apply andb_true_iff in Hcan' as [_ Hrec].
      destruct (records (routing m) !! re_record e) as [rr|]; [|done].
      apply andb_true_iff in Hrec as [Hret _]. cbn. unfold is_ready. cbn. by rewrite Hret.
    - rewrite lookup_insert_ne by done. destruct (registrations (routing m) !! d) as [x|] eqn:Hd.
      + eapply subscriptions_device; [|exact Hd|].
        * unfold r'. cbn. by rewrite lookup_insert_ne.
        * intros e He. unfold r'. cbn [records set_registrations set_records]. rewrite callback_fold, (bool_decide_false (re_record e ∈ _)); [done|].
          intros (e' & Ee & He')%list_elem_of_fmap. by eapply (other_record m d x e device reg e').
      + transitivity (@None (list Subscription)); [|symmetry]; apply subscriptions_none; [|done].
        unfold r'. cbn. by rewrite lookup_insert_ne. }
  unfold desk at 2. rewrite Hsub. apply (ServeActivate _ (desk (routing m))).
  - cbn [subs desk]. by rewrite subscriptions_lookup, Hreg.
  - intros Hnil%(f_equal length). rewrite length_fmap, Hlen in Hnil. by destruct can_ids.
  - intros x (e & -> & He)%list_elem_of_fmap. specialize (Hcan' e He). unfold can_activate in Hcan'.
    apply andb_true_iff in Hcan' as [Hcan' Hrec]. apply andb_true_iff in Hcan' as [Hids _].
    apply andb_true_iff in Hids as [_ Hids%bool_decide_eq_true].
    destruct (records (routing m) !! re_record e) as [rr|] eqn:Err; [|done].
    apply andb_true_iff in Hrec as [_ Hcb%negb_true_iff].
    split; [|done]. unfold subscription. cbn.
    unfold route_ready, ready_record. rewrite Err. unfold is_ready. by rewrite Hcb, andb_false_r.
Qed.

(** A motor at index [n] listens to [n]. *)
Lemma own_index m motor n old :
  Tables m -> device_keys (objects m) !! motor = Some old -> dk_kind old = KMotor -> motor_key (dk_bus old) n = old ->
  listens_to (desk (routing m)) motor n.
Proof.
  intros HT Hd Hk Eo l. cbn [subs desk]. rewrite subscriptions_lookup.
  destruct (t_motors _ HT motor old Hd Hk) as (_ & _ & Hshape).
  destruct (registrations (routing m) !! motor) as [reg|] eqn:Hreg; [|done]. intros [= <-].
  destruct (Hshape reg eq_refl) as (_ & nr & bk & Hbk & Er). rewrite Er. rewrite <- Eo. cbn [dk_idx motor_key].
  exists bk, (route_ready (routing m) nr). cbn [fmap list_fmap]. unfold subscription. cbn [re_key re_claim re_record].
  rewrite key_id, key_bus; [done|]. by eapply (o_raw _ (t_objects _ HT)).
Qed.

Lemma reserve_served m motor n :
  Tables m -> int_ok n ->
  let '(b, m') := ReserveMotorIndex motor n m in
  objects m' = objects m /\
  served (bus_keys (objects m)) (desk (routing m)) (OReserve motor n) (ABool b) (desk (routing m')).
Proof.
  intros HT Hn. pose proof (reserve_ok motor n m HT Hn) as H. destruct (ReserveMotorIndex motor n m) as [b m'].
  inversion H as [|old H1 H2 H3|old v H1 H2 H3|old bk reg e cb install Hm H1 H2 H3 H4]; subst; (split; [done|]).
  - apply RefuseReserve.
  - apply ServeReserveOwn. by eapply own_index.
  - destruct (v_index _ _ _ (t_reservations _ HT) _ _ H2) as (k0 & bk & _ & _ & _ & _ & _ & G6 & _).
    by apply (ServeReserveAgain _ _ _ _ bk).
  - apply (ServeReserve _ (desk (routing m)) motor n bk); [|done].
    apply unheard_route; [done| |by eapply mv_route_free]. eapply (o_raw _ (t_objects _ HT)). by eapply mv_bus.
Qed.

Lemma release_served m motor n :
  let m' := ReleaseMotorIndexReservation motor n m in
  objects m' = objects m /\
  served (bus_keys (objects m)) (desk (routing m)) (ORelease motor n) ADone (desk (routing m')).
Proof.
  unfold ReleaseMotorIndexReservation.
  destruct (device_keys (objects m) !! motor) as [old|]; [|split; [done|apply ServeReleaseNone]].
  destruct (motor_index_reservations (statuses m) !! _) as [res|]; [|split; [done|apply ServeReleaseNone]].
  case_bool_decide; [|split; [done|apply ServeReleaseNone]]. split; [done|]. cbn [routing set_statuses set_routing].
  destruct (bus_keys (objects m) !! dk_bus old) as [bk|]; [|apply ServeReleaseNone].
  case_bool_decide as Hh; [|apply ServeReleaseNone].
  apply (ServeRelease _ (desk (routing m)) motor n bk). exact Hh.
Qed.

(** The subscriptions after a migration: the motor's, at its new index. *)
Lemma migrated_subscriptions m motor n old bk reg e cb install :
  Tables m -> Movable m motor n old bk reg e ->
  let m' := commit_migration motor old (motor_key (dk_bus old) n) (re_key e) (route_of bk n) e reg cb install
     (bool_decide (is_Some (motor_index_reservations (statuses m) !! motor_key (dk_bus old) n)))
     (bool_decide (is_Some (motor_route_reservations (routing m) !! route_of bk n)))
     (bool_decide (is_Some (status_callbacks (statuses m) !! route_of bk n))) m in
  subscriptions (routing m') =
    <[motor := [mkSub bk false (u32 n) (route_ready (routing m) (re_record e))]]> (subscriptions (routing m)).
Proof.
  intros HT HM m'.
  destruct (migrated_eq m motor n old bk reg e cb install HT HM) as (_ & _ & _ & _ & _ & _ & Erec & _ & Ereg & _).
  fold m' in Erec, Ereg. clearbody m'. pose proof (o_raw _ (t_objects _ HT) _ _ (mv_bus _ _ _ _ _ _ _ HM)) as Hint.
  apply map_eq. intros d. destruct (decide (d = motor)) as [->|Hne].
  - rewrite lookup_insert_eq, subscriptions_lookup, Ereg, lookup_insert_eq.
    cbn [fmap option_fmap option_map list_fmap rg_routes]. unfold subscription. cbn [re_key re_claim re_record].
    rewrite key_bus, key_id by done. unfold route_ready, ready_record. by rewrite Erec.
  - rewrite lookup_insert_ne by done. destruct (registrations (routing m) !! d) as [x|] eqn:Hd.
    + eapply subscriptions_device; [|exact Hd|]; [rewrite Ereg; by rewrite lookup_insert_ne|].
      intros e' _. by rewrite Erec.
    + transitivity (@None (list Subscription)); [|symmetry]; apply subscriptions_none; [|done].
      rewrite Ereg. by rewrite lookup_insert_ne.
Qed.

Lemma migrate_served m motor n :
  Tables m -> int_ok n ->
  let '(b, m') := MigrateMotorIndex motor n m in
  bus_keys (objects m') = bus_keys (objects m) /\
  served (bus_keys (objects m)) (desk (routing m)) (OMigrate motor n) (ABool b) (desk (routing m')).
Proof.
  intros HT Hn. pose proof (migrate_ok motor n m) as H. destruct (MigrateMotorIndex motor n m) as [b m'].
  inversion H as [|old H1 H2 H3|old bk reg e cb install HM H1 H2 H3 H4]; subst.
  - split; [done|apply RefuseMigrate].
  - split; [done|]. apply ServeMigrateOwn. by eapply own_index.
  - pose proof (migrated_subscriptions m motor n old bk reg e cb install HT HM) as Es.
    destruct (migrated_eq m motor n old bk reg e cb install HT HM) as (_ & _ & E3 & _ & _ & _ & _ & _ & _ & E10 & _).
    split; [exact E3|]. unfold desk at 2. cbv zeta in Es. rewrite Es, E10.
    destruct (movable_entry _ _ _ _ _ _ _ HT HM) as (_ & _ & He & _ & _ & _).
    pose proof (o_raw _ (t_objects _ HT) _ _ (mv_bus _ _ _ _ _ _ _ HM)) as Hint.
    apply (ServeMigrate _ (desk (routing m)) motor n bk (u32 (dk_idx old))).
    + cbn [subs desk]. rewrite subscriptions_lookup, (mv_registered _ _ _ _ _ _ _ HM). cbn [fmap option_fmap option_map].
      rewrite (mv_entry _ _ _ _ _ _ _ HM). cbn [fmap list_fmap]. unfold subscription. rewrite He.
      cbn [re_key re_claim re_record]. by rewrite key_bus, key_id.
    + apply unheard_route; [done..|]. by eapply mv_route_free.
    + done.
Qed.

Lemma frame_served m bk message :
  Tables m -> int_ok (bk_raw_idx bk) -> 0 <= id message < 4294967296 ->
  let '(routed, called, r) := DispatchReceive bk message (routing m) in
  r = routing m /\
  served (bus_keys (objects m)) (desk (routing m)) (OFrame bk message) (ADelivered routed called) (desk (routing m)).
Proof.
  intros HT Hint Hid. destruct (dispatch_delivers m bk message HT Hint Hid) as (called & -> & Hp & _).
  split; [done|]. by apply (ServeFrame _ (desk (routing m))).
Qed.

Lemma op_served m op a m' :
  Tables m -> apply_op op m = Some (a, m') ->
  Tables m' /\ bus_keys (objects m') = bus_keys (objects m) /\
  served (bus_keys (objects m)) (desk (routing m)) op a (desk (routing m')).
Proof.
  intros HT. destruct op as [device bus rc|device adapter bus can_ids cancel|device|motor n|motor n|motor n|bk message]; cbn [apply_op].
  - destruct (device_keys (objects m) !! device) eqn:Hd; [done|].
    destruct (PublishRoutesLocked device bus rc m) as [[b m1]|] eqn:Hp; [|done]. intros [= <- <-].
    destruct (publish_served m device bus rc b m1 HT Hp) as [Eo Hs]. split_and!; [by eapply tables_publish|by rewrite Eo|done].
  - pose proof (activate_served m device adapter bus can_ids cancel HT) as Hs.
    destruct (RegisterReceiveRoutes _ _ _ _ _ _) as [b m1] eqn:Hr. intros [= <- <-]. destruct Hs as [Eo Hs].
    split_and!; [by eapply tables_activate|by rewrite Eo|done].
  - intros [= <- <-]. destruct (detach_served m device HT) as [Eo Hs].
    split_and!; [by apply tables_detach|by rewrite Eo|done].
  - destruct (is_int n) eqn:Hn; [|done]. apply is_int_ok in Hn. pose proof (reserve_served m motor n HT Hn) as Hs.
    pose proof (tables_reserve motor n m _ HT Hn (reserve_ok motor n m HT Hn)) as HT'.
    destruct (ReserveMotorIndex motor n m) as [b m1]. intros [= <- <-]. destruct Hs as [Eo Hs].
    split_and!; [done|by rewrite Eo|done].
  - intros [= <- <-]. destruct (release_served m motor n) as [Eo Hs].
    split_and!; [by apply tables_release|by rewrite Eo|done].
  - destruct (is_int n) eqn:Hn; [|done]. apply is_int_ok in Hn. pose proof (migrate_served m motor n HT Hn) as Hs.
    pose proof (tables_migrate motor n m _ HT Hn (migrate_ok motor n m)) as HT'.
    destruct (MigrateMotorIndex motor n m) as [b m1]. intros [= <- <-]. by destruct Hs.
  - destruct (_ && _) eqn:E; [|done]. apply andb_true_iff in E as [[E1%is_int_ok E2]%andb_true_iff E3].
    pose proof (frame_served m bk message HT E1 ltac:(lia)) as Hs.
    destruct (DispatchReceive bk message (routing m)) as [[routed called] r]. intros [= <- <-]. destruct Hs as [-> Hs].
    split_and!; [|done|done]. destruct HT. by constructor.
Qed.

(** ** The refinement *)

(** C5: every run of the operations on the manager's routing tables is a run of the
    subscription desk, answer by answer: publication succeeds exactly when the CAN
    ids are different, unheard and held for nobody; detaching removes the
    subscriptions of that device only; a migration moves one motor's subscription to
    an index that is not taken; and frames are delivered as the desk says. *)
Theorem tables_refine_desk ops m answers m' :
  Tables m -> run_ops ops m = Some (answers, m') ->
  Tables m' /\ served_all (bus_keys (objects m)) (desk (routing m)) ops answers (desk (routing m')).
Proof.
  revert m answers. induction ops as [|op ops IH]; intros m answers HT; cbn [run_ops].
  { intros [= <- <-]. split; [done|constructor]. }
  destruct (apply_op op m) as [[a m1]|] eqn:Hop; [|done].
  destruct (op_served m op a m1 HT Hop) as (HT1 & Eb & Hs).
  destruct (run_ops ops m1) as [[l m2]|] eqn:Hrun; [|done]. intros [= <- <-].
  destruct (IH m1 l HT1 Hrun) as [HT2 Hall]. split; [done|]. rewrite Eb in Hall. by econstructor.
Qed.

Lemma tables_refine_desk_witness :
  exists answers m', run_ops [OFrame (mkBusKey 1 0) (make_pack 5 1 [0]); OPublish 22 10 (mkRecipe [5] false true false);
      OReserve 20 9; OPublish 22 10 (mkRecipe [9] false true false); OMigrate 20 9;
      OPublish 22 10 (mkRecipe [5] false true false); OFrame (mkBusKey 1 0) (make_pack 5 1 [0]);
      OFrame (mkBusKey 1 0) (make_pack 9 1 [0]); ODetach 22; OFrame (mkBusKey 1 0) (make_pack 5 1 [0])] example_manager =
    Some (answers, m') /\
  answers = [ADelivered true [20%nat]; ABool false; ABool true; ABool false; ABool true; ABool true;
             ADelivered true [22%nat]; ADelivered true [20%nat]; ADone; ADelivered false [21%nat]] /\
  Tables m'.
Proof.
  match goal with |- context [run_ops ?l example_manager] => set (ops := l) end.
  destruct (run_ops ops example_manager) as [[answers m']|] eqn:E; [|vm_compute in E; discriminate E].
  exists answers, m'. split; [done|]. split; [|by apply (tables_refine_desk ops example_manager answers m' example_tables E)].
  vm_compute in E. by injection E as <- _.
Defined.
