(* ===== verification/BusWorld.v ===== *)
(** * BusWorld: one bus and what its operations act on (src/bus/bus.cc)

    The protocols a bus runs by itself, [ScanMotors] ([BusScan]) and [ResetMotorsId]
    ([BusReset]), send through the submission path of [SyncQueue], read the mailbox of
    unknown frames and create and destroy devices in the tables of [DriverManager].
    This file has the state they share and these parts run to their end one after the
    other: no other thread creates or destroys devices meanwhile (the interleavings are
    those of [ManagerLifetime]).  What comes in is a script: the frames the adapter
    receives on the bus during each sleep, dispatched by [OnMessages]. *)
From stdpp Require Import base list numbers option gmap functions.
From Stdlib Require Import ZArith Lia.
From S2P Require Import Prelude Types.
From S2P Require Import PackHelper.
From S2P Require Import Devices.
From S2P Require Import SyncQueue.
From S2P Require Import DriverManager.
From S2P Require Import ManagerTables.
From S2P Require Import ManagerDispatch.
#[local] Open Scope Z_scope.
#[local] Open Scope cint_scope.

(** ** The newest messages of a port *)

(** What an idle [Port<Len>] retains of the messages pushed into it. *)
Definition newest {A} (n : nat) (l : list A) : list A := drop (length l - n) l.

Lemma newest_all {A} n (l : list A) : (length l <= n)%nat -> newest n l = l.
Proof. intros H. unfold newest. by replace (length l - n)%nat with 0%nat by lia. Qed.

Lemma newest_newest_app {A} n (l k : list A) : newest n (newest n l ++ k) = newest n (l ++ k).
Proof.
  unfold newest. rewrite !length_app, length_drop.
  destruct (decide (length l <= n)%nat) as [Hl|Hl].
  - by replace (length l - n)%nat with 0%nat by lia; replace (length l - 0 + length k - n)%nat with (length l + length k - n)%nat by lia.
  - replace (length l + length k - n)%nat with ((length l - n) + (length l - (length l - n) + length k - n))%nat by lia.
    rewrite <- (drop_drop (l ++ k)), (drop_app_le _ _ (length l - n)) by lia. done.
Qed.

(** ** State *)

(** [Port<512, MotorPackMsg> unknown_messages]. *)
Definition kMailbox : nat := 512.

Record World := mkWorld {
  manager : Manager;
  adapter : Adapter;                      (* the outgoing side *)
  unknown_messages : list MotorPackMsg;   (* unread, oldest first *)
  external_device_flag : bool;
  motor_flags : gmap nat Z;               (* [Motor::Impl::frame_flags] *)
  alive : bool;                           (* can the operation gate of the bus be entered *)
  arrivals : list (list MotorPackMsg);    (* what is received during the next sleeps *)
  constructs : list (option nat)          (* the next constructors: an address, or a throw *)
}.

Definition with_manager (m : Manager) (w : World) : World :=
  mkWorld m (adapter w) (unknown_messages w) (external_device_flag w) (motor_flags w) (alive w) (arrivals w) (constructs w).
Definition with_adapter (a : Adapter) (w : World) : World :=
  mkWorld (manager w) a (unknown_messages w) (external_device_flag w) (motor_flags w) (alive w) (arrivals w) (constructs w).
Definition with_unknown (q : list MotorPackMsg) (w : World) : World :=
  mkWorld (manager w) (adapter w) q (external_device_flag w) (motor_flags w) (alive w) (arrivals w) (constructs w).
Definition SetExternalDeviceFlag (value : bool) (w : World) : World :=
  mkWorld (manager w) (adapter w) (unknown_messages w) value (motor_flags w) (alive w) (arrivals w) (constructs w).
Definition with_motor_flags (f : gmap nat Z) (w : World) : World :=
  mkWorld (manager w) (adapter w) (unknown_messages w) (external_device_flag w) f (alive w) (arrivals w) (constructs w).
Definition with_arrivals (l : list (list MotorPackMsg)) (w : World) : World :=
  mkWorld (manager w) (adapter w) (unknown_messages w) (external_device_flag w) (motor_flags w) (alive w) l (constructs w).
Definition with_constructs (l : list (option nat)) (w : World) : World :=
  mkWorld (manager w) (adapter w) (unknown_messages w) (external_device_flag w) (motor_flags w) (alive w) (arrivals w) l.

(** A call: its result, [None] when it throws, and what is left. *)
Definition M (A : Type) : Type := World -> option A * World.
Definition mret {A} (x : A) : M A := fun w => (Some x, w).
Definition mthen {A B} (m : M A) (k : A -> M B) : M B := fun w =>
  match m w with (Some x, w) => k x w | (None, w) => (None, w) end.
Declare Scope bus_scope.
Delimit Scope bus_scope with bus.
Notation "'let*' x := m 'in' k" := (mthen m (fun x => k))
  (at level 10, x pattern, m at level 100, k at level 200) : bus_scope.
#[local] Open Scope bus_scope.

Section Bus.
(** The bus, and its adapter with its index on it. *)
Context (bus : nat) (bk : BusKey).
Abbreviation idx := (bk_raw_idx bk).

(** ** Receiving *)

Definition push_event (q : list MotorPackMsg) (e : Received) : list MotorPackMsg :=
  match e with
  | ToMailbox b m => if bool_decide (b = bus) then newest kMailbox (q ++ [m]) else q
  | _ => q
  end.

(** The adapter receives frames of the bus; what the devices do with theirs is left out. *)
Definition receive (frames : list MotorPackMsg) (w : World) : World :=
  let '(events, r) := OnMessages (bk_adapter bk) (map (mkMsg idx) frames) (routing (manager w)) in
  with_unknown (fold_left push_event events (unknown_messages w)) (with_manager (set_routing r (manager w)) w).

Definition Sleep : M unit := fun w => (Some tt, receive (hd [] (arrivals w)) (with_arrivals (tl (arrivals w)) w)).

Definition ClearUnknownMessagesLocked : M unit := fun w => (Some tt, with_unknown [] w).
Definition DrainUnknownMessagesLocked : M MotorMessages := fun w => (Some (map (mkMsg idx) (unknown_messages w)), with_unknown [] w).

(** ** Sending *)

(** [Bus::Impl::Send]: the writer of the bus. *)
Definition Send (messages : MotorMessages) : M unit := fun w =>
  let (ok, a) := SubmitBusMessages idx messages false (adapter w) in
  (if ok then Some tt else None, with_adapter a w).

(** ** Creating devices *)

(** What stays of a creation that has failed: [devices.erase(key)] and
    [device_keys.erase(device)]; the writer's channel goes with the device. *)
Definition abandon (k : DeviceKey) (device : nat) (channel : option nat) (w : World) : World :=
  let m := erase_device k device (snd (DetachRegistrationLocked device (manager w))) in
  with_manager m
    match channel with
    | Some channel => if IsBusAlive bus m then with_adapter (UnregisterSendChannel idx channel (adapter w)) w else w
    | None => w
    end.

(** [MakeWriter], for a device that is given a writer. *)
Definition MakeWriter (has_writer : bool) (w : World) : option nat * World :=
  if has_writer then let (channel, a) := MakeDeviceWriter idx (adapter w) in (Some channel, with_adapter a w)
  else (None, w).

(** [CreateDevice] with nobody else creating or deleting the device: [construct] is what
    the constructor leaves besides the object, [initialize] may throw. *)
Definition CreateDevice (k : DeviceKey) (rc : Recipe) (has_writer : bool) (construct : nat -> World -> World)
    (initialize : nat -> option nat -> M unit) (commit : nat -> Manager -> Manager) : M nat := fun w =>
  if negb (parent_usable bus (manager w)) then (None, w)
  else
    match devices (objects (manager w)) !! k with
    | Some device => (Some device, w)
    | None =>
        match constructs w with
        | Some device :: rest =>
            let (channel, w) := MakeWriter has_writer (with_constructs rest w) in
            let w := construct device w in
            match PublishRoutesLocked device bus rc (manager w) with
            | Some (true, m) =>
                match initialize device channel (with_manager m w) with
                | (Some _, w) =>
                    if parent_usable bus (manager w)
                    then (Some device, with_manager (commit_device k device (commit device (manager w))) w)
                    else (None, abandon k device channel w)
                | (None, w) => (None, abandon k device channel w)
                end
            | _ => (None, abandon k device channel w)
            end
        | l => (None, with_constructs (tl l) w)
        end
    end.

Definition motor_recipe (motor_idx : Z) : Recipe := mkRecipe [u32 motor_idx] false true true.

(** [Motor::QueryFirmwareVersion]: the query, then the wait for its answer. *)
Definition QueryFirmwareVersion (motor_idx : Z) (device : nat) (channel : option nat) : M unit := fun w =>
  let query := mkPack (u16 motor_idx) (default 0 (motor_flags w !! device)) 2
                 [u8 (7 ≪ 5); u8 (MotorParameter.code MotorParameter.FirmwareVersion); 0; 0; 0; 0; 0; 0] in
  Sleep
    match channel with
    | Some channel => with_adapter (snd (SubmitDeviceMessage idx channel (mkMsg idx query) (adapter w))) w
    | None => w
    end.

Definition CreateMotor (motor_idx : Z) (flags : Z) (canfd : bool) : M nat :=
  CreateDevice (motor_key bus motor_idx) (motor_recipe motor_idx) true
    (fun device w => with_motor_flags (<[device := WithCanFdFlag flags canfd]> (motor_flags w)) w)
    (QueryFirmwareVersion motor_idx) (ApplyMotorStatusConfigurationLocked bus motor_idx).

(** ** External devices *)

(** The common part of [GetBattery], [GetImu], [GetPms] and [GetDevice]. *)
Definition GetExternal (create : M nat) : M nat := fun w =>
  if negb (alive w) then (None, w)
  else
    let was_external := external_device_flag w in
    match create (SetExternalDeviceFlag true w) with
    | (Some device, w) => (Some device, w)
    | (None, w) =>
        (None, if negb was_external && negb (HasRegisteredExternalDevice bus (manager w)) then SetExternalDeviceFlag false w else w)
    end.

(** A device other than a motor has nothing to do after its routes are published. *)
Definition CreateExternal (k : DeviceKey) (can_ids : list Z) (has_writer : bool) : M nat :=
  CreateDevice k (mkRecipe can_ids false true false) has_writer (fun _ w => w) (fun _ _ => mret tt) (fun _ m => m).

Definition GetBattery (battery_idx : Z) : M nat :=
  GetExternal (CreateExternal (mkDeviceKey bus KBattery battery_idx 0 0) (BatteryStatusIds (u16 battery_idx)) true).
Definition GetImu (imu_idx : Z) : M nat :=
  GetExternal (CreateExternal (mkDeviceKey bus KImu imu_idx 0 0) (ImuStatusIds (u16 imu_idx)) false).
Definition GetPms : M nat := GetExternal (CreateExternal (mkDeviceKey bus KPms 0 0 0) kPmsStatusIds true).

Definition DetectExternalDeviceLocked : M bool := fun w =>
  if HasRegisteredExternalDevice bus (manager w) then (Some true, SetExternalDeviceFlag true w)
  else
    (let* _ := ClearUnknownMessagesLocked in
     let* _ := Sleep in
     let* messages := DrainUnknownMessagesLocked in
     let detected := match messages with [] => false | _ => true end in
     fun w => (Some detected, SetExternalDeviceFlag detected w)) w.

Definition DetectExternalDevice : M bool := fun w =>
  if negb (alive w) then (Some false, w) else DetectExternalDeviceLocked w.

End Bus.

(** ** What reaches the mailbox *)

(** A frame no ordinary route takes. *)
Definition unrouted (bk : BusKey) (r : Routing) (m : MotorPackMsg) : bool :=
  (id m =? 2047) || negb (bool_decide (is_Some (exact_target bk (id m) r))).
Definition unrouted_frames (bk : BusKey) (r : Routing) (frames : list MotorPackMsg) : list MotorPackMsg :=
  List.filter (unrouted bk r) frames.

Lemma push_devices bus q m called : fold_left (push_event bus) (map (fun d => ToDevice d m) called) q = q.
Proof. induction called as [|d called IH]; [done|exact IH]. Qed.

Lemma push_newest bus q m : push_event bus (newest kMailbox q) (ToMailbox bus m) = newest kMailbox (q ++ [m]).
Proof. cbn [push_event]. rewrite bool_decide_true by done. apply newest_newest_app. Qed.

Lemma receive_mailbox bus bk r frames : forall q,
  domain_buses r !! bk = Some bus ->
  snd (OnMessages (bk_adapter bk) (map (mkMsg (bk_raw_idx bk)) frames) r) = r /\
  fold_left (push_event bus) (fst (OnMessages (bk_adapter bk) (map (mkMsg (bk_raw_idx bk)) frames) r)) (newest kMailbox q) =
    newest kMailbox (q ++ unrouted_frames bk r frames).
Proof.
  induction frames as [|m frames IH]; intros q Hbus; cbn [map OnMessages]; [by rewrite app_nil_r|].
  assert (exists called, receive_one (bk_adapter bk) (mkMsg (bk_raw_idx bk) m) r =
    (map (fun d => ToDevice d m) called ++ (if unrouted bk r m then [ToMailbox bus m] else []), r)) as (called & E).
  { unfold receive_one. cbn [bus_idx mdata]. replace (mkBusKey (bk_adapter bk) (bk_raw_idx bk)) with bk by (by destruct bk).
    unfold IsBusRegistered, DispatchReceive, DeliverToClaimRoute, DispatchUnknownReceive, unrouted. rewrite !deliver_spec, Hbus, bool_decide_true by done.
    destruct (id m =? 2047); [eexists; cbv beta iota zeta; rewrite Hbus; reflexivity|]. cbn [orb].
    destruct (exact_target bk (id m) r) as [n|] eqn:Et.
    - rewrite deliver_spec. rewrite bool_decide_true by done. eexists. cbv beta iota zeta. cbn [negb]. rewrite !app_nil_r. reflexivity.
    - rewrite bool_decide_false by (by intros []). eexists. cbv beta iota zeta. rewrite Hbus. reflexivity. }
  rewrite E. destruct (OnMessages (bk_adapter bk) (map (mkMsg (bk_raw_idx bk)) frames) r) as [events r'] eqn:Eo.
  cbn [fst snd] in *. unfold unrouted_frames. cbn [List.filter]. rewrite !fold_left_app, push_devices.
  destruct (unrouted bk r m).
  - destruct (IH (q ++ [m]) Hbus) as [Hr Hq]. split; [done|]. cbn [fold_left].
    rewrite push_newest, Hq. by rewrite <- app_assoc.
  - by destruct (IH q Hbus).
Qed.

Lemma receive_eq bus bk frames m a q fl mf al arr cs :
  domain_buses (routing m) !! bk = Some bus ->
  receive bus bk frames (mkWorld m a (newest kMailbox q) fl mf al arr cs) =
  mkWorld m a (newest kMailbox (q ++ unrouted_frames bk (routing m) frames)) fl mf al arr cs.
Proof.
  intros Hbus. unfold receive. cbn [manager unknown_messages].
  destruct (receive_mailbox bus bk (routing m) frames q Hbus) as [Hr Hq].
  destruct (OnMessages _ _ _) as [events r]. cbn [fst snd] in *. subst r. rewrite Hq.
  unfold with_unknown, with_manager, set_routing. cbn. by destruct m.
Qed.

Lemma Sleep_eq bus bk m a q fl mf al arr cs :
  domain_buses (routing m) !! bk = Some bus ->
  Sleep bus bk (mkWorld m a (newest kMailbox q) fl mf al arr cs) =
  (Some tt, mkWorld m a (newest kMailbox (q ++ unrouted_frames bk (routing m) (hd [] arr))) fl mf al (tl arr) cs).
Proof. intros Hbus. unfold Sleep, with_arrivals. cbn [arrivals manager adapter unknown_messages external_device_flag motor_flags alive constructs].
  by rewrite receive_eq. Qed.

(** The driver of the bus takes direct submissions and never throws. *)
Definition direct (i : Z) (a : Adapter) : Prop := sync_mode (SyncQueue.buses a i) = false /\ throws a = [].
Definition sents (a : Adapter) (l : list Sent) : Adapter :=
  mkAdapter (default_sync_mode a) (SyncQueue.buses a) (next_channel a) (wire a ++ l) (throws a).

Lemma sents_nil a : sents a [] = a.
Proof. unfold sents. rewrite app_nil_r. by destruct a. Qed.
Lemma sents_app a l k : sents (sents a l) k = sents a (l ++ k).
Proof. unfold sents. cbn. by rewrite <- app_assoc. Qed.
Lemma direct_sents i a l : direct i a -> direct i (sents a l).
Proof. done. Qed.

Lemma Send_eq bk messages m a q fl mf al arr cs :
  direct (bk_raw_idx bk) a -> messages <> [] ->
  Send bk messages (mkWorld m a q fl mf al arr cs) = (Some tt, mkWorld m (sents a [SentDirect messages]) q fl mf al arr cs).
Proof.
  intros [Hs Ht] Hne. unfold Send, SubmitBusMessages. cbn [adapter]. destruct messages as [|x l]; [done|].
  rewrite Hs. cbn [andb negb]. unfold driver, sents. rewrite Ht. done.
Qed.

(** ** The external device flag *)

Lemma CreateExternal_flag bus bk k can_ids has_writer w :
  external_device_flag (snd (CreateExternal bus bk k can_ids has_writer w)) = external_device_flag w.
Proof.
  unfold CreateExternal, CreateDevice, mret, abandon.
  destruct (parent_usable bus (manager w)); cbn [negb]; [|done]. destruct (devices (objects (manager w)) !! k); [done|].
  destruct (constructs w) as [|[device|] rest]; [done| |done].
  assert (external_device_flag (snd (MakeWriter bk has_writer (with_constructs rest w))) = external_device_flag w) as E by (by destruct has_writer).
  destruct (MakeWriter bk has_writer (with_constructs rest w)) as [channel w1]. cbn [snd] in E. rewrite <- E.
  destruct (PublishRoutesLocked device bus _ (manager w1)) as [[[] m']|];
    repeat match goal with |- context [if ?c then _ else _] => destruct c end; try (destruct channel as [x|]); try (destruct (IsBusAlive bus _)); done.
Qed.

(** A bus with a registered device other than a motor has its flag set, whatever
    becomes of the creations: a scan of it asks nothing. *)
Definition flag_covers (bus : nat) (w : World) : Prop :=
  HasRegisteredExternalDevice bus (manager w) = true -> external_device_flag w = true.

Lemma GetExternal_covers bus create w :
  (forall w, external_device_flag (snd (create w)) = external_device_flag w) ->
  flag_covers bus w -> flag_covers bus (snd (GetExternal bus create w)).
Proof.
  intros Hflag Hw. unfold GetExternal, flag_covers. destruct (alive w); cbn [negb]; [|exact Hw].
  specialize (Hflag (SetExternalDeviceFlag true w)). destruct (create (SetExternalDeviceFlag true w)) as [[device|] w'].
  - intros _. exact Hflag.
  - cbn [snd] in *. destruct (external_device_flag w); cbn [negb andb]; [by intros _|].
    destruct (HasRegisteredExternalDevice bus (manager w')) eqn:E; cbn [negb]; [by intros _|]. cbn. congruence.
Qed.

Lemma external_devices_covered bus bk battery_idx imu_idx w :
  flag_covers bus w ->
  flag_covers bus (snd (GetBattery bus bk battery_idx w)) /\ flag_covers bus (snd (GetImu bus bk imu_idx w)) /\
  flag_covers bus (snd (GetPms bus bk w)).
Proof. intros H. split_and!; (apply GetExternal_covers; [|exact H]); intros; apply CreateExternal_flag. Qed.
