(* ===== verification/BusScan.v ===== *)
(** * BusScan: Bus::ScanMotors (src/bus/bus.cc)

    The discovery of the motors on a bus: it is refused when something other than a
    motor answers or is registered, asks every index with classic frames, asks those
    that answered again with CAN FD frames, and registers a motor for every index that
    answered ([ReconcileDiscoveredMotor] of src/driver_manager_dispatch.cc). *)
From stdpp Require Import base list numbers option gmap functions fin_maps.
From Stdlib Require Import ZArith Lia.
From S2P Require Import Prelude Types.
From S2P Require Import SyncQueue.
From S2P Require Import DriverManager.
From S2P Require Import ManagerTables.
From S2P Require Import ManagerDispatch.
From S2P Require Import BusWorld.
#[local] Open Scope Z_scope.
#[local] Open Scope cint_scope.
#[local] Open Scope bus_scope.

(** ** Queries and replies *)

Definition discovery_query (canfd : bool) (candidate_id : Z) : MotorPackMsg :=
  mkPack candidate_id (if canfd then kCanFrameFlagFdMask else 0) 2
    [u8 (7 ≪ 5); u8 (MotorParameter.code MotorParameter.Position); 0; 0; 0; 0; 0; 0].

Definition is_discovery_reply (pack : MotorPackMsg) : bool :=
  negb ((2046 <? id pack) || (len pack <? 6) || negb (byte_at (data pack) 0 =? u8 (5 ≪ 5)) ||
        negb (byte_at (data pack) 1 =? u8 (MotorParameter.code MotorParameter.Position))).

(** [discovered_frame_flags[id] |= ...]; a missing entry is created with 0. *)
Definition collect_reply (found : gmap Z Z) (pack : MotorPackMsg) : gmap Z Z :=
  if is_discovery_reply pack
  then <[id pack := u8 (default 0 (found !! id pack) .| SanitizeCanFrameFlags (frame_flags pack))]> found
  else found.
Definition collect_discovery_replies (packs : list MotorPackMsg) (found : gmap Z Z) : gmap Z Z :=
  fold_left collect_reply packs found.

Definition all_candidate_ids : list Z := map Z.of_nat (seq 0 2047).

Section Scan.
Context (bus : nat) (bk : BusKey).
Abbreviation idx := (bk_raw_idx bk).

(** The loop over the candidates with [send_chunk], and the rest of it at the end. *)
Fixpoint send_chunks (canfd : bool) (candidate_ids : list Z) (send_chunk : MotorMessages) : M unit :=
  match candidate_ids with
  | [] => match send_chunk with [] => mret tt | _ => Send bk send_chunk end
  | candidate_id :: rest =>
      let send_chunk := send_chunk ++ [mkMsg idx (discovery_query canfd candidate_id)] in
      if (length send_chunk =? 3)%nat
      then
        let* _ := Send bk send_chunk in
        let* _ := Sleep bus bk in
        send_chunks canfd rest []
      else send_chunks canfd rest send_chunk
  end.
Definition send_discovery_queries (canfd : bool) (candidate_ids : list Z) : M unit := send_chunks canfd candidate_ids [].

(** The mailbox into the map. *)
Definition collect (found : gmap Z Z) : M (gmap Z Z) :=
  let* messages := DrainUnknownMessagesLocked bk in
  mret (collect_discovery_replies (map mdata messages) found).

(** ** Registering what answered *)

(** [Some None] is a null pointer. *)
Definition ReconcileDiscoveredMotor (motor_idx flags : Z) (canfd : bool) : M (option nat) := fun w =>
  let effective_frame_flags := WithCanFdFlag flags canfd in
  if negb (parent_usable bus (manager w)) then (Some None, w)
  else
    match devices (objects (manager w)) !! motor_key bus motor_idx with
    | Some motor =>
        if is_deleting motor (manager w) then (Some None, w)
        else (Some (Some motor), with_motor_flags (<[motor := effective_frame_flags]> (motor_flags w)) w)
    | None =>
        match CreateMotor bus bk motor_idx effective_frame_flags canfd w with
        | (Some motor, w) => (Some (Some motor), w)
        | (None, w) => (if parent_usable bus (manager w) then None else Some None, w)
        end
    end.

Fixpoint reconcile_all (found : list (Z * Z)) : M (list (Z * nat)) :=
  match found with
  | [] => fun w => (Some (GetMotors bus (manager w)), w)
  | (motor_idx, flags) :: rest =>
      let* motor := ReconcileDiscoveredMotor motor_idx flags (CanFrameFlagsUseCanFd flags) in
      match motor with
      | None => fun w => (Some (GetMotors bus (manager w)), w)
      | Some _ => reconcile_all rest
      end
  end.

(** ** The scan *)

Definition discover : M (gmap Z Z) :=
  let* _ := ClearUnknownMessagesLocked in
  let* _ := send_discovery_queries false all_candidate_ids in
  let* _ := Sleep bus bk in
  let* found := collect ∅ in
  match map fst (map_to_list found) with
  | [] => mret found
  | canfd_candidate_ids =>
      let* _ := send_discovery_queries true (map u16 canfd_candidate_ids) in
      let* _ := Sleep bus bk in
      collect found
  end.

(** [HasExternalDevice() || DetectExternalDeviceLocked()]. *)
Definition external_device : M bool := fun w =>
  if external_device_flag w then (Some true, w) else DetectExternalDeviceLocked bus bk w.

Definition ScanMotors : M (list (Z * nat)) := fun w =>
  if negb (alive w) then (Some [], w)
  else
    (let* external := external_device in
     if external : bool then mret []
     else
       let* found := discover in
       reconcile_all (map_to_list found)) w.

End Scan.

(** ** The queries *)

(** A list cut into threes. *)
Fixpoint threes {A} (l : list A) : list (list A) :=
  match l with
  | [] => []
  | a :: b :: c :: rest => [a; b; c] :: threes rest
  | l => [l]
  end.

Lemma concat_threes {A} (l : list A) : concat (threes l) = l.
Proof.
  assert (forall n (l : list A), (length l <= n)%nat -> concat (threes l) = l) as H; [|by apply (H (length l))].
  clear. induction n as [|n IH]; intros l Hl; [destruct l; [done|cbn in Hl; lia]|].
  destruct l as [|a [|b [|c rest]]]; try done. cbn [threes concat app]. do 3 f_equal. apply IH. cbn in Hl. lia.
Qed.

(** The direct submissions of the queries for [ids]. *)
Definition query_batches (bk : BusKey) (canfd : bool) (ids : list Z) : list Sent :=
  map SentDirect (threes (map (fun i => mkMsg (bk_raw_idx bk) (discovery_query canfd i)) ids)).

Lemma div3_next n : ((3 + n) / 3 = S (n / 3))%nat.
Proof. change (3 + n)%nat with (1 * 3 + n)%nat. rewrite Nat.div_add_l by lia. reflexivity. Qed.

Lemma concat_take_S {A} n (l : list (list A)) : concat (take (S n) l) = hd [] l ++ concat (take n (tl l)).
Proof. destruct l as [|x l]; cbn [hd tl]; [by rewrite !take_nil|done]. Qed.
Lemma drop_S_tl {A} n (l : list A) : drop (S n) l = drop n (tl l).
Proof. destruct l; cbn [tl]; [by rewrite !drop_nil|done]. Qed.

Lemma unrouted_app bk r l k : unrouted_frames bk r (l ++ k) = unrouted_frames bk r l ++ unrouted_frames bk r k.
Proof. apply List.filter_app. Qed.

Lemma send_chunks_run bus bk canfd m fl mf al cs ids : forall chunk a q arr,
  domain_buses (routing m) !! bk = Some bus -> direct (bk_raw_idx bk) a -> (length chunk < 3)%nat ->
  let n := ((length chunk + length ids) / 3)%nat in
  send_chunks bus bk canfd ids chunk (mkWorld m a (newest kMailbox q) fl mf al arr cs) =
  (Some tt,
   mkWorld m (sents a (map SentDirect (threes (chunk ++ map (fun i => mkMsg (bk_raw_idx bk) (discovery_query canfd i)) ids))))
     (newest kMailbox (q ++ unrouted_frames bk (routing m) (concat (take n arr)))) fl mf al (drop n arr) cs).
Proof.
  induction ids as [|i ids IH]; intros chunk a q arr Hbus Hd Hl n.
  - subst n. rewrite Nat.add_0_r, (Nat.div_small (length chunk) 3) by done. cbn [send_chunks map take drop concat].
    change (unrouted_frames bk (routing m) []) with (@nil MotorPackMsg). rewrite !app_nil_r.
    destruct chunk as [|x [|y [|z chunk]]]; [by rewrite sents_nil|by rewrite Send_eq|by rewrite Send_eq|cbn in Hl; lia].
  - cbn [send_chunks]. rewrite length_app. cbn [length map] in *.
    set (f := fun i => mkMsg (bk_raw_idx bk) (discovery_query canfd i)) in *. 
    destruct (Nat.eqb_spec (length chunk + 1) 3) as [E|E].
    + unfold mthen. rewrite Send_eq by (done || by destruct chunk). rewrite Sleep_eq by done.
      rewrite IH by (try apply direct_sents; done || cbn; lia).
      assert (n = S ((length (A:=MotorMessage) [] + length ids) / 3)) as -> by (subst n; rewrite <- div3_next; f_equal; cbn; lia).
      rewrite concat_take_S, drop_S_tl, unrouted_app, <- app_assoc, sents_app.
      destruct chunk as [|x [|y [|z chunk]]]; cbn in E; try lia. done.
    + assert (n = ((length (chunk ++ [f i]) + length ids) / 3)%nat) as -> by (subst n; f_equal; rewrite length_app; cbn; lia).
      fold (f i). rewrite IH by (try done; rewrite length_app; cbn; lia). by rewrite <- app_assoc.
Qed.

(** ** A bus ready for a scan *)

(** The bus and its adapter are registered and not retiring, no [SetId] is under way,
    and every route can be called. *)
Record Ready (bus : nat) (bk : BusKey) (m : Manager) : Prop := {
  rd_tables : Tables m;
  rd_domain : domain_buses (routing m) !! bk = Some bus;
  rd_key : bus_keys (objects m) !! bus = Some bk;
  rd_deleting : deleting (objects m) = ∅;
  rd_resetting : bus ∉ resetting_buses (objects m);
  rd_reserved : motor_route_reservations (routing m) = ∅;
  rd_active : forall key n rr, routes (routing m) !! key = Some n -> records (routing m) !! n = Some rr -> rr_callback rr = true
}.

(** An address no device has. *)
Definition fresh (m : Manager) (d : nat) : Prop :=
  device_keys (objects m) !! d = None /\ registrations (routing m) !! d = None.

Section Ready.
Context (bus : nat) (bk : BusKey).
Abbreviation idx := (bk_raw_idx bk).

Lemma ready_int m : Ready bus bk m -> int_ok idx.
Proof. intros H. exact (o_raw _ (t_objects _ (rd_tables _ _ _ H)) _ _ (rd_key _ _ _ H)). Qed.

Lemma ready_usable m : Ready bus bk m -> parent_usable bus m = true.
Proof.
  intros H. unfold parent_usable, bus_usable. rewrite (rd_key _ _ _ H). unfold is_deleting. rewrite (rd_deleting _ _ _ H).
  rewrite !bool_decide_false by (apply not_elem_of_empty || apply (rd_resetting _ _ _ H)). done.
Qed.

(** The record of a route in the table. *)
Lemma ready_route m key n :
  Ready bus bk m -> routes (routing m) !! key = Some n ->
  exists rr, records (routing m) !! n = Some rr /\ rr_retiring rr = false /\ (n < next_record (routing m))%nat.
Proof.
  intros H Hn. pose proof (t_routing _ (rd_tables _ _ _ H)) as HR.
  destruct (r_route _ _ HR key n Hn) as (d & reg & Hd & Hin).
  destruct (r_entry _ _ HR d reg _ Hd Hin) as (rr & bk' & can & Hr & _ & _ & _ & Hret & _).
  exists rr. split_and!; [done|done|]. by apply (r_fresh _ _ HR n rr).
Qed.

(** A frame that reaches the mailbox has no route. *)
Lemma unrouted_free m p :
  Ready bus bk m -> unrouted bk (routing m) p = true -> id p <> 2047 -> routes (routing m) !! route_of bk (id p) = None.
Proof.
  intros H Hu Hne. unfold unrouted in Hu. apply Z.eqb_neq in Hne. rewrite Hne in Hu. cbn [orb] in Hu.
  apply negb_true_iff, bool_decide_eq_false in Hu. unfold exact_target in Hu.
  destruct (routes (routing m) !! route_of bk (id p)) as [n|] eqn:En; [|done].
  destruct (ready_route m _ n H En) as (rr & Hr & Hret & _). exfalso. apply Hu.
  unfold ready_record, is_ready. rewrite Hr, Hret, (rd_active _ _ _ H _ _ _ En Hr). by eexists.
Qed.

Lemma route_u32 i : route_of bk (u32 i) = route_of bk i.
Proof. unfold route_of, u32. by rewrite Z.mod_mod. Qed.

(** The tables after the routes of a motor are published. *)
Definition published (i : Z) (d : nat) (m : Manager) : Manager :=
  let e := mkEntry (route_of bk i) (next_record (routing m)) false in
  set_routing (set_routes (<[route_of bk i := next_record (routing m)]> (routes (routing m)))
                (register d bus bk (motor_recipe i) [e] (routing m))) m.

Lemma publish_motor i d m :
  Ready bus bk m -> fresh m d -> routes (routing m) !! route_of bk i = None ->
  PublishRoutesLocked d bus (motor_recipe i) m = Some (true, published i d m).
Proof.
  intros H [_ Hreg] Hroute. unfold PublishRoutesLocked. rewrite (rd_key _ _ _ H).
  unfold motor_recipe. cbn [rc_claims_bus rc_can_ids PrepareRoutes].
  rewrite !route_u32, Hroute, (rd_reserved _ _ _ H), lookup_empty, Hreg.
  rewrite !bool_decide_false by (by intros []). cbn [orb existsb app length]. rewrite Nat.add_0_r. reflexivity.
Qed.

Lemma published_ready i d m :
  Ready bus bk m -> fresh m d -> routes (routing m) !! route_of bk i = None -> Ready bus bk (published i d m).
Proof.
  intros H Hf Hroute. pose proof (publish_motor i d m H Hf Hroute) as E.
  split; [|exact (rd_domain _ _ _ H)|exact (rd_key _ _ _ H)|exact (rd_deleting _ _ _ H)|exact (rd_resetting _ _ _ H)|exact (rd_reserved _ _ _ H)|].
  - by apply (tables_publish _ _ _ _ _ _ (rd_tables _ _ _ H) (proj1 Hf) E).
  - intros key n rr. unfold published. cbn [routing set_routing set_routes register routes records insert_all fold_left re_record].
    intros [[<- <-]|[Hne Hn]]%lookup_insert_Some.
    + rewrite lookup_insert_eq. by intros [= <-].
    + destruct (ready_route m key n H Hn) as (rr' & Hr & _ & Hlt). rewrite lookup_insert_ne by lia. by apply (rd_active _ _ _ H key n).
Qed.

Definition committed (i : Z) (d : nat) (m : Manager) : Manager :=
  commit_device (motor_key bus i) d (ApplyMotorStatusConfigurationLocked bus i d (published i d m)).

Lemma committed_spec i d m :
  Ready bus bk m -> fresh m d -> int_ok i -> routes (routing m) !! route_of bk i = None ->
  devices (objects m) !! motor_key bus i = None ->
  let m' := committed i d m in
  Ready bus bk m' /\ devices (objects m') = <[motor_key bus i := d]> (devices (objects m)) /\
  device_keys (objects m') = <[d := motor_key bus i]> (device_keys (objects m)) /\
  (forall d', d' <> d -> registrations (routing m') !! d' = registrations (routing m) !! d') /\
  (forall key, key <> route_of bk i -> routes (routing m') !! key = routes (routing m) !! key).
Proof.
  intros H Hf Hi Hroute Hdev m'.
  destruct (apply_status_effect bus i d (published i d m)) as (Eo & Er & Ev).
  pose proof (published_ready i d m H Hf Hroute) as HP.
  set (m1 := ApplyMotorStatusConfigurationLocked bus i d (published i d m)) in *.
  assert (objects m1 = objects m) as Eo' by (rewrite Eo; done).
  assert (devices (objects m') = <[motor_key bus i := d]> (devices (objects m)) /\
          device_keys (objects m') = <[d := motor_key bus i]> (device_keys (objects m)) /\ routing m' = routing (published i d m)) as (E1 & E2 & E3).
  { subst m'. unfold committed, commit_device. fold m1. rewrite Eo'. cbn. rewrite !emplace_none by (done || apply Hf). by rewrite Er. }
  split_and!; [|exact E1|exact E2| |].
  - split; rewrite ?E3; [|exact (rd_domain _ _ _ HP)| | | |exact (rd_reserved _ _ _ HP)|exact (rd_active _ _ _ HP)].
    + subst m'. unfold committed. fold m1. apply tables_commit; rewrite ?Eo'; [|done|apply Hf| |].
      * by apply (tables_statuses (published i d m)); [apply HP|..].
      * rewrite Er. unfold published. cbn. rewrite lookup_insert_eq. by eexists.
      * intros _. split; [done|]. split; [done|]. rewrite Er. intros reg. unfold published.
        cbn [routing set_routing set_routes register registrations]. rewrite lookup_insert_eq. intros [= <-].
        split; [done|]. exists (next_record (routing m)), bk. split; [exact (rd_key _ _ _ H)|done].
    + subst m'. unfold committed, commit_device. fold m1. rewrite Eo'. exact (rd_key _ _ _ H).
    + subst m'. unfold committed, commit_device. fold m1. rewrite Eo'. exact (rd_deleting _ _ _ H).
    + subst m'. unfold committed, commit_device. fold m1. rewrite Eo'. exact (rd_resetting _ _ _ H).
  - intros d' Hne. rewrite E3. unfold published. cbn. by rewrite lookup_insert_ne.
  - intros key Hne. rewrite E3. unfold published. cbn. by rewrite lookup_insert_ne.
Qed.

End Ready.

(** ** Registering what was found *)

(** The frame a new motor is asked its firmware version with. *)
Definition firmware_query (bk : BusKey) (i flags : Z) : MotorMessage :=
  mkMsg (bk_raw_idx bk)
    (mkPack (u16 i) flags 2 [u8 (7 ≪ 5); u8 (MotorParameter.code MotorParameter.FirmwareVersion); 0; 0; 0; 0; 0; 0]).

Lemma with_fd_twice flags canfd : WithCanFdFlag (WithCanFdFlag flags canfd) canfd = WithCanFdFlag flags canfd.
Proof.
  unfold WithCanFdFlag. rewrite !sanitize_mod.
  assert (forall z, 0 <= z < 16 -> forall c : bool,
    (if c then u8 ((if c then u8 (z .| kCanFrameFlagFdMask) else u8 (z .& u8 (Z.lnot kCanFrameFlagFdMask))) mod 16 .| kCanFrameFlagFdMask)
     else u8 ((if c then u8 (z .| kCanFrameFlagFdMask) else u8 (z .& u8 (Z.lnot kCanFrameFlagFdMask))) mod 16 .& u8 (Z.lnot kCanFrameFlagFdMask))) =
    (if c then u8 (z .| kCanFrameFlagFdMask) else u8 (z .& u8 (Z.lnot kCanFrameFlagFdMask)))) as Hz.
  { intros z Hz c. assert (z ∈ map Z.of_nat (seq 0 16)) as Hin.
    { apply list_elem_of_fmap. exists (Z.to_nat z). split; [by rewrite Z2Nat.id by lia|]. apply elem_of_seq. lia. }
    repeat (apply elem_of_cons in Hin as [->|Hin]; [by destruct c|]). by apply elem_of_nil in Hin. }
  exact (Hz (flags mod 16) (Z.mod_pos_bound flags 16 ltac:(lia)) canfd).
Qed.

Section Create.
Context (bus : nat) (bk : BusKey) (fl al : bool).
Abbreviation idx := (bk_raw_idx bk).

Lemma CreateMotor_ok i flags canfd m a q mf arr d cs :
  Ready bus bk m -> direct idx a -> fresh m d -> int_ok i -> routes (routing m) !! route_of bk i = None ->
  devices (objects m) !! motor_key bus i = None ->
  exists a' q',
    CreateMotor bus bk i flags canfd (mkWorld m a (newest kMailbox q) fl mf al arr (Some d :: cs)) =
      (Some d, mkWorld (committed bus bk i d m) a' (newest kMailbox q') fl (<[d := WithCanFdFlag flags canfd]> mf) al (tl arr) cs) /\
    direct idx a' /\ wire a' = wire a ++ [SentDirect [firmware_query bk i (WithCanFdFlag flags canfd)]].
Proof.
  intros H [Hs Ht] Hf Hi Hroute Hdev.
  pose proof (published_ready bus bk i d m H Hf Hroute) as HP.
  unfold CreateMotor, CreateDevice. cbn [manager]. rewrite (ready_usable _ _ _ H), Hdev. cbn [negb constructs].
  unfold MakeWriter, MakeDeviceWriter, with_constructs, with_adapter, with_motor_flags. cbn [manager adapter unknown_messages external_device_flag motor_flags alive arrivals constructs].
  rewrite (publish_motor _ _ _ _ _ H Hf Hroute). unfold QueryFirmwareVersion, with_manager, with_adapter.
  cbn [manager adapter unknown_messages external_device_flag motor_flags alive arrivals constructs].
  unfold SubmitDeviceMessage. cbn [SyncQueue.buses]. rewrite fn_lookup_insert. cbn [sync_mode]. rewrite Hs, lookup_insert_eq.
  cbn [snd default from_option Datatypes.id]. rewrite Sleep_eq by exact (rd_domain _ _ _ HP).
  cbn [manager adapter unknown_messages external_device_flag motor_flags alive arrivals constructs].
  rewrite (ready_usable _ _ _ HP). eexists _, _. split; [reflexivity|]. unfold driver. cbn [snd wire throws SyncQueue.buses].
  split; [|done]. split; [|cbn; by rewrite Ht]. cbn. by rewrite fn_lookup_insert.
Qed.

(** Everything but the devices [ds] is as it was: what is registered, the routes and the
    callbacks of the other devices, and all the settings. *)
Record Undisturbed (ds : list nat) (m m' : Manager) : Prop := {
  un_keys : forall d, d ∉ ds -> device_keys (objects m') !! d = device_keys (objects m) !! d;
  un_registered : forall d, d ∉ ds -> registrations (routing m') !! d = registrations (routing m) !! d;
  un_routes : forall key n, routes (routing m) !! key = Some n -> routes (routing m') !! key = Some n;
  un_callbacks : forall d, d ∉ ds -> on_status (statuses m') !! d = on_status (statuses m) !! d;
  un_settings : status_callbacks (statuses m') = status_callbacks (statuses m) /\
    adapter_status_configs (statuses m') = adapter_status_configs (statuses m) /\
    motor_index_reservations (statuses m') = motor_index_reservations (statuses m)
}.

Lemma undisturbed_refl ds m : Undisturbed ds m m.
Proof. done. Qed.

Lemma undisturbed_trans ds ds1 ds2 m m1 m2 :
  ds1 ⊆ ds -> ds2 ⊆ ds -> Undisturbed ds1 m m1 -> Undisturbed ds2 m1 m2 -> Undisturbed ds m m2.
Proof.
  intros S1 S2 [K1 R1 T1 C1 (A1 & B1 & D1)] [K2 R2 T2 C2 (A2 & B2 & D2)]. split.
  - intros d Hd. rewrite K2, K1 by (intros ?; apply Hd; auto). done.
  - intros d Hd. rewrite R2, R1 by (intros ?; apply Hd; auto). done.
  - auto.
  - intros d Hd. rewrite C2, C1 by (intros ?; apply Hd; auto). done.
  - split_and!; congruence.
Qed.

Lemma committed_undisturbed i d m :
  Ready bus bk m -> fresh m d -> int_ok i -> routes (routing m) !! route_of bk i = None ->
  devices (objects m) !! motor_key bus i = None -> Undisturbed [d] m (committed bus bk i d m).
Proof.
  intros H Hf Hi Hroute Hdev. destruct (committed_spec bus bk i d m H Hf Hi Hroute Hdev) as (_ & _ & E2 & E3 & E4).
  assert (forall x, x ∉ [d] -> x <> d) as Hne by (intros x Hx ->; apply Hx, list_elem_of_here).
  assert (statuses (committed bus bk i d m) = statuses (ApplyMotorStatusConfigurationLocked bus i d (published bus bk i d m))) as Es.
  { unfold committed, commit_device. done. }
  split.
  - intros x Hx. rewrite E2. by apply lookup_insert_ne, not_eq_sym, Hne.
  - intros x Hx. by apply E3, Hne.
  - intros key n Hn. rewrite E4; [done|]. intros ->. congruence.
  - intros x Hx%Hne. rewrite Es. unfold ApplyMotorStatusConfigurationLocked. destruct (bus_keys _ !! _) as [b|]; [|done].
    destruct (adapter_usable _ _); [|done]. cbn [statuses set_statuses on_status set_on_status].
    destruct (status_callbacks _ !! _); [by rewrite lookup_insert_ne|by rewrite lookup_delete_ne].
  - rewrite Es. unfold ApplyMotorStatusConfigurationLocked. destruct (bus_keys _ !! _) as [b|]; [|done].
    by destruct (adapter_usable _ _).
Qed.

(** What registering the motors of [l] leaves of the tables. *)
Record Registered (l : list (Z * Z)) (ds : list nat) (m m' : Manager) (mf mf' : gmap nat Z) : Prop := {
  rg_old : forall k d, devices (objects m) !! k = Some d -> devices (objects m') !! k = Some d;
  rg_new : forall k d, devices (objects m') !! k = Some d ->
    devices (objects m) !! k = Some d \/ d ∈ ds /\ exists i flags, k = motor_key bus i /\ (i, flags) ∈ l;
  rg_found : forall i flags, (i, flags) ∈ l ->
    exists d, devices (objects m') !! motor_key bus i = Some d /\ mf' !! d = Some (WithCanFdFlag flags (CanFrameFlagsUseCanFd flags));
  rg_flags : forall d, d ∉ ds -> (forall i flags, (i, flags) ∈ l -> devices (objects m) !! motor_key bus i <> Some d) -> mf' !! d = mf !! d;
  rg_rest : Undisturbed ds m m'
}.

Lemma Reconcile_ok i flags m a q mf arr d cs :
  Ready bus bk m -> direct idx a -> fresh m d -> int_ok i -> routes (routing m) !! route_of bk i = None ->
  let canfd := CanFrameFlagsUseCanFd flags in
  exists m' a' q' d' mf' arr' ds more,
    ReconcileDiscoveredMotor bus bk i flags canfd (mkWorld m a (newest kMailbox q) fl mf al arr (Some d :: cs)) =
      (Some (Some d'), mkWorld m' a' (newest kMailbox q') fl mf' al arr' (map Some ds ++ cs)) /\
    (ds = [d] /\ m' = m /\ devices (objects m) !! motor_key bus i = Some d' \/
     ds = [] /\ d' = d /\ devices (objects m) !! motor_key bus i = None /\ m' = committed bus bk i d m) /\
    mf' = <[d' := WithCanFdFlag flags canfd]> mf /\ direct idx a' /\ wire a' = wire a ++ more /\
    Forall (fun s => s = SentDirect [firmware_query bk i (WithCanFdFlag flags canfd)]) more.
Proof.
  intros H Hd Hf Hi Hroute canfd. unfold ReconcileDiscoveredMotor. cbn [manager]. rewrite (ready_usable _ _ _ H). cbn [negb].
  destruct (devices (objects m) !! motor_key bus i) as [d'|] eqn:Ed.
  - unfold is_deleting. rewrite (rd_deleting _ _ _ H), bool_decide_false by apply not_elem_of_empty.
    exists m, a, q, d', (<[d' := WithCanFdFlag flags canfd]> mf), arr, [d], []. unfold with_motor_flags. cbn.
    split_and!; [done|by left|done|exact Hd|by rewrite app_nil_r|by apply list.Forall_nil].
  - destruct (CreateMotor_ok i (WithCanFdFlag flags canfd) canfd m a q mf arr d cs H Hd Hf Hi Hroute Ed) as (a' & q' & E & Hd' & Hw).
    rewrite E. cbn [fst snd]. rewrite with_fd_twice in *. eexists _, a', q', d, _, (tl arr), [], _.
    split; [reflexivity|]. split_and!; [by right|done|exact Hd'|exact Hw|by apply list.Forall_singleton].
Qed.

End Create.

(** ** Registering all of them *)

Section ReconcileAll.
Context (bus : nat) (bk : BusKey) (fl al : bool).
Abbreviation idx := (bk_raw_idx bk).

Lemma motor_key_inj i j : motor_key bus i = motor_key bus j -> i = j.
Proof. by intros [= ->]. Qed.

(** A registered motor has one index. *)
Lemma one_index m i j d :
  Ready bus bk m -> devices (objects m) !! motor_key bus i = Some d -> devices (objects m) !! motor_key bus j = Some d -> i = j.
Proof.
  intros H Hi Hj. pose proof (o_devices _ (t_objects _ (rd_tables _ _ _ H))) as O.
  apply O in Hi, Hj. apply motor_key_inj. congruence.
Qed.

(** One step of the loop, as [Registered]. *)
Lemma registered_one i flags m d ds ds' d' m' mf :
  Ready bus bk m -> fresh m d -> int_ok i -> routes (routing m) !! route_of bk i = None ->
  (ds' = [d] /\ m' = m /\ devices (objects m) !! motor_key bus i = Some d' \/
   ds' = [] /\ d' = d /\ devices (objects m) !! motor_key bus i = None /\ m' = committed bus bk i d m) ->
  NoDup (d :: ds) -> (forall x, x ∈ ds -> fresh m x) ->
  let mf' := <[d' := WithCanFdFlag flags (CanFrameFlagsUseCanFd flags)]> mf in
  Ready bus bk m' /\ Registered bus [(i, flags)] [d] m m' mf mf' /\ (d' ∉ ds' ++ ds) /\
  NoDup (ds' ++ ds) /\ (forall x, x ∈ ds' ++ ds -> fresh m' x) /\
  (forall key, key <> route_of bk i -> routes (routing m') !! key = routes (routing m) !! key) /\
  (forall k, k <> motor_key bus i -> devices (objects m') !! k = devices (objects m) !! k).
Proof.
  intros H Hf Hi Hroute Hcase Hnd Hfresh mf'. apply NoDup_cons in Hnd as [Hd Hnd].
  destruct Hcase as [(-> & -> & Hdev)|(-> & -> & Hdev & ->)].
  - assert (device_keys (objects m) !! d' = Some (motor_key bus i)) as Hdk by (by apply (o_devices _ (t_objects _ (rd_tables _ _ _ H)))).
    assert (forall x, fresh m x -> d' <> x) as Hne by (intros x [Hx _] ->; congruence).
    split_and!; [done| | |by apply NoDup_cons| |done|done].
    + split; [done|by left| | |].
      * intros j fj [= -> ->]%list_elem_of_singleton. exists d'. split; [done|]. subst mf'. by rewrite lookup_insert_eq.
      * intros x _ Hx. subst mf'. apply lookup_insert_ne. intros ->. by apply (Hx i flags (list_elem_of_here _ _)).
      * apply undisturbed_refl.
    + intros [->|Hin]%elem_of_cons; [by apply (Hne d)|by apply (Hne d' (Hfresh _ Hin))].
    + intros x [->|Hin]%elem_of_cons; [done|by apply Hfresh].
  - destruct (committed_spec bus bk i d m H Hf Hi Hroute Hdev) as (HR & E1 & E2 & E3 & E4).
    split_and!; [done| |done|done| |done|].
    + split.
      * intros k x Hk. rewrite E1, lookup_insert_ne by congruence. done.
      * intros k x. rewrite E1. intros [[<- <-]|[_ Hk]]%lookup_insert_Some; [right|by left].
        split; [apply list_elem_of_here|]. exists i, flags. split; [done|apply list_elem_of_here].
      * intros j fj [= -> ->]%list_elem_of_singleton. exists d. rewrite E1. subst mf'. by rewrite !lookup_insert_eq.
      * intros x Hx _. subst mf'. apply lookup_insert_ne. intros ->. apply Hx, list_elem_of_here.
      * by apply committed_undisturbed.
    + cbn [app]. intros x Hx. assert (x <> d) as Hne by (intros ->; contradiction). destruct (Hfresh x Hx) as [Fx Gx].
      split; [by rewrite E2, lookup_insert_ne by congruence|by rewrite E3].
    + intros k Hk. rewrite E1. by apply lookup_insert_ne.
Qed.

(** Steps one after the other. *)
Lemma registered_cons i flags l d ds ds' d' m m1 m2 mf mf2 :
  Ready bus bk m1 -> (forall f, (i, f) ∉ l) -> ds' ⊆ [d] ->
  let mf1 := <[d' := WithCanFdFlag flags (CanFrameFlagsUseCanFd flags)]> mf in
  Registered bus [(i, flags)] [d] m m1 mf mf1 -> devices (objects m1) !! motor_key bus i = Some d' -> d' ∉ ds' ++ ds ->
  (forall k, k <> motor_key bus i -> devices (objects m1) !! k = devices (objects m) !! k) ->
  Registered bus l (ds' ++ ds) m1 m2 mf1 mf2 -> Registered bus ((i, flags) :: l) (d :: ds) m m2 mf mf2.
Proof.
  intros HR Hi Hds mf1 [O1 N1 F1 G1 U1] Hd' Hnotin Hother [O2 N2 F2 G2 U2].
  assert (forall j f x, (j, f) ∈ l -> devices (objects m1) !! motor_key bus j = Some x -> x <> d') as Hne.
  { intros j f x Hj Hx ->. pose proof (one_index m1 i j d' HR Hd' Hx) as ->. by apply (Hi f). }
  split.
  - intros k x Hk. by apply O2, O1.
  - intros k x Hk. destruct (N2 k x Hk) as [Hk1|(Hx & j & f & -> & Hj)].
    + destruct (N1 k x Hk1) as [Hk0|(Hx & j & f & -> & Hj)]; [by left|right]. apply list_elem_of_singleton in Hx as ->.
      split; [apply list_elem_of_here|]. exists j, f. split; [done|]. apply list_elem_of_singleton in Hj as ->. apply list_elem_of_here.
    + right. split; [|exists j, f; split; [done|by apply list_elem_of_further]].
      apply elem_of_app in Hx as [Hx|Hx]; [|by apply list_elem_of_further].
      apply Hds, list_elem_of_singleton in Hx as ->. apply list_elem_of_here.
  - intros j f [[= -> ->]|Hj]%elem_of_cons; [|by apply F2]. exists d'. split; [by apply O2|].
    rewrite G2; [|done|].
    + subst mf1. by rewrite lookup_insert_eq.
    + intros j f' Hj Hx. by apply (Hne j f' d').
  - intros x Hx Hl. rewrite G2.
    + apply G1; [intros ->%list_elem_of_singleton; apply Hx, list_elem_of_here|].
      intros j f [= -> ->]%list_elem_of_singleton. apply (Hl i flags), list_elem_of_here.
    + intros [Hin|Hin]%elem_of_app; apply Hx; [|by apply list_elem_of_further].
      apply Hds, list_elem_of_singleton in Hin as ->. apply list_elem_of_here.
    + intros j f Hj. rewrite Hother; [by apply (Hl j f), list_elem_of_further|]. intros E%motor_key_inj. subst j. by apply (Hi f).
  - eapply (undisturbed_trans _ [d] (ds' ++ ds)); [| |exact U1|exact U2].
    + intros x ->%list_elem_of_singleton. apply list_elem_of_here.
    + intros x [Hx%Hds|Hx]%elem_of_app; [apply list_elem_of_singleton in Hx as ->; apply list_elem_of_here|by apply list_elem_of_further].
Qed.

Lemma reconcile_all_ok l : forall m a q mf arr ds cs,
  Ready bus bk m -> direct idx a -> NoDup (map fst l) ->
  (forall i flags, (i, flags) ∈ l -> 0 <= i <= 2046 /\ routes (routing m) !! route_of bk i = None) ->
  NoDup ds -> (forall d, d ∈ ds -> fresh m d) -> (length l <= length ds)%nat ->
  exists m' a' q' mf' arr' cs' more,
    reconcile_all bus bk l (mkWorld m a (newest kMailbox q) fl mf al arr (map Some ds ++ cs)) =
      (Some (GetMotors bus m'), mkWorld m' a' (newest kMailbox q') fl mf' al arr' cs') /\
    Ready bus bk m' /\ Registered bus l ds m m' mf mf' /\ direct idx a' /\ wire a' = wire a ++ more /\
    Forall (fun s => exists i flags, (i, flags) ∈ l /\ s = SentDirect [firmware_query bk i (WithCanFdFlag flags (CanFrameFlagsUseCanFd flags))]) more.
Proof.
  induction l as [|[i flags] l IH]; intros m a q mf arr ds cs H Hd Hnd Hl Hds Hfresh Hlen; cbn [reconcile_all].
  { exists m, a, q, mf, arr, (map Some ds ++ cs), []. split_and!; [done|done| |exact Hd|by rewrite app_nil_r|by apply list.Forall_nil].
    split; [done|by left| |done|apply undisturbed_refl]. intros i flags Hin. by apply elem_of_nil in Hin. }
  destruct ds as [|d ds]; [cbn in Hlen; lia|]. cbn [map app]. cbn [map fst] in Hnd. apply NoDup_cons in Hnd as [Hi Hnd].
  destruct (Hl i flags (list_elem_of_here _ _)) as [Hr Hroute].
  assert (int_ok i) as Hint by (unfold int_ok; lia).
  pose proof (Hfresh d (list_elem_of_here _ _)) as Hfd.
  destruct (Reconcile_ok bus bk fl al i flags m a q mf arr d (map Some ds ++ cs) H Hd Hfd Hint Hroute)
    as (m1 & a1 & q1 & d' & mf1 & arr1 & ds' & more & E & Hcase & -> & Hd1 & Hw & Hmore).
  destruct (registered_one i flags m d ds ds' d' m1 mf H Hfd Hint Hroute Hcase Hds)
    as (H1 & HR & Hnotin & Hnd1 & Hfresh1 & Hroutes & Hother); [intros x Hx; by apply Hfresh, list_elem_of_further|].
  assert (devices (objects m1) !! motor_key bus i = Some d') as Hdev1.
  { destruct Hcase as [(_ & -> & Hx)|(_ & -> & Hx & ->)]; [done|].
    destruct (committed_spec bus bk i d m H Hfd Hint Hroute Hx) as (_ & E1 & _). by rewrite E1, lookup_insert_eq. }
  assert (forall f, (i, f) ∉ l) as Hil by (intros f Hf; apply Hi, (list_elem_of_fmap_2 fst _ _ Hf)).
  assert (ds' ⊆ [d] /\ (length ds' <= 1)%nat) as [Hsub Hl'].
  { destruct Hcase as [(-> & _)|(-> & _)]; (split; [|cbn; lia]); [done|by intros ? ?%elem_of_nil]. }
  unfold mthen. rewrite E.
  rewrite (app_assoc (map Some ds')), <- map_app.
  destruct (IH m1 a1 q1 (<[d' := WithCanFdFlag flags (CanFrameFlagsUseCanFd flags)]> mf) arr1 (ds' ++ ds) cs H1 Hd1 Hnd)
    as (m2 & a2 & q2 & mf2 & arr2 & cs2 & more2 & E2 & H2 & HR2 & Hd2 & Hw2 & Hmore2); [|done|done| |].
  - intros j f Hj. destruct (Hl j f (list_elem_of_further _ _ _ Hj)) as [Hjr Hjroute]. split; [done|].
    rewrite Hroutes; [done|]. intros Er. apply route_of_inj in Er as [_ Er]; [|exact (ready_int _ _ _ H)..].
    apply u32_int in Er; [|unfold int_ok; lia|done]. subst j. by apply (Hil f).
  - cbn in Hlen. rewrite length_app. lia.
  - exists m2, a2, q2, mf2, arr2, cs2, (more ++ more2). split_and!; [exact E2|done| |exact Hd2| |].
    + by apply (registered_cons i flags l d ds ds' d' m m1 m2 mf mf2).
    + by rewrite Hw2, Hw, <- app_assoc.
    + apply list.Forall_app. split.
      * eapply list.Forall_impl; [exact Hmore|]. intros s ->. exists i, flags. split; [apply list_elem_of_here|done].
      * eapply list.Forall_impl; [exact Hmore2|]. intros s (j & f & Hj & ->). exists j, f. split; [by apply list_elem_of_further|done].
Qed.

End ReconcileAll.

(** ** The discovery *)

Lemma collect_answered packs : forall found i,
  is_Some (collect_discovery_replies packs found !! i) <->
  is_Some (found !! i) \/ exists p, p ∈ packs /\ is_discovery_reply p = true /\ id p = i.
Proof.
  unfold collect_discovery_replies. induction packs as [|p packs IH]; intros found i; cbn [fold_left].
  { split; [by left|]. intros [H|(p & Hp & _)]; [done|by apply elem_of_nil in Hp]. }
  rewrite IH. unfold collect_reply at 1. destruct (is_discovery_reply p) eqn:E.
  - destruct (decide (id p = i)) as [Hi|Hi].
    + rewrite Hi, lookup_insert_eq. split; [|left; by eexists]. intros _. right. exists p. split; [apply list_elem_of_here|done].
    + rewrite lookup_insert_ne by done. split; (intros [H|(p' & Hp & Hr & Hi')]; [by left|right; exists p'; split; [|done]]).
      * by apply list_elem_of_further.
      * by apply elem_of_cons in Hp as [->|Hp].
  - split; (intros [H|(p' & Hp & Hr & Hi')]; [by left|right; exists p'; split; [|done]]).
    + by apply list_elem_of_further.
    + apply elem_of_cons in Hp as [->|Hp]; [congruence|done].
Qed.

Section Discovery.
Context (bus : nat) (bk : BusKey).
Abbreviation idx := (bk_raw_idx bk).

(** What a scan hears, given what comes in from its first query on: the newest 512
    unrouted frames of the 682 pauses between the queries and the wait after them, then
    of the pauses and the wait of the CAN FD queries. *)
Definition first_replies (r : Routing) (arr : list (list MotorPackMsg)) : list MotorPackMsg :=
  newest kMailbox (unrouted_frames bk r (concat (take 683 arr))).
Definition found_first (r : Routing) (arr : list (list MotorPackMsg)) : gmap Z Z :=
  collect_discovery_replies (first_replies r arr) ∅.
Definition asked_again (r : Routing) (arr : list (list MotorPackMsg)) : list Z := map fst (map_to_list (found_first r arr)).
Definition second_replies (r : Routing) (arr : list (list MotorPackMsg)) : list MotorPackMsg :=
  match asked_again r arr with
  | [] => []
  | ids => newest kMailbox (unrouted_frames bk r (concat (take (S (length ids / 3)) (drop 683 arr))))
  end.
Definition found (r : Routing) (arr : list (list MotorPackMsg)) : gmap Z Z :=
  collect_discovery_replies (second_replies r arr) (found_first r arr).

Lemma found_answered r arr i :
  is_Some (found r arr !! i) <-> exists p, p ∈ first_replies r arr ++ second_replies r arr /\ is_discovery_reply p = true /\ id p = i.
Proof.
  unfold found. rewrite collect_answered. unfold found_first. rewrite collect_answered, lookup_empty. split.
  - intros [[[? H]|(p & Hp & H)]|(p & Hp & H)]; [done|exists p..]; (split; [apply elem_of_app|done]); [by left|by right].
  - intros (p & [Hp|Hp]%elem_of_app & H); [left; right|right]; by exists p.
Qed.

(** One round of queries: the chunks, the wait, the drained mailbox. *)
Lemma query_round canfd ids found0 m a fl mf al arr cs n :
  n = S (length ids / 3) -> domain_buses (routing m) !! bk = Some bus -> direct idx a ->
  (let* _ := send_discovery_queries bus bk canfd ids in
   let* _ := Sleep bus bk in
   collect bk found0)%bus (mkWorld m a [] fl mf al arr cs) =
  (Some (collect_discovery_replies (newest kMailbox (unrouted_frames bk (routing m) (concat (take n arr)))) found0),
   mkWorld m (sents a (query_batches bk canfd ids)) [] fl mf al (drop n arr) cs).
Proof.
  intros -> Hbus Hd. unfold mthen at 1, send_discovery_queries.
  change (@nil MotorPackMsg) with (newest kMailbox (@nil MotorPackMsg)) at 1.
  rewrite send_chunks_run by (done || cbn; lia). cbn [length Nat.add app].
  unfold mthen at 1. rewrite Sleep_eq by done. unfold collect, mthen, DrainUnknownMessagesLocked, mret, with_unknown.
  cbn [manager adapter unknown_messages external_device_flag motor_flags alive arrivals constructs].
  rewrite map_map. cbn [mdata]. rewrite map_id, <- unrouted_app.
  assert (forall n, concat (take n arr) ++ hd [] (drop n arr) = concat (take (S n) arr)) as Ht.
  { intros n. revert arr. induction n as [|n IH]; intros l; [destruct l; [done|]; cbn; by rewrite app_nil_r|].
    rewrite !concat_take_S, drop_S_tl, <- app_assoc, (IH (tl l)), concat_take_S. done. }
  rewrite Ht. do 2 f_equal. destruct (decide (length arr <= length ids / 3)%nat) as [Hl|Hl].
  - rewrite !drop_ge by lia. done.
  - change (tl (drop (length ids / 3) arr)) with (drop 1 (drop (length ids / 3) arr)). rewrite drop_drop. f_equal. lia.
Qed.

Lemma length_candidates : length all_candidate_ids = 2047%nat.
Proof. unfold all_candidate_ids. by rewrite length_map, length_seq. Qed.

Lemma candidate_pauses : 683%nat = S (length all_candidate_ids / 3).
Proof. by rewrite length_candidates. Qed.

Lemma discover_run m a q fl mf al arr cs :
  domain_buses (routing m) !! bk = Some bus -> direct idx a ->
  exists arr',
    discover bus bk (mkWorld m a q fl mf al arr cs) =
    (Some (found (routing m) arr),
     mkWorld m (sents a (query_batches bk false all_candidate_ids ++ query_batches bk true (map u16 (asked_again (routing m) arr))))
       [] fl mf al arr' cs).
Proof.
  intros Hbus Hd. unfold discover. pose proof candidate_pauses as Hn. revert Hn. generalize all_candidate_ids as ids0. intros ids0 Hn.
  unfold ClearUnknownMessagesLocked. unfold mthen at 1, with_unknown.
  cbn [manager adapter unknown_messages external_device_flag motor_flags alive arrivals constructs].
  pose proof (query_round false ids0 ∅ m a fl mf al arr cs 683 Hn Hbus Hd) as H1.
  fold (first_replies (routing m) arr) in H1. fold (found_first (routing m) arr) in H1.
  unfold mthen in H1 |- *.
  destruct (send_discovery_queries bus bk false ids0 _) as [[[]|] w1]; [|done].
  destruct (Sleep bus bk w1) as [[[]|] w2]; [|done]. rewrite H1. clear H1.
  unfold found, second_replies. destruct (asked_again (routing m) arr) as [|i ids] eqn:Ei; unfold asked_again in Ei; rewrite Ei.
  - exists (drop 683 arr). cbn [map]. unfold query_batches at 2. cbn [map threes]. rewrite app_nil_r. reflexivity.
  - eexists. rewrite <- sents_app.
    apply (query_round true (map u16 (i :: ids)) (found_first (routing m) arr) m
      (sents a (query_batches bk false ids0)) fl mf al (drop 683 arr) cs); [by rewrite length_map|done|by apply direct_sents].
Qed.

End Discovery.

(** ** The scan *)

Lemma detect_quiet bus bk m a q fl mf al arr cs :
  domain_buses (routing m) !! bk = Some bus -> HasRegisteredExternalDevice bus m = false ->
  DetectExternalDeviceLocked bus bk (mkWorld m a q fl mf al arr cs) =
  let detected := match unrouted_frames bk (routing m) (hd [] arr) with [] => false | _ => true end in
  (Some detected, mkWorld m a [] detected mf al (tl arr) cs).
Proof.
  intros Hbus Hext. unfold DetectExternalDeviceLocked. cbn [manager]. rewrite Hext.
  unfold mthen, ClearUnknownMessagesLocked, with_unknown.
  cbn [manager adapter unknown_messages external_device_flag motor_flags alive arrivals constructs].
  change (@nil MotorPackMsg) with (newest kMailbox (@nil MotorPackMsg)) at 1. rewrite Sleep_eq by done.
  unfold DrainUnknownMessagesLocked, with_unknown. cbn [manager adapter unknown_messages external_device_flag motor_flags alive arrivals constructs app].
  set (heard := unrouted_frames bk (routing m) (hd [] arr)).
  assert (match newest kMailbox heard with [] => heard = [] | _ => heard <> [] end) as Hn.
  { destruct heard as [|x l]; [done|]. unfold newest, kMailbox. set (n := (length (x :: l) - 512)%nat).
    assert (length (drop n (x :: l)) <> 0%nat) as Hl by (rewrite length_drop; subst n; cbn [length]; lia).
    by destruct (drop n (x :: l)). }
  destruct (newest kMailbox heard) as [|x l]; cbn [map]; [by rewrite Hn|by destruct heard].
Qed.

(** What is heard was received. *)
Lemma elem_of_drop_inv {A} n (l : list A) x : x ∈ drop n l -> x ∈ l.
Proof. intros H. rewrite <- (take_drop n l). apply elem_of_app. by right. Qed.

Lemma sublist_unrouted bk r i n (arr : list (list MotorPackMsg)) p :
  p ∈ unrouted_frames bk r (concat (take n (drop i arr))) -> p ∈ unrouted_frames bk r (concat arr).
Proof.
  intros H. rewrite <- (take_drop i arr), concat_app, unrouted_app. apply elem_of_app. right.
  rewrite <- (take_drop n (drop i arr)), concat_app, unrouted_app. apply elem_of_app. by left.
Qed.

Lemma nonnegative_ids (arr : list (list MotorPackMsg)) p : Forall (Forall (fun p => 0 <= id p)) arr -> p ∈ concat arr -> 0 <= id p.
Proof.
  intros H Hp. induction H as [|l arr Hl _ IH]; cbn [concat] in Hp; [by apply elem_of_nil in Hp|].
  apply elem_of_app in Hp as [Hp|Hp]; [|by apply IH]. rewrite list.Forall_forall in Hl. by apply Hl.
Qed.

(** C36: what a scan does on a bus in direct mode where nothing but motors speaks, while no
    other thread creates or destroys devices: it asks the indexes 0 to 2046 once each, in
    order and three at a time, with classic frames first, then those that answered again
    with CAN FD frames, and nothing else before the firmware queries of the motors it
    creates.  It returns, without an exception, the motors of the bus; an index is added
    exactly when a reply of it was among the newest 512 unrouted frames of one of the two
    waits, and the frame flags of its motor are those of its replies, with both CAN FD
    bits or none.  Every device that was registered stays so under its key, with its
    routes and its callback, and with its frame flags unless its index was heard; the
    settings of the manager stay.  (In synchronised mode the queries only queue up,
    [scan_in_sync_mode].  The order in which the found indexes are asked again and
    registered is that of a [gmap] here, unspecified in the code.) *)
Theorem scan_finds bus bk m a q mf arr ds cs :
  Ready bus bk m -> direct (bk_raw_idx bk) a -> HasRegisteredExternalDevice bus m = false ->
  unrouted_frames bk (routing m) (hd [] arr) = [] -> Forall (Forall (fun p => 0 <= id p)) arr ->
  NoDup ds -> (forall d, d ∈ ds -> fresh m d) ->
  let heard := found bk (routing m) (tl arr) in
  (size heard <= length ds)%nat ->
  exists w', ScanMotors bus bk (mkWorld m a q false mf true arr (map Some ds ++ cs)) = (Some (GetMotors bus (manager w')), w') /\
    Ready bus bk (manager w') /\ external_device_flag w' = false /\
    (exists firmware,
       wire (adapter w') = wire a ++ query_batches bk false all_candidate_ids ++
                           query_batches bk true (map u16 (asked_again bk (routing m) (tl arr))) ++ firmware /\
       Forall (fun s => exists i flags, s = SentDirect [firmware_query bk i flags]) firmware) /\
    (forall k d, devices (objects m) !! k = Some d -> devices (objects (manager w')) !! k = Some d) /\
    Undisturbed ds m (manager w') /\
    (forall k d, devices (objects m) !! k = Some d -> (d ∉ ds) /\
       ((forall i, k = motor_key bus i -> heard !! i = None) -> motor_flags w' !! d = mf !! d)) /\
    (forall k d, devices (objects (manager w')) !! k = Some d ->
       devices (objects m) !! k = Some d \/ exists i, k = motor_key bus i /\ is_Some (heard !! i)) /\
    (forall i flags, heard !! i = Some flags ->
       exists d, devices (objects (manager w')) !! motor_key bus i = Some d /\
                 motor_flags w' !! d = Some (WithCanFdFlag flags (CanFrameFlagsUseCanFd flags))) /\
    (forall i, is_Some (heard !! i) <->
       exists p, p ∈ first_replies bk (routing m) (tl arr) ++ second_replies bk (routing m) (tl arr) /\
                 is_discovery_reply p = true /\ id p = i).
Proof.
  intros H Hd Hext Hquiet Hids Hnd Hfresh heard Hsize. pose proof (rd_domain _ _ _ H) as Hbus.
  unfold ScanMotors. cbn [alive negb]. unfold mthen at 1, external_device. cbn [external_device_flag].
  rewrite detect_quiet, Hquiet by done. cbv zeta. unfold mthen.
  destruct (discover_run bus bk m a [] false mf true (tl arr) (map Some ds ++ cs) Hbus Hd) as (arr' & E). rewrite E. fold heard.
  assert (forall i flags, (i, flags) ∈ map_to_list heard -> 0 <= i <= 2046 /\ routes (routing m) !! route_of bk i = None) as Hl.
  { intros i flags Hi%elem_of_map_to_list. destruct (proj1 (found_answered bk (routing m) (tl arr) i)) as (p & Hp & Hr & <-); [by exists flags|].
    assert (p ∈ unrouted_frames bk (routing m) (concat (tl arr))) as Hu.
    { unfold first_replies, second_replies in Hp. apply elem_of_app in Hp as [Hp|Hp].
      - apply (sublist_unrouted bk (routing m) 0 683 (tl arr)). by apply elem_of_drop_inv in Hp.
      - destruct (asked_again bk (routing m) (tl arr)); [by apply elem_of_nil in Hp|].
        eapply sublist_unrouted. eapply elem_of_drop_inv, Hp. }
    apply list_elem_of_In, filter_In in Hu as [Hu Hun]. apply list_elem_of_In in Hu.
    assert (0 <= id p) by (by eapply (nonnegative_ids (tl arr)); [destruct arr; [done|by apply list.Forall_cons in Hids as [_ ?]]|]).
    unfold is_discovery_reply in Hr. apply negb_true_iff, orb_false_iff in Hr as [[[Hr _]%orb_false_iff _]%orb_false_iff _].
    apply Z.ltb_ge in Hr. split; [lia|]. apply (unrouted_free bus); [done|done|lia]. }
  destruct (reconcile_all_ok bus bk false true (map_to_list heard) m
    (sents a (query_batches bk false all_candidate_ids ++ query_batches bk true (map u16 (asked_again bk (routing m) (tl arr)))))
    [] mf arr' ds cs) as (m' & a' & q' & mf' & arr2 & cs' & firmware & ER & H' & [O N F G U] & _ & Hw & Hfw);
    [done|done|apply NoDup_fst_map_to_list|exact Hl|done|done|by rewrite length_map_to_list|].
  rewrite (newest_all kMailbox (@nil MotorPackMsg)) in ER by (cbn; lia).
  exists (mkWorld m' a' (newest kMailbox q') false mf' true arr2 cs'). split; [exact ER|]. cbn [manager adapter external_device_flag motor_flags]. split_and!; try done.
  - exists firmware. split; [rewrite Hw; unfold sents; cbn [wire]; by rewrite <- !app_assoc|]. eapply list.Forall_impl; [exact Hfw|]. intros s (i & flags & _ & ->). by eexists _, _.
  - intros k d Hk. apply (o_devices _ (t_objects _ (rd_tables _ _ _ H))) in Hk.
    assert (d ∉ ds) as Hnew by (intros [Hx _]%Hfresh; congruence). split; [done|]. intros Hunheard. apply G; [done|].
    intros i flags Hi%elem_of_map_to_list Hx. apply (o_devices _ (t_objects _ (rd_tables _ _ _ H))) in Hx.
    assert (k = motor_key bus i) as Ek by congruence. rewrite (Hunheard i Ek) in Hi. done.
  - intros k d Hk. destruct (N k d Hk) as [|(_ & i & flags & -> & Hi%elem_of_map_to_list)]; [by left|right]. exists i. split; [done|by exists flags].
  - intros i flags Hi. by apply F, elem_of_map_to_list.
  - intros i. apply found_answered.
Qed.

(** ** Examples *)

Lemma scan_example_ready : Ready 10 (mkBusKey 1 0) example_motor.
Proof.
  split; [apply example_motor_tables|vm_compute; reflexivity..| |vm_compute; reflexivity|].
  - assert (resetting_buses (objects example_motor) = ∅) as -> by (vm_compute; reflexivity). apply not_elem_of_empty.
  - assert (map_Forall (fun _ n => match records (routing example_motor) !! n with Some rr => rr_callback rr | None => true end = true)
      (routes (routing example_motor))) as Hall.
    { apply (bool_decide_unpack _). vm_compute. exact I. }
    intros key n rr Hk Hr. specialize (Hall key n Hk). cbv beta in Hall. by rewrite Hr in Hall.
Qed.

Definition discovery_reply (i flags : Z) : MotorPackMsg := mkPack i flags 6 [160; 1; 0; 0; 0; 0; 0; 0].
(** Index 7 answers both rounds. *)
Definition example_arrivals : list (list MotorPackMsg) :=
  [] :: [discovery_reply 7 0] :: replicate 682 [] ++ [[discovery_reply 7 kCanFrameFlagFdMask]].
Definition example_scan : World :=
  mkWorld example_motor (new_adapter []) [] false ∅ true example_arrivals (map Some [30%nat] ++ []).

Lemma scan_finds_witness :
  exists w', ScanMotors 10 (mkBusKey 1 0) example_scan = (Some (GetMotors 10 (manager w')), w') /\
    exists d, devices (objects (manager w')) !! motor_key 10 7 = Some d /\ motor_flags w' !! d = Some kCanFrameFlagFdMask.
Proof.
  destruct (scan_finds 10 (mkBusKey 1 0) example_motor (new_adapter []) [] ∅ example_arrivals [30%nat] [])
    as (w' & E & _ & _ & _ & _ & _ & _ & _ & H & _).
  - apply scan_example_ready.
  - split; reflexivity.
  - vm_compute; reflexivity.
  - vm_compute; reflexivity.
  - unfold example_arrivals. apply list.Forall_cons. split; [by apply list.Forall_nil|]. apply list.Forall_cons. split; [by apply list.Forall_singleton|].
    apply list.Forall_app. split; [apply list.Forall_replicate, list.Forall_nil_2|]. by apply list.Forall_singleton, list.Forall_singleton.
  - apply NoDup_singleton.
  - intros d ->%list_elem_of_singleton. split; vm_compute; reflexivity.
  - apply Nat.leb_le. vm_compute. reflexivity.
  - exists w'. split; [exact E|]. apply (H 7 kCanFrameFlagFdMask). vm_compute. reflexivity.
Defined.

(** In synchronised mode the queries only queue up: nothing goes out, and nobody can answer. *)
Example scan_in_sync_mode :
  let w := with_adapter (snd (SetBusSyncMode 0 true (new_adapter []))) example_scan in
  let w' := snd (ScanMotors 10 (mkBusKey 1 0) (with_arrivals [] w)) in
  wire (adapter w') = [] /\ length (bulk_queue (SyncQueue.buses (adapter w') 0)) = 2047%nat /\
  GetMotors 10 (manager w') = [(5, 20%nat)].
Proof. split_and!; vm_compute; reflexivity. Qed.
