(* ===== verification/SetIdManager.v ===== *)
(** * SetIdManager: Motor::SetId with the driver manager it calls

    [MotorParameter.SetId] is proved against the interface [MotorIndexManager]; here
    the interface is implemented by the tables of [DriverManager], and the index the
    motor believes it has is the one its frames are routed by.  What happens to the
    manager in other threads while the motor's answer is awaited is left out. *)
From stdpp Require Import base list numbers option gmap.
From Stdlib Require Import ZArith Lia.
From S2P Require Import Prelude Types.
From S2P Require Import StatusCache MotorLog Motor.
From S2P Require Import MotorParameter.
From S2P Require Import DriverManager.
From S2P Require Import ManagerTables.
From S2P Require Import ManagerDispatch.
From S2P Require Import ManagerRefinement.
#[local] Open Scope Z_scope.

(** The manager as the motor at address [motor] uses it. *)
Definition manager_of (motor : nat) : MotorIndexManager Manager := {|
  MotorParameter.ReserveMotorIndex n m := DriverManager.ReserveMotorIndex motor n m;
  MotorParameter.ReleaseMotorIndexReservation n m := DriverManager.ReleaseMotorIndexReservation motor n m;
  MotorParameter.MigrateMotorIndex n m := DriverManager.MigrateMotorIndex motor n m
|}.

Definition SetIdWith (motor : nat) (n : Z) (wait_for_ack : bool) : M Manager bool :=
  @SetId Manager (manager_of motor) n wait_for_ack.

(** ** The exchange leaves the manager alone *)

Lemma RunEnv_mgr {S} l (w : World S) : w_mgr (RunEnv l w) = w_mgr w.
Proof. revert w. induction l as [|a l IH]; intros w; [done|].
  change (w_mgr (RunEnv l (RunEnvAction a w)) = w_mgr w). rewrite IH.
  destruct a; cbn [RunEnvAction]; [|done..]. by destruct (OnMessage _ _ _) as [[? ?] ?].
Qed.

Lemma SendMessageLocked_mgr {S} message (w : World S) : w_mgr (snd (SendMessageLocked message w)) = w_mgr w.
Proof. unfold SendMessageLocked. repeat (case_match; try done). Qed.

Lemma next_wait_mgr {S} (w : World S) : w_mgr (snd (next_wait w)) = w_mgr w.
Proof. unfold next_wait. by destruct (w_waits w). Qed.

Lemma SendAndWait_mgr {S} message checker (w : World S) : w_mgr (snd (SendAndWait message checker w)) = w_mgr w.
Proof.
  unfold SendAndWait, mbind.
  assert (forall ck ct wr, w_mgr (snd (SendAndWaitErased message ck ct wr w)) = w_mgr w) as H.
  { intros ck ct wr. unfold SendAndWaitErased. destruct (m_rejecting_waiters (w_impl w)); [done|].
    pose proof (next_wait_mgr w) as Hn. destruct (next_wait w) as [script w0]. cbn in Hn.
    match goal with |- context [SendMessageLocked message ?x] =>
      pose proof (SendMessageLocked_mgr message x) as Hs; rewrite RunEnv_mgr in Hs;
      destruct (SendMessageLocked message x) as [[] w1] end; cbn in Hs |- *; rewrite ?RunEnv_mgr; cbn; congruence. }
  specialize (H (fun i p => Some (checker i p)) (ContentPack (mkPack 0 0 0 (replicate 8 0)))
                (fun received _ => ContentPack received)).
  destruct (SendAndWaitErased _ _ _ _ w) as [[[ok content]|e|] w']; exact H.
Qed.

(** ** Reserve, then release or migrate *)

Definition new_key_of (old : DeviceKey) (n : Z) : DeviceKey := motor_key (dk_bus old) n.

(** A reservation that is released leaves the tables as they were. *)
Lemma reserve_release m motor n old m' :
  Tables m -> int_ok n -> device_keys (objects m) !! motor = Some old ->
  motor_index_reservations (statuses m) !! new_key_of old n = None ->
  DriverManager.ReserveMotorIndex motor n m = (true, m') ->
  DriverManager.ReleaseMotorIndexReservation motor n m' = m.
Proof.
  intros HT Hn Hold Hnone E. pose proof (reserve_ok motor n m HT Hn) as H. rewrite E in H.
  inversion H as [|old' H1 H2 H3|old' v H1 H2 H3|old' bk reg e cb install Hm H1 H2 H3 H4]; subst;
    unfold DriverManager.ReleaseMotorIndexReservation, new_key_of in *.
  - assert (old' = old) as -> by congruence. rewrite Hold, Hnone. done.
  - congruence.
  - assert (old' = old) as -> by (pose proof (mv_key _ _ _ _ _ _ _ Hm); congruence).
    unfold reserve. cbn [objects set_statuses set_routing]. rewrite Hold. cbn [statuses set_statuses motor_index_reservations set_index_reservations].
    rewrite lookup_insert_eq. cbn [rv_motor]. rewrite bool_decide_true by done.
    rewrite (mv_bus _ _ _ _ _ _ _ Hm). cbn [routing set_statuses set_routing motor_route_reservations set_route_reservations].
    rewrite lookup_insert_eq, bool_decide_true by done.
    destruct m as [o r s]. unfold set_statuses, set_routing, set_index_reservations, set_route_reservations. cbn in *.
    rewrite !delete_insert_id by done. by destruct r, s.
Qed.

(** What a completed move leaves in the manager. *)
Record MovedTo (m : Manager) (motor : nat) (key : DeviceKey) : Prop := {
  mt_device : devices (objects m) !! key = Some motor;
  mt_key : device_keys (objects m) !! motor = Some key;
  mt_index_free : motor_index_reservations (statuses m) !! key = None;
  mt_listens : listens_to (desk (routing m)) motor (dk_idx key)
}.

Lemma reservation_not_in_use m key motor :
  Tables m -> devices (objects m) !! key = Some motor -> motor_index_reservations (statuses m) !! key = None.
Proof.
  intros HT Hd. destruct (motor_index_reservations (statuses m) !! key) as [v|] eqn:E; [|done].
  destruct (v_index _ _ _ (t_reservations _ HT) _ _ E) as (k0 & bk & _ & _ & _ & _ & _ & _ & _ & H). congruence.
Qed.

Lemma moved_to m motor n old :
  Tables m -> device_keys (objects m) !! motor = Some old -> dk_kind old = KMotor -> motor_key (dk_bus old) n = old ->
  MovedTo m motor old.
Proof.
  intros HT Hd Hk Eo. constructor; [by apply (o_devices _ (t_objects _ HT))|done| |].
  - eapply reservation_not_in_use; [done|]. by apply (o_devices _ (t_objects _ HT)).
  - rewrite <- Eo. cbn. by eapply own_index.
Qed.

Lemma migrate_moves m motor n old m' :
  Tables m -> int_ok n -> device_keys (objects m) !! motor = Some old -> dk_kind old = KMotor ->
  DriverManager.MigrateMotorIndex motor n m = (true, m') ->
  Tables m' /\ MovedTo m' motor (new_key_of old n).
Proof.
  intros HT Hn Hold Hk E. pose proof (migrate_ok motor n m) as H. pose proof (tables_migrate motor n m _ HT Hn H) as HT'.
  rewrite E in H, HT'. cbn [snd] in HT'. split; [done|]. unfold new_key_of.
  assert (Hkey : device_keys (objects m') !! motor = Some (motor_key (dk_bus old) n)).
  { inversion H as [|old' H1 H2 H3|old' bk reg e cb install HM H1 H2 H3 H4]; subst.
    - assert (old' = old) as -> by congruence. by rewrite H3.
    - assert (old' = old) as -> by (pose proof (mv_key _ _ _ _ _ _ _ HM); congruence).
      destruct (migrated_eq m motor n old bk reg e cb install HT HM) as (_ & E2 & _). rewrite E2. apply lookup_insert_eq. }
  by eapply moved_to.
Qed.

Lemma release_moved m motor key n :
  dk_idx key = n -> key = motor_key (dk_bus key) n ->
  MovedTo m motor key -> DriverManager.ReleaseMotorIndexReservation motor n m = m.
Proof.
  intros En Ek HM. unfold DriverManager.ReleaseMotorIndexReservation. rewrite (mt_key _ _ _ HM).
  rewrite <- Ek, (mt_index_free _ _ _ HM). done.
Qed.

(** A reservation just taken is enough to migrate, when nothing changes the manager in
    between. *)
Lemma reserve_migrate m motor n m' :
  Tables m -> int_ok n ->
  (forall old v, device_keys (objects m) !! motor = Some old ->
     motor_index_reservations (statuses m) !! new_key_of old n = Some v -> rv_motor v <> motor) ->
  DriverManager.ReserveMotorIndex motor n m = (true, m') ->
  fst (DriverManager.MigrateMotorIndex motor n m') = true.
Proof.
  intros HT Hn Hother E. pose proof (reserve_ok motor n m HT Hn) as H. rewrite E in H.
  unfold DriverManager.ReserveMotorIndex in E. unfold DriverManager.MigrateMotorIndex.
  inversion H as [|old' H1 H2 H3|old' v H1 H2 H3|old' bk reg e cb install Hm H1 H2 H3 H4]; subst m'.
  - rewrite H1, (bool_decide_true (dk_kind old' = KMotor)) in E |- * by done. rewrite H3, bool_decide_true by done.
    cbn [negb orb] in E |- *. by destruct (is_deleting motor m).
  - by destruct (Hother old' v H1 H2).
  - destruct (movable_entry _ _ _ _ _ _ _ HT Hm) as (_ & _ & _ & Hr & _).
    pose proof Hm as [V1 V2 V3 V4 V5 V6 V7 V8]. rewrite V1 in E. cbn [reserve objects statuses routing set_statuses set_routing].
    rewrite V1. change (is_deleting ?x (reserve _ _ _ _ _ _)) with (is_deleting x m).
    destruct (_ || is_deleting motor m); [done|]. rewrite bool_decide_false in E by done. rewrite bool_decide_false by done.
    rewrite V4 in E |- *. cbn [motor_index_reservations set_index_reservations]. rewrite V5, lookup_insert_eq. cbn [rv_motor].
    rewrite (bool_decide_true (motor = motor)) by done. rewrite (bool_decide_false (is_Some None)) by (by intros [? ?]).
    change (is_deleting ?x (reserve _ _ _ _ _ _)) with (is_deleting x m).
    destruct (_ || is_deleting (bk_adapter bk) m); [done|]. cbn [routes motor_route_reservations set_route_reservations registrations].
    rewrite V6, lookup_insert_eq, V7. destruct reg as [ra rb routes' rc]. cbn in V8. subst routes'. cbn [re_key] in Hr.
    rewrite (bool_decide_false (is_Some None)) by (by intros [? ?]). rewrite (bool_decide_true (motor = motor)) by done.
    cbn [negb orb]. rewrite bool_decide_true by (by eexists). done.
Qed.

(** An index another motor has, or has reserved, is refused. *)
Lemma reserve_taken m motor n old :
  Tables m -> int_ok n -> device_keys (objects m) !! motor = Some old ->
  (forall v, motor_index_reservations (statuses m) !! new_key_of old n = Some v -> rv_motor v <> motor) ->
  is_Some (motor_index_reservations (statuses m) !! new_key_of old n) \/
    (exists other, devices (objects m) !! new_key_of old n = Some other /\ other <> motor) ->
  DriverManager.ReserveMotorIndex motor n m = (false, m).
Proof.
  intros HT Hn Hold Hother Htaken. pose proof (reserve_ok motor n m HT Hn) as H.
  destruct (DriverManager.ReserveMotorIndex motor n m) as [reserved m1]. unfold new_key_of in *.
  inversion H as [|old' H1 H2 H3|old' v H1 H2 H3|old' bk reg e cb install Hm H1 H2 H3 H4]; subst; [done| | |]; exfalso.
  - assert (old' = old) as -> by congruence. rewrite H3 in Htaken. pose proof Hold as Hd. apply (o_devices _ (t_objects _ HT)) in Hd.
    rewrite (reservation_not_in_use _ old motor HT Hd), Hd in Htaken. destruct Htaken as [[? ?]|(other & [= ->] & ?)]; done.
  - assert (old' = old) as -> by congruence. by destruct (Hother v H2).
  - pose proof Hm as [V1 _ _ _ V5 _ _ _]. assert (old' = old) as -> by congruence. rewrite H1, V5 in Htaken.
    destruct Htaken as [[? ?]|(other & ? & ?)]; done.
Qed.

(** C15: [SetId], the motor and the manager together.  With acknowledgement it returns
    [true] exactly when the index could be reserved and the motor acknowledged; then the
    motor is registered under the new index and only there, it listens to the new CAN id
    and nothing else, no reservation is left, and the motor's own index is the new one.
    In every other case - the index is refused, the wait times out, the writer throws -
    the manager's tables are exactly as before and the motor keeps its index; and an
    index that another motor has or has reserved is refused with nothing sent.  Without
    acknowledgement it sends the same frame and returns [true] without asking the
    manager: tables and index stay as they were, whatever the motor does.  The tables
    stay consistent.  This is for a motor with no other [SetId] of its own in progress,
    while no other thread changes the manager. *)
Theorem SetId_moves_motor (motor : nat) (w : World Manager) (n : Z) (wait_for_ack : bool) (old : DeviceKey) :
  Tables (w_mgr w) -> 0 <= n < 65536 -> w_registered w = true -> m_bus (w_impl w) = true ->
  device_keys (objects (w_mgr w)) !! motor = Some old -> dk_kind old = KMotor -> dk_idx old = m_idx (w_impl w) ->
  (forall v, motor_index_reservations (statuses (w_mgr w)) !! new_key_of old n = Some v -> rv_motor v <> motor) ->
  let r := SetIdWith motor n wait_for_ack w in
  let m' := w_mgr (snd r) in
  let request := SetIdMessage (m_idx (w_impl w)) n in
  let reserved := DriverManager.ReserveMotorIndex motor n (w_mgr w) in
  Tables m' /\
  if wait_for_ack then
    (fst r = Ok true <-> fst reserved = true /\
       exists ack, fst (SendAndWait request (fun _ pack => SetIdAckMatches n pack) (with_mgr (snd reserved) w)) = Ok (Some ack)) /\
    (fst r = Ok true -> MovedTo m' motor (new_key_of old n) /\ m_idx (w_impl (snd r)) = n) /\
    (fst r <> Ok true -> m' = w_mgr w /\ m_idx (w_impl (snd r)) = m_idx (w_impl w)) /\
    (is_Some (motor_index_reservations (statuses (w_mgr w)) !! new_key_of old n) \/
       (exists other, devices (objects (w_mgr w)) !! new_key_of old n = Some other /\ other <> motor) ->
     r = (Ok false, w))
  else
    snd r = snd (SendMessageLocked request w) /\ m' = w_mgr w /\ m_idx (w_impl (snd r)) = m_idx (w_impl w) /\
    (hd false (w_faults w) = false -> fst r = Ok true).
Proof.
  intros HT Hn16 Hreg Hbus Hold Hk Hidx Hother. cbv zeta.
  assert (Hn : int_ok n) by (unfold int_ok; lia).
  unfold SetIdWith, SetId, mbind, AcquireDeviceOperation, mget, mret, mgr_call, scope_exit.
  rewrite Hreg, Hbus. cbn [negb MotorParameter.ReserveMotorIndex MotorParameter.ReleaseMotorIndexReservation MotorParameter.MigrateMotorIndex manager_of].
  destruct wait_for_ack; cbn [negb].
  2:{ pose proof (SendMessageLocked_mgr (SetIdMessage (m_idx (w_impl w)) n) w) as Hm.
    pose proof (SendMessageLocked_ok (SetIdMessage (m_idx (w_impl w)) n) w) as Hok.
    pose proof (SendMessageLocked_impl (SetIdMessage (m_idx (w_impl w)) n) w) as [Hi _].
    destruct (SendMessageLocked _ w) as [[[]|e|] w1]; cbn in *; rewrite Hm, Hi; split_and!; try done; intros H; by destruct (Hok H). }
  pose proof (reserve_taken (w_mgr w) motor n old HT Hn Hold Hother) as Htaken.
  destruct (DriverManager.ReserveMotorIndex motor n (w_mgr w)) as [[] s1] eqn:Er.
  2:{ pose proof (reserve_ok motor n _ HT Hn) as H. rewrite Er in H. inversion H. subst. cbn. destruct w; split_and!; try done.
    split; [done|by intros [? _]]. }
  assert (Hnone : motor_index_reservations (statuses (w_mgr w)) !! new_key_of old n = None).
  { apply eq_None_not_Some. intros Hs. by specialize (Htaken (or_introl Hs)). }
  assert (Hnot : ~ exists other, devices (objects (w_mgr w)) !! new_key_of old n = Some other /\ other <> motor).
  { intros Hs. by specialize (Htaken (or_intror Hs)). }
  clear Htaken. cbn [negb fst snd]. pose proof (reserve_release _ motor n old s1 HT Hn Hold Hnone Er) as Hrel.
  assert (Hs1 : Tables s1 /\ device_keys (objects s1) = device_keys (objects (w_mgr w))).
  { pose proof (reserve_ok motor n _ HT Hn) as H. pose proof (tables_reserve motor n _ _ HT Hn H) as HT1. rewrite Er in H, HT1.
    split; [done|]. by inversion H. }
  destruct Hs1 as [HT1 Ek1].
  assert (Hmig : fst (DriverManager.MigrateMotorIndex motor n s1) = true).
  { eapply reserve_migrate; [exact HT|exact Hn| |exact Er]. intros old' v Ho. assert (old' = old) as -> by congruence. apply Hother. }
  match goal with |- context [SendAndWait ?q ?ck ?x] =>
    pose proof (SendAndWait_idx x q ck) as Hi; pose proof (SendAndWait_mgr q ck x) as Hm;
    destruct (SendAndWait q ck x) as [[[f|]|e|] w1] end; cbn in Hi, Hm; rewrite ?Hm.
  2-4: cbn; rewrite ?Hm, Hrel; split_and!; try done;
    [split; [done|by intros (_ & ? & ?)] | rewrite Hnone; intros [[? ?]|?]; done].
  destruct (DriverManager.MigrateMotorIndex motor n s1) as [[] s2] eqn:Em; [cbn|done].
  destruct (migrate_moves s1 motor n old s2 HT1 Hn) as [HT2 HM]; [by rewrite Ek1|done|done|].
  rewrite (release_moved s2 motor (new_key_of old n) n) by done. split_and!; try done.
  - split; [|done]. intros _. split; [done|by eexists].
  - rewrite Hnone. intros [[? ?]|?]; done.
Qed.

(** Two motors on a bus, 20 at the index 5 and 22 at the index 6, which has reserved the
    index 7. *)
Definition two_motors : Manager :=
  commit_device (motor_key 10 6) 22 (publish_or_keep 22 10 (mkRecipe [6] false true false) example_motor).
Definition contended_manager : Manager := snd (DriverManager.ReserveMotorIndex 22 7 two_motors).

Lemma contended_tables : Tables contended_manager.
Proof.
  assert (Tables two_motors) as HT.
  { apply tables_commit; [|done|done|by eexists|].
    - apply tables_publish_or_keep; [apply example_motor_tables|done].
    - intros _. split; [done|]. split; [done|]. intros reg Hreg. vm_compute in Hreg. injection Hreg as <-.
      split; [done|]. exists 1%nat, (mkBusKey 1 0). done. }
  assert (int_ok 7) as H7 by done. exact (tables_reserve 22 7 two_motors _ HT H7 (reserve_ok 22 7 two_motors HT H7)).
Qed.

(** Motor 20 moves to the index 9 when it acknowledges; asked for the index 7 it sends
    nothing. *)
Definition asked_motor (m : Manager) : World Manager :=
  mkWorld (new_motor 5 6 true example_ranges) [] [] [] [mkScript [] [Rx (make_pack 2047 4 [0; 9; 1; 4])]]
    (mkLogEnv [] [] 0) true m.

Lemma SetId_moves_motor_witness :
  MovedTo (w_mgr (snd (SetIdWith 20 9 true (asked_motor contended_manager)))) 20 (motor_key 10 9) /\
  SetIdWith 20 7 true (asked_motor contended_manager) = (Ok false, asked_motor contended_manager).
Proof.
  split.
  - destruct (SetId_moves_motor 20 (asked_motor contended_manager) 9 true (motor_key 10 5)) as (_ & _ & H & _);
      [apply contended_tables|done..|intros v Hv; vm_compute in Hv; discriminate Hv|].
    apply H. vm_compute. reflexivity.
  - destruct (SetId_moves_motor 20 (asked_motor contended_manager) 7 true (motor_key 10 5)) as (_ & _ & _ & _ & H);
      [apply contended_tables|done..|intros v Hv; vm_compute in Hv; injection Hv as <-; discriminate|].
    apply H. left. eexists. vm_compute. reflexivity.
Defined.

(** ** The status callback of a motor follows its index *)

(** Every motor reports to the callback configured for its bus and index. *)
Definition Callbacks (m : Manager) : Prop :=
  forall motor k bk, device_keys (objects m) !! motor = Some k -> dk_kind k = KMotor ->
    bus_keys (objects m) !! dk_bus k = Some bk ->
    on_status (statuses m) !! motor = status_callbacks (statuses m) !! route_of bk (dk_idx k).

(** The callback a reservation remembers is the one to install now. *)
Definition fresh_reservation (m : Manager) (motor : nat) (n : Z) : Prop :=
  forall old bk v reg e, device_keys (objects m) !! motor = Some old -> bus_keys (objects m) !! dk_bus old = Some bk ->
    motor_index_reservations (statuses m) !! motor_key (dk_bus old) n = Some v ->
    registrations (routing m) !! motor = Some reg -> rg_routes reg = [e] ->
    (rv_callback v, rv_install_callback v) =
      callback_for (status_callbacks (statuses m) !! route_of bk n) (status_callbacks (statuses m) !! re_key e).

Lemma route_of_motor m motor motor' k k' bk bk' :
  Tables m -> device_keys (objects m) !! motor = Some k -> device_keys (objects m) !! motor' = Some k' ->
  dk_kind k = KMotor -> dk_kind k' = KMotor ->
  bus_keys (objects m) !! dk_bus k = Some bk -> bus_keys (objects m) !! dk_bus k' = Some bk' ->
  route_of bk (dk_idx k) = route_of bk' (dk_idx k') -> motor = motor'.
Proof.
  intros HT Hd Hd' Hk Hk' Hb Hb' E. pose proof HT as [[O1 O2 O3] _ _ HM _].
  destruct (HM motor k Hd Hk) as (E1 & I1 & _). destruct (HM motor' k' Hd' Hk') as (E2 & I2 & _).
  apply route_of_inj in E as [<- Eid]; [|by eapply O3|by eapply O3]. apply u32_int in Eid; [|done|done].
  assert (dk_bus k = dk_bus k') as Ebus by (eapply bus_keys_inj; [by constructor|done..]).
  assert (k = k') as <- by (rewrite E1, E2; congruence).
  apply O1 in Hd, Hd'. congruence.
Qed.

Lemma callbacks_migrate m motor n :
  Tables m -> int_ok n -> Callbacks m -> fresh_reservation m motor n ->
  Callbacks (snd (DriverManager.MigrateMotorIndex motor n m)).
Proof.
  intros HT Hn HC Hfresh. pose proof (migrate_ok motor n m) as H.
  destruct (DriverManager.MigrateMotorIndex motor n m) as [b m']. cbn [snd].
  inversion H as [|old H1 H2 H3|old bk reg e cb install HM Hres Hrres Hroute Hcb]; subst; [done..|].
  destruct (movable_entry _ _ _ _ _ _ _ HT HM) as (_ & _ & He & _ & Hnew & _).
  pose proof HM as [V1 V2 V3 V4 V5 V6 V7 V8].
  assert (Ecb : (cb, install) = callback_for (status_callbacks (statuses m) !! route_of bk n) (status_callbacks (statuses m) !! re_key e)).
  { rewrite Hcb. destruct (motor_index_reservations (statuses m) !! _) as [v|] eqn:Ev; [|done]. by eapply Hfresh. }
  clear H Hcb. assert (Hold : on_status (statuses m) !! motor = status_callbacks (statuses m) !! re_key e)
    by (rewrite He; by apply (HC motor old bk)).
  intros x k bx. unfold commit_migration.
  cbn [objects statuses device_keys bus_keys set_devices status_callbacks set_index_reservations set_status_callbacks].
  match goal with |- context [on_status ?s] => set (s' := s) end.
  assert (Hs' : on_status s' = if install then match cb with Some c => <[motor := c]> (on_status (statuses m))
      | None => delete motor (on_status (statuses m)) end else on_status (statuses m)) by (by destruct install).
  rewrite Hs'. clear s' Hs'.
  intros [[<- <-]|[Hne Hx]]%lookup_insert_Some Hk Hb.
  - cbn in Hb |- *. assert (bx = bk) as -> by congruence.
    unfold callback_for in Ecb. case_bool_decide as Ht.
    + destruct Ht as [c Hc]. rewrite Hc in Ecb. injection Ecb as -> ->.
      rewrite lookup_insert_eq, lookup_delete_ne by done. done.
    + apply eq_None_not_Some in Ht. rewrite Ht in Ecb. unfold rekey.
      destruct (status_callbacks (statuses m) !! re_key e) as [c|] eqn:Ec; injection Ecb as -> ->.
      * rewrite lookup_delete_ne, Ht, !lookup_insert_eq by done. done.
      * by rewrite Hold, Ht.
  - assert (Hx' : status_callbacks (statuses m) !! route_of bx (dk_idx k) =
      (if bool_decide (is_Some (status_callbacks (statuses m) !! route_of bk n))
       then delete (re_key e) (status_callbacks (statuses m))
       else rekey (re_key e) (route_of bk n) (status_callbacks (statuses m))) !! route_of bx (dk_idx k)).
    { assert (re_key e <> route_of bx (dk_idx k)) as N1.
      { rewrite He. cbn. intros E. apply Hne. by eapply (route_of_motor m motor x old k bk bx). }
      assert (route_of bk n <> route_of bx (dk_idx k)) as N2.
      { intros E. pose proof HT as [[O1 O2 O3] _ _ HMo _]. destruct (HMo x k Hx Hk) as (E1 & I1 & _).
        apply route_of_inj in E as [<- Eid]; [|by eapply O3|by eapply O3]. apply u32_int in Eid; [|done|done].
        assert (dk_bus k = dk_bus old) as Ebus by (eapply bus_keys_inj; [by constructor|done..]).
        apply O1 in Hx. rewrite E1, Ebus, <- Eid in Hx. congruence. }
      case_bool_decide; [by rewrite lookup_delete_ne|]. unfold rekey.
      destruct (status_callbacks (statuses m) !! re_key e); [|done].
      destruct (delete (re_key e) _ !! route_of bk n); [by rewrite lookup_delete_ne|].
      by rewrite lookup_insert_ne, lookup_delete_ne. }
    rewrite <- Hx', <- (HC x k bx Hx Hk Hb). destruct install; [|done].
    destruct cb; [by rewrite lookup_insert_ne|by rewrite lookup_delete_ne].
Qed.

Lemma callbacks_configure adapter raw idx callback m :
  Tables m -> int_ok raw -> int_ok idx -> Callbacks m ->
  Callbacks (ConfigureAdapterStatusCallback adapter raw idx callback m).
Proof.
  intros HT Hraw Hidx HC. unfold ConfigureAdapterStatusCallback. destruct (adapter_usable adapter m); [|done].
  set (key := route_of (mkBusKey adapter raw) idx).
  intros motor k bk. cbn [objects set_statuses]. intros Hd Hk Hb. pose proof (HC motor k bk Hd Hk Hb) as Hold.
  pose proof HT as [[O1 O2 O3] _ _ HM _]. destruct (HM motor k Hd Hk) as (E1 & I1 & _).
  destruct (decide (route_of bk (dk_idx k) = key)) as [E|Hne].
  - apply route_of_inj in E as [-> Eid]; [|by eapply O3|done]. apply u32_int in Eid; [|done|done].
    pose proof Hb as Hb'. apply O2 in Hb'. rewrite Hb'.
    pose proof Hd as Hd'. apply O1 in Hd'. rewrite E1, Eid in Hd'. rewrite Hd', Eid.
    destruct callback; cbn; rewrite ?lookup_insert_eq, ?lookup_delete_eq; done.
  - assert (forall b motor', buses (objects m) !! mkBusKey adapter raw = Some b ->
      devices (objects m) !! motor_key b idx = Some motor' -> motor' <> motor) as Hother.
    { intros b motor' Hbm Hm ->. apply O1 in Hm. assert (k = motor_key b idx) as -> by congruence. apply O2 in Hbm.
      cbn in *. apply Hne. unfold key. congruence. }
    transitivity (on_status (statuses m) !! motor).
    + destruct (buses (objects m) !! mkBusKey adapter raw) as [b|] eqn:Eb; [|by destruct callback].
      destruct (devices (objects m) !! motor_key b idx) as [motor'|] eqn:Em; [|by destruct callback].
      pose proof (Hother b motor' eq_refl Em) as N.
      destruct callback; cbn; [by rewrite lookup_insert_ne|by rewrite lookup_delete_ne].
    + rewrite Hold. destruct (buses (objects m) !! _) as [b|]; [destruct (devices (objects m) !! _)|];
        destruct callback; cbn; rewrite ?lookup_insert_ne, ?lookup_delete_ne by done; done.
Qed.

(** A reservation taken now is fresh. *)
Lemma reserve_fresh motor n m m' :
  Tables m -> int_ok n ->
  (forall old, device_keys (objects m) !! motor = Some old ->
     motor_index_reservations (statuses m) !! motor_key (dk_bus old) n = None) ->
  DriverManager.ReserveMotorIndex motor n m = (true, m') ->
  fresh_reservation m' motor n /\ (Callbacks m -> Callbacks m').
Proof.
  intros HT Hn Hnone E. pose proof (reserve_ok motor n m HT Hn) as H. rewrite E in H.
  inversion H as [|old' H1 H2 H3|old' v H1 H2 H3|old' bk reg e cb install Hm H1 H2 H3 H4]; subst.
  - split; [|done]. intros old bk v reg e Hd _ Hv. rewrite (Hnone old Hd) in Hv. done.
  - rewrite (Hnone old' H1) in H2. done.
  - split; [|done]. intros old bk' v reg' e'. unfold reserve. cbn.
    pose proof (mv_key _ _ _ _ _ _ _ Hm) as Hk. pose proof (mv_bus _ _ _ _ _ _ _ Hm) as Hb.
    pose proof (mv_registered _ _ _ _ _ _ _ Hm) as Hr. pose proof (mv_entry _ _ _ _ _ _ _ Hm) as He.
    intros Hd Hb'. assert (old = old') as -> by congruence. assert (bk' = bk) as -> by congruence.
    rewrite lookup_insert_eq. intros [= <-] Hreg Hent. cbn. assert (e' = e) as -> by congruence. by rewrite H4.
Qed.

(** The status callback of a motor is the one configured for its bus and index,
    and stays so: when a callback is configured or removed for any bus and index,
    and when the motor takes a new index with [SetId]'s reservation and migration. *)
Lemma callbacks_follow_motor m :
  Tables m -> Callbacks m ->
  (forall adapter raw idx callback, int_ok raw -> int_ok idx ->
     Callbacks (ConfigureAdapterStatusCallback adapter raw idx callback m)) /\
  (forall motor n m1, int_ok n ->
     (forall old, device_keys (objects m) !! motor = Some old ->
        motor_index_reservations (statuses m) !! motor_key (dk_bus old) n = None) ->
     DriverManager.ReserveMotorIndex motor n m = (true, m1) ->
     Callbacks (snd (DriverManager.MigrateMotorIndex motor n m1))).
Proof.
  intros HT HC. split; [intros; by apply callbacks_configure|]. intros motor n m1 Hn Hnone E.
  destruct (reserve_fresh motor n m m1 HT Hn Hnone E) as [Hf HC1].
  pose proof (tables_reserve motor n m _ HT Hn (reserve_ok motor n m HT Hn)) as HT1. rewrite E in HT1.
  apply callbacks_migrate; [done|done|by apply HC1|done].
Qed.

Lemma callbacks_follow_motor_witness :
  on_status (statuses (ConfigureAdapterStatusCallback 1 0 5 (Some 77%nat) example_motor)) !! 20%nat = Some 77%nat.
Proof.
  assert (Callbacks example_motor) as HC.
  { intros motor k bk Hd _ _. vm_compute. reflexivity. }
  destruct (callbacks_follow_motor example_motor example_motor_tables HC) as [H _].
  rewrite (H 1%nat 0 5 (Some 77%nat) ltac:(done) ltac:(done) 20%nat (motor_key 10 5) (mkBusKey 1 0)); vm_compute; reflexivity.
Defined.

(** The reservation keeps the callback of the moment it was taken: one configured
    for the new index while the motor's answer is awaited is not installed. *)
Example stale_callback :
  let m1 := snd (DriverManager.ReserveMotorIndex 20 9 example_motor) in
  let m2 := ConfigureAdapterStatusCallback 1 0 9 (Some 77%nat) m1 in
  let m3 := snd (DriverManager.MigrateMotorIndex 20 9 m2) in
  status_callbacks (statuses m3) !! route_of (mkBusKey 1 0) 9 = Some 77%nat /\
  device_keys (objects m3) !! 20%nat = Some (motor_key 10 9) /\ on_status (statuses m3) !! 20%nat = None.
Proof. vm_compute. done. Qed.
