(* ===== verification/AdapterStatus.v ===== *)
(** * AdapterStatus: src/driver_manager_status.cc

    The status of the motors of an adapter: the configuration of its cache (life cycle,
    median window, largest changes) that the driver manager keeps per adapter, applies
    to the motors it has and to those created later, and the tables of statuses that an
    adapter reads.  [Fleet] adds the status caches of the motors, of [StatusCache], to
    the state [Life] of [ManagerLifetime]; its steps are those of [Life] with what they
    do to the caches, the operations of this file and the setters of one motor, whose
    settings override those of the adapter until it sets them anew.  What is proved holds
    in every interleaving of them that [no_clash] allows. *)
From stdpp Require Import base list numbers option gmap.
From Stdlib Require Import ZArith Lia.
From S2P Require Import Prelude CFloat Types StatusCache DriverManager ManagerTables ManagerLifetime LifetimeInvariant LifetimeSafety.
#[local] Open Scope Z_scope.
#[local] Open Scope cint_scope.

(** ** State *)

Record Fleet := mkFleet { life : Life; caches : gmap nat StatusCache }.

Definition manager (F : Fleet) : Manager := mgr (life F).
Definition with_caches (c : gmap nat StatusCache) (F : Fleet) : Fleet := mkFleet (life F) c.
Definition with_manager (m : Manager) (F : Fleet) : Fleet := mkFleet (with_mgr m (life F)) (caches F).

(** The default member initialisers of [StatusConfig]. *)
Definition default_config : StatusConfig := mkConfig INT_MAX 0 fb1_default.

(** [adapter_status_configs[adapter]] makes a default entry when there is none. *)
Definition config_of (adapter : nat) (m : Manager) : StatusConfig :=
  default default_config (adapter_status_configs (statuses m) !! adapter).
Definition set_config (adapter : nat) (config : StatusConfig) (m : Manager) : Manager :=
  let s := statuses m in
  set_statuses (mkStatuses (motor_index_reservations s) (status_callbacks s)
                  (<[adapter := config]> (adapter_status_configs s)) (on_status s)) m.

(** ** Configuration *)

Definition is_motor_of (adapter : nat) (m : Manager) (k : DeviceKey) : bool :=
  bool_decide (dk_kind k = KMotor) &&
  match bus_keys (objects m) !! dk_bus k with Some bk => bool_decide (bk_adapter bk = adapter) | None => false end.

(** The loop over [devices]: [f] on the cache of every motor of the adapter. *)
Definition for_motors (adapter : nat) (m : Manager) (f : StatusCache -> StatusCache) (c : gmap nat StatusCache)
    : gmap nat StatusCache :=
  fold_left (fun c '(k, d) => if is_motor_of adapter m k then alter f d c else c) (map_to_list (devices (objects m))) c.

Definition configure (adapter : nat) (change : StatusConfig -> StatusConfig) (f : StatusCache -> StatusCache) (F : Fleet) : Fleet :=
  let m := manager F in
  if adapter_usable adapter m then
    with_caches (for_motors adapter m f (caches F)) (with_manager (set_config adapter (change (config_of adapter m)) m) F)
  else F.

Definition ConfigureAdapterStatusLifeCycle (adapter : nat) (max_life_cycle : Z) : Fleet -> Fleet :=
  configure adapter (fun c => mkConfig max_life_cycle (median_window_size c) (limit_max_deltas c))
    (SetStatusLifeCycle max_life_cycle).
Definition ConfigureAdapterStatusMedianFilter (adapter : nat) (window_size : nat) : Fleet -> Fleet :=
  configure adapter (fun c => mkConfig (max_life_cycle c) window_size (limit_max_deltas c))
    (SetStatusMedianFilterWindowSizeImpl window_size).
Definition ConfigureAdapterStatusLimitFilter (adapter : nat) (max_deltas : MotorStatus) : Fleet -> Fleet :=
  configure adapter (fun c => mkConfig (max_life_cycle c) (median_window_size c) max_deltas)
    (SetStatusLimitFilterMaxDeltasImpl max_deltas).

Definition GetAdapterStatusLifeCycle (adapter : nat) (F : Fleet) : Z :=
  match adapter_status_configs (statuses (manager F)) !! adapter with
  | Some config => max_life_cycle config
  | None => INT_MAX
  end.

(** What [ApplyMotorStatusConfigurationLocked] does to the cache of a motor. *)
Definition apply_config (config : StatusConfig) (c : StatusCache) : StatusCache :=
  SetStatusLimitFilterMaxDeltasImpl (limit_max_deltas config)
    (SetStatusMedianFilterWindowSizeImpl (median_window_size config) (SetStatusLifeCycle (max_life_cycle config) c)).

Definition apply_to_cache (bus motor : nat) (m : Manager) (c : gmap nat StatusCache) : gmap nat StatusCache :=
  match bus_keys (objects m) !! bus with
  | Some bk => if adapter_usable (bk_adapter bk) m then alter (apply_config (config_of (bk_adapter bk) m)) motor c else c
  | None => c
  end.

(** ** Reading *)

Definition MakeMotorStatusKey (raw_bus_idx motor_idx : Z) : Z := i64 (MakeReceiveUniqueId raw_bus_idx (u32 motor_idx)).

(** One device of the loop: [result] and the caches. *)
Definition collect_status (adapter : nat) (m : Manager) (s : gmap Z MotorStatus * gmap nat StatusCache) (kd : DeviceKey * nat)
    : gmap Z MotorStatus * gmap nat StatusCache :=
  let '(k, d) := kd in
  match bool_decide (dk_kind k = KMotor), bus_keys (objects m) !! dk_bus k, s.2 !! d with
  | true, Some bk, Some c =>
      if bool_decide (bk_adapter bk = adapter) then
        let (status, c) := GetStatusImpl 0 c in
        (match status with Some x => emplace (MakeMotorStatusKey (bk_raw_idx bk) (dk_idx k)) x s.1 | None => s.1 end,
         <[d := c]> s.2)
      else s
  | _, _, _ => s
  end.

Definition GetAdapterMotorStatus (adapter : nat) (F : Fleet) : gmap Z MotorStatus * Fleet :=
  let m := manager F in
  if adapter_usable adapter m then
    let (result, c) := fold_left (collect_status adapter m) (map_to_list (devices (objects m))) (∅, caches F) in
    (result, with_caches c F)
  else (∅, F).

(** The overload for one motor. *)
Definition GetAdapterMotorStatusAt (adapter : nat) (raw_bus_idx motor_idx life_cycle_deduction : Z) (F : Fleet)
    : option MotorStatus * Fleet :=
  let m := manager F in
  if adapter_usable adapter m then
    match buses (objects m) !! mkBusKey adapter raw_bus_idx with
    | None => (None, F)
    | Some bus =>
        match devices (objects m) !! motor_key bus motor_idx with
        | None => (None, F)
        | Some motor =>
            match caches F !! motor with
            | Some c => let (status, c) := GetStatusImpl life_cycle_deduction c in (status, with_caches (<[motor := c]> (caches F)) F)
            | None => (None, F)
            end
        end
    end
  else (None, F).

(** ** Steps *)

(** What a step of [Life] does to the caches: a motor is constructed with one, its
    creation ends with the configuration of its adapter, and freeing removes it. *)
Definition caches_after (a : Action) (L : Life) (c : gmap nat StatusCache) : gmap nat StatusCache :=
  match a with
  | AConstruct k d => if bool_decide (dk_kind k = KMotor) then <[d := initial_cache]> c else c
  | ACommit d =>
      match heap L !! d with
      | Some (ODevice bus (Published k)) => if bool_decide (dk_kind k = KMotor) then apply_to_cache bus d (mgr L) c else c
      | _ => c
      end
  | AFree d => delete d c
  | _ => c
  end.

Inductive FleetOp :=
  | FAct (a : Action)
  | FLifeCycle (adapter : nat) (max_life_cycle : Z)
  | FMedian (adapter window_size : nat)
  | FLimit (adapter : nat) (max_deltas : MotorStatus)
  | FCallback (adapter : nat) (raw_bus_idx motor_idx : Z) (callback : option nat)
  | FStore (motor : nat) (decoded : MotorStatus)   (* a decoded feedback frame *)
  | FGet (motor : nat) (deduction : Z)             (* [Motor::GetStatus] *)
  | FMotorLife (motor : nat) (max_life_cycle : Z)  (* [Motor::SetMaxStatusLifeCycle] *)
  | FMotorMedian (motor window_size : nat)
  | FMotorLimit (motor : nat) (max_deltas : MotorStatus)
  | FRead (adapter : nat)
  | FReadAt (adapter : nat) (raw_bus_idx motor_idx deduction : Z).

Definition fleet_act (op : FleetOp) (F : Fleet) : option Fleet :=
  match op with
  | FAct a =>
      if no_clash a (life F) then
        match act a (life F) with Some L => Some (mkFleet L (caches_after a (life F) (caches F))) | None => None end
      else None
  | FLifeCycle adapter n => Some (ConfigureAdapterStatusLifeCycle adapter n F)
  | FMedian adapter n => Some (ConfigureAdapterStatusMedianFilter adapter n F)
  | FLimit adapter deltas => Some (ConfigureAdapterStatusLimitFilter adapter deltas F)
  | FCallback adapter raw idx callback =>
      Some (with_manager (ConfigureAdapterStatusCallback adapter raw idx callback (manager F)) F)
  | FStore d decoded => Some (with_caches (alter (fun c => snd (StoreStatus decoded c)) d (caches F)) F)
  | FGet d n => Some (with_caches (alter (fun c => snd (GetStatusImpl n c)) d (caches F)) F)
  | FMotorLife d n => Some (with_caches (alter (SetStatusLifeCycle n) d (caches F)) F)
  | FMotorMedian d n => Some (with_caches (alter (SetStatusMedianFilterWindowSizeImpl n) d (caches F)) F)
  | FMotorLimit d deltas => Some (with_caches (alter (SetStatusLimitFilterMaxDeltasImpl deltas) d (caches F)) F)
  | FRead adapter => Some (snd (GetAdapterMotorStatus adapter F))
  | FReadAt adapter raw idx n => Some (snd (GetAdapterMotorStatusAt adapter raw idx n F))
  end.

Fixpoint run_fleet (ops : list FleetOp) (F : Fleet) : option Fleet :=
  match ops with
  | [] => Some F
  | op :: ops => match fleet_act op F with Some F => run_fleet ops F | None => None end
  end.

(** ** The settings a motor has of its own

    A setting of a motor made through [Motor] overrides the one of its adapter, until
    the adapter sets that one anew for all its motors. *)
Record OwnSettings := mkOwn { own_life : option Z; own_window : option nat; own_deltas : option MotorStatus }.
Definition no_own : OwnSettings := mkOwn None None None.

Definition overriding (o : OwnSettings) (c : StatusConfig) : StatusConfig :=
  mkConfig (default (max_life_cycle c) (own_life o)) (default (median_window_size c) (own_window o))
    (default (limit_max_deltas c) (own_deltas o)).

Definition drop_life (o : OwnSettings) : OwnSettings := mkOwn None (own_window o) (own_deltas o).
Definition drop_window (o : OwnSettings) : OwnSettings := mkOwn (own_life o) None (own_deltas o).
Definition drop_deltas (o : OwnSettings) : OwnSettings := mkOwn (own_life o) (own_window o) None.

(** The motor [d] is registered on a bus of the adapter, which takes configurations. *)
Definition configures (adapter d : nat) (F : Fleet) : bool :=
  adapter_usable adapter (manager F) &&
  match device_keys (objects (manager F)) !! d with Some k => is_motor_of adapter (manager F) k | None => false end.

Definition update_own (d : nat) (f : OwnSettings -> OwnSettings) (O : nat -> OwnSettings) : nat -> OwnSettings :=
  fun x => if bool_decide (x = d) then f (O x) else O x.

Definition own_after (op : FleetOp) (F : Fleet) (O : nat -> OwnSettings) : nat -> OwnSettings :=
  match op with
  | FAct (ACommit d) => update_own d (fun _ => no_own) O
  | FLifeCycle adapter _ => fun d => if configures adapter d F then drop_life (O d) else O d
  | FMedian adapter _ => fun d => if configures adapter d F then drop_window (O d) else O d
  | FLimit adapter _ => fun d => if configures adapter d F then drop_deltas (O d) else O d
  | FMotorLife d n => update_own d (fun o => mkOwn (Some n) (own_window o) (own_deltas o)) O
  | FMotorMedian d n => update_own d (fun o => mkOwn (own_life o) (Some n) (own_deltas o)) O
  | FMotorLimit d deltas => update_own d (fun o => mkOwn (own_life o) (own_window o) (Some deltas)) O
  | _ => O
  end.

(** The settings of its own that each motor has after a run. *)
Fixpoint own_settings (ops : list FleetOp) (F : Fleet) (O : nat -> OwnSettings) : nat -> OwnSettings :=
  match ops with
  | [] => O
  | op :: ops => match fleet_act op F with Some F' => own_settings ops F' (own_after op F O) | None => O end
  end.

Definition new_fleet (adapters : gset nat) : Fleet := mkFleet (new_life adapters) ∅.

(** ** What the steps of [Life] change *)

Lemma reserve_configs motor n m :
  adapter_status_configs (statuses (snd (ReserveMotorIndex motor n m))) = adapter_status_configs (statuses m).
Proof. unfold ReserveMotorIndex. repeat (case_match; try done). Qed.

Lemma release_configs motor n m :
  adapter_status_configs (statuses (ReleaseMotorIndexReservation motor n m)) = adapter_status_configs (statuses m).
Proof. unfold ReleaseMotorIndexReservation. repeat (case_match; try done). Qed.

Lemma migrate_configs motor n m :
  adapter_status_configs (statuses (snd (MigrateMotorIndex motor n m))) = adapter_status_configs (statuses m).
Proof.
  pose proof (migrate_ok motor n m) as H. destruct (MigrateMotorIndex motor n m) as [b m'].
  inversion H as [|old H1 H2 H3|old bk reg e cb install HM H1 H2 H3 H4]; subst; [done..|].
  cbn. by destruct install.
Qed.

Lemma migrate_names motor n m :
  adapter_names (objects (snd (MigrateMotorIndex motor n m))) = adapter_names (objects m).
Proof.
  pose proof (migrate_ok motor n m) as H. destruct (MigrateMotorIndex motor n m) as [b m'].
  by inversion H as [|old H1 H2 H3|old bk reg e cb install HM H1 H2 H3 H4]; subst.
Qed.

Lemma apply_configs bus idx d m :
  adapter_status_configs (statuses (ApplyMotorStatusConfigurationLocked bus idx d m)) = adapter_status_configs (statuses m).
Proof. unfold ApplyMotorStatusConfigurationLocked. repeat (case_match; try done). Qed.

(** A device is registered where it was, or its creation has just ended; a bus that is
    registered was so, or has just been constructed. *)
Record Keeps (a : Action) (L L' : Life) : Prop := {
  k_names : adapter_names (objects (mgr L')) = adapter_names (objects (mgr L));
  k_configs : adapter_status_configs (statuses (mgr L')) = adapter_status_configs (statuses (mgr L));
  k_keys : forall d k', device_keys (objects (mgr L')) !! d = Some k' ->
    (exists k, device_keys (objects (mgr L)) !! d = Some k /\ dk_kind k = dk_kind k' /\ dk_bus k = dk_bus k') \/
    (exists bus, a = ACommit d /\ heap L !! d = Some (ODevice bus (Published k')));
  k_buses : forall b bk, bus_keys (objects (mgr L')) !! b = Some bk ->
    bus_keys (objects (mgr L)) !! b = Some bk \/ heap L !! b = Some (OBus bk BConstructed)
}.

Lemma keeps_same a L L' :
  objects (mgr L') = objects (mgr L) -> adapter_status_configs (statuses (mgr L')) = adapter_status_configs (statuses (mgr L)) ->
  Keeps a L L'.
Proof. intros Eo Es. constructor; rewrite ?Eo; try done; [|by left]. intros d k Hd. left. by exists k. Qed.

Lemma keeps_objects a L L' :
  adapter_names (objects (mgr L')) = adapter_names (objects (mgr L)) ->
  device_keys (objects (mgr L')) = device_keys (objects (mgr L)) -> bus_keys (objects (mgr L')) = bus_keys (objects (mgr L)) ->
  statuses (mgr L') = statuses (mgr L) -> Keeps a L L'.
Proof. intros En Ed Eb Es. constructor; rewrite ?En, ?Ed, ?Eb, ?Es; try done; [|by left]. intros d k Hd. left. by exists k. Qed.

Lemma emplace_lookup {K A} `{Countable K} (k k' : K) (v x : A) t :
  emplace k v t !! k' = Some x -> t !! k' = Some x \/ (k' = k /\ x = v).
Proof.
  unfold emplace. destruct (t !! k); [by left|]. intros [[<- <-]|[_ H0]]%lookup_insert_Some; [by right|by left].
Qed.

Lemma keeps_device a L L' : Inv L -> device_act a L = Some L' -> Keeps a L L'.
Proof.
  intros HI H. destruct a; try done; cbn [device_act] in H.
  - case_match; [|done]. injection H as <-. by apply keeps_objects.
  - repeat (case_match; try done). injection H as <-. by apply keeps_objects.
  - destruct (heap L !! d) as [[bus [k| | | | | |]|]|]; try done. case_match; [|done].
    destruct (PublishRoutesLocked d bus rc (mgr L)) as [[[] m]|] eqn:E; try done. injection H as <-.
    destruct (publish_effect _ _ _ _ _ (n_tables _ HI) E) as (Eo & Es & _). apply keeps_same; lsimpl; by rewrite ?Eo, ?Es.
  - destruct (heap L !! d) as [[bus [|k| | | | |]|]|] eqn:Hd; try done. case_match; [|done]. injection H as <-.
    set (m1 := if bool_decide (dk_kind k = KMotor) then ApplyMotorStatusConfigurationLocked bus (dk_idx k) d (mgr L) else mgr L).
    assert (objects m1 = objects (mgr L) /\ adapter_status_configs (statuses m1) = adapter_status_configs (statuses (mgr L))) as [Eo Es].
    { unfold m1. case_match; [|done]. split; [apply apply_status_effect|apply apply_configs]. }
    clearbody m1. constructor; lsimpl; rewrite ?Eo; try done; [|by left].
    intros x k' [Hx|[-> ->]]%emplace_lookup; [left; by exists k'|right]. by exists bus.
  - assert (exists w k bus, L' = take_down w k bus d L) as (w & k & bus & ->).
    { repeat (case_match; try done); injection H as <-; eauto. }
    unfold take_down. pose proof (detach_effect d (mgr L) (n_tables _ HI)) as He.
    destruct (DetachRegistrationLocked d (mgr L)) as [entries m]. destruct He as (Eo & Es & _). apply keeps_same; lsimpl; by rewrite ?Eo, ?Es.
  - repeat (case_match; try done). injection H as <-. by apply keeps_objects.
  - repeat (case_match; try done). injection H as <-. by apply keeps_objects.
  - destruct (device_keys (objects (mgr L)) !! d) as [k|]; [|done]. case_match; [|done]. injection H as <-. unfold take_down.
    lsimpl. set (m0 := mark_deleting (deleting (objects (mgr L)) ∪ {[d]}) (mgr L)).
    assert (Tables m0) as HT by (apply (tables_objects _ _ (n_tables _ HI)); done).
    pose proof (detach_effect d m0 HT) as He. destruct (DetachRegistrationLocked d m0) as [entries m]. destruct He as (Eo & Es & _).
    apply keeps_objects; lsimpl; by rewrite ?Eo, ?Es.
  - repeat (case_match; try done); injection H as <-; by apply keeps_objects.
  - repeat (case_match; try done); injection H as <-; by apply keeps_objects.
  - repeat (case_match; try done). injection H as <-. constructor; lsimpl; try done; [|by left].
    intros x k' [_ Hx]%lookup_delete_Some. left. by exists k'.
  - repeat (case_match; try done); injection H as <-; by apply keeps_objects.
  - repeat (case_match; try done); injection H as <-; by apply keeps_objects.
Qed.

Lemma keeps_bus a L L' : bus_act a L = Some L' -> Keeps a L L'.
Proof.
  intros H. destruct a; try done; cbn [bus_act] in H.
  all: try (repeat (case_match; try done); injection H as <-; by apply keeps_objects).
  - destruct (heap L !! b) as [[|bk []]|] eqn:Hb; try done. case_match; [|done]. injection H as <-.
    constructor; lsimpl; try done; [intros d k Hd; left; by exists k|].
    intros x bk' [Hx|[-> ->]]%emplace_lookup; [by left|by right].
  - destruct (heap L !! b) as [[|bk []]|] eqn:Hb; try done. injection H as <-.
    constructor; lsimpl; try done; [intros d k Hd; left; by exists k|]. intros x bk' [_ Hx]%lookup_delete_Some. by left.
Qed.

Lemma keeps_use a L L' : Inv L -> use_act a L = Some L' -> Keeps a L L'.
Proof.
  intros HI H. destruct a; try done; cbn [use_act] in H.
  all: try (unfold call in H; repeat (case_match; try done); injection H as <-; by apply keeps_objects).
  - destruct (setids L !! i) as [[[d n] []]|] eqn:Hi; try done.
    destruct (i_setid _ (n_gated _ HI) d n SEntered) as [_ Hn]; [by eapply list_elem_of_lookup_2|].
    pose proof (reserve_effect d n (mgr L) (n_tables _ HI) Hn) as He. pose proof (reserve_configs d n (mgr L)) as Hc.
    destruct (ReserveMotorIndex d n (mgr L)) as [b m]. injection H as <-. destruct He as (Eo & _). by apply keeps_same.
  - destruct (setids L !! i) as [[[d n] []]|] eqn:Hi; try done. injection H as <-.
    destruct (i_setid _ (n_gated _ HI) d n SReserved) as [_ Hn]; [by eapply list_elem_of_lookup_2|].
    pose proof (migrate_effect d n (mgr L) (n_tables _ HI) Hn) as He. pose proof (migrate_configs d n (mgr L)) as Hc.
    pose proof (migrate_names d n (mgr L)) as En.
    destruct (MigrateMotorIndex d n (mgr L)) as [b m]. cbn [snd] in *.
    destruct He as [->|(old & Hold & _ & Hk & Ek & _ & Eb & _)]; [by apply keeps_same|].
    constructor; lsimpl; [done|done| |rewrite Eb; by left].
    intros x k'. rewrite Ek. intros [[<- <-]|[_ Hx]]%lookup_insert_Some; left; [by exists old|by exists k'].
  - destruct (setids L !! i) as [[[d n] []]|] eqn:Hi; try done. injection H as <-.
    pose proof (release_effect d n (mgr L) (n_tables _ HI)) as (Eo & _). apply keeps_same; lsimpl; [done|]. apply release_configs.
Qed.

Lemma keeps_act a L L' : Inv L -> act a L = Some L' -> Keeps a L L'.
Proof.
  intros HI H. unfold act in H. destruct (device_act a L) eqn:E1; [injection H as <-; by apply keeps_device|].
  destruct (bus_act a L) eqn:E2; [injection H as <-; by apply keeps_bus|by apply keeps_use].
Qed.

(** The objects of the heap: where the devices under creation and the buses come from. *)
Definition comes_from (a : Action) (L : Life) (x : nat) (ob : Object) : Prop :=
  match ob with
  | ODevice bus (Constructed k) => a = AConstruct k x
  | ODevice bus (Published k) => heap L !! x = Some (ODevice bus (Constructed k))
  | ODevice _ _ => True
  | OBus bk _ => (exists ph, heap L !! x = Some (OBus bk ph)) \/ bk ∈ pending_buses L
  end.

Inductive heap_change (a : Action) (L : Life) : gmap nat Object -> Prop :=
  | HeapSame : heap_change a L (heap L)
  | HeapDelete x : heap_change a L (delete x (heap L))
  | HeapSet x ob : comes_from a L x ob -> heap_change a L (<[x := ob]> (heap L)).

Ltac heap_cases H :=
  repeat (case_match; try done); injection H as <-; lsimpl;
  first [apply HeapSame | apply HeapDelete | apply HeapSet; cbn; eauto];
  try (right; repeat match goal with H : _ && _ = true |- _ => apply andb_true_iff in H as [? ?] end;
  by eapply bool_decide_eq_true).

Lemma bus_object L b bk : Inv L -> bus_keys (objects (mgr L)) !! b = Some bk -> exists ph, heap L !! b = Some (OBus bk ph).
Proof.
  intros HI Hb. pose proof (ag_bus _ (n_agrees _ HI b)) as E. cbn in E. rewrite Hb in E.
  destruct (heap L !! b) as [[|bk' []]|]; try done; injection E as ->; by eexists.
Qed.

Lemma heap_act a L L' : Inv L -> act a L = Some L' -> heap_change a L (heap L').
Proof.
  intros HI H. unfold act in H. destruct (device_act a L) eqn:E1; [injection H as <-|destruct (bus_act a L) eqn:E2; [injection H as <-|]].
  - destruct a; try done; cbn [device_act] in E1; unfold take_down in E1; heap_cases E1.
  - destruct a; try done; cbn [bus_act] in E2; heap_cases E2; left; by apply bus_object.
  - destruct a; try done; cbn [use_act] in H; unfold call in H; heap_cases H.
Qed.

Lemma pending_act a L L' bk :
  act a L = Some L' -> bk ∈ pending_buses L' -> bk ∈ pending_buses L \/ adapter_usable (bk_adapter bk) (mgr L) = true.
Proof.
  intros H Hbk. unfold act in H. destruct (device_act a L) eqn:E1; [injection H as <-|destruct (bus_act a L) eqn:E2; [injection H as <-|]].
  - destruct a; try done; cbn [device_act] in E1; unfold take_down in E1; repeat (case_match; try done); injection E1 as <-; by left.
  - destruct a; try done; cbn [bus_act] in E2; repeat (case_match; try done); injection E2 as <-; revert Hbk; lsimpl; try by left.
    all: try (intros [? _]%elem_of_difference; by left).
    intros [?| ->%elem_of_singleton]%elem_of_union; [by left|right]. by apply andb_true_iff in H as [[? _]%andb_true_iff _].
  - destruct a; try done; cbn [use_act] in H; unfold call in H; repeat (case_match; try done); injection H as <-; by left.
Qed.

(** The adapter of a bus is registered. *)
Definition Named (L : Life) : Prop :=
  (forall b bk ph, heap L !! b = Some (OBus bk ph) -> bk_adapter bk ∈ adapter_names (objects (mgr L))) /\
  (forall bk, bk ∈ pending_buses L -> bk_adapter bk ∈ adapter_names (objects (mgr L))).

Lemma usable_named adapter m : adapter_usable adapter m = true -> adapter ∈ adapter_names (objects m).
Proof. intros [H%bool_decide_eq_true _]%andb_true_iff. done. Qed.

Lemma named_act a L L' : Inv L -> Named L -> act a L = Some L' -> Named L'.
Proof.
  intros HI [HN HP] H. destruct (keeps_act a L L' HI H) as [En _ _ _]. split.
  - intros b bk ph. rewrite En. destruct (heap_act a L L' HI H) as [|x|x ob Hob].
    + apply HN.
    + intros [_ Hb]%lookup_delete_Some. by eapply HN.
    + intros [[<- ->]|[_ Hb]]%lookup_insert_Some; [|by eapply HN].
      destruct Hob as [[ph0 Hb]|Hb]; [by eapply HN|by apply HP].
  - intros bk Hbk. rewrite En. destruct (pending_act a L L' bk H Hbk) as [?|?]; [by apply HP|by apply usable_named].
Qed.

(** The key of a device that is registered or under creation. *)
Definition owns (L : Life) (d : nat) (k : DeviceKey) : Prop :=
  device_keys (objects (mgr L)) !! d = Some k \/
  exists bus, heap L !! d = Some (ODevice bus (Constructed k)) \/ heap L !! d = Some (ODevice bus (Published k)).

Lemma registered_device L d k :
  Inv L -> device_keys (objects (mgr L)) !! d = Some k ->
  exists ph, heap L !! d = Some (ODevice (dk_bus k) ph) /\ ph <> Published k /\
    match ph with Live | Draining _ _ _ | GateWait _ _ | Erasing _ _ => True | _ => False end.
Proof.
  intros HI Hd. pose proof (n_agrees _ HI d) as [_ Akey _ _ _ _ _ Aph]. cbn in Akey, Aph. rewrite Hd in Akey.
  destruct (heap L !! d) as [[bus [| | |[] k' ?|[] k'|[] k'|[] k']|bk' []]|]; try done; cbn in *.
  all: try (injection Akey as <-; rewrite (Aph bus _ k eq_refl eq_refl); by eexists).
  destruct Akey as (k' & [= <-] & <-). by eexists.
Qed.

Lemma registered_hosted L d k :
  Inv L -> device_keys (objects (mgr L)) !! d = Some k -> hosts (heap L !! dk_bus k) = true.
Proof. intros HI Hd. destruct (registered_device L d k HI Hd) as (ph & Hh & _). apply (n_hosted _ HI d). by rewrite Hh. Qed.

(** Before the creation a step ends, its device was the same or did not exist. *)
Lemma owns_act a L L' d k' :
  Inv L -> act a L = Some L' -> owns L' d k' -> (exists k, owns L d k /\ dk_kind k = dk_kind k') \/ a = AConstruct k' d.
Proof.
  intros HI H [Hd|(bus & Hh)].
  - left. destruct (k_keys _ _ _ (keeps_act a L L' HI H) d k' Hd) as [(k & Hk & ? & _)|(bus & -> & Hp)].
    + exists k. split; [by left|done].
    + exists k'. split; [right; exists bus; by right|done].
  - destruct (heap_act a L L' HI H) as [|x|x ob Hob].
    + left. exists k'. split; [right; by exists bus|done].
    + left. exists k'. split; [|done]. right. exists bus. by destruct Hh as [[_ ?]%lookup_delete_Some|[_ ?]%lookup_delete_Some]; [left|right].
    + destruct (decide (x = d)) as [->|Hne].
      * rewrite !lookup_insert_eq in Hh. destruct Hh as [[= ->]|[= ->]]; cbn in Hob; [by right|left].
        exists k'. split; [|done]. right. exists bus. by left.
      * rewrite !lookup_insert_ne in Hh by done. left. exists k'. split; [right; by exists bus|done].
Qed.

(** ** The configuration in force *)

Definition settings (c : StatusCache) : StatusConfig :=
  mkConfig (max_status_life_cycle c) (status_median_filter_window_size c) (status_limit_filter_max_deltas c).

Record Configured (O : nat -> OwnSettings) (F : Fleet) : Prop := {
  f_inv : Inv (life F);
  f_named : Named (life F);
  f_cached : forall d k, owns (life F) d k -> dk_kind k = KMotor -> is_Some (caches F !! d);
  f_in_force : forall d k bk, device_keys (objects (manager F)) !! d = Some k -> dk_kind k = KMotor ->
    bus_keys (objects (manager F)) !! dk_bus k = Some bk ->
    settings <$> caches F !! d = Some (overriding (O d) (config_of (bk_adapter bk) (manager F)))
}.

(** *** Steps of [Life] *)

Lemma caches_after_off a L c d :
  (forall k, a <> AConstruct k d) -> a <> ACommit d -> a <> AFree d -> caches_after a L c !! d = c !! d.
Proof.
  intros H1 H2 H3. destruct a; try done; cbn.
  - case_bool_decide; [|done]. apply lookup_insert_ne. congruence.
  - repeat (case_match; try done). unfold apply_to_cache. repeat (case_match; try done). apply lookup_alter_ne. congruence.
  - apply lookup_delete_ne. congruence.
Qed.

Lemma free_not_owned L L' d k : Inv L -> act (AFree d) L = Some L' -> ~ owns L d k.
Proof.
  intros HI H. unfold act in H. cbn [device_act] in H.
  destruct (heap L !! d) as [[bus [| | | | | |w k']|]|] eqn:Hd; try done.
  intros [Hk|(b & [Hh|Hh])]; [|congruence..]. destruct (registered_device L d k HI Hk) as (ph & Hh & _ & Hp).
  rewrite Hd in Hh. by injection Hh as _ <-.
Qed.

Lemma free_gone L L' d k : Inv L -> act (AFree d) L = Some L' -> ~ owns L' d k.
Proof.
  intros HI H Ho. destruct (owns_act _ L L' d k HI H Ho) as [(k0 & Hk0 & _)|?]; [|done].
  by eapply free_not_owned.
Qed.

(** The step after which a registered device was registered before does not touch its cache. *)
Lemma act_keeps_cache a L L' c d k :
  Inv L -> act a L = Some L' -> device_keys (objects (mgr L)) !! d = Some k -> caches_after a L c !! d = c !! d.
Proof.
  intros HI H Hd. destruct (registered_device L d k HI Hd) as (ph & Hh & _ & Hp). apply caches_after_off.
  - intros k' ->. unfold act in H. cbn [device_act bus_act use_act] in H. rewrite Hh in H. by repeat (case_match; try done).
  - intros ->. unfold act in H. cbn [device_act bus_act use_act] in H. rewrite Hh in H. by destruct ph.
  - intros ->. by eapply free_not_owned; [| |left].
Qed.

Lemma act_cached a L L' c :
  Inv L -> act a L = Some L' ->
  (forall d k, owns L d k -> dk_kind k = KMotor -> is_Some (c !! d)) ->
  forall d k, owns L' d k -> dk_kind k = KMotor -> is_Some (caches_after a L c !! d).
Proof.
  intros HI H HC d k Ho Hk. destruct (owns_act a L L' d k HI H Ho) as [(k0 & Ho0 & Ek)| ->].
  2: { cbn. rewrite bool_decide_true, lookup_insert_eq by done. by eexists. }
  assert (is_Some (c !! d)) as Hs by (eapply HC; [done|congruence]).
  destruct a; try done; cbn.
  - case_bool_decide; [|done]. match goal with |- is_Some (<[?x := _]> _ !! _) => destruct (decide (x = d)) as [->|Hne] end;
      [rewrite lookup_insert_eq; by eexists|by rewrite lookup_insert_ne].
  - repeat (case_match; try done). unfold apply_to_cache. repeat (case_match; try done). by apply lookup_alter_is_Some.
  - match goal with |- is_Some (delete ?x _ !! _) => destruct (decide (x = d)) as [->|Hne] end;
      [by destruct (free_gone L L' d k HI H)|by rewrite lookup_delete_ne].
Qed.

Lemma configured_act a O F L :
  Configured O F -> no_clash a (life F) = true -> act a (life F) = Some L ->
  Configured (own_after (FAct a) F O) (mkFleet L (caches_after a (life F) (caches F))).
Proof.
  intros [HI HN HC HF] Hclash H. assert (Inv L) as HI' by (eapply inv_step; [exact HI|by econstructor]).
  destruct (keeps_act a _ _ HI H) as [En Es Ek Eb].
  unfold manager in *. constructor; unfold manager; cbn [life caches]; [done|exact (named_act a _ L HI HN H)|exact (act_cached a _ L _ HI H HC)|].
  intros d k bk Hd Hk Hb. unfold config_of. rewrite Es.
  destruct (Ek d k Hd) as [(k0 & Hk0 & Ekind & Ebus)|(bus & -> & Hp)].
  - assert (own_after (FAct a) F O d = O d) as ->.
    { destruct a; try done. cbn [own_after]. unfold update_own. case_bool_decide as Ed; [subst d|done].
      destruct (registered_device _ _ _ HI Hk0) as (ph & Hh & Hne & Hph).
      unfold act in H. cbn [device_act bus_act use_act] in H. rewrite Hh in H. by destruct ph. }
    rewrite (act_keeps_cache a _ L _ d k0 HI H Hk0). apply (HF d k0 bk); [done|congruence|].
    rewrite Ebus. destruct (Eb _ _ Hb) as [?|Hbus]; [done|]. pose proof (registered_hosted _ d k0 HI Hk0) as Hh.
    rewrite Ebus, Hbus in Hh. done.
  - assert (dk_bus k = bus) as Ebus by (eapply (phase_bus (life F) d bus (Published k)); done).
    destruct (Eb _ _ Hb) as [Hb0|Hbus]. 2: { exfalso. destruct (hosted_bus _ d bus _ HI Hp) as [Hh _]. by rewrite <- Ebus, Hbus in Hh. }
    rewrite Ebus in Hb0. destruct (HC d k) as [c Hc]; [right; exists bus; by right|done|].
    assert (adapter_usable (bk_adapter bk) (mgr (life F)) = true) as Hu.
    { destruct (bus_object (life F) bus bk HI Hb0) as [ph Hbo]. apply HN in Hbo as Hname.
      unfold act in H. cbn [device_act bus_act use_act] in H. rewrite Hp in H. unfold parent_usable, bus_usable in H. rewrite Hb0 in H.
      unfold adapter_usable. rewrite bool_decide_true by done. destruct (is_deleting (bk_adapter bk) (mgr (life F))); [|done].
      by rewrite orb_true_r in H. }
    cbn [caches_after]. rewrite Hp, (bool_decide_true (dk_kind k = KMotor)) by done. unfold apply_to_cache.
    rewrite Hb0, Hu, lookup_alter_eq, Hc. cbn [own_after]. unfold update_own. rewrite (bool_decide_true (d = d)) by done.
    unfold config_of. cbn. by destruct (default default_config _).
Qed.

(** *** Configuration *)

Lemma inv_statuses L m :
  Inv L -> objects m = objects (mgr L) -> routing m = routing (mgr L) ->
  motor_index_reservations (statuses m) = motor_index_reservations (statuses (mgr L)) -> Inv (with_mgr m L).
Proof.
  intros HI Eo Er Ev. change (Inv (with_setids (setids L) (with_mgr m L))). destruct (n_gated _ HI) as [_ G2 G3].
  apply inv_setids; [done|by eapply tables_statuses; [apply (n_tables _ HI)|..]|done|by rewrite Er|by rewrite Er|done|by rewrite Ev].
Qed.

(** What a loop over the motors does to the settings of one of them: [change], once or
    more. *)
Lemma for_motors_settings adapter m f change c d :
  (forall x, settings (f x) = change (settings x)) -> (forall x, change (change x) = change x) ->
  settings <$> for_motors adapter m f c !! d =
  if existsb (fun '(k, x) => is_motor_of adapter m k && bool_decide (x = d)) (map_to_list (devices (objects m)))
  then change <$> (settings <$> c !! d) else settings <$> c !! d.
Proof.
  intros Hf Hidem. unfold for_motors. generalize (map_to_list (devices (objects m))). intros l. revert c.
  induction l as [|[k x] l IH]; intros c; [done|]. cbn [fold_left existsb]. rewrite IH.
  destruct (is_motor_of adapter m k); cbn [andb]; [|done]. case_bool_decide as Hx; cbn [orb].
  - subst x. rewrite lookup_alter_eq. destruct (c !! d) as [y|]; cbn; [|by destruct (existsb _ _)].
    rewrite Hf. destruct (existsb _ _); [by rewrite Hidem|done].
  - by rewrite lookup_alter_ne by done.
Qed.

Lemma configured_configure adapter change drop f O F :
  (forall x, settings (f x) = change (settings x)) -> (forall x, change (change x) = change x) ->
  (forall o c, overriding (drop o) (change c) = change (overriding o c)) ->
  Configured O F ->
  Configured (fun d => if configures adapter d F then drop (O d) else O d) (configure adapter change f F).
Proof.
  intros Hf Hidem Hdrop HF. unfold configure, configures. destruct (adapter_usable adapter (manager F)); [|done]. cbn [andb].
  destruct HF as [HI HN HC HF]. unfold manager in *.
  assert (forall d, settings <$> for_motors adapter (mgr (life F)) f (caches F) !! d =
    if existsb (fun '(k, x) => is_motor_of adapter (mgr (life F)) k && bool_decide (x = d)) (map_to_list (devices (objects (mgr (life F)))))
    then change <$> (settings <$> caches F !! d) else settings <$> caches F !! d) as Hset by (intros d; by apply for_motors_settings).
  constructor; unfold manager; cbn [life caches with_caches with_manager].
  - by apply inv_statuses.
  - exact HN.
  - intros d k Ho Hk. destruct (HC d k Ho Hk) as [c Hc]. specialize (Hset d). rewrite Hc in Hset.
    destruct (for_motors _ _ _ _ !! d); [by eexists|]. by destruct (existsb _ _).
  - lsimpl. intros d k bk Hd Hk Hb. change (device_keys (objects (mgr (life F))) !! d = Some k) in Hd.
    change (bus_keys (objects (mgr (life F))) !! dk_bus k = Some bk) in Hb. rewrite Hset, (HF d k bk Hd Hk Hb). unfold config_of, set_config. cbn.
    assert (existsb (fun '(k, x) => is_motor_of adapter (mgr (life F)) k && bool_decide (x = d)) (map_to_list (devices (objects (mgr (life F))))) =
      bool_decide (bk_adapter bk = adapter)) as ->.
    { pose proof (o_devices _ (t_objects _ (n_tables _ HI))) as Hod. apply eq_true_iff_eq. rewrite existsb_exists, bool_decide_eq_true. split.
      - intros ([k' x] & Hin & [Hm Hx%bool_decide_eq_true]%andb_true_iff). subst x. apply list_elem_of_In, elem_of_map_to_list in Hin.
        apply Hod in Hin. assert (k' = k) as -> by congruence. unfold is_motor_of in Hm. rewrite Hb in Hm.
        by apply andb_true_iff in Hm as [_ ?%bool_decide_eq_true].
      - intros Ha. exists (k, d). rewrite <- list_elem_of_In, elem_of_map_to_list. split; [by apply Hod|].
        unfold is_motor_of. rewrite Hb, !bool_decide_true by done. done. }
    rewrite Hd. unfold is_motor_of. rewrite Hb, (bool_decide_true (dk_kind k = KMotor)) by done. cbn [andb].
    case_bool_decide as Ha.
    + subst adapter. rewrite lookup_insert_eq. cbn. by rewrite Hdrop.
    + by rewrite lookup_insert_ne by congruence.
Qed.

Lemma configured_callback adapter raw idx callback O F :
  Configured O F -> Configured O (with_manager (ConfigureAdapterStatusCallback adapter raw idx callback (manager F)) F).
Proof.
  intros [HI HN HC HF]. unfold manager in *. set (m := ConfigureAdapterStatusCallback adapter raw idx callback (mgr (life F))).
  assert (objects m = objects (mgr (life F)) /\ routing m = routing (mgr (life F)) /\
    motor_index_reservations (statuses m) = motor_index_reservations (statuses (mgr (life F))) /\
    adapter_status_configs (statuses m) = adapter_status_configs (statuses (mgr (life F)))) as (Eo & Er & Ev & Ec).
  { unfold m, ConfigureAdapterStatusCallback. destruct (adapter_usable _ _); [|done]. cbn. split_and!; try done; by repeat case_match. }
  clearbody m. constructor; unfold manager; cbn [life caches with_manager]; lsimpl.
  - by apply inv_statuses.
  - destruct HN. split; lsimpl; by rewrite Eo.
  - intros d k Ho. apply (HC d k). unfold owns in *. revert Ho. lsimpl. by rewrite Eo.
  - intros d k bk. rewrite Eo. unfold config_of. rewrite Ec. apply HF.
Qed.

(** An update of one cache that leaves its settings. *)
Lemma configured_cache O F c :
  Configured O F -> (forall d, settings <$> c !! d = settings <$> caches F !! d) -> Configured O (with_caches c F).
Proof.
  intros [HI HN HC HF] Hc. constructor; cbn [life caches with_caches]; [done|done| |].
  - intros d k Ho Hk. destruct (HC d k Ho Hk) as [x Hx]. specialize (Hc d). rewrite Hx in Hc. destruct (c !! d); [by eexists|done].
  - intros d k bk Hd Hk Hb. rewrite Hc. by apply (HF d k bk).
Qed.

Lemma settings_get n c : settings (snd (GetStatusImpl n c)) = settings c.
Proof. unfold GetStatusImpl. repeat (case_match; try done). Qed.

Lemma settings_alter (f : StatusCache -> StatusCache) (c : gmap nat StatusCache) x d :
  (forall y, settings (f y) = settings y) -> settings <$> alter f x c !! d = settings <$> c !! d.
Proof.
  intros Hf. destruct (decide (x = d)) as [->|Hne]; [|by rewrite lookup_alter_ne].
  rewrite lookup_alter_eq. destruct (c !! d); cbn; [by rewrite Hf|done].
Qed.

(** A setting of one motor. *)
Lemma configured_motor d f change own O F :
  (forall x, settings (f x) = change (settings x)) -> (forall o c, overriding (own o) c = change (overriding o c)) ->
  Configured O F -> Configured (update_own d own O) (with_caches (alter f d (caches F)) F).
Proof.
  intros Hf Hown [HI HN HC HF]. constructor; cbn [life caches with_caches]; [done|done| |].
  - intros x k Ho Hk. apply lookup_alter_is_Some. by eapply HC.
  - intros x k bk Hd Hk Hb. unfold update_own. specialize (HF x k bk Hd Hk Hb). case_bool_decide as Ex.
    + subst x. rewrite lookup_alter_eq, Hown. change (manager (with_caches _ F)) with (manager F).
      destruct (caches F !! d) as [c|]; [|done]. apply (inj Some) in HF. cbn [fmap option_fmap option_map]. by rewrite Hf, HF.
    + by rewrite lookup_alter_ne by done.
Qed.

(** *** Reading *)

Lemma get_zero c : GetStatusImpl 0 c = (status c, c).
Proof. unfold GetStatusImpl. destruct (status c); [|done]. by rewrite andb_false_r. Qed.

(** The entry of a device in the table of an adapter. *)
Definition entry_of (adapter : nat) (m : Manager) (c : gmap nat StatusCache) (kd : DeviceKey * nat) : option (Z * MotorStatus) :=
  match bool_decide (dk_kind kd.1 = KMotor), bus_keys (objects m) !! dk_bus kd.1, c !! kd.2 with
  | true, Some bk, Some x =>
      if bool_decide (bk_adapter bk = adapter) then pair (MakeMotorStatusKey (bk_raw_idx bk) (dk_idx kd.1)) <$> status x else None
  | _, _, _ => None
  end.

Lemma collect_status_eq adapter m l : forall r c,
  fold_left (collect_status adapter m) l (r, c) =
  (fold_left (fun r kd => match entry_of adapter m c kd with Some (key, x) => emplace key x r | None => r end) l r, c).
Proof.
  induction l as [|[k d] l IH]; intros r c; [done|]. cbn [fold_left]. unfold collect_status at 2, entry_of at 2. cbn [fst snd].
  destruct (bool_decide (dk_kind k = KMotor)); [|apply IH]. destruct (bus_keys (objects m) !! dk_bus k) as [bk|]; [|apply IH].
  destruct (c !! d) as [x|] eqn:Hx; [|apply IH]. case_bool_decide; [|apply IH].
  rewrite get_zero, insert_id by done. rewrite IH. by destruct (status x).
Qed.

(** [emplace] in a row: with one value for each key, all of them. *)
Lemma emplace_all {A K V} `{Countable K} (g : A -> option (K * V)) l key x : forall (r : gmap K V),
  (forall a a' y y', a ∈ l -> a' ∈ l -> g a = Some (key, y) -> g a' = Some (key, y') -> y = y') ->
  fold_left (fun r a => match g a with Some (k, v) => emplace k v r | None => r end) l r !! key = Some x <->
  r !! key = Some x \/ (r !! key = None /\ exists a, a ∈ l /\ g a = Some (key, x)).
Proof.
  induction l as [|a l IH]; intros r Hu; cbn [fold_left].
  - split; [by left|]. intros [?|(_ & a & Ha & _)]; [done|]. by apply elem_of_nil in Ha.
  - rewrite IH by (intros ? ? ? ? ? ?; apply Hu; by right). destruct (g a) as [[k v]|] eqn:Hg.
    2: { split; (intros [?|(? & b & Hb & E)]; [by left|right; split; [done|]]).
         - exists b. split; [by right|done].
         - apply elem_of_cons in Hb as [->|Hb]; [congruence|]. by exists b. }
    destruct (decide (k = key)) as [->|Hne].
    + unfold emplace. destruct (r !! key) as [v'|] eqn:Hr; rewrite ?Hr, ?lookup_insert_eq.
      * split; (intros [?|(? & _)]; [by left|done]).
      * split.
        -- intros [[= ->]|(? & _)]; [right|done]. split; [done|]. exists a. split; [by left|done].
        -- intros [?|(_ & b & Hb & E)]; [done|]. left. f_equal. eapply (Hu a b); [by left|done|done|done].
    + assert (emplace k v r !! key = r !! key) as -> by (unfold emplace; destruct (r !! k); [done|by rewrite lookup_insert_ne]).
      split; (intros [?|(? & b & Hb & E)]; [by left|right; split; [done|]]).
      * exists b. split; [by right|done].
      * apply elem_of_cons in Hb as [->|Hb]; [congruence|]. by exists b.
Qed.

Lemma status_key_inj raw idx raw' idx' :
  int_ok raw -> int_ok idx -> int_ok raw' -> int_ok idx' ->
  MakeMotorStatusKey raw idx = MakeMotorStatusKey raw' idx' -> raw = raw' /\ idx = idx'.
Proof.
  intros Hr Hi Hr' Hi' E. unfold MakeMotorStatusKey, i64 in E. rewrite !unique_id_eq in E by apply u32_range.
  pose proof (u32_range raw). pose proof (u32_range raw'). pose proof (u32_range idx). pose proof (u32_range idx').
  assert (u32 raw * 4294967296 + u32 idx = u32 raw' * 4294967296 + u32 idx') as E' by (Z.to_euclidean_division_equations; lia).
  split; apply u32_int; try done; lia.
Qed.

Lemma settings_life n c : settings (SetStatusLifeCycle n c) = mkConfig n (median_window_size (settings c)) (limit_max_deltas (settings c)).
Proof. unfold SetStatusLifeCycle. by case_match. Qed.

Lemma configured_step op O F F' : Configured O F -> fleet_act op F = Some F' -> Configured (own_after op F O) F'.
Proof.
  intros HF H.
  destruct op as [a|adapter n|adapter n|adapter deltas|adapter raw idx callback|d decoded|d n|d n|d n|d deltas|adapter|adapter raw idx n];
    cbn [fleet_act] in H.
  - destruct (no_clash a (life F)) eqn:Hc; [|done]. destruct (act a (life F)) as [L|] eqn:Ha; [|done]. injection H as <-. by apply configured_act.
  - injection H as <-. apply (configured_configure _ (fun c => mkConfig n (median_window_size c) (limit_max_deltas c))); [apply settings_life|done..].
  - injection H as <-. by apply configured_configure.
  - injection H as <-. by apply configured_configure.
  - injection H as <-. by apply configured_callback.
  - injection H as <-. apply configured_cache; [done|]. intros x. by apply settings_alter.
  - injection H as <-. apply configured_cache; [done|]. intros x. apply settings_alter. intros y. apply settings_get.
  - injection H as <-.
    by apply (configured_motor d _ (fun c => mkConfig n (median_window_size c) (limit_max_deltas c))); [apply settings_life|..].
  - injection H as <-. by apply (configured_motor d _ (fun c => mkConfig (max_life_cycle c) n (limit_max_deltas c))).
  - injection H as <-. by apply (configured_motor d _ (fun c => mkConfig (max_life_cycle c) (median_window_size c) deltas)).
  - injection H as <-. unfold GetAdapterMotorStatus. destruct (adapter_usable _ _); [|done]. rewrite collect_status_eq. by apply configured_cache.
  - injection H as <-. unfold GetAdapterMotorStatusAt. destruct (adapter_usable _ _); [|done].
    destruct (buses _ !! _) as [b|]; [|done]. destruct (devices _ !! _) as [d|]; [|done]. destruct (caches F !! d) as [c|] eqn:Hd; [|done].
    pose proof (settings_get n c) as Hs. destruct (GetStatusImpl n c) as [status c']. cbn in Hs |- *.
    apply configured_cache; [done|]. intros x. destruct (decide (d = x)) as [->|Hne]; [|by rewrite lookup_insert_ne].
    rewrite lookup_insert_eq, Hd. cbn. by rewrite Hs.
Qed.

Lemma configured_run ops O F F' : Configured O F -> run_fleet ops F = Some F' -> Configured (own_settings ops F O) F'.
Proof.
  revert O F. induction ops as [|op ops IH]; intros O F HF; cbn [run_fleet own_settings]; [by intros [= <-]|].
  destruct (fleet_act op F) as [F1|] eqn:E; [|done]. apply IH. by apply configured_step.
Qed.

Lemma configured_new O adapters : Configured O (new_fleet adapters).
Proof.
  constructor; cbn; [apply inv_new|split; [done|intros bk H; by destruct (not_elem_of_empty (C := gset BusKey) bk)]| |done].
  intros d k [H|(bus & [H|H])]; done.
Qed.

(** The motor of an adapter at a raw bus index and a motor index. *)
Definition motor_at (adapter : nat) (raw idx : Z) (m : Manager) (d : nat) : Prop :=
  exists b, buses (objects m) !! mkBusKey adapter raw = Some b /\ devices (objects m) !! motor_key b idx = Some d.

Lemma entry_motor adapter m c kd raw idx s :
  Tables m -> int_ok raw -> int_ok idx -> kd ∈ map_to_list (devices (objects m)) ->
  entry_of adapter m c kd = Some (MakeMotorStatusKey raw idx, s) ->
  motor_at adapter raw idx m kd.2 /\ exists x, c !! kd.2 = Some x /\ status x = Some s.
Proof.
  intros HT Hraw Hidx Hin He. pose proof HT as [[O1 O2 O3] _ _ HM _]. destruct kd as [k d]. apply elem_of_map_to_list in Hin. cbn [snd].
  unfold entry_of in He. cbn [fst snd] in He. case_bool_decide as Hk; [|done].
  destruct (bus_keys (objects m) !! dk_bus k) as [bk|] eqn:Hb; [|done]. destruct (c !! d) as [x|]; [|done].
  case_bool_decide as Ha; [|done]. destruct (status x) as [s'|] eqn:Hs; [|done]. injection He as He <-.
  destruct (HM d k (proj1 (O1 _ _) Hin) Hk) as (Ek & Hki & _).
  apply status_key_inj in He as [E1 E2]; [|by eapply O3|done..].
  split; [|by exists x]. exists (dk_bus k). split.
  - apply O2. rewrite Hb. destruct bk. cbn in *. by subst.
  - by rewrite <- E2, <- Ek.
Qed.

Lemma motor_entry adapter m c raw idx d x s :
  Tables m -> motor_at adapter raw idx m d -> c !! d = Some x -> status x = Some s ->
  exists kd, kd ∈ map_to_list (devices (objects m)) /\ entry_of adapter m c kd = Some (MakeMotorStatusKey raw idx, s).
Proof.
  intros [[O1 O2 O3] _ _ _ _] (b & Hb & Hd) Hx Hs. exists (motor_key b idx, d). rewrite elem_of_map_to_list. split; [done|].
  apply O2 in Hb. unfold entry_of. cbn [fst snd motor_key dk_kind dk_bus dk_idx]. rewrite Hb, Hx, (bool_decide_true (KMotor = KMotor)) by done.
  cbn [bk_adapter bk_raw_idx]. rewrite bool_decide_true, Hs by done. done.
Qed.

Lemma motor_at_unique adapter raw idx m d d' : motor_at adapter raw idx m d -> motor_at adapter raw idx m d' -> d = d'.
Proof. intros (b & Hb & Hd) (b' & Hb' & Hd'). congruence. Qed.

Lemma table_spec adapter F raw idx s :
  Tables (manager F) -> adapter_usable adapter (manager F) = true -> int_ok raw -> int_ok idx ->
  fst (GetAdapterMotorStatus adapter F) !! MakeMotorStatusKey raw idx = Some s <->
  exists d c, motor_at adapter raw idx (manager F) d /\ caches F !! d = Some c /\ status c = Some s.
Proof.
  intros HT Hu Hraw Hidx. unfold GetAdapterMotorStatus. rewrite Hu, collect_status_eq. cbn [fst].
  rewrite (emplace_all (entry_of adapter (manager F) (caches F))).
  - rewrite lookup_empty. split.
    + intros [?|(_ & kd & Hin & He)]; [done|]. destruct (entry_motor _ _ _ _ _ _ _ HT Hraw Hidx Hin He) as (Hm & x & Hx & Hs).
      by exists kd.2, x.
    + intros (d & c & Hm & Hc & Hs). right. split; [done|]. by eapply motor_entry.
  - intros kd kd' y y' Hin Hin' He He'. destruct (entry_motor _ _ _ _ _ _ _ HT Hraw Hidx Hin He) as (Hm & x & Hx & Hs).
    destruct (entry_motor _ _ _ _ _ _ _ HT Hraw Hidx Hin' He') as (Hm' & x' & Hx' & Hs').
    rewrite (motor_at_unique _ _ _ _ _ _ Hm Hm') in Hx. congruence.
Qed.

(** C24: each setting of the status cache of a registered motor is the one made for
    that motor itself, if there was one since its creation and since its adapter last
    set it for all its motors, and otherwise the one of its adapter, whether that was
    set before the motor was created or after; however creations, destructions, index
    changes, settings, status frames and reads interleave, as long as no index change
    moves a motor to the key of a device still under creation.  And the table of
    statuses an adapter reads has exactly the motors that have a status, each under the
    key of its bus and index, as the read of one motor gives it, and reading it changes
    nothing. *)
Theorem adapter_status_in_force adapters ops F :
  run_fleet ops (new_fleet adapters) = Some F ->
  (forall d k bk, device_keys (objects (manager F)) !! d = Some k -> dk_kind k = KMotor ->
     bus_keys (objects (manager F)) !! dk_bus k = Some bk ->
     settings <$> caches F !! d =
       Some (overriding (own_settings ops (new_fleet adapters) (fun _ => no_own) d) (config_of (bk_adapter bk) (manager F)))) /\
  (forall adapter, snd (GetAdapterMotorStatus adapter F) = F) /\
  (forall adapter raw idx, adapter_usable adapter (manager F) = true -> int_ok raw -> int_ok idx ->
     (forall s, fst (GetAdapterMotorStatus adapter F) !! MakeMotorStatusKey raw idx = Some s <->
        exists d c, motor_at adapter raw idx (manager F) d /\ caches F !! d = Some c /\ status c = Some s) /\
     fst (GetAdapterMotorStatusAt adapter raw idx 0 F) = fst (GetAdapterMotorStatus adapter F) !! MakeMotorStatusKey raw idx).
Proof.
  intros H. pose proof (configured_run _ _ _ _ (configured_new (fun _ => no_own) adapters) H) as [HI _ _ HF]. pose proof (n_tables _ HI) as HT.
  split; [exact HF|]. split.
  - intros adapter. unfold GetAdapterMotorStatus. destruct (adapter_usable _ _); [|done]. rewrite collect_status_eq. by destruct F.
  - intros adapter raw idx Hu Hraw Hidx. pose proof (fun s => table_spec adapter F raw idx s HT Hu Hraw Hidx) as Ht. split; [done|].
    unfold GetAdapterMotorStatusAt. rewrite Hu. symmetry. apply option_eq. intros s. rewrite Ht. split.
    + intros (d & c & (b & -> & ->) & -> & Hs). by rewrite get_zero.
    + destruct (buses _ !! _) as [b|] eqn:Hb; [|done]. destruct (devices _ !! _) as [d|] eqn:Hd; [|done].
      destruct (caches F !! d) as [c|] eqn:Hc; [|done]. rewrite get_zero. intros Hs. exists d, c. split; [by exists b|done].
Qed.

(** The life cycle is set before the motor is created, the window after and again for
    the motor itself, the deltas for the motor and then for all; a frame comes in, and
    the motor moves to another index. *)
Definition example_status : MotorStatus := mkFb1 0 (F32.of_Z 1) (F32.of_Z 2) (F32.of_Z 3) (F32.of_Z 4) (F32.of_Z 5).
Definition example_ops : list FleetOp :=
  [FLifeCycle 1 7] ++ map FAct example_creation ++
  [FMedian 1 3; FMotorMedian 20 5; FMotorLimit 20 example_status; FLimit 1 fb1_default; FStore 20 example_status;
   FAct (ASetId 20 9); FAct (AReserve 0); FAct (AMigrate 0); FRead 1; FReadAt 1 0 9 2].

Lemma adapter_status_in_force_witness :
  exists F, run_fleet example_ops (new_fleet {[1%nat]}) = Some F /\
    settings <$> caches F !! 20%nat = Some (mkConfig 7 5 fb1_default) /\
    (exists s, fst (GetAdapterMotorStatusAt 1 0 9 0 F) = Some s) /\ fst (GetAdapterMotorStatusAt 1 0 5 0 F) = None.
Proof.
  destruct (run_fleet example_ops (new_fleet {[1%nat]})) as [F|] eqn:E; [|vm_compute in E; discriminate E].
  exists F. split; [exact eq_refl|]. destruct (adapter_status_in_force {[1%nat]} example_ops F E) as (H1 & _ & H3).
  vm_compute in E. injection E as <-.
  split; [etransitivity; [apply (H1 20%nat (motor_key 10 9) (mkBusKey 1 0)); vm_compute; reflexivity|vm_compute; reflexivity]|].
  split; [|vm_compute; reflexivity]. eexists.
  etransitivity; [apply (proj2 (H3 1%nat 0 9 ltac:(vm_compute; reflexivity) ltac:(done) ltac:(done)))|vm_compute; reflexivity].
Defined.
