(* ===== verification/BusReset.v ===== *)
(** * BusReset: Bus::ResetMotorsId and the indexes of a bus (src/bus/bus.cc)

    The broadcasts that change the CAN ids of the motors on a bus, and what becomes of
    the registered motors when all ids have been reset to 1
    ([EncosDriverManager::ResetBusMotorsToIdOne] of src/driver_manager_dispatch.cc): one
    motor survives and moves to index 1, the others are destroyed. *)
From stdpp Require Import base list numbers option gmap functions fin_maps.
From Stdlib Require Import ZArith Lia.
From S2P Require Import Prelude Types.
From S2P Require Import SyncQueue.
From S2P Require Import DriverManager.
From S2P Require Import ManagerTables.
From S2P Require Import ManagerDispatch.
From S2P Require Import SetIdManager.
From S2P Require Import BusWorld.
#[local] Open Scope Z_scope.
#[local] Open Scope cint_scope.
#[local] Open Scope bus_scope.

(** ** The tables *)

Definition mark_deleted (xs : gset nat) (m : Manager) : Manager := set_objects (set_deleting xs (objects m)) m.

(** [DestroyDevice] of a device nobody is using and that is not called from a callback:
    nothing is in flight, so that the critical sections follow each other. *)
Definition DestroyDevice (device : nat) (expected : DeviceKind) (m : Manager) : bool * Manager :=
  match device_keys (objects m) !! device with
  | Some key =>
      if bool_decide (expected = dk_kind key) && negb (is_deleting device m) then
        let m := mark_deleted (deleting (objects m) ∪ {[device]}) m in
        let m := snd (DetachRegistrationLocked device m) in
        let m := erase_device key device m in
        (true, mark_deleted (deleting (objects m) ∖ {[device]}) m)
      else (false, m)
  | None => (false, m)
  end.
Definition DestroyMotor (motor : nat) (m : Manager) : bool * Manager := DestroyDevice motor KMotor m.

(** The motors of the bus in the order of the map, which the code leaves unspecified. *)
Definition motors_of (bus : nat) (m : Manager) : list nat :=
  omap (fun '(key, device) => if bool_decide (dk_bus key = bus) && bool_decide (dk_kind key = KMotor) then Some device else None)
    (map_to_list (devices (objects m))).

Definition at_index_one (m : Manager) (motor : nat) : bool :=
  match device_keys (objects m) !! motor with Some key => dk_idx key =? 1 | None => false end.

(** The loop that destroys all motors but the survivor. *)
Definition destroy_others (survivor : nat) (motors : list nat) (m : Manager) : Manager :=
  fold_left (fun m motor => if bool_decide (motor = survivor) then m else snd (DestroyMotor motor m)) motors m.

(** One more round after the waits for deletions of other threads, of which there are none. *)
Fixpoint reset_loop (fuel : nat) (bus : nat) (m : Manager) : option (bool * Manager) :=
  match fuel with
  | O => None
  | S fuel =>
      match bus_usable bus m with
      | None => Some (false, m)
      | Some _ =>
          match motors_of bus m with
          | [] => Some (true, m)
          | front :: rest =>
              let motors := front :: rest in
              if bool_decide (rest = []) && at_index_one m front && negb (is_deleting front m) then Some (true, m)
              else
                let survivor := default front (find (at_index_one m) motors) in
                let m := destroy_others survivor motors m in
                match device_keys (objects m) !! survivor with
                | Some key =>
                    if bool_decide (dk_kind key = KMotor) && bool_decide (dk_bus key = bus) && negb (is_deleting survivor m) then
                      if dk_idx key =? 1 then reset_loop fuel bus m
                      else
                        match MigrateMotorIndex survivor 1 m with
                        | (true, m) => reset_loop fuel bus m
                        | (false, m) => Some (false, m)
                        end
                    else reset_loop fuel bus m
                | None => reset_loop fuel bus m
                end
          end
      end
  end.

Definition set_resetting (x : gset nat) (m : Manager) : Manager :=
  let o := objects m in
  set_objects (mkObjects (adapter_names o) (buses o) (bus_keys o) (devices o) (device_keys o) (pending_devices o) (deleting o) x) m.

(** [None]: still looping. *)
Definition ResetBusMotorsToIdOne (fuel : nat) (bus : nat) (m : Manager) : option (bool * Manager) :=
  if parent_usable bus m then
    '(ok, m) ← reset_loop fuel bus (set_resetting (resetting_buses (objects m) ∪ {[bus]}) m);
    Some (ok, set_resetting (resetting_buses (objects m) ∖ {[bus]}) m)
  else Some (false, m).

(** ** The broadcasts *)

Section Bus.
Context (bus : nat) (bk : BusKey).
Abbreviation idx := (bk_raw_idx bk).

(** [WaitForPacket] with so many polls before its deadline; the frames it reads that do
    not fit are gone. *)
Fixpoint WaitForPacket (polls : nat) (predicate : MotorPackMsg -> bool) : M bool :=
  match polls with
  | O => mret false
  | S polls =>
      let* messages := DrainUnknownMessagesLocked bk in
      if existsb (fun message => predicate (mdata message)) messages then mret true
      else
        let* _ := Sleep bus bk in
        WaitForPacket polls predicate
  end.

Definition reset_message : MotorPackMsg := mkPack 2047 0 6 [127; 127; 0; 5; 127; 127; 0; 0].
Definition is_reset_ack (pack : MotorPackMsg) : bool :=
  (id pack =? 2047) && (byte_at (data pack) 0 =? 127) && (byte_at (data pack) 1 =? 127).

Definition ResetMotorsId (fuel polls : nat) (wait_for_ack : bool) : M bool := fun w =>
  if negb (alive w) then (Some false, w)
  else
    (let* _ := Send bk [mkMsg idx reset_message] in
     if negb wait_for_ack then mret true
     else
       let* acknowledged := WaitForPacket polls is_reset_ack in
       if negb acknowledged then mret false
       else fun w =>
         match ResetBusMotorsToIdOne fuel bus (manager w) with
         | Some (ok, m) => (Some ok, with_manager m w)
         | None => (None, w)
         end) w.

Definition SendAutoAssignCanId (assign_id : Z) : M bool := fun w =>
  if negb (alive w) then (Some false, w)
  else
    (let* _ := Send bk [mkMsg idx (mkPack 2047 0 4 [u8 (assign_id ≫ 8); u8 (assign_id .& 255); 0; 8; 0; 0; 0; 0])] in
     mret true) w.
Definition StartAutoAssignCanId (start_idx : Z) : M bool := fun w =>
  if (start_idx <? 1) || (2046 <? start_idx) then (None, w) else SendAutoAssignCanId start_idx w.
Definition StopAutoAssignCanId : M bool := SendAutoAssignCanId 2047.

End Bus.

(** ** One motor survives *)

(** Nothing is being deleted and no [SetId] is under way. *)
Record Calm (m : Manager) : Prop := {
  cm_tables : Tables m;
  cm_deleting : deleting (objects m) = ∅;
  cm_reservations : motor_index_reservations (statuses m) = ∅
}.

(** Only the devices differ. *)
Definition same_buses (m m' : Manager) : Prop :=
  bus_keys (objects m') = bus_keys (objects m) /\ resetting_buses (objects m') = resetting_buses (objects m).

Lemma same_buses_trans m1 m2 m3 : same_buses m1 m2 -> same_buses m2 m3 -> same_buses m1 m3.
Proof. intros [E1 E2] [F1 F2]. split; congruence. Qed.

Lemma detach_frame d m : objects (snd (DetachRegistrationLocked d m)) = objects m /\ statuses (snd (DetachRegistrationLocked d m)) = statuses m.
Proof. unfold DetachRegistrationLocked. by destruct (registrations (routing m) !! d). Qed.

Lemma DestroyMotor_spec d key m :
  Calm m -> device_keys (objects m) !! d = Some key -> dk_kind key = KMotor ->
  let m' := snd (DestroyMotor d m) in
  Calm m' /\ same_buses m m' /\ device_keys (objects m') = delete d (device_keys (objects m)).
Proof.
  intros [HT Hdel Hres] Hd Hk. cbv zeta. unfold DestroyMotor, DestroyDevice, is_deleting.
  rewrite Hd, Hdel, Hk, bool_decide_true, bool_decide_false by (done || apply not_elem_of_empty). cbn [andb negb snd].
  set (m1 := mark_deleted (∅ ∪ {[d]}) m).
  assert (Tables m1) as HT1 by (by apply tables_objects).
  pose proof (tables_detach d m1 HT1) as HT2. destruct (detach_frame d m1) as [Eo Es].
  set (m2 := snd (DetachRegistrationLocked d m1)) in *.
  assert (Tables (erase_device key d m2)) as HT3.
  { apply tables_erase; [done| |].
    - left. rewrite Eo. cbn. by apply (o_devices _ (t_objects _ HT)).
    - intros k v. rewrite Es. cbn. by rewrite Hres, lookup_empty. }
  split; [|split].
  - split; [by apply tables_objects| |].
    + cbn. rewrite Eo. cbn. set_solver.
    + cbn. by rewrite Es.
  - split; cbn; by rewrite Eo.
  - cbn. by rewrite Eo.
Qed.

Lemma destroy_others_spec survivor ds : forall m,
  Calm m -> (forall d key, d ∈ ds -> device_keys (objects m) !! d = Some key -> dk_kind key = KMotor) ->
  let m' := destroy_others survivor ds m in
  Calm m' /\ same_buses m m' /\
  forall x, device_keys (objects m') !! x = if bool_decide (x ∈ ds /\ x <> survivor) then None else device_keys (objects m) !! x.
Proof.
  unfold destroy_others. induction ds as [|d ds IH]; intros m HC Hds; cbn [fold_left].
  { split; [done|split; [done|]]. intros x. rewrite bool_decide_false; [done|]. intros [Hx _]. by apply elem_of_nil in Hx. }
  assert (exists m1, m1 = (if bool_decide (d = survivor) then m else snd (DestroyMotor d m)) /\ Calm m1 /\ same_buses m m1 /\
    forall x, device_keys (objects m1) !! x = if bool_decide (x = d /\ d <> survivor) then None else device_keys (objects m) !! x) as (m1 & <- & HC1 & Hb1 & Hk1).
  { eexists. split; [reflexivity|]. case_bool_decide as Es.
    - split; [done|split; [done|]]. intros x. by rewrite bool_decide_false by naive_solver.
    - destruct (device_keys (objects m) !! d) as [key|] eqn:Ed.
      + destruct (DestroyMotor_spec d key m HC Ed (Hds d key (list_elem_of_here _ _) Ed)) as (A & B & C).
        split; [done|split; [done|]]. intros x. rewrite C. destruct (decide (x = d)) as [->|Hne].
        * by rewrite bool_decide_true, lookup_delete_eq by done.
        * by rewrite bool_decide_false, lookup_delete_ne by naive_solver.
      + unfold DestroyMotor, DestroyDevice. rewrite Ed. cbn [snd]. split; [done|split; [done|]]. intros x.
        destruct (decide (x = d)) as [->|Hne]; [by rewrite bool_decide_true by done|by rewrite bool_decide_false by naive_solver]. }
  destruct (IH m1 HC1) as (HC2 & Hb2 & Hk2).
  { intros x key Hx. rewrite Hk1. destruct (bool_decide _); [done|]. by apply Hds, list_elem_of_further. }
  split; [done|split; [by eapply same_buses_trans|]]. intros x. rewrite Hk2, Hk1.
  repeat case_bool_decide; set_solver.
Qed.

Lemma NoDup_omap_inj {A B} (f : A -> option B) (l : list A) :
  NoDup l -> (forall x y z, x ∈ l -> y ∈ l -> f x = Some z -> f y = Some z -> x = y) -> NoDup (omap f l).
Proof.
  induction l as [|x l IH]; intros Hnd Hinj; [apply NoDup_nil_2|]. apply NoDup_cons in Hnd as [Hx Hnd].
  assert (NoDup (omap f l)) as H by (apply IH; [done|]; intros a b z Ha Hb; by apply Hinj; apply list_elem_of_further).
  cbn [omap list_omap]. destruct (f x) as [z|] eqn:E; [|done]. apply NoDup_cons. split; [|done].
  intros (y & Hy & Ey)%list_elem_of_omap. apply Hx. by rewrite (Hinj x y z (list_elem_of_here _ _) (list_elem_of_further _ _ _ Hy) E Ey).
Qed.

Lemma motors_of_spec bus m : Tables m ->
  NoDup (motors_of bus m) /\
  forall d, d ∈ motors_of bus m <-> exists key, device_keys (objects m) !! d = Some key /\ dk_bus key = bus /\ dk_kind key = KMotor.
Proof.
  intros HT. pose proof (o_devices _ (t_objects _ HT)) as O. unfold motors_of. split.
  - apply NoDup_omap_inj; [apply NoDup_map_to_list|]. intros [k d] [k' d'] z Hk%elem_of_map_to_list Hk'%elem_of_map_to_list.
    destruct (_ && _); [|done]. intros [= <-]. destruct (_ && _); [|done]. intros [= ->]. apply O in Hk, Hk'. congruence.
  - intros d. rewrite list_elem_of_omap. split.
    + intros ([k d'] & Hk%elem_of_map_to_list & E). destruct (_ && _) eqn:Eb; [|done]. injection E as ->.
      apply andb_true_iff in Eb as [E1%bool_decide_eq_true E2%bool_decide_eq_true]. exists k. split; [by apply O|done].
    + intros (k & Hk%O & <- & Ek). exists (k, d). split; [by apply elem_of_map_to_list|]. by rewrite !bool_decide_true.
Qed.

Lemma motors_single bus m s : Tables m -> s ∈ motors_of bus m -> (forall d, d ∈ motors_of bus m -> d = s) -> motors_of bus m = [s].
Proof.
  intros HT Hs Hall. destruct (motors_of_spec bus m HT) as [Hnd _].
  destruct (motors_of bus m) as [|x [|y l]]; [by apply elem_of_nil in Hs|f_equal; apply Hall, list_elem_of_here|].
  exfalso. apply NoDup_cons in Hnd as [Hx _]. apply Hx.
  rewrite (Hall x (list_elem_of_here _ _)), <- (Hall y); [apply list_elem_of_here|apply list_elem_of_further, list_elem_of_here].
Qed.

Lemma calm_usable bus bk m : Calm m -> bus_keys (objects m) !! bus = Some bk -> bus_usable bus m = Some bk.
Proof.
  intros HC Hb. unfold bus_usable, is_deleting. rewrite Hb, (cm_deleting _ HC). by rewrite !bool_decide_false by apply not_elem_of_empty.
Qed.

Lemma calm_not_deleting m d : Calm m -> is_deleting d m = false.
Proof. intros HC. unfold is_deleting. rewrite (cm_deleting _ HC). apply bool_decide_false, not_elem_of_empty. Qed.

Lemma motor_key_of m d key : Tables m -> device_keys (objects m) !! d = Some key -> dk_kind key = KMotor -> key = motor_key (dk_bus key) (dk_idx key).
Proof. intros HT Hd Hk. by destruct (t_motors _ HT d key Hd Hk). Qed.

(** A bus whose one motor is at index 1. *)
Lemma reset_loop_done fuel bus bk m s key :
  Calm m -> bus_keys (objects m) !! bus = Some bk -> motors_of bus m = [s] ->
  device_keys (objects m) !! s = Some key -> dk_idx key = 1 -> reset_loop (S fuel) bus m = Some (true, m).
Proof.
  intros HC Hb Hm Hs Hi. cbn [reset_loop]. rewrite (calm_usable bus bk) by done. rewrite Hm. unfold at_index_one.
  by rewrite Hs, Hi, (calm_not_deleting m s HC), bool_decide_true.
Qed.

(** [MigrateMotorIndex] on a calm manager. *)
Lemma migrate_calm m s key m' :
  Calm m -> device_keys (objects m) !! s = Some key -> dk_kind key = KMotor -> dk_idx key <> 1 ->
  MigrateMotorIndex s 1 m = (true, m') ->
  Calm m' /\ same_buses m m' /\ device_keys (objects m') = <[s := motor_key (dk_bus key) 1]> (device_keys (objects m)).
Proof.
  intros HC Hs Hk Hi E. pose proof (migrate_ok s 1 m) as H.
  pose proof (tables_migrate s 1 m _ (cm_tables _ HC) ltac:(unfold int_ok; lia) H) as HT'. rewrite E in H, HT'. cbn [snd] in HT'.
  inversion H as [|old' H1 H2 H3|old' bk reg e cb install HM H1 H2 H3 H4]; subst.
  - assert (old' = key) as -> by congruence. rewrite <- H3 in Hi. done.
  - assert (old' = key) as -> by (pose proof (mv_key _ _ _ _ _ _ _ HM); congruence).
    destruct (migrated_eq m s 1 key bk reg e cb install (cm_tables _ HC) HM) as (_ & E2 & E3 & _).
    split; [split; [exact HT'|exact (cm_deleting _ HC)|]|].
    + cbn. rewrite (cm_reservations _ HC), lookup_empty. by rewrite bool_decide_false by (by intros []).
    + split; [|exact E2]. split; [exact E3|done].
Qed.

Lemma refused_migration m s m' : MigrateMotorIndex s 1 m = (false, m') -> m' = m.
Proof. intros E. pose proof (migrate_ok s 1 m) as H. rewrite E in H. by inversion H. Qed.

(** What the reset leaves: of the motors of the bus the survivor, at index 1 unless
    the answer is no; every other device as it was. *)
Definition survived (bus : nat) (m : Manager) (ok : bool) (m' : Manager) : Prop :=
  (forall d, d ∉ motors_of bus m -> device_keys (objects m') !! d = device_keys (objects m) !! d) /\
  (motors_of bus m = [] -> ok = true /\ motors_of bus m' = []) /\
  (motors_of bus m <> [] -> exists s key, s ∈ motors_of bus m /\ device_keys (objects m) !! s = Some key /\ motors_of bus m' = [s] /\
     device_keys (objects m') !! s = Some (if ok then motor_key bus 1 else key) /\
     (forall d, devices (objects m) !! motor_key bus 1 = Some d -> s = d /\ ok = true)).

Lemma find_survivor bus m front rest : Tables m -> motors_of bus m = front :: rest ->
  let s := default front (find (at_index_one m) (front :: rest)) in
  s ∈ motors_of bus m /\ forall d, devices (objects m) !! motor_key bus 1 = Some d -> s = d.
Proof.
  intros HT Em s. assert (s ∈ motors_of bus m /\ (at_index_one m s = true \/ forall d, d ∈ motors_of bus m -> at_index_one m d = false)) as [Hs Hone].
  { rewrite Em. subst s. destruct (find (at_index_one m) (front :: rest)) as [x|] eqn:Ef; cbn [default from_option Datatypes.id].
    - apply find_some in Ef as [Hin Hx]. apply list_elem_of_In in Hin. by split; [|left].
    - split; [apply list_elem_of_here|right]. intros d Hd%list_elem_of_In. by eapply find_none in Ef. }
  split; [done|]. intros d Hd. pose proof (proj1 (o_devices _ (t_objects _ HT) _ _) Hd) as Hdk.
  destruct (motors_of_spec bus m HT) as [_ Hspec].
  destruct Hone as [Hone|Hnone].
  - unfold at_index_one in Hone. apply Hspec in Hs as (key & Hk & Hb & Hkind). rewrite Hk in Hone. apply Z.eqb_eq in Hone.
    pose proof (motor_key_of m s key HT Hk Hkind) as Ek. rewrite Hb, Hone in Ek. subst key.
    apply (o_devices _ (t_objects _ HT)) in Hk. congruence.
  - assert (at_index_one m d = false) as Hf by (apply Hnone, Hspec; eexists; split; [exact Hdk|done]).
    unfold at_index_one in Hf. by rewrite Hdk in Hf.
Qed.

Lemma reset_loop_spec fuel bus bk m :
  Calm m -> bus_keys (objects m) !! bus = Some bk ->
  exists ok m', reset_loop (S (S fuel)) bus m = Some (ok, m') /\ Calm m' /\ same_buses m m' /\ survived bus m ok m'.
Proof.
  intros HC Hb. pose proof (cm_tables _ HC) as HT. destruct (motors_of_spec bus m HT) as [Hnd Hspec].
  remember (S fuel) as fuel1 eqn:Ef1. cbn [reset_loop]. rewrite (calm_usable bus bk) by done.
  destruct (motors_of bus m) as [|front rest] eqn:Em.
  { exists true, m. split; [done|]. split; [done|]. split; [done|]. unfold survived. rewrite Em. by split_and!. }
  destruct (find_survivor bus m front rest HT Em) as [Hs Hone]. rewrite <- Em in Hnd, Hspec.
  set (s := default front (find (at_index_one m) (front :: rest))) in *.
  destruct (proj1 (Hspec s) Hs) as (key & Hkey & Hkb & Hkm).
  destruct (bool_decide (rest = []) && at_index_one m front && negb (is_deleting front m)) eqn:E1.
  { apply andb_true_iff in E1 as [[->%bool_decide_eq_true Ho]%andb_true_iff _].
    exists true, m. split; [done|]. split; [done|]. split; [done|]. split; [done|]. rewrite Em in *. split; [done|]. intros _.
    apply list_elem_of_singleton in Hs as Es. rewrite Es in *. exists front, key. split_and!; [apply list_elem_of_here|done|done| |intros d Hd; split; [by apply Hone|done]].
    unfold at_index_one in Ho. rewrite Hkey in Ho. apply Z.eqb_eq in Ho. rewrite Hkey. f_equal.
    rewrite (motor_key_of m front key) by done. by rewrite Hkb, Ho. }
  clear E1. destruct (destroy_others_spec s (front :: rest) m HC) as (HC1 & Hb1 & Hk1).
  { intros d k Hd Hk. rewrite <- Em in Hd. apply Hspec in Hd as (k' & Hk' & _ & ?). congruence. }
  rewrite <- Em in HC1, Hb1, Hk1 |- *. set (m1 := destroy_others s (motors_of bus m) m) in *.
  assert (device_keys (objects m1) !! s = Some key) as Hs1 by (rewrite Hk1, bool_decide_false; [done|naive_solver]).
  assert (forall m2 k2, Calm m2 -> (forall x, x <> s -> device_keys (objects m2) !! x = device_keys (objects m1) !! x) ->
    device_keys (objects m2) !! s = Some k2 -> dk_bus k2 = bus -> dk_kind k2 = KMotor -> motors_of bus m2 = [s]) as Hsingle.
  { intros m2 k2 HC2 Hsame Hk2 Hb2 Hm2. destruct (motors_of_spec bus m2 (cm_tables _ HC2)) as [_ Hspec2].
    apply motors_single; [apply HC2|apply Hspec2; by exists k2|]. intros d Hd. destruct (decide (d = s)) as [|Hne]; [done|exfalso].
    apply Hspec2 in Hd as (k & Hk & Hbk & Hkk). rewrite Hsame, Hk1 in Hk by done.
    case_bool_decide as Hin; [done|]. apply Hin. split; [|done]. apply Hspec. by exists k. }
  assert (forall d, d ∉ motors_of bus m -> d <> s /\ device_keys (objects m1) !! d = device_keys (objects m) !! d) as Hout.
  { intros d Hd. split; [by intros ->|]. rewrite Hk1, bool_decide_false; [done|]. by intros []. }
  rewrite Hs1, (calm_not_deleting m1 s HC1), Hkm, !bool_decide_true by done. cbn [andb negb].
  pose proof (Hsingle m1 key HC1 (fun _ _ => eq_refl) Hs1 Hkb Hkm) as Hm1.
  pose proof (motor_key_of m s key HT Hkey Hkm) as Ekey. rewrite Hkb in Ekey.
  assert (bus_keys (objects m1) !! bus = Some bk) as Hbus1 by (by rewrite (proj1 Hb1)).
  subst fuel1. destruct (Z.eqb_spec (dk_idx key) 1) as [Hi|Hi].
  - rewrite (reset_loop_done fuel bus bk m1 s key) by done. exists true, m1. split; [done|]. split; [done|]. split; [done|].
    split; [intros d Hd; by apply Hout|]. split; [by rewrite Em|]. intros _. exists s, key. split_and!; [done|done|done| |by intros d Hd; split; [apply Hone|]].
    rewrite Hs1, Ekey at 1. by rewrite Hi.
  - assert (forall d, devices (objects m) !! motor_key bus 1 <> Some d) as Hnone.
    { intros d Hd. pose proof (Hone d Hd) as <-. apply (o_devices _ (t_objects _ HT)) in Hd. rewrite Hkey in Hd. injection Hd as ->. done. }
    destruct (MigrateMotorIndex s 1 m1) as [[] m2] eqn:Emig.
    + destruct (migrate_calm m1 s key m2 HC1 Hs1 Hkm Hi Emig) as (HC2 & Hb2 & Hk2). rewrite Hkb in Hk2.
      assert (device_keys (objects m2) !! s = Some (motor_key bus 1)) as Hs2 by (by rewrite Hk2, lookup_insert_eq).
      assert (motors_of bus m2 = [s]) as Hm2.
      { apply (Hsingle m2 (motor_key bus 1)); try done. intros x Hx. by rewrite Hk2, lookup_insert_ne. }
      rewrite (reset_loop_done fuel bus bk m2 s (motor_key bus 1)); [|done|by rewrite (proj1 Hb2)|done..].
      exists true, m2. split; [done|]. split; [done|]. split; [by eapply same_buses_trans|].
      split; [intros d Hd; destruct (Hout d Hd); by rewrite Hk2, lookup_insert_ne|]. split; [by rewrite Em|]. intros _.
      exists s, key. split_and!; [done|done|done|done|]. intros d Hd. by destruct (Hnone d).
    + rewrite (refused_migration _ _ _ Emig). exists false, m1. split; [done|]. split; [done|]. split; [done|].
      split; [intros d Hd; by apply Hout|]. split; [by rewrite Em|]. intros _.
      exists s, key. split_and!; [done|done|done|done|]. intros d Hd. by destruct (Hnone d).
Qed.

Lemma calm_resetting x m : Calm m -> Calm (set_resetting x m).
Proof. intros [HT Hd Hr]. split; [by apply tables_objects|done|done]. Qed.

(** Two rounds are enough when nothing else happens. *)
Lemma ResetBusMotorsToIdOne_spec fuel bus bk m :
  Calm m -> parent_usable bus m = true -> bus_keys (objects m) !! bus = Some bk ->
  exists ok m', ResetBusMotorsToIdOne (S (S fuel)) bus m = Some (ok, m') /\ Calm m' /\ same_buses m m' /\ survived bus m ok m'.
Proof.
  intros HC Hu Hb. unfold ResetBusMotorsToIdOne. rewrite Hu.
  assert (bus ∉ resetting_buses (objects m)) as Hn.
  { unfold parent_usable in Hu. destruct (bus_usable bus m); [|done]. by apply negb_true_iff, bool_decide_eq_false in Hu. }
  destruct (reset_loop_spec fuel bus bk (set_resetting (resetting_buses (objects m) ∪ {[bus]}) m)) as (ok & m' & E & HC' & [Eb Er] & Hs);
    [by apply calm_resetting|done|].
  rewrite E. cbn [mbind option_bind]. eexists ok, _. split; [reflexivity|]. split; [by apply calm_resetting|]. split.
  - split; [exact Eb|]. cbn. rewrite Er. cbn. set_solver.
  - exact Hs.
Qed.

(** ** Waiting for the acknowledgement *)

(** Does one of so many polls see it?  Each reads what waits, then sleeps. *)
Fixpoint acknowledged (bk : BusKey) (r : Routing) (polls : nat) (q : list MotorPackMsg) (arr : list (list MotorPackMsg)) : bool :=
  match polls with
  | O => false
  | S polls => existsb is_reset_ack q || acknowledged bk r polls (newest kMailbox (unrouted_frames bk r (hd [] arr))) (tl arr)
  end.

Lemma wait_acknowledged bus bk m a fl mf al cs polls : forall q arr,
  domain_buses (routing m) !! bk = Some bus ->
  exists q' arr',
    WaitForPacket bus bk polls is_reset_ack (mkWorld m a (newest kMailbox q) fl mf al arr cs) =
    (Some (acknowledged bk (routing m) polls (newest kMailbox q) arr), mkWorld m a q' fl mf al arr' cs).
Proof.
  induction polls as [|polls IH]; intros q arr Hbus; cbn [WaitForPacket acknowledged]; [by eexists _, _|].
  unfold mthen at 1, DrainUnknownMessagesLocked, with_unknown. cbn [manager adapter unknown_messages external_device_flag motor_flags alive arrivals constructs].
  assert (existsb (fun message => is_reset_ack (mdata message)) (map (mkMsg (bk_raw_idx bk)) (newest kMailbox q)) = existsb is_reset_ack (newest kMailbox q)) as ->.
  { generalize (newest kMailbox q) as l. induction l as [|p l IHl]; [done|]. cbn [map existsb mdata]. by rewrite IHl. }
  destruct (existsb is_reset_ack (newest kMailbox q)); cbn [orb]; [by eexists _, _|].
  unfold mthen. change (@nil MotorPackMsg) with (newest kMailbox (@nil MotorPackMsg)) at 1. rewrite Sleep_eq by done. cbn [app].
  destruct (IH (unrouted_frames bk (routing m) (hd [] arr)) (tl arr) Hbus) as (q' & arr' & E). rewrite E. by eexists _, _.
Qed.

(** C37: [ResetMotorsId] on a bus in direct mode, on a calm manager - nothing is being
    deleted, no [SetId] is under way and no other thread acts, so that there is no
    deletion to wait for.  It sends the broadcast once and ends.  Without [wait_for_ack]
    it answers yes and leaves the tables alone.  With it, and without an acknowledgement
    among the unrouted frames, it answers no and leaves the tables alone.  One
    acknowledgement, of whichever motor and even of an earlier reset
    ([stale_acknowledgement]), is enough: then the motors of the bus but one are
    destroyed - the one at index 1 stays if there is one - and the answer is yes exactly
    when the survivor is then at index 1, and no when the index is refused, the survivor
    staying where it was; on a bus without motors the answer is yes.  (The documentation
    promises true only when all motors have confirmed.)  No other device is touched, the
    tables stay consistent and the bus accepts new devices again. *)
Theorem reset_motors_id bus bk fuel polls (wait_for_ack : bool) m a q fl mf arr cs :
  Calm m -> parent_usable bus m = true -> bus_keys (objects m) !! bus = Some bk ->
  domain_buses (routing m) !! bk = Some bus -> direct (bk_raw_idx bk) a ->
  let '(answer, w') := ResetMotorsId bus bk (S (S fuel)) polls wait_for_ack (mkWorld m a (newest kMailbox q) fl mf true arr cs) in
  wire (adapter w') = wire a ++ [SentDirect [mkMsg (bk_raw_idx bk) reset_message]] /\ Tables (manager w') /\
  parent_usable bus (manager w') = true /\
  if wait_for_ack then
    if acknowledged bk (routing m) polls (newest kMailbox q) arr
    then exists ok, answer = Some ok /\ survived bus m ok (manager w')
    else answer = Some false /\ manager w' = m
  else answer = Some true /\ manager w' = m.
Proof.
  intros HC Hu Hb Hbus Hd. unfold ResetMotorsId. cbn [alive negb]. unfold mthen at 1. rewrite Send_eq by done.
  destruct wait_for_ack; cbn [negb].
  2: { unfold mret. cbn [manager adapter]. split; [done|]. split; [apply HC|]. by split. }
  unfold mthen. destruct (wait_acknowledged bus bk m (sents a [SentDirect [mkMsg (bk_raw_idx bk) reset_message]]) fl mf true cs polls q arr Hbus)
    as (q' & arr' & E). rewrite E.
  destruct (acknowledged _ _ _ _ _); cbn [negb].
  - cbn [manager]. destruct (ResetBusMotorsToIdOne_spec fuel bus bk m HC Hu Hb) as (ok & m' & E' & HC' & [Eb Er] & Hs). rewrite E'.
    unfold with_manager. cbn [manager adapter]. split; [done|]. split; [apply HC'|]. split; [|by exists ok].
    unfold parent_usable in *. rewrite (calm_usable bus bk m' HC') by (by rewrite Eb). rewrite Er.
    by destruct (bus_usable bus m).
  - unfold mret. cbn [manager adapter]. split; [done|]. split; [apply HC|]. by split.
Qed.

(** ** Examples *)

Definition reset_ack : MotorPackMsg := mkPack 2047 0 6 [127; 127; 0; 5; 127; 127; 0; 0].

Lemma reset_motors_id_witness :
  let '(answer, w') := ResetMotorsId 10 (mkBusKey 1 0) 2 3 true (mkWorld example_motor (new_adapter []) (newest kMailbox []) false ∅ true [[reset_ack]] []) in
  answer = Some true /\ survived 10 example_motor true (manager w') /\ motors_of 10 (manager w') = [20%nat].
Proof.
  assert (Calm example_motor) as HC by (split; [apply example_motor_tables|vm_compute; reflexivity|vm_compute; reflexivity]).
  pose proof (reset_motors_id 10 (mkBusKey 1 0) 0 3 true example_motor (new_adapter []) [] false ∅ [[reset_ack]] []
    HC eq_refl eq_refl eq_refl (conj eq_refl eq_refl)) as H.
  assert (acknowledged (mkBusKey 1 0) (routing example_motor) 3 (newest kMailbox []) [[reset_ack]] = true) as Ea by (vm_compute; reflexivity).
  rewrite Ea in H.
  assert (fst (ResetMotorsId 10 (mkBusKey 1 0) 2 3 true (mkWorld example_motor (new_adapter []) (newest kMailbox []) false ∅ true [[reset_ack]] [])) = Some true /\
          motors_of 10 (manager (snd (ResetMotorsId 10 (mkBusKey 1 0) 2 3 true (mkWorld example_motor (new_adapter []) (newest kMailbox []) false ∅ true [[reset_ack]] [])))) = [20%nat])
    as [Er Em] by (split; vm_compute; reflexivity).
  destruct (ResetMotorsId _ _ _ _ _ _) as [answer w']. cbn [fst snd] in Er, Em. destruct H as (_ & _ & _ & ok & -> & Hs).
  injection Er as ->. split; [done|]. split; [exact Hs|exact Em].
Defined.

(** Unlike a scan, the reset does not empty the mailbox first: the acknowledgement of an
    earlier reset counts for one nobody has answered. *)
Example stale_acknowledgement :
  let w := mkWorld example_motor (new_adapter []) [] false ∅ true [[reset_ack]] [] in
  let w := snd (Sleep 10 (mkBusKey 1 0) (snd (ResetMotorsId 10 (mkBusKey 1 0) 2 1 false w))) in
  let '(answer, w) := ResetMotorsId 10 (mkBusKey 1 0) 2 1 true w in
  arrivals w = [] /\ answer = Some true /\ GetMotors 10 (manager w) = [(1, 20%nat)].
Proof. vm_compute. split_and!; reflexivity. Qed.

(** In synchronised mode the broadcast only waits in the queue of the bus. *)
Example reset_in_sync_mode :
  let w := mkWorld example_motor (snd (SetBusSyncMode 0 true (new_adapter []))) [] false ∅ true [] [] in
  let '(answer, w') := ResetMotorsId 10 (mkBusKey 1 0) 2 1 true w in
  answer = Some false /\ wire (adapter w') = [] /\
  bulk_queue (SyncQueue.buses (adapter w') 0) = [mkMsg 0 reset_message].
Proof. vm_compute. split_and!; reflexivity. Qed.
