(* ===== verification/FakeAdapter.v ===== *)
(** * FakeAdapter: plugins/adapter/fake/fake_adapter.cc

    The simulated motors of the fake adapter: what a frame that the driver sends
    does to them and what they answer.

    The fields of [FakeMotorSnapshot] are grouped by what writes them; [model] is
    never read and left out, as are [FakeMotionState::initialized], always true,
    and the text of a record.  The clock, the random generator and the observer
    are inputs: [e_now] is the reading of [AdvanceMotionToNowLocked], [e_after] the
    later one that stamps the motion, [e_noise] the draw of
    [uniform_real_distribution] for a bound, and [e_observer] what the observer and
    other threads do while the lock is given up to call it.  [None] is an undefined
    conversion of a float to an integer. *)
From stdpp Require Import base list numbers option gmap.
From Stdlib Require Import ZArith Lia.
From Stdlib Require Import SpecFloat.
From S2P Require Import Prelude CFloat Types MathUtils PackHelper.
From S2P Require Import Motor MotorControl MotorParameter FakeProtocol.
#[local] Open Scope Z_scope.
#[local] Open Scope cint_scope.

(** ** Data *)

(** Not written after the motor is seeded. *)
Record FakeBuild := mkBuild {
  fs_motor_temp_c : F32.t; fs_mos_temp_c : F32.t; fs_acceleration : F32.t; fs_kt : F32.t;
  fs_reply_frame_flags : Z; fs_error : MotorError.t; fs_fw_version : option Z;
  fs_product_id : Z; fs_hw_version : Z;
  fs_cal_flag : Z; fs_raw_angle_deg : F32.t; fs_cal_angle_deg : F32.t }.

(** Written by parameter writes. *)
Record FakeSettings := mkSettings {
  fs_ranges : MotorProperties; fs_can_timeout_ms : Z; fs_communication_mode : Z;
  fs_cur_gain_raw : KpKi Z; fs_spd_gain_raw : KpKi Z; fs_pos_gain_raw : KpKd Z }.

(** Written by control commands and by the simulated motion. *)
Record FakeKinematics := mkKin {
  fs_position_rad : F32.t; fs_speed_rad_s : F32.t; fs_current_a : F32.t; fs_torque_nm : F32.t }.

Record FakeMotorSnapshot := mkSnapshot {
  fs_build : FakeBuild; fs_settings : FakeSettings; fs_kin : FakeKinematics; fs_brake_enabled : bool }.

Definition set_kin (f : FakeKinematics -> FakeKinematics) (s : FakeMotorSnapshot) : FakeMotorSnapshot :=
  mkSnapshot (fs_build s) (fs_settings s) (f (fs_kin s)) (fs_brake_enabled s).
Definition set_settings (f : FakeSettings -> FakeSettings) (s : FakeMotorSnapshot) : FakeMotorSnapshot :=
  mkSnapshot (fs_build s) (f (fs_settings s)) (fs_kin s) (fs_brake_enabled s).
Definition set_brake (b : bool) (s : FakeMotorSnapshot) : FakeMotorSnapshot :=
  mkSnapshot (fs_build s) (fs_settings s) (fs_kin s) b.

Record FakeMotionState := mkMotion {
  last_update : Z; current_speed : F32.t; target_speed : F32.t; acceleration_scale : F32.t }.

Inductive FakeReplyMode := Automatic | Manual.
Inductive FakeWritePolicy := PolicySuccess | PolicyFailure | PolicyIgnore.

#[export] Instance FakeWritePolicy_eq_dec : EqDecision FakeWritePolicy.
Proof. solve_decision. Defined.
#[export] Instance FakeReplyMode_eq_dec : EqDecision FakeReplyMode.
Proof. solve_decision. Defined.

(** The kind of the command is always [SetParameter] and [automatic] always true. *)
Record FakeReplyRecord := mkReplyRecord { rr_bus_idx : Z; rr_motor_idx : Z; rr_policy : FakeWritePolicy }.

Record FakeState := mkFake {
  snapshots : gmap Z FakeMotorSnapshot;
  motions : gmap Z FakeMotionState;
  parameter_policies : gmap (Z * Z) FakeWritePolicy;   (* motor key and parameter *)
  reply_mode : FakeReplyMode;
  auto_create_motor_enabled : bool;
  command_recording_enabled : bool;
  has_observer : bool;
  command_records : list FakeCommandRecord;
  reply_records : list FakeReplyRecord;
  raw_sent_messages : list MotorMessage;
  position_error_enabled : bool }.

Definition new_fake : FakeState := mkFake ∅ ∅ ∅ Automatic false true false [] [] [] true.

Definition with_motors (s : gmap Z FakeMotorSnapshot) (m : gmap Z FakeMotionState) (F : FakeState) : FakeState :=
  mkFake s m (parameter_policies F) (reply_mode F) (auto_create_motor_enabled F)
    (command_recording_enabled F) (has_observer F) (command_records F) (reply_records F)
    (raw_sent_messages F) (position_error_enabled F).
Definition with_records (c : list FakeCommandRecord) (r : list FakeReplyRecord) (w : list MotorMessage)
    (F : FakeState) : FakeState :=
  mkFake (snapshots F) (motions F) (parameter_policies F) (reply_mode F) (auto_create_motor_enabled F)
    (command_recording_enabled F) (has_observer F) c r w (position_error_enabled F).
Definition with_modes (mode : FakeReplyMode) (auto_create recording observer error : bool) (F : FakeState)
    : FakeState :=
  mkFake (snapshots F) (motions F) (parameter_policies F) mode auto_create recording observer
    (command_records F) (reply_records F) (raw_sent_messages F) error.

Definition set_snapshot (key : Z) (s : FakeMotorSnapshot) (F : FakeState) : FakeState :=
  with_motors (<[key := s]> (snapshots F)) (motions F) F.
Definition set_motion (key : Z) (m : FakeMotionState) (F : FakeState) : FakeState :=
  with_motors (snapshots F) (<[key := m]> (motions F)) F.

Record FakeEnv := mkEnv {
  e_now : Z; e_after : Z; e_noise : F32.t -> F32.t; e_observer : FakeState -> FakeState }.

(** What happens outside while a frame is handled, in order. *)
Inductive FakeEvent :=
| Observed (r : FakeCommandRecord)      (* [observer( *decoded)] *)
| Replied (m : MotorMessage).           (* [OnMessage({response})] *)

(** ** Keys *)

Definition kMotorKeyStride : Z := 4294967296.
Definition MakeKey (bus_idx motor_idx : Z) : Z := bus_idx * kMotorKeyStride + u32 motor_idx.
Definition DecodeBusIndex (key : Z) : Z :=
  let bus_idx := Z.quot key kMotorKeyStride in
  i32 (if Z.rem key kMotorKeyStride <? 0 then bus_idx - 1 else bus_idx).

(** The buses that [GetBuses] adds to the known ones. *)
Definition seeded_bus_indices (F : FakeState) : list Z :=
  map (fun '(key, _) => DecodeBusIndex key) (map_to_list (snapshots F)).

(** ** Encoders *)

(** [static_cast<float>(M_PI)] *)
Definition pi32 : F32.t := F32_of_f64 M_PI.

Definition EncodeU32 (v : Z) : list Z := [u8 (v ≫ 24); u8 (v ≫ 16); u8 (v ≫ 8); u8 v].
Definition EncodeFloatBe (v : F32.t) : list Z := EncodeU32 (FloatBits v).
Definition EncodeU16 (v : Z) : list Z := [u8 (v ≫ 8); u8 (v .& 255)].
Definition EncodeI16 (v : Z) : list Z := [u8 (u16 v ≫ 8); u8 (u16 v .& 255)].

Definition ParameterHiddenFromOldFirmware (p : option MotorParameter.t) : bool :=
  match p with
  | Some MotorParameter.EncoderAngle | Some MotorParameter.ProductId
  | Some MotorParameter.HardwareVersion => true
  | _ => false
  end.
Definition SnapshotIsNewFirmware (s : FakeMotorSnapshot) : bool :=
  negb (default 0 (fs_fw_version (fs_build s)) =? 0).
Definition DecodeRawU16 (raw : list Z) (offset : nat) : Z :=
  u16 ((byte_at raw offset ≪ 8) .| byte_at raw (offset + 1)).
Definition EncodeTemperature (celsius : F32.t) (new_firmware : bool) : option Z :=
  let raw := if new_firmware then F32.add celsius (F32.of_Z 55)
             else F32.add (F32.mul celsius (F32.of_Z 2)) (F32.of_Z 50) in
  SF_cast 0 255 (F32.clamp raw F32.zero (F32.of_Z 255)).

(** The enumerator a raw byte is cast to, if there is one. *)
Definition known_parameters : list MotorParameter.t :=
  [MotorParameter.Position; MotorParameter.Speed; MotorParameter.Current; MotorParameter.Power;
   MotorParameter.Kt; MotorParameter.PVTKpRange; MotorParameter.PVTKdRange; MotorParameter.PVTPosRange;
   MotorParameter.PVTSpdRange; MotorParameter.PVTTorRange; MotorParameter.PVTCurRange; MotorParameter.UUID;
   MotorParameter.CanTimeout; MotorParameter.CurKpKi; MotorParameter.SpdKpKi; MotorParameter.PosKpKd;
   MotorParameter.BrakeStatus; MotorParameter.EncoderAngle; MotorParameter.ProductId;
   MotorParameter.HardwareVersion; MotorParameter.FirmwareVersion].
Definition parameter_of_code (c : Z) : option MotorParameter.t :=
  List.find (fun p => MotorParameter.code p =? c) known_parameters.

(** ** Seeding *)

Section Models.
Context {MotorModel : Type} (GetMotorModelRanges : MotorModel -> MotorProperties).

Definition CreateSnapshot (model : MotorModel) : FakeMotorSnapshot :=
  let ranges := GetMotorModelRanges model in
  mkSnapshot
    (mkBuild (F32.of_Z 25) (F32.of_Z 25) (F32.of_Z 5) (kt ranges) 0 MotorError.NoError (Some 0) 0 0
       0 F32.zero F32.zero)
    (mkSettings ranges 1000 MotorCommunicationMode.ClassicCan (mkKpKi 0 0) (mkKpKi 0 0) (mkKpKd 0 0))
    (mkKin F32.zero F32.zero F32.zero F32.zero) false.

Definition motion_of (s : FakeMotorSnapshot) (now : Z) : FakeMotionState :=
  mkMotion now (fs_speed_rad_s (fs_kin s)) (fs_speed_rad_s (fs_kin s)) (F32.of_Z 1).

Definition SeedMotor (bus_idx motor_idx : Z) (s : FakeMotorSnapshot) (now : Z) (F : FakeState) : FakeState :=
  let key := MakeKey bus_idx motor_idx in
  set_motion key (motion_of s now) (set_snapshot key s F).

Definition SetReplyMode (mode : FakeReplyMode) (F : FakeState) : FakeState :=
  with_modes mode (auto_create_motor_enabled F) (command_recording_enabled F) (has_observer F)
    (position_error_enabled F) F.
Definition SetAutoCreateMotor (b : bool) (F : FakeState) : FakeState :=
  with_modes (reply_mode F) b (command_recording_enabled F) (has_observer F) (position_error_enabled F) F.
Definition SetParameterWritePolicy (bus_idx motor_idx : Z) (p : MotorParameter.t) (policy : FakeWritePolicy)
    (F : FakeState) : FakeState :=
  mkFake (snapshots F) (motions F)
    (<[(MakeKey bus_idx motor_idx, MotorParameter.code p) := policy]> (parameter_policies F)) (reply_mode F)
    (auto_create_motor_enabled F) (command_recording_enabled F) (has_observer F) (command_records F)
    (reply_records F) (raw_sent_messages F) (position_error_enabled F).
Definition SetDecodedCommandObserver (installed : bool) (F : FakeState) : FakeState :=
  with_modes (reply_mode F) (auto_create_motor_enabled F) (command_recording_enabled F) installed
    (position_error_enabled F) F.
Definition EnableCommandRecording (b : bool) (F : FakeState) : FakeState :=
  with_modes (reply_mode F) (auto_create_motor_enabled F) b (has_observer F) (position_error_enabled F) F.
Definition EnablePositionError (b : bool) (F : FakeState) : FakeState :=
  with_modes (reply_mode F) (auto_create_motor_enabled F) (command_recording_enabled F) (has_observer F) b F.
Definition ClearCommandRecords (F : FakeState) : FakeState := with_records [] [] [] F.

(** ** The simulated motion *)

(** [duration<float>(now - last).count()], the difference being in nanoseconds. *)
Definition elapsed_seconds (now last : Z) : F32.t := F32.div (F32.of_Z (now - last)) (F32.of_Z 1000000000).

(** The new speed and the increment of the position, before the simulated error. *)
Definition integrate (s : FakeMotorSnapshot) (m : FakeMotionState) (elapsed : F32.t) : F32.t * F32.t :=
  let start_speed := current_speed m in
  let accel := F32.mul (F32.abs (fs_acceleration (fs_build s))) (acceleration_scale m) in
  let speed_delta := F32.sub (target_speed m) start_speed in
  let max_delta := F32.mul accel elapsed in
  let speed_delta := if F32.ltb max_delta speed_delta then max_delta
                     else if F32.ltb speed_delta (F32.opp max_delta) then F32.opp max_delta
                     else speed_delta in
  let end_speed := F32.add start_speed speed_delta in
  (end_speed, F32.mul (F32.mul (F32.add start_speed end_speed) (f32_lit 1 2)) elapsed).

Definition AdvanceMotionToNowLocked (env : FakeEnv) (bus_idx motor_idx : Z) (F : FakeState) : FakeState :=
  let key := MakeKey bus_idx motor_idx in
  match snapshots F !! key with
  | None => F
  | Some s =>
      let now := e_now env in
      match motions F !! key with
      | None => set_motion key (motion_of s now) F
      | Some m =>
          let elapsed := elapsed_seconds now (last_update m) in
          let stamped := mkMotion now (current_speed m) (target_speed m) (acceleration_scale m) in
          if F32.leb elapsed F32.zero then
            set_motion key stamped
              (set_snapshot key
                 (set_kin (fun k => mkKin (fs_position_rad k) (current_speed m) (fs_current_a k) (fs_torque_nm k)) s) F)
          else
            let (end_speed, base_increment) := integrate s m elapsed in
            let increment :=
              if position_error_enabled F
              then F32.add base_increment (e_noise env (F32.mul (f32_lit 1 10) (F32.abs base_increment)))
              else base_increment in
            set_motion key (mkMotion now end_speed (target_speed m) (acceleration_scale m))
              (set_snapshot key
                 (set_kin (fun k =>
                    mkKin (if F32.eqb base_increment F32.zero then fs_position_rad k
                           else F32.add (fs_position_rad k) increment)
                      end_speed (fs_current_a k) (fs_torque_nm k)) s) F)
      end
  end.

(** [None]: [std::out_of_range]. *)
Definition GetMotorSnapshot (env : FakeEnv) (bus_idx motor_idx : Z) (F : FakeState)
    : option FakeMotorSnapshot * FakeState :=
  let F := AdvanceMotionToNowLocked env bus_idx motor_idx F in
  (snapshots F !! MakeKey bus_idx motor_idx, F).
End Models.

(** ** Replies *)

Definition feedback_default_position : Range F32.t := mkRange (f32_lit (-25) 2) (f32_lit 25 2).
Definition feedback_default_speed : Range F32.t := mkRange (F32.of_Z (-18)) (F32.of_Z 18).

Definition MakeFeedbackMessageLocked (F : FakeState) (bus_idx motor_idx : Z) (st : MotorStatus)
    (feedback_type : Z) : option MotorMessage :=
  let snapshot := snapshots F !! MakeKey bus_idx motor_idx in
  let ranges := option_map (fun s => fs_ranges (fs_settings s)) snapshot in
  let new_firmware := match snapshot with Some s => SnapshotIsNewFirmware s | None => false end in
  let first := u8 ((feedback_type ≪ 5) .| u8 (fb_error st)) in
  let pack bytes := mkMsg bus_idx (make_pack (u32 motor_idx) 8 (first :: bytes)) in
  if feedback_type =? 1 then
    let position_range := range_or (option_map position ranges) (rmin feedback_default_position) (rmax feedback_default_position) in
    let speed_range := range_or (option_map speed ranges) (rmin feedback_default_speed) (rmax feedback_default_speed) in
    let current_range := range_or (option_map current ranges) F32.zero F32.zero in
    pos_int ← FloatToUint (fb_position st) (rmin position_range) (rmax position_range) 16;
    spd_int ← FloatToUint (fb_speed st) (rmin speed_range) (rmax speed_range) 12;
    cur_int ← FloatToUint (fb_current st) (rmin current_range) (rmax current_range) 12;
    motor ← EncodeTemperature (fb_motor_temperature st) new_firmware;
    mos ← EncodeTemperature (fb_mos_temperature st) new_firmware;
    Some (pack [u8 (pos_int ≫ 8); u8 (pos_int .& 255); u8 (spd_int ≫ 4);
                u8 (((spd_int .& 15) ≪ 4) .| ((cur_int ≫ 8) .& 15)); u8 (cur_int .& 255); motor; mos])
  else
    let value := if feedback_type =? 2 then F32.div (F32.mul (fb_position st) (F32.of_Z 180)) pi32
                 else F32.div (F32.mul (fb_speed st) (F32.of_Z 30)) pi32 in
    cur_int ← cast_i16 (F32.mul (fb_current st) (F32.of_Z 100));
    motor ← EncodeTemperature (fb_motor_temperature st) new_firmware;
    Some (pack (EncodeFloatBe value ++ [u8 (cur_int ≫ 8); u8 (cur_int .& 255); motor])).

(** [MotorPackMsg pack{}] with a header and [memcpy] of at most the space left. *)
Definition reply_pack (motor_idx flags : Z) (header payload : list Z) : MotorPackMsg :=
  let space := (8 - length header)%nat in
  mkPack (u32 motor_idx) flags (u8 (Z.of_nat (length payload + length header)))
    (header ++ take space payload ++ replicate (space - length (take space payload)) 0).

Definition MakeParameterReply (bus_idx motor_idx parameter : Z) (payload : list Z) (flags : Z) : MotorMessage :=
  mkMsg bus_idx (reply_pack motor_idx flags [u8 (5 ≪ 5); u8 parameter] payload).
Definition MakeRawWriteAckMessage (bus_idx motor_idx raw_parameter_id : Z) (payload : list Z) (flags : Z)
    : MotorMessage := mkMsg bus_idx (reply_pack motor_idx flags [255; 254; raw_parameter_id] payload).
Definition MakeWriteAck (bus_idx motor_idx : Z) (p : MotorParameter.t) (payload : list Z) (flags : Z)
    : MotorMessage := MakeRawWriteAckMessage bus_idx motor_idx (FakeRawIdFromWriteParameter p) payload flags.
Definition InjectMessage (m : MotorMessage) : list FakeEvent := [Replied m].

(** ** Parameter reads and writes *)

Definition range_payload (enc : Z -> list Z) (cast : F32.t -> option Z) (scale : F32.t) (r : Range F32.t)
    : option (list Z) :=
  lo ← cast (F32.mul (rmin r) scale); hi ← cast (F32.mul (rmax r) scale); Some (enc lo ++ enc hi).
(** The gain ranges are cast as they are. *)
Definition gain_range_payload (r : Range F32.t) : option (list Z) :=
  lo ← cast_u16 (rmin r); hi ← cast_u16 (rmax r); Some (EncodeU16 lo ++ EncodeU16 hi).

(** The [switch] on the queried parameter. *)
Definition reply_payload (s : FakeMotorSnapshot) (p : option MotorParameter.t) : option (list Z) :=
  let b := fs_build s in let t := fs_settings s in let k := fs_kin s in
  let r := fs_ranges t in
  match p with
  | Some MotorParameter.Position => Some (EncodeFloatBe (F32.div (F32.mul (fs_position_rad k) (F32.of_Z 180)) pi32))
  | Some MotorParameter.Speed => Some (EncodeFloatBe (F32.div (F32.mul (fs_speed_rad_s k) (F32.of_Z 30)) pi32))
  | Some MotorParameter.Current => Some (EncodeFloatBe (fs_current_a k))
  | Some MotorParameter.EncoderAngle =>
      raw ← cast_i16 (F32.mul (fs_raw_angle_deg b) (F32.of_Z 100));
      cal ← cast_i16 (F32.mul (fs_cal_angle_deg b) (F32.of_Z 100));
      Some (fs_cal_flag b :: EncodeI16 raw ++ EncodeI16 cal)
  | Some MotorParameter.CurKpKi => Some (EncodeU16 (pi_kp (fs_cur_gain_raw t)) ++ EncodeU16 (pi_ki (fs_cur_gain_raw t)))
  | Some MotorParameter.SpdKpKi => Some (EncodeU16 (pi_kp (fs_spd_gain_raw t)) ++ EncodeU16 (pi_ki (fs_spd_gain_raw t)))
  | Some MotorParameter.PosKpKd => Some (EncodeU16 (pd_kp (fs_pos_gain_raw t)) ++ EncodeU16 (pd_kd (fs_pos_gain_raw t)))
  | Some MotorParameter.ProductId => Some (EncodeU32 (fs_product_id b))
  | Some MotorParameter.HardwareVersion => Some (EncodeU32 (fs_hw_version b))
  | Some MotorParameter.FirmwareVersion => Some (EncodeU32 (default 0 (fs_fw_version b)))
  | Some MotorParameter.Kt => v ← cast_u16 (F32.mul (fs_kt b) (F32.of_Z 100)); Some (EncodeU16 v)
  | Some MotorParameter.PVTKpRange => gain_range_payload (kp r)
  | Some MotorParameter.PVTKdRange => gain_range_payload (kd r)
  | Some MotorParameter.PVTPosRange => range_payload EncodeI16 cast_i16 (F32.of_Z 100) (position r)
  | Some MotorParameter.PVTSpdRange => range_payload EncodeI16 cast_i16 (F32.of_Z 100) (speed r)
  | Some MotorParameter.PVTTorRange => range_payload EncodeI16 cast_i16 (F32.of_Z 10) (torque r)
  | Some MotorParameter.PVTCurRange => range_payload EncodeI16 cast_i16 (F32.of_Z 10) (current r)
  | Some MotorParameter.CanTimeout => Some (EncodeU16 (fs_can_timeout_ms t))
  | Some MotorParameter.BrakeStatus => Some [if fs_brake_enabled s then 0 else 1]
  | _ => Some (EncodeFloatBe F32.zero)
  end.

(** The parameters whose value depends on the motion up to now. *)
Definition reads_motion (p : option MotorParameter.t) : bool :=
  match p with
  | Some MotorParameter.Position | Some MotorParameter.Speed | Some MotorParameter.Current => true
  | _ => false
  end.

Definition raw_word (raw : list Z) (o : nat) : Z := (byte_at raw o ≪ 8) .| byte_at raw (o + 1).
Definition raw_range (den : Z) (raw : list Z) : Range F32.t :=
  mkRange (F32.div (F32.of_Z (i16 (raw_word raw 0))) (F32.of_Z den))
          (F32.div (F32.of_Z (i16 (raw_word raw 2))) (F32.of_Z den)).
Definition gain_range (raw : list Z) : Range F32.t :=
  mkRange (F32.of_Z (raw_word raw 0)) (F32.of_Z (raw_word raw 2)).

Definition with_ranges (f : MotorProperties -> MotorProperties) (t : FakeSettings) : FakeSettings :=
  mkSettings (f (fs_ranges t)) (fs_can_timeout_ms t) (fs_communication_mode t) (fs_cur_gain_raw t)
    (fs_spd_gain_raw t) (fs_pos_gain_raw t).

(** The [if]s of a parameter write; each asks for enough bytes. *)
Definition write_parameter (raw_parameter_id : Z) (p : option MotorParameter.t) (raw : list Z)
    (t : FakeSettings) : FakeSettings :=
  let t := if (raw_parameter_id =? 2) && (1 <=? length raw)%nat
           then mkSettings (fs_ranges t) (fs_can_timeout_ms t) (byte_at raw 0) (fs_cur_gain_raw t)
                  (fs_spd_gain_raw t) (fs_pos_gain_raw t)
           else t in
  let four := (4 <=? length raw)%nat in
  match p with
  | Some MotorParameter.CanTimeout =>
      if (2 <=? length raw)%nat
      then mkSettings (fs_ranges t) (u16 (raw_word raw 0)) (fs_communication_mode t) (fs_cur_gain_raw t)
             (fs_spd_gain_raw t) (fs_pos_gain_raw t)
      else t
  | Some MotorParameter.PVTKpRange => if four then with_ranges (set_kp (gain_range raw)) t else t
  | Some MotorParameter.PVTKdRange => if four then with_ranges (set_kd (gain_range raw)) t else t
  | Some MotorParameter.PVTPosRange => if four then with_ranges (set_position (raw_range 100 raw)) t else t
  | Some MotorParameter.PVTSpdRange => if four then with_ranges (set_speed (raw_range 100 raw)) t else t
  | Some MotorParameter.PVTTorRange => if four then with_ranges (set_torque (raw_range 10 raw)) t else t
  | Some MotorParameter.PVTCurRange => if four then with_ranges (set_current (raw_range 10 raw)) t else t
  | Some MotorParameter.CurKpKi =>
      if four then mkSettings (fs_ranges t) (fs_can_timeout_ms t) (fs_communication_mode t)
                     (mkKpKi (DecodeRawU16 raw 0) (DecodeRawU16 raw 2)) (fs_spd_gain_raw t) (fs_pos_gain_raw t)
      else t
  | Some MotorParameter.SpdKpKi =>
      if four then mkSettings (fs_ranges t) (fs_can_timeout_ms t) (fs_communication_mode t)
                     (fs_cur_gain_raw t) (mkKpKi (DecodeRawU16 raw 0) (DecodeRawU16 raw 2)) (fs_pos_gain_raw t)
      else t
  | Some MotorParameter.PosKpKd =>
      if four then mkSettings (fs_ranges t) (fs_can_timeout_ms t) (fs_communication_mode t)
                     (fs_cur_gain_raw t) (fs_spd_gain_raw t) (mkKpKd (DecodeRawU16 raw 0) (DecodeRawU16 raw 2))
      else t
  | _ => t
  end.

(** ** Send *)

Section Send.
Context {MotorModel : Type} (GetMotorModelRanges : MotorModel -> MotorProperties).
Context (EC_A4310_P2 : MotorModel).

Definition notify (env : FakeEnv) (r : FakeCommandRecord) (F : FakeState) : FakeState * list FakeEvent :=
  if has_observer F then (e_observer env F, [Observed r]) else (F, []).

(** [notify_observer()], then a reply built from the state the observer left. *)
Definition notify_then (env : FakeEnv) (r : FakeCommandRecord) (reply : FakeState -> option (list FakeEvent))
    (F : FakeState) : option (FakeState * list FakeEvent) :=
  let (F, seen) := notify env r F in
  replies ← reply F; Some (F, seen ++ replies).

(** A reply built before the observer is called. *)
Definition reply_with (env : FakeEnv) (r : FakeCommandRecord) (m : MotorMessage) (F : FakeState)
    : option (FakeState * list FakeEvent) := notify_then env r (fun _ => Some [Replied m]) F.

Definition status_of (s : FakeMotorSnapshot) (pos spd cur : F32.t) : MotorStatus :=
  mkFb1 (fs_error (fs_build s)) pos spd cur (fs_motor_temp_c (fs_build s)) (fs_mos_temp_c (fs_build s)).

Definition emit_status (message : MotorMessage) (key feedback_type : Z)
    (st : FakeMotorSnapshot -> MotorStatus) (F : FakeState) : option (list FakeEvent) :=
  if feedback_type <=? 0 then Some []
  else
    s ← snapshots F !! key;
    m ← MakeFeedbackMessageLocked F (bus_idx message) (i32 (id (mdata message))) (st s) feedback_type;
    Some [Replied m].
Definition emit_feedback (message : MotorMessage) (key feedback_type : Z) : FakeState -> option (list FakeEvent) :=
  emit_status message key feedback_type (fun s =>
    status_of s (fs_position_rad (fs_kin s)) (fs_speed_rad_s (fs_kin s)) (fs_current_a (fs_kin s))).

Definition update_snapshot (key : Z) (f : FakeMotorSnapshot -> FakeMotorSnapshot) (F : FakeState) : FakeState :=
  with_motors (alter f key (snapshots F)) (motions F) F.

(** The motion of a motor that keeps [speed]. *)
Definition steady (env : FakeEnv) (speed : F32.t) : FakeMotionState :=
  mkMotion (e_after env) speed speed (F32.of_Z 1).

(** A current or torque: the motor accelerates towards the end of its speed range. *)
Definition push_motion (env : FakeEnv) (key : Z) (value : F32.t) (F : FakeState) : FakeState :=
  match snapshots F !! key with
  | None => F
  | Some s =>
      let m := default (mkMotion 0 F32.zero F32.zero (F32.of_Z 1)) (motions F !! key) in
      set_motion key
        (if F32.ltb (F32.abs value) (f32_lit 1 1000000)
         then mkMotion (e_after env) (current_speed m) (current_speed m) F32.zero
         else mkMotion (e_after env) (current_speed m)
                (F32.mul (if F32.ltb F32.zero value then F32.of_Z 1 else F32.of_Z (-1))
                         (F32.abs (rmax (speed (fs_ranges (fs_settings s)))))) (F32.of_Z 1)) F
  end.

Definition broadcast_ack (message : MotorMessage) (hi lo kind : Z) : MotorMessage :=
  mkMsg (bus_idx message) (make_pack 2047 4 [hi; lo; 0; kind]).

(** The command on a simulated motor that answers. *)
Definition HandleCommand (env : FakeEnv) (message : MotorMessage) (motor key : Z) (r : FakeCommandRecord)
    (F : FakeState) : option (FakeState * list FakeEvent) :=
  let pack := mdata message in
  let idx := i32 (id pack) in
  match fr_payload r with
  | FakePVTControl _ _ pos spd tor =>
      notify_then env r (emit_feedback message key 1)
        (set_motion key (steady env spd) (update_snapshot key (set_kin (fun _ => mkKin pos spd tor tor)) F))
  | FakePosControl pos spd cur fb =>
      notify_then env r (emit_status message key fb (fun s => status_of s pos spd cur))
        (set_motion key (steady env F32.zero)
           (update_snapshot key (set_kin (fun k => mkKin pos F32.zero cur (fs_torque_nm k))) F))
  | FakeSpdControl spd cur fb =>
      let F := AdvanceMotionToNowLocked env (bus_idx message) motor F in
      notify_then env r (emit_feedback message key fb)
        (set_motion key (steady env spd)
           (update_snapshot key (set_kin (fun k => mkKin (fs_position_rad k) spd cur (fs_torque_nm k))) F))
  | FakeCurControl cur fb =>
      let F := AdvanceMotionToNowLocked env (bus_idx message) motor F in
      notify_then env r (emit_feedback message key fb)
        (push_motion env key cur
           (update_snapshot key (set_kin (fun k => mkKin (fs_position_rad k) (fs_speed_rad_s k) cur (fs_torque_nm k))) F))
  | FakeTorControl tor fb =>
      let F := AdvanceMotionToNowLocked env (bus_idx message) motor F in
      notify_then env r (emit_feedback message key fb)
        (push_motion env key tor
           (update_snapshot key (set_kin (fun k => mkKin (fs_position_rad k) (fs_speed_rad_s k) tor tor)) F))
  | FakeStop _ cur fb =>
      notify_then env r (emit_feedback message key fb)
        (set_motion key (steady env F32.zero)
           (update_snapshot key (set_kin (fun k => mkKin (fs_position_rad k) F32.zero cur (fs_torque_nm k))) F))
  | FakeBrake enabled =>
      s ← snapshots F !! key;
      reply_with env r
        (mkMsg (bus_idx message)
           (make_pack (id pack) 2 [u8 (192 .| u8 (fs_error (fs_build s))); if enabled then 0 else 1]))
        (update_snapshot key (set_brake enabled) F)
  | FakeSetPos pos =>
      reply_with env r (broadcast_ack message (byte_at (data pack) 0) (byte_at (data pack) 1) 3)
        (update_snapshot key (set_kin (fun k => mkKin pos (fs_speed_rad_s k) (fs_current_a k) (fs_torque_nm k))) F)
  | FakeResetZeroPos =>
      reply_with env r (broadcast_ack message (byte_at (data pack) 0) (byte_at (data pack) 1) 3)
        (update_snapshot key (set_kin (fun k => mkKin F32.zero (fs_speed_rad_s k) (fs_current_a k) (fs_torque_nm k))) F)
  | FakeSetId _ target_id =>
      reply_with env r (broadcast_ack message (u8 (target_id ≫ 8)) (u8 (target_id .& 255)) 4) F
  | FakeGetParameter c =>
      s ← snapshots F !! key;
      let p := parameter_of_code c in
      if match fs_fw_version (fs_build s) with None => true | Some _ => false end ||
         (negb (SnapshotIsNewFirmware s) && ParameterHiddenFromOldFirmware p)
      then Some (notify env r F)
      else
        let F := if reads_motion p then AdvanceMotionToNowLocked env (bus_idx message) motor F else F in
        s ← snapshots F !! key;
        payload ← reply_payload s p;
        reply_with env r
          (MakeParameterReply (bus_idx message) idx c payload (fs_reply_frame_flags (fs_build s))) F
  | FakeSetParameter raw_parameter_id p _ raw_value =>
      s ← snapshots F !! key;
      let policy := match p with
                    | Some p => default PolicySuccess (parameter_policies F !! (key, MotorParameter.code p))
                    | None => PolicySuccess
                    end in
      let F := with_records (command_records F)
                 (reply_records F ++ [mkReplyRecord (bus_idx message) idx policy]) (raw_sent_messages F) F in
      if bool_decide (policy = PolicySuccess) then
        let flags := fs_reply_frame_flags (fs_build s) in
        reply_with env r
          (match p with
           | Some p => MakeWriteAck (bus_idx message) idx p raw_value flags
           | None => MakeRawWriteAckMessage (bus_idx message) idx raw_parameter_id raw_value flags
           end)
          (update_snapshot key (set_settings (write_parameter raw_parameter_id p raw_value)) F)
      else Some (notify env r F)
  | FakeUnknown => Some (notify env r F)
  end.

Definition kMaxCommandRecords : Z := 100000.

Definition logical_motor_id (pack : MotorPackMsg) : Z :=
  if (id pack =? 2047) && (2 <=? len pack) then (byte_at (data pack) 0 ≪ 8) .| byte_at (data pack) 1
  else i32 (id pack).

(** An unknown motor is created first when that is enabled. *)
Definition auto_create (env : FakeEnv) (message : MotorMessage) (F : FakeState) : FakeState :=
  let motor := logical_motor_id (mdata message) in
  match snapshots F !! MakeKey (bus_idx message) motor with
  | None =>
      if auto_create_motor_enabled F
      then SeedMotor (bus_idx message) motor (CreateSnapshot GetMotorModelRanges EC_A4310_P2) (e_now env) F
      else F
  | Some _ => F
  end.

Definition record_command (r : FakeCommandRecord) (F : FakeState) : FakeState :=
  if command_recording_enabled F then
    let records := command_records F ++ [r] in
    with_records (if kMaxCommandRecords <? Z.of_nat (length records) then tail records else records)
      (reply_records F) (raw_sent_messages F) F
  else F.

Definition Send (env : FakeEnv) (message : MotorMessage) (F : FakeState)
    : option (FakeState * list FakeEvent) :=
  let F := with_records (command_records F) (reply_records F) (raw_sent_messages F ++ [message]) F in
  let motor := logical_motor_id (mdata message) in
  let key := MakeKey (bus_idx message) motor in
  let F := auto_create env message F in
  let snapshot := snapshots F !! key in
  let r := DecodeFakeCommand message (option_map (fun s => fs_ranges (fs_settings s)) snapshot) in
  let F := record_command r F in
  match snapshot with
  | None => Some (notify env r F)
  | Some _ =>
      if bool_decide (reply_mode F = Automatic) then HandleCommand env message motor key r F
      else Some (notify env r F)
  end.
End Send.

(** A motor for examples. *)
Definition example_env : FakeEnv := mkEnv 0 0 (fun x => x) (fun F => F).
Definition example_build : FakeBuild :=
  mkBuild (F32.of_Z 25) (F32.of_Z 25) (F32.of_Z 5) F32.zero 0 MotorError.NoError (Some 0) 0 0 0 F32.zero F32.zero.
Definition example_snapshot : FakeMotorSnapshot :=
  mkSnapshot example_build
    (mkSettings Motor.example_ranges 1000 0 (mkKpKi 0 0) (mkKpKi 0 0) (mkKpKd 0 0))
    (mkKin F32.zero F32.zero F32.zero F32.zero) false.
