(* ===== verification/FakeLoop.v ===== *)
(** * FakeLoop: the driver's motor against the simulated one

    The motor of [Motor] and [MotorParameter] talks to a motor of [FakeAdapter]:
    what the simulated motor answers to a frame is what arrives during the wait for
    it. *)
From stdpp Require Import base list numbers option gmap.
From Stdlib Require Import ZArith Lia.
From Stdlib Require Import SpecFloat.
From S2P Require Import Prelude CFloat Types MathUtils Quantise PackHelper StatusCache MotorLog Motor.
From S2P Require Import MotorControl MotorParameter FakeProtocol FakeAdapter.
#[local] Open Scope Z_scope.
#[local] Open Scope cint_scope.

(** ** Parameter writes as data *)

(** The acknowledged setters of [MotorParameter] with their arguments. *)
Inductive Setting :=
| KpRangeSetting (r : Range Z) | KdRangeSetting (r : Range Z)
| PosRangeSetting (r : Range F32.t) | SpdRangeSetting (r : Range F32.t)
| TorRangeSetting (r : Range F32.t) | CurRangeSetting (r : Range F32.t)
| CanTimeoutSetting (timeout_ms : Z)
| CurPISetting (kp ki : F32.t) | SpdPISetting (kp ki : F32.t) | PosPDSetting (kp kd : F32.t).

Definition apply_setting {S} (s : Setting) : M S bool :=
  match s with
  | KpRangeSetting r => SetPVTKpRange r true
  | KdRangeSetting r => SetPVTKdRange r true
  | PosRangeSetting r => SetPVTPosRange r true
  | SpdRangeSetting r => SetPVTSpdRange r true
  | TorRangeSetting r => SetPVTTorRange r true
  | CurRangeSetting r => SetPVTCurRange r true
  | CanTimeoutSetting t => SetCanTimeout t true
  | CurPISetting a b => SetCurPI a b true
  | SpdPISetting a b => SetSpdPI a b true
  | PosPDSetting a b => SetPosPD a b true
  end.

Definition setting_parameter (s : Setting) : MotorParameter.t :=
  match s with
  | KpRangeSetting _ => MotorParameter.PVTKpRange | KdRangeSetting _ => MotorParameter.PVTKdRange
  | PosRangeSetting _ => MotorParameter.PVTPosRange | SpdRangeSetting _ => MotorParameter.PVTSpdRange
  | TorRangeSetting _ => MotorParameter.PVTTorRange | CurRangeSetting _ => MotorParameter.PVTCurRange
  | CanTimeoutSetting _ => MotorParameter.CanTimeout
  | CurPISetting _ _ => MotorParameter.CurKpKi | SpdPISetting _ _ => MotorParameter.SpdKpKi
  | PosPDSetting _ _ => MotorParameter.PosKpKd
  end.

Definition is_u16 (v : Z) : bool := (0 <=? v) && (v <? 65536).

(** The 16-bit words a setting is sent as; [None] when an argument is not a value
    of its C++ type or its conversion is undefined. *)
Definition scaled_words (den : Z) (r : Range F32.t) : option (list Z) :=
  lo ← cast_i16 (F32.mul (rmin r) (F32.of_Z den)); hi ← cast_i16 (F32.mul (rmax r) (F32.of_Z den));
  Some [lo; hi].
Definition gain_words (scale1 scale2 : F32.t -> option Z) (a b : F32.t) : option (list Z) :=
  x ← scale1 a; y ← scale2 b; Some [x; y].
Definition setting_words (fw : Z) (s : Setting) : option (list Z) :=
  match s with
  | KpRangeSetting r | KdRangeSetting r =>
      if is_u16 (rmin r) && is_u16 (rmax r) then Some [rmin r; rmax r] else None
  | PosRangeSetting r | SpdRangeSetting r => scaled_words 100 r
  | TorRangeSetting r | CurRangeSetting r => scaled_words 10 r
  | CanTimeoutSetting t => if is_u16 t then Some [t] else None
  | CurPISetting a b =>
      gain_words (fun x => cast_u16 (F32.mul x (F32.of_Z 10000))) (fun x => cast_u16 (F32.mul x (F32.of_Z 10))) a b
  | SpdPISetting a b | PosPDSetting a b =>
      gain_words (fun x => clamped_gain x (LoopGainScaleFor fw)) (fun x => clamped_gain x (LoopGainScaleFor fw)) a b
  end.

Definition words_payload (ws : list Z) : list Z := concat (map word_bytes ws).
Definition setting_message (idx : Z) (s : Setting) (ws : list Z) : MotorPackMsg :=
  WriteMessage idx (2 + 2 * Z.of_nat (length ws)) (FakeRawIdFromWriteParameter (setting_parameter s))
    (words_payload ws).

(** What the driver remembers of a setting. *)
Definition word (ws : list Z) (k : nat) : Z := nth k ws 0.
Definition word_range (ws : list Z) : Range Z := mkRange (word ws 0) (word ws 1).
Definition remember (s : Setting) (ws : list Z) : MotorProperties -> MotorProperties :=
  match s with
  | KpRangeSetting _ => set_kp (range_of_Z (word_range ws))
  | KdRangeSetting _ => set_kd (range_of_Z (word_range ws))
  | PosRangeSetting _ => set_position (scale_range (word_range ws) 100)
  | SpdRangeSetting _ => set_speed (scale_range (word_range ws) 100)
  | TorRangeSetting _ => set_torque (scale_range (word_range ws) 10)
  | CurRangeSetting _ => set_current (scale_range (word_range ws) 10)
  | _ => fun r => r
  end.

(** The value of a parameter whose words on the wire are [ws]. *)
Definition setting_value (fw : Z) (s : Setting) (ws : list Z) : MotorParameterRetType (setting_parameter s) :=
  match s return MotorParameterRetType (setting_parameter s) with
  | KpRangeSetting _ => word_range ws | KdRangeSetting _ => word_range ws
  | PosRangeSetting _ => scale_range (word_range ws) 100
  | SpdRangeSetting _ => scale_range (word_range ws) 100
  | TorRangeSetting _ => scale_range (word_range ws) 10
  | CurRangeSetting _ => scale_range (word_range ws) 10
  | CanTimeoutSetting _ => word ws 0
  | CurPISetting _ _ => mkKpKi (F32.div (F32.of_Z (word ws 0)) (F32.of_Z 10000)) (F32.div (F32.of_Z (word ws 1)) (F32.of_Z 10))
  | SpdPISetting _ _ =>
      mkKpKi (F32.div (F32.of_Z (word ws 0)) (LoopGainScaleFor fw)) (F32.div (F32.of_Z (word ws 1)) (LoopGainScaleFor fw))
  | PosPDSetting _ _ =>
      mkKpKd (F32.div (F32.of_Z (word ws 0)) (LoopGainScaleFor fw)) (F32.div (F32.of_Z (word ws 1)) (LoopGainScaleFor fw))
  end.

(** The simulated motor keeps a scaled range as floats and quantises it again for
    the reply. *)
Definition requantise (den v : Z) : option Z :=
  cast_i16 (F32.mul (F32.div (F32.of_Z v) (F32.of_Z den)) (F32.of_Z den)).
Definition reported (s : Setting) (ws : list Z) : option (list Z) :=
  match s with
  | PosRangeSetting _ | SpdRangeSetting _ =>
      lo ← requantise 100 (word ws 0); hi ← requantise 100 (word ws 1); Some [lo; hi]
  | TorRangeSetting _ | CurRangeSetting _ =>
      lo ← requantise 10 (word ws 0); hi ← requantise 10 (word ws 1); Some [lo; hi]
  | _ => Some ws
  end.

(** The range that a setting is about. *)
Definition setting_range (s : Setting) (r : MotorProperties) : option (Range F32.t) :=
  match s with
  | KpRangeSetting _ => Some (kp r) | KdRangeSetting _ => Some (kd r)
  | PosRangeSetting _ => Some (position r) | SpdRangeSetting _ => Some (speed r)
  | TorRangeSetting _ => Some (torque r) | CurRangeSetting _ => Some (current r)
  | _ => None
  end.

(** ** The loop *)

Section Loop.
Context {MotorModel : Type} (GetMotorModelRanges : MotorModel -> MotorProperties) (EC_A4310_P2 : MotorModel).

Definition replies (events : list FakeEvent) : list EnvAction :=
  omap (fun e => match e with Replied m => Some (Rx (mdata m)) | Observed _ => None end) events.

(** The wait for the answer to frame [p] on bus [bus]. *)
Definition answers (env : FakeEnv) (bus : Z) (p : MotorPackMsg) (F : FakeState) : option (FakeState * WaitScript) :=
  '(F, events) ← Send GetMotorModelRanges EC_A4310_P2 env (mkMsg bus p) F;
  Some (F, mkScript [] (replies events)).

(** A simulated motor that answers, with nobody watching. *)
Record Hosts (F : FakeState) (bus idx : Z) (sm : FakeMotorSnapshot) : Prop := {
  ho_idx : 0 <= idx < 2147483648;
  ho_private : idx <> 2047;
  ho_here : snapshots F !! MakeKey bus idx = Some sm;
  ho_automatic : reply_mode F = Automatic;
  ho_quiet : has_observer F = false }.

(** A motor that can make one exchange after another. *)
Record Able {S} (w : World S) : Prop := {
  able_ready : Ready w;
  able_waiters : WaitersOk (w_impl w);
  able_faults : w_faults w = [] }.
End Loop.

(** ** The driver's side *)

Section Driver.
Context {S : Type}.
Implicit Types (w : World S).

Lemma RunEnv_registered l w : Retire ∉ l -> w_registered (RunEnv l w) = w_registered w.
Proof.
  revert w. induction l as [|a l IH]; intros w Hl; [done|].
  apply not_elem_of_cons in Hl as [Ha Hl].
  change (RunEnv (a :: l) w) with (RunEnv l (RunEnvAction a w)). rewrite IH by done.
  destruct a; cbn; try done. by destruct (OnMessage _ _ _) as [[]].
Qed.

(** What one exchange leaves behind. *)
Record Exchanged w w' (msg : MotorPackMsg) (rest : list WaitScript) : Prop := {
  ex_able : Able w';
  ex_waits : w_waits w' = rest;
  ex_idx : m_idx (w_impl w') = m_idx (w_impl w);
  ex_ranges : m_ranges (w_impl w') = m_ranges (w_impl w);
  ex_flags : m_frame_flags (w_impl w') = m_frame_flags (w_impl w);
  ex_sent : w_sent w' = w_sent w ++ [on_wire w msg] }.

Lemma SendAndWaitErased_alive w msg ck ct wr :
  m_rejecting_waiters (w_impl w) = false -> Retire ∉ before_send (next_wait w).1 ->
  Retire ∉ during_wait (next_wait w).1 ->
  w_registered (SendAndWaitErased msg ck ct wr w).2 = w_registered w /\
  m_bus (w_impl (SendAndWaitErased msg ck ct wr w).2) = m_bus (w_impl w).
Proof.
  intros Hr Hb Hd. rewrite SendAndWaitErased_eq by done. cbv zeta.
  assert (w_registered (registered_world ck ct wr w) = w_registered w /\
          m_bus (w_impl (registered_world ck ct wr w)) = m_bus (w_impl w)) as [H0 B0].
  { unfold registered_world, next_wait. by destruct (w_waits w). }
  pose proof (RunEnv_registered (before_send (next_wait w).1) (registered_world ck ct wr w) Hb) as H1.
  pose proof (RunEnv_bus (before_send (next_wait w).1) (registered_world ck ct wr w)) as B1.
  unfold SendMessageLocked. destruct (match w_faults _ with [] => false | b :: _ => b end); cbn; [by rewrite H1, B1|].
  rewrite RunEnv_registered, RunEnv_bus by done. cbn. by rewrite H1, B1.
Qed.

Lemma exchange w msg ck ct wr l rest :
  Able w -> w_waits w = mkScript [] l :: rest -> CancelAll ∉ l -> Retire ∉ l ->
  let f := first_accepted ck (m_idx (w_impl w)) l in
  exists c w', SendAndWaitErased msg ck ct wr w = (Ok (bool_decide (is_Some f), c), w') /\
    (forall p, f = Some p -> c = wr p ct) /\ Exchanged w w' msg rest.
Proof.
  intros [[Hreg Hbus Hrej Hwr] Hok Hf] Hw Hc Hr. cbv zeta.
  assert ((next_wait w).1 = mkScript [] l) as Hs by (unfold next_wait; by rewrite Hw).
  pose proof (SendAndWaitErased_run w msg ck ct wr Hok Hrej Hwr) as [(c & Hres & Hcont) Hsent].
  pose proof (SendAndWaitErased_next w msg ck ct wr Hok Hrej) as Hn.
  pose proof (SendAndWaitErased_alive w msg ck ct wr Hrej) as Ha.
  rewrite Hs in *. cbn [before_send during_wait app] in *.
  destruct (Hn ltac:(apply not_elem_of_nil) Hc) as (Hok' & Hrej' & Hi & Hrg & Hfl & Hft & Hws).
  destruct (Ha ltac:(apply not_elem_of_nil) Hr) as [Hreg' Hbus'].
  destruct (SendAndWaitErased msg ck ct wr w) as [r w']. cbn [fst snd] in *. subst r.
  rewrite Hf in Hft. rewrite Hw in Hws. cbn in Hft, Hws.
  exists c, w'. split; [done|]. split; [done|]. split; try done.
  split; [split; by rewrite ?Hft, ?Hreg', ?Hbus'|done|done].
Qed.

(** A single reply that the checker accepts. *)
Lemma exchange_accepted w msg (ck : MotorPackMsg -> bool) ct wr reply rest :
  Able w -> w_waits w = mkScript [] [Rx reply] :: rest -> ck reply = true ->
  exists w', SendAndWaitErased msg (fun _ p => Some (ck p)) ct wr w = (Ok (true, wr reply ct), w') /\
    Exchanged w w' msg rest.
Proof.
  intros Hab Hw Hck.
  destruct (exchange w msg (fun _ p => Some (ck p)) ct wr _ rest Hab Hw) as (c & w' & He & Hc & Hx).
  1, 2: by intros [=]%list_elem_of_singleton.
  cbn [first_accepted] in He, Hc. rewrite Hck in He, Hc. rewrite (Hc reply eq_refl) in He.
  exists w'. split; [exact He|exact Hx].
Qed.

Lemma SendParameterAndWait_answered w msg pid payload reply rest :
  Able w -> w_waits w = mkScript [] [Rx reply] :: rest -> ParameterAckMatches pid payload reply = true ->
  exists w', SendParameterAndWait msg pid payload w = (Ok true, w') /\ Exchanged w w' msg rest.
Proof.
  intros Hab Hw Hck. unfold SendParameterAndWait, mbind.
  destruct (exchange_accepted w msg (ParameterAckMatches pid payload) (ContentBool false)
    (fun _ _ => ContentBool true) reply rest Hab Hw Hck) as (w' & -> & Hx).
  by exists w'.
Qed.

Lemma SendParameterAndWait_silence w msg pid payload rest :
  Able w -> w_waits w = mkScript [] [] :: rest ->
  exists w', SendParameterAndWait msg pid payload w = (Ok false, w') /\ Exchanged w w' msg rest.
Proof.
  intros Hab Hw. unfold SendParameterAndWait, mbind.
  destruct (exchange w msg (fun _ p => Some (ParameterAckMatches pid payload p)) (ContentBool false)
    (fun _ _ => ContentBool true) [] rest Hab Hw) as (c & w' & -> & _ & Hx);
    [apply not_elem_of_nil..|].
  by exists w'.
Qed.

Lemma SendAndWait_answered w msg (ck : MotorPackMsg -> bool) reply rest :
  Able w -> w_waits w = mkScript [] [Rx reply] :: rest -> ck reply = true ->
  exists w', SendAndWait msg (fun _ => ck) w = (Ok (Some reply), w') /\ Exchanged w w' msg rest.
Proof.
  intros Hab Hw Hck. unfold SendAndWait, mbind.
  destruct (exchange_accepted w msg ck (ContentPack (mkPack 0 0 0 (replicate 8 0)))
    (fun received _ => ContentPack received) reply rest Hab Hw Hck) as (w' & -> & Hx).
  by exists w'.
Qed.

Lemma SendAndWait_silence w msg (ck : MotorPackMsg -> bool) rest :
  Able w -> w_waits w = mkScript [] [] :: rest ->
  exists w', SendAndWait msg (fun _ => ck) w = (Ok None, w') /\ Exchanged w w' msg rest.
Proof.
  intros Hab Hw. unfold SendAndWait, mbind.
  destruct (exchange w msg (fun _ p => Some (ck p)) (ContentPack (mkPack 0 0 0 (replicate 8 0)))
    (fun received _ => ContentPack received) [] rest Hab Hw) as (c & w' & -> & _ & Hx);
    [apply not_elem_of_nil..|].
  by exists w'.
Qed.

End Driver.

Section Settings.
Context {S : Type}.
Implicit Types (w : World S).

Lemma remember_nothing w : with_impl (set_ranges (fun r => r) (w_impl w)) w = w.
Proof. destruct w as [[]]. reflexivity. Qed.

Lemma remember_fw s ws r : fw_version (remember s ws r) = fw_version r.
Proof. by destruct s. Qed.

(** After the acknowledgement the driver remembers the setting. *)
Definition settle (s : Setting) (ws : list Z) (r : Res bool * World S) : Res bool * World S :=
  match r with
  | (Ok true, w) => (Ok true, with_impl (set_ranges (remember s ws) (w_impl w)) w)
  | _ => r
  end.

Lemma apply_setting_eq w s ws :
  Ready w -> setting_words (fw_version (m_ranges (w_impl w))) s = Some ws ->
  apply_setting s w =
    settle s ws (SendParameterAndWait (setting_message (m_idx (w_impl w)) s ws)
                   (FakeRawIdFromWriteParameter (setting_parameter s)) (words_payload ws) w).
Proof.
  intros [Hreg Hbus _ _] Hws.
  destruct s; cbv [setting_words scaled_words gain_words] in Hws; 
    repeat (apply bind_Some in Hws as (? & ? & Hws)); try case_match; try discriminate Hws; injection Hws as <-;
    unfold apply_setting, SetPVTKpRange, SetPVTKdRange, SetPVTPosRange, SetPVTSpdRange, SetPVTTorRange, SetPVTCurRange,
      SetScaledRange, SetCanTimeout, SetCurPI, SetSpdPI, SetPosPD, SetLoopGains, mbind, AcquireDeviceOperation, mget;
    rewrite Hreg, Hbus; cbn [negb]; unfold mcast;
    repeat match goal with H : _ = Some _ |- _ => rewrite H; clear H end; unfold mret;
    unfold SendWrite, setting_message, words_payload; cbn [map concat length setting_parameter
      FakeRawIdFromWriteParameter]; rewrite ?app_nil_r;
    (* the same frame, the same exchange *)
    match goal with |- _ = settle _ _ (SendParameterAndWait ?m ?p ?x w) =>
      change (SendParameterAndWait _ p x w) with (SendParameterAndWait m p x w);
      destruct (SendParameterAndWait m p x w) as [[[]| |] w1] end;
    try reflexivity; cbn [settle remember]; by rewrite remember_nothing.
Qed.
End Settings.

(** ** The simulated side *)

Lemma some_bind {A B} (x : A) (f : A -> option B) : (Some x ≫= f) = f x.
Proof. done. Qed.

Section Simulated.
Context {MotorModel : Type} (GetMotorModelRanges : MotorModel -> MotorProperties) (EC_A4310_P2 : MotorModel).
Implicit Types (F : FakeState) (p : MotorPackMsg).

(** The states that differ in what is recorded only. *)
Record SameMotors F F' : Prop := {
  sa_snapshots : snapshots F' = snapshots F;
  sa_motions : motions F' = motions F;
  sa_policies : parameter_policies F' = parameter_policies F;
  sa_mode : reply_mode F' = reply_mode F;
  sa_observer : has_observer F' = has_observer F }.

Lemma same_motors_refl F : SameMotors F F.
Proof. by split. Qed.

Lemma record_command_same r F : SameMotors F (record_command r F).
Proof. unfold record_command. by destruct (command_recording_enabled F). Qed.

Lemma hosts_same F F' bus idx sm : SameMotors F F' -> Hosts F bus idx sm -> Hosts F' bus idx sm.
Proof. intros [H1 _ _ H2 H3] [? ? ? ? ?]. split; congruence. Qed.

Lemma i32_index idx : 0 <= idx < 2147483648 -> i32 idx = idx.
Proof. intros. apply i32_small. lia. Qed.

(** A frame for a hosted motor reaches it. *)
Lemma Send_hosted env bus p F sm :
  Hosts F bus (id p) sm ->
  exists F0, SameMotors F F0 /\
    Send GetMotorModelRanges EC_A4310_P2 env (mkMsg bus p) F =
      HandleCommand env (mkMsg bus p) (id p) (MakeKey bus (id p))
        (DecodeFakeCommand (mkMsg bus p) (Some (fs_ranges (fs_settings sm)))) F0.
Proof.
  intros [Hidx Hne Hhere Hauto Hobs].
  assert (logical_motor_id p = id p) as Hlog.
  { unfold logical_motor_id. replace (id p =? 2047) with false by lia. by apply i32_index. }
  unfold Send, auto_create. cbn [mdata bus_idx snapshots with_records]. rewrite Hlog, Hhere.
  cbn [snapshots with_records]. rewrite Hhere. cbn [option_map].
  match goal with |- context [record_command ?r ?x] =>
    exists (record_command r x); destruct (record_command_same r x) as [Hs Hm Hp Hr Ho] end.
  split; [by split|]. rewrite Hr. cbn [reply_mode with_records]. rewrite Hauto.
  by rewrite bool_decide_true.
Qed.

(** The frames of parameter writes and queries. *)
Lemma write_decoded w_idx flags pid q payload snap :
  w_idx <> 2047 -> (length payload = 2 \/ length payload = 4)%nat -> FakeWriteParameterFromRawId pid = Some q ->
  DecodeFakePayload
    (mkPack w_idx flags (2 + Z.of_nat (length payload))
       (data (WriteMessage w_idx (2 + Z.of_nat (length payload)) pid payload))) snap =
  FakeSetParameter pid (Some q) false payload.
Proof.
  intros Hne Hlen Hq.
  unfold DecodeFakePayload. cbn [id len data]. replace (w_idx =? 2047) with false by lia. cbn [andb].
  destruct payload as [|a [|b [|c [|d [|e l]]]]]; cbn in Hlen; try lia;
    cbn -[FakeWriteParameterFromRawId]; by rewrite Hq.
Qed.

Lemma query_decoded w_idx flags q snap :
  w_idx <> 2047 ->
  DecodeFakePayload (mkPack w_idx flags 2 (data (ParameterQuery w_idx q))) snap =
  FakeGetParameter (MotorParameter.code q).
Proof.
  intros Hne. unfold DecodeFakePayload. cbn [id len data]. replace (w_idx =? 2047) with false by lia.
  by destruct q.
Qed.

Lemma parameter_of_code_code q : parameter_of_code (MotorParameter.code q) = Some q.
Proof. by destruct q. Qed.

Definition policy_of F (bus idx : Z) (q : MotorParameter.t) : FakeWritePolicy :=
  default PolicySuccess (parameter_policies F !! (MakeKey bus idx, MotorParameter.code q)).

(** What a write does to a motor that accepts it. *)
Lemma write_answered env bus idx flags pid q payload F sm :
  Hosts F bus idx sm -> (length payload = 2 \/ length payload = 4)%nat ->
  FakeWriteParameterFromRawId pid = Some q ->
  policy_of F bus idx q = PolicySuccess ->
  let p := mkPack idx flags (2 + Z.of_nat (length payload))
             (data (WriteMessage idx (2 + Z.of_nat (length payload)) pid payload)) in
  exists F', answers GetMotorModelRanges EC_A4310_P2 env bus p F =
      Some (F', mkScript [] [Rx (mdata (MakeWriteAck bus idx q payload (fs_reply_frame_flags (fs_build sm))))]) /\
    Hosts F' bus idx (set_settings (write_parameter pid (Some q) payload) sm).
Proof.
  intros Hh Hlen Hq Hpol. cbv zeta. unfold answers.
  match goal with |- context [Send _ _ env (mkMsg bus ?p) F] =>
    destruct (Send_hosted env bus p F sm Hh) as (F0 & Hs & ->) end.
  pose proof (hosts_same _ _ _ _ _ Hs Hh) as [Hidx Hne Hhere Hauto Hobs].
  unfold HandleCommand, DecodeFakeCommand. cbn [fr_payload mdata].
  rewrite (write_decoded idx flags pid q payload) by done. cbn [id bus_idx]. rewrite Hhere. rewrite some_bind.
  rewrite (sa_policies _ _ Hs). fold (policy_of F bus idx q). rewrite Hpol, bool_decide_true by done.
  unfold reply_with, notify_then, notify. cbn [has_observer update_snapshot with_motors with_records].
  rewrite Hobs. cbn. rewrite i32_index by done. eexists. split; [reflexivity|].
  split; try done. cbn. by rewrite lookup_alter_eq, Hhere.
Qed.

(** ... and to one that does not: nothing, and no answer. *)
Lemma write_refused env bus idx flags pid q payload F sm :
  Hosts F bus idx sm -> (length payload = 2 \/ length payload = 4)%nat ->
  FakeWriteParameterFromRawId pid = Some q ->
  policy_of F bus idx q <> PolicySuccess ->
  let p := mkPack idx flags (2 + Z.of_nat (length payload))
             (data (WriteMessage idx (2 + Z.of_nat (length payload)) pid payload)) in
  exists F', answers GetMotorModelRanges EC_A4310_P2 env bus p F = Some (F', mkScript [] []) /\
    Hosts F' bus idx sm.
Proof.
  intros Hh Hlen Hq Hpol. cbv zeta. unfold answers.
  match goal with |- context [Send _ _ env (mkMsg bus ?p) F] =>
    destruct (Send_hosted env bus p F sm Hh) as (F0 & Hs & ->) end.
  pose proof (hosts_same _ _ _ _ _ Hs Hh) as [Hidx Hne Hhere Hauto Hobs].
  unfold HandleCommand, DecodeFakeCommand. cbn [fr_payload mdata].
  rewrite (write_decoded idx flags pid q payload) by done. cbn [id bus_idx]. rewrite Hhere. rewrite some_bind.
  rewrite (sa_policies _ _ Hs). fold (policy_of F bus idx q). rewrite bool_decide_false by done.
  unfold notify. cbn [has_observer with_records].
  rewrite Hobs. cbn. eexists. split; [reflexivity|]. by split.
Qed.

(** A query of a value that the firmware has and that does not move. *)
Lemma query_answered env bus idx flags q F sm payload :
  Hosts F bus idx sm -> is_Some (fs_fw_version (fs_build sm)) ->
  ParameterHiddenFromOldFirmware (Some q) = false -> reads_motion (Some q) = false ->
  reply_payload sm (Some q) = Some payload ->
  exists F', answers GetMotorModelRanges EC_A4310_P2 env bus
      (mkPack idx flags 2 (data (ParameterQuery idx q))) F =
      Some (F', mkScript [] [Rx (mdata (MakeParameterReply bus idx (MotorParameter.code q) payload
                                          (fs_reply_frame_flags (fs_build sm))))]) /\
    Hosts F' bus idx sm.
Proof.
  intros Hh [v Hfw] Hhid Hmot Hpay. unfold answers.
  match goal with |- context [Send _ _ env (mkMsg bus ?p) F] =>
    destruct (Send_hosted env bus p F sm Hh) as (F0 & Hs & ->) end.
  pose proof (hosts_same _ _ _ _ _ Hs Hh) as [Hidx Hne Hhere Hauto Hobs].
  unfold HandleCommand, DecodeFakeCommand. cbn [fr_payload mdata].
  rewrite query_decoded by done. cbn [id bus_idx]. rewrite Hhere. rewrite some_bind.
  rewrite parameter_of_code_code, Hfw, Hhid, Hmot, andb_false_r. cbn [orb].
  rewrite Hhere. rewrite some_bind. rewrite Hpay. rewrite some_bind.
  unfold reply_with, notify_then, notify. rewrite Hobs. cbn. rewrite i32_index by done.
  eexists. split; [reflexivity|]. by split.
Qed.

(** A motor whose firmware answers no query at all. *)
Lemma query_ignored env bus idx flags q F sm :
  Hosts F bus idx sm -> fs_fw_version (fs_build sm) = None ->
  exists F', answers GetMotorModelRanges EC_A4310_P2 env bus
      (mkPack idx flags 2 (data (ParameterQuery idx q))) F = Some (F', mkScript [] []) /\
    Hosts F' bus idx sm.
Proof.
  intros Hh Hfw. unfold answers.
  match goal with |- context [Send _ _ env (mkMsg bus ?p) F] =>
    destruct (Send_hosted env bus p F sm Hh) as (F0 & Hs & ->) end.
  pose proof (hosts_same _ _ _ _ _ Hs Hh) as [Hidx Hne Hhere Hauto Hobs].
  unfold HandleCommand, DecodeFakeCommand. cbn [fr_payload mdata].
  rewrite query_decoded by done. cbn [id bus_idx]. rewrite Hhere. rewrite some_bind.
  rewrite Hfw. cbn [orb]. unfold notify. rewrite Hobs. cbn. eexists. split; [reflexivity|]. by split.
Qed.
End Simulated.

(** ** What the frames carry *)

Lemma word_bytes_length ws : length (words_payload ws) = (2 * length ws)%nat.
Proof. unfold words_payload. induction ws as [|v ws IH]; [done|]. cbn in *. lia. Qed.

Lemma EncodeI16_word v : EncodeI16 v = word_bytes v.
Proof. unfold EncodeI16, word_bytes. f_equal; [|f_equal]; cint_solve. Qed.

Definition word_ok (s : Setting) (v : Z) : Prop :=
  match s with
  | PosRangeSetting _ | SpdRangeSetting _ | TorRangeSetting _ | CurRangeSetting _ => -32768 <= v < 32768
  | _ => 0 <= v < 65536
  end.

Lemma setting_words_ok fw s ws : setting_words fw s = Some ws -> Forall (word_ok s) ws /\
  length ws = match s with CanTimeoutSetting _ => 1%nat | _ => 2%nat end.
Proof.
  intros Hws. destruct s; cbv [setting_words scaled_words gain_words clamped_gain cast_i16 cast_u16 is_u16] in Hws;
    repeat (apply bind_Some in Hws as (? & ? & Hws)); try case_match; try discriminate Hws; injection Hws as <-;
    repeat match goal with H : SF_cast _ _ _ = Some _ |- _ => apply SF_cast_range in H end;
    split; try done; repeat constructor; cbn; lia.
Qed.

Lemma raw_words s a b : word_ok s a -> word_ok s b ->
  let d := words_payload [a; b] in
  match s with
  | PosRangeSetting _ | SpdRangeSetting _ | TorRangeSetting _ | CurRangeSetting _ =>
      i16 (raw_word d 0) = a /\ i16 (raw_word d 2) = b
  | _ => raw_word d 0 = a /\ raw_word d 2 = b
  end.
Proof.
  intros Ha Hb. unfold raw_word, byte_at. cbn [words_payload map concat word_bytes app nth Nat.add].
  destruct s; cbn in Ha, Hb; split; unfold i16; cint_solve.
Qed.

Lemma raw_id_of s : FakeWriteParameterFromRawId (FakeRawIdFromWriteParameter (setting_parameter s)) = Some (setting_parameter s).
Proof. by destruct s. Qed.

(** Words are two for every setting but the timeout. *)
Lemma words_shape s fw ws : setting_words fw s = Some ws ->
  match s with CanTimeoutSetting _ => exists a, ws = [a] | _ => exists a b, ws = [a; b] end.
Proof.
  intros H. destruct (setting_words_ok _ _ _ H) as [_ Hl].
  destruct s, ws as [|a [|b [|]]]; cbn in Hl; try lia; eauto.
Qed.

Lemma ack_matches bus idx q payload flags :
  (length payload = 2 \/ length payload = 4)%nat ->
  ParameterAckMatches (FakeRawIdFromWriteParameter q) payload (mdata (MakeWriteAck bus idx q payload flags)) = true.
Proof.
  intros Hl. unfold ParameterAckMatches, MakeWriteAck, MakeRawWriteAckMessage, reply_pack, packet_has_payload, byte_at.
  destruct payload as [|a [|b [|c [|d [|e l]]]]]; cbn in Hl; try lia; cbn -[FakeRawIdFromWriteParameter bool_decide];
    by rewrite Z.eqb_refl, bool_decide_true.
Qed.

Lemma reported_ok s fw ws vs : setting_words fw s = Some ws -> reported s ws = Some vs ->
  Forall (word_ok s) vs /\ match s with CanTimeoutSetting _ => exists a, vs = [a] | _ => exists a b, vs = [a; b] end.
Proof.
  intros Hw Hr. destruct (setting_words_ok _ _ _ Hw) as [Hok _]. pose proof (words_shape _ _ _ Hw) as Hs.
  destruct s; cbn [reported] in Hr; try (injection Hr as <-; by split);
    apply bind_Some in Hr as (lo & Hlo & Hr); apply bind_Some in Hr as (hi & Hhi & [= <-]);
    apply SF_cast_range in Hlo, Hhi; (split; [|by eauto]); repeat constructor; cbn; lia.
Qed.

(** A word reported for a word written: the same for gain ranges, gains and the timeout,
    and for the other ranges the same or one step nearer to zero. *)
Definition came_back (s : Setting) (v v' : Z) : Prop :=
  match s with
  | PosRangeSetting _ | SpdRangeSetting _ | TorRangeSetting _ | CurRangeSetting _ => v' = v \/ v <> 0 /\ v' = v - Z.sgn v
  | _ => v' = v
  end.

Lemma reported_close s fw ws :
  setting_words fw s = Some ws -> exists vs, reported s ws = Some vs /\ Forall2 (came_back s) ws vs.
Proof.
  intros Hw. destruct (setting_words_ok _ _ _ Hw) as [Hok _]. pose proof (words_shape _ _ _ Hw) as Hs.
  assert (forall den a, den = 10 \/ den = 100 -> -32768 <= a < 32768 ->
    exists z, requantise den a = Some z /\ (z = a \/ a <> 0 /\ z = a - Z.sgn a)) as Hq by exact through_word.
  destruct s; try (exists ws; split; [done|by apply Forall_Forall2_diag, list.Forall_forall]);
    destruct Hs as (a & b & ->); apply list.Forall_cons in Hok as [Ha Hok]; apply list.Forall_cons in Hok as [Hb _];
    match goal with |- context [reported ?s _] =>
      let den := match s with PosRangeSetting _ => constr:(100) | SpdRangeSetting _ => constr:(100) | _ => constr:(10) end in
      destruct (Hq den a ltac:(lia) Ha) as (lo & Elo & Hlo); destruct (Hq den b ltac:(lia) Hb) as (hi & Ehi & Hhi) end;
    exists [lo; hi]; cbn [reported]; unfold word; cbn [nth]; rewrite Elo, Ehi; (split; [done|apply List.Forall2_cons; [exact Hlo|apply List.Forall2_cons; [exact Hhi|apply List.Forall2_nil]]]).
Qed.

(** The simulated motor hands out the words it has kept. *)
Lemma kept_payload s fw ws vs sm :
  setting_words fw s = Some ws -> reported s ws = Some vs ->
  reply_payload (set_settings (write_parameter (FakeRawIdFromWriteParameter (setting_parameter s))
      (Some (setting_parameter s)) (words_payload ws)) sm) (Some (setting_parameter s)) =
    Some (words_payload vs).
Proof.
  intros Hw Hr. destruct (setting_words_ok _ _ _ Hw) as [Hok _]. pose proof (words_shape _ _ _ Hw) as Hs.
  destruct s.
  7: { destruct Hs as [a ->]. injection Hr as <-. apply list.Forall_cons in Hok as [Ha _]. cbn in Ha.
    unfold reply_payload, write_parameter. cbn [setting_parameter FakeRawIdFromWriteParameter Z.eqb Pos.eqb andb].
    cbn [words_payload map concat word_bytes app length Nat.leb]. cbn [set_settings fs_settings fs_can_timeout_ms].
    unfold raw_word, byte_at. cbn [nth Nat.add]. f_equal.
    change (EncodeU16 ?x) with (word_bytes x). by rewrite word_bytes_u16. }
  all: destruct Hs as (a & b & ->); apply list.Forall_cons in Hok as [Ha Hok]; apply list.Forall_cons in Hok as [Hb _];
    match goal with |- context [setting_parameter ?s] => destruct (raw_words s a b Ha Hb) as [Hx Hy] end;
    unfold reply_payload, write_parameter, gain_range_payload, range_payload, requantise in *;
    cbn [setting_parameter FakeRawIdFromWriteParameter Z.eqb Pos.eqb andb length words_payload map concat word_bytes app
      Nat.leb set_settings fs_settings with_ranges fs_ranges fs_cur_gain_raw fs_spd_gain_raw fs_pos_gain_raw
      Types.kp Types.kd position speed torque current set_kp set_kd set_position set_speed set_torque set_current
      gain_range raw_range rmin rmax pi_kp pi_ki pd_kp pd_kd reported word nth] in *.
  all: try rewrite Hx, Hy.
  1, 2: injection Hr as <-; cbn in Ha, Hb; unfold cast_u16; by rewrite !cast_of_Z, !some_bind by lia.
  1, 2, 3, 4: apply bind_Some in Hr as (lo & Hlo & Hr); apply bind_Some in Hr as (hi & Hhi & [= <-]);
    unfold requantise in Hlo, Hhi; by rewrite Hlo, some_bind, Hhi, some_bind, !EncodeI16_word.
  all: injection Hr as <-; cbn in Ha, Hb;
    change (DecodeRawU16 ?d ?o) with (u16 (raw_word d o)); by rewrite Hx, Hy, !u16_small.
Qed.

Lemma i16_u16 a : -32768 <= a < 32768 -> i16 (u16 a) = a.
Proof. intros. unfold i16. cint_solve. Qed.

Lemma read_words a b h1 h2 flags idx k :
  let d := data (reply_pack idx flags [h1; h2] (words_payload [a; b])) in
  (k = 2%nat -> read_u16_be d k = u16 a) /\ (k = 4%nat -> read_u16_be d k = u16 b).
Proof.
  split; intros ->; unfold read_u16_be, byte_at; cbn [data reply_pack words_payload map concat word_bytes app take
    length Nat.sub Nat.add nth]; cint_solve.
Qed.

(** The reply is accepted, and read as the words in it. *)
Lemma reply_matches bus idx s flags ws :
  match s with CanTimeoutSetting _ => exists a, ws = [a] | _ => exists a b, ws = [a; b] end ->
  ParameterReplyMatches (setting_parameter s)
    (mdata (MakeParameterReply bus idx (MotorParameter.code (setting_parameter s)) (words_payload ws) flags)) = true.
Proof. intros Hs. destruct s; first [destruct Hs as (a & b & ->) | destruct Hs as [a ->]]; reflexivity. Qed.

Lemma reply_value bus idx s fw flags ws :
  match s with CanTimeoutSetting _ => exists a, ws = [a] | _ => exists a b, ws = [a; b] end ->
  Forall (word_ok s) ws ->
  ConvertParameter (setting_parameter s) fw (DecodeParameterRaw (setting_parameter s)
    (mdata (MakeParameterReply bus idx (MotorParameter.code (setting_parameter s)) (words_payload ws) flags))) =
  setting_value fw s ws.
Proof.
  intros Hs Hok. destruct s.
  7: { destruct Hs as [a ->]. apply list.Forall_cons in Hok as [Ha _]. cbn in Ha.
    cbn [setting_parameter ConvertParameter setting_value word nth]. unfold DecodeParameterRaw.
    cbn [MotorParameterRawType DecodeRaw]. unfold MakeParameterReply, reply_pack, read_u16_be, byte_at.
    cbn -[u16 u8 Z.shiftr Z.land Z.shiftl Z.lor]. by rewrite word_bytes_u16. }
  all: destruct Hs as (a & b & ->); apply list.Forall_cons in Hok as [Ha Hok]; apply list.Forall_cons in Hok as [Hb _];
    cbn in Ha, Hb; unfold MakeParameterReply, DecodeParameterRaw;
    cbn [setting_parameter MotorParameterRawType ConvertParameter DecodeRaw mdata setting_value word_range word nth];
    unfold read_i16_be;
    match goal with |- context [reply_pack ?i ?f [?x; ?y] _] =>
      destruct (read_words a b x y f i 2) as [H2 _]; destruct (read_words a b x y f i 4) as [_ H4];
      rewrite (H2 eq_refl), (H4 eq_refl) end;
    first [by rewrite !i16_u16 by lia | cbn [pi_kp pi_ki pd_kp pd_kd]; by rewrite !u16_small by lia].
Qed.

(** After the write both ends have the same range. *)
Lemma kept_range s fw ws t r :
  setting_words fw s = Some ws ->
  setting_range s (fs_ranges (write_parameter (FakeRawIdFromWriteParameter (setting_parameter s))
    (Some (setting_parameter s)) (words_payload ws) t)) =
  setting_range s (remember s ws r).
Proof.
  intros Hw. destruct (setting_words_ok _ _ _ Hw) as [Hok _]. pose proof (words_shape _ _ _ Hw) as Hs.
  destruct s; try done; destruct Hs as (a & b & ->);
    apply list.Forall_cons in Hok as [Ha Hok]; apply list.Forall_cons in Hok as [Hb _];
    match goal with |- context [setting_parameter ?s] => destruct (raw_words s a b Ha Hb) as [Hx Hy] end;
    cbn -[raw_word F32.of_Z F32.div i16 word_bytes] in *; unfold gain_range, raw_range, range_of_Z, scale_range, word_range, word;
    cbn [rmin rmax nth]; by rewrite Hx, Hy.
Qed.

(** ** Theorems *)

Section Theorems.
Context {MotorModel : Type} (GetMotorModelRanges : MotorModel -> MotorProperties) (EC_A4310_P2 : MotorModel).
Context {S : Type}.
Implicit Types (w : World S).
#[local] Abbreviation answers := (answers GetMotorModelRanges EC_A4310_P2).

(** An acknowledged write of [s] by a motor whose next wait is answered by the
    simulated one, which accepts it. *)
Lemma write_loop env F bus w s ws sm :
  Able w -> Hosts F bus (m_idx (w_impl w)) sm ->
  setting_words (fw_version (m_ranges (w_impl w))) s = Some ws ->
  policy_of F bus (m_idx (w_impl w)) (setting_parameter s) = PolicySuccess ->
  let msg := setting_message (m_idx (w_impl w)) s ws in
  exists F1 a1, answers env bus (on_wire w msg) F = Some (F1, a1) /\
    Hosts F1 bus (m_idx (w_impl w))
      (set_settings (write_parameter (FakeRawIdFromWriteParameter (setting_parameter s)) (Some (setting_parameter s))
        (words_payload ws)) sm) /\
    (forall rest, w_waits w = a1 :: rest ->
     exists w1, apply_setting s w = (Ok true, with_impl (set_ranges (remember s ws) (w_impl w1)) w1) /\
       Exchanged w w1 msg rest).
Proof.
  intros Hab Hh Hws Hpol. cbv zeta. destruct (setting_words_ok _ _ _ Hws) as [_ Hl].
  assert (length (words_payload ws) = 2 \/ length (words_payload ws) = 4)%nat as Hlen
    by (rewrite word_bytes_length, Hl; destruct s; lia).
  assert (on_wire w (setting_message (m_idx (w_impl w)) s ws) =
    mkPack (m_idx (w_impl w)) (SanitizeCanFrameFlags (m_frame_flags (w_impl w)))
      (2 + Z.of_nat (length (words_payload ws)))
      (data (WriteMessage (m_idx (w_impl w)) (2 + Z.of_nat (length (words_payload ws)))
         (FakeRawIdFromWriteParameter (setting_parameter s)) (words_payload ws)))) as ->.
  { unfold on_wire, setting_message, WriteMessage, make_pack. cbn [id len data]. rewrite word_bytes_length.
    f_equal. lia. }
  destruct (write_answered GetMotorModelRanges EC_A4310_P2 env bus _ (SanitizeCanFrameFlags (m_frame_flags (w_impl w)))
    _ _ _ _ _ Hh Hlen (raw_id_of s) Hpol) as (F1 & Ha & Hh1).
  eexists F1, _. split; [exact Ha|]. split; [exact Hh1|]. intros rest Hw.
  rewrite (apply_setting_eq w s ws (able_ready _ Hab) Hws).
  destruct (SendParameterAndWait_answered w (setting_message (m_idx (w_impl w)) s ws) _ _ _ rest Hab Hw
    (ack_matches _ _ _ _ _ Hlen)) as (w1 & -> & Hx).
  by exists w1.
Qed.

Lemma able_ranges f w : Able w -> Able (with_impl (set_ranges f (w_impl w)) w).
Proof. intros [[? ? ? ?] [? ? ?] ?]. by split; [split|split|]. Qed.

(** C13: the closed loop of parameters.  A driver's motor whose frames go to a
    simulated motor, and which gets what that motor answers, writes a parameter: the
    write is acknowledged, driver and simulated motor then agree on the range it is
    about, and a query of the parameter returns the words [vs] that the simulated motor
    reports: the words [ws] that were written for gain ranges, gains and the timeout; for
    the other ranges each word may come back one step nearer to zero (53 hundredths as
    52, [report_truncated]), because the motor keeps floats and truncates them again.
    Two frames are sent. *)
Theorem parameter_loop env1 env2 F bus w s ws sm rest :
  Able w -> Hosts F bus (m_idx (w_impl w)) sm -> is_Some (fs_fw_version (fs_build sm)) ->
  setting_words (fw_version (m_ranges (w_impl w))) s = Some ws ->
  policy_of F bus (m_idx (w_impl w)) (setting_parameter s) = PolicySuccess ->
  let idx := m_idx (w_impl w) in
  let write := on_wire w (setting_message idx s ws) in
  let query := on_wire w (ParameterQuery idx (setting_parameter s)) in
  exists vs F1 F2 a1 a2, reported s ws = Some vs /\ Forall2 (came_back s) ws vs /\
    answers env1 bus write F = Some (F1, a1) /\ answers env2 bus query F1 = Some (F2, a2) /\
    (w_waits w = a1 :: a2 :: rest ->
     exists w1 w2 sm2, apply_setting s w = (Ok true, w1) /\
       GetParameter (setting_parameter s) w1 = (Ok (setting_value (fw_version (m_ranges (w_impl w))) s vs), w2) /\
       w_sent w2 = w_sent w ++ [write; query] /\ snapshots F2 !! MakeKey bus idx = Some sm2 /\
       setting_range s (m_ranges (w_impl w2)) = setting_range s (fs_ranges (fs_settings sm2))).
Proof.
  intros Hab Hh Hfw Hws Hpol. cbv zeta. destruct (reported_close _ _ _ Hws) as (vs & Hvs & Hclose).
  destruct (write_loop env1 F bus w s ws sm Hab Hh Hws Hpol) as (F1 & a1 & Ha1 & Hh1 & Hset).
  destruct (reported_ok _ _ _ _ Hws Hvs) as [Hok Hshape].
  destruct (query_answered GetMotorModelRanges EC_A4310_P2 env2 bus _ (SanitizeCanFrameFlags (m_frame_flags (w_impl w)))
    (setting_parameter s) F1 _ _ Hh1 Hfw ltac:(by destruct s) ltac:(by destruct s) (kept_payload _ _ _ _ _ Hws Hvs))
    as (F2 & Ha2 & Hh2).
  eexists vs, F1, F2, a1, _. split; [exact Hvs|]. split; [exact Hclose|]. split; [exact Ha1|]. split; [exact Ha2|]. intros Hw.
  destruct (Hset _ Hw) as (w1 & Hap & [Hab1 Hw1 Hi1 Hr1 Hf1 Hs1]).
  set (w1' := with_impl (set_ranges (remember s ws) (w_impl w1)) w1) in *.
  destruct (SendAndWait_answered w1' (ParameterQuery (m_idx (w_impl w)) (setting_parameter s))
    (ParameterReplyMatches (setting_parameter s)) _ rest (able_ranges _ _ Hab1) Hw1 (reply_matches _ _ _ _ _ Hshape))
    as (w2 & Hq & [_ _ _ Hr2 _ Hs2]).
  exists w1', w2. eexists. split; [exact Hap|]. split_and!.
  - rewrite GetParameter_eq by apply (able_ranges _ _ Hab1). cbv zeta.
    replace (m_idx (w_impl w1')) with (m_idx (w_impl w)) by (symmetry; exact Hi1).
    change (fun (_ : Z) pack => ParameterReplyMatches ?q pack) with (fun _ : Z => ParameterReplyMatches q).
    rewrite Hq. unfold query_result. rewrite (reply_value _ _ _ _ _ _ Hshape Hok), Hr2.
    cbn [w1' with_impl w_impl m_ranges set_ranges]. by rewrite remember_fw, Hr1.
  - rewrite Hs2. unfold w1'. cbn [w_sent with_impl]. rewrite Hs1, <- app_assoc. cbn [app].
    by unfold on_wire; cbn [m_frame_flags set_ranges w_impl with_impl]; rewrite Hf1.
  - apply (ho_here _ _ _ _ Hh2).
  - rewrite Hr2. cbn [w1' with_impl w_impl m_ranges set_ranges fs_settings set_settings].
    symmetry. eapply kept_range. exact Hws.
Qed.

(** Refusals.  A write that the simulated motor's policy does not let succeed is
    not answered: the setter returns [false] after one frame, what the driver
    remembers is unchanged and so is the simulated motor.  A motor whose firmware
    version is [nullopt] answers no query: [GetParameter] sends two frames and
    throws the timeout. *)
Lemma loop_refusals env F bus w s ws sm rest :
  Able w -> Hosts F bus (m_idx (w_impl w)) sm ->
  setting_words (fw_version (m_ranges (w_impl w))) s = Some ws ->
  policy_of F bus (m_idx (w_impl w)) (setting_parameter s) <> PolicySuccess ->
  fs_fw_version (fs_build sm) = None ->
  let idx := m_idx (w_impl w) in
  let write := on_wire w (setting_message idx s ws) in
  let query p := on_wire w (ParameterQuery idx p) in
  let silence := mkScript [] [] in
  (exists F1, answers env bus write F = Some (F1, silence) /\ snapshots F1 !! MakeKey bus idx = Some sm) /\
  (forall p, exists F1, answers env bus (query p) F = Some (F1, silence) /\ snapshots F1 !! MakeKey bus idx = Some sm) /\
  (w_waits w = silence :: silence :: rest ->
   (exists w1, apply_setting s w = (Ok false, w1) /\ m_ranges (w_impl w1) = m_ranges (w_impl w) /\
      w_sent w1 = w_sent w ++ [write]) /\
   (forall p, exists w1, GetParameter p w = (Throw ParameterTimeout, w1) /\ w_sent w1 = w_sent w ++ [query p; query p])).
Proof.
  intros Hab Hh Hws Hpol Hfw. cbv zeta. destruct (setting_words_ok _ _ _ Hws) as [_ Hl].
  assert (length (words_payload ws) = 2 \/ length (words_payload ws) = 4)%nat as Hlen
    by (rewrite word_bytes_length, Hl; destruct s; lia).
  split; [|split].
  - destruct (write_refused GetMotorModelRanges EC_A4310_P2 env bus _ (SanitizeCanFrameFlags (m_frame_flags (w_impl w)))
      _ _ _ _ _ Hh Hlen (raw_id_of s) Hpol) as (F1 & Ha & Hh1).
    exists F1. split; [|apply Hh1]. rewrite <- Ha. do 2 f_equal.
    unfold on_wire, setting_message, WriteMessage, make_pack. cbn [id len data]. rewrite word_bytes_length.
    f_equal. lia.
  - intros p. destruct (query_ignored GetMotorModelRanges EC_A4310_P2 env bus _
      (SanitizeCanFrameFlags (m_frame_flags (w_impl w))) p F sm Hh Hfw) as (F1 & Ha & Hh1).
    exists F1. split; [exact Ha|apply Hh1].
  - intros Hw. split.
    + rewrite (apply_setting_eq w s ws (able_ready _ Hab) Hws).
      edestruct (SendParameterAndWait_silence w) as (w1 & -> & [_ _ _ Hr _ Hs]); [done|exact Hw|].
      exists w1. by split_and!.
    + intros p. rewrite GetParameter_eq by apply (able_ready _ Hab). cbv zeta.
      change (fun (_ : Z) pack => ParameterReplyMatches p pack) with (fun _ : Z => ParameterReplyMatches p).
      edestruct (SendAndWait_silence w) as (w1 & -> & [Hab1 Hw1 _ _ Hf1 Hs1]); [done|exact Hw|].
      edestruct (SendAndWait_silence w1) as (w2 & -> & [_ _ _ _ _ Hs2]); [done|exact Hw1|].
      exists w2. split; [done|]. rewrite Hs2, Hs1, <- app_assoc. unfold on_wire. by rewrite Hf1.
Qed.
End Theorems.

(** ** Examples *)

Definition example_fake : FakeState := SeedMotor 0 1 example_snapshot 0 new_fake.
Definition example_models (_ : unit) : MotorProperties := example_ranges.
Definition example_position : Setting := PosRangeSetting (mkRange (f32_lit (-157) 50) (f32_lit 157 50)).

Lemma example_hosts : Hosts example_fake 0 1 example_snapshot.
Proof. by split. Qed.
Lemma example_able {S} (s : S) waits : Able (example_world s [] waits).
Proof. by split; [apply example_ready|apply example_waiters_ok|]. Qed.

(** The position range is set to 3.14 rad on both sides of zero. *)
Lemma parameter_loop_witness :
  exists a1 a2 w1, apply_setting example_position (example_world tt [] [a1; a2]) = (Ok true, w1) /\
    fst (GetParameter MotorParameter.PVTPosRange w1) = Ok (mkRange (f32_lit (-157) 50) (f32_lit 157 50)).
Proof.
  destruct (parameter_loop example_models tt example_env example_env example_fake 0 (example_world tt [] [])
    example_position [-314; 314] example_snapshot [] (example_able _ _) example_hosts
    ltac:(by eexists) ltac:(vm_compute; reflexivity) eq_refl)
    as (vs & F1 & F2 & a1 & a2 & _ & _ & H1 & H2 & _).
  exists a1, a2.
  destruct (parameter_loop example_models tt example_env example_env example_fake 0 (example_world tt [] [a1; a2])
    example_position [-314; 314] example_snapshot [] (example_able _ _) example_hosts
    ltac:(by eexists) ltac:(vm_compute; reflexivity) eq_refl)
    as (vs' & F1' & F2' & a1' & a2' & Hvs & _ & H1' & H2' & H).
  vm_compute in Hvs. injection Hvs as <-.
  assert (Some (F1', a1') = Some (F1, a1)) as [= -> ->] by (rewrite <- H1'; exact H1).
  assert (Some (F2', a2') = Some (F2, a2)) as [= -> ->] by (rewrite <- H2'; exact H2).
  destruct (H eq_refl) as (w1 & w2 & sm2 & Hs & Hg & _). exists w1. split; [exact Hs|].
  change MotorParameter.PVTPosRange with (setting_parameter example_position). rewrite Hg. vm_compute. reflexivity.
Defined.

(** With a firmware version of [nullopt] the simulated motor answers nothing, not even
    the queries every firmware has. *)
Definition old_snapshot : FakeMotorSnapshot :=
  mkSnapshot (mkBuild (F32.of_Z 25) (F32.of_Z 25) (F32.of_Z 5) F32.zero 0 MotorError.NoError None 0 0 0 F32.zero F32.zero)
    (fs_settings example_snapshot) (fs_kin example_snapshot) false.
Definition old_fake : FakeState :=
  SetParameterWritePolicy 0 1 MotorParameter.PVTPosRange PolicyIgnore (SeedMotor 0 1 old_snapshot 0 new_fake).

Lemma loop_refusals_witness :
  let w := example_world tt [] [mkScript [] []; mkScript [] []] in
  fst (apply_setting example_position w) = Ok false /\
  fst (GetParameter MotorParameter.Position w) = Throw ParameterTimeout.
Proof.
  cbv zeta.
  destruct (loop_refusals example_models tt example_env old_fake 0 (example_world tt [] [mkScript [] []; mkScript [] []])
    example_position [-314; 314] old_snapshot [] (example_able _ _)) as (_ & _ & H).
  - by split.
  - vm_compute. reflexivity.
  - by vm_compute.
  - reflexivity.
  - destruct (H eq_refl) as [(w1 & -> & _) Hq]. split; [reflexivity|].
    by destruct (Hq MotorParameter.Position) as (w2 & -> & _).
Defined.

(** The driver truncates: 0.53 rad is written as 52 hundredths. *)
Example range_truncated :
  setting_words 0 (PosRangeSetting (mkRange (f32_lit (-53) 100) (f32_lit 53 100))) = Some [-52; 52].
Proof. vm_compute. reflexivity. Qed.

(** So does the simulated motor when it reports a range: 53 hundredths come back as
    52. *)
Example report_truncated : reported (PosRangeSetting zero_range) [-53; 53] = Some [-52; 52].
Proof. vm_compute. reflexivity. Qed.

(** The simulated motor acknowledges [SetId] and stays where it was: a query to the
    new index is not answered. *)
Definition example_answers (F : FakeState) (p : MotorPackMsg) : option (FakeState * WaitScript) :=
  answers example_models tt example_env 0 p F.
Definition after_set_id : option FakeState := fst <$> example_answers example_fake (SetIdMessage 1 5).
Example set_id_keeps_index :
  snd <$> example_answers example_fake (SetIdMessage 1 5) = Some (mkScript [] [Rx (make_pack 2047 4 [0; 5; 0; 4])]) /\
  SetIdAckMatches 5 (make_pack 2047 4 [0; 5; 0; 4]) = true /\
  (F ← after_set_id; snd <$> example_answers F (ParameterQuery 5 MotorParameter.CanTimeout)) = Some (mkScript [] []) /\
  (F ← after_set_id; snd <$> example_answers F (ParameterQuery 1 MotorParameter.CanTimeout)) =
    Some (mkScript [] [Rx (make_pack 1 4 [160; 31; 3; 232])]).
Proof. split_and!; vm_compute; reflexivity. Qed.

(** A motor whose firmware is said not to have the brake still acknowledges it. *)
Example old_firmware_brakes :
  snd <$> example_answers old_fake (make_pack 1 3 [116; 0; 0]) =
    Some (mkScript [] [Rx (make_pack 1 2 [192; 0])]).
Proof. vm_compute. reflexivity. Qed.
