(* ===== verification/FakeTyping.v ===== *)
(** * FakeTyping: what every run of the simulated motors keeps

    The fields of machine width stay in their types, the records of decoded
    commands stay bounded, and every answer is a frame that the C struct can hold, on
    the bus of a frame that was sent. *)
From stdpp Require Import base list numbers option gmap.
From Stdlib Require Import ZArith Lia.
From Stdlib Require Import SpecFloat.
From S2P Require Import Prelude CFloat Types MathUtils PackHelper.
From S2P Require Import MotorControl MotorParameter FakeProtocol FakeAdapter.
#[local] Open Scope Z_scope.
#[local] Open Scope cint_scope.

Definition word16 (v : Z) : Prop := 0 <= v < 65536.
Definition word32 (v : Z) : Prop := 0 <= v < 4294967296.

Record BuildTyped (b : FakeBuild) : Prop := {
  bt_flags : byte_ok (fs_reply_frame_flags b);
  bt_error : byte_ok (fs_error b);
  bt_cal_flag : byte_ok (fs_cal_flag b);
  bt_product : word32 (fs_product_id b);
  bt_hw : word32 (fs_hw_version b);
  bt_fw : word32 (default 0 (fs_fw_version b)) }.

Record SettingsTyped (t : FakeSettings) : Prop := {
  st_timeout : word16 (fs_can_timeout_ms t);
  st_mode : byte_ok (fs_communication_mode t);
  st_cur : word16 (pi_kp (fs_cur_gain_raw t)) /\ word16 (pi_ki (fs_cur_gain_raw t));
  st_spd : word16 (pi_kp (fs_spd_gain_raw t)) /\ word16 (pi_ki (fs_spd_gain_raw t));
  st_pos : word16 (pd_kp (fs_pos_gain_raw t)) /\ word16 (pd_kd (fs_pos_gain_raw t)) }.

Record SnapshotTyped (s : FakeMotorSnapshot) : Prop := {
  sn_build : BuildTyped (fs_build s);
  sn_settings : SettingsTyped (fs_settings s) }.

Record FakeTyped (F : FakeState) : Prop := {
  ft_motors : map_Forall (fun _ => SnapshotTyped) (snapshots F);
  ft_moving : dom (snapshots F) = dom (motions F);
  ft_bounded : Z.of_nat (length (command_records F)) <= kMaxCommandRecords }.

(** ** Updates *)

Lemma typed_insert key s m F :
  SnapshotTyped s -> FakeTyped F -> FakeTyped (set_motion key m (set_snapshot key s F)).
Proof.
  intros Hs [Hm Hd Hb]. split; [|cbn; by rewrite !dom_insert_L, Hd|done]. cbn. by apply map_Forall_insert_2.
Qed.

Lemma typed_motion key m F : is_Some (snapshots F !! key) -> FakeTyped F -> FakeTyped (set_motion key m F).
Proof.
  intros Hk [Hm Hd Hb]. split; [done| |done]. cbn. apply elem_of_dom in Hk.
  rewrite dom_insert_L, <- Hd. symmetry. by apply subseteq_union_1_L, singleton_subseteq_l.
Qed.

Lemma typed_update key f F :
  (forall s, SnapshotTyped s -> SnapshotTyped (f s)) -> FakeTyped F -> FakeTyped (update_snapshot key f F).
Proof.
  intros Hf [Hm Hd Hb]. split; [|cbn; by rewrite dom_alter_L|done].
  intros k s Hk. cbn in Hk. rewrite lookup_alter in Hk. case_decide; [|by apply (Hm k)].
  subst. apply fmap_Some in Hk as (s' & Hs' & ->). apply Hf. by apply (Hm k).
Qed.

Lemma typed_records c r w F :
  Z.of_nat (length c) <= kMaxCommandRecords -> FakeTyped F -> FakeTyped (with_records c r w F).
Proof. intros Hc [Hm Hd Hb]. by split. Qed.

Lemma typed_command r F : FakeTyped F -> FakeTyped (record_command r F).
Proof.
  intros HF. unfold record_command. destruct (command_recording_enabled F); [|done].
  apply typed_records; [|done]. pose proof (ft_bounded _ HF) as Hb. unfold kMaxCommandRecords in *.
  destruct (Z.ltb_spec 100000 (Z.of_nat (length (command_records F ++ [r])))) as [E|E]; [|done].
  destruct (command_records F); cbn [app tail length] in *; [lia|]. rewrite length_app in *. cbn in *. lia.
Qed.

Lemma kin_typed f s : SnapshotTyped s -> SnapshotTyped (set_kin f s).
Proof. by intros [? ?]. Qed.
Lemma brake_typed b s : SnapshotTyped s -> SnapshotTyped (set_brake b s).
Proof. by intros [? ?]. Qed.

Lemma update_snapshot_some key f F k : is_Some (snapshots F !! k) -> is_Some (snapshots (update_snapshot key f F) !! k).
Proof.
  intros [s Hs]. cbn. rewrite lookup_alter. case_decide; subst; rewrite ?Hs; by eexists.
Qed.

Create HintDb fake.
#[export] Hint Resolve typed_update kin_typed brake_typed typed_motion update_snapshot_some : fake.

Lemma advance_typed env bus motor F : FakeTyped F -> FakeTyped (AdvanceMotionToNowLocked env bus motor F).
Proof.
  intros HF. unfold AdvanceMotionToNowLocked.
  destruct (snapshots F !! MakeKey bus motor) as [s|] eqn:Es; [|done].
  pose proof (ft_motors _ HF _ _ Es) as Hs.
  destruct (motions F !! _) as [m|]; [|apply typed_motion; [by rewrite Es|done]].
  destruct (F32.leb _ _); [by apply typed_insert; [apply kin_typed|]|].
  destruct (integrate s m _). by apply typed_insert; [apply kin_typed|].
Qed.

Lemma advance_some env bus motor F k :
  is_Some (snapshots F !! k) -> is_Some (snapshots (AdvanceMotionToNowLocked env bus motor F) !! k).
Proof.
  intros Hk. unfold AdvanceMotionToNowLocked.
  destruct (snapshots F !! MakeKey bus motor) as [s|] eqn:Es; [|done].
  destruct (motions F !! _) as [m|]; [|done].
  destruct (F32.leb _ _); [|destruct (integrate s m _)]; cbn; rewrite lookup_insert; case_decide; done.
Qed.

Lemma push_typed env key v F : FakeTyped F -> FakeTyped (push_motion env key v F).
Proof.
  intros HF. unfold push_motion. destruct (snapshots F !! key) eqn:Es; [|done].
  apply typed_motion; [by rewrite Es|done].
Qed.

#[export] Hint Resolve advance_typed advance_some push_typed : fake.

(** ** Writes *)

Lemma raw_word_typed raw o : Forall byte_ok raw -> word16 (DecodeRawU16 raw o).
Proof. intros _. apply u16_range. Qed.

Lemma write_typed id p raw t : Forall byte_ok raw -> SettingsTyped t -> SettingsTyped (write_parameter id p raw t).
Proof.
  intros Hraw [H1 H2 H3 H4 H5]. unfold write_parameter.
  assert (SettingsTyped (if (id =? 2) && (1 <=? length raw)%nat
    then mkSettings (fs_ranges t) (fs_can_timeout_ms t) (byte_at raw 0) (fs_cur_gain_raw t) (fs_spd_gain_raw t)
           (fs_pos_gain_raw t) else t)) as Ht.
  { destruct (_ && _); split; try done. by apply byte_at_ok. }
  cbv zeta. revert Ht. match goal with |- SettingsTyped ?x -> _ => generalize x end.
  clear. intros t [H1 H2 H3 H4 H5].
  destruct p as [[]|]; try (by split); case_match; split; try done; try apply u16_range;
    split; apply u16_range.
Qed.

(** ** Replies *)

Lemma reply_pack_wf motor flags header payload :
  byte_ok flags -> Forall byte_ok header -> Forall byte_ok payload -> (length header <= 8)%nat ->
  pack_wf (reply_pack motor flags header payload).
Proof.
  intros Hf Hh Hp Hl. unfold reply_pack, pack_wf. cbn [id frame_flags len data].
  split; [apply u32_range|]. split; [done|]. split; [apply u8_ok|]. split.
  - rewrite !length_app, length_replicate, length_take. lia.
  - rewrite !Forall_app. split; [done|]. split; [by apply Forall_take|].
    apply Forall_replicate. unfold byte_ok. lia.
Qed.

Lemma EncodeU32_bytes v : Forall byte_ok (EncodeU32 v).
Proof. repeat constructor; apply u8_ok. Qed.
Lemma EncodeU16_bytes v : Forall byte_ok (EncodeU16 v).
Proof. repeat constructor; apply u8_ok. Qed.
Lemma EncodeI16_bytes v : Forall byte_ok (EncodeI16 v).
Proof. repeat constructor; apply u8_ok. Qed.
Lemma EncodeTemperature_byte x b v : EncodeTemperature x b = Some v -> byte_ok v.
Proof. unfold EncodeTemperature. intros H%SF_cast_range. unfold byte_ok. lia. Qed.
#[export] Hint Resolve EncodeU32_bytes EncodeU16_bytes EncodeI16_bytes EncodeTemperature_byte : fake.

Lemma reply_payload_bytes s p l : SnapshotTyped s -> reply_payload s p = Some l -> Forall byte_ok l.
Proof.
  intros [Hb _] H. unfold reply_payload, gain_range_payload, range_payload, EncodeFloatBe in H.
  destruct p as [[]|]; repeat (apply bind_Some in H as (? & ? & H)); apply (inj Some) in H; subst l;
    try solve [auto with fake | apply Forall_app; auto with fake].
  - destruct (fs_brake_enabled s); repeat constructor; unfold byte_ok; lia.
  - apply list.Forall_cons. split; [apply (bt_cal_flag _ Hb)|]. apply Forall_app. auto with fake.
Qed.

Lemma raw_id_byte q : byte_ok (FakeRawIdFromWriteParameter q).
Proof. destruct q; vm_compute; split; congruence. Qed.

Definition event_ok (bus : Z) (e : FakeEvent) : Prop :=
  match e with Replied m => bus_idx m = bus /\ pack_wf (mdata m) | Observed _ => True end.

Lemma feedback_wf F bus motor st fb m :
  MakeFeedbackMessageLocked F bus motor st fb = Some m -> bus_idx m = bus /\ pack_wf (mdata m).
Proof.
  unfold MakeFeedbackMessageLocked. cbv zeta. intros H.
  destruct (fb =? 1); repeat (apply bind_Some in H as (? & ? & H)); injection H as <-; (split; [done|]);
    apply make_pack_wf; try apply u32_range; try (unfold byte_ok; lia); try (cbn; lia);
    unfold EncodeFloatBe, EncodeU32; cbn [app];
    repeat (apply list.Forall_cons; split; [first [apply u8_ok | by eapply EncodeTemperature_byte]|]); constructor.
Qed.

(** ** Commands *)

Definition env_typed (env : FakeEnv) : Prop := forall F, FakeTyped F -> FakeTyped (e_observer env F).

Section Commands.
Context (env : FakeEnv) (Henv : env_typed env).

Lemma notify_typed r F bus : FakeTyped F ->
  FakeTyped (notify env r F).1 /\ Forall (event_ok bus) (notify env r F).2.
Proof. intros HF. unfold notify. destruct (has_observer F); cbn; split; auto. repeat constructor. Qed.

Lemma notify_done r F F' evs bus :
  FakeTyped F -> Some (notify env r F) = Some (F', evs) -> FakeTyped F' /\ Forall (event_ok bus) evs.
Proof. intros HF H. pose proof (notify_typed r F bus HF) as Hn. apply (inj Some) in H. by rewrite H in Hn. Qed.

Lemma notify_then_typed r reply F F' evs bus :
  FakeTyped F -> (forall F1 es, reply F1 = Some es -> Forall (event_ok bus) es) ->
  notify_then env r reply F = Some (F', evs) -> FakeTyped F' /\ Forall (event_ok bus) evs.
Proof.
  intros HF Hr H. unfold notify_then in H. pose proof (notify_typed r F bus HF) as [HF1 Hev].
  destruct (notify env r F) as [F1 seen]. apply bind_Some in H as (es & Hes & H). injection H as <- <-.
  split; [done|]. apply Forall_app. split; [done|]. by eapply Hr.
Qed.

Lemma reply_with_typed r m F F' evs :
  FakeTyped F -> pack_wf (mdata m) ->
  reply_with env r m F = Some (F', evs) -> FakeTyped F' /\ Forall (event_ok (bus_idx m)) evs.
Proof. intros HF Hm. apply notify_then_typed; [done|]. intros F1 es [= <-]. by apply list.Forall_singleton. Qed.

Lemma emit_status_ok message key fb st F es :
  emit_status message key fb st F = Some es -> Forall (event_ok (bus_idx message)) es.
Proof.
  unfold emit_status. destruct (fb <=? 0); [by intros [= <-]|].
  intros H. apply bind_Some in H as (s & _ & H). apply bind_Some in H as (m & Hm & H). injection H as <-.
  apply list.Forall_singleton. by apply feedback_wf in Hm.
Qed.

Lemma decode_write_typed m snap raw p wait v :
  pack_wf m -> DecodeFakePayload m snap = FakeSetParameter raw p wait v -> byte_ok raw /\ Forall byte_ok v.
Proof.
  intros Hwf H. unfold DecodeFakePayload, DecodeFakePVT, DecodeFakePos, DecodeFakeClass3 in H.
  destruct (pvt_fields (data m)) as [[[[? ?] ?] ?] ?]. destruct (pos_fields (data m)) as [[[? ?] ?] ?].
  repeat match type of H with (if ?b then _ else _) = _ => destruct b; [try discriminate H|] end;
    repeat match type of H with (if ?b then _ else _) = _ => destruct b; try discriminate H end; try discriminate H.
  injection H as <- _ _ <-. split; [by apply wf_byte|]. destruct Hwf as (_ & _ & _ & _ & Hd).
  by apply Forall_take, Forall_drop.
Qed.

(** A broadcast acknowledgement. *)
Lemma broadcast_wf message hi lo kind :
  byte_ok hi -> byte_ok lo -> byte_ok kind -> pack_wf (mdata (broadcast_ack message hi lo kind)).
Proof.
  intros. apply make_pack_wf; [lia|unfold byte_ok; lia|cbn; lia|].
  repeat (apply list.Forall_cons; split; [done || (unfold byte_ok; lia)|]). constructor.
Qed.

Lemma HandleCommand_typed message motor key snap F F' evs :
  pack_wf (mdata message) -> FakeTyped F -> is_Some (snapshots F !! key) ->
  HandleCommand env message motor key (DecodeFakeCommand message snap) F = Some (F', evs) ->
  FakeTyped F' /\ Forall (event_ok (bus_idx message)) evs.
Proof.
  intros Hwf HF Hk H. unfold HandleCommand, DecodeFakeCommand in H. cbn [fr_payload] in H.
  destruct (DecodeFakePayload (mdata message) snap) eqn:Ed.
  - (* unknown *) by eapply notify_done.
  - (* SetId *) apply reply_with_typed in H; [done|done|]. apply broadcast_wf; try apply u8_ok. unfold byte_ok; lia.
  - (* SetPos *) apply reply_with_typed in H; [done|auto with fake|]. apply broadcast_wf; try by apply wf_byte. unfold byte_ok; lia.
  - (* ResetZeroPos *) apply reply_with_typed in H; [done|auto with fake|]. apply broadcast_wf; try by apply wf_byte. unfold byte_ok; lia.
  - (* GetParameter *) apply bind_Some in H as (s & Hs & H). cbv zeta in H.
    destruct (_ || _); [by eapply notify_done|].
    apply bind_Some in H as (s' & Hs' & H). apply bind_Some in H as (payload & Hp & H).
    match type of Hs' with snapshots ?G !! _ = _ => assert (FakeTyped G) as HG by (destruct (reads_motion _); auto with fake) end.
    pose proof (ft_motors _ HG _ _ Hs') as Hty.
    apply reply_with_typed in H; [done|done|]. apply reply_pack_wf; [|repeat constructor; apply u8_ok| |cbn; lia].
    + apply (bt_flags _ (sn_build _ Hty)).
    + by eapply reply_payload_bytes.
  - (* Brake *) apply bind_Some in H as (s & Hs & H). apply reply_with_typed in H; [done|auto with fake|].
    apply make_pack_wf; [apply Hwf|unfold byte_ok; lia|cbn; lia|].
    repeat (apply list.Forall_cons; split; [first [apply u8_ok | destruct enabled; unfold byte_ok; lia]|]). constructor.
  - (* SpdControl *) eapply notify_then_typed in H; [done| |intros; by eapply emit_status_ok]. eauto 9 with fake.
  - (* PosControl *) eapply notify_then_typed in H; [done| |intros; by eapply emit_status_ok]. eauto 9 with fake.
  - (* CurControl *) eapply notify_then_typed in H; [done| |intros; by eapply emit_status_ok]. eauto 9 with fake.
  - (* TorControl *) eapply notify_then_typed in H; [done| |intros; by eapply emit_status_ok]. eauto 9 with fake.
  - (* Stop *) eapply notify_then_typed in H; [done| |intros; by eapply emit_status_ok]. eauto 9 with fake.
  - (* PVTControl *) eapply notify_then_typed in H; [done| |intros; by eapply emit_status_ok]. eauto 9 with fake.
  - (* SetParameter *) destruct (decode_write_typed _ _ _ _ _ _ Hwf Ed) as [Hid Hraw].
    apply bind_Some in H as (s & Hs & H). cbv zeta in H.
    pose proof (ft_motors _ HF _ _ Hs) as Hty.
    assert (forall c, FakeTyped (with_records (command_records F) (reply_records F ++ c) (raw_sent_messages F) F)) as HR
      by (intros c; apply typed_records; [apply HF|done]).
    destruct (bool_decide _); [|eapply notify_done; [apply HR|exact H]].
    apply reply_with_typed in H.
    + destruct parameter as [q|]; done.
    + apply typed_update; [|done]. intros s' [Hb Hset]. split; [done|]. cbn. by apply write_typed.
    + destruct parameter as [q|]; (apply reply_pack_wf; [apply (bt_flags _ (sn_build _ Hty))| |done|cbn; lia]);
        repeat (apply list.Forall_cons; split; [first [done | apply raw_id_byte | unfold byte_ok; lia]|]); constructor.
Qed.
End Commands.

(** ** Runs *)

Section Runs.
Context {MotorModel : Type} (GetMotorModelRanges : MotorModel -> MotorProperties) (EC_A4310_P2 : MotorModel).

Lemma CreateSnapshot_typed model : SnapshotTyped (CreateSnapshot GetMotorModelRanges model).
Proof.
  split; split; cbn; unfold byte_ok, word16, word32, MotorError.NoError, MotorCommunicationMode.ClassicCan; lia.
Qed.

Lemma Send_typed env message F F' evs :
  env_typed env -> pack_wf (mdata message) -> FakeTyped F ->
  Send GetMotorModelRanges EC_A4310_P2 env message F = Some (F', evs) ->
  FakeTyped F' /\ Forall (event_ok (bus_idx message)) evs.
Proof.
  intros Henv Hwf HF H. unfold Send in H. cbv zeta in H.
  assert (FakeTyped (with_records (command_records F) (reply_records F) (raw_sent_messages F ++ [message]) F)) as HF1
    by (apply typed_records; [apply HF|done]).
  revert H HF1. generalize (with_records (command_records F) (reply_records F) (raw_sent_messages F ++ [message]) F).
  clear F HF. intros F H HF.
  assert (FakeTyped (auto_create GetMotorModelRanges EC_A4310_P2 env message F)) as HF1.
  { unfold auto_create. destruct (snapshots F !! _); [done|]. destruct (auto_create_motor_enabled F); [|done].
    apply typed_insert; [apply CreateSnapshot_typed|done]. }
  revert H HF1. generalize (auto_create GetMotorModelRanges EC_A4310_P2 env message F). clear F HF. intros F H HF.
  match type of H with context [record_command ?r F] => pose proof (typed_command r F HF) as HFr end.
  destruct (snapshots F !! _) as [s|] eqn:Es; [|by eapply notify_done].
  destruct (bool_decide _); [|by eapply notify_done].
  eapply HandleCommand_typed in H; [done|done|done|done|].
  unfold record_command. destruct (command_recording_enabled F); cbn; rewrite Es; by eexists.
Qed.

Inductive FakeOp :=
| OpSend (env : FakeEnv) (message : MotorMessage)
| OpSeed (bus_idx motor_idx : Z) (s : FakeMotorSnapshot) (now : Z)
| OpRead (env : FakeEnv) (bus_idx motor_idx : Z)
| OpPolicy (bus_idx motor_idx : Z) (p : MotorParameter.t) (policy : FakeWritePolicy)
| OpModes (mode : FakeReplyMode) (auto_create recording observer error : bool)
| OpClear.

Definition fake_step (op : FakeOp) (F : FakeState) : option (FakeState * list FakeEvent) :=
  match op with
  | OpSend env message => Send GetMotorModelRanges EC_A4310_P2 env message F
  | OpSeed bus motor s now => Some (SeedMotor bus motor s now F, [])
  | OpRead env bus motor => Some ((GetMotorSnapshot env bus motor F).2, [])
  | OpPolicy bus motor p policy => Some (SetParameterWritePolicy bus motor p policy F, [])
  | OpModes mode auto rec obs err =>
      Some (SetReplyMode mode (SetAutoCreateMotor auto (EnableCommandRecording rec
              (SetDecodedCommandObserver obs (EnablePositionError err F)))), [])
  | OpClear => Some (ClearCommandRecords F, [])
  end.

Fixpoint fake_run (ops : list FakeOp) (F : FakeState) : option (FakeState * list FakeEvent) :=
  match ops with
  | [] => Some (F, [])
  | op :: rest => '(F, e) ← fake_step op F; '(F, es) ← fake_run rest F; Some (F, e ++ es)
  end.

(** What the types of the arguments say. *)
Definition op_typed (op : FakeOp) : Prop :=
  match op with
  | OpSend env message => env_typed env /\ pack_wf (mdata message)
  | OpSeed _ _ s _ => SnapshotTyped s
  | _ => True
  end.

(** An answer is a frame the C struct can hold, on the bus of a frame that was sent. *)
Definition event_wf (ops : list FakeOp) (e : FakeEvent) : Prop :=
  match e with
  | Replied m => pack_wf (mdata m) /\ exists env message, OpSend env message ∈ ops /\ bus_idx m = bus_idx message
  | Observed _ => True
  end.

Lemma step_typed op F F' evs :
  op_typed op -> FakeTyped F -> fake_step op F = Some (F', evs) -> FakeTyped F' /\ Forall (event_wf [op]) evs.
Proof.
  intros Hop HF H. destruct op as [env message|bus motor s now|env bus motor|bus motor p policy|? ? ? ? ?|]; cbn in H.
  - destruct Hop as [Henv Hwf]. destruct (Send_typed _ _ _ _ _ Henv Hwf HF H) as [HF' He]. split; [done|].
    eapply Forall_impl; [exact He|]. intros [] ; cbn; [done|]. intros [Hb Hm]. split; [done|].
    exists env, message. split; [by left|done].
  - injection H as <- <-. split; [by apply typed_insert|constructor].
  - injection H as <- <-. split; [by apply advance_typed|constructor].
  - injection H as <- <-. by destruct HF.
  - injection H as <- <-. by destruct HF.
  - injection H as <- <-. split; [|constructor]. apply typed_records; [done|done].
Qed.

Lemma event_wf_mono ops ops' e : (forall op, op ∈ ops -> op ∈ ops') -> event_wf ops e -> event_wf ops' e.
Proof. intros H. destruct e; [done|]. intros [? (env & message & Hin & E)]. split; [done|]. exists env, message. auto. Qed.

(** C14: type safety of the simulated adapter.  However it is driven - frames, seeded
    motors, policies, modes, readings, any clock and noise, and an observer that
    keeps the types - every answer it gives is a frame the C struct can hold, on the bus
    of a frame that was sent to it; the settings that its motors keep stay within their
    integer types; a motor has a motion exactly when it has a snapshot; and the records
    of the decoded commands are at most 100000.  Nothing bounds the other two histories,
    the raw messages and the records of the answers: they grow until they are cleared. *)
Theorem fake_adapter_typed ops F evs :
  Forall op_typed ops -> fake_run ops new_fake = Some (F, evs) -> FakeTyped F /\ Forall (event_wf ops) evs.
Proof.
  assert (FakeTyped new_fake) as H0 by (split; [by apply map_Forall_empty|done|done]).
  revert H0. generalize new_fake. revert evs. induction ops as [|op ops IH]; intros evs F0 HF0 Hops H; cbn in H.
  - injection H as <- <-. by split.
  - apply list.Forall_cons in Hops as [Hop Hops].
    apply bind_Some in H as ([F1 e1] & H1 & H). apply bind_Some in H as ([F2 e2] & H2 & [= <- <-]).
    destruct (step_typed _ _ _ _ Hop HF0 H1) as [HF1 He1].
    destruct (IH _ _ HF1 Hops H2) as [HF2 He2]. split; [done|]. apply Forall_app. split.
    + eapply Forall_impl; [exact He1|]. intros e. apply event_wf_mono. intros x ->%list_elem_of_singleton. by left.
    + eapply Forall_impl; [exact He2|]. intros e. apply event_wf_mono. intros x Hx. by right.
Qed.
End Runs.

(** A motor is seeded, told to brake, and asked for its timeout. *)
Definition example_ops : list FakeOp :=
  [OpSeed 0 1 example_snapshot 0; OpSend example_env (mkMsg 0 (make_pack 1 3 [116; 0; 0]));
   OpSend example_env (mkMsg 0 (ParameterQuery 1 MotorParameter.CanTimeout))].

Lemma example_ops_typed : Forall op_typed example_ops.
Proof.
  assert (env_typed example_env) as He by (by intros F HF).
  unfold example_ops. repeat (apply list.Forall_cons; split); try constructor; try exact He.
  - split; cbn; unfold byte_ok, word32, MotorError.NoError; lia.
  - split; cbn; unfold byte_ok, word16; lia.
  - apply make_pack_wf; [lia|unfold byte_ok; lia|cbn; lia|].
    repeat (apply list.Forall_cons; split; [unfold byte_ok; lia|]). constructor.
  - apply make_pack_wf; [lia|unfold byte_ok; lia|cbn; lia|].
    repeat (apply list.Forall_cons; split; [vm_compute; split; congruence|]). constructor.
Qed.

Lemma fake_adapter_typed_witness :
  exists F evs, fake_run (fun _ : unit => Motor.example_ranges) tt example_ops new_fake = Some (F, evs) /\
    map (fun e => match e with Replied m => data (mdata m) | Observed _ => [] end) evs =
      [[192; 0; 0; 0; 0; 0; 0; 0]; [160; 31; 3; 232; 0; 0; 0; 0]] /\ FakeTyped F.
Proof.
  destruct (fake_run (fun _ : unit => Motor.example_ranges) tt example_ops new_fake) as [[F evs]|] eqn:E;
    [|vm_compute in E; discriminate E].
  exists F, evs. split; [reflexivity|]. split; [vm_compute in E; injection E as _ <-; reflexivity|].
  exact (proj1 (fake_adapter_typed _ _ _ _ _ example_ops_typed E)).
Defined.
