(* ===== verification/FakeStatus.v ===== *)
(** * FakeStatus: a status report from the simulated motor to the driver

    [MakeFeedbackMessageLocked] of the fake adapter writes a status into eight bytes and
    [DecodeFeedback] of pack_helper.h reads it again, by code that shares nothing but the
    quantisation.  The driver ends with the position, speed and current of the motor up to
    a step of their bits, and with its temperatures up to a degree and an eighth; of the
    error code it gets what [DecodeMotorError] makes of it. *)
From stdpp Require Import base list numbers option gmap.
From Stdlib Require Import ZArith QArith Qabs Lqa Lia.
From Stdlib Require Import SpecFloat.
From S2P Require Import Prelude CFloat FloatError Types MathUtils Quantise PackHelper.
From S2P Require Import Motor FakeProtocol FakeAdapter.
#[local] Open Scope Z_scope.
#[local] Open Scope cint_scope.

(** ** Temperatures *)

(** [x] is within [d] of [v]. *)
Definition within (d v x : Q) : Prop := (v - d <= x)%Q /\ (x <= v + d)%Q.

Lemma clamp_within x lo hi v d :
  number x -> is_finite x = true -> valid lo -> valid hi -> is_finite lo = true -> is_finite hi = true ->
  (fval lo <= v)%Q -> (v <= fval hi)%Q -> (0 <= d)%Q -> within d v (fval x) -> within d v (fval (F32.clamp x lo hi)).
Proof.
  intros [Hx _] Hfx Hl Hh Hfl Hfh Hlo Hhi Hd [H1 H2]. unfold F32.clamp.
  pose proof (ltb_value x lo Hx Hl Hfx Hfl) as E1. pose proof (ltb_value hi x Hh Hx Hfh Hfx) as E2.
  destruct (F32.ltb x lo).
  { destruct E1 as [E1 _]. specialize (E1 eq_refl). split; lra. }
  destruct (F32.ltb hi x); [|done]. destruct E2 as [E2 _]. specialize (E2 eq_refl). split; lra.
Qed.

(** The byte of a raw value. *)
Lemma raw_byte raw v d :
  number raw -> is_finite raw = true -> (0 <= v)%Q -> (v <= 255)%Q -> (0 <= d)%Q -> within d v (fval raw) ->
  exists b, SF_cast 0 255 (F32.clamp raw F32.zero (F32.of_Z 255)) = Some b /\ 0 <= b < 256 /\ within (1 + d) v (inject_Z b).
Proof.
  intros Hn Hf H0 H255 Hd Hv. destruct (of_Z_value 255) as [Hfh Eh]; [lia|]. change (inject_Z 255) with 255%Q in Eh.
  assert (valid F32.zero /\ valid (F32.of_Z 255) /\ is_finite F32.zero = true) as (Hl & Hh & Hfl) by (by split_and!; vm_compute).
  assert (fval F32.zero == 0)%Q as El by done.
  destruct (clamp_within raw F32.zero (F32.of_Z 255) v d) as [H1 H2]; try done; try lra.
  destruct Hn as [Hvr Hnr]. destruct (clamp_value raw F32.zero (F32.of_Z 255)) as (Hfc & Hlo & Hhi & _); try done; try lra.
  destruct (trunc_floor _ Hfc) as (b & Eb & Hb0 & Hb1 & Hb2); [lra|]. rewrite inject_Z_plus in Hb2. change (inject_Z 1) with 1%Q in Hb2.
  assert (b <= 255) as Hb.
  { assert (inject_Z b <= inject_Z 255)%Q as Hle by (change (inject_Z 255) with 255%Q; lra). by rewrite <- Zle_Qle in Hle. }
  exists b. unfold SF_cast. rewrite Eb. replace ((0 <=? b) && (b <=? 255))%bool with true by lia.
  split_and!; [done|lia|lia|split; lra].
Qed.

(** An operation on small numbers is within a thousandth of the exact one. *)
Lemma rounds_within v r : rounds v r -> within 512 0 v -> within (1 # 1000) v (fval r).
Proof.
  intros Hr [H1 H2]. destruct (rounds_near v r 512%Q Hr) as [Hn1 Hn2]; [apply Qabs_Qle_condition; lra|done|].
  change (inject_Z 2) with 2%Q in *. change unit with (1 # 4194304)%Q in *. split; lra.
Qed.

Lemma small_abs v : within 512 0 v -> (Qabs v <= pow2 100)%Q.
Proof. intros [H1 H2]. assert (512 <= pow2 100)%Q by done. apply Qabs_Qle_condition. lra. Qed.

(** The temperatures a byte can hold, for either firmware. *)
Definition coldest (new_firmware : bool) : Q := if new_firmware then -55 else -25.
Definition hottest (new_firmware : bool) : Q := if new_firmware then 200 else 102.
Definition sensible (new_firmware : bool) (c : F32.t) : Prop :=
  number c /\ is_finite c = true /\ (coldest new_firmware <= fval c)%Q /\ (fval c <= hottest new_firmware)%Q.

Lemma small_constant n : 0 <= n < 2 ^ 24 -> number (F32.of_Z n) /\ is_finite (F32.of_Z n) = true /\ (fval (F32.of_Z n) == inject_Z n)%Q.
Proof. intros Hn. destruct (of_Z_value n Hn) as [Hf E]. split_and!; [apply normalize_number|done|done]. Qed.

Lemma encoded_temperature new_firmware c :
  sensible new_firmware c ->
  exists b, EncodeTemperature c new_firmware = Some b /\ 0 <= b < 256 /\
    within (1 + (1 # 100)) (if new_firmware then fval c + 55 else fval c * 2 + 50)%Q (inject_Z b).
Proof.
  intros (Hn & Hf & Hlo & Hhi). unfold EncodeTemperature, coldest, hottest in *. destruct new_firmware.
  - destruct (small_constant 55) as (Hn55 & Hf55 & E55); [lia|]. change (inject_Z 55) with 55%Q in E55.
    assert (within 512 0 (fval c + fval (F32.of_Z 55)))%Q as Hs by (split; lra).
    pose proof (add_rounds c _ Hf Hf55 (small_abs _ Hs)) as Hr. destruct (rounds_within _ _ Hr Hs) as [H1 H2].
    apply raw_byte; [by apply add_number|apply Hr|lra|lra|done|split; lra].
  - destruct (small_constant 2) as (Hn2 & Hf2 & E2); [lia|]. destruct (small_constant 50) as (Hn50 & Hf50 & E50); [lia|].
    change (inject_Z 2) with 2%Q in E2. change (inject_Z 50) with 50%Q in E50.
    assert (fval c * fval (F32.of_Z 2) == fval c * 2)%Q as Em by (by rewrite E2).
    assert (within 512 0 (fval c * fval (F32.of_Z 2)))%Q as Hs by (split; lra).
    pose proof (mul_rounds c _ Hf Hf2 (small_abs _ Hs)) as Hr. destruct (rounds_within _ _ Hr Hs) as [H1 H2].
    assert (number (F32.mul c (F32.of_Z 2))) as Hnm.
    { change (F32.of_Z 2) with (S754_finite false 8388608 (-22)). by apply mul_number. }
    destruct Hr as (Hfm & _). set (m := F32.mul c (F32.of_Z 2)) in *.
    assert (within 512 0 (fval m + fval (F32.of_Z 50)))%Q as Hs' by (split; lra).
    pose proof (add_rounds m _ Hfm Hf50 (small_abs _ Hs')) as Hr'. destruct (rounds_within _ _ Hr' Hs') as [H3 H4].
    apply raw_byte; [by apply add_number|apply Hr'|lra|lra|done|split; lra].
Qed.

Lemma decoded_temperature b fw :
  0 <= b < 256 ->
  is_finite (DecodeTemperature b fw) = true /\
  within (1 # 100) (if fw =? 0 then (inject_Z b - 50) / 2 else inject_Z b - 55)%Q (fval (DecodeTemperature b fw)).
Proof.
  intros Hb. destruct (small_constant b) as (_ & Hfb & Eb); [lia|].
  assert (0 <= inject_Z b)%Q by (apply (injZ_le 0); lia). assert (inject_Z b <= 255)%Q by (apply (injZ_le _ 255); lia).
  unfold DecodeTemperature. destruct (fw =? 0).
  - destruct (small_constant 50) as (_ & Hf50 & E50); [lia|]. destruct (small_constant 2) as (_ & Hf2 & E2); [lia|].
    change (inject_Z 2) with 2%Q in E2. change (inject_Z 50) with 50%Q in E50.
    assert (within 512 0 (fval (F32.of_Z b) - fval (F32.of_Z 50)))%Q as Hs by (split; lra).
    pose proof (sub_rounds _ _ Hfb Hf50 (small_abs _ Hs)) as Hr. destruct (rounds_within _ _ Hr Hs) as [H1 H2].
    destruct Hr as (Hfm & _). set (m := F32.sub (F32.of_Z b) (F32.of_Z 50)) in *.
    assert (fval m / fval (F32.of_Z 2) == fval m * (1 # 2))%Q as Ed by (rewrite E2; field).
    assert (within 512 0 (fval m / fval (F32.of_Z 2)))%Q as Hs' by (split; lra).
    assert (~ fval (F32.of_Z 2) == 0)%Q as Hne by lra.
    pose proof (div_rounds m _ Hfm Hf2 Hne (small_abs _ Hs')) as Hr'. destruct (rounds_within _ _ Hr' Hs') as [H3 H4].
    split; [apply Hr'|]. assert ((inject_Z b - 50) / 2 == (inject_Z b - 50) * (1 # 2))%Q as E by field. split; lra.
  - destruct (small_constant 55) as (_ & Hf55 & E55); [lia|]. change (inject_Z 55) with 55%Q in E55.
    assert (within 512 0 (fval (F32.of_Z b) - fval (F32.of_Z 55)))%Q as Hs by (split; lra).
    pose proof (sub_rounds _ _ Hfb Hf55 (small_abs _ Hs)) as Hr. destruct (rounds_within _ _ Hr Hs) as [H1 H2].
    split; [apply Hr|]. split; lra.
Qed.

(** A temperature arrives up to a degree and an eighth. *)
Lemma temperature_roundtrip new_firmware c fw :
  sensible new_firmware c -> (fw =? 0) = negb new_firmware ->
  exists b, EncodeTemperature c new_firmware = Some b /\ 0 <= b < 256 /\
    is_finite (DecodeTemperature b fw) = true /\ within (9 # 8) (fval c) (fval (DecodeTemperature b fw)).
Proof.
  intros Hc Hfw. destruct (encoded_temperature _ _ Hc) as (b & Eb & Hb & H1 & H2). exists b.
  destruct (decoded_temperature b fw Hb) as (Hf & H3 & H4). rewrite Hfw in H3, H4. split_and!; [done|lia|lia|done|].
  destruct new_firmware; cbn [negb] in *; [split; lra|].
  assert ((inject_Z b - 50) / 2 == (inject_Z b - 50) * (1 # 2))%Q as E by field. split; lra.
Qed.

(** ** The report *)

Lemma report_fields pos_int spd_int cur_int :
  0 <= pos_int < 65536 -> 0 <= spd_int < 4096 -> 0 <= cur_int < 4096 ->
  let b4 := u8 (((spd_int .& 15) ≪ 4) .| ((cur_int ≫ 8) .& 15)) in
  (u8 (pos_int ≫ 8) ≪ 8) .| u8 (pos_int .& 255) = pos_int /\
  (u8 (spd_int ≫ 4) ≪ 4) .| ((b4 .& 240) ≫ 4) = spd_int /\
  ((b4 .& 15) ≪ 8) .| u8 (cur_int .& 255) = cur_int.
Proof.
  intros Hp Hs Hc. cbv zeta.
  assert (u8 (((spd_int .& 15) ≪ 4) .| ((cur_int ≫ 8) .& 15)) = (spd_int mod 16) * 16 + cur_int / 256) as ->.
  { change 15 with (Z.ones 4). rewrite !Z.land_ones, lor_shiftl_add, Z.shiftr_div_pow2 by (try apply Z.mod_pos_bound; lia).
    change (2 ^ 4) with 16. change (2 ^ 8) with 256. rewrite (Z.mod_small (cur_int / 256)) by (Z.to_euclidean_division_equations; lia).
    unfold u8. rewrite Z.mod_small; [done|]. Z.to_euclidean_division_equations; lia. }
  assert (0 <= cur_int / 256 < 16) by (Z.to_euclidean_division_equations; lia).
  pose proof (Z.mod_pos_bound spd_int 16 ltac:(lia)).
  split_and!; [cint_solve| |].
  - assert (((spd_int mod 16 * 16 + cur_int / 256) .& 240) ≫ 4 = spd_int mod 16) as ->; [|cint_solve].
    rewrite Z.shiftr_land, Z.shiftr_div_pow2 by lia. change (240 ≫ 4) with (Z.ones 4). rewrite Z.land_ones by lia.
    change (2 ^ 4) with 16. Z.to_euclidean_division_equations; lia.
  - assert ((spd_int mod 16 * 16 + cur_int / 256) .& 15 = cur_int / 256) as ->; [|cint_solve].
    change 15 with (Z.ones 4). rewrite Z.land_ones by lia. change (2 ^ 4) with 16. Z.to_euclidean_division_equations; lia.
Qed.

Lemma report_class err : 0 <= err < 32 -> u8 (u8 ((1 ≪ 5) .| u8 err) ≫ 5) = 1 /\ u8 (u8 ((1 ≪ 5) .| u8 err) .& 31) = err.
Proof.
  intros He. rewrite <- (Z2Nat.id err) by lia. assert (Z.to_nat err < 32)%nat as Hn by lia. revert Hn. generalize (Z.to_nat err).
  intros n Hn. do 32 (destruct n as [|n]; [done|]). lia.
Qed.

(** What the driver needs to know of the motor: its ranges and the kind of its firmware. *)
Record knows (rs : MotorProperties) (sm : FakeMotorSnapshot) : Prop := {
  knows_position : position rs = position (fs_ranges (fs_settings sm));
  knows_speed : speed rs = speed (fs_ranges (fs_settings sm));
  knows_current : current rs = current (fs_ranges (fs_settings sm));
  knows_firmware : (fw_version rs =? 0) = negb (SnapshotIsNewFirmware sm)
}.

(** A status the motor can be in. *)
Record reportable (rs : MotorProperties) (new_firmware : bool) (st : MotorStatus) : Prop := {
  rep_error : 0 <= fb_error st < 32;
  rep_values : Forall number [fb_position st; fb_speed st; fb_current st];
  rep_ranges : Forall proper [position rs; speed rs; current rs];
  rep_motor : sensible new_firmware (fb_motor_temperature st);
  rep_mos : sensible new_firmware (fb_mos_temperature st)
}.

(** The codes a driver of a new firmware reads as another one. *)
Definition renumbered : list Z := [6; 7; 8; 9; 31].

Lemma same_error err fw : 0 <= err < 32 -> DecodeMotorError err fw = err <-> fw = 0 \/ err ∉ renumbered.
Proof.
  intros He. unfold DecodeMotorError. destruct (fw =? 0) eqn:Ef; [split; [left; lia|done]|].
  destruct (decide (err ∈ renumbered)) as [Hin|Hout].
  - split; [|intros [?|?]; [lia|done]]. unfold renumbered in Hin. rewrite !elem_of_cons in Hin.
    by destruct Hin as [->|[->|[->|[->|[->|[]%elem_of_nil]]]]].
  - split; [by right|intros _]. revert Hout. rewrite <- (Z2Nat.id err) by lia. assert (Z.to_nat err < 32)%nat as Hn by lia.
    revert Hn. generalize (Z.to_nat err). intros n Hn Hout.
    do 32 (destruct n as [|n]; [first [reflexivity|exfalso; apply Hout, (bool_decide_unpack _); exact I]|]). lia.
Qed.


(** A simulated motor with new firmware whose error is [DriverError] reports the code 7,
    which the driver reads as [FetOverTemperature]. *)
Definition new_snapshot : FakeMotorSnapshot :=
  mkSnapshot (mkBuild (F32.of_Z 25) (F32.of_Z 25) (F32.of_Z 5) F32.zero 0 MotorError.DriverError (Some 300) 0 0 0 F32.zero F32.zero)
    (fs_settings example_snapshot) (fs_kin example_snapshot) false.
Definition new_ranges : MotorProperties :=
  mkProps (kp example_ranges) (kd example_ranges) (position example_ranges) (speed example_ranges) (torque example_ranges)
    (current example_ranges) F32.zero false 300.

Example driver_error_misread :
  let st := mkFb1 MotorError.DriverError (F32.of_Z 1) (F32.of_Z (-2)) (F32.of_Z 40) (F32.of_Z 36) (F32.of_Z 41) in
  option_map (fun m => fb_error (AutoDecodeFeedback (mdata m) new_ranges))
    (MakeFeedbackMessageLocked (SeedMotor 0 1 new_snapshot 0 new_fake) 0 1 st 1) = Some MotorError.FetOverTemperature.
Proof. by vm_compute. Qed.

Definition example_status : MotorStatus :=
  mkFb1 0 (F32.of_Z 1) (F32.of_Z (-2)) (F32.of_Z 40) (F32.of_Z 36) (F32.of_Z 41).

Lemma example_reportable : reportable example_ranges (SnapshotIsNewFirmware example_snapshot) example_status.
Proof.
  split; [by vm_compute| | |split; [by split; vm_compute|split_and!; by vm_compute]..].
  - repeat (apply list.Forall_cons; split; [by split; vm_compute|]). by apply list.Forall_nil.
  - repeat (apply list.Forall_cons; split; [split; [split_and!; by vm_compute..|by vm_compute]|]). by apply list.Forall_nil.
Qed.

