(* ===== verification/EthercatBase.v ===== *)
(** * EthercatBase: the frame slots of an EtherCAT slave

    plugins/adapter/utils/ethercatBase/ethercat_base_handle.h and the packing and
    decoding functions of ethercat_base_handle.cc.  A slave's process data is an
    array of [MotorPackMsg], a fixed number of slots for each CAN bus.  A [Packet]
    is one of the packed C structs; [packet_bytes] is its memory image, which the
    master copies to the wire, and [DecodeInputs] reads such an image. *)
From stdpp Require Import base list numbers option.
From Stdlib Require Import ZArith Lia.
From S2P Require Import Prelude Types.
#[local] Open Scope Z_scope.
#[local] Open Scope cint_scope.

(** ** The packed structs *)

Inductive PacketT :=
| EthercatClassicCanMsg2 | EthercatClassicCanMsg8 | EthercatCanFdMsg8
| EthercatCanFdMsg8x10 | EthercatCanFdMsg3 | EthercatGloveSlots.

(** [PacketTraits<PacketT>], with the number of reserved bytes at the end. *)
Record PacketTraits := mkTraits {
  kBusCount : nat;
  kMotorsPerBus : nat;
  kHasMotorNum : bool;
  reserved_len : nat
}.

Definition traits (T : PacketT) : PacketTraits :=
  match T with
  | EthercatClassicCanMsg2 => mkTraits 2 3 true 0
  | EthercatClassicCanMsg8 => mkTraits 8 3 true 2
  | EthercatCanFdMsg8 => mkTraits 8 8 false 0
  | EthercatCanFdMsg8x10 => mkTraits 8 10 false 0
  | EthercatCanFdMsg3 => mkTraits 3 8 false 0
  | EthercatGloveSlots => mkTraits 5 10 false 0
  end.

(** The length of the array [motor]. *)
Definition motor_slots (T : PacketT) : nat :=
  match T with
  | EthercatClassicCanMsg2 => 6 | EthercatClassicCanMsg8 => 24
  | EthercatCanFdMsg8 => 64 | EthercatCanFdMsg8x10 => 80
  | EthercatCanFdMsg3 => 24 | EthercatGloveSlots => 50
  end.

(** [motor_num] and [can_ide] are there in the structs for classic CAN only. *)
Record Packet := mkPacket {
  motor_num : Z;
  can_ide : Z;
  motor : list MotorPackMsg;
  reserved : list Z
}.

Definition zero_pack : MotorPackMsg := make_pack 0 0 [].

(** A struct whose bytes are all zero. *)
Definition zero_packet (T : PacketT) : Packet :=
  mkPacket 0 0 (replicate (motor_slots T) zero_pack) (replicate (reserved_len (traits T)) 0).

(** [sizeof(PacketT)]; a [MotorPackMsg] takes 14 bytes. *)
Definition header_len (T : PacketT) : nat := if kHasMotorNum (traits T) then 2 else 0.
Definition kPackSize : nat := 14.
Definition sizeof (T : PacketT) : Z :=
  Z.of_nat (header_len T + kPackSize * motor_slots T + reserved_len (traits T)).

Definition kEthercatMaxMessageSize : Z := sizeof EthercatCanFdMsg8x10.

(** The memory image of the structs, on a little-endian host. *)
Definition pack_bytes (m : MotorPackMsg) : list Z :=
  [u8 (id m); u8 (id m ≫ 8); u8 (id m ≫ 16); u8 (id m ≫ 24); frame_flags m; len m] ++ data m.
Definition packet_bytes (T : PacketT) (p : Packet) : list Z :=
  (if kHasMotorNum (traits T) then [motor_num p; can_ide p] else []) ++
  flat_map pack_bytes (motor p) ++ reserved p.

(** [src->motor[slot]] for a struct that starts at [input]. *)
Definition read_pack (input : list Z) (offset : nat) : MotorPackMsg :=
  let b i := byte_at input (offset + i) in
  mkPack (le32 (b 0%nat) (b 1%nat) (b 2%nat) (b 3%nat)) (b 4%nat) (b 5%nat) (map b (seq 6 8)).
Definition read_slot (T : PacketT) (input : list Z) (slot : nat) : MotorPackMsg :=
  read_pack input (header_len T + kPackSize * slot).

(** ** Slave configuration *)
Module SlaveFormat.
Inductive t :=
| None | ClassicCan2Bus | ClassicCan8Bus | CanFd8Bus | CanFd8Bus10Slots | CanFd3Bus | Glove.
End SlaveFormat.

Record SlaveConfig := mkConfig {
  format : SlaveFormat.t;
  bus_count : nat;
  motors_per_bus : nat;
  message_size : Z
}.

Definition ClassifyOutputPdoSize (output_pdo_size : Z) : SlaveConfig :=
  let config f T := mkConfig f (kBusCount (traits T)) (kMotorsPerBus (traits T)) output_pdo_size in
  if output_pdo_size =? sizeof EthercatClassicCanMsg2
  then config SlaveFormat.ClassicCan2Bus EthercatClassicCanMsg2
  else if output_pdo_size =? sizeof EthercatClassicCanMsg8
  then config SlaveFormat.ClassicCan8Bus EthercatClassicCanMsg8
  else if output_pdo_size =? sizeof EthercatCanFdMsg8
  then config SlaveFormat.CanFd8Bus EthercatCanFdMsg8
  else if output_pdo_size =? sizeof EthercatCanFdMsg8x10
  then config SlaveFormat.CanFd8Bus10Slots EthercatCanFdMsg8x10
  else if output_pdo_size =? sizeof EthercatCanFdMsg3
  then config SlaveFormat.CanFd3Bus EthercatCanFdMsg3
  else if output_pdo_size =? sizeof EthercatGloveSlots
  then config SlaveFormat.Glove EthercatGloveSlots
  else mkConfig SlaveFormat.None 0 0 output_pdo_size.

Definition HasSupportedPdo (config : SlaveConfig) : bool :=
  match format config with SlaveFormat.None => false | _ => negb (bus_count config =? 0)%nat end.

Definition GetBusSizes (slave_configs : list SlaveConfig) : list nat := map bus_count slave_configs.

(** The struct that the [switch] over the formats uses. *)
Definition format_packet (f : SlaveFormat.t) : option PacketT :=
  match f with
  | SlaveFormat.ClassicCan2Bus => Some EthercatClassicCanMsg2
  | SlaveFormat.ClassicCan8Bus => Some EthercatClassicCanMsg8
  | SlaveFormat.CanFd8Bus => Some EthercatCanFdMsg8
  | SlaveFormat.CanFd8Bus10Slots => Some EthercatCanFdMsg8x10
  | SlaveFormat.CanFd3Bus => Some EthercatCanFdMsg3
  | SlaveFormat.Glove => Some EthercatGloveSlots
  | SlaveFormat.None => None
  end.

(** ** Inserting a message *)

Definition kSystemCommandId : Z := 2047.

(** The first slot in [slot, slot + n) that satisfies [f]. *)
Fixpoint find_slot (f : MotorPackMsg -> bool) (slots : list MotorPackMsg) (slot n : nat)
    : option nat :=
  match n with
  | O => None
  | S n => if f (nth slot slots zero_pack) then Some slot else find_slot f slots (S slot) n
  end.

(** A slot that holds a control command for the motor the message is for. *)
Definition replaceable (message : MotorPackMsg) (target : MotorPackMsg) : bool :=
  negb (len target =? 0) && (id target =? id message) && (byte_at (data target) 0 ≫ 5 <=? 3).
Definition free (target : MotorPackMsg) : bool := len target =? 0.

(** What the slot holds afterwards. *)
Definition stored (message : MotorPackMsg) : MotorPackMsg :=
  mkPack (id message) (SanitizeCanFrameFlags (frame_flags message)) (len message) (data message).

(** [None] is the result [false]. *)
Definition InsertMessageIntoPacket (T : PacketT) (packet : Packet) (bus_idx : Z)
    (message : MotorPackMsg) : option Packet :=
  if Z.of_nat (kBusCount (traits T)) <=? bus_idx then None
  else
    let per := kMotorsPerBus (traits T) in
    let start := (Z.to_nat bus_idx * per)%nat in
    let write slot num :=
      Some (mkPacket num (can_ide packet) (<[slot := stored message]> (motor packet))
              (reserved packet)) in
    match (if id message =? kSystemCommandId then None
           else find_slot (replaceable message) (motor packet) start per) with
    | Some slot => write slot (motor_num packet)
    | None =>
        match find_slot free (motor packet) start per with
        | Some slot =>
            write slot (if kHasMotorNum (traits T) then u8 (motor_num packet + 1)
                        else motor_num packet)
        | None => None
        end
    end.

(** [storage] is the buffer's first [payload_size] bytes, as the struct of that
    size. *)
Record EthercatOutputBuffer := mkBuffer {
  storage : Packet;
  payload_size : Z;
  active : bool
}.
Abbreviation EthercatOutputFrame := (list EthercatOutputBuffer).

Definition empty_buffer : EthercatOutputBuffer := mkBuffer (mkPacket 0 0 [] []) 0 false.
Definition buffer_empty (b : EthercatOutputBuffer) : bool := negb (active b).
Definition buffer_size (b : EthercatOutputBuffer) : Z := if active b then payload_size b else 0.
Definition reset (T : PacketT) (size : Z) (b : EthercatOutputBuffer) : EthercatOutputBuffer :=
  if size =? 0 then mkBuffer (storage b) 0 false else mkBuffer (zero_packet T) size true.

(** The frame as it is left, and whether the message is in it. *)
Definition TryInsertMessageIntoFrame (T : PacketT) (frame : EthercatOutputFrame) (slave : nat)
    (bus_idx : Z) (message : MotorPackMsg) (message_size : Z) : EthercatOutputFrame * bool :=
  match frame !! slave with
  | None => (frame, false)
  | Some buffer =>
      if negb (message_size =? sizeof T) then (frame, false)
      else if kEthercatMaxMessageSize <? message_size then (frame, false)
      else
        let buffer :=
          if buffer_empty buffer || negb (buffer_size buffer =? message_size)
          then reset T message_size buffer else buffer in
        match InsertMessageIntoPacket T (storage buffer) bus_idx message with
        | Some packet =>
            (<[slave := mkBuffer packet (payload_size buffer) (active buffer)]> frame, true)
        | None => (<[slave := buffer]> frame, false)
        end
  end.

(** The lambda [try_insert] of [PackMessagesIntoQueue]. *)
Definition try_insert (config : SlaveConfig) (slave : nat) (bus_idx : Z) (message : MotorPackMsg)
    (frame : EthercatOutputFrame) : EthercatOutputFrame * bool :=
  match format_packet (format config) with
  | Some T => TryInsertMessageIntoFrame T frame slave bus_idx message (message_size config)
  | None => (frame, false)
  end.

(** ** Decoding *)

Definition ForwardMessages (motors : list MotorPackMsg) (slave bus : nat) : MotorMessages :=
  omap (fun m => if len m =? 0 then None
                 else Some (mkMsg (i32 ((Z.of_nat slave ≪ 16) .| u16 (Z.of_nat bus))) (stored m)))
       motors.

Definition DecodePacketInputs (T : PacketT) (input : list Z) (bus_count slave : nat)
    : MotorMessages :=
  let per := kMotorsPerBus (traits T) in
  flat_map (fun bus => ForwardMessages (map (read_slot T input) (seq (bus * per) per)) slave bus)
           (seq 0 (bus_count `min` kBusCount (traits T))).

(** An input is [None] where the pointer is null. *)
Definition DecodeSlave (slave_configs : list SlaveConfig) (inputs : list (option (list Z)))
    (slave : nat) : MotorMessages :=
  match slave_configs !! slave, inputs !! slave with
  | Some config, Some (Some input) =>
      if (bus_count config =? 0)%nat then []
      else match format_packet (format config) with
           | Some T => DecodePacketInputs T input (bus_count config) slave
           | None => []
           end
  | _, _ => []
  end.

Definition DecodeInputs (slave_configs : list SlaveConfig) (inputs : list (option (list Z)))
    (slave_count : nat) : MotorMessages :=
  flat_map (DecodeSlave slave_configs inputs) (seq 0 slave_count).

(** ** The process image *)

(** The [size()] bytes at [data()], for a slave of the given configuration. *)
Definition buffer_data (config : SlaveConfig) (b : EthercatOutputBuffer) : list Z :=
  match format_packet (format config) with
  | Some T => packet_bytes T (storage b)
  | None => []
  end.

(** [EthercatHandle::WriteOutputs]: the output area of each slave, [Obytes] long,
    where the master has given it one. *)
Definition WriteOutputs (slave_configs : list SlaveConfig) (outputs : list (option Z))
    (packets : EthercatOutputFrame) : list (option (list Z)) :=
  imap (fun slave dest =>
    (fun obytes =>
       match packets !! slave, slave_configs !! slave with
       | Some buffer, Some config =>
           if negb (buffer_empty buffer) then
             let bytes := Z.to_nat (Z.min (buffer_size buffer) obytes) in
             take bytes (buffer_data config buffer) ++ replicate (Z.to_nat obytes - bytes) 0
           else replicate (Z.to_nat obytes) 0
       | _, _ => replicate (Z.to_nat obytes) 0
       end) <$> dest) outputs.

(** ** The slots of one bus *)

Definition slots_of (T : PacketT) (p : Packet) (bus : nat) : list MotorPackMsg :=
  take (kMotorsPerBus (traits T)) (drop (bus * kMotorsPerBus (traits T)) (motor p)).

(** What [InsertMessageIntoPacket] does to the slots of the message's bus. *)
Definition put_slots (message : MotorPackMsg) (slots : list MotorPackMsg)
    : option (list MotorPackMsg) :=
  match (if id message =? kSystemCommandId then None
         else find_slot (replaceable message) slots 0 (length slots)) with
  | Some i => Some (<[i := stored message]> slots)
  | None => (fun i => <[i := stored message]> slots) <$> find_slot free slots 0 (length slots)
  end.

(** A [PacketT] object. *)
Definition packet_wf (T : PacketT) (p : Packet) : Prop :=
  length (motor p) = motor_slots T /\ length (reserved p) = reserved_len (traits T) /\
  Forall pack_wf (motor p).

Lemma slots_total T : motor_slots T = (kBusCount (traits T) * kMotorsPerBus (traits T))%nat.
Proof. by destruct T. Qed.

Lemma zero_pack_wf : pack_wf zero_pack.
Proof.
  unfold zero_pack, pack_wf, make_pack. cbn. split_and!; [lia|lia|unfold byte_ok; lia..|done|].
  repeat (apply list.Forall_cons; split; [unfold byte_ok; lia|]). done.
Qed.

Lemma stored_wf m : pack_wf m -> pack_wf (stored m).
Proof. intros (? & _ & ? & ? & ?). split; [done|]. split; [apply u8_ok|done]. Qed.

Lemma zero_packet_wf T : packet_wf T (zero_packet T).
Proof.
  split_and!; cbn; [by rewrite length_replicate..|]. apply Forall_replicate, zero_pack_wf.
Qed.

Lemma bus_fits T bus :
  (bus < kBusCount (traits T))%nat ->
  (bus * kMotorsPerBus (traits T) + kMotorsPerBus (traits T) <= motor_slots T)%nat.
Proof. intros H. rewrite slots_total. nia. Qed.

Lemma slots_of_length T p bus :
  packet_wf T p -> (bus < kBusCount (traits T))%nat ->
  length (slots_of T p bus) = kMotorsPerBus (traits T).
Proof.
  intros [Hm _] Hb. pose proof (bus_fits _ _ Hb). unfold slots_of.
  rewrite length_take, length_drop. lia.
Qed.

Lemma slots_of_zero T bus :
  (bus < kBusCount (traits T))%nat ->
  slots_of T (zero_packet T) bus = replicate (kMotorsPerBus (traits T)) zero_pack.
Proof.
  intros Hb. pose proof (bus_fits _ _ Hb). unfold slots_of, zero_packet. cbn [motor].
  rewrite drop_replicate, take_replicate. f_equal. lia.
Qed.

Lemma find_slot_range f slots n : forall s i,
  find_slot f slots s n = Some i -> (s <= i < s + n)%nat /\ f (nth i slots zero_pack) = true.
Proof.
  induction n as [|n IH]; intros s i H; cbn in H; [done|].
  destruct (f (nth s slots zero_pack)) eqn:E.
  - injection H as <-. split; [lia|done].
  - apply IH in H as [? ?]. split; [lia|done].
Qed.

(** A search in a window is a search in the list of the window's slots. *)
Lemma find_slot_window f slots start : forall n i,
  (start + i + n <= length slots)%nat ->
  find_slot f slots (start + i) n =
  Nat.add start <$> find_slot f (take (i + n) (drop start slots)) i n.
Proof.
  induction n as [|n IH]; intros i Hlen; cbn; [done|].
  assert (nth i (take (i + S n) (drop start slots)) zero_pack = nth (start + i) slots zero_pack) as ->.
  { rewrite !nth_lookup, lookup_take_lt by lia. by rewrite lookup_drop. }
  destruct (f _); [done|].
  replace (S (start + i)) with (start + S i)%nat by lia.
  replace (i + S n)%nat with (S i + n)%nat by lia. apply IH. lia.
Qed.

Lemma find_slot_slots f T p bus :
  packet_wf T p -> (bus < kBusCount (traits T))%nat ->
  find_slot f (motor p) (bus * kMotorsPerBus (traits T)) (kMotorsPerBus (traits T)) =
  Nat.add (bus * kMotorsPerBus (traits T)) <$>
    find_slot f (slots_of T p bus) 0 (length (slots_of T p bus)).
Proof.
  intros Hp Hb. rewrite slots_of_length by done. pose proof (bus_fits _ _ Hb). destruct Hp as [Hm _].
  rewrite <- (Nat.add_0_r (bus * _)) at 1.
  by rewrite find_slot_window by lia.
Qed.

(** Writing slot [i] of bus [bus]. *)
Lemma slots_of_write T p bus i x num :
  (i < kMotorsPerBus (traits T))%nat ->
  slots_of T (mkPacket num (can_ide p) (<[(bus * kMotorsPerBus (traits T) + i)%nat := x]> (motor p))
                (reserved p)) bus = <[i := x]> (slots_of T p bus).
Proof.
  intros Hi. unfold slots_of. cbn [motor].
  rewrite drop_insert_ge by lia. rewrite take_insert_lt by lia. do 2 f_equal. lia.
Qed.

Lemma slots_of_write_other T p bus bus' i x num :
  (i < kMotorsPerBus (traits T))%nat -> bus' <> bus ->
  slots_of T (mkPacket num (can_ide p) (<[(bus * kMotorsPerBus (traits T) + i)%nat := x]> (motor p))
                (reserved p)) bus' = slots_of T p bus'.
Proof.
  intros Hi Hne. unfold slots_of. cbn [motor].
  destruct (Nat.lt_ge_cases bus' bus).
  - rewrite !take_drop_commute. by rewrite take_insert_ge by nia.
  - rewrite drop_insert_lt by nia. done.
Qed.

(** ** [InsertMessageIntoPacket], bus by bus *)
Lemma insert_slots T p bus message :
  packet_wf T p -> pack_wf message -> (bus < kBusCount (traits T))%nat ->
  match InsertMessageIntoPacket T p (Z.of_nat bus) message with
  | Some p' =>
      put_slots message (slots_of T p bus) = Some (slots_of T p' bus) /\ packet_wf T p' /\
      forall bus', bus' <> bus -> slots_of T p' bus' = slots_of T p bus'
  | None => put_slots message (slots_of T p bus) = None
  end.
Proof.
  intros Hp Hmsg Hb. unfold InsertMessageIntoPacket. rewrite Nat2Z.id.
  replace (Z.of_nat (kBusCount (traits T)) <=? Z.of_nat bus) with false by lia. cbv zeta.
  rewrite !find_slot_slots by done. unfold put_slots.
  assert (forall f i, find_slot f (slots_of T p bus) 0 (length (slots_of T p bus)) = Some i ->
            (i < kMotorsPerBus (traits T))%nat) as Hr.
  { intros f i [? _]%find_slot_range. rewrite slots_of_length in * by done. lia. }
  assert (forall i num, (i < kMotorsPerBus (traits T))%nat ->
    let p' := mkPacket num (can_ide p)
                (<[(bus * kMotorsPerBus (traits T) + i)%nat := stored message]> (motor p)) (reserved p) in
    Some (<[i := stored message]> (slots_of T p bus)) = Some (slots_of T p' bus) /\ packet_wf T p' /\
    forall bus', bus' <> bus -> slots_of T p' bus' = slots_of T p bus') as Hw.
  { intros i num Hi. split_and!; [by rewrite slots_of_write| |].
    { destruct Hp as (? & ? & ?). split_and!; cbn; [by rewrite length_insert|done|].
      by apply Forall_insert; [|apply stored_wf]. }
    intros. by apply slots_of_write_other. }
  destruct (id message =? kSystemCommandId).
  2: destruct (find_slot (replaceable message) _ _ _) as [i|] eqn:E1; cbn [fmap option_fmap option_map].
  2: { apply Hw. by eapply Hr. }
  all: destruct (find_slot free _ _ _) as [i|] eqn:E2; cbn [fmap option_fmap option_map]; [|done];
       apply Hw; by eapply Hr.
Qed.

(** ** The memory image *)

Lemma pack_bytes_length m : length (data m) = 8%nat -> length (pack_bytes m) = kPackSize.
Proof. intros H. unfold pack_bytes. rewrite length_app, H. done. Qed.

Lemma read_pack_skip l1 l2 o : read_pack (l1 ++ l2) (length l1 + o) = read_pack l2 o.
Proof.
  unfold read_pack. cbn zeta. rewrite <- !Nat.add_assoc, !byte_at_skip. f_equal.
  apply map_ext. intros i. by rewrite <- Nat.add_assoc, byte_at_skip.
Qed.

Lemma read_pack_bytes m rest : pack_wf m -> read_pack (pack_bytes m ++ rest) 0 = m.
Proof.
  intros (Hi & Hf & Hl & H8 & _). destruct m as [i f l d]. cbn in *.
  do 8 (destruct d as [|? d]; [done|]). destruct d; [|done].
  unfold read_pack, pack_bytes, byte_at. cbn. f_equal. by apply le32_split.
Qed.

(** Slot [i] of an array of structs. *)
Lemma read_pack_nth ms i rest :
  Forall pack_wf ms -> (i < length ms)%nat ->
  read_pack (flat_map pack_bytes ms ++ rest) (kPackSize * i) = nth i ms zero_pack.
Proof.
  intros H. revert i. induction H as [|m ms Hm Hms IH]; intros i Hi; cbn in Hi; [lia|].
  cbn [flat_map]. rewrite <- app_assoc. destruct i as [|i].
  - rewrite Nat.mul_0_r. by apply read_pack_bytes.
  - replace (kPackSize * S i)%nat with (length (pack_bytes m) + kPackSize * i)%nat
      by (rewrite pack_bytes_length by apply Hm; lia).
    rewrite read_pack_skip. apply IH. lia.
Qed.

Lemma read_slot_bytes T p i :
  packet_wf T p -> (i < motor_slots T)%nat ->
  read_slot T (packet_bytes T p) i = nth i (motor p) zero_pack.
Proof.
  intros (Hm & Hr & Hp) Hi. unfold read_slot, packet_bytes, header_len.
  destruct (kHasMotorNum (traits T)).
  - change [motor_num p; can_ide p] with ([motor_num p; can_ide p] ++ []).
    rewrite <- app_assoc. change 2%nat with (length [motor_num p; can_ide p]).
    rewrite read_pack_skip. apply read_pack_nth; [done|lia].
  - cbn [app]. apply read_pack_nth; [done|lia].
Qed.

(** [sizeof] is the size of the image. *)
Lemma packet_bytes_length T p :
  packet_wf T p -> Z.of_nat (length (packet_bytes T p)) = sizeof T.
Proof.
  intros (Hm & Hr & Hp). unfold packet_bytes, sizeof. rewrite !length_app, Hr.
  assert (length (flat_map pack_bytes (motor p)) = kPackSize * motor_slots T)%nat as ->.
  { rewrite <- Hm. clear Hm. induction Hp as [|m ms Hm _ IH]; [done|].
    cbn [flat_map length]. rewrite length_app, pack_bytes_length, IH by apply Hm. lia. }
  unfold header_len. destruct (kHasMotorNum (traits T)); cbn [length]; lia.
Qed.

(** Reading the image of a struct back, one bus at a time. *)
Lemma DecodePacketInputs_bytes T p n slave :
  packet_wf T p -> (n <= kBusCount (traits T))%nat ->
  DecodePacketInputs T (packet_bytes T p) n slave =
  flat_map (fun bus => ForwardMessages (slots_of T p bus) slave bus) (seq 0 n).
Proof.
  intros Hwf Hn. unfold DecodePacketInputs. rewrite Nat.min_l by done.
  apply flat_map_ext_in. intros bus [_ Hb]%in_seq. f_equal.
  apply list_eq. intros i. unfold slots_of.
  pose proof (bus_fits T bus ltac:(lia)).
  destruct (Nat.lt_ge_cases i (kMotorsPerBus (traits T))) as [Hi|Hi].
  - rewrite list_lookup_fmap, lookup_seq_lt, lookup_take_lt, lookup_drop by lia. cbn [fmap option_fmap option_map].
    rewrite read_slot_bytes by (done || lia). rewrite nth_lookup.
    destruct Hwf as [Hm _]. destruct (lookup_lt_is_Some_2 (motor p) (bus * kMotorsPerBus (traits T) + i)) as [x Hx].
    { lia. } by rewrite Hx.
  - rewrite (lookup_ge_None_2 (map _ _)) by (rewrite length_map, length_seq; lia).
    by rewrite lookup_take_ge by lia.
Qed.

(** ** Classified slaves *)

Definition classified (c : SlaveConfig) : Prop := exists n, c = ClassifyOutputPdoSize n.

(** A classified slave with buses has the struct that its size names. *)
Lemma classified_format c :
  classified c -> bus_count c <> 0%nat ->
  exists T, format_packet (format c) = Some T /\ bus_count c = kBusCount (traits T) /\
            motors_per_bus c = kMotorsPerBus (traits T) /\ message_size c = sizeof T.
Proof.
  intros [n ->]. unfold ClassifyOutputPdoSize.
  repeat match goal with |- context [if ?n =? sizeof ?T then _ else _] =>
    destruct (Z.eqb_spec n (sizeof T)) as [->|]; [intros _; by exists T|] end.
  done.
Qed.

Lemma sizeof_le T : sizeof T <= kEthercatMaxMessageSize.
Proof. by destruct T. Qed.

(** Sizes identify the structs. *)
Lemma sizeof_inj T T' : sizeof T = sizeof T' -> T = T'.
Proof. by destruct T, T'. Qed.

Lemma HasSupportedPdo_spec n :
  HasSupportedPdo (ClassifyOutputPdoSize n) = true <-> exists T, n = sizeof T.
Proof.
  unfold ClassifyOutputPdoSize. split.
  - repeat match goal with |- context [if ?n =? sizeof ?T then _ else _] =>
      destruct (Z.eqb_spec n (sizeof T)) as [->|]; [intros _; by exists T|] end. done.
  - intros [T ->]. by destruct T.
Qed.

(** ** What a slave reads *)

Lemma byte_at_zeros n i : byte_at (replicate n 0) i = 0.
Proof.
  unfold byte_at. destruct (Nat.lt_ge_cases i n).
  - by rewrite nth_lookup, lookup_replicate_2.
  - apply nth_overflow. by rewrite length_replicate.
Qed.

(** An output area of zeros carries no message. *)
Lemma DecodePacketInputs_zeros T n k slave : DecodePacketInputs T (replicate n 0) k slave = [].
Proof.
  unfold DecodePacketInputs. generalize (seq 0 (k `min` kBusCount (traits T))).
  induction l as [|bus l IH]; [done|]. cbn [flat_map]. rewrite IH, app_nil_r.
  unfold ForwardMessages. generalize (seq (bus * kMotorsPerBus (traits T)) (kMotorsPerBus (traits T))).
  induction l0 as [|i l0 IH0]; [done|]. cbn [map omap list_omap].
  unfold read_slot at 1, read_pack. cbn [len]. by rewrite byte_at_zeros.
Qed.

Lemma ForwardMessages_zeros n slave bus : ForwardMessages (replicate n zero_pack) slave bus = [].
Proof. unfold ForwardMessages. by induction n. Qed.
