(* ===== verification/EthercatQueue.v ===== *)
(** * EthercatQueue: the cyclic send queue of an EtherCAT master

    The send side of plugins/adapter/utils/ethercatBase/ethercat_base_handle.cc.
    Batches wait in [pending_batches] until the next cycle packs them into frames;
    each cycle sends one frame.  A number, the generation of a bus, tells the frames
    of one synchronised batch from those before and after it.

    The abstract counterpart is a set of [Lanes], one per bus: groups of slots in
    the order they will be sent, the last of which are open to further messages.  A
    synchronised batch seals the lanes of its buses before and after itself. *)
From stdpp Require Import base list numbers option gmap functions.
From Stdlib Require Import ZArith Lia.
From S2P Require Import Prelude Types EthercatBase.
#[local] Open Scope Z_scope.
#[local] Open Scope cint_scope.

(** ** State *)

Record PendingBatch := mkBatch { messages : MotorMessages; synchronized : bool }.

Record QueuedFrame := mkQueued { frame : EthercatOutputFrame; qbus_generations : gmap Z Z }.

(** The fields of [EthercatBaseHandle] under [send_mutex_], with the configuration. *)
Record Handle := mkHandle {
  slave_configs : list SlaveConfig;
  pending_batches : list PendingBatch;
  send_frames : list QueuedFrame;
  bus_generations : gmap Z Z;
  queued_frame_count : Z
}.

Definition kSendQueueHighLoadThreshold : Z := 3.

Definition with_pending (pending : list PendingBatch) (h : Handle) : Handle :=
  mkHandle (slave_configs h) pending (send_frames h) (bus_generations h) (queued_frame_count h).
Definition with_frames (frames : list QueuedFrame) (count : Z) (h : Handle) : Handle :=
  mkHandle (slave_configs h) (pending_batches h) frames (bus_generations h) count.
Definition with_generations (generations : gmap Z Z) (h : Handle) : Handle :=
  mkHandle (slave_configs h) (pending_batches h) (send_frames h) generations (queued_frame_count h).

(** ** Queueing *)

(** [pending_batches_.back().messages] grows by [ms]. *)
Fixpoint extend_back (ms : MotorMessages) (pending : list PendingBatch) : list PendingBatch :=
  match pending with
  | [] => []
  | [b] => [mkBatch (messages b ++ ms) (synchronized b)]
  | b :: pending => b :: extend_back ms pending
  end.

Definition back_asynchronous (pending : list PendingBatch) : bool :=
  match list.last pending with Some b => negb (synchronized b) | None => false end.

Definition QueueMessage (message : MotorMessage) (h : Handle) : Handle :=
  let pending := if back_asynchronous (pending_batches h) then pending_batches h
                 else pending_batches h ++ [mkBatch [] false] in
  with_pending (extend_back [message] pending) h.

Definition AppendPendingMessagesLocked (ms : MotorMessages) (sync : bool) (h : Handle) : Handle :=
  if negb sync && back_asynchronous (pending_batches h)
  then with_pending (extend_back ms (pending_batches h)) h
  else with_pending (pending_batches h ++ [mkBatch ms sync]) h.

Definition QueueMessages (ms : MotorMessages) (h : Handle) : Handle :=
  match ms with [] => h | _ => AppendPendingMessagesLocked ms false h end.

Definition QueueSynchronizedMessages (ms : MotorMessages) (h : Handle) : Handle :=
  match ms with [] => h | _ => AppendPendingMessagesLocked ms true h end.

(** ** Packing *)

(** The checks on [bus_idx], the same in [PackMessagesIntoQueue] and
    [CollectPackableBuses]: the slave, the bus on it and the slave's configuration.
    The callers pass the length of [slave_configs] as [slave_count], so that the
    lookup finds the slave. *)
Definition target (configs : list SlaveConfig) (slave_count : nat) (encoded : Z)
    : option (nat * Z * SlaveConfig) :=
  let slave_idx := u16 ((encoded ≫ 16) + 1) in
  let bus_idx := u16 (encoded .& 65535) in
  if (slave_idx =? 0) || (Z.of_nat slave_count <? slave_idx) then None
  else
    match configs !! Z.to_nat (slave_idx - 1) with
    | None => None
    | Some config =>
        if (bus_count config =? 0)%nat then None
        else if Z.of_nat (bus_count config) <=? bus_idx then None
        else if (motors_per_bus config =? 0)%nat then None
        else Some (Z.to_nat (slave_idx - 1), bus_idx, config)
    end.

Definition emplace (encoded generation : Z) (generations : gmap Z Z) : gmap Z Z :=
  match generations !! encoded with
  | Some _ => generations
  | None => <[encoded := generation]> generations
  end.

(** The search of the frames already queued for one that takes the message. *)
Fixpoint insert_queued (config : SlaveConfig) (slave : nat) (bus_idx encoded generation : Z)
    (message : MotorPackMsg) (queue : list QueuedFrame) : list QueuedFrame * bool :=
  match queue with
  | [] => ([], false)
  | q :: queue =>
      let next q :=
        let (queue, inserted) :=
          insert_queued config slave bus_idx encoded generation message queue in
        (q :: queue, inserted) in
      let try_here :=
        match try_insert config slave bus_idx message (frame q) with
        | (f, true) => (mkQueued f (emplace encoded generation (qbus_generations q)) :: queue, true)
        | (f, false) => next (mkQueued f (qbus_generations q))
        end in
      match qbus_generations q !! encoded with
      | Some found => if found =? generation then try_here else next q
      | None => try_here
      end
  end.

(** One round of the loop of [PackMessagesIntoQueue]. *)
Definition PackMessage (configs : list SlaveConfig) (slave_count : nat)
    (generations : gmap Z Z) (queue : list QueuedFrame) (msg : MotorMessage) : list QueuedFrame :=
  match target configs slave_count (Types.bus_idx msg) with
  | None => queue
  | Some (slave, bus, config) =>
      let generation := default 0 (generations !! Types.bus_idx msg) in
      match insert_queued config slave bus (Types.bus_idx msg) generation (mdata msg) queue with
      | (queue, true) => queue
      | (queue, false) =>
          match try_insert config slave bus (mdata msg) (replicate slave_count empty_buffer) with
          | (f, true) => queue ++ [mkQueued f {[Types.bus_idx msg := generation]}]
          | (_, false) => queue
          end
      end
  end.

Definition PackMessagesIntoQueue (configs : list SlaveConfig) (ms : MotorMessages)
    (slave_count : nat) (send_queue : list QueuedFrame) (generations : gmap Z Z)
    : list QueuedFrame :=
  if (slave_count =? 0)%nat then send_queue
  else foldl (PackMessage configs slave_count generations) send_queue ms.

Definition PackMessages (configs : list SlaveConfig) (ms : MotorMessages) (slave_count : nat)
    : list EthercatOutputFrame :=
  map frame (PackMessagesIntoQueue configs ms slave_count [] ∅).

Definition CollectPackableBuses (configs : list SlaveConfig) (ms : MotorMessages)
    (slave_count : nat) : gset Z :=
  list_to_set (filter (fun b => is_Some (target configs slave_count b)) (map Types.bus_idx ms)).

(** [++bus_generations_[bus]] for each of the buses. *)
Definition bump (buses : gset Z) (generations : gmap Z Z) : gmap Z Z :=
  foldr (fun bus g => <[bus := u64 (default 0 (g !! bus) + 1)]> g) generations (elements buses).

Definition PackBatchIntoSegmentsLocked (slave_count : nat) (h : Handle) (batch : PendingBatch)
    : Handle :=
  match messages batch with
  | [] => h
  | _ =>
      let packable_buses := CollectPackableBuses (slave_configs h) (messages batch) slave_count in
      let h := if synchronized batch
               then with_generations (bump packable_buses (bus_generations h)) h else h in
      let frames := PackMessagesIntoQueue (slave_configs h) (messages batch) slave_count
                      (send_frames h) (bus_generations h) in
      let count := queued_frame_count h +
                   (Z.of_nat (length frames) - Z.of_nat (length (send_frames h))) in
      let h := with_frames frames count h in
      if synchronized batch
      then with_generations (bump packable_buses (bus_generations h)) h else h
  end.

Definition FlushPendingMessagesLocked (slave_count : nat) (h : Handle) : Handle :=
  match pending_batches h with
  | [] => h
  | _ =>
      let h := with_pending [] (foldl (PackBatchIntoSegmentsLocked slave_count) h (pending_batches h)) in
      if kSendQueueHighLoadThreshold <? queued_frame_count h
      then with_frames (match list.last (send_frames h) with Some q => [q] | None => [] end) 1 h
      else h
  end.

(** [None] is the result [false]. *)
Definition PrepareNextFrame (slave_count : nat) (h : Handle)
    : option EthercatOutputFrame * Handle :=
  let h := FlushPendingMessagesLocked slave_count h in
  match send_frames h with
  | [] => (None, h)
  | q :: frames => (Some (frame q), with_frames frames (queued_frame_count h - 1) h)
  end.

(** ** Lanes *)

Abbreviation Group := (list MotorPackMsg).

(** Groups no message may join any more, then the groups that still take some. *)
Record Lane := mkLane { closed : list Group; open : list Group }.
Definition groups (l : Lane) : list Group := closed l ++ open l.

Definition seal (l : Lane) : Lane := mkLane (groups l) [].

(** The first group that takes the message. *)
Fixpoint join (m : MotorPackMsg) (gs : list Group) : option (list Group) :=
  match gs with
  | [] => None
  | g :: gs =>
      match put_slots m g with
      | Some g => Some (g :: gs)
      | None => cons g <$> join m gs
      end
  end.

(** A group that holds one message. *)
Definition new_group (capacity : nat) (m : MotorPackMsg) : Group :=
  <[0%nat := stored m]> (replicate capacity zero_pack).

Definition lane_put (capacity : nat) (m : MotorPackMsg) (l : Lane) : Lane :=
  match join m (open l) with
  | Some gs => mkLane (closed l) gs
  | None => mkLane (closed l) (open l ++ [new_group capacity m])
  end.

Definition lane_drop (n : nat) (l : Lane) : Lane :=
  mkLane (drop n (closed l)) (drop (n - length (closed l)) (open l)).

(** [depth]: the length of the longest lane. *)
Record Lanes := mkLanes { waiting : list PendingBatch; lanes : Z -> Lane; depth : nat }.

Section Spec.
Context (configs : list SlaveConfig).

Definition route (b : Z) : option (nat * Z * SlaveConfig) := target configs (length configs) b.

Definition lanes_put (L : Lanes) (msg : MotorMessage) : Lanes :=
  match route (Types.bus_idx msg) with
  | None => L
  | Some (_, _, config) =>
      let l := lane_put (motors_per_bus config) (mdata msg) (lanes L (Types.bus_idx msg)) in
      mkLanes (waiting L) (<[Types.bus_idx msg := l]> (lanes L)) (depth L `max` length (groups l))
  end.

Definition lanes_seal (buses : gset Z) (L : Lanes) : Lanes :=
  mkLanes (waiting L) (fun b => if decide (b ∈ buses) then seal (lanes L b) else lanes L b) (depth L).

Definition lanes_batch (L : Lanes) (batch : PendingBatch) : Lanes :=
  let buses := CollectPackableBuses configs (messages batch) (length configs) in
  if synchronized batch
  then lanes_seal buses (foldl lanes_put (lanes_seal buses L) (messages batch))
  else foldl lanes_put L (messages batch).

Definition lanes_drop (n : nat) (L : Lanes) : Lanes :=
  mkLanes (waiting L) (fun b => lane_drop n (lanes L b)) (depth L - n).

(** A backlog of more than three groups is cut to the last one. *)
Definition lanes_flush (L : Lanes) : Lanes :=
  let L := foldl lanes_batch (mkLanes [] (lanes L) (depth L)) (waiting L) in
  if (3 <? depth L)%nat then lanes_drop (depth L - 1) L else L.

(** The messages of the group that goes out on each bus. *)
Definition lanes_output (L : Lanes) : MotorMessages :=
  flat_map (fun slave =>
    flat_map (fun bus =>
      match head (groups (lanes L (Z.of_nat slave ≪ 16 .| Z.of_nat bus))) with
      | Some g => ForwardMessages g slave bus
      | None => []
      end) (seq 0 (default 0%nat (bus_count <$> configs !! slave))))
    (seq 0 (length configs)).

(** Each submission waits as a batch of its own. *)
Definition lanes_submit (ms : MotorMessages) (sync : bool) (L : Lanes) : Lanes :=
  match ms with
  | [] => L
  | _ => mkLanes (waiting L ++ [mkBatch ms sync]) (lanes L) (depth L)
  end.

Definition lanes_next (L : Lanes) : option MotorMessages * Lanes :=
  let L := lanes_flush L in
  if (depth L =? 0)%nat then (None, L) else (Some (lanes_output L), lanes_drop 1 L).

(** ** Runs *)

Inductive QueueOp :=
| OpMessage (m : MotorMessage)
| OpMessages (ms : MotorMessages)
| OpSynchronized (ms : MotorMessages)
| OpCycle.

(** Every slave's output area is there and has the size it was classified by. *)
Definition output_sizes : list (option Z) := map (fun c => Some (message_size c)) configs.

(** What the slaves read from the image of a frame. *)
Definition wire (f : EthercatOutputFrame) : MotorMessages :=
  DecodeInputs configs (WriteOutputs configs output_sizes f) (length configs).

(** What each cycle puts on the wire. *)
Fixpoint run (ops : list QueueOp) (h : Handle) : list (option MotorMessages) :=
  match ops with
  | [] => []
  | OpMessage m :: ops => run ops (QueueMessage m h)
  | OpMessages ms :: ops => run ops (QueueMessages ms h)
  | OpSynchronized ms :: ops => run ops (QueueSynchronizedMessages ms h)
  | OpCycle :: ops =>
      let (f, h) := PrepareNextFrame (length configs) h in (wire <$> f) :: run ops h
  end.

Fixpoint lanes_run (ops : list QueueOp) (L : Lanes) : list (option MotorMessages) :=
  match ops with
  | [] => []
  | OpMessage m :: ops => lanes_run ops (lanes_submit [m] false L)
  | OpMessages ms :: ops => lanes_run ops (lanes_submit ms false L)
  | OpSynchronized ms :: ops => lanes_run ops (lanes_submit ms true L)
  | OpCycle :: ops => let (out, L) := lanes_next L in out :: lanes_run ops L
  end.

Definition new_handle : Handle := mkHandle configs [] [] ∅ 0.
Definition new_lanes : Lanes := mkLanes [] (fun _ => mkLane [] []) 0.

End Spec.

(** ** Frames seen from one bus *)
Section Refinement.
Context (configs : list SlaveConfig) (Hc : Forall classified configs)
        (Hn : Z.of_nat (length configs) <= 32767).

(** A bus of the configuration, under the code that messages carry. *)
Definition int32 (b : Z) : Prop := -2147483648 <= b < 2147483648.

Lemma route_spec b s k c :
  route configs b = Some (s, k, c) ->
  configs !! s = Some c /\ k = b mod 65536 /\ 0 <= k < Z.of_nat (bus_count c) /\
  u16 (b ≫ 16 + 1) = Z.of_nat s + 1 /\
  exists T, format_packet (format c) = Some T /\ bus_count c = kBusCount (traits T) /\
            motors_per_bus c = kMotorsPerBus (traits T) /\ message_size c = sizeof T.
Proof.
  unfold route, target. intros H.
  pose proof (u16_range (b ≫ 16 + 1)) as Hr.
  destruct (_ || _) eqn:E0; [done|]. apply orb_false_iff in E0 as [E0 E1].
  destruct (configs !! _) as [config|] eqn:E; [|done].
  destruct (bus_count config =? 0)%nat eqn:Eb; [done|].
  destruct (Z.of_nat _ <=? _) eqn:Ek; [done|].
  destruct (motors_per_bus config =? 0)%nat; [done|]. injection H as <- <- <-.
  apply Nat.eqb_neq in Eb. apply Z.eqb_neq in E0. apply Z.leb_gt in Ek.
  split; [done|].
  assert (u16 (b .& 65535) = b mod 65536) as Hk.
  { rewrite (land_ones_pow b 65535 16) by (lia || reflexivity). apply u16_small.
    apply (Z.mod_pos_bound b 65536). lia. }
  rewrite Hk in *. split; [done|]. pose proof (Z.mod_pos_bound b 65536 ltac:(lia)).
  split; [lia|]. split; [lia|].
  apply classified_format; [|done]. by eapply Forall_lookup_1.
Qed.

(** The code of a bus is slave and bus side by side. *)
Lemma route_code b s k c :
  int32 b -> route configs b = Some (s, k, c) -> b = Z.of_nat s * 65536 + k.
Proof.
  intros Hb H. apply route_spec in H as (Hs & Hk & Hk2 & Hu & _).
  apply lookup_lt_Some in Hs. unfold int32 in Hb.
  rewrite Z.shiftr_div_pow2 in Hu by lia. change (2 ^ 16) with 65536 in Hu. unfold u16 in Hu.
  pose proof (Z.div_mod b 65536 ltac:(lia)). pose proof (Z.mod_pos_bound b 65536 ltac:(lia)).
  assert (-32768 <= b / 65536 < 32768) by lia.
  assert (b / 65536 = Z.of_nat s); [|lia].
  pose proof (Z.div_mod (b / 65536 + 1) 65536 ltac:(lia)). lia.
Qed.

Lemma route_inj b b' s k c c' :
  int32 b -> int32 b' -> route configs b = Some (s, k, c) -> route configs b' = Some (s, k, c') -> b = b'.
Proof. intros Hb Hb' H%route_code H'%route_code; try done. lia. Qed.

Definition buffer_ok (c : SlaveConfig) (b : EthercatOutputBuffer) : Prop :=
  active b = true ->
  payload_size b = message_size c /\
  exists T, format_packet (format c) = Some T /\ packet_wf T (storage b).

Definition frame_ok (f : EthercatOutputFrame) : Prop := Forall2 buffer_ok configs f.

(** The slots of bus [b] in a frame. *)
Definition view (f : EthercatOutputFrame) (b : Z) : Group :=
  match route configs b with
  | Some (s, k, c) =>
      match f !! s, format_packet (format c) with
      | Some buffer, Some T =>
          if active buffer then slots_of T (storage buffer) (Z.to_nat k)
          else replicate (motors_per_bus c) zero_pack
      | _, _ => []
      end
  | None => []
  end.

Definition fresh (b : Z) : Group :=
  match route configs b with Some (_, _, c) => replicate (motors_per_bus c) zero_pack | None => [] end.

Lemma empty_frame_ok : frame_ok (replicate (length configs) empty_buffer).
Proof.
  apply Forall2_same_length_lookup_2; [by rewrite length_replicate|].
  intros i c b _ [-> _]%lookup_replicate. done.
Qed.

Lemma view_empty b : view (replicate (length configs) empty_buffer) b = fresh b.
Proof.
  unfold view, fresh. destruct (route configs b) as [[[s k] c]|] eqn:E; [|done].
  apply route_spec in E as (Hs & _ & _ & _ & T & HT & _). rewrite HT.
  apply lookup_lt_Some in Hs. by rewrite lookup_replicate_2.
Qed.

(** [try_insert] is [put_slots] on the slots of the message's bus, and leaves the
    other buses alone. *)
Lemma try_insert_view f b s k c m :
  frame_ok f -> pack_wf m -> int32 b -> route configs b = Some (s, k, c) ->
  match try_insert c s k m f with
  | (f', true) =>
      put_slots m (view f b) = Some (view f' b) /\ frame_ok f' /\
      forall b', int32 b' -> b' <> b -> view f' b' = view f b'
  | (f', false) => put_slots m (view f b) = None /\ f' = f
  end.
Proof.
  intros Hf Hm Hb Hr. pose proof (route_spec _ _ _ _ Hr) as (Hs & _ & Hk & _ & T & HT & Hcnt & Hper & Hsz).
  unfold try_insert, TryInsertMessageIntoFrame. rewrite HT.
  destruct (Forall2_lookup_l _ _ _ _ _ Hf Hs) as (buf & Hbuf & Hok). rewrite Hbuf, Hsz.
  rewrite Z.eqb_refl. cbn [negb].
  replace (kEthercatMaxMessageSize <? sizeof T) with false by (pose proof (sizeof_le T); lia). cbv zeta.
  set (buf' := if buffer_empty buf || negb (buffer_size buf =? sizeof T) then reset T (sizeof T) buf else buf).
  assert (buf' = (if active buf then buf else mkBuffer (zero_packet T) (sizeof T) true)) as ->.
  { subst buf'. unfold buffer_empty, buffer_size. destruct (active buf) eqn:Ea; cbn [negb orb].
    - destruct (Hok Ea) as [-> _]. by rewrite Hsz, Z.eqb_refl.
    - unfold reset. by destruct T. }
  set (buf' := if active buf then buf else mkBuffer (zero_packet T) (sizeof T) true).
  assert (packet_wf T (storage buf') /\ payload_size buf' = sizeof T /\ active buf' = true /\
          slots_of T (storage buf') (Z.to_nat k) = view f b) as (Hwf & Hpay & Hact & Hv).
  { unfold view. rewrite Hr, Hbuf, HT. subst buf'. destruct (active buf) eqn:Ea.
    - destruct (Hok Ea) as (Hp & T' & HT' & Hwf). rewrite HT in HT'. injection HT' as <-.
      by rewrite Hp, Ea.
    - cbn. split_and!; [apply zero_packet_wf|done..|]. rewrite slots_of_zero by lia. by rewrite Hper. }
  assert (Z.of_nat (Z.to_nat k) = k) as Hkk by lia.
  pose proof (insert_slots T (storage buf') (Z.to_nat k) m Hwf Hm ltac:(lia)) as Hins.
  rewrite Hkk, Hv in Hins.
  destruct (InsertMessageIntoPacket T (storage buf') k m) as [p|].
  - destruct Hins as (Hput & Hwf' & Hoth). split_and!.
    + rewrite Hput. f_equal. unfold view. rewrite Hr, HT.
      rewrite list_lookup_insert_eq by (by eapply lookup_lt_Some). cbn. by rewrite Hact.
    + unfold frame_ok. rewrite <- (list_insert_id configs s c) by done.
      apply Forall2_insert; [done|]. intros _. cbn. rewrite Hpay, Hsz. split; [done|]. by exists T.
    + intros b' Hb' Hne. unfold view. destruct (route configs b') as [[[s' k'] c']|] eqn:Hr'; [|done].
      pose proof (route_spec _ _ _ _ Hr') as (Hs' & _ & Hk' & _ & T' & HT' & Hcnt' & Hper' & _).
      destruct (decide (s' = s)) as [->|Hss].
      2: by rewrite list_lookup_insert_ne.
      rewrite Hs in Hs'. injection Hs' as <-. rewrite HT in HT'. injection HT' as <-.
      rewrite HT, Hbuf, list_lookup_insert_eq by (by eapply lookup_lt_Some). cbn. rewrite Hact.
      assert (Z.to_nat k' <> Z.to_nat k) as Hkne.
      { intros He. apply Hne. assert (k' = k) as -> by lia. by eapply route_inj. }
      rewrite Hoth by done. subst buf'. destruct (active buf) eqn:Ea; [done|]. cbn.
      rewrite slots_of_zero by lia. by rewrite Hper.
  - split; [done|]. apply list_insert_id. rewrite Hbuf. f_equal. subst buf'.
    destruct (active buf) eqn:Ea; [done|]. exfalso.
    rewrite <- Hv in Hins. cbn in Hins. rewrite slots_of_zero in Hins by lia.
    unfold put_slots in Hins. destruct (kMotorsPerBus (traits T)) as [|n] eqn:En; [by destruct T|].
    rewrite length_replicate in Hins. cbn in Hins.
    destruct (if _ =? _ then None else _); done.
Qed.

(** ** The queue seen from one bus *)

(** Frame [q] carries group [g] of bus [b], in a generation that satisfies [P]. *)
Definition holds (b : Z) (P : Z -> Prop) (q : QueuedFrame) (g : Group) : Prop :=
  view (frame q) b = g /\ exists γ, qbus_generations q !! b = Some γ /\ P γ.
Definition lacks (b : Z) (q : QueuedFrame) : Prop :=
  view (frame q) b = fresh b /\ qbus_generations q !! b = None.

(** The frames that carry bus [b] come first; those of earlier generations carry
    its closed groups, those of the current one its open groups. *)
Definition lane_ok (cur b : Z) (l : Lane) (queue : list QueuedFrame) : Prop :=
  exists qc qo qf, queue = qc ++ qo ++ qf /\
    Forall2 (holds b (fun γ => γ < cur)) qc (closed l) /\
    Forall2 (holds b (fun γ => γ = cur)) qo (open l) /\ Forall (lacks b) qf.

(** [q] and [q'] are the same for every bus but [b]. *)
Definition same_but (b : Z) (q q' : QueuedFrame) : Prop :=
  forall b', int32 b' -> b' <> b ->
    view (frame q') b' = view (frame q) b' /\ qbus_generations q' !! b' = qbus_generations q !! b'.

Definition queue_ok (queue : list QueuedFrame) : Prop := Forall (fun q => frame_ok (frame q)) queue.

#[local] Instance same_but_refl b : Reflexive (same_but b).
Proof. by intros q b'. Qed.

Lemma Forall2_same_but b queue : Forall2 (same_but b) queue queue.
Proof. induction queue; constructor; [reflexivity|done]. Qed.

Lemma lane_ok_same b b' cur l queue queue' :
  int32 b' -> b' <> b -> Forall2 (same_but b) queue queue' ->
  lane_ok cur b' l queue -> lane_ok cur b' l queue'.
Proof.
  intros Hb Hne Hs (qc & qo & qf & -> & Hqc & Hqo & Hqf).
  apply Forall2_app_inv_l in Hs as (qc' & r & H1 & Hs & ->).
  apply Forall2_app_inv_l in Hs as (qo' & qf' & H2 & H3 & ->).
  assert (forall P q q' g, same_but b q q' -> holds b' P q g -> holds b' P q' g) as Hh.
  { intros P q q' g Hq [Hv Hg]. destruct (Hq b' Hb Hne) as [E1 E2]. split; [by rewrite E1|by rewrite E2]. }
  assert (forall P qs qs' gs, Forall2 (same_but b) qs qs' -> Forall2 (holds b' P) qs gs ->
            Forall2 (holds b' P) qs' gs) as HF.
  { intros P qs qs' gs Hqs. revert gs. induction Hqs as [|q q' qs qs' Hq _ IH]; intros gs H;
      inversion H; subst; constructor; eauto. }
  exists qc', qo', qf'. split_and!; [done|by eapply HF..|].
  clear -H3 Hqf Hb Hne. induction H3 as [|q q' qs qs' Hq _ IH]; [done|].
  apply list.Forall_cons in Hqf as [[Hv Hg] Hqf]. destruct (Hq b' Hb Hne) as [E1 E2].
  constructor; [|by apply IH]. split; [by rewrite E1|by rewrite E2].
Qed.

Section Put.
Context (b : Z) (s : nat) (k : Z) (c : SlaveConfig) (Hb : int32 b)
        (Hr : route configs b = Some (s, k, c)) (cur : Z) (m : MotorPackMsg) (Hm : pack_wf m).

Abbreviation insert_here := (insert_queued c s k b cur m).

(** Frames of other generations are passed by. *)
Lemma insert_closed qc gs rest :
  Forall2 (holds b (fun γ => γ < cur)) qc gs ->
  insert_here (qc ++ rest) = let (q, i) := insert_here rest in (qc ++ q, i).
Proof.
  induction 1 as [|q g qc gs (_ & γ & Hγ & Hlt) _ IH]; cbn [app].
  - by destruct (insert_here rest).
  - cbn [insert_queued]. rewrite Hγ, (proj2 (Z.eqb_neq γ cur)) by lia. rewrite IH.
    by destruct (insert_here rest).
Qed.

(** Frames of the current generation are tried in turn. *)
Lemma insert_open qo gs rest :
  queue_ok qo -> Forall2 (holds b (fun γ => γ = cur)) qo gs ->
  match join m gs with
  | Some gs' => exists qo', insert_here (qo ++ rest) = (qo' ++ rest, true) /\ queue_ok qo' /\
                  Forall2 (holds b (fun γ => γ = cur)) qo' gs' /\ Forall2 (same_but b) qo qo'
  | None => insert_here (qo ++ rest) = let (q, i) := insert_here rest in (qo ++ q, i)
  end.
Proof.
  intros Hok H. induction H as [|q g qo gs (Hv & γ & Hγ & ->) HF IH]; cbn [app join].
  { by destruct (insert_here rest). }
  apply list.Forall_cons in Hok as [Hq Hok]. specialize (IH Hok).
  cbn [insert_queued]. rewrite Hγ, Z.eqb_refl.
  pose proof (try_insert_view _ _ _ _ _ m Hq Hm Hb Hr) as Ht. rewrite Hv in Ht.
  destruct (try_insert c s k m (frame q)) as [f' [|]].
  - destruct Ht as (-> & Hf' & Hoth).
    exists (mkQueued f' (emplace b cur (qbus_generations q)) :: qo).
    unfold emplace. rewrite Hγ. split_and!; [done|by constructor| |].
    + constructor; [|done]. split; [done|]. by exists cur.
    + constructor; [|by apply Forall2_same_but]. intros b' Hb' Hne. cbn. split; [by apply Hoth|done].
  - destruct Ht as [-> ->]. destruct (join m gs) as [gs'|]; cbn [fmap option_fmap option_map].
    + destruct IH as (qo' & -> & Hok' & HF' & Hs'). exists (q :: qo'). destruct q. split_and!.
      * done.
      * by constructor.
      * constructor; [|done]. split; [done|]. by exists cur.
      * constructor; [reflexivity|done].
    + rewrite IH. destruct (insert_here rest), q. done.
Qed.

Lemma put_fresh : put_slots m (fresh b) = Some (new_group (motors_per_bus c) m).
Proof.
  unfold fresh. rewrite Hr. pose proof (route_spec _ _ _ _ Hr) as (_ & _ & _ & _ & T & _ & _ & Hper & _).
  unfold put_slots, new_group. rewrite length_replicate.
  destruct (motors_per_bus c) as [|n] eqn:E; [by destruct T|].
  assert (find_slot (replaceable m) (replicate (S n) zero_pack) 0 (S n) = None) as ->.
  { destruct (find_slot _ _ _ _) as [i|] eqn:Ef; [|done].
    apply find_slot_range in Ef as [Hi Hf]. rewrite nth_lookup, lookup_replicate_2 in Hf by lia. done. }
  by destruct (_ =? _).
Qed.

(** A frame that does not carry the bus yet takes the message. *)
Lemma insert_free q qf :
  frame_ok (frame q) -> lacks b q ->
  exists q', insert_here (q :: qf) = (q' :: qf, true) /\ frame_ok (frame q') /\
    holds b (fun γ => γ = cur) q' (new_group (motors_per_bus c) m) /\ same_but b q q'.
Proof.
  intros Hq [Hv Hg]. cbn [insert_queued]. rewrite Hg.
  pose proof (try_insert_view _ _ _ _ _ m Hq Hm Hb Hr) as Ht. rewrite Hv, put_fresh in Ht.
  destruct (try_insert c s k m (frame q)) as [f' [|]]; [|by destruct Ht].
  destruct Ht as ([= E] & Hf' & Hoth).
  exists (mkQueued f' (emplace b cur (qbus_generations q))). split_and!; [done..| |].
  - split; [done|]. exists cur. unfold emplace. cbn. rewrite Hg, lookup_insert_eq. done.
  - intros b' Hb' Hne. cbn. split; [by apply Hoth|]. unfold emplace. rewrite Hg.
    by rewrite lookup_insert_ne.
Qed.

(** A frame made for the message. *)
Lemma insert_new :
  exists f, try_insert c s k m (replicate (length configs) empty_buffer) = (f, true) /\ frame_ok f /\
    view f b = new_group (motors_per_bus c) m /\
    forall b', int32 b' -> b' <> b -> view f b' = fresh b'.
Proof.
  pose proof (try_insert_view _ _ _ _ _ m empty_frame_ok Hm Hb Hr) as Ht.
  rewrite view_empty, put_fresh in Ht.
  destruct (try_insert c s k m _) as [f' [|]]; [|by destruct Ht].
  destruct Ht as ([= E] & Hf' & Hoth). exists f'. split_and!; [done..|].
  intros b' Hb' Hne. by rewrite Hoth, view_empty.
Qed.
End Put.

Lemma lane_ok_snoc b b' cur l queue f g :
  b' <> b -> view f b' = fresh b' ->
  lane_ok cur b' l queue -> lane_ok cur b' l (queue ++ [mkQueued f {[b := g]}]).
Proof.
  intros Hne Hv (qc & qo & qf & -> & Hqc & Hqo & Hqf).
  exists qc, qo, (qf ++ [mkQueued f {[b := g]}]). split_and!; [by rewrite <- !app_assoc|done..|].
  apply Forall_app. split; [done|]. constructor; [|done]. split; [done|].
  cbn. by rewrite lookup_singleton_ne.
Qed.

Lemma lane_ok_length cur b l queue :
  lane_ok cur b l queue -> (length (groups l) <= length queue)%nat.
Proof.
  intros (qc & qo & qf & -> & Hqc%Forall2_length & Hqo%Forall2_length & _). unfold groups.
  rewrite !length_app. lia.
Qed.

(** Packing one message is [lane_put] on its lane. *)
Lemma pack_message_lane gens queue l msg s k c (b := Types.bus_idx msg) (cur := default 0 (gens !! b)) :
  queue_ok queue -> pack_wf (mdata msg) -> int32 b -> route configs b = Some (s, k, c) ->
  lane_ok cur b l queue ->
  let queue' := PackMessage configs (length configs) gens queue msg in
  let l' := lane_put (motors_per_bus c) (mdata msg) l in
  queue_ok queue' /\ lane_ok cur b l' queue' /\
  length queue' = (length queue `max` length (groups l'))%nat /\
  forall b' cur' l'', int32 b' -> b' <> b -> lane_ok cur' b' l'' queue -> lane_ok cur' b' l'' queue'.
Proof.
  intros Hok Hm Hb Hr (qc & qo & qf & -> & Hqc & Hqo & Hqf). cbv zeta.
  unfold PackMessage. fold b. unfold route in Hr. rewrite Hr. fold cur.
  apply Forall_app in Hok as [Hokc Hok]. apply Forall_app in Hok as [Hoko Hokf].
  rewrite (insert_closed _ _ _ _ cur (mdata msg) _ _ _ Hqc).
  pose proof (insert_open _ _ _ _ Hb Hr cur (mdata msg) Hm _ _ qf Hoko Hqo) as Ho.
  pose proof (Forall2_length Hqc) as Hlc. pose proof (Forall2_length Hqo) as Hlo.
  unfold lane_put, groups. destruct (join (mdata msg) (open l)) as [gs'|] eqn:Ej.
  - destruct Ho as (qo' & -> & Hoko' & Hqo' & Hs). cbn [closed open].
    pose proof (Forall2_length Hs) as Hl1. pose proof (Forall2_length Hqo') as Hl2.
    split_and!.
    + by repeat (apply Forall_app; split).
    + by exists qc, qo', qf.
    + rewrite !length_app. lia.
    + intros b' cur' l'' Hb' Hne. apply (lane_ok_same b); [done..|].
      repeat apply Forall2_app; [by apply Forall2_same_but|done|by apply Forall2_same_but].
  - rewrite Ho. cbn [closed open]. destruct qf as [|q qf].
    + cbn [insert_queued]. destruct (insert_new _ _ _ _ Hb Hr (mdata msg) Hm) as (f & -> & Hf & Hv & Hoth).
      split_and!.
      * repeat (apply Forall_app; split); try done. by constructor.
      * exists qc, (qo ++ [mkQueued f {[b := cur]}]), []. cbn. split_and!; [by rewrite !app_nil_r, <- !app_assoc|done| |done].
        apply Forall2_app; [done|]. constructor; [|done]. split; [done|]. exists cur. cbn.
        by rewrite lookup_singleton_eq.
      * rewrite !length_app. cbn. lia.
      * intros b' cur' l'' Hb' Hne Hlane. apply lane_ok_snoc; [done|by apply Hoth|done].
    + apply list.Forall_cons in Hokf as [Hq Hokf]. apply list.Forall_cons in Hqf as [Hlq Hqf].
      destruct (insert_free _ _ _ _ Hb Hr cur (mdata msg) Hm q qf Hq Hlq) as (q' & -> & Hq' & Hh & Hs).
      split_and!.
      * repeat (apply Forall_app; split); try done. by constructor.
      * exists qc, (qo ++ [q']), qf. cbn. split_and!; [by rewrite <- !app_assoc|done| |done].
        apply Forall2_app; [done|]. by constructor.
      * rewrite !length_app. cbn. lia.
      * intros b' cur' l'' Hb' Hne. apply (lane_ok_same b); [done..|].
        repeat apply Forall2_app; try by apply Forall2_same_but. constructor; [done|by apply Forall2_same_but].
Qed.

(** ** The simulation *)

Definition generation (gens : gmap Z Z) (b : Z) : Z := default 0 (gens !! b).

(** The frames and the lanes agree. *)
Record Agree (gens : gmap Z Z) (queue : list QueuedFrame) (L : Lanes) : Prop := {
  ag_ok : queue_ok queue;
  ag_depth : depth L = length queue;
  ag_lanes : forall b, int32 b -> lane_ok (generation gens b) b (lanes L b) queue
}.

(** Messages the C types can hold. *)
Definition message_ok (m : MotorMessage) : Prop := int32 (Types.bus_idx m) /\ pack_wf (mdata m).
Abbreviation messages_ok := (Forall message_ok).

Lemma agree_put gens queue L msg :
  message_ok msg -> Agree gens queue L ->
  Agree gens (PackMessage configs (length configs) gens queue msg) (lanes_put configs L msg).
Proof.
  intros [Hb Hm] [Hok Hd Hl]. unfold lanes_put.
  destruct (route configs (Types.bus_idx msg)) as [[[s k] c]|] eqn:Hr.
  2: { unfold PackMessage. unfold route in Hr. by rewrite Hr. }
  destruct (pack_message_lane gens queue _ msg s k c Hok Hm Hb Hr (Hl _ Hb)) as (H1 & H2 & H3 & H4).
  split; cbn [depth lanes]; [done|by rewrite H3, Hd|].
  intros b Hb'. destruct (decide (b = Types.bus_idx msg)) as [->|Hne].
  - by rewrite fn_lookup_insert.
  - rewrite fn_lookup_insert_ne by done. apply H4; [done..|by apply Hl].
Qed.

Lemma agree_puts gens ms : forall queue L,
  messages_ok ms -> Agree gens queue L ->
  Agree gens (foldl (PackMessage configs (length configs) gens) queue ms) (foldl (lanes_put configs) L ms).
Proof.
  induction ms as [|m ms IH]; intros queue L Hms H; [done|].
  apply list.Forall_cons in Hms as [Hm Hms]. cbn. apply IH; [done|]. by apply agree_put.
Qed.

Lemma lookup_bump buses gens b :
  bump buses gens !! b =
  if decide (b ∈ buses) then Some (u64 (generation gens b + 1)) else gens !! b.
Proof.
  unfold bump, generation. pose proof (NoDup_elements buses) as Hnd.
  assert (forall l, NoDup l ->
    foldr (fun bus g => <[bus := u64 (default 0 (g !! bus) + 1)]> g) gens l !! b =
    if decide (b ∈ l) then Some (u64 (default 0 (gens !! b) + 1)) else gens !! b) as Hf.
  { clear. induction 1 as [|a l Ha _ IH]; cbn [foldr].
    - by rewrite decide_False by apply not_elem_of_nil.
    - destruct (decide (b = a)) as [->|Hne].
      + rewrite lookup_insert_eq, IH, decide_False by done. by rewrite decide_True by left.
      + rewrite lookup_insert_ne by done. rewrite IH. destruct (decide (b ∈ l)).
        * by rewrite decide_True by (by right).
        * rewrite decide_False; [done|]. intros [|]%elem_of_cons; done. }
  rewrite Hf by done. by destruct (decide (b ∈ elements buses)) as [?|?], (decide (b ∈ buses)) as [?|?]; set_solver.
Qed.

Definition limit : Z := 18446744073709551616.
Definition max_sync : Z := 9223372036854775806.

Lemma generation_bump buses gens b :
  0 <= generation gens b < limit - 1 ->
  generation (bump buses gens) b =
  if decide (b ∈ buses) then generation gens b + 1 else generation gens b.
Proof.
  intros H. unfold generation at 1. rewrite lookup_bump.
  destruct (decide (b ∈ buses)); cbn [default]; [|done]. apply Z.mod_small. unfold limit in H. lia.
Qed.

Lemma lane_ok_seal cur b l queue : lane_ok cur b l queue -> lane_ok (cur + 1) b (seal l) queue.
Proof.
  intros (qc & qo & qf & -> & Hqc & Hqo & Hqf). exists (qc ++ qo), [], qf. cbn [seal closed open groups].
  split_and!; [by rewrite app_nil_l, <- app_assoc| |done|done]. unfold groups. apply Forall2_app.
  - eapply Forall2_impl; [|exact Hqc]. intros q g (Hv & γ & Hγ & ?). split; [done|]. exists γ. split; [done|lia].
  - eapply Forall2_impl; [|exact Hqo]. intros q g (Hv & γ & Hγ & ?). split; [done|]. exists γ. split; [done|lia].
Qed.

(** A higher generation is a seal. *)
Lemma agree_seal gens buses queue L :
  (forall b, 0 <= generation gens b < limit - 1) ->
  Agree gens queue L -> Agree (bump buses gens) queue (lanes_seal buses L).
Proof.
  intros Hg [Hok Hd Hl]. split; [done..|]. intros b Hb. cbn. rewrite generation_bump by done.
  destruct (decide (b ∈ buses)); [by apply lane_ok_seal, Hl|by apply Hl].
Qed.

Lemma lane_ok_drop n cur b l queue : lane_ok cur b l queue -> lane_ok cur b (lane_drop n l) (drop n queue).
Proof.
  intros (qc & qo & qf & -> & Hqc & Hqo & Hqf). pose proof (Forall2_length Hqc) as Hlc.
  exists (drop n qc), (drop (n - length qc) qo), (drop (n - length qc - length qo) qf). cbn [lane_drop closed open].
  split_and!; [by rewrite !drop_app|by apply Forall2_drop| |by apply Forall_drop].
  rewrite <- Hlc. by apply Forall2_drop.
Qed.

Lemma agree_drop n gens queue L : Agree gens queue L -> Agree gens (drop n queue) (lanes_drop n L).
Proof.
  intros [Hok Hd Hl]. split; [by apply Forall_drop|cbn; by rewrite length_drop, Hd|].
  intros b Hb. by apply lane_ok_drop, Hl.
Qed.

Definition batch_ok (batch : PendingBatch) : Prop := messages_ok (messages batch).
Definition sync_count (batches : list PendingBatch) : Z :=
  Z.of_nat (length (filter (fun b => synchronized b = true) batches)).

(** [h] implements [L]; at most [n] synchronised batches have been packed. *)
Record Implements (n : Z) (h : Handle) (L : Lanes) : Prop := {
  im_configs : slave_configs h = configs;
  im_count : queued_frame_count h = Z.of_nat (length (send_frames h));
  im_agree : Agree (bus_generations h) (send_frames h) L;
  im_bound : forall b, 0 <= generation (bus_generations h) b <= 2 * n
}.

Lemma pack_messages gens queue ms L :
  messages_ok ms -> Agree gens queue L ->
  Agree gens (PackMessagesIntoQueue configs ms (length configs) queue gens) (foldl (lanes_put configs) L ms).
Proof.
  intros Hms H. unfold PackMessagesIntoQueue. destruct (Nat.eqb_spec (length configs) 0) as [E|_].
  - assert (foldl (lanes_put configs) L ms = L) as ->; [|done]. clear H Hms. revert L.
    induction ms as [|m ms IH]; intros L; [done|]. cbn. rewrite IH. unfold lanes_put, route, target.
    rewrite E. pose proof (u16_range (Types.bus_idx m ≫ 16 + 1)).
    destruct (Z.eqb_spec (u16 (Types.bus_idx m ≫ 16 + 1)) 0); cbn [orb]; [done|].
    by rewrite (proj2 (Z.ltb_lt _ _)) by lia.
  - by apply agree_puts.
Qed.

Lemma implements_batch n h L batch :
  batch_ok batch -> 0 <= n < max_sync -> Implements n h L ->
  Implements (n + sync_count [batch]) (PackBatchIntoSegmentsLocked (length configs) h batch)
    (lanes_batch configs L batch).
Proof.
  intros Hb Hn' [Hcf Hcnt Hag Hbd]. unfold PackBatchIntoSegmentsLocked, lanes_batch, sync_count.
  destruct batch as [ms sync]. cbn [messages synchronized] in *. rewrite Hcf.
  destruct ms as [|m ms].
  { assert (n <= n + Z.of_nat (length (filter (fun b => synchronized b = true) [mkBatch [] sync]))) by lia.
    destruct sync; split; try done; try (intros b; pose proof (Hbd b); lia).
    destruct Hag as [Hok Hd Hl]. by split. }
  set (ms' := m :: ms) in *. set (buses := CollectPackableBuses configs ms' (length configs)).
  unfold with_generations, with_frames.
  destruct sync; cbn [slave_configs send_frames bus_generations queued_frame_count pending_batches].
  - assert (forall b, 0 <= generation (bump buses (bus_generations h)) b <= 2 * n + 1) as Hb1.
    { intros b. pose proof (Hbd b). rewrite generation_bump by (unfold limit, max_sync in *; lia).
      destruct (decide _); lia. }
    split; cbn [slave_configs send_frames bus_generations queued_frame_count pending_batches]; rewrite ?Hcf.
    + done.
    + lia.
    + apply agree_seal; [intros b; pose proof (Hb1 b); unfold limit, max_sync in *; lia|].
      apply pack_messages; [done|]. apply agree_seal; [|done].
      intros b. pose proof (Hbd b). unfold limit, max_sync in *; lia.
    + intros b. change (filter _ _) with [mkBatch ms' true]. cbn [length]. pose proof (Hb1 b).
      rewrite generation_bump by (unfold limit, max_sync in *; lia). destruct (decide _); lia.
  - split; cbn [slave_configs send_frames bus_generations queued_frame_count pending_batches]; rewrite ?Hcf.
    + done.
    + lia.
    + by apply pack_messages.
    + intros b. change (filter _ _) with (@nil PendingBatch). cbn [length]. pose proof (Hbd b). lia.
Qed.

Lemma sync_count_cons b l : sync_count (b :: l) = sync_count [b] + sync_count l.
Proof. unfold sync_count. rewrite !filter_cons, filter_nil. destruct (decide _); cbn [length]; lia. Qed.

Lemma implements_batches batches : forall n h L,
  Forall batch_ok batches -> 0 <= n -> n + sync_count batches < max_sync -> Implements n h L ->
  Implements (n + sync_count batches) (foldl (PackBatchIntoSegmentsLocked (length configs)) h batches)
    (foldl (lanes_batch configs) L batches).
Proof.
  induction batches as [|b batches IH]; intros n h L Hb Hn0 Hn1 H; cbn [foldl].
  { change (sync_count []) with 0. by rewrite Z.add_0_r. }
  apply list.Forall_cons in Hb as [Hb Hbs]. rewrite sync_count_cons, Z.add_assoc in *.
  assert (forall l, 0 <= sync_count l) as Hpos by (intros; unfold sync_count; lia).
  pose proof (Hpos [b]). pose proof (Hpos batches).
  apply IH; [done|lia|done|]. apply implements_batch; [done|lia|done].
Qed.

(** ** Flushing and sending *)

(** The whole relation between the handle and the lanes. *)
Record Sim (n : Z) (h : Handle) (L : Lanes) : Prop := {
  sim_implements : Implements n h L;
  sim_waiting : pending_batches h = waiting L;
  sim_ok : Forall batch_ok (waiting L);
  sim_depth : (depth L <= 3)%nat
}.

Lemma last_as_drop {A} (l : list A) :
  match list.last l with Some x => [x] | None => [] end = drop (length l - 1) l.
Proof.
  induction l as [|x l IH] using rev_ind; [done|].
  rewrite last_snoc, length_app, drop_app_length'; [done|cbn; lia].
Qed.

Lemma foldl_batch_pending k batches : forall h,
  pending_batches (foldl (PackBatchIntoSegmentsLocked k) h batches) = pending_batches h.
Proof.
  induction batches as [|b batches IH]; intros h; [done|]. cbn. rewrite IH.
  unfold PackBatchIntoSegmentsLocked. destruct (messages b); [done|]. by destruct (synchronized b).
Qed.

Lemma implements_drop n h L k count :
  count = Z.of_nat (length (send_frames h) - k) -> Implements n h L ->
  Implements n (with_frames (drop k (send_frames h)) count h) (lanes_drop k L).
Proof.
  intros -> [Hcf Hcnt Hag Hbd]. split; cbn; [done|by rewrite length_drop|by apply agree_drop|done].
Qed.

Lemma implements_waiting n h L p w : Implements n h L ->
  Implements n (with_pending p h) (mkLanes w (lanes L) (depth L)).
Proof. intros [Hcf Hcnt [? ? ?] Hbd]. split; [done|done|by split|done]. Qed.

Lemma lanes_batches_waiting batches : forall L,
  waiting (foldl (lanes_batch configs) L batches) = waiting L.
Proof.
  assert (forall ms L, waiting (foldl (lanes_put configs) L ms) = waiting L) as Hp.
  { induction ms as [|m ms IH]; intros L; [done|]. cbn. rewrite IH. unfold lanes_put.
    by destruct (route configs _) as [[[? ?] ?]|]. }
  induction batches as [|b batches IH]; intros L; [done|]. cbn. rewrite IH. unfold lanes_batch.
  destruct (synchronized b); cbn; by rewrite Hp.
Qed.

Lemma sim_flush n h L :
  0 <= n -> n + sync_count (waiting L) < max_sync -> Sim n h L ->
  Sim (n + sync_count (waiting L)) (FlushPendingMessagesLocked (length configs) h) (lanes_flush configs L).
Proof.
  intros Hn0 Hn1 [Him Hw Hok Hd]. unfold FlushPendingMessagesLocked, lanes_flush. rewrite Hw.
  destruct (waiting L) as [|b batches] eqn:Ew.
  { change (sync_count []) with 0. rewrite Z.add_0_r. cbn [foldl depth].
    rewrite (proj2 (Nat.ltb_ge _ _)) by lia. split; cbn; [|by rewrite Hw|done|done].
    by destruct Him as [? ? [? ? ?] ?]; split; [|done|by split|]. }
  rewrite <- Ew in *. clear Ew b batches.
  assert (Implements n (with_pending (pending_batches h) h) (mkLanes [] (lanes L) (depth L))) as Him'
    by by apply implements_waiting.
  assert (with_pending (pending_batches h) h = h) as E by by destruct h. rewrite E in Him'. clear E.
  apply (implements_batches (waiting L)) in Him'; [|done..].
  pose proof (lanes_batches_waiting (waiting L) (mkLanes [] (lanes L) (depth L))) as Hw'. cbn in Hw'.
  set (L' := foldl _ (mkLanes [] _ _) _) in *.
  set (h' := foldl (PackBatchIntoSegmentsLocked _) _ _) in *. clearbody L' h'.
  assert (Implements (n + sync_count (waiting L)) (with_pending [] h') L') as Him2.
  { apply (implements_waiting _ _ _ [] []) in Him'. destruct L'. cbn in Hw'. by subst. }
  pose proof (im_count _ _ _ Him2) as Hcnt. pose proof (ag_depth _ _ _ (im_agree _ _ _ Him2)) as Hdep.
  cbv zeta. unfold kSendQueueHighLoadThreshold. rewrite Hcnt, Hdep.
  destruct (Nat.ltb_spec 3 (length (send_frames (with_pending [] h')))) as [Hlt|Hge].
  - rewrite (proj2 (Z.ltb_lt _ _)) by lia.
    rewrite last_as_drop. split; [|cbn; by rewrite Hw'|cbn; by rewrite Hw'|cbn [lanes_drop depth]; lia].
    apply implements_drop; [lia|done].
  - rewrite (proj2 (Z.ltb_ge _ _)) by lia.
    split; [done|by rewrite Hw'|by rewrite Hw'|lia].
Qed.

Lemma route_of_code s k c :
  configs !! s = Some c -> (k < bus_count c)%nat ->
  route configs (Z.of_nat s ≪ 16 .| Z.of_nat k) = Some (s, Z.of_nat k, c) /\
  int32 (Z.of_nat s ≪ 16 .| Z.of_nat k).
Proof.
  intros Hs Hk. pose proof (lookup_lt_Some _ _ _ Hs) as Hlt.
  assert (classified c) as Hcl by by eapply Forall_lookup_1.
  destruct (classified_format c Hcl ltac:(lia)) as (T & HT & Hcnt & Hper & _).
  assert (bus_count c <= 8)%nat as H8 by (rewrite Hcnt; destruct T; cbn; lia).
  rewrite lor_shiftl_add by lia. change (2 ^ 16) with 65536.
  split; [|unfold int32; lia].
  unfold route, target.
  assert (u16 ((Z.of_nat s * 65536 + Z.of_nat k) ≫ 16 + 1) = Z.of_nat s + 1) as ->.
  { rewrite Z.shiftr_div_pow2 by lia. change (2 ^ 16) with 65536.
    rewrite Z.div_add_l, Z.div_small, Z.add_0_r by lia. apply u16_small. lia. }
  assert (u16 ((Z.of_nat s * 65536 + Z.of_nat k) .& 65535) = Z.of_nat k) as ->.
  { rewrite (land_ones_pow _ 65535 16) by (lia || reflexivity).
    change (2 ^ 16) with 65536. rewrite Z.add_comm, Z_mod_plus_full, Z.mod_small by lia. apply u16_small. lia. }
  rewrite (proj2 (Z.eqb_neq _ _)), (proj2 (Z.ltb_ge _ _)) by lia. cbn [orb].
  replace (Z.to_nat (Z.of_nat s + 1 - 1)) with s by lia. rewrite Hs.
  rewrite (proj2 (Nat.eqb_neq _ _)), (proj2 (Z.leb_gt _ _)) by lia.
  rewrite (proj2 (Nat.eqb_neq (motors_per_bus c) 0)) by (rewrite Hper; by destruct T). done.
Qed.

(** What goes out on a bus is the first group of its lane. *)
Lemma lane_head cur b l q queue slave bus :
  lane_ok cur b l (q :: queue) ->
  match head (groups l) with Some g => ForwardMessages g slave bus | None => [] end =
  ForwardMessages (view (frame q) b) slave bus.
Proof.
  intros (qc & qo & qf & E & Hqc & Hqo & Hqf). unfold groups.
  destruct Hqc as [|q1 g1 qc gc [Hv _] _]; cbn [app] in *.
  - destruct Hqo as [|q1 g1 qo go [Hv _] _]; cbn [app] in *.
    + subst qf. apply list.Forall_cons in Hqf as [[Hv _] _]. cbn. rewrite Hv. unfold fresh.
      destruct (route configs b) as [[[? ?] c]|]; [|done]. by rewrite ForwardMessages_zeros.
    + injection E as -> _. cbn. by rewrite Hv.
  - injection E as -> _. cbn. by rewrite Hv.
Qed.

Lemma wire_slave f s c :
  frame_ok f -> configs !! s = Some c ->
  DecodeSlave configs (WriteOutputs configs (output_sizes configs) f) s =
  flat_map (fun bus => ForwardMessages (view f (Z.of_nat s ≪ 16 .| Z.of_nat bus)) s bus)
           (seq 0 (bus_count c)).
Proof.
  intros Hf Hs. unfold DecodeSlave, WriteOutputs, output_sizes.
  rewrite Hs, list_lookup_imap, list_lookup_fmap, Hs. cbn [fmap option_fmap option_map].
  destruct (Forall2_lookup_l _ _ _ _ _ Hf Hs) as (buf & Hbuf & Hok). rewrite Hbuf.
  destruct (Nat.eqb_spec (bus_count c) 0) as [->|Hne]; [done|].
  assert (classified c) as Hcl by by eapply Forall_lookup_1.
  destruct (classified_format c Hcl Hne) as (T & HT & Hcnt & Hper & Hsz). rewrite HT.
  assert (flat_map (fun bus => ForwardMessages (view f (Z.of_nat s ≪ 16 .| Z.of_nat bus)) s bus)
            (seq 0 (bus_count c)) =
          flat_map (fun bus => ForwardMessages (if active buf then slots_of T (storage buf) bus
                                                else replicate (motors_per_bus c) zero_pack) s bus)
            (seq 0 (bus_count c))) as ->.
  { apply flat_map_ext_in. intros bus [_ Hb]%in_seq. f_equal. unfold view.
    destruct (route_of_code s bus c Hs ltac:(lia)) as [-> _]. rewrite Hbuf, HT. by rewrite Nat2Z.id. }
  unfold buffer_empty, buffer_size. destruct (active buf) eqn:Ea; cbn [negb].
  - destruct (Hok Ea) as (Hp & T' & HT' & Hwf). rewrite HT in HT'. injection HT' as <-.
    rewrite Hp, Z.min_id, Hsz. unfold buffer_data. rewrite HT.
    pose proof (packet_bytes_length T _ Hwf) as Hlen.
    rewrite take_ge by lia. rewrite Nat.sub_diag. cbn [replicate]. rewrite app_nil_r.
    apply DecodePacketInputs_bytes; [done|lia].
  - rewrite DecodePacketInputs_zeros. symmetry. generalize (seq 0 (bus_count c)).
    induction l as [|bus l IH]; [done|]. cbn [flat_map]. by rewrite ForwardMessages_zeros.
Qed.

Lemma wire_lanes gens q queue L :
  Agree gens (q :: queue) L -> wire configs (frame q) = lanes_output configs L.
Proof.
  intros [Hok _ Hl]. apply list.Forall_cons in Hok as [Hf _].
  unfold wire, DecodeInputs, lanes_output. apply flat_map_ext_in. intros s [_ Hs]%in_seq.
  destruct (lookup_lt_is_Some_2 configs s) as [c Hsc]; [lia|]. rewrite Hsc. cbn [fmap option_fmap option_map default].
  rewrite (wire_slave _ _ _ Hf Hsc). apply flat_map_ext_in. intros bus [_ Hb]%in_seq.
  destruct (route_of_code s bus c Hsc ltac:(cbn in Hb; lia)) as [_ Hi].
  symmetry. by eapply lane_head, Hl.
Qed.

(** ** Waiting batches *)

(** The handle merges what the lanes keep apart. *)
Definition batches_equiv (p w : list PendingBatch) : Prop :=
  (forall L, foldl (lanes_batch configs) L p = foldl (lanes_batch configs) L w) /\
  sync_count p = sync_count w /\ Forall batch_ok p.

Lemma extend_back_snoc ms p b :
  extend_back ms (p ++ [b]) = p ++ [mkBatch (messages b ++ ms) (synchronized b)].
Proof.
  induction p as [|x p IH]; [done|]. cbn [app extend_back]. rewrite IH. by destruct p.
Qed.

Lemma QueueMessage_eq m h : QueueMessage m h = QueueMessages [m] h.
Proof.
  unfold QueueMessage, QueueMessages, AppendPendingMessagesLocked. cbn [negb andb].
  destruct (back_asynchronous (pending_batches h)); [done|].
  f_equal. by rewrite extend_back_snoc.
Qed.

Lemma sync_count_app l1 l2 : sync_count (l1 ++ l2) = sync_count l1 + sync_count l2.
Proof. unfold sync_count. rewrite list.filter_app, length_app. lia. Qed.

Lemma submit_equiv ms sync h w :
  messages_ok ms -> ms <> [] -> batches_equiv (pending_batches h) w ->
  batches_equiv (pending_batches (AppendPendingMessagesLocked ms sync h)) (w ++ [mkBatch ms sync]).
Proof.
  intros Hms Hne (Heq & Hcnt & Hok). unfold AppendPendingMessagesLocked.
  destruct (negb sync && back_asynchronous (pending_batches h)) eqn:E; cbn [pending_batches with_pending].
  - apply andb_prop in E as [Es E]. destruct sync; [done|]. clear Es.
    unfold back_asynchronous in E. destruct (pending_batches h) as [|b0 p0 _] eqn:Ep using rev_ind; [done|].
    rewrite last_snoc in E. destruct b0 as [ms0 [|]]; [done|]. clear E.
    rewrite extend_back_snoc. cbn [messages synchronized].
    apply Forall_app in Hok as [Hok Hok0]. apply list.Forall_cons in Hok0 as [Hok0 _].
    split_and!.
    + intros L. specialize (Heq L). rewrite !foldl_app in *. rewrite <- Heq. cbn [foldl].
      unfold lanes_batch. cbn [synchronized messages]. by rewrite foldl_app.
    + rewrite !sync_count_app in *. change (sync_count [mkBatch ?x false]) with 0 in *. lia.
    + apply Forall_app. split; [done|]. apply list.Forall_singleton. unfold batch_ok in *. cbn in *.
      by apply Forall_app.
  - split_and!.
    + intros L. by rewrite !foldl_app, Heq.
    + rewrite !sync_count_app. lia.
    + apply Forall_app. split; [done|]. by apply list.Forall_singleton.
Qed.

Definition related (n : Z) (h : Handle) (L : Lanes) : Prop :=
  Sim n h (mkLanes (pending_batches h) (lanes L) (depth L)) /\
  batches_equiv (pending_batches h) (waiting L).

Lemma related_submit n h L ms sync :
  messages_ok ms -> ms <> [] -> related n h L ->
  related n (AppendPendingMessagesLocked ms sync h) (lanes_submit ms sync L).
Proof.
  intros Hms Hne [[Him _ Hok Hd] Hw]. pose proof (submit_equiv ms sync h (waiting L) Hms Hne Hw) as Hw'.
  destruct ms as [|m ms]; [done|]. cbn [lanes_submit]. split; [|done].
  split; [|done|apply Hw'|done].
  assert (forall p, Implements n (with_pending p h) (mkLanes p (lanes L) (depth L))) as Hp.
  { intros p. by apply (implements_waiting _ _ _ p p) in Him. }
  unfold AppendPendingMessagesLocked. by destruct (_ && _).
Qed.

Lemma related_cycle n h L :
  0 <= n -> n + sync_count (waiting L) < max_sync -> related n h L ->
  let (f, h') := PrepareNextFrame (length configs) h in
  let (out, L') := lanes_next configs L in
  wire configs <$> f = out /\ related (n + sync_count (waiting L)) h' L' /\ waiting L' = [].
Proof.
  intros Hn0 Hn1 [Hsim (Heq & Hcnt & Hok)]. unfold PrepareNextFrame, lanes_next.
  rewrite <- Hcnt in *.
  apply (sim_flush n h (mkLanes (pending_batches h) (lanes L) (depth L)) Hn0 Hn1) in Hsim. cbn [waiting] in Hsim.
  assert (lanes_flush configs (mkLanes (pending_batches h) (lanes L) (depth L)) = lanes_flush configs L) as E.
  { unfold lanes_flush. cbn [waiting lanes depth]. by rewrite Heq. }
  rewrite E in Hsim. clear E.
  assert (waiting (lanes_flush configs L) = []) as Hw0.
  { unfold lanes_flush. destruct (_ <? _)%nat; cbn; by rewrite lanes_batches_waiting. }
  set (h1 := FlushPendingMessagesLocked _ _) in *. set (L1 := lanes_flush configs L) in *. clearbody h1 L1.
  destruct Hsim as [Him Hw Hok1 Hd]. pose proof (ag_depth _ _ _ (im_agree _ _ _ Him)) as Hdep.
  rewrite Hw0 in Hw.
  destruct (send_frames h1) as [|q frames] eqn:Ef; cbn [length] in Hdep; rewrite Hdep; cbn [Nat.eqb].
  - split; [done|]. split; [|done]. split; [|rewrite Hw, Hw0; by repeat constructor].
    rewrite Hw. destruct L1. cbn in *. subst. by split.
  - split; [cbn; f_equal; pose proof (im_agree _ _ _ Him) as Ha; rewrite Ef in Ha; by eapply wire_lanes|].
    split; [|done].
    pose proof (im_count _ _ _ Him) as Hcount.
    apply (implements_drop _ _ _ 1 (queued_frame_count h1 - 1)) in Him; [|rewrite Hcount, Ef; cbn [length]; lia].
    rewrite Ef in Him. cbn [drop] in Him.
    split; cbn [with_frames pending_batches lanes_drop waiting lanes depth]; rewrite Hw, ?Hw0;
      [|by repeat constructor].
    split; cbn [waiting depth]; [|done|done|lia]. by rewrite <- Hw0.
Qed.

(** ** The queue implements the lanes *)

Definition op_ok (op : QueueOp) : Prop :=
  match op with
  | OpMessage m => message_ok m
  | OpMessages ms | OpSynchronized ms => messages_ok ms
  | OpCycle => True
  end.

Fixpoint sync_ops (ops : list QueueOp) : Z :=
  match ops with
  | [] => 0
  | OpSynchronized _ :: ops => 1 + sync_ops ops
  | _ :: ops => sync_ops ops
  end.

Lemma sync_ops_nonneg ops : 0 <= sync_ops ops.
Proof. induction ops as [|[] ops IH]; cbn [sync_ops]; lia. Qed.

Lemma submit_bound ms sync L :
  sync_count (waiting (lanes_submit ms sync L)) <= sync_count (waiting L) + Z.b2z sync.
Proof.
  destruct ms as [|m ms]; cbn [lanes_submit waiting]; [destruct sync; cbn [Z.b2z]; lia|].
  rewrite sync_count_app. destruct sync;
    [change (sync_count [mkBatch ?x true]) with 1|change (sync_count [mkBatch ?x false]) with 0]; cbn [Z.b2z]; lia.
Qed.

Lemma run_related ops : forall n h L,
  Forall op_ok ops -> 0 <= n -> n + sync_count (waiting L) + sync_ops ops < max_sync ->
  related n h L -> run configs ops h = lanes_run configs ops L.
Proof.
  assert (forall n ms sync h L, messages_ok ms -> related n h L ->
    related n (match ms with [] => h | _ => AppendPendingMessagesLocked ms sync h end)
      (lanes_submit ms sync L)) as Hsub.
  { intros n [|m ms] sync h L Hms H; [done|]. by apply related_submit. }
  induction ops as [|op ops IH]; intros n h L Hops Hn0 Hb Hrel; [done|].
  apply list.Forall_cons in Hops as [Hop Hops]. pose proof (sync_ops_nonneg ops).
  destruct op as [m|ms|ms|]; cbn [run lanes_run sync_ops op_ok] in *.
  - pose proof (submit_bound [m] false L) as Hsb. cbn [Z.b2z] in Hsb. rewrite QueueMessage_eq.
    apply (IH n); [done|done|lia|apply (Hsub _ [m]); [by constructor|done]].
  - pose proof (submit_bound ms false L) as Hsb. cbn [Z.b2z] in Hsb.
    apply (IH n); [done|done|lia|by apply Hsub].
  - pose proof (submit_bound ms true L) as Hsb. cbn [Z.b2z] in Hsb.
    apply (IH n); [done|done|lia|by apply Hsub].
  - pose proof (related_cycle n h L Hn0 ltac:(lia) Hrel) as Hc'.
    destruct (PrepareNextFrame _ _) as [f h'], (lanes_next _ _) as [out L'].
    destruct Hc' as (<- & Hrel' & Hw). f_equal.
    eapply IH; [done| | |done]; [unfold sync_count; lia|].
    rewrite Hw. change (sync_count []) with 0. lia.
Qed.

Lemma new_related : related 0 (new_handle configs) new_lanes.
Proof.
  split; [|by repeat constructor]. split; cbn; [|done|done|lia].
  split; cbn; [done|done| |intros b; unfold generation; rewrite lookup_empty; cbn; lia].
  split; [by constructor|done|]. intros b Hb. exists [], [], []. by repeat constructor.
Qed.

(** C6: the cyclic send queue implements one lane per bus.  Whatever is submitted,
    alone, as a list or as a synchronised batch, and however submissions and cycles
    alternate, the messages every slave reads from the process image of a cycle are
    exactly the first group of the lane of each of its buses; a synchronised batch
    shares a group of its buses with nothing else, other buses are not held up by it,
    and a backlog of more than three groups is cut to the newest.  The generations,
    the shared frames and the byte layout of the slaves' structs do not show. *)
Theorem ethercat_queue_refines ops :
  Forall op_ok ops -> sync_ops ops < max_sync ->
  run configs ops (new_handle configs) = lanes_run configs ops new_lanes.
Proof.
  intros Hops Hs. apply (run_related ops 0); [done|lia| |apply new_related].
  change (sync_count _) with 0. lia.
Qed.

End Refinement.

(** ** Two slaves *)

Definition example_configs : list SlaveConfig :=
  [ClassifyOutputPdoSize 86; ClassifyOutputPdoSize 336].
Definition example_message (bus i first : Z) : MotorMessage := mkMsg bus (make_pack i 8 [first]).
Definition example_ops : list QueueOp :=
  [OpMessage (example_message 0 1 0); OpMessage (example_message 65537 7 0);
   OpSynchronized [example_message 0 2 0; example_message 1 3 0];
   OpMessage (example_message 0 4 0); OpCycle; OpCycle; OpCycle; OpCycle].

Lemma ethercat_queue_refines_witness :
  (Forall op_ok example_ops /\ sync_ops example_ops < max_sync) /\
  run example_configs example_ops (new_handle example_configs) =
  lanes_run example_configs example_ops new_lanes.
Proof.
  assert (Forall classified example_configs) as Hc.
  { repeat (apply list.Forall_cons; split; [eexists; reflexivity|]). constructor. }
  assert (forall b i, 0 <= b < 65538 -> 0 <= i < 8 -> message_ok (example_message b i 0)) as Hm.
  { intros b i Hb Hi. split; [unfold int32; cbn; lia|]. split_and!; cbn; try lia; try reflexivity; try (split; lia).
    repeat (apply list.Forall_cons; split; [split; lia|]). constructor. }
  assert (Forall op_ok example_ops) as Hops.
  { unfold example_ops. repeat first [exact I | apply Hm; lia | constructor]. }
  assert (sync_ops example_ops < max_sync) as Hs by reflexivity.
  split; [by split|].
  apply (ethercat_queue_refines example_configs Hc); [cbn; lia|exact Hops|exact Hs].
Defined.

(** The synchronised batch leaves its bus in a cycle of its own. *)
Example example_run :
  map (fmap (map (fun m => (Types.bus_idx m, id (mdata m))))) (run example_configs example_ops (new_handle example_configs))
  = [Some [(0, 1); (1, 3); (65537, 7)]; Some [(0, 2)]; Some [(0, 4)]; None].
Proof. vm_compute. reflexivity. Qed.

(** A control command that waits for its cycle is replaced by whatever is sent to
    the same motor next, a parameter query included; the query itself is not. *)
Example query_replaces_command :
  let command := example_message 0 1 0 in
  let query := example_message 0 1 224 in
  let sent ops := map (fmap (map (fun m => byte_at (data (mdata m)) 0)))
                    (run example_configs ops (new_handle example_configs)) in
  sent [OpMessage command; OpMessage query; OpCycle; OpCycle] = [Some [224]; None] /\
  sent [OpMessage query; OpMessage command; OpCycle; OpCycle] = [Some [224; 0]; None].
Proof. vm_compute. split; reflexivity. Qed.
