(* ===== verification/EthercatHandle.v ===== *)
(** * EthercatHandle: the exchange cycle of the EtherCAT master

    plugins/adapter/ethercat/ethercat_handle.cc over the send queue of
    [EthercatQueue], and the check of the I/O map's size in
    ethercat_base_handle.cc.  What the EtherCAT library answers (the working counter
    of a cycle, the states of the slaves, the outcome of a reconfiguration) is an
    input of each step; what goes out on the wire is an event. *)
From stdpp Require Import base list numbers option gmap.
From Stdlib Require Import ZArith Lia.
From S2P Require Import Prelude Types EthercatBase EthercatQueue.
#[local] Open Scope Z_scope.
#[local] Open Scope cint_scope.

(** ** The size of the I/O map *)
Section IoMap.
(** The limits the library is built with. *)
Context (EC_MAXSLAVE : Z) (EC_MAXSM : nat).

(** The fields of [ec_slavet] that the check reads; [SM] holds the lengths. *)
Record Descriptor := mkDescriptor {
  SMtype : list Z;     (* uint8 *)
  SM : list Z;         (* uint16 SMlength *)
  mbx_l : Z;           (* uint16 *)
  mbx_rl : Z           (* uint16 *)
}.

Definition kEthercatMaxIoMapSize : Z := 1048576.

Definition CheckedAdd (value total : Z) : option Z :=
  if SIZE_MAX - value <? total then None else Some (total + value).

(** The loop over the sync managers of a slave. *)
Record Sums := mkSums { upper_bound : Z; has_outputs : bool; has_inputs : bool; has_pdo : bool }.

Definition sm_step (d : Descriptor) (sums : Sums) (sm : nat) : option Sums :=
  let type := byte_at (SMtype d) sm in
  if 4 <? type then None
  else if negb (type =? 3) && negb (type =? 4) then Some sums
  else
    let length := byte_at (SM d) sm in
    if length =? 0 then None
    else
      total ← CheckedAdd length (upper_bound sums);
      Some (mkSums total (has_outputs sums || (type =? 3)) (has_inputs sums || (type =? 4)) true).

Fixpoint fold_option {S A} (f : S -> A -> option S) (s : S) (l : list A) : option S :=
  match l with
  | [] => Some s
  | a :: l => s ← f s a; fold_option f s l
  end.

Definition slave_step (sums : Sums) (d : Descriptor) : option Sums :=
  sums ← fold_option (sm_step d) (mkSums (upper_bound sums) false false (has_pdo sums)) (seq 0 EC_MAXSM);
  let alignment_bytes := Z.b2z (has_outputs sums) + Z.b2z (has_inputs sums) in
  let mailbox_status := if negb (mbx_l d =? 0) || negb (mbx_rl d =? 0) then 1 else 0 in
  total ← CheckedAdd alignment_bytes (upper_bound sums);
  total ← CheckedAdd mailbox_status total;
  if kEthercatMaxIoMapSize <? total then None
  else Some (mkSums total (has_outputs sums) (has_inputs sums) (has_pdo sums)).

(** [slavelist] holds the descriptors of the slaves [1 .. slavecount]. *)
Definition ComputeEthercatIoMapUpperBound (slavecount : Z) (slavelist : list Descriptor)
    : option Z :=
  if (slavecount <=? 0) || (EC_MAXSLAVE <=? slavecount) then None
  else
    sums ← fold_option slave_step (mkSums 0 false false false) slavelist;
    if negb (has_pdo sums) || (upper_bound sums =? 0) then None else Some (upper_bound sums).

Definition IsEthercatMappedSizeValid (mapped_bytes capacity : Z) : bool :=
  (0 <? mapped_bytes) && (mapped_bytes <=? capacity).
End IoMap.

(** ** The state of the master *)

Definition EC_STATE_NONE : Z := 0.
Definition EC_STATE_PRE_OP : Z := 2.
Definition EC_STATE_SAFE_OP : Z := 4.
Definition EC_STATE_OPERATIONAL : Z := 8.
Definition EC_STATE_ACK : Z := 16.
Definition EC_STATE_ERROR : Z := 16.
Definition kWkcErrorPeriod : Z := 100.
Definition kWkcErrorMax : Z := 20.

Record Device := mkDevice { dstate : Z; islost : bool; group : Z }.

(** The fields of [EthercatHandle] that a cycle uses; [queue] is its base class,
    [devices] the slave list of the library's context, whose first group is
    [current_group_]. *)
Record Master := mkMaster {
  queue : Handle;
  running : bool;
  in_operational : bool;
  slaves_operational : bool;
  docheckstate : bool;
  wkc : Z;
  expected_wkc : Z;
  wkc_error_count : Z;
  wkc_error_iteration : Z;
  devices : list Device
}.
Definition current_group : Z := 0.

Definition with_queue (h : Handle) (m : Master) : Master :=
  mkMaster h (running m) (in_operational m) (slaves_operational m) (docheckstate m) (wkc m)
    (expected_wkc m) (wkc_error_count m) (wkc_error_iteration m) (devices m).
Definition with_link (r i s : bool) (m : Master) : Master :=
  mkMaster (queue m) r i s (docheckstate m) (wkc m) (expected_wkc m) (wkc_error_count m)
    (wkc_error_iteration m) (devices m).
Definition with_wkc (w count iteration : Z) (m : Master) : Master :=
  mkMaster (queue m) (running m) (in_operational m) (slaves_operational m) (docheckstate m) w
    (expected_wkc m) count iteration (devices m).
Definition with_devices (check : bool) (ds : list Device) (m : Master) : Master :=
  mkMaster (queue m) (running m) (in_operational m) (slaves_operational m) check (wkc m)
    (expected_wkc m) (wkc_error_count m) (wkc_error_iteration m) ds.

Definition Ok (m : Master) : bool := running m && in_operational m.

(** The log level of the queue is the only other thing it changes. *)
Definition DegradedHandler (m : Master) : Master := with_link (running m) false false m.

Definition RequestStop (m : Master) : Master := with_link false false (slaves_operational m) m.

Inductive Event :=
| Sent (outputs : list (option (list Z)))
| Received (messages : MotorMessages)
| Requested (slave : nat) (state : Z).

(** ** [Send] *)
Definition Send (enqueue : Handle -> Handle) (m : Master) : Master :=
  if negb (running m) then m
  else if (length (devices m) =? 0)%nat then m
  else with_queue (enqueue (queue m)) m.

(** ** [CheckState] *)

(** What the library does for one slave that is not operational: the result of
    [reconfigure], the state it finds, the result of [recover], and whether the
    master was stopped meanwhile (a watchdog that cannot be restored stops it). *)
Record Reaction := mkReaction {
  reconfigured : Z;
  found_state : Z;
  recovered : bool;
  stops : bool
}.

(** One round of the loop over the slaves: the device afterwards, the master, the
    flag [all_operational] and the state written to the slave. *)
Definition check_device (slave : nat) (reaction : Reaction) (device : Device)
    (all_operational : bool) (m : Master) : Device * bool * Master * list Event :=
  if negb (group device =? current_group) then (device, all_operational, m, [])
  else if dstate device =? EC_STATE_OPERATIONAL
  then (mkDevice (dstate device) false (group device), all_operational, m, [])
  else
    let m := if in_operational m then DegradedHandler m else m in
    let m' := if stops reaction then RequestStop m else m in
    if dstate device =? EC_STATE_SAFE_OP + EC_STATE_ERROR then
      let state := EC_STATE_SAFE_OP + EC_STATE_ACK in
      (mkDevice state (islost device) (group device), false, m, [Requested slave state])
    else if dstate device =? EC_STATE_SAFE_OP then
      let state := EC_STATE_OPERATIONAL in
      (mkDevice state (islost device) (group device), false, m, [Requested slave state])
    else if EC_STATE_NONE <? dstate device then
      (mkDevice (dstate device)
         (if EC_STATE_PRE_OP <=? reconfigured reaction then false else islost device)
         (group device), false, m', [])
    else
      let state := found_state reaction in
      (mkDevice state
         (if state =? EC_STATE_NONE then negb (recovered reaction) else islost device)
         (group device), false, if state =? EC_STATE_NONE then m' else m, []).

Fixpoint check_devices (slave : nat) (reactions : list Reaction) (ds : list Device)
    (all_operational : bool) (m : Master) : list Device * bool * Master * list Event :=
  match ds, reactions with
  | d :: ds, reaction :: reactions =>
      if running m then
        let '(d, all, m, ev) := check_device slave reaction d all_operational m in
        let '(ds, all, m, ev') := check_devices (S slave) reactions ds all m in
        (d :: ds, all, m, ev ++ ev')
      else (d :: ds, all_operational, m, [])
  | _, _ => (ds, all_operational, m, [])
  end.

(** [states] are the slaves' states that [read_state] has found. *)
Definition CheckState (state_result : Z) (states : list Z) (reactions : list Reaction)
    (m : Master) : Master * list Event :=
  if negb (running m) then (m, [])
  else
    let ds := zip_with (fun s d => mkDevice s (islost d) (group d)) states (devices m) in
    let all_operational := (EC_STATE_NONE <? state_result) && negb (length (devices m) =? 0)%nat in
    let m := if negb all_operational && in_operational m then DegradedHandler m else m in
    let '(ds, all_operational, m, ev) := check_devices 1 reactions ds all_operational m in
    (with_devices (negb all_operational) ds
       (with_link (running m) (in_operational m) all_operational m), ev).

(** ** [ExchangeOnce] *)

(** [received]: the working counter of the cycle.  [inputs]: the slaves' input
    areas after it.  [stopped]: whether another thread has stopped the master while
    the frame was on the wire. *)
Definition ExchangeOnce (received : Z) (inputs : list (option (list Z))) (stopped : bool)
    (m : Master) : Master * list Event :=
  if negb (running m) then (m, [])
  else
    let configs := slave_configs (queue m) in
    let was_operational := in_operational m in
    let '(frame, h) :=
      if was_operational then
        let (f, h) := PrepareNextFrame (length configs) (queue m) in (default [] f, h)
      else ([], queue m) in
    let m := with_queue h m in
    let sent := Sent (WriteOutputs configs (output_sizes configs) frame) in
    let m := if stopped then RequestStop m else m in
    let bad_wkc := (received <? expected_wkc m) || (expected_wkc m <=? 0) in
    let m := if kWkcErrorPeriod <=? wkc_error_iteration m then with_wkc received 0 0 m
             else with_wkc received (wkc_error_count m) (wkc_error_iteration m) m in
    if bad_wkc && negb was_operational
    then (with_link (running m) (in_operational m) false m, [sent])
    else
      let count := if bad_wkc then wkc_error_count m + 1 else wkc_error_count m in
      let m := with_wkc received count (wkc_error_iteration m + 1) m in
      if bad_wkc then
        (if kWkcErrorMax <=? wkc_error_count m then DegradedHandler m else m, [sent])
      else
        let m := if negb was_operational && running m && slaves_operational m
                 then with_wkc received 0 0 (with_link (running m) true (slaves_operational m) m)
                 else m in
        if Ok m then (m, [sent; Received (DecodeInputs configs inputs (length configs))])
        else (m, [sent]).

(** ** Runs *)

Inductive MasterOp :=
| Submit (m : MotorMessage)
| SubmitList (ms : MotorMessages)
| SubmitSynchronized (ms : MotorMessages)
| Check_ (state_result : Z) (states : list Z) (reactions : list Reaction)
| Exchange (received : Z) (inputs : list (option (list Z))) (stopped : bool)
| Stop.

Definition master_step (op : MasterOp) (m : Master) : Master * list Event :=
  match op with
  | Submit msg => (Send (QueueMessage msg) m, [])
  | SubmitList ms => (Send (QueueMessages ms) m, [])
  | SubmitSynchronized ms => (Send (QueueSynchronizedMessages ms) m, [])
  | Check_ result states reactions => CheckState result states reactions m
  | Exchange received inputs stopped => ExchangeOnce received inputs stopped m
  | Stop => (RequestStop m, [])
  end.

Fixpoint master_run (ops : list MasterOp) (m : Master) : Master * list Event :=
  match ops with
  | [] => (m, [])
  | op :: ops =>
      let (m, ev) := master_step op m in
      let (m, ev') := master_run ops m in (m, ev ++ ev')
  end.

(** The master that [Initialize] leaves behind: running, and not operational until a
    cycle has confirmed the link. *)
Definition new_master (configs : list SlaveConfig) (expected : Z) (ds : list Device) : Master :=
  mkMaster (new_handle configs) true false true false 0 expected 0 0 ds.

(** ** The link *)

(** A slave that does not stand in the way of operation. *)
Definition device_ok (d : Device) : bool :=
  negb (group d =? current_group) || (dstate d =? EC_STATE_OPERATIONAL).

(** A check that finds every slave of the group operational. *)
Definition verdict (groups : list Z) (state_result : Z) (states : list Z) : bool :=
  (EC_STATE_NONE <? state_result) && negb (length groups =? 0)%nat &&
  forallb (fun '(s, g) => device_ok (mkDevice s false g)) (zip states groups).

(** [m'] differs from [m] in the link's flags only. *)
Definition link_only (m m' : Master) : Prop :=
  m' = with_link (running m') (in_operational m') (slaves_operational m') m.

Lemma link_only_trans m1 m2 m3 : link_only m1 m2 -> link_only m2 m3 -> link_only m1 m3.
Proof. unfold link_only. intros -> ->. by destruct m1. Qed.

Lemma link_only_refl m : link_only m m.
Proof. by destruct m. Qed.

Lemma check_device_spec slave r d all m :
  let '(d', all', m', ev) := check_device slave r d all m in
  link_only m m' /\ group d' = group d /\ all' = all && device_ok d /\
  in_operational m' = in_operational m && device_ok d /\
  (running m = true -> stops r = false \/ device_ok d = true -> running m' = true).
Proof.
  unfold check_device, device_ok.
  destruct (group d =? current_group); cbn [negb orb].
  2: { rewrite !andb_true_r. split_and!; try done. apply link_only_refl. }
  destruct (dstate d =? EC_STATE_OPERATIONAL).
  { rewrite !andb_true_r. split_and!; try done. apply link_only_refl. }
  rewrite !andb_false_r.
  set (m1 := if in_operational m then DegradedHandler m else m).
  assert (link_only m m1 /\ in_operational m1 = false /\ running m1 = running m) as (Hl & Hi & Hr).
  { subst m1. destruct (in_operational m) eqn:E; [done|]. split_and!; try done. apply link_only_refl. }
  assert (link_only m (if stops r then RequestStop m1 else m1) /\
          in_operational (if stops r then RequestStop m1 else m1) = false) as [Hl' Hi'].
  { destruct (stops r); [|done]. split; [|done]. by eapply link_only_trans. }
  clearbody m1.
  assert (forall m', m' = m1 \/ m' = (if stops r then RequestStop m1 else m1) ->
    link_only m m' /\ in_operational m' = false /\
    (running m = true -> stops r = false \/ false = true -> running m' = true)) as Hm.
  { intros m' [-> | ->]; split_and!; try done; intros Hrm [Hs|?]; try done; [|rewrite Hs]; by rewrite Hr. }
  repeat case_match; simplify_eq; cbn [group]; split_and!; try done;
    first [apply Hm; by left|apply Hm; by right].
Qed.

Lemma check_devices_spec ds : forall slave reactions all m,
  length reactions = length ds -> running m = true ->
  let '(ds', all', m', ev) := check_devices slave reactions ds all m in
  link_only m m' /\ map group ds' = map group ds /\ length ds' = length ds /\
  all' = all && forallb device_ok ds /\
  in_operational m' = in_operational m && forallb device_ok ds /\
  (Forall (fun r => stops r = false) reactions \/ forallb device_ok ds = true -> running m' = true).
Proof.
  induction ds as [|d ds IH]; intros slave reactions all m Hlen Hr; destruct reactions as [|r reactions]; try done.
  { cbn. rewrite !andb_true_r. split_and!; try done. apply link_only_refl. }
  cbn [check_devices]. rewrite Hr.
  pose proof (check_device_spec slave r d all m) as Hd.
  destruct (check_device slave r d all m) as [[[d' all'] m'] ev].
  destruct Hd as (Hl & Hg & -> & Hi & Hr').
  injection Hlen as Hlen. cbn [forallb]. rewrite !andb_assoc, <- Hi.
  destruct (running m') eqn:Erun.
  - pose proof (IH (S slave) reactions (all && device_ok d) m' Hlen Erun) as H.
    destruct (check_devices _ _ _ _ _) as [[[ds' all''] m''] ev'].
    destruct H as (Hl' & Hg' & Hlen' & -> & Hi' & Hr'').
    split_and!; [by eapply link_only_trans|cbn; by rewrite Hg, Hg'|cbn; by rewrite Hlen'|done|done|].
    intros H. apply Hr''. destruct H as [H|[_ H]%andb_prop]; [left; by inversion H|by right].
  - assert (device_ok d = false) as Hdf.
    { destruct (device_ok d); [|done]. specialize (Hr' Hr (or_intror eq_refl)). congruence. }
    rewrite Hi, Hdf, !andb_false_r, !andb_false_l.
    assert (stops r = true) as Hst.
    { destruct (stops r); [done|]. specialize (Hr' Hr (or_introl eq_refl)). congruence. }
    destruct ds as [|d2 ds]; destruct reactions as [|r2 reactions]; try done; cbn [check_devices]; rewrite ?Erun.
    all: split_and!; try done; [cbn; by rewrite Hg|by rewrite Hi, Hdf, andb_false_r|].
    all: intros [H|H]; [inversion H; congruence|done].
Qed.

(** ** One step of the link *)

Lemma forallb_zip_states states : forall ds,
  forallb device_ok (zip_with (fun s d => mkDevice s (islost d) (group d)) states ds) =
  forallb (fun '(s, g) => device_ok (mkDevice s false g)) (zip states (map group ds)).
Proof.
  induction states as [|s states IH]; intros [|d ds]; try done. cbn. by rewrite IH.
Qed.

Lemma zip_groups states : forall ds, length states = length ds ->
  map group (zip_with (fun s d => mkDevice s (islost d) (group d)) states ds) = map group ds /\
  length (zip_with (fun s d => mkDevice s (islost d) (group d)) states ds) = length ds.
Proof.
  induction states as [|s states IH]; intros [|d ds] H; try done. injection H as H. cbn.
  destruct (IH ds H) as [-> ->]. done.
Qed.

(** What a step leaves alone. *)
Record Same (m m' : Master) : Prop := {
  same_expected : expected_wkc m' = expected_wkc m;
  same_groups : map group (devices m') = map group (devices m);
  same_configs : slave_configs (queue m') = slave_configs (queue m)
}.

Lemma CheckState_spec result states reactions m :
  running m = true -> length states = length (devices m) -> length reactions = length (devices m) ->
  let v := verdict (map group (devices m)) result states in
  let (m', ev) := CheckState result states reactions m in
  Same m m' /\ queue m' = queue m /\ wkc_error_count m' = wkc_error_count m /\
  wkc_error_iteration m' = wkc_error_iteration m /\
  slaves_operational m' = v /\ in_operational m' = in_operational m && v /\
  (Forall (fun r => stops r = false) reactions \/ v = true -> running m' = true).
Proof.
  intros Hr Hs Hre. cbv zeta. unfold CheckState. rewrite Hr. cbn [negb]. unfold verdict.
  rewrite length_map, <- forallb_zip_states.
  destruct (zip_groups states (devices m) Hs) as [Hzg Hzl].
  set (ds := zip_with _ states (devices m)) in *. clearbody ds.
  set (all := (EC_STATE_NONE <? result) && negb (length (devices m) =? 0)%nat).
  set (m1 := if negb all && in_operational m then DegradedHandler m else m).
  assert (link_only m m1 /\ running m1 = true /\ in_operational m1 = in_operational m && all) as (Hl & Hr1 & Hi1).
  { subst m1. destruct all; cbn [negb andb]; [rewrite andb_true_r; split_and!; try done; apply link_only_refl|].
    rewrite andb_false_r. destruct (in_operational m) eqn:E; [done|]. split_and!; try done. apply link_only_refl. }
  clearbody m1. pose proof (check_devices_spec ds 1 reactions all m1 ltac:(lia) Hr1) as H.
  destruct (check_devices 1 reactions ds all m1) as [[[ds' all'] m'] ev].
  destruct H as (Hl' & Hg' & Hlen' & -> & Hi' & Hr').
  pose proof (link_only_trans _ _ _ Hl Hl') as Hlm. unfold link_only in Hlm. rewrite Hlm. cbn.
  rewrite Hi', Hi1, andb_assoc.
  split; [split; cbn; [done|by rewrite Hg', Hzg|done]|]. split_and!; try done.
  intros [H|H]; apply Hr'; [by left|right]. by apply andb_prop in H as [_ ->].
Qed.

Definition valid_wkc (expected received : Z) : bool := (expected <=? received) && (0 <? expected).

Lemma bad_wkc_valid expected received :
  (received <? expected) || (expected <=? 0) = negb (valid_wkc expected received).
Proof. unfold valid_wkc. lia. Qed.

(** The counters at the start of the evaluation of a cycle. *)
Definition window (m : Master) : Z * Z :=
  if kWkcErrorPeriod <=? wkc_error_iteration m then (0, 0)
  else (wkc_error_count m, wkc_error_iteration m).

Definition zero_image (image : list (option (list Z))) : Prop :=
  forall area, In (Some area) image -> Forall (eq 0) area.

Definition idle_image (m : Master) : list (option (list Z)) :=
  WriteOutputs (slave_configs (queue m)) (output_sizes (slave_configs (queue m))) [].

Lemma idle_image_zero m : zero_image (idle_image m).
Proof.
  intros area H. unfold idle_image, WriteOutputs in H. apply list_elem_of_In in H.
  apply elem_of_lookup_imap in H as (i & o & H & _). destruct o as [o|]; [|done].
  cbn in H. rewrite lookup_nil in H. injection H as ->. by apply Forall_replicate.
Qed.

(** A cycle while the link is not confirmed. *)
Lemma exchange_down received inputs stopped m :
  running m = true -> in_operational m = false ->
  let v := valid_wkc (expected_wkc m) received in
  let (m', ev) := ExchangeOnce received inputs stopped m in
  Same m m' /\ queue m' = queue m /\ running m' = negb stopped /\
  slaves_operational m' = v && slaves_operational m /\
  in_operational m' = negb stopped && v && slaves_operational m /\
  (in_operational m' = true -> wkc_error_count m' = 0 /\ wkc_error_iteration m' = 0) /\
  exists rest, ev = Sent (idle_image m) :: rest /\
    Forall (fun e => exists ms, e = Received ms) rest.
Proof.
  intros Hr Hi. cbv zeta. unfold ExchangeOnce, idle_image. rewrite Hr, Hi, bad_wkc_valid. cbn [negb].
  destruct m as [q r i s0 d w e c it ds]. cbn in Hr, Hi. subst r i.
  cbn [with_queue expected_wkc queue].
  destruct stopped; cbn; destruct (valid_wkc e received); cbn;
    destruct (kWkcErrorPeriod <=? it); cbn; destruct s0; cbn;
    (split_and!; try done; eexists; (split; [reflexivity|]); repeat constructor; by eexists).
Qed.

(** A cycle on a confirmed link. *)
Lemma exchange_up received inputs stopped m :
  running m = true -> in_operational m = true ->
  let v := valid_wkc (expected_wkc m) received in
  let (count, iteration) := window m in
  let (f, h) := PrepareNextFrame (length (slave_configs (queue m))) (queue m) in
  let (m', ev) := ExchangeOnce received inputs stopped m in
  queue m' = h /\ running m' = negb stopped /\ expected_wkc m' = expected_wkc m /\
  map group (devices m') = map group (devices m) /\
  wkc_error_count m' = count + Z.b2z (negb v) /\ wkc_error_iteration m' = iteration + 1 /\
  (slaves_operational m' = true -> slaves_operational m = true) /\
  in_operational m' = negb stopped && (v || (wkc_error_count m' <? kWkcErrorMax)) /\
  (in_operational m' = true -> slaves_operational m' = slaves_operational m) /\
  exists rest,
    ev = Sent (WriteOutputs (slave_configs (queue m)) (output_sizes (slave_configs (queue m))) (default [] f)) :: rest /\
    Forall (fun e => exists ms, e = Received ms) rest.
Proof.
  intros Hr Hi. unfold ExchangeOnce, window. rewrite Hr, Hi. cbn [negb]. cbv zeta.
  destruct m as [q r i s0 d w e c it ds]. cbn in Hr, Hi. subst r i.
  cbn. destruct (PrepareNextFrame _ q) as [f h]. cbn.
  destruct stopped; cbn; rewrite !bad_wkc_valid; destruct (valid_wkc e received); cbn;
    destruct (kWkcErrorPeriod <=? it); cbn; rewrite ?(Z.leb_antisym _ kWkcErrorMax), ?Z.add_0_r;
    repeat match goal with |- context [?a <? kWkcErrorMax] => destruct (a <? kWkcErrorMax) eqn:?; cbn end;
    (split_and!; try done; eexists; (split; [reflexivity|]); repeat constructor; by eexists).
Qed.

(** ** The link over a run *)
Section Link.
Context (configs : list SlaveConfig) (expected : Z) (ds : list Device).

Abbreviation groups := (map group ds).

(** The library reports a state and an outcome for every slave. *)
Definition master_op_ok (op : MasterOp) : Prop :=
  match op with
  | Check_ _ states reactions => length states = length ds /\ length reactions = length ds
  | _ => True
  end.

(** The verdict of the last check, true before the first. *)
Definition last_verdict (v : bool) (op : MasterOp) : bool :=
  match op with Check_ result states _ => verdict groups result states | _ => v end.
Definition is_valid_cycle (op : MasterOp) : bool :=
  match op with Exchange received _ _ => valid_wkc expected received | _ => false end.
Definition not_stop (op : MasterOp) : bool := match op with Stop => false | _ => true end.

(** [v]: the last verdict; [seen]: whether a cycle was valid; [going]: whether
    nobody has stopped the master. *)
Record Linked (v seen going : bool) (m : Master) : Prop := {
  li_expected : expected_wkc m = expected;
  li_groups : map group (devices m) = groups;
  li_configs : slave_configs (queue m) = configs;
  li_running : running m = true ->
    going = true /\ (slaves_operational m = true -> v = true) /\
    (in_operational m = true -> slaves_operational m = true /\ seen = true);
  li_stopped : running m = false -> in_operational m = false;
  li_counts : in_operational m = true ->
    0 <= wkc_error_count m < kWkcErrorMax /\ 0 <= wkc_error_iteration m <= kWkcErrorPeriod
}.

Lemma linked_devices v seen going m : Linked v seen going m -> length (devices m) = length ds.
Proof. intros H. rewrite <- (length_map group), (li_groups _ _ _ _ H). apply length_map. Qed.

Lemma linked_new : Linked true false true (new_master configs expected ds).
Proof. by split. Qed.

Lemma linked_queue v seen going h m :
  slave_configs h = slave_configs (queue m) -> Linked v seen going m -> Linked v seen going (with_queue h m).
Proof. intros Hh [? ? Hc ? ? ?]. split; try done. cbn. by rewrite Hh. Qed.

Lemma linked_stop v seen going m : Linked v seen going m -> Linked v seen false (RequestStop m).
Proof. intros [? ? ? ? ? ?]. by split. Qed.

Lemma pack_batches_configs k batches : forall h,
  slave_configs (foldl (PackBatchIntoSegmentsLocked k) h batches) = slave_configs h.
Proof.
  induction batches as [|b batches IH]; intros h; [done|]. cbn. rewrite IH.
  unfold PackBatchIntoSegmentsLocked. destruct (messages b); [done|]. by destruct (synchronized b).
Qed.

Lemma prepare_configs k h : slave_configs (snd (PrepareNextFrame k h)) = slave_configs h.
Proof.
  unfold PrepareNextFrame, FlushPendingMessagesLocked.
  assert (forall h', slave_configs (snd (match send_frames h' with
    | [] => (None, h')
    | q :: frames => (Some (frame q), with_frames frames (queued_frame_count h' - 1) h') end)) =
    slave_configs h') as Hp by (intros h'; by destruct (send_frames h')).
  rewrite Hp. destruct (pending_batches h); [done|].
  destruct (_ <? _); cbn [with_frames with_pending slave_configs]; by rewrite pack_batches_configs.
Qed.

Lemma queueing_configs h msg ms :
  slave_configs (QueueMessage msg h) = slave_configs h /\
  slave_configs (QueueMessages ms h) = slave_configs h /\
  slave_configs (QueueSynchronizedMessages ms h) = slave_configs h.
Proof.
  unfold QueueMessages, QueueSynchronizedMessages, AppendPendingMessagesLocked.
  split_and!; [done|..]; destruct ms; try done; by destruct (_ && _).
Qed.

Lemma linked_send v seen going q m :
  (forall h, slave_configs (q h) = slave_configs h) -> Linked v seen going m ->
  Linked v seen going (Send q m).
Proof.
  intros Hq H. unfold Send. destruct (running m); [|done]. cbn [negb].
  destruct (length (devices m) =? 0)%nat; [done|]. by apply linked_queue.
Qed.

Lemma linked_check v seen going result states reactions m :
  length states = length ds -> length reactions = length ds -> Linked v seen going m ->
  Linked (verdict groups result states) seen going (fst (CheckState result states reactions m)).
Proof.
  intros Hs Hre H. destruct (running m) eqn:Hr.
  2: { unfold CheckState. rewrite Hr. destruct H. split; try done. cbn. congruence. }
  pose proof (linked_devices _ _ _ _ H) as Hlen.
  pose proof (CheckState_spec result states reactions m Hr ltac:(lia) ltac:(lia)) as Hc. cbv zeta in Hc.
  destruct (CheckState result states reactions m) as [m' ev]. cbn [fst].
  destruct Hc as ([He Hg Hcf] & Hq & Hcn & Hit & Hso & Hio & Hrun).
  destruct H as [H1 H2 H3 H4 H5 H6]. rewrite H2 in *. destruct (H4 Hr) as (Hgo & Hv & Hi).
  split; [by rewrite He|done|by rewrite Hcf| | |].
  - intros _. split; [done|]. rewrite Hso. split; [done|]. rewrite Hio.
    intros [Him ->]%andb_prop. split; [done|]. by apply Hi.
  - intros Hr'. rewrite Hio. destruct (verdict groups result states) eqn:Ev; [|apply andb_false_r].
    rewrite Hrun in Hr' by by right. done.
  - rewrite Hio, Hcn, Hit. intros [Him _]%andb_prop. by apply H6.
Qed.

Lemma linked_exchange v seen going received inputs stopped m :
  Linked v seen going m ->
  Linked v (seen || valid_wkc expected received) (negb stopped && going)
    (fst (ExchangeOnce received inputs stopped m)).
Proof.
  intros H. destruct (running m) eqn:Hr.
  2: { unfold ExchangeOnce. rewrite Hr. destruct H. split; try done. cbn. congruence. }
  destruct H as [H1 H2 H3 H4 H5 H6]. destruct (H4 Hr) as (Hgo & Hv & Hi).
  destruct (in_operational m) eqn:Ei.
  - pose proof (exchange_up received inputs stopped m Hr Ei) as He. cbv zeta in He.
    pose proof (prepare_configs (length (slave_configs (queue m))) (queue m)) as Hpc.
    unfold window in He. destruct (H6 eq_refl) as [Hcn Hit].
    destruct (PrepareNextFrame _ _) as [f h], (ExchangeOnce received inputs stopped m) as [m' ev]. cbn [fst snd] in *.
    assert (forall count iteration, 0 <= count < kWkcErrorMax -> 0 <= iteration < kWkcErrorPeriod ->
      queue m' = h -> running m' = negb stopped -> expected_wkc m' = expected_wkc m ->
      map group (devices m') = map group (devices m) ->
      wkc_error_count m' = count + Z.b2z (negb (valid_wkc (expected_wkc m) received)) ->
      wkc_error_iteration m' = iteration + 1 ->
      (slaves_operational m' = true -> slaves_operational m = true) ->
      in_operational m' = negb stopped && (valid_wkc (expected_wkc m) received || (wkc_error_count m' <? kWkcErrorMax)) ->
      (in_operational m' = true -> slaves_operational m' = slaves_operational m) ->
      Linked v (seen || valid_wkc expected received) (negb stopped && going) m') as Hall.
    { intros count iteration Hc1 Hi1 Hq Hrun Hex Hgr Hec Hei Hsl Hop Hss.
      split; [by rewrite Hex|by rewrite Hgr|by rewrite Hq, Hpc| | |].
      - intros Hr'. rewrite Hr' in Hrun. rewrite <- Hrun, Hgo. split; [done|].
        split; [by intros ?%Hsl%Hv|]. intros Ho. rewrite Hss by done.
        destruct (Hi eq_refl) as [-> ->]. done.
      - rewrite Hrun, Hop. by intros ->.
      - rewrite Hop. intros [_ Ho]%andb_prop. rewrite Hei, Hec.
        destruct (valid_wkc (expected_wkc m) received) eqn:Ev; cbn [negb Z.b2z orb] in *.
        + lia.
        + rewrite Hec in Ho. apply Z.ltb_lt in Ho. cbn [Z.b2z] in Ho. lia. }
    destruct (Z.leb_spec kWkcErrorPeriod (wkc_error_iteration m));
      destruct He as (? & ? & ? & ? & ? & ? & ? & ? & ? & _);
      [eapply (Hall 0 0)|eapply (Hall (wkc_error_count m) (wkc_error_iteration m))]; try done; lia.
  - pose proof (exchange_down received inputs stopped m Hr Ei) as He. cbv zeta in He.
    destruct (ExchangeOnce received inputs stopped m) as [m' ev]. cbn [fst].
    destruct He as ([Hex Hgr Hcf] & Hq & Hrun & Hso & Hop & Hcn & _). rewrite H1 in *.
    split; [done|by rewrite Hgr|by rewrite Hcf| | |].
    + intros Hr'. rewrite Hr' in Hrun. rewrite <- Hrun, Hgo. split; [done|]. rewrite Hso.
      split; [intros [_ Hs]%andb_prop; by apply Hv|]. rewrite Hop.
      intros [[_ ->]%andb_prop ->]%andb_prop. by rewrite orb_true_r.
    + rewrite Hrun, Hop. by intros ->.
    + intros Ho. destruct (Hcn Ho) as [-> ->]. unfold kWkcErrorMax, kWkcErrorPeriod. lia.
Qed.

Definition going_after (going : bool) (op : MasterOp) : bool :=
  going && match op with Stop | Exchange _ _ true => false | _ => true end.

Lemma linked_step v seen going op m :
  master_op_ok op -> Linked v seen going m ->
  Linked (last_verdict v op) (seen || is_valid_cycle op) (going_after going op) (fst (master_step op m)).
Proof.
  intros Hop H. unfold going_after. destruct op as [msg|ms|ms|result states reactions|received inputs stopped|];
    cbn [master_step fst last_verdict is_valid_cycle]; rewrite ?orb_false_r, ?andb_true_r, ?andb_false_r.
  - apply linked_send; [|done]. intros h. by destruct (queueing_configs h msg []).
  - apply linked_send; [|done]. intros h. by destruct (queueing_configs h (mkMsg 0 zero_pack) ms) as (_ & ? & _).
  - apply linked_send; [|done]. intros h. by destruct (queueing_configs h (mkMsg 0 zero_pack) ms) as (_ & _ & ?).
  - destruct Hop. by apply (linked_check v).
  - apply (linked_exchange _ _ _ received inputs stopped) in H. rewrite andb_comm. by destruct stopped.
  - by apply (linked_stop v seen going).
Qed.

Lemma linked_run ops : forall v seen going m,
  Forall master_op_ok ops -> Linked v seen going m ->
  Linked (foldl last_verdict v ops) (seen || existsb is_valid_cycle ops) (foldl going_after going ops)
    (fst (master_run ops m)).
Proof.
  induction ops as [|op ops IH]; intros v seen going m Hops H; cbn [foldl existsb master_run].
  { by rewrite orb_false_r. }
  apply list.Forall_cons in Hops as [Hop Hops]. pose proof (linked_step _ _ _ op m Hop H) as Hs.
  destruct (master_step op m) as [m' ev]. cbn [fst] in Hs.
  specialize (IH _ _ _ m' Hops Hs). destruct (master_run ops m') as [m'' ev']. cbn [fst] in *.
  by rewrite orb_assoc.
Qed.

(** C7: nothing but zeros goes out on a link that is not confirmed.  In every run of
    submissions, cycles, state checks and stops, a cycle sends an image that is not
    all zero only while the master is operational, and it leaves the queue as it is
    otherwise; and it is operational only if it was never stopped, some cycle had a
    valid working counter, and the last state check found every slave operational. *)
Theorem exchange_gate ops received inputs stopped :
  Forall master_op_ok ops ->
  let m := fst (master_run ops (new_master configs expected ds)) in
  let (m', ev) := ExchangeOnce received inputs stopped m in
  (Ok m = true ->
     foldl going_after true ops = true /\ existsb is_valid_cycle ops = true /\
     foldl last_verdict true ops = true) /\
  (Ok m = false ->
     queue m' = queue m /\ forall image, In (Sent image) ev -> zero_image image).
Proof.
  intros Hops. pose proof (linked_run ops _ _ _ _ Hops linked_new) as [H1 H2 H3 H4 H5 H6].
  cbv zeta. set (m := fst (master_run ops _)) in *. clearbody m. unfold Ok.
  assert (running m = false -> ExchangeOnce received inputs stopped m = (m, [])) as Hns.
  { intros Hr. unfold ExchangeOnce. by rewrite Hr. }
  pose proof (exchange_down received inputs stopped m) as Hd. cbv zeta in Hd.
  destruct (ExchangeOnce received inputs stopped m) as [m' ev]. split.
  - intros [Hr Hi]%andb_prop. destruct (H4 Hr) as (? & Hv & Hs). destruct (Hs Hi) as [Hso Hseen]. auto.
  - intros Hok. destruct (running m) eqn:Hr.
    + destruct (Hd eq_refl Hok) as (_ & Hq & _ & _ & _ & _ & rest & -> & Hrest). split; [done|].
      intros image [[= <-]|Hin]; [apply idle_image_zero|].
      rewrite List.Forall_forall in Hrest. by destruct (Hrest _ Hin).
    + injection (Hns eq_refl) as -> ->. done.
Qed.

(** ** Outage and recovery *)

Definition bad_cycle (op : MasterOp) : bool :=
  match op with Exchange received _ false => negb (valid_wkc expected received) | _ => false end.

(** The bad cycles in a row that the link still stands. *)
Definition patience (m : Master) : Z :=
  let count := wkc_error_count m in
  let iteration := wkc_error_iteration m in
  if kWkcErrorPeriod <? iteration + (kWkcErrorMax - count)
  then (kWkcErrorPeriod - iteration) + kWkcErrorMax else kWkcErrorMax - count.

Lemma patience_bound v seen going m :
  Linked v seen going m -> in_operational m = true -> 1 <= patience m < 2 * kWkcErrorMax.
Proof.
  intros H Hi. destruct (li_counts _ _ _ _ H Hi) as [Hc Ht]. unfold patience.
  destruct (Z.ltb_spec kWkcErrorPeriod (wkc_error_iteration m + (kWkcErrorMax - wkc_error_count m)));
    unfold kWkcErrorMax, kWkcErrorPeriod in *; lia.
Qed.

Lemma bad_cycle_step v seen going op m :
  bad_cycle op = true -> Linked v seen going m -> running m = true ->
  let m' := fst (master_step op m) in
  running m' = true /\
  (in_operational m' = true -> in_operational m = true /\ patience m' = patience m - 1).
Proof.
  intros Hbad H Hr. destruct op as [| | | |received inputs stopped|]; try done. cbn [bad_cycle] in Hbad.
  destruct stopped; [done|]. apply negb_true_iff in Hbad. cbn [master_step].
  rewrite <- (li_expected _ _ _ _ H) in Hbad.
  destruct (in_operational m) eqn:Ei.
  - destruct (li_counts _ _ _ _ H Ei) as [Hc Ht].
    pose proof (exchange_up received inputs false m Hr Ei) as He. cbv zeta in He. rewrite Hbad in He.
    unfold window in He. destruct (Z.leb_spec kWkcErrorPeriod (wkc_error_iteration m)) as [Hle|Hlt];
      destruct (PrepareNextFrame _ _) as [f h], (ExchangeOnce received inputs false m) as [m' ev]; cbn [fst];
      destruct He as (_ & Hrun & _ & _ & Hcn & Hit & _ & Hop & _);
      (split; [done|]); intros Ho; (split; [done|]); rewrite Ho in Hop; cbn [negb andb orb] in Hop;
      symmetry in Hop; apply Z.ltb_lt in Hop;
      unfold patience; rewrite Hcn, Hit; cbn [negb Z.b2z];
      unfold kWkcErrorMax, kWkcErrorPeriod in *;
      repeat match goal with |- context [?a <? ?b] => destruct (Z.ltb_spec a b) end; lia.
  - pose proof (exchange_down received inputs false m Hr Ei) as He. cbv zeta in He. rewrite Hbad in He.
    destruct (ExchangeOnce received inputs false m) as [m' ev]. cbn [fst].
    destruct He as (_ & _ & Hrun & _ & Hop & _). split; [done|]. rewrite Hop. done.
Qed.

Lemma bad_cycles ops : forall v seen going m,
  Forall (fun op => bad_cycle op = true) ops -> Linked v seen going m -> running m = true ->
  let m' := fst (master_run ops m) in
  running m' = true /\
  (in_operational m' = true -> in_operational m = true /\ Z.of_nat (length ops) < patience m).
Proof.
  induction ops as [|op ops IH]; intros v seen going m Hops H Hr; cbn [master_run].
  { cbn. split; [done|]. intros Hi. split; [done|]. pose proof (patience_bound _ _ _ _ H Hi). lia. }
  apply list.Forall_cons in Hops as [Hop Hops].
  assert (master_op_ok op) as Hok by by destruct op.
  pose proof (linked_step _ _ _ op m Hok H) as Hs.
  destruct (bad_cycle_step _ _ _ op m Hop H Hr) as [Hr' Hp].
  destruct (master_step op m) as [m' ev]. cbn [fst] in *.
  destruct (IH _ _ _ m' Hops Hs Hr') as [Hr'' Hp'].
  destruct (master_run ops m') as [m'' ev'']. cbn [fst] in *. split; [done|].
  intros Hi. destruct (Hp' Hi) as [Hi' Hlt]. destruct (Hp Hi') as [Him Hpat].
  split; [done|]. cbn [length]. lia.
Qed.

(** A check that finds all well and a valid cycle bring the link up again. *)
Lemma link_up v seen going result states reactions received inputs m :
  Linked v seen going m -> running m = true ->
  length states = length ds -> length reactions = length ds ->
  verdict groups result states = true -> valid_wkc expected received = true ->
  Ok (fst (master_run [Check_ result states reactions; Exchange received inputs false] m)) = true.
Proof.
  intros H Hr Hs Hre Hv Hw. cbn [master_run master_step].
  pose proof (linked_devices _ _ _ _ H) as Hlen.
  pose proof (CheckState_spec result states reactions m Hr ltac:(lia) ltac:(lia)) as Hc. cbv zeta in Hc.
  destruct (CheckState result states reactions m) as [m1 ev1].
  destruct Hc as ([He Hg Hcf] & Hq & Hcn & Hit & Hso & Hio & Hrun).
  rewrite (li_groups _ _ _ _ H) in *. rewrite Hv in Hso.
  assert (running m1 = true) as Hr1 by (apply Hrun; by right).
  rewrite (li_expected _ _ _ _ H) in He. unfold Ok.
  destruct (in_operational m1) eqn:Ei.
  - pose proof (exchange_up received inputs false m1 Hr1 Ei) as Hx. cbv zeta in Hx. rewrite He, Hw in Hx.
    destruct (window m1), (PrepareNextFrame _ _), (ExchangeOnce received inputs false m1) as [m2 ev2]. cbn [fst].
    destruct Hx as (_ & -> & _ & _ & _ & _ & _ & -> & _). done.
  - pose proof (exchange_down received inputs false m1 Hr1 Ei) as Hx. cbv zeta in Hx. rewrite He, Hw in Hx.
    destruct (ExchangeOnce received inputs false m1) as [m2 ev2]. cbn [fst].
    destruct Hx as (_ & _ & -> & _ & -> & _). by rewrite Hso.
Qed.

(** C8: outage and recovery.  Whatever has happened, 39 cycles in a row without a
    valid working counter bring the link down, without stopping the master; then one
    state check that finds every slave operational and one valid cycle bring it up
    again. *)
Theorem outage_and_recovery ops outage :
  Forall master_op_ok ops -> Forall (fun op => bad_cycle op = true) outage -> 39 <= Z.of_nat (length outage) ->
  let m := fst (master_run ops (new_master configs expected ds)) in
  running m = true ->
  let m' := fst (master_run outage m) in
  running m' = true /\ Ok m' = false /\
  forall result states reactions received inputs,
    length states = length ds -> length reactions = length ds ->
    verdict groups result states = true -> valid_wkc expected received = true ->
    Ok (fst (master_run [Check_ result states reactions; Exchange received inputs false] m')) = true.
Proof.
  intros Hops Hout Hlen. cbv zeta. intros Hr.
  pose proof (linked_run ops _ _ _ _ Hops linked_new) as H.
  set (m := fst (master_run ops _)) in *. clearbody m.
  destruct (bad_cycles outage _ _ _ m Hout H Hr) as [Hr' Hp].
  assert (Forall master_op_ok outage) as Hok.
  { eapply Forall_impl; [exact Hout|]. by intros []. }
  pose proof (linked_run outage _ _ _ m Hok H) as H'.
  split; [done|]. split.
  - unfold Ok. destruct (in_operational (fst (master_run outage m))) eqn:Ei; [|apply andb_false_r]. exfalso.
    destruct (Hp eq_refl) as [Him Hlt].
    pose proof (patience_bound _ _ _ _ H Him). unfold kWkcErrorMax in *. lia.
  - intros. by eapply link_up.
Qed.
End Link.

(** ** The cycles and the lanes *)

(** What a run asks of the send queue: the accepted submissions, and a cycle for
    each exchange on a confirmed link. *)
Fixpoint queue_ops (ops : list MasterOp) (m : Master) : list QueueOp :=
  match ops with
  | [] => []
  | op :: ops =>
      let rest := queue_ops ops (fst (master_step op m)) in
      let accepts := running m && negb (length (devices m) =? 0)%nat in
      match op with
      | Submit msg => if accepts then OpMessage msg :: rest else rest
      | SubmitList ms => if accepts then OpMessages ms :: rest else rest
      | SubmitSynchronized ms => if accepts then OpSynchronized ms :: rest else rest
      | Exchange _ _ _ => if Ok m then OpCycle :: rest else rest
      | Check_ _ _ _ | Stop => rest
      end
  end.

(** What the slaves read in each cycle on a confirmed link. *)
Definition read_images (configs : list SlaveConfig) (events : list Event) : list MotorMessages :=
  omap (fun e => match e with
                 | Sent image => Some (DecodeInputs configs image (length configs))
                 | _ => None
                 end) events.

Fixpoint confirmed_reads (configs : list SlaveConfig) (ops : list MasterOp) (m : Master)
    : list MotorMessages :=
  match ops with
  | [] => []
  | op :: ops =>
      let (m', ev) := master_step op m in
      (if Ok m then read_images configs ev else []) ++ confirmed_reads configs ops m'
  end.

Lemma read_images_received configs rest :
  Forall (fun e => exists ms, e = Received ms) rest -> read_images configs rest = [].
Proof. induction 1 as [|e rest [ms ->] _ IH]; [done|]. exact IH. Qed.

Lemma read_images_requests result states reactions m configs :
  length states = length (devices m) -> length reactions = length (devices m) ->
  read_images configs (snd (CheckState result states reactions m)) = [].
Proof.
  intros _ _. unfold CheckState. destruct (running m); [|done]. cbn [negb].
  set (ds := zip_with _ _ _). set (all := _ && _). set (m1 := if negb all && _ then _ else m).
  clearbody ds all m1.
  assert (forall slave, read_images configs (snd (check_devices slave reactions ds all m1)) = []) as H.
  { revert ds all m1. induction reactions as [|r reactions IH]; intros [|d ds] all m1 slave; cbn [check_devices]; try done.
    destruct (running m1); [|done].
    destruct (check_device slave r d all m1) as [[[d' all'] m'] ev] eqn:E.
    assert (read_images configs ev = []) as Hev.
    { unfold check_device in E. repeat case_match; simplify_eq; done. }
    specialize (IH ds all' m' (S slave)).
    destruct (check_devices (S slave) reactions ds all' m') as [[[ds' all''] m''] ev']. cbn [snd] in *.
    unfold read_images in *. by rewrite omap_app, Hev, IH. }
  specialize (H 1%nat). by destruct (check_devices 1 reactions ds all m1) as [[[ds' all'] m'] ev].
Qed.

Section Cycles.
Context (configs : list SlaveConfig) (expected : Z) (ds : list Device) (Hc : Forall classified configs)
        (Hn : Z.of_nat (length configs) <= 32767).

(** A slave that gets no frame reads no message. *)
Lemma wire_idle : wire configs [] = [].
Proof.
  unfold wire, DecodeInputs. generalize (seq 0 (length configs)).
  induction l as [|s l IH]; [done|]. cbn [flat_map]. rewrite IH, app_nil_r.
  unfold DecodeSlave, WriteOutputs. destruct (configs !! s) as [c|] eqn:Es; [|done].
  rewrite list_lookup_imap. unfold output_sizes. rewrite list_lookup_fmap, Es. cbn.
  destruct (bus_count c =? 0)%nat; [done|]. destruct (format_packet (format c)); [|done].
  apply DecodePacketInputs_zeros.
Qed.

Lemma reads_run ops : forall v seen going m,
  Forall (master_op_ok ds) ops -> Linked configs expected ds v seen going m ->
  confirmed_reads configs ops m = map (default []) (run configs (queue_ops ops m) (queue m)).
Proof.
  induction ops as [|op ops IH]; intros v seen going m Hops H; [done|].
  apply list.Forall_cons in Hops as [Hop Hops]. cbn [confirmed_reads queue_ops].
  pose proof (linked_step _ _ _ _ _ _ op m Hop H) as Hs.
  destruct (master_step op m) as [m' ev] eqn:Es. cbn [fst] in *. specialize (IH _ _ _ m' Hops Hs).
  pose proof (li_configs _ _ _ _ _ _ _ H) as Hcf. pose proof (linked_devices _ _ _ _ _ _ _ H) as Hlen.
  destruct op as [msg|ms|ms|result states reactions|received inputs stopped|]; cbn [master_step] in Es.
  1-3: injection Es as <- <-; replace (if Ok m then read_images configs [] else []) with (@nil MotorMessages)
         by (by destruct (Ok m)); rewrite IH; unfold Send; destruct (running m); [|done]; cbn [negb andb];
       by destruct (length (devices m) =? 0)%nat.
  - destruct Hop as [Hl1 Hl2].
    pose proof (read_images_requests result states reactions m configs ltac:(lia) ltac:(lia)) as Hri.
    destruct (running m) eqn:Hr.
    + pose proof (CheckState_spec result states reactions m Hr ltac:(lia) ltac:(lia)) as Hck. cbv zeta in Hck.
      rewrite Es in Hck, Hri. destruct Hck as (_ & Hq & _). cbn [snd] in Hri. rewrite IH, Hq, Hri.
      by destruct (Ok m).
    + unfold CheckState in Es. rewrite Hr in Es. injection Es as <- <-. rewrite IH. by destruct (Ok m).
  - unfold Ok in *. destruct (running m) eqn:Hr; cbn [andb].
    + destruct (in_operational m) eqn:Ei.
      * pose proof (exchange_up received inputs stopped m Hr Ei) as Hx. cbv zeta in Hx. rewrite Es in Hx.
        destruct (window m). rewrite Hcf in Hx. cbn [run].
        destruct (PrepareNextFrame _ _) as [f h]. destruct Hx as (Hq & _ & _ & _ & _ & _ & _ & _ & _ & rest & -> & Hrest).
        cbn [map]. rewrite IH, Hq. f_equal.
        change (read_images configs (?e :: rest)) with
          (DecodeInputs configs (WriteOutputs configs (output_sizes configs) (default [] f)) (length configs)
             :: read_images configs rest).
        rewrite read_images_received by done. cbn [app]. f_equal.
        destruct f as [f|]; [done|]. apply wire_idle.
      * pose proof (exchange_down received inputs stopped m Hr Ei) as Hx. cbv zeta in Hx. rewrite Es in Hx.
        destruct Hx as (_ & Hq & _). by rewrite IH, Hq.
    + unfold ExchangeOnce in Es. rewrite Hr in Es. injection Es as <- <-. done.
  - injection Es as <- <-. rewrite IH. by destruct (Ok m).
Qed.

(** The messages a run submits are messages the C types can hold. *)
Definition submits_ok (op : MasterOp) : Prop :=
  match op with
  | Submit msg => message_ok msg
  | SubmitList ms | SubmitSynchronized ms => Forall message_ok ms
  | _ => True
  end.

Lemma queue_ops_ok ops : forall m, Forall submits_ok ops -> Forall op_ok (queue_ops ops m).
Proof.
  induction ops as [|op ops IH]; intros m H; [constructor|].
  apply list.Forall_cons in H as [Hop H]. specialize (IH (fst (master_step op m)) H). cbn [queue_ops].
  destruct op; try done;
    repeat match goal with |- context [if ?b then _ else _] => destruct b end; try done; by constructor.
Qed.

(** The synchronised submissions of a run. *)
Definition sync_submissions (ops : list MasterOp) : Z :=
  Z.of_nat (length (List.filter (fun op => match op with SubmitSynchronized _ => true | _ => false end) ops)).

Lemma queue_ops_sync ops : forall m, sync_ops (queue_ops ops m) <= sync_submissions ops.
Proof.
  unfold sync_submissions. induction ops as [|op ops IH]; intros m; [done|].
  specialize (IH (fst (master_step op m))).
  destruct op; cbn [queue_ops List.filter length];
    repeat match goal with |- context [if ?b then _ else _] => destruct b end; cbn [sync_ops]; lia.
Qed.

(** Every cycle of every run on a confirmed link puts the next groups of the lanes on
    the wire. *)
Lemma cycles_refine_lanes ops :
  Forall (master_op_ok ds) ops -> Forall submits_ok ops -> sync_submissions ops < max_sync ->
  confirmed_reads configs ops (new_master configs expected ds) =
  map (default [])
    (lanes_run configs (queue_ops ops (new_master configs expected ds)) new_lanes).
Proof.
  intros Hops Hsub Hsync. rewrite (reads_run ops true false true) by (done || apply linked_new).
  f_equal. apply (run_related configs Hc Hn _ 0); [by apply queue_ops_ok|done| |by apply new_related].
  pose proof (queue_ops_sync ops (new_master configs expected ds)).
  change (sync_count _) with 0. lia.
Qed.

End Cycles.

(** ** One slave *)

Definition one_slave : list SlaveConfig := [ClassifyOutputPdoSize 86].
Definition one_device : list Device := [mkDevice EC_STATE_OPERATIONAL false 0].
Definition bad (n : nat) : list MasterOp := replicate n (Exchange 0 [] false).
Definition all_well : MasterOp := Check_ 8 [EC_STATE_OPERATIONAL] [mkReaction 0 0 false false].

Lemma exchange_gate_witness :
  let ops := [Submit (example_message 0 1 0); all_well; Exchange 3 [] false] in
  Forall (master_op_ok one_device) ops /\
  Ok (fst (master_run ops (new_master one_slave 3 one_device))) = true /\
  foldl (last_verdict one_device) true ops = true.
Proof.
  cbv zeta.
  assert (Forall (master_op_ok one_device) [Submit (example_message 0 1 0); all_well; Exchange 3 [] false]) as Hops.
  { repeat first [exact I | constructor]. }
  pose proof (exchange_gate one_slave 3 one_device _ 3 [] false Hops) as H. cbv zeta in H.
  split; [exact Hops|]. split; [reflexivity|].
  destruct (ExchangeOnce 3 [] false _) as [m' ev]. apply H. reflexivity.
Defined.

(** The nineteen bad cycles of one window and the twenty of the next. *)
Lemma outage_and_recovery_witness :
  let start := [all_well; Exchange 3 [] false] in
  let m' := fst (master_run (bad 39) (fst (master_run start (new_master one_slave 3 one_device)))) in
  Ok (fst (master_run start (new_master one_slave 3 one_device))) = true /\
  Ok m' = false /\ Ok (fst (master_run [all_well; Exchange 3 [] false] m')) = true.
Proof.
  cbv zeta. split; [reflexivity|].
  destruct (outage_and_recovery one_slave 3 one_device [all_well; Exchange 3 [] false] (bad 39))
    as (_ & Hdown & Hup).
  - repeat first [exact I | constructor].
  - apply Forall_replicate. reflexivity.
  - cbn. lia.
  - reflexivity.
  - split; [exact Hdown|]. apply Hup; reflexivity.
Defined.

(** Thirty-eight bad cycles that straddle the end of a window are not enough. *)
Example straddling_window :
  let start := [all_well; Exchange 3 [] false] ++ replicate 81 (Exchange 3 [] false) in
  map (fun n => Ok (fst (master_run (bad n) (fst (master_run start (new_master one_slave 3 one_device))))))
    [38; 39]%nat = [true; false].
Proof. vm_compute. reflexivity. Qed.

(** ** The size of the I/O map *)
Section IoMapSize.
Context (EC_MAXSLAVE : Z) (EC_MAXSM : nat) (Hsm : Z.of_nat EC_MAXSM <= 65536).

Definition descriptor_ok (d : Descriptor) : Prop :=
  forall sm, 0 <= byte_at (SM d) sm < 65536 /\ 0 <= byte_at (SMtype d) sm < 256.

(** A sync manager for process data, and what it adds. *)
Definition is_pdo (d : Descriptor) (sm : nat) : bool :=
  (byte_at (SMtype d) sm =? 3) || (byte_at (SMtype d) sm =? 4).
Definition sm_valid (d : Descriptor) (sm : nat) : bool :=
  (byte_at (SMtype d) sm <=? 4) && negb (is_pdo d sm && (byte_at (SM d) sm =? 0)).
Definition sm_size (d : Descriptor) (sm : nat) : Z := if is_pdo d sm then byte_at (SM d) sm else 0.
Definition of_type (n : Z) (d : Descriptor) (sm : nat) : bool := byte_at (SMtype d) sm =? n.

Definition sum (f : nat -> Z) (l : list nat) : Z := foldr (fun sm n => f sm + n) 0 l.

(** The bytes a slave may take: its process data, one byte of alignment for each
    direction it has, and the mailbox status. *)
Definition slave_size (d : Descriptor) : Z :=
  let sms := seq 0 EC_MAXSM in
  sum (sm_size d) sms + Z.b2z (existsb (of_type 3 d) sms) + Z.b2z (existsb (of_type 4 d) sms) +
  (if negb (mbx_l d =? 0) || negb (mbx_rl d =? 0) then 1 else 0).
Definition slave_valid (d : Descriptor) : bool := forallb (sm_valid d) (seq 0 EC_MAXSM).
Definition slave_pdo (d : Descriptor) : bool := existsb (is_pdo d) (seq 0 EC_MAXSM).
Definition map_size (ds : list Descriptor) : Z := foldr (fun d n => slave_size d + n) 0 ds.

Lemma sum_bounds d l : descriptor_ok d -> 0 <= sum (sm_size d) l <= 65535 * Z.of_nat (length l).
Proof.
  intros Hd. induction l as [|sm l IH]; [done|]. cbn [sum foldr length].
  unfold sm_size at 1 3. destruct (Hd sm). fold (sum (sm_size d) l). destruct (is_pdo d sm); lia.
Qed.

Lemma CheckedAdd_small a b : 0 <= a -> a + b <= SIZE_MAX -> CheckedAdd a b = Some (b + a).
Proof. intros. unfold CheckedAdd. by rewrite (proj2 (Z.ltb_ge _ _)) by lia. Qed.

Lemma sm_step_eq d sums sm :
  descriptor_ok d -> 0 <= upper_bound sums -> upper_bound sums + 65535 <= SIZE_MAX ->
  sm_step d sums sm =
  if sm_valid d sm then
    Some (mkSums (upper_bound sums + sm_size d sm) (has_outputs sums || of_type 3 d sm)
            (has_inputs sums || of_type 4 d sm) (has_pdo sums || is_pdo d sm))
  else None.
Proof.
  intros Hd H0 H1. destruct (Hd sm) as [Hl Ht].
  unfold sm_step, sm_valid, sm_size, is_pdo, of_type. rewrite Z.ltb_antisym.
  destruct (byte_at (SMtype d) sm <=? 4) eqn:E; [|done]. cbn [negb andb].
  destruct (Z.eqb_spec (byte_at (SMtype d) sm) 3) as [E3|E3], (Z.eqb_spec (byte_at (SMtype d) sm) 4) as [E4|E4];
    try lia; cbn [negb andb orb]; rewrite ?orb_false_r, ?orb_true_r.
  3: { destruct sums. cbn. by rewrite Z.add_0_r. }
  all: destruct (Z.eqb_spec (byte_at (SM d) sm) 0); [done|]; rewrite CheckedAdd_small by lia; done.
Qed.

Lemma sm_fold_eq d l : forall sums,
  descriptor_ok d -> 0 <= upper_bound sums ->
  upper_bound sums + 65535 * (Z.of_nat (length l) + 1) <= SIZE_MAX ->
  fold_option (sm_step d) sums l =
  if forallb (sm_valid d) l then
    Some (mkSums (upper_bound sums + sum (sm_size d) l) (has_outputs sums || existsb (of_type 3 d) l)
            (has_inputs sums || existsb (of_type 4 d) l) (has_pdo sums || existsb (is_pdo d) l))
  else None.
Proof.
  induction l as [|sm l IH]; intros sums Hd H0 H1; cbn [fold_option forallb sum foldr existsb].
  { rewrite Z.add_0_r, !orb_false_r. by destruct sums. }
  cbn [length] in H1. rewrite sm_step_eq by (done || lia). destruct (sm_valid d sm); [|done].
  destruct (Hd sm). assert (0 <= sm_size d sm <= 65535) by (unfold sm_size; destruct (is_pdo d sm); lia).
  cbn [mbind option_bind andb]. rewrite IH by (done || cbn [upper_bound]; lia).
  cbn [upper_bound has_outputs has_inputs has_pdo]. destruct (forallb _ l); [|done].
  rewrite !orb_assoc. unfold sum. do 2 f_equal. lia.
Qed.

Lemma slave_step_eq sums d :
  descriptor_ok d -> 0 <= upper_bound sums <= kEthercatMaxIoMapSize ->
  (fun s => (upper_bound s, has_pdo s)) <$> slave_step EC_MAXSM sums d =
  if slave_valid d && (upper_bound sums + slave_size d <=? kEthercatMaxIoMapSize)
  then Some (upper_bound sums + slave_size d, has_pdo sums || slave_pdo d) else None.
Proof.
  intros Hd H0. unfold slave_step, slave_valid, slave_pdo, slave_size, kEthercatMaxIoMapSize in *.
  pose proof (sum_bounds d (seq 0 EC_MAXSM) Hd) as Hs. rewrite length_seq in Hs.
  rewrite sm_fold_eq by (done || rewrite ?length_seq; cbn [upper_bound]; unfold SIZE_MAX; lia).
  destruct (forallb _ _); [|done]. cbn [mbind option_bind upper_bound has_outputs has_inputs has_pdo orb andb].
  set (o := existsb (of_type 3 d) _). set (i := existsb (of_type 4 d) _).
  set (b := negb (mbx_l d =? 0) || _).
  rewrite CheckedAdd_small by (unfold SIZE_MAX; destruct o, i; cbn [Z.b2z]; lia). cbn [mbind option_bind].
  rewrite CheckedAdd_small by (unfold SIZE_MAX; destruct o, i, b; cbn [Z.b2z]; lia). cbn [mbind option_bind].
  rewrite Z.ltb_antisym.
  replace (upper_bound sums + sum (sm_size d) (seq 0 EC_MAXSM) + (Z.b2z o + Z.b2z i) + (if b then 1 else 0))
    with (upper_bound sums + (sum (sm_size d) (seq 0 EC_MAXSM) + Z.b2z o + Z.b2z i + (if b then 1 else 0))) by lia.
  by destruct (_ <=? 1048576).
Qed.

Lemma slave_size_nonneg d : descriptor_ok d -> 0 <= slave_size d.
Proof.
  intros Hd. unfold slave_size. pose proof (sum_bounds d (seq 0 EC_MAXSM) Hd).
  destruct (existsb (of_type 3 d) _), (existsb (of_type 4 d) _), (negb (mbx_l d =? 0) || _);
    cbn [Z.b2z]; lia.
Qed.

Lemma map_size_nonneg ds : Forall descriptor_ok ds -> 0 <= map_size ds.
Proof.
  induction 1 as [|d ds Hd _ IH]; [done|]. cbn [map_size foldr]. fold (map_size ds).
  pose proof (slave_size_nonneg d Hd). lia.
Qed.

Lemma slaves_fold_eq ds : forall sums,
  Forall descriptor_ok ds -> 0 <= upper_bound sums <= kEthercatMaxIoMapSize ->
  (fun s => (upper_bound s, has_pdo s)) <$> fold_option (slave_step EC_MAXSM) sums ds =
  if forallb slave_valid ds && (upper_bound sums + map_size ds <=? kEthercatMaxIoMapSize)
  then Some (upper_bound sums + map_size ds, has_pdo sums || existsb slave_pdo ds) else None.
Proof.
  induction ds as [|d ds IH]; intros sums Hds H0; cbn [fold_option forallb map_size foldr existsb].
  { rewrite Z.add_0_r, orb_false_r, (proj2 (Z.leb_le _ _)) by lia. done. }
  apply list.Forall_cons in Hds as [Hd Hds]. fold (map_size ds).
  pose proof (slave_step_eq sums d Hd H0) as Hs. pose proof (slave_size_nonneg d Hd) as Hd0.
  pose proof (map_size_nonneg ds Hds) as Hm0.
  destruct (slave_step EC_MAXSM sums d) as [s|]; cbn [fmap option_fmap option_map mbind option_bind] in *.
  - destruct (slave_valid d); [|done]. cbn [andb] in *.
    destruct (Z.leb_spec (upper_bound sums + slave_size d) kEthercatMaxIoMapSize); [|done].
    injection Hs as Hu Hp. rewrite IH by (done || lia). rewrite Hu, Hp, orb_assoc, !Z.add_assoc. done.
  - destruct (slave_valid d); [|done]. cbn [andb] in *.
    destruct (Z.leb_spec (upper_bound sums + slave_size d) kEthercatMaxIoMapSize); [done|].
    rewrite (proj2 (Z.leb_gt _ _)) by lia. by rewrite andb_false_r.
Qed.

Lemma slave_pdo_size d : descriptor_ok d -> slave_valid d = true -> slave_pdo d = true -> 0 < slave_size d.
Proof.
  intros Hd Hv Hp. unfold slave_size, slave_pdo, slave_valid in *.
  apply existsb_exists in Hp as (sm & Hin & Hp).
  pose proof (sum_bounds d (seq 0 EC_MAXSM) Hd).
  assert (0 < Z.b2z (existsb (of_type 3 d) (seq 0 EC_MAXSM)) + Z.b2z (existsb (of_type 4 d) (seq 0 EC_MAXSM))).
  { unfold is_pdo in Hp. apply orb_prop in Hp as [Hp|Hp].
    - assert (existsb (of_type 3 d) (seq 0 EC_MAXSM) = true) as -> by (apply existsb_exists; eauto).
      destruct (existsb _ _); cbn [Z.b2z]; lia.
    - assert (existsb (of_type 4 d) (seq 0 EC_MAXSM) = true) as -> by (apply existsb_exists; eauto).
      destruct (existsb _ _); cbn [Z.b2z]; lia. }
  destruct (_ || _); lia.
Qed.

(** C40: the size that is set aside for the I/O map.  It is the sum over the slaves of
    their process data, a byte of alignment for each direction and a byte of mailbox
    status; it is positive and at most a megabyte, no addition wraps, and nothing is
    set aside exactly when the number of slaves is out of range, a sync manager has
    an unknown type or process data of length zero, the sum exceeds the limit, or no
    slave has process data at all. *)
Theorem io_map_bound slavecount slavelist :
  Forall descriptor_ok slavelist ->
  ComputeEthercatIoMapUpperBound EC_MAXSLAVE EC_MAXSM slavecount slavelist =
  (if (0 <? slavecount) && (slavecount <? EC_MAXSLAVE) && forallb slave_valid slavelist &&
      (map_size slavelist <=? kEthercatMaxIoMapSize) && existsb slave_pdo slavelist
   then Some (map_size slavelist) else None) /\
  forall size, ComputeEthercatIoMapUpperBound EC_MAXSLAVE EC_MAXSM slavecount slavelist = Some size ->
    0 < size <= kEthercatMaxIoMapSize.
Proof.
  intros Hds. unfold ComputeEthercatIoMapUpperBound.
  rewrite (Z.leb_antisym 0), (Z.leb_antisym slavecount), <- negb_andb.
  destruct ((0 <? slavecount) && (slavecount <? EC_MAXSLAVE)); cbn [negb andb]; [|by split].
  pose proof (slaves_fold_eq slavelist (mkSums 0 false false false) Hds) as H. cbn [upper_bound has_pdo orb] in H.
  specialize (H ltac:(unfold kEthercatMaxIoMapSize; lia)). rewrite Z.add_0_l in H.
  pose proof (map_size_nonneg slavelist Hds) as H0.
  destruct (fold_option _ _ slavelist) as [s|]; cbn [fmap option_fmap option_map mbind option_bind] in *.
  2: { destruct (forallb _ _ && _) eqn:E; [done|]. cbn [andb]. by split. }
  destruct (forallb slave_valid slavelist) eqn:Ev; [|done]. cbn [andb] in *.
  destruct (Z.leb_spec (map_size slavelist) kEthercatMaxIoMapSize) as [Hle|]; [|done].
  injection H as -> ->. cbn [andb]. destruct (existsb slave_pdo slavelist) eqn:Ep; cbn [negb orb]; [|by split].
  assert (0 < map_size slavelist) as Hpos.
  { clear -Hds Ev Ep Hsm. induction Hds as [|d ds Hd Hds IH]; [done|].
    cbn [forallb existsb map_size foldr] in *. fold (map_size ds). apply andb_prop in Ev as [Ev1 Ev2].
    pose proof (slave_size_nonneg d Hd). pose proof (map_size_nonneg ds Hds).
    apply orb_prop in Ep as [Ep|Ep]; [pose proof (slave_pdo_size d Hd Ev1 Ep)|specialize (IH Ev2 Ep)]; lia. }
  rewrite (proj2 (Z.eqb_neq _ _)) by lia. split; [done|]. intros size [= <-]. lia.
Qed.

End IoMapSize.

(** A slave with 86 bytes out and in, and one without process data. *)
Definition example_slaves : list Descriptor :=
  [mkDescriptor [1; 2; 3; 4; 0; 0; 0; 0] [128; 128; 86; 86; 0; 0; 0; 0] 128 128;
   mkDescriptor [0; 0; 0; 0; 0; 0; 0; 0] [0; 0; 0; 0; 0; 0; 0; 0] 0 0].

Lemma nth_range n l i :
  forallb (fun x => (0 <=? x) && (x <? n)) l = true -> 0 < n -> 0 <= byte_at l i < n.
Proof.
  intros H Hn. unfold byte_at. destruct (nth_in_or_default i l 0) as [Hin| ->]; [|lia].
  rewrite forallb_forall in H. specialize (H _ Hin). lia.
Qed.

Lemma descriptors_ok ds :
  forallb (fun d => forallb (fun x => (0 <=? x) && (x <? 65536)) (SM d) &&
                    forallb (fun x => (0 <=? x) && (x <? 256)) (SMtype d)) ds = true ->
  Forall descriptor_ok ds.
Proof.
  induction ds as [|d ds IH]; [constructor|]. cbn [forallb].
  intros [[H1 H2]%andb_prop H]%andb_prop. constructor; [|by apply IH].
  intros sm. split; by apply nth_range.
Qed.

Lemma io_map_bound_witness :
  ComputeEthercatIoMapUpperBound 200 8 2 example_slaves = Some 175 /\ 0 < 175 <= kEthercatMaxIoMapSize.
Proof.
  split; [reflexivity|].
  apply (io_map_bound 200 8 ltac:(lia) 2 example_slaves); [|reflexivity].
  apply descriptors_ok. reflexivity.
Defined.
