(* ===== verification/AdapterExtend.v ===== *)
(** * AdapterExtend: the configuration envelope of an adapter

    include/adapter/adapter_extend.h.  An envelope is a JSON object: its fields hold
    for every bus of the adapter, but for the reserved field ["buses"], an object
    whose keys name buses and whose values override fields for one bus.

    The JSON library is third-party code: [parse_json] is a parameter, and a [Json]
    value is what the code can observe of the library's values.  An object is the
    list of its fields in the order of [items()], each key once. *)
From stdpp Require Import base strings numbers option gmap list.
From Stdlib Require Import ZArith Lia.
From S2P Require Import Prelude CFloat.
#[local] Open Scope Z_scope.
#[local] Open Scope cint_scope.

(** ** JSON values *)

(** [number_integer] is signed and [number_unsigned] unsigned, 64 bits each;
    everything that is neither a number nor an object is [JOther]. *)
Inductive Json :=
| JObject (fields : list (string * Json))
| JInteger (z : Z)
| JUnsigned (z : Z)
| JFloat (x : F64.t)
| JOther.

Abbreviation Object := (list (string * Json)).

Fixpoint at_ (fields : Object) (key : string) : option Json :=
  match fields with
  | [] => None
  | (k, v) :: fields => if String.eqb k key then Some v else at_ fields key
  end.

Definition contains (fields : Object) (key : string) : bool :=
  match at_ fields key with Some _ => true | None => false end.

(** [object[key] = value]: an object keeps its keys sorted. *)
Fixpoint assign (fields : Object) (key : string) (value : Json) : Object :=
  match fields with
  | [] => [(key, value)]
  | (k, v) :: fields =>
      if String.eqb k key then (k, value) :: fields
      else if String.ltb key k then (key, value) :: (k, v) :: fields
      else (k, v) :: assign fields key value
  end.

(** ** Exceptions *)

(** The exceptions of this file and of the readers of bus timings. *)
Inductive ExtendError :=
| NotAnObject | BusesNotAnObject | OverridesNotAnObject | BadBusKey | BusKeyRange | DuplicateBus
| UnsupportedField | NotAnInteger | BadRate | NotANumber | BadSamplePoint | NoSuchBus
| BadChannelCount.

Definition Result (A : Type) : Type := A + ExtendError.
Definition bind {A B} (r : Result A) (f : A -> Result B) : Result B :=
  match r with inl a => f a | inr e => inr e end.

Declare Scope extend_scope.
Delimit Scope extend_scope with extend.
Notation "x <- r ; k" := (bind r (fun x => k)) (at level 100, r at next level, right associativity) : extend_scope.
#[local] Open Scope extend_scope.

(** ** Bus keys *)

Definition chars (s : string) : list Z := map (fun a => Z.of_N (Ascii.N_of_ascii a)) (String.list_ascii_of_string s).

Definition kMaxSlave : Z := 32767.
Definition kMaxBus : Z := 255.

Definition is_digit (c : Z) : bool := (48 <=? c) && (c <=? 57).

(** The loop of [ParseUnsigned]. *)
Fixpoint accumulate (text : list Z) (accumulated : Z) : option Z :=
  match text with
  | [] => Some accumulated
  | digit :: text =>
      if (digit <? 48) || (57 <? digit) then None
      else
        let accumulated := accumulated * 10 + (digit - 48) in
        if INT_MAX <? accumulated then None else accumulate text accumulated
  end.

Definition ParseUnsigned (text : list Z) : option Z :=
  match text with
  | [] => None
  | front :: rest =>
      if (1 <? length text)%nat && (front =? 48) then None else accumulate text 0
  end.

(** [text.find(c)]: what is before the first [c] and what is after it. *)
Fixpoint split_at (c : Z) (text : list Z) : option (list Z * list Z) :=
  match text with
  | [] => None
  | x :: text => if x =? c then Some ([], text)
                 else (fun '(a, b) => (x :: a, b)) <$> split_at c text
  end.

Definition ParseBusKey (key : list Z) : Result (Z * Z) :=
  parsed <- (match split_at 58 key with
             | None =>
                 match ParseUnsigned key with
                 | Some index => inl (index ≫ 16, index .& 65535)
                 | None => inr BadBusKey
                 end
             | Some (before, after) =>
                 match split_at 58 after, ParseUnsigned before, ParseUnsigned after with
                 | None, Some slave, Some bus => inl (slave, bus)
                 | _, _, _ => inr BadBusKey
                 end
             end);
  let (slave, bus) := parsed : Z * Z in
  if (kMaxSlave <? slave) || (kMaxBus <? bus) then inr BusKeyRange else inl (slave, bus).

Definition PackBus (slave bus : Z) : Z := i32 ((slave ≪ 16) .| (bus .& 65535)).

(** ** The envelope *)

Record AdapterExtend := mkExtend {
  common_ : Object;
  bus_overrides_ : gmap Z Object;
  declared_buses_ : list (Z * Z)
}.

Definition empty_extend : AdapterExtend := mkExtend [] ∅ [].
Definition kBusesKey : string := "buses".

(** The loop over the entries of ["buses"]. *)
Fixpoint parse_buses (entries : Object) (result : AdapterExtend) : Result AdapterExtend :=
  match entries with
  | [] => inl result
  | (bus_key, overrides) :: entries =>
      match overrides with
      | JObject fields =>
          bus <- ParseBusKey (chars bus_key);
          let index := PackBus bus.1 bus.2 in
          match bus_overrides_ result !! index with
          | Some _ => inr DuplicateBus
          | None =>
              parse_buses entries
                (mkExtend (common_ result) (<[index := fields]> (bus_overrides_ result))
                   (declared_buses_ result ++ [bus]))
          end
      | _ => inr OverridesNotAnObject
      end
  end.

(** The loop over the fields of the envelope. *)
Fixpoint parse_fields (fields : Object) (result : AdapterExtend) : Result AdapterExtend :=
  match fields with
  | [] => inl result
  | (key, value) :: fields =>
      if negb (String.eqb key kBusesKey) then
        parse_fields fields
          (mkExtend (assign (common_ result) key value) (bus_overrides_ result) (declared_buses_ result))
      else
        match value with
        | JObject entries => result <- parse_buses entries result; parse_fields fields result
        | _ => inr BusesNotAnObject
        end
  end.

Section Parse.
(** [nlohmann::json::parse(text, nullptr, false)]; [None] is a discarded value. *)
Context (parse_json : string -> option Json).

Definition Parse (extend_json : string) : Result AdapterExtend :=
  if String.eqb extend_json "" then inl empty_extend
  else
    match parse_json extend_json with
    | Some (JObject fields) => parse_fields fields empty_extend
    | _ => inr NotAnObject
    end.
End Parse.

Definition Scope (extend : AdapterExtend) (slave bus : Z) : Object :=
  match bus_overrides_ extend !! PackBus slave bus with
  | None => common_ extend
  | Some overrides => foldl (fun merged '(key, value) => assign merged key value) (common_ extend) overrides
  end.

Definition DeclaredBuses (extend : AdapterExtend) : list (Z * Z) := declared_buses_ extend.
Definition BusOverride (extend : AdapterExtend) (slave bus : Z) : option Object :=
  bus_overrides_ extend !! PackBus slave bus.
Definition Common (extend : AdapterExtend) : Object := common_ extend.
Definition Empty (extend : AdapterExtend) : bool :=
  bool_decide (common_ extend = []) && bool_decide (bus_overrides_ extend = ∅).

(** ** Decimal numbers *)

(** The decimal text of a number below [10 ^ fuel]. *)
Fixpoint decimal_loop (fuel : nat) (n : Z) : list Z :=
  match fuel with
  | O => []
  | S fuel => if n <? 10 then [48 + n] else decimal_loop fuel (n / 10) ++ [48 + n mod 10]
  end.

(** An [int] has at most ten digits. *)
Definition decimal (n : Z) : list Z := decimal_loop 10 n.

Lemma decimal_loop_eq fuel n :
  decimal_loop (S fuel) n = if n <? 10 then [48 + n] else decimal_loop fuel (n / 10) ++ [48 + n mod 10].
Proof. reflexivity. Qed.

Lemma decimal_loop_more fuel n :
  0 <= n < 10 ^ Z.of_nat fuel -> (0 < fuel)%nat -> decimal_loop (S fuel) n = decimal_loop fuel n.
Proof.
  revert n. induction fuel as [|fuel IH]; intros n Hn H; [lia|].
  rewrite !(decimal_loop_eq _ n). destruct (Z.ltb_spec n 10); [done|].
  destruct fuel as [|fuel]; [cbn in Hn; lia|].
  rewrite IH; [done| |lia].
  rewrite Nat2Z.inj_succ, Z.pow_succ_r in Hn by lia.
  split; [apply Z.div_pos; lia|]. apply Z.div_lt_upper_bound; lia.
Qed.

(** Appending a digit. *)
Lemma decimal_snoc n d :
  0 < n -> 0 <= d < 10 -> n * 10 + d <= INT_MAX -> decimal (n * 10 + d) = decimal n ++ [48 + d].
Proof.
  intros Hn Hd Hmax. unfold decimal, INT_MAX in *.
  rewrite (decimal_loop_eq 9). rewrite (proj2 (Z.ltb_ge _ _)) by lia.
  replace ((n * 10 + d) / 10) with n by (rewrite Z.add_comm, Z_div_plus_full, (Z.div_small d) by lia; lia).
  replace ((n * 10 + d) mod 10) with d by (rewrite Z.add_comm, Z_mod_plus_full, (Z.mod_small d) by lia; lia).
  f_equal. symmetry. apply (decimal_loop_more 9); [cbn; lia|lia].
Qed.

Lemma decimal_digit d : 0 <= d < 10 -> decimal d = [48 + d].
Proof. intros. unfold decimal. rewrite decimal_loop_eq. by rewrite (proj2 (Z.ltb_lt _ _)) by lia. Qed.

(** A number of two digits or more is that of its front and a last digit. *)
Lemma decimal_step n :
  10 <= n <= INT_MAX -> decimal n = decimal (n / 10) ++ [48 + n mod 10].
Proof.
  intros Hn. pose proof (Z.div_mod n 10 ltac:(lia)) as E. pose proof (Z.mod_pos_bound n 10 ltac:(lia)).
  assert (1 <= n / 10) by (apply Z.div_le_lower_bound; lia).
  rewrite <- decimal_snoc by lia. f_equal. lia.
Qed.

Lemma accumulate_snoc text c : forall a,
  accumulate (text ++ [c]) a =
  match accumulate text a with
  | Some v =>
      if (c <? 48) || (57 <? c) then None
      else if INT_MAX <? v * 10 + (c - 48) then None else Some (v * 10 + (c - 48))
  | None => None
  end.
Proof.
  induction text as [|x text IH]; intros a; cbn [app accumulate]; [done|].
  destruct ((x <? 48) || (57 <? x)); [done|]. destruct (INT_MAX <? a * 10 + (x - 48)); [done|]. apply IH.
Qed.

Lemma accumulate_range text : forall a v, 0 <= a <= INT_MAX -> accumulate text a = Some v -> 0 <= v <= INT_MAX.
Proof.
  induction text as [|c text IH]; intros a v Ha H; cbn [accumulate] in H; [by injection H as <-|].
  destruct (_ || _) eqn:E1; [done|]. apply orb_false_iff in E1 as [E1 E2].
  destruct (Z.ltb_spec INT_MAX (a * 10 + (c - 48))); [done|]. eapply IH; [|done]. lia.
Qed.

(** Without a leading zero the text is the decimal of its value. *)
Lemma accumulate_decimal text : forall v,
  text <> [] -> head text <> Some 48 -> accumulate text 0 = Some v -> 1 <= v /\ text = decimal v.
Proof.
  induction text as [|c text IH] using rev_ind; intros v Hne Hz H; [done|].
  rewrite accumulate_snoc in H. destruct (accumulate text 0) as [u|] eqn:Eu; [|done].
  destruct ((c <? 48) || (57 <? c)) eqn:E1; [done|]. apply orb_false_iff in E1 as [E1 E2].
  destruct (Z.ltb_spec INT_MAX (u * 10 + (c - 48))) as [|Hle]; [done|]. injection H as <-.
  destruct text as [|x text].
  - injection Eu as <-. cbn in Hz. assert (c <> 48) by congruence.
    split; [lia|]. rewrite Z.mul_0_l, Z.add_0_l, decimal_digit by lia. cbn. f_equal. lia.
  - destruct (IH u) as [Hu ->]; [done|done|done|]. split; [lia|].
    rewrite decimal_snoc by lia. do 2 f_equal. lia.
Qed.

Lemma decimal_shape n : 0 <= n <= INT_MAX ->
  exists c rest, decimal n = c :: rest /\ (rest <> [] -> c <> 48) /\ accumulate (decimal n) 0 = Some n /\
    Forall (fun d => 48 <= d <= 57) (decimal n).
Proof.
  intros [H0 Hn]. revert n H0 Hn. refine (Zlt_0_ind _ _). intros n IH H0 Hn.
  destruct (Z.lt_ge_cases n 10) as [Hlt|Hge].
  - rewrite decimal_digit by lia. exists (48 + n), []. cbn [accumulate].
    rewrite (proj2 (Z.ltb_ge (48 + n) 48)), (proj2 (Z.ltb_ge 57 (48 + n))) by lia. cbn [orb].
    rewrite (proj2 (Z.ltb_ge INT_MAX _)) by lia.
    split_and!; try done; [f_equal; lia|]. constructor; [lia|constructor].
  - pose proof (Z.div_mod n 10 ltac:(lia)) as E. pose proof (Z.mod_pos_bound n 10 ltac:(lia)).
    rewrite (decimal_step n) by lia.
    destruct (IH (n / 10) ltac:(lia) ltac:(lia)) as (c & rest & Hd & Hc & Hacc & Hall).
    exists c, (rest ++ [48 + n mod 10]). rewrite accumulate_snoc, Hacc.
    rewrite (proj2 (Z.ltb_ge (48 + n mod 10) 48)), (proj2 (Z.ltb_ge 57 (48 + n mod 10))) by lia. cbn [orb].
    rewrite (proj2 (Z.ltb_ge INT_MAX _)) by lia.
    split_and!.
    + by rewrite Hd.
    + intros _. destruct rest as [|y rest]; [|by apply Hc]. intros ->.
      rewrite Hd in Hacc. cbn in Hacc. injection Hacc as Hacc. lia.
    + f_equal. lia.
    + apply Forall_app. split; [done|]. constructor; [lia|constructor].
Qed.

(** The code's numbers are the canonical decimals of an [int]. *)
Lemma ParseUnsigned_spec text n :
  ParseUnsigned text = Some n <-> 0 <= n <= INT_MAX /\ text = decimal n.
Proof.
  split.
  - unfold ParseUnsigned. destruct text as [|c text]; [done|].
    destruct ((1 <? length (c :: text))%nat && (c =? 48)) eqn:E; [done|]. intros H.
    pose proof (accumulate_range _ 0 n ltac:(unfold INT_MAX; lia) H) as Hr. split; [done|].
    destruct (Z.eqb_spec c 48) as [->|Hc].
    + destruct text; [|done]. cbn in H. by injection H as <-.
    + by apply accumulate_decimal in H as [_ ->]; [|done|cbn; congruence].
  - intros [Hn ->]. destruct (decimal_shape n Hn) as (c & rest & Hd & Hc & Hacc & _).
    unfold ParseUnsigned. rewrite Hd in *. destruct rest as [|y rest]; [done|].
    cbn [length Nat.ltb]. destruct (Z.eqb_spec c 48) as [->|]; [by destruct Hc|].
    by rewrite andb_false_r.
Qed.

(** ** Bus keys *)

Lemma split_before_none c text : split_at c text = None <-> c ∉ text.
Proof.
  induction text as [|x text IH]; cbn [split_at]; [split; [intros _; apply not_elem_of_nil|done]|].
  rewrite not_elem_of_cons. destruct (Z.eqb_spec x c) as [->|Hx]; [naive_solver|].
  rewrite fmap_None, IH. naive_solver.
Qed.

Lemma split_before_some c text : forall a b, split_at c text = Some (a, b) <-> text = a ++ c :: b /\ c ∉ a.
Proof.
  induction text as [|x text IH]; intros a b; cbn [split_at]; [split; [done|by destruct a; intros [? ?]]|].
  destruct (Z.eqb_spec x c) as [->|Hx].
  - split; [intros [= <- <-]; split; [done|apply not_elem_of_nil]|].
    intros [E Ha]. destruct a as [|y a]; [by injection E as <-|]. injection E as <- _. set_solver.
  - rewrite fmap_Some. split.
    + intros ([a' b'] & [-> Ha]%IH & [= -> ->]). split; [done|]. set_solver.
    + intros [E Ha]. destruct a as [|y a]; [injection E as -> _; done|]. injection E as <- ->.
      exists (a, b). split; [apply IH; split; [done|set_solver]|done].
Qed.

Lemma decimal_no_colon n : 0 <= n <= INT_MAX -> 58 ∉ decimal n.
Proof.
  intros Hn Hin. destruct (decimal_shape n Hn) as (_ & _ & _ & _ & _ & Hall).
  rewrite list.Forall_forall in Hall. apply Hall in Hin. lia.
Qed.

(** The runtime index of a bus. *)
Definition bus_ok (bus : Z * Z) : Prop := 0 <= bus.1 <= kMaxSlave /\ 0 <= bus.2 <= kMaxBus.

Lemma PackBus_value s b : bus_ok (s, b) -> PackBus s b = s * 65536 + b.
Proof.
  unfold PackBus, bus_ok, kMaxSlave, kMaxBus. cbn. intros [Hs Hb].
  rewrite (land_ones_pow b 65535 16), (Z.mod_small b (2 ^ 16)) by lia.
  rewrite lor_shiftl_add by lia. apply i32_small. lia.
Qed.

Lemma PackBus_inj bus bus' :
  bus_ok bus -> bus_ok bus' -> PackBus bus.1 bus.2 = PackBus bus'.1 bus'.2 -> bus = bus'.
Proof.
  destruct bus as [s b], bus' as [s' b']. intros H H'. cbn.
  rewrite !PackBus_value by done. unfold bus_ok, kMaxSlave, kMaxBus in *. cbn in *. intros E.
  f_equal; lia.
Qed.

(** The two spellings of a bus. *)
Definition spells (key : list Z) (bus : Z * Z) : Prop :=
  bus_ok bus /\
  (key = decimal bus.1 ++ [58] ++ decimal bus.2 \/ key = decimal (bus.1 * 65536 + bus.2)).

(** A bus key is accepted exactly when it is one of the two spellings of an
    encodable bus, <slave>:<bus> or the runtime index, each number in canonical
    decimal (no sign, no leading zero, no other character), and then it names that
    bus: the loop, the search for the colon, the overflow check and the split of the
    index agree with this reference, errors included. *)
Lemma bus_key_spelling (key : list Z) (bus : Z * Z) :
  ParseBusKey key = inl bus <-> spells key bus.
Proof.
  destruct bus as [s b]. unfold ParseBusKey, spells. cbn [fst snd].
  assert (forall s' b' : Z, (if (kMaxSlave <? s') || (kMaxBus <? b') then inr BusKeyRange else inl (s', b'))
                    = inl (s, b) :> Result (Z * Z) <-> s' = s /\ b' = b /\ s <= kMaxSlave /\ b <= kMaxBus) as Hif.
  { intros s' b'. destruct (Z.ltb_spec kMaxSlave s'), (Z.ltb_spec kMaxBus b'); cbn; split;
      try (intros [= -> ->]); intuition (subst; try lia; try done). }
  split.
  - destruct (split_at 58 key) as [[l r]|] eqn:Hs.
    + apply split_before_some in Hs as [-> Hl]. destruct (split_at 58 r); [done|].
      destruct (ParseUnsigned l) as [s'|] eqn:El; [|done]. destruct (ParseUnsigned r) as [b'|] eqn:Er; [|done].
      apply ParseUnsigned_spec in El as [? ->]. apply ParseUnsigned_spec in Er as [? ->]. cbn [bind].
      rewrite Hif. intros (-> & -> & ? & ?). unfold bus_ok. cbn. split; [lia|]. by left.
    + destruct (ParseUnsigned key) as [i|] eqn:Ei; [|done]. apply ParseUnsigned_spec in Ei as [Hi ->].
      cbn [bind]. rewrite (land_ones_pow i 65535 16), Z.shiftr_div_pow2, Hif by lia.
      change (2 ^ 16) with 65536. intros (<- & <- & ? & ?).
      pose proof (Z.div_mod i 65536 ltac:(lia)). pose proof (Z.mod_pos_bound i 65536 ltac:(lia)).
      unfold bus_ok. cbn [fst snd].
      split; [split; [split; [apply Z.div_pos; lia|lia]|lia]|]. right. f_equal. lia.
  - intros [Hok [->| ->]]; pose proof Hok as (Hs & Hb); unfold kMaxSlave, kMaxBus in Hs, Hb; cbn in Hs, Hb.
    + assert (INT_MAX = 2147483647) as HM by done.
      assert (split_at 58 (decimal s ++ [58] ++ decimal b) = Some (decimal s, decimal b)) as ->.
      { apply split_before_some. split; [done|]. apply decimal_no_colon. lia. }
      rewrite (proj2 (split_before_none _ _)) by (apply decimal_no_colon; lia).
      rewrite (proj2 (ParseUnsigned_spec (decimal s) s)), (proj2 (ParseUnsigned_spec (decimal b) b)) by (split; [lia|done]).
      cbn [bind]. apply Hif. unfold kMaxSlave, kMaxBus. lia.
    + assert (0 <= s * 65536 + b <= INT_MAX) by (unfold INT_MAX; lia).
      rewrite (proj2 (split_before_none _ _)) by by apply decimal_no_colon.
      rewrite (proj2 (ParseUnsigned_spec _ (s * 65536 + b))) by done. cbn [bind].
      rewrite (land_ones_pow _ 65535 16), Z.shiftr_div_pow2, Hif by lia. change (2 ^ 16) with 65536.
      rewrite Z.add_comm, Z_div_plus_full, Z_mod_plus_full, Z.div_small, Z.mod_small by lia.
      unfold kMaxSlave, kMaxBus. lia.
Qed.


(** ** Objects *)

Lemma at_assign fields key value k :
  at_ (assign fields key value) k = if String.eqb key k then Some value else at_ fields k.
Proof.
  induction fields as [|[k' v] fields IH]; cbn [assign at_]; [done|].
  destruct (String.eqb_spec k' key) as [->|Hk]; cbn [at_].
  - destruct (String.eqb_spec key k); done.
  - destruct (String.ltb key k'); cbn [at_]; [done|]. rewrite IH.
    destruct (String.eqb_spec k' k), (String.eqb_spec key k); congruence.
Qed.

Lemma at_none fields k : k ∉ fields.*1 -> at_ fields k = None.
Proof.
  induction fields as [|[k' v] fields IH]; cbn; [done|]. rewrite not_elem_of_cons. intros [Hk Hin].
  destruct (String.eqb_spec k' k); [congruence|]. by apply IH.
Qed.

(** [for (auto& [key, value] : overrides.items()) merged[key] = value] *)
Definition assign_all (object overrides : Object) : Object :=
  foldl (fun merged '(key, value) => assign merged key value) object overrides.

Lemma at_assign_all overrides : forall object k,
  NoDup overrides.*1 ->
  at_ (assign_all object overrides) k = match at_ overrides k with Some v => Some v | None => at_ object k end.
Proof.
  induction overrides as [|[key value] overrides IH]; intros object k; cbn; [done|].
  intros [Hk Hnd]%NoDup_cons. rewrite (IH (assign object key value)), at_assign by done.
  destruct (String.eqb_spec key k) as [->|]; [by rewrite at_none|done].
Qed.

(** What the library guarantees of a value: every object has each of its keys once and
    integers have 64 bits. *)
Fixpoint library_value (value : Json) : bool :=
  match value with
  | JObject fields => bool_decide (NoDup fields.*1) && forallb (fun '(_, v) => library_value v) fields
  | JInteger z => (-9223372036854775808 <=? z) && (z <? 9223372036854775808)
  | JUnsigned z => (0 <=? z) && (z <? 18446744073709551616)
  | JFloat _ | JOther => true
  end.

Lemma library_object fields :
  library_value (JObject fields) = true ->
  NoDup fields.*1 /\ forall k v, (k, v) ∈ fields -> library_value v = true.
Proof.
  cbn. intros [H1 H2]%andb_true_iff. apply bool_decide_eq_true in H1. split; [done|].
  intros k v Hin. rewrite forallb_forall in H2. apply list_elem_of_In, H2 in Hin. done.
Qed.

Lemma at_elem fields k v : at_ fields k = Some v -> (k, v) ∈ fields.
Proof.
  induction fields as [|[k' v'] fields IH]; cbn; [done|].
  destruct (String.eqb_spec k' k) as [->|]; [intros [= ->]; apply list_elem_of_here|].
  intros H. apply list_elem_of_further, IH, H.
Qed.

(** ** The envelope *)

(** The entries of ["buses"] are the overrides [parsed]. *)
Definition entry_is (entry : string * Json) (parsed : (Z * Z) * Object) : Prop :=
  ParseBusKey (chars entry.1) = inl parsed.1 /\ entry.2 = JObject parsed.2.

Definition packed (parsed : (Z * Z) * Object) : Z * Object := (PackBus parsed.1.1 parsed.1.2, parsed.2).

Definition with_common (common : Object) (e : AdapterExtend) : AdapterExtend :=
  mkExtend common (bus_overrides_ e) (declared_buses_ e).

Lemma parse_buses_spec entries : forall r r',
  parse_buses entries r = inl r' <->
  exists parsed, Forall2 entry_is entries parsed /\ NoDup (packed <$> parsed).*1 /\
    (forall i, i ∈ (packed <$> parsed).*1 -> bus_overrides_ r !! i = None) /\
    r' = mkExtend (common_ r) (list_to_map (packed <$> parsed) ∪ bus_overrides_ r)
           (declared_buses_ r ++ parsed.*1).
Proof.
  induction entries as [|[key v] entries IH]; intros r r'; cbn [parse_buses].
  - split.
    + intros [= <-]. exists []. split_and!; [constructor|constructor|intros i Hi; by apply elem_of_nil in Hi|].
      destruct r. cbn. by rewrite (left_id_L ∅ (∪)), app_nil_r.
    + intros (parsed & H & _ & _ & ->). inversion H. subst. destruct r. cbn.
      by rewrite (left_id_L ∅ (∪)), app_nil_r.
  - split.
    + destruct v as [fields| | | |]; try done. destruct (ParseBusKey (chars key)) as [bus|] eqn:Ek; [|done].
      cbn [bind]. destruct (bus_overrides_ r !! PackBus bus.1 bus.2) eqn:Eo; [done|].
      intros (parsed & HF & Hnd & Hfresh & ->)%IH. cbn in Hfresh. cbn.
      assert (PackBus bus.1 bus.2 ∉ (packed <$> parsed).*1) as Hnew.
      { intros Hin%Hfresh. by rewrite lookup_insert_eq in Hin. }
      exists ((bus, fields) :: parsed). cbn. split_and!.
      * by constructor.
      * by constructor.
      * intros i [->|Hin]%elem_of_cons; [done|]. apply Hfresh in Hin. by apply lookup_insert_None in Hin as [].
      * f_equal; [|by rewrite <- app_assoc].
        rewrite <- insert_union_l. symmetry. apply insert_union_r. by apply not_elem_of_list_to_map_1.
    + intros (parsed & HF & Hnd & Hfresh & ->). inversion HF as [|? [bus fields] ? ps [Ek Ev] HF' ]; subst.
      cbn [fst snd] in Ek, Ev. cbn in Hnd, Hfresh. subst v. rewrite Ek. cbn [bind].
      apply NoDup_cons in Hnd as [Hnew Hnd].
      rewrite (Hfresh (PackBus bus.1 bus.2)) by apply list_elem_of_here.
      apply IH. exists ps. split_and!; [done|done| |].
      * intros i Hin. cbn. apply lookup_insert_None. split; [|congruence].
        apply Hfresh. by apply list_elem_of_further.
      * cbn. f_equal; [|by rewrite <- app_assoc].
        rewrite <- insert_union_l. apply insert_union_r. by apply not_elem_of_list_to_map_1.
Qed.

(** The fields that hold for every bus. *)
Definition common_fields (fields : Object) : Object :=
  filter (fun '(key, _) => String.eqb key kBusesKey = false) fields.

Definition read_buses (fields : Object) : Result Object :=
  match at_ fields kBusesKey with
  | None => inl []
  | Some (JObject entries) => inl entries
  | Some _ => inr BusesNotAnObject
  end.

(** [parse_fields] reads ["buses"] and collects the other fields. *)
Lemma parse_fields_spec fields : forall r,
  NoDup fields.*1 ->
  parse_fields fields r =
  (entries <- read_buses fields;
   parsed <- parse_buses entries r;
   inl (with_common (assign_all (common_ r) (common_fields fields)) parsed)).
Proof.
  assert (forall common entries r,
    parse_buses entries (with_common common r) = (parsed <- parse_buses entries r; inl (with_common common parsed))) as Hwc.
  { intros common. induction entries as [|[key v] entries IH]; intros r; cbn [parse_buses]; [done|].
    destruct v as [o| | | |]; try done. destruct (ParseBusKey (chars key)) as [bus|]; [|done]. cbn [bind].
    cbn [with_common bus_overrides_ declared_buses_ common_].
    destruct (bus_overrides_ r !! _); [done|]. rewrite <- IH. done. }
  induction fields as [|[key value] fields IH]; intros r; [intros; by destruct r|]. unfold read_buses in *.
  cbn [fmap list_fmap]. intros [Hk Hnd]%NoDup_cons. cbn [fst] in Hk. cbn [parse_fields at_].
  unfold common_fields. rewrite filter_cons. destruct (String.eqb_spec key kBusesKey) as [->|Hne].
  - rewrite decide_False by done. cbn [negb]. destruct value as [entries| | | |]; try done. cbn [bind].
    destruct (parse_buses entries r) as [r'|] eqn:Ep; [|done]. cbn [bind].
    rewrite IH, at_none by done. cbn [bind parse_buses]. do 2 f_equal.
    apply parse_buses_spec in Ep as (? & _ & _ & _ & ->). done.
  - rewrite decide_True by by apply String.eqb_neq. cbn [negb]. rewrite IH by done.
    destruct (at_ fields kBusesKey) as [[entries| | | |]|]; try done; cbn [bind];
      change (mkExtend _ _ _) with (with_common (assign (common_ r) key value) r);
      rewrite Hwc; destruct (parse_buses _ r); done.
Qed.

Lemma at_common_fields fields k :
  NoDup fields.*1 ->
  at_ (common_fields fields) k = if String.eqb k kBusesKey then None else at_ fields k.
Proof.
  induction fields as [|[key v] fields IH]; [by destruct (String.eqb k _)|].
  cbn [fmap list_fmap]. intros [Hk Hnd]%NoDup_cons. unfold common_fields in *. rewrite filter_cons. cbn [fst] in Hk.
  destruct (String.eqb_spec key kBusesKey) as [->|Hne].
  - rewrite decide_False, IH by done. cbn [at_].
    destruct (String.eqb_spec k kBusesKey) as [Ek|Hk']; [done|].
    destruct (String.eqb_spec kBusesKey k); [congruence|done].
  - rewrite decide_True by by apply String.eqb_neq. cbn [at_]. rewrite IH by done.
    destruct (String.eqb_spec key k) as [->|]; [|done].
    destruct (String.eqb_spec k kBusesKey); [congruence|done].
Qed.

Lemma common_fields_nodup fields : NoDup fields.*1 -> NoDup (common_fields fields).*1.
Proof. intros H. eapply sublist_NoDup; [exact H|]. apply fmap_sublist, sublist_filter. Qed.

(** A well-formed envelope: ["buses"] is absent or an object; its keys spell distinct
    buses and its values are objects. *)
Record envelope_ok (fields entries : Object) (buses : list (Z * Z)) : Prop := {
  env_entries : at_ fields kBusesKey = Some (JObject entries) \/ (at_ fields kBusesKey = None /\ entries = []);
  env_keys : Forall2 (fun entry bus => spells (chars entry.1) bus /\ exists o, entry.2 = JObject o) entries buses;
  env_once : NoDup buses
}.

(** A field that holds for every bus. *)
Definition common_field (fields : Object) (key : string) : option Json :=
  if String.eqb key kBusesKey then None else at_ fields key.

Lemma entries_keys entries parsed :
  Forall2 entry_is entries parsed ->
  Forall2 (fun entry bus => spells (chars entry.1) bus /\ exists o, entry.2 = JObject o) entries parsed.*1.
Proof.
  intros H. apply Forall2_fmap_r. eapply Forall2_impl; [exact H|].
  intros e p [H1%bus_key_spelling H2]. by eauto.
Qed.

Lemma keys_entries entries buses :
  Forall2 (fun entry bus => spells (chars entry.1) bus /\ exists o, entry.2 = JObject o) entries buses ->
  exists parsed, Forall2 entry_is entries parsed /\ buses = parsed.*1.
Proof.
  induction 1 as [|e bus entries buses [Hk [o Ho]] _ (parsed & IH & ->)]; [by exists []|].
  exists ((bus, o) :: parsed). split; [|done]. constructor; [|done]. split; [|done].
  by apply bus_key_spelling.
Qed.

Lemma spells_ok entries buses :
  Forall2 (fun entry bus => spells (chars entry.1) bus /\ exists o, entry.2 = JObject o) entries buses ->
  Forall bus_ok buses.
Proof. intros H. induction H as [|e bus ? ? [[? _] _]]; by constructor. Qed.

(** Packing keeps distinct buses apart. *)
Lemma packed_nodup parsed :
  Forall bus_ok parsed.*1 -> NoDup (packed <$> parsed).*1 <-> NoDup parsed.*1.
Proof.
  assert (forall (p : list (Z * Z * Object)), (packed <$> p).*1 = (fun bus => PackBus bus.1 bus.2) <$> p.*1) as E.
  { intros p. rewrite <- !list_fmap_compose. done. }
  rewrite E. intros Hok. split; [apply NoDup_fmap_1|].
  intros H. induction H as [|bus buses Hin _ IH]; cbn; [constructor|].
  apply list.Forall_cons in Hok as [Hb Hok]. constructor; [|by apply IH].
  intros (bus' & Heq & Hin')%list_elem_of_fmap. rewrite list.Forall_forall in Hok.
  apply PackBus_inj in Heq; [by subst|done|by apply Hok].
Qed.

(** The text of an envelope and its fields; the empty text is the empty envelope. *)
Definition reads (parse_json : string -> option Json) (text : string) (fields : Object) : Prop :=
  (text = ""%string /\ fields = []) \/ (text <> ""%string /\ parse_json text = Some (JObject fields)).

(** What an accepted envelope holds. *)
Lemma Parse_spec parse_json text fields extend :
  reads parse_json text fields -> NoDup fields.*1 ->
  Parse parse_json text = inl extend <->
  exists entries parsed,
    envelope_ok fields entries parsed.*1 /\ Forall2 entry_is entries parsed /\
    extend = mkExtend (assign_all [] (common_fields fields)) (list_to_map (packed <$> parsed)) parsed.*1.
Proof.
  intros Hr Hnd.
  assert (Parse parse_json text = parse_fields fields empty_extend) as ->.
  { unfold Parse. destruct Hr as [[-> ->]|[Ht ->]]; [done|]. by rewrite (proj2 (String.eqb_neq _ _) Ht). }
  rewrite parse_fields_spec by done.
  split.
  - destruct (read_buses fields) as [entries|] eqn:Ee; [|done].
    cbn [bind]. destruct (parse_buses entries empty_extend) as [r|] eqn:Er; [|done]. intros [= <-].
    apply parse_buses_spec in Er as (parsed & HF & Hn & _ & ->). exists entries, parsed.
    assert (envelope_ok fields entries parsed.*1) as Hok.
    { split; [|by apply entries_keys|].
      - unfold read_buses in Ee. destruct (at_ fields kBusesKey) as [[o| | | |]|]; try done; injection Ee as <-; auto.
      - apply packed_nodup in Hn; [done|]. eapply spells_ok. by apply entries_keys. }
    split_and!; [done|done|]. unfold with_common. cbn [bus_overrides_ declared_buses_ empty_extend].
    by rewrite (right_id_L ∅ (∪)).
  - intros (entries & parsed & [Henv Hkeys Honce] & HF & ->).
    assert (read_buses fields = inl entries) as -> by (unfold read_buses; by destruct Henv as [->|[-> ->]]).
    cbn [bind].
    assert (parse_buses entries empty_extend
            = inl (mkExtend [] (list_to_map (packed <$> parsed) ∪ ∅) ([] ++ parsed.*1))) as ->.
    { apply parse_buses_spec. exists parsed. split_and!; [done| |intros i _; apply lookup_empty|reflexivity].
      apply packed_nodup; [|done]. by eapply spells_ok. }
    cbn [bind]. unfold with_common. cbn [bus_overrides_ declared_buses_ empty_extend].
    by rewrite (right_id_L ∅ (∪)).
Qed.

(** The override of a bus. *)
Lemma override_lookup entries parsed bus overrides :
  Forall2 entry_is entries parsed -> NoDup parsed.*1 -> bus_ok bus ->
  (list_to_map (packed <$> parsed) : gmap Z Object) !! PackBus bus.1 bus.2 = Some overrides <->
  exists spelled, (spelled, JObject overrides) ∈ entries /\ spells (chars spelled) bus.
Proof.
  intros HF Hnd Hbus. pose proof (spells_ok _ _ (entries_keys _ _ HF)) as Hok.
  rewrite <- elem_of_list_to_map by by apply packed_nodup.
  rewrite list_elem_of_fmap. split.
  - intros ([bus' o] & [= Hpack ->] & Hin).
    assert (bus = bus') as <-.
    { apply PackBus_inj; [done| |done]. rewrite list.Forall_forall in Hok. apply Hok, list_elem_of_fmap.
      by exists (bus', o). }
    apply list_elem_of_lookup in Hin as [i Hi].
    destruct (Forall2_lookup_r _ _ _ _ _ HF Hi) as ([key v] & He & Hk & Hv). cbn in Hv. subst v.
    exists key. split; [by eapply list_elem_of_lookup_2|]. by apply bus_key_spelling.
  - intros (key & Hin & Hs). apply list_elem_of_lookup in Hin as [i Hi].
    destruct (Forall2_lookup_l _ _ _ _ _ HF Hi) as ([bus' o] & He & Hk & Hv).
    apply bus_key_spelling in Hs. cbn [fst snd] in Hk, Hv. rewrite Hs in Hk. injection Hk as ->. injection Hv as ->.
    exists (bus', o). split; [done|]. by eapply list_elem_of_lookup_2.
Qed.

(** The parameters in force for a bus, field by field. *)
Lemma Scope_field fields entries parsed bus :
  library_value (JObject fields) = true -> envelope_ok fields entries parsed.*1 -> Forall2 entry_is entries parsed ->
  bus_ok bus ->
  let extend := mkExtend (assign_all [] (common_fields fields)) (list_to_map (packed <$> parsed)) parsed.*1 in
  (forall spelled overrides key, (spelled, JObject overrides) ∈ entries -> spells (chars spelled) bus ->
     at_ (Scope extend bus.1 bus.2) key =
     match at_ overrides key with Some value => Some value | None => common_field fields key end) /\
  ((forall entry, entry ∈ entries -> ~ spells (chars entry.1) bus) ->
     forall key, at_ (Scope extend bus.1 bus.2) key = common_field fields key).
Proof.
  intros Hlib Hok HF Hbus. pose proof (library_object _ Hlib) as [Hnd Hinner].
  unfold Scope. cbn [bus_overrides_ common_].
  assert (forall k, at_ (assign_all [] (common_fields fields)) k = common_field fields k) as Hcommon.
  { intros k. rewrite at_assign_all by by apply common_fields_nodup. rewrite at_common_fields by done.
    fold (common_field fields k). by destruct (common_field fields k). }
  split.
  - intros spelled overrides key Hin Hs.
    rewrite (proj2 (override_lookup entries parsed bus overrides HF (env_once _ _ _ Hok) Hbus)) by by exists spelled.
    fold (assign_all (assign_all [] (common_fields fields)) overrides).
    rewrite at_assign_all, Hcommon; [done|].
    destruct (env_entries _ _ _ Hok) as [Hb|[_ ->]]; [|by apply elem_of_nil in Hin].
    apply at_elem, Hinner, library_object in Hb as [_ Hb]. apply Hb, library_object in Hin as [Hin _]. done.
  - intros Hnone key. destruct (_ !! PackBus bus.1 bus.2) as [o|] eqn:Eo; [|apply Hcommon].
    apply (override_lookup entries) in Eo as (key' & Hin & Hs); [|done|apply Hok|done].
    destruct (Hnone (key', JObject o)); done.
Qed.

(** C25: the three layers of an adapter's parameters.  A text that is empty or that the
    JSON library reads as an object is accepted exactly when ["buses"] is absent or an
    object whose values are objects and whose keys spell distinct encodable buses; the
    declared buses are then those buses in order, and a field of the parameters in
    force for a bus is that of the bus's own entry, in either spelling, else the
    top-level one, ["buses"] itself being no field. *)
Theorem envelope_merge parse_json text fields :
  reads parse_json text fields -> library_value (JObject fields) = true ->
  (forall entries buses, envelope_ok fields entries buses ->
     exists extend, Parse parse_json text = inl extend /\ DeclaredBuses extend = buses) /\
  (forall extend, Parse parse_json text = inl extend ->
     exists entries, envelope_ok fields entries (DeclaredBuses extend) /\
     forall bus, bus_ok bus ->
       (forall spelled overrides key, (spelled, JObject overrides) ∈ entries -> spells (chars spelled) bus ->
          at_ (Scope extend bus.1 bus.2) key =
          match at_ overrides key with Some value => Some value | None => common_field fields key end) /\
       ((forall entry, entry ∈ entries -> ~ spells (chars entry.1) bus) ->
          forall key, at_ (Scope extend bus.1 bus.2) key = common_field fields key)).
Proof.
  intros Hr Hlib. pose proof (library_object _ Hlib) as [Hnd _].
  pose proof (Parse_spec parse_json text fields) as Hspec. split.
  - intros entries buses [Henv (parsed & HF & ->)%keys_entries Honce]. eexists. split.
    + apply Hspec; [done|done|]. exists entries, parsed. split_and!; [|done|reflexivity].
      split; [done|by apply entries_keys|done].
    + done.
  - intros extend (entries & parsed & Hok & HF & ->)%Hspec; [|done|done].
    exists entries. split; [done|]. intros bus Hbus. by apply (Scope_field fields entries).
Qed.

(** {"bitrate": 1000000, "buses": {"131077": {"bitrate": 500000}, "3:0": {}}} *)
Definition example_entries : Object :=
  [("131077", JObject [("bitrate", JUnsigned 500000)]); ("3:0", JObject [])]%string.
Definition example_fields : Object :=
  [("bitrate", JUnsigned 1000000); ("buses", JObject example_entries)]%string.
Definition example_parse (text : string) : option Json :=
  if String.eqb text "{..}" then Some (JObject example_fields) else None.

Lemma example_ok : envelope_ok example_fields example_entries [(2, 5); (3, 0)].
Proof.
  split; [by left| |by apply (bool_decide_unpack _); vm_compute].
  do 2 (apply List.Forall2_cons; [split; [apply bus_key_spelling; by vm_compute|by eexists]|]).
  apply List.Forall2_nil.
Qed.

Lemma envelope_merge_witness : exists extend,
  Parse example_parse "{..}" = inl extend /\ DeclaredBuses extend = [(2, 5); (3, 0)] /\
  at_ (Scope extend 2 5) "bitrate" = Some (JUnsigned 500000).
Proof.
  destruct (envelope_merge example_parse "{..}" example_fields) as [H1 H2];
    [right; split; [discriminate|reflexivity]|vm_compute; reflexivity|].
  destruct (H1 example_entries [(2, 5); (3, 0)] example_ok) as (extend & Hp & Hd). exists extend. split; [exact Hp|split; [exact Hd|]].
  destruct (H2 extend Hp) as (entries & [He _ _] & Hs).
  assert (entries = example_entries) as -> by (destruct He as [He|[He _]]; vm_compute in He; [injection He as <-; reflexivity|discriminate]).
  destruct (Hs (2, 5)) as [Ho _]; [unfold bus_ok, kMaxSlave, kMaxBus; cbn; lia|].
  cbn [fst snd] in Ho. rewrite (Ho "131077" [("bitrate", JUnsigned 500000)])%string; [reflexivity|apply list_elem_of_here|].
  apply bus_key_spelling. vm_compute. reflexivity.
Defined.

(** The same bus in both spellings, a leading zero, a bus beyond the range, a key with
    two colons. *)
Example bad_keys :
  Parse (fun _ => Some (JObject [("buses", JObject [("131077", JObject []); ("2:5", JObject [])])]%string)) "x"
    = inr DuplicateBus /\
  map (fun key => ParseBusKey (chars key)) ["02:5"; "2:256"; "1:2:3"; "65536"; "256"; ":"; "2147483648"]%string
    = [inr BadBusKey; inr BusKeyRange; inr BadBusKey; inl (1, 0); inr BusKeyRange; inr BadBusKey; inr BadBusKey].
Proof. by vm_compute. Qed.
