(* ===== verification/CText.v ===== *)
(** * CText: texts and the numbers in them

    What the plugins use of the C++ library on texts: lists of character codes, decimal
    and hexadecimal digits, the integers that [std::stoi] and [std::stoull] read, and
    [find] of a text in a text. *)
From stdpp Require Import base strings option list numbers.
From Stdlib Require Import ZArith Lia.
From S2P Require Import Prelude AdapterExtend.
#[local] Open Scope Z_scope.
#[local] Open Scope cint_scope.

Definition Text := list Z.

Definition is_space (c : Z) : bool := (c =? 32) || ((9 <=? c) && (c <=? 13)).

(** ** Numbers in texts *)

Definition value_of (base : Z) (digits : list Z) : Z := fold_left (fun v d => v * base + d) digits 0.

(** The digits at the front of a text, in base 10 or 16, and the rest. *)
Definition hex_digit (c : Z) : option Z :=
  if is_digit c then Some (c - 48)
  else if (65 <=? c) && (c <=? 70) then Some (c - 55)
  else if (97 <=? c) && (c <=? 102) then Some (c - 87)
  else None.
Definition decimal_digit (c : Z) : option Z := if is_digit c then Some (c - 48) else None.

Fixpoint digits_of (digit : Z -> option Z) (text : Text) : list Z * Text :=
  match text with
  | c :: rest =>
      match digit c with
      | Some d => let (ds, rest) := digits_of digit rest in (d :: ds, rest)
      | None => ([], text)
      end
  | [] => ([], [])
  end.

Definition skip_spaces : Text -> Text :=
  fix go text := match text with c :: rest => if is_space c then go rest else text | [] => [] end.

(** The sign of a number, and what is behind it. *)
Definition scan_sign (text : Text) : bool * Text :=
  match text with
  | 45 :: rest => (true, rest)
  | 43 :: rest => (false, rest)
  | _ => (false, text)
  end.

(** The [0x] in front of a hexadecimal number. *)
Definition skip_0x (text : Text) : Text :=
  match text with
  | 48 :: x :: ((c :: _) as rest) =>
      if (x .| 32 =? 120) && match hex_digit c with Some _ => true | None => false end then rest else text
  | _ => text
  end.

(** [strtol] and the like: the sign and the absolute value of the number at the front of
    a text; behind spaces and a sign, in base 16 also behind [0x]. *)
Definition scan_int (base : Z) (text : Text) : option (bool * Z) :=
  let (negative, text) := scan_sign (skip_spaces text) in
  let (ds, _) := if base =? 16 then digits_of hex_digit (skip_0x text) else digits_of decimal_digit text in
  if (length ds =? 0)%nat then None else Some (negative, value_of base ds).

(** [std::stoi]: [None] where it throws. *)
Definition stoi (base : Z) (text : Text) : option Z :=
  match scan_int base text with
  | Some (negative, v) =>
      let v := if negative then - v else v in
      if (-2147483648 <=? v) && (v <=? INT_MAX) then Some v else None
  | None => None
  end.

(** [std::stoull]: a negative number wraps around. *)
Definition stoull (base : Z) (text : Text) : option Z :=
  match scan_int base text with
  | Some (negative, v) => if SIZE_MAX <? v then None else Some (u64 (if negative then - v else v))
  | None => None
  end.

(** [std::to_string(int)]. *)
Definition int_text (n : Z) : Text := if n <? 0 then 45 :: decimal (- n) else decimal n.

(** ** Searching *)

(** The rest of a text behind a prefix. *)
Fixpoint behind (s text : Text) : option Text :=
  match s, text with
  | [], _ => Some text
  | c :: s, d :: text => if c =? d then behind s text else None
  | _, [] => None
  end.

(** [text.find(s)]: what is before the first occurrence and what is behind it. *)
Fixpoint find_text (s text : Text) : option (Text * Text) :=
  match behind s text with
  | Some rest => Some ([], rest)
  | None =>
      match text with
      | [] => None
      | c :: text => (fun '(a, b) => (c :: a, b)) <$> find_text s text
      end
  end.

(** What is in front of the first character of a set, or the whole text. *)
Fixpoint until (set : Z -> bool) (text : Text) : Text :=
  match text with
  | [] => []
  | c :: text => if set c then [] else c :: until set text
  end.

(** ** Lemmas *)

Lemma behind_app s text : behind s (s ++ text) = Some text.
Proof. induction s as [|c s IH]; cbn; [done|]. by rewrite Z.eqb_refl. Qed.

Lemma behind_ok s text rest : behind s text = Some rest <-> text = s ++ rest.
Proof.
  split; [|intros ->; apply behind_app]. revert text. induction s as [|c s IH]; intros [|d text]; cbn; try done; try congruence.
  destruct (Z.eqb_spec c d) as [->|]; [|done]. intros H. f_equal. by apply IH.
Qed.

(** The first occurrence, when [s] starts with a character that is not before it. *)
Lemma find_text_first c s a b : c ∉ a -> find_text (c :: s) (a ++ (c :: s) ++ b) = Some (a, b).
Proof.
  induction a as [|x a IH]; intros Hc.
  - cbn [app]. cbn [find_text]. change (c :: s ++ b) with ((c :: s) ++ b). by rewrite behind_app.
  - apply not_elem_of_cons in Hc as [Hx Ha]. cbn [app find_text behind].
    replace (c =? x) with false by lia. cbn [app] in IH. rewrite IH by done. done.
Qed.

(** A text of digits, of the number it spells. *)
Lemma accumulate_value text : forall a v,
  accumulate text a = Some v ->
  digits_of decimal_digit text = (map (fun c => c - 48) text, []) /\
  fold_left (fun v d => v * 10 + d) (map (fun c => c - 48) text) a = v.
Proof.
  induction text as [|c text IH]; intros a v H; cbn in *; [by injection H as ->|].
  destruct ((c <? 48) || (57 <? c)) eqn:E; [done|]. destruct (INT_MAX <? a * 10 + (c - 48)); [done|].
  destruct (IH _ _ H) as (-> & Hf). split; [|done].
  unfold decimal_digit, is_digit. by replace ((48 <=? c) && (c <=? 57)) with true by lia.
Qed.

(** A digit is neither a space nor a sign. *)
Lemma scan_digit c text : 48 <= c <= 57 -> scan_sign (skip_spaces (c :: text)) = (false, c :: text).
Proof.
  intros Hc. cbn [skip_spaces]. replace (is_space c) with false by (unfold is_space; lia).
  unfold scan_sign. destruct c as [|c|c]; [done| |done]. repeat (destruct c as [c|c|]; try done). all: lia.
Qed.

Lemma stoi_decimal n : 0 <= n <= INT_MAX -> stoi 10 (decimal n) = Some n.
Proof.
  intros Hn. destruct (decimal_shape n Hn) as (c & rest & Ed & _ & Hacc & Hall).
  destruct (accumulate_value _ _ _ Hacc) as (Hds & Hv). rewrite Ed in *. apply list.Forall_cons in Hall as [Hc _].
  unfold stoi, scan_int. rewrite scan_digit by done. change (10 =? 16) with false. cbv iota.
  rewrite Hds. cbn [map length Nat.eqb]. unfold value_of. cbn [map] in Hv. rewrite Hv.
  unfold INT_MAX in *. by replace ((-2147483648 <=? n) && (n <=? 2147483647)) with true by lia.
Qed.
