(* ===== verification/BusTiming.v ===== *)
(** * BusTiming: the bit timing of the buses, from the envelope

    plugins/adapter/gsUsb/gs_usb_timing.h, ethernet/ethernet_timing.h,
    can/can_timing.h and utils/ethercatBase/ethercat_can_timing.h.  Each plugin reads
    the same four fields into a structure of its own; they differ in the defaults, in
    the largest rate and in which buses an envelope may mention.  What they share is
    stated once below, over a record that has the members of all four. *)
From stdpp Require Import base strings numbers option gmap list.
From Stdlib Require Import ZArith Lia.
From S2P Require Import Prelude CFloat AdapterExtend.
#[local] Open Scope Z_scope.
#[local] Open Scope extend_scope.

(** ** The fields *)

(** [ChannelTiming], [GatewayCanTiming], [CanTiming]. *)
Record Timing := mkTiming {
  bitrate : Z;
  dbitrate : Z;
  sample_point : F64.t;
  dsample_point : F64.t
}.

Definition kTimingFields : list string := ["bitrate"; "sample_point"; "dbitrate"; "dsample_point"]%string.

Definition IsTimingField (key : string) : bool := existsb (fun field => String.eqb key field) kTimingFields.

(** [ReadRate] with the plugin's largest rate. *)
Definition ReadRate (max : Z) (scope : Object) (key : string) (fallback : Z) : Result Z :=
  match at_ scope key with
  | None => inl fallback
  | Some (JInteger z) | Some (JUnsigned z) =>
      let parsed := i64 z in
      if (parsed <=? 0) || (max <? parsed) then inr BadRate else inl parsed
  | Some _ => inr NotAnInteger
  end.

Definition ReadSamplePoint (scope : Object) (key : string) (fallback : F64.t) : Result F64.t :=
  match
    match at_ scope key with
    | None => None
    | Some (JInteger z) | Some (JUnsigned z) => Some (inl (F64.of_Z z))
    | Some (JFloat x) => Some (inl x)
    | Some _ => Some (inr NotANumber)
    end
  with
  | None => inl fallback
  | Some value =>
      parsed <- value;
      if F64.ltb (F64.of_Z 0) parsed && F64.leb parsed (F64.of_Z 1) then inl parsed
      else inr BadSamplePoint
  end.

Definition check_fields (scope : Object) : Result unit :=
  if forallb (fun '(key, _) => IsTimingField key) scope then inl tt else inr UnsupportedField.

(** [ApplyChannelTiming] and [ApplyGatewayCanTiming]: the rates are read first. *)
Definition ApplyTiming (max : Z) (scope : Object) (timing : Timing) : Result Timing :=
  _ <- check_fields scope;
  nominal_bps <- ReadRate max scope "bitrate"%string (bitrate timing);
  data_bps <- ReadRate max scope "dbitrate"%string (dbitrate timing);
  nominal_sample_point <- ReadSamplePoint scope "sample_point"%string (sample_point timing);
  data_sample_point <- ReadSamplePoint scope "dsample_point"%string (dsample_point timing);
  inl (mkTiming nominal_bps data_bps nominal_sample_point data_sample_point).

(** The loop over the channels from [channel] on; the first exception ends it. *)
Fixpoint each_channel {A} (body : Z -> Result A) (channel : Z) (count : nat) : Result (list A) :=
  match count with
  | O => inl []
  | S count =>
      value <- body channel;
      values <- each_channel body (channel + 1) count;
      inl (value :: values)
  end.

(** ** GS-USB *)
Module GsUsbTiming.

Definition default : Timing := mkTiming 1000000 5000000 (F64.lit 765 1000) (F64.lit 882 1000).
Definition ApplyChannelTiming := ApplyTiming UINT32_MAX.

Definition BuildChannelTimings (extend : AdapterExtend) (channels : nat) : Result (list Timing) :=
  each_channel (fun channel => ApplyChannelTiming (Scope extend 0 channel) default) 0 channels.

End GsUsbTiming.

(** ** CAN *)
Module CanTiming.

Definition default : Timing := mkTiming 1000000 5000000 (F64.lit 765 1000) (F64.lit 882 1000).

(** Each rate is followed by its sample point. *)
Definition ApplyCanTiming (scope : Object) (timing : Timing) : Result Timing :=
  _ <- check_fields scope;
  bitrate <- ReadRate INT_MAX scope "bitrate"%string (bitrate timing);
  sample_point <- ReadSamplePoint scope "sample_point"%string (sample_point timing);
  dbitrate <- ReadRate INT_MAX scope "dbitrate"%string (dbitrate timing);
  dsample_point <- ReadSamplePoint scope "dsample_point"%string (dsample_point timing);
  inl (mkTiming bitrate dbitrate sample_point dsample_point).

(** [CanAdapter::CreateWithExtend]: the only bus of the adapter is (0, 0). *)
Definition CreateWithExtend (extend : AdapterExtend) : Result Timing :=
  if existsb (fun '(slave, bus) => negb (slave =? 0) || negb (bus =? 0)) (DeclaredBuses extend)
  then inr NoSuchBus
  else ApplyCanTiming (Scope extend 0 0) default.

End CanTiming.

(** ** The Ethernet gateway *)
Module EthernetTiming.

Definition kGatewayChannelCount : Z := 8.
Definition default : Timing := mkTiming 1000000 5000000 (F64.lit 75 100) (F64.lit 875 1000).
Definition ApplyGatewayCanTiming := ApplyTiming UINT32_MAX.

(** The array has eight members, of which the first [channel_count] are set. *)
Definition BuildGatewayChannelTimings (extend : AdapterExtend) (slave channel_count : Z) : Result (list Timing) :=
  if (channel_count =? 0) || (kGatewayChannelCount <? channel_count) then inr BadChannelCount
  else if existsb (fun bus => (bus.1 =? slave) && (channel_count <=? u32 bus.2)) (DeclaredBuses extend)
  then inr NoSuchBus
  else
    timings <- each_channel (fun channel => ApplyGatewayCanTiming (Scope extend slave channel) default) 0
                 (Z.to_nat channel_count);
    inl (timings ++ replicate (Z.to_nat (kGatewayChannelCount - channel_count)) default).

(** [static_cast<std::uint32_t>(sample_point * 1000.0 + 0.5)] *)
Definition ToPerMille (sample_point : F64.t) : option Z :=
  cast_u32 (F64.add (F64.mul sample_point (F64.of_Z 1000)) (F64.lit 1 2)).

End EthernetTiming.

(** ** The EtherCAT gateway *)
Module EthercatTiming.

Definition kGatewayChannelCount : Z := 8.
Definition default : Timing := mkTiming 1000000 5000000 (F64.lit 75 100) (F64.lit 875 1000).
Definition ApplyGatewayCanTiming := ApplyTiming UINT32_MAX.

Definition HasGatewayCanTiming (scope : Object) : bool :=
  match scope with [] => false | _ => true end.

(** A channel without any field keeps what the firmware starts with. *)
Definition plan_channel (extend : AdapterExtend) (slave channel : Z) : Result (option Timing) :=
  let scope := Scope extend slave channel in
  if negb (HasGatewayCanTiming scope) then inl None
  else timing <- ApplyGatewayCanTiming scope default; inl (Some timing).

Definition BuildChannelTimingPlan (extend : AdapterExtend) (slave channel_count : Z) : Result (list (option Timing)) :=
  if (kGatewayChannelCount <? channel_count) || ((channel_count =? 0) && negb (bool_decide (Common extend = [])))
  then inr BadChannelCount
  else if existsb (fun bus => (bus.1 =? slave) && (channel_count <=? bus.2)) (DeclaredBuses extend)
  then inr NoSuchBus
  else each_channel (plan_channel extend slave) 0 (Z.to_nat channel_count).

End EthercatTiming.

(** ** Reference: the parameters in force *)

Definition names_bus (bus : Z * Z) (entry : string * Json) : bool :=
  match ParseBusKey (chars entry.1) with inl bus' => bool_decide (bus' = bus) | inr _ => false end.

(** The fields an envelope gives for one bus under ["buses"]. *)
Definition own_fields (fields : Object) (bus : Z * Z) : Object :=
  match at_ fields kBusesKey with
  | Some (JObject entries) =>
      match find (names_bus bus) entries with Some (_, JObject own) => own | _ => [] end
  | _ => []
  end.

(** The value in force: the bus's own, else the common one, else none. *)
Definition in_force (fields : Object) (bus : Z * Z) (key : string) : option Json :=
  match at_ (own_fields fields bus) key with Some value => Some value | None => common_field fields key end.

(** A rate from the value in force. *)
Definition rate_is (max : Z) (value : option Json) (fallback rate : Z) : Prop :=
  match value with
  | None => rate = fallback
  | Some (JInteger z) | Some (JUnsigned z) => 1 <= z <= max /\ rate = z
  | Some _ => False
  end.

Definition in_unit (x : F64.t) : bool := F64.ltb (F64.of_Z 0) x && F64.leb x (F64.of_Z 1).

Definition point_is (value : option Json) (fallback point : F64.t) : Prop :=
  match value with
  | None => point = fallback
  | Some (JInteger z) | Some (JUnsigned z) => point = F64.of_Z z /\ in_unit (F64.of_Z z) = true
  | Some (JFloat x) => point = x /\ in_unit x = true
  | Some _ => False
  end.

(** A timing from the values in force: no other field, every field valid. *)
Definition timing_is (max : Z) (get : string -> option Json) (default timing : Timing) : Prop :=
  (forall key, get key <> None -> In key kTimingFields) /\
  rate_is max (get "bitrate"%string) (bitrate default) (bitrate timing) /\
  rate_is max (get "dbitrate"%string) (dbitrate default) (dbitrate timing) /\
  point_is (get "sample_point"%string) (sample_point default) (sample_point timing) /\
  point_is (get "dsample_point"%string) (dsample_point default) (dsample_point timing).

(** ** Reading a scope *)

Lemma bind_ok {A B} (r : Result A) (f : A -> Result B) b :
  bind r f = inl b <-> exists a, r = inl a /\ f a = inl b.
Proof. destruct r as [a|e]; cbn; split; [intros H; by exists a|intros (? & [= ->] & H); done|done|intros (? & [=] & _)]. Qed.

Lemma inl_ok {A E} (x y : A) : inl x = inl y :> A + E <-> y = x.
Proof. split; [by intros [= ->]|by intros ->]. Qed.

Lemma if_ok {A} (b : bool) e (x y : A) : (if b then inr e else inl x) = inl y :> Result A <-> b = false /\ y = x.
Proof. destruct b; split; [done|by intros [? _]|by intros [= ->]|by intros [_ ->]]. Qed.

Definition value_ok (value : option Json) : Prop :=
  match value with Some value => library_value value = true | None => True end.

Lemma ReadRate_ok max scope key fallback rate :
  0 <= max < 9223372036854775808 -> value_ok (at_ scope key) ->
  ReadRate max scope key fallback = inl rate <-> rate_is max (at_ scope key) fallback rate.
Proof.
  intros Hmax Hv. unfold ReadRate, rate_is, i64 in *.
  destruct (at_ scope key) as [[o|z|z|x|]|]; cbn in Hv; try (by split); try (by apply inl_ok).
  - rewrite Z.mod_small by lia. rewrite if_ok. split; lia.
  - rewrite if_ok. apply andb_true_iff in Hv as [H1%Z.leb_le H2%Z.ltb_lt].
    destruct (Z.lt_ge_cases z 9223372036854775808) as [Hlt|Hge].
    + rewrite Z.mod_small by lia. split; lia.
    + replace (z + 9223372036854775808) with (z - 9223372036854775808 + 1 * 18446744073709551616) by lia.
      rewrite Z_mod_plus_full, Z.mod_small by lia. split; lia.
Qed.

Lemma ReadSamplePoint_ok scope key fallback point :
  ReadSamplePoint scope key fallback = inl point <-> point_is (at_ scope key) fallback point.
Proof.
  unfold ReadSamplePoint, point_is, in_unit.
  destruct (at_ scope key) as [[o|z|z|x|]|]; cbn [bind]; try (by split); try (by apply inl_ok);
    destruct (_ && _); (split; [by intros [= ->]|by intros [-> ?]]).
Qed.

Lemma check_fields_ok scope :
  check_fields scope = inl tt <-> forall key, at_ scope key <> None -> In key kTimingFields.
Proof.
  assert (forall key, IsTimingField key = true <-> In key kTimingFields) as Hf.
  { intros key. unfold IsTimingField. rewrite existsb_exists. split.
    - by intros (field & Hin & ->%String.eqb_eq).
    - intros Hin. exists key. split; [done|apply String.eqb_refl]. }
  unfold check_fields. destruct (forallb _ scope) eqn:E.
  - split; [intros _|done]. intros key Hk. destruct (at_ scope key) as [v|] eqn:Ea; [|done].
    apply at_elem, list_elem_of_In in Ea. rewrite forallb_forall in E. by apply E, Hf in Ea.
  - split; [done|]. intros H. rewrite <- not_true_iff_false, forallb_forall in E. destruct E.
    intros [key v] Hin. apply Hf, H. intros Hn.
    induction scope as [|[k w] scope IH]; [done|]. cbn in Hn. destruct (String.eqb_spec k key); [done|].
    destruct Hin as [Hin|Hin]; [by injection Hin|]. apply IH; [|done|done].
    intros key' Hk'. apply H. cbn. by destruct (String.eqb k key').
Qed.

Lemma ApplyTiming_ok max scope default timing :
  0 <= max < 9223372036854775808 -> (forall key, value_ok (at_ scope key)) ->
  ApplyTiming max scope default = inl timing <-> timing_is max (at_ scope) default timing.
Proof.
  intros Hmax Hv. unfold ApplyTiming, timing_is. rewrite <- check_fields_ok.
  rewrite <- !ReadRate_ok, <- !ReadSamplePoint_ok by done. rewrite bind_ok. split.
  - intros ([] & -> & H). split; [done|].
    do 4 (apply bind_ok in H as (? & ? & H)). by injection H as <-.
  - intros (Hc & H1 & H2 & H3 & H4). exists tt. split; [done|].
    rewrite H1, H2, H3, H4. by destruct timing.
Qed.

(** The order in which a plugin reads decides only which error is reported. *)
Lemma ApplyCanTiming_ok scope default timing :
  (forall key, value_ok (at_ scope key)) ->
  CanTiming.ApplyCanTiming scope default = inl timing <-> timing_is INT_MAX (at_ scope) default timing.
Proof.
  intros Hv. assert (0 <= INT_MAX < 9223372036854775808) as Hmax by (unfold INT_MAX; lia).
  rewrite <- (ApplyTiming_ok INT_MAX scope default timing Hmax Hv).
  unfold ApplyTiming, CanTiming.ApplyCanTiming. destruct (check_fields scope); cbn [bind]; [|done].
  repeat match goal with
         | |- context [ReadRate ?m ?s ?k ?f] => destruct (ReadRate m s k f); cbn [bind]
         | |- context [ReadSamplePoint ?s ?k ?f] => destruct (ReadSamplePoint s k f); cbn [bind]
         end; done.
Qed.

(** ** Scopes of an envelope *)

Lemma own_fields_ok fields bus key :
  library_value (JObject fields) = true -> value_ok (at_ (own_fields fields bus) key).
Proof.
  intros Hlib. unfold own_fields. destruct (at_ fields kBusesKey) as [[entries| | | |]|] eqn:Eb; try done.
  destruct (find _ entries) as [[k [own| | | |]]|] eqn:Ef; try done.
  destruct (at_ own key) as [v|] eqn:Ev; [|done]. cbn.
  apply find_some in Ef as [Hin _]. apply list_elem_of_In in Hin.
  apply at_elem in Ev, Eb. apply library_object in Hlib as [_ Hlib].
  apply Hlib, library_object in Eb as [_ Eb]. apply Eb, library_object in Hin as [_ Hin]. by apply Hin in Ev.
Qed.

Lemma in_force_ok fields bus key : library_value (JObject fields) = true -> value_ok (in_force fields bus key).
Proof.
  intros Hlib. unfold in_force. pose proof (own_fields_ok fields bus key Hlib) as Ho.
  destruct (at_ (own_fields fields bus) key); [done|]. unfold common_field.
  destruct (String.eqb key kBusesKey); [done|]. destruct (at_ fields key) as [v|] eqn:Ev; [|done].
  apply at_elem in Ev. apply library_object in Hlib as [_ Hlib]. by apply Hlib in Ev.
Qed.

Lemma names_bus_spec bus entry : names_bus bus entry = true <-> spells (chars entry.1) bus.
Proof.
  rewrite <- bus_key_spelling. unfold names_bus. destruct (ParseBusKey (chars entry.1)) as [b|e]; [|done].
  rewrite bool_decide_eq_true. split; [by intros ->|by intros [= ->]].
Qed.

(** A scope holds what is in force. *)
Lemma Scope_in_force parse_json text fields extend bus key :
  reads parse_json text fields -> library_value (JObject fields) = true ->
  Parse parse_json text = inl extend -> bus_ok bus ->
  at_ (Scope extend bus.1 bus.2) key = in_force fields bus key.
Proof.
  intros Hr Hlib Hp Hbus. pose proof (library_object _ Hlib) as [Hnd _].
  apply (Parse_spec parse_json text fields) in Hp as (entries & parsed & Hok & HF & ->); [|done|done].
  destruct (Scope_field fields entries parsed bus Hlib Hok HF Hbus) as [Hown Hnone].
  unfold in_force, own_fields. destruct (env_entries _ _ _ Hok) as [->|[-> ->]].
  - destruct (find (names_bus bus) entries) as [[k v]|] eqn:Ef.
    + apply find_some in Ef as [Hin Hn]. apply names_bus_spec in Hn. apply list_elem_of_In in Hin.
      pose proof Hin as Hin'. apply list_elem_of_lookup in Hin' as [i Hi].
      destruct (Forall2_lookup_l _ _ _ _ _ HF Hi) as ([b o] & _ & _ & Hv). cbn in Hv. subst v.
      by apply (Hown k).
    + apply Hnone. intros entry Hin Hs%names_bus_spec. apply list_elem_of_In in Hin.
      by rewrite (find_none _ _ Ef _ Hin) in Hs.
  - apply Hnone. intros entry Hin. by apply elem_of_nil in Hin.
Qed.

Lemma each_channel_ok {A} (body : Z -> Result A) values : forall channel count,
  each_channel body channel count = inl values <->
  length values = count /\ forall i value, values !! i = Some value -> body (channel + Z.of_nat i) = inl value.
Proof.
  induction values as [|v values IH]; intros channel [|count]; cbn [each_channel length].
  - split; [|done]. intros _. split; [done|]. intros i value H. by rewrite lookup_nil in H.
  - split; [|by intros []]. rewrite bind_ok. intros (? & _ & H). by apply bind_ok in H as (? & _ & H).
  - split; [done|by intros []].
  - rewrite bind_ok. split.
    + intros (a & Ha & H). apply bind_ok in H as (l & Hl & H). injection H as -> ->.
      apply IH in Hl as [<- Hl]. split; [done|]. intros [|i] value; cbn.
      * intros [= <-]. by rewrite Z.add_0_r.
      * intros Hi. apply Hl in Hi. by rewrite Nat2Z.inj_succ, <- Z.add_1_l, Z.add_assoc.
    + intros [[= Hlen] H]. exists v. split; [by rewrite <- (H 0%nat v), Z.add_0_r|].
      apply bind_ok. exists values. split; [|done]. apply IH. split; [done|]. intros i value Hi.
      rewrite <- (H (S i) value Hi). f_equal. lia.
Qed.

(** ** The plugins *)

Lemma existsb_ext_in {A} (f g : A -> bool) l : (forall x, x ∈ l -> f x = g x) -> existsb f l = existsb g l.
Proof.
  induction l as [|x l IH]; intros H; cbn; [done|].
  rewrite (H x), IH; [done| |apply list_elem_of_here]. intros y Hy. by apply H, list_elem_of_further.
Qed.

Lemma and_iff_under (P Q R : Prop) : (P -> Q <-> R) -> P /\ Q <-> P /\ R.
Proof. tauto. Qed.

Section InForce.
Context (parse_json : string -> option Json) (text : string) (fields : Object) (extend : AdapterExtend).
Context (Hreads : reads parse_json text fields) (Hlib : library_value (JObject fields) = true)
        (Hparse : Parse parse_json text = inl extend).

Lemma declared_ok bus : bus ∈ DeclaredBuses extend -> bus_ok bus.
Proof.
  pose proof (library_object _ Hlib) as [Hnd _].
  apply (Parse_spec parse_json text fields) in Hparse as (entries & parsed & [_ Hk _] & _ & ->); [|done|done].
  apply spells_ok in Hk. rewrite list.Forall_forall in Hk. apply Hk.
Qed.

Lemma timing_is_ext max get get' default timing :
  (forall key, get key = get' key) -> timing_is max get default timing <-> timing_is max get' default timing.
Proof. intros H. unfold timing_is. rewrite !H. setoid_rewrite H. done. Qed.

Lemma Scope_values bus : bus_ok bus -> forall key, value_ok (at_ (Scope extend bus.1 bus.2) key).
Proof. intros Hbus key. rewrite (Scope_in_force parse_json text fields) by done. by apply in_force_ok. Qed.

Lemma ApplyTiming_in_force max bus default timing :
  0 <= max < 9223372036854775808 -> bus_ok bus ->
  ApplyTiming max (Scope extend bus.1 bus.2) default = inl timing <-> timing_is max (in_force fields bus) default timing.
Proof.
  intros Hmax Hbus. rewrite ApplyTiming_ok by (try apply Scope_values; done).
  apply timing_is_ext. intros key. by apply (Scope_in_force parse_json text).
Qed.

Lemma scope_empty bus : bus_ok bus ->
  Scope extend bus.1 bus.2 = [] <-> forall key, in_force fields bus key = None.
Proof.
  intros Hbus. setoid_rewrite <- (Scope_in_force parse_json text fields extend bus); [|done..].
  split; [by intros ->|]. intros H. destruct (Scope _ _ _) as [|[key v] scope]; [done|].
  specialize (H key). cbn in H. by rewrite String.eqb_refl in H.
Qed.

(** The check of the declared buses. *)
Lemma declared_below slave count :
  existsb (fun bus => (bus.1 =? slave) && (count <=? bus.2)) (DeclaredBuses extend) = false <->
  forall bus, bus ∈ DeclaredBuses extend -> bus.1 = slave -> bus.2 < count.
Proof.
  rewrite <- not_true_iff_false, existsb_exists. split.
  - intros H bus Hin Hs. apply Z.nle_gt. intros Hle. apply H. exists bus.
    split; [by apply list_elem_of_In|]. rewrite (proj2 (Z.eqb_eq _ _) Hs). by apply Z.leb_le.
  - intros H (bus & Hin & [Hs%Z.eqb_eq Hle%Z.leb_le]%andb_true_iff). apply list_elem_of_In in Hin.
    specialize (H bus Hin Hs). lia.
Qed.

Lemma max_ok : 0 <= UINT32_MAX < 9223372036854775808.
Proof. unfold UINT32_MAX. lia. Qed.

Lemma channel_ok slave (i : nat) : 0 <= slave <= kMaxSlave -> Z.of_nat i <= kMaxBus -> bus_ok (slave, Z.of_nat i).
Proof. unfold bus_ok. cbn. lia. Qed.

Lemma gs_usb_timings channels timings :
  Z.of_nat channels <= 256 ->
  GsUsbTiming.BuildChannelTimings extend channels = inl timings <->
  length timings = channels /\
  forall i t, timings !! i = Some t -> timing_is UINT32_MAX (in_force fields (0, Z.of_nat i)) GsUsbTiming.default t.
Proof.
  intros Hc. unfold GsUsbTiming.BuildChannelTimings. rewrite each_channel_ok.
  apply and_iff_under. intros Hlen.
  assert (forall i t, timings !! i = Some t ->
    GsUsbTiming.ApplyChannelTiming (Scope extend 0 (0 + Z.of_nat i)) GsUsbTiming.default = inl t <->
    timing_is UINT32_MAX (in_force fields (0, Z.of_nat i)) GsUsbTiming.default t) as Hi.
  { intros i t Ht. apply lookup_lt_Some in Ht.
    apply (ApplyTiming_in_force UINT32_MAX (0, Z.of_nat i)); [apply max_ok|apply channel_ok; unfold kMaxSlave, kMaxBus; lia]. }
  split; intros H i t Ht; apply (Hi i t Ht), H, Ht.
Qed.

Lemma can_timing timing :
  CanTiming.CreateWithExtend extend = inl timing <->
  (forall bus, bus ∈ DeclaredBuses extend -> bus = (0, 0)) /\
  timing_is INT_MAX (in_force fields (0, 0)) CanTiming.default timing.
Proof.
  assert (bus_ok (0, 0)) as H00 by (unfold bus_ok, kMaxSlave, kMaxBus; cbn; lia).
  assert (CanTiming.ApplyCanTiming (Scope extend 0 0) CanTiming.default = inl timing <->
          timing_is INT_MAX (in_force fields (0, 0)) CanTiming.default timing) as Happly.
  { rewrite ApplyCanTiming_ok by apply (Scope_values (0, 0) H00).
    apply timing_is_ext. intros key. by apply (Scope_in_force parse_json text fields extend (0, 0)). }
  unfold CanTiming.CreateWithExtend. destruct (existsb _ _) eqn:E.
  - split; [done|]. intros [H _]. apply existsb_exists in E as ([s b] & Hin & Hb).
    apply list_elem_of_In, H in Hin. injection Hin as -> ->. done.
  - rewrite Happly. split; [|by intros [_ ?]]. intros Ht. split; [|done]. intros [s b] Hin.
    apply not_true_iff_false in E. destruct (Z.eqb_spec s 0) as [->|Hs], (Z.eqb_spec b 0) as [->|Hb]; [done|..];
      destruct E; apply existsb_exists; eexists; (split; [by apply list_elem_of_In|]); cbn beta iota;
      by rewrite ?(proj2 (Z.eqb_neq _ _) Hs), ?(proj2 (Z.eqb_neq _ _) Hb), ?orb_true_r.
Qed.

Lemma gateway_timings slave count timings :
  0 <= slave <= kMaxSlave -> 0 <= count ->
  EthernetTiming.BuildGatewayChannelTimings extend slave count = inl timings <->
  1 <= count <= 8 /\ (forall bus, bus ∈ DeclaredBuses extend -> bus.1 = slave -> bus.2 < count) /\
  length timings = 8%nat /\
  forall i t, timings !! i = Some t ->
    if Z.of_nat i <? count then timing_is UINT32_MAX (in_force fields (slave, Z.of_nat i)) EthernetTiming.default t
    else t = EthernetTiming.default.
Proof.
  intros Hs Hcount. unfold EthernetTiming.BuildGatewayChannelTimings, EthernetTiming.kGatewayChannelCount.
  destruct (Z.eqb_spec count 0); [split; [done|lia]|]. destruct (Z.ltb_spec 8 count); [split; [done|lia]|]. cbn [orb].
  replace (existsb _ _) with (existsb (fun bus => (bus.1 =? slave) && (count <=? bus.2)) (DeclaredBuses extend)).
  2: { apply existsb_ext_in. intros bus Hin%declared_ok. f_equal. f_equal. symmetry.
       unfold bus_ok, kMaxBus in Hin. rewrite u32_small; lia. }
  pose proof (declared_below slave count) as Hd. destruct (existsb _ _).
  { split; [done|]. intros (_ & Hb & _). by apply Hd in Hb. }
  rewrite bind_ok. setoid_rewrite each_channel_ok.
  assert (forall i t, Z.of_nat i < count ->
    EthernetTiming.ApplyGatewayCanTiming (Scope extend slave (0 + Z.of_nat i)) EthernetTiming.default = inl t <->
    timing_is UINT32_MAX (in_force fields (slave, Z.of_nat i)) EthernetTiming.default t) as Hi.
  { intros i t Hlt. apply (ApplyTiming_in_force UINT32_MAX (slave, Z.of_nat i)); [apply max_ok|].
    apply channel_ok; [done|unfold kMaxBus; lia]. }
  split.
  - intros (own & [Hlen Hown] & [= <-]). split_and!; [lia|lia|by apply Hd|rewrite length_app, length_replicate; lia|].
    intros i t Ht. destruct (Z.ltb_spec (Z.of_nat i) count) as [Hlt|Hge].
    + apply Hi; [done|]. apply Hown. rewrite lookup_app_l in Ht by lia. done.
    + rewrite lookup_app_r in Ht by lia. by apply lookup_replicate in Ht as [-> _].
  - intros (_ & _ & Hlen & Hget). exists (take (Z.to_nat count) timings).
    split; [split; [rewrite length_take; lia|]|].
    + intros i t Ht. apply lookup_take_Some in Ht as [Ht Hlt]. apply Hi; [lia|].
      specialize (Hget i t Ht). by rewrite (proj2 (Z.ltb_lt _ _)) in Hget by lia.
    + f_equal. rewrite <- (take_drop (Z.to_nat count) timings) at 2. f_equal.
      apply replicate_as_elem_of. split; [rewrite length_drop; lia|].
      intros t (j & Ht)%list_elem_of_lookup. rewrite lookup_drop in Ht. specialize (Hget _ _ Ht).
      by rewrite (proj2 (Z.ltb_ge _ _)) in Hget by lia.
Qed.

Lemma common_empty : Common extend = [] <-> forall key, common_field fields key = None.
Proof.
  pose proof (library_object _ Hlib) as [Hnd _].
  assert (forall key, at_ (Common extend) key = common_field fields key) as H.
  { pose proof Hparse as Hp. apply (Parse_spec parse_json text fields) in Hp as (? & ? & _ & _ & ->); [|done|done].
    intros key. cbn [Common common_]. rewrite at_assign_all by by apply common_fields_nodup.
    rewrite at_common_fields by done. fold (common_field fields key). by destruct (common_field fields key). }
  setoid_rewrite <- H. split; [by intros ->|]. intros Hn. destruct (Common extend) as [|[key v] common]; [done|].
  specialize (Hn key). cbn in Hn. by rewrite String.eqb_refl in Hn.
Qed.

Lemma plan_channel_ok slave (i : nat) timing :
  0 <= slave <= kMaxSlave -> Z.of_nat i <= kMaxBus ->
  EthercatTiming.plan_channel extend slave (Z.of_nat i) = inl timing <->
  match timing with
  | None => forall key, in_force fields (slave, Z.of_nat i) key = None
  | Some t => ~ (forall key, in_force fields (slave, Z.of_nat i) key = None) /\
              timing_is UINT32_MAX (in_force fields (slave, Z.of_nat i)) EthercatTiming.default t
  end.
Proof.
  intros Hs Hi. pose proof (channel_ok slave i Hs Hi) as Hbus. pose proof (scope_empty _ Hbus) as He.
  pose proof (fun t => ApplyTiming_in_force UINT32_MAX (slave, Z.of_nat i) EthercatTiming.default t max_ok Hbus) as Ha.
  cbn [fst snd] in *.
  unfold EthercatTiming.plan_channel, EthercatTiming.ApplyGatewayCanTiming.
  destruct (Scope extend slave (Z.of_nat i)) as [|entry scope]; cbn [EthercatTiming.HasGatewayCanTiming negb].
  - destruct timing; [split; [done|]|split; [intros _|done]; by apply He]. intros [Hn _]. by destruct Hn; apply He.
  - rewrite bind_ok. destruct timing as [t|].
    + split.
      * intros (t' & Ht & [= ->]). split; [by intros Hn%He|]. by apply Ha.
      * intros [_ Ht]. exists t. split; [|done]. by apply Ha.
    + split; [by intros (? & _ & ?)|]. by intros Hn%He.
Qed.

Lemma ethercat_plan slave count plan :
  0 <= slave <= kMaxSlave -> 0 <= count ->
  EthercatTiming.BuildChannelTimingPlan extend slave count = inl plan <->
  count <= 8 /\ (count = 0 -> forall key, common_field fields key = None) /\
  (forall bus, bus ∈ DeclaredBuses extend -> bus.1 = slave -> bus.2 < count) /\
  Z.of_nat (length plan) = count /\
  forall i timing, plan !! i = Some timing ->
    match timing with
    | None => forall key, in_force fields (slave, Z.of_nat i) key = None
    | Some t => ~ (forall key, in_force fields (slave, Z.of_nat i) key = None) /\
                timing_is UINT32_MAX (in_force fields (slave, Z.of_nat i)) EthercatTiming.default t
    end.
Proof.
  intros Hs Hcount. unfold EthercatTiming.BuildChannelTimingPlan, EthercatTiming.kGatewayChannelCount.
  destruct (Z.ltb_spec 8 count); [split; [done|lia]|]. cbn [orb].
  pose proof common_empty as Hempty. pose proof (declared_below slave count) as Hd.
  assert ((count =? 0) && negb (bool_decide (Common extend = [])) = false <->
          (count = 0 -> forall key, common_field fields key = None)) as Hc.
  { rewrite <- Hempty. destruct (Z.eqb_spec count 0); cbn [andb]; [|by split].
    rewrite negb_false_iff, bool_decide_eq_true. tauto. }
  destruct ((count =? 0) && _); [split; [done|]; intros (_ & H0 & _); by apply Hc in H0|].
  destruct (existsb _ _); [split; [done|]; intros (_ & _ & Hb & _); by apply Hd in Hb|].
  rewrite each_channel_ok. split.
  - intros [Hlen Hp]. split_and!; [done|by apply Hc|by apply Hd|lia|]. intros i timing Hi.
    pose proof (lookup_lt_Some _ _ _ Hi). apply plan_channel_ok; [done|unfold kMaxBus; lia|]. by apply Hp.
  - intros (_ & _ & _ & Hlen & Hp). split; [lia|]. intros i timing Hi. pose proof (lookup_lt_Some _ _ _ Hi).
    apply plan_channel_ok; [done|unfold kMaxBus; lia|]. by apply Hp.
Qed.
End InForce.

(** The override of a declared bus. *)
Lemma BusOverride_own parse_json text fields extend bus :
  reads parse_json text fields -> library_value (JObject fields) = true -> Parse parse_json text = inl extend ->
  bus ∈ DeclaredBuses extend -> BusOverride extend bus.1 bus.2 = Some (own_fields fields bus).
Proof.
  intros Hr Hlib Hp Hdecl. pose proof (library_object _ Hlib) as [Hnd _].
  apply (Parse_spec parse_json text fields) in Hp as (entries & parsed & Hok & HF & ->); [|done|done].
  cbn [DeclaredBuses declared_buses_ BusOverride bus_overrides_] in *.
  pose proof (env_once _ _ _ Hok) as Honce.
  pose proof (spells_ok _ _ (entries_keys _ _ HF)) as Hbuses. rewrite list.Forall_forall in Hbuses.
  pose proof (Hbuses _ Hdecl) as Hbus. apply list_elem_of_fmap in Hdecl as ([bus' o] & -> & Hin). cbn [fst snd] in *.
  apply list_elem_of_lookup in Hin as [i Hi]. destruct (Forall2_lookup_r _ _ _ _ _ HF Hi) as ([key v] & He & Hk & Hv).
  cbn [fst snd] in Hk, Hv. subst v. apply list_elem_of_lookup_2 in He.
  assert (names_bus bus' (key, JObject o) = true) as Hnames by (apply names_bus_spec, bus_key_spelling; done).
  apply (override_lookup entries parsed); [done|done|done|]. unfold own_fields.
  destruct (env_entries _ _ _ Hok) as [->|[_ ->]]; [|by apply elem_of_nil in He].
  destruct (find (names_bus bus') entries) as [[k v]|] eqn:Ef.
  - apply find_some in Ef as [Hin' Hn]. apply list_elem_of_In in Hin'.
    pose proof Hin' as Hl. apply list_elem_of_lookup in Hl as [j Hj].
    destruct (Forall2_lookup_l _ _ _ _ _ HF Hj) as ([b o'] & _ & _ & Hv). cbn in Hv. subst v.
    exists k. split; [done|]. by apply names_bus_spec in Hn.
  - apply list_elem_of_In in He. by rewrite (find_none _ _ Ef _ He) in Hnames.
Qed.

(** C26: from an accepted envelope every plugin derives, bus by bus, the timing in force:
    each of the four fields is the bus's own, else the common one, else the plugin's
    default.  The plugin refuses the envelope exactly when a field in force is unknown
    or invalid (a rate from 1 to the plugin's maximum, a sample point in (0, 1]) or
    when the envelope mentions a bus the adapter does not have; a gateway channel
    beyond the reported count keeps the default, and an EtherCAT channel without any
    field in force is left alone. *)
Theorem timings_in_force parse_json text fields extend :
  reads parse_json text fields -> library_value (JObject fields) = true -> Parse parse_json text = inl extend ->
  (forall channels timings, Z.of_nat channels <= 256 ->
     GsUsbTiming.BuildChannelTimings extend channels = inl timings <->
     length timings = channels /\
     forall i t, timings !! i = Some t -> timing_is UINT32_MAX (in_force fields (0, Z.of_nat i)) GsUsbTiming.default t) /\
  (forall timing,
     CanTiming.CreateWithExtend extend = inl timing <->
     (forall bus, bus ∈ DeclaredBuses extend -> bus = (0, 0)) /\
     timing_is INT_MAX (in_force fields (0, 0)) CanTiming.default timing) /\
  (forall slave count timings, 0 <= slave <= kMaxSlave -> 0 <= count ->
     EthernetTiming.BuildGatewayChannelTimings extend slave count = inl timings <->
     1 <= count <= 8 /\ (forall bus, bus ∈ DeclaredBuses extend -> bus.1 = slave -> bus.2 < count) /\
     length timings = 8%nat /\
     forall i t, timings !! i = Some t ->
       if Z.of_nat i <? count then timing_is UINT32_MAX (in_force fields (slave, Z.of_nat i)) EthernetTiming.default t
       else t = EthernetTiming.default) /\
  (forall slave count plan, 0 <= slave <= kMaxSlave -> 0 <= count ->
     EthercatTiming.BuildChannelTimingPlan extend slave count = inl plan <->
     count <= 8 /\ (count = 0 -> forall key, common_field fields key = None) /\
     (forall bus, bus ∈ DeclaredBuses extend -> bus.1 = slave -> bus.2 < count) /\
     Z.of_nat (length plan) = count /\
     forall i timing, plan !! i = Some timing ->
       match timing with
       | None => forall key, in_force fields (slave, Z.of_nat i) key = None
       | Some t => ~ (forall key, in_force fields (slave, Z.of_nat i) key = None) /\
                   timing_is UINT32_MAX (in_force fields (slave, Z.of_nat i)) EthercatTiming.default t
       end).
Proof.
  intros Hr Hl Hp. split_and!.
  - intros. by apply (gs_usb_timings parse_json text).
  - intros. by apply (can_timing parse_json text).
  - intros. by apply (gateway_timings parse_json text).
  - intros. by apply (ethercat_plan parse_json text).
Qed.

Definition example_extend : AdapterExtend :=
  match Parse example_parse "{..}" with inl extend => extend | inr _ => empty_extend end.
Definition example_timing : Timing := mkTiming 500000 5000000 (F64.lit 75 100) (F64.lit 875 1000).

Lemma timings_in_force_witness :
  EthernetTiming.BuildGatewayChannelTimings example_extend 2 8 =
    inl (replicate 5 EthernetTiming.default ++ [example_timing] ++ replicate 2 EthernetTiming.default) /\
  timing_is UINT32_MAX (in_force example_fields (2, 5)) EthernetTiming.default example_timing.
Proof.
  split; [vm_compute; reflexivity|].
  destruct (timings_in_force example_parse "{..}" example_fields example_extend) as (_ & _ & H & _);
    [right; split; [discriminate|reflexivity]|vm_compute; reflexivity|vm_compute; reflexivity|].
  destruct (H 2 8 (replicate 5 EthernetTiming.default ++ [example_timing] ++ replicate 2 EthernetTiming.default))
    as [Hb _]; [unfold kMaxSlave; lia|lia|].
  destruct Hb as (_ & _ & _ & Ht); [vm_compute; reflexivity|].
  apply (Ht 5%nat). reflexivity.
Defined.

(** A bus that does not exist, a rate beyond the range of [int] (but not of
    [uint32_t]), a sample point above one, an unknown field. *)
Example bad_timings :
  let parse fields := Parse (fun _ => Some (JObject fields)) "x" in
  let gateway fields := extend <- parse fields; EthernetTiming.BuildGatewayChannelTimings extend 0 2 in
  let can fields := extend <- parse fields; CanTiming.CreateWithExtend extend in
  gateway [("buses", JObject [("0:2", JObject [])])]%string = inr NoSuchBus /\
  (exists timings, gateway [("bitrate", JUnsigned 4000000000)]%string = inl timings) /\
  can [("bitrate", JUnsigned 4000000000)]%string = inr BadRate /\
  can [("sample_point", JFloat (F64.lit 5 4))]%string = inr BadSamplePoint /\
  can [("sjw", JUnsigned 1)]%string = inr UnsupportedField.
Proof. cbv zeta. split_and!; try (by vm_compute). eexists. vm_compute. reflexivity. Qed.
