(* ===== verification/GsUsbProtocol.v ===== *)
(** * GsUsbProtocol: plugins/adapter/gsUsb/protocol/gs_usb_protocol.cc

    The wire format of a gs_usb device and the search for its bit timing.  A buffer is
    the list of its bytes; a function that returns the number of bytes it consumed or
    wrote, and 0 when it refuses, returns [None] here in that case.  The proofs show
    that the search ends, that its arithmetic neither wraps nor leaves the range of
    [long long], and that what it returns is the first divider of the grid whose
    segments can follow the requested sample point. *)
From stdpp Require Import base option list numbers.
From Stdlib Require Import ZArith Lia.
From Stdlib Require Import SpecFloat.
From S2P Require Import Prelude CFloat.
#[local] Open Scope Z_scope.
#[local] Open Scope cint_scope.

(** ** Constants *)

Definition kClassicFrameSize : nat := 20.
Definition kFdFrameSize : nat := 76.
Definition kEchoBusFrame : Z := 4294967295.
Definition kCanEff : Z := 2147483648.
Definition kCanRtr : Z := 1073741824.
Definition kCanErr : Z := 536870912.
Definition kCanExtIdMask : Z := 536870911.
Definition kCanStdIdMask : Z := 2047.
Definition kFrameFlagFd : Z := 2.
Definition kFrameFlagBrs : Z := 4.
Definition kFrameFlagEsi : Z := 8.

(** ** Data *)

Record BitTiming := mkBitTiming {
  prop_seg : Z;
  phase_seg1 : Z;
  phase_seg2 : Z;
  sjw : Z;
  brp : Z
}.

#[export] Instance BitTiming_eq_dec : EqDecision BitTiming.
Proof. solve_decision. Defined.

(** The limits of one phase: the members of [BtConstExt] come in two sets. *)
Record Limits := mkLimits {
  tseg1_min : Z; tseg1_max : Z;
  tseg2_min : Z; tseg2_max : Z;
  sjw_max : Z;
  brp_min : Z; brp_max : Z; brp_inc : Z
}.

Record BtConstExt := mkConst {
  feature : Z;
  fclk : Z;
  nominal_limits : Limits;
  data_limits : Limits
}.

Record Frame := mkFrame {
  echo_id : Z;        (* uint32_t *)
  can_id : Z;         (* uint32_t *)
  dlc : Z;            (* uint8_t *)
  channel : Z;        (* uint8_t *)
  flags : Z;          (* uint8_t *)
  reserved : Z;       (* uint8_t *)
  frame_data : list Z (* uint8_t[64] *)
}.

(** ** Words *)

Definition ReadLe32 (d : list Z) : Z := le32 (byte_at d 0) (byte_at d 1) (byte_at d 2) (byte_at d 3).

Definition WriteLe32 (value : Z) : list Z :=
  [u8 (value .& 255); u8 ((value ≫ 8) .& 255); u8 ((value ≫ 16) .& 255); u8 ((value ≫ 24) .& 255)].

Definition DecodeBtConstExt (d : list Z) : option BtConstExt :=
  if (length d <? 72)%nat then None
  else
    let values (i : nat) := ReadLe32 (drop (i * 4) d) in
    Some (mkConst (values 0%nat) (values 1%nat)
      (mkLimits (values 2%nat) (values 3%nat) (values 4%nat) (values 5%nat) (values 6%nat)
                (values 7%nat) (values 8%nat) (values 9%nat))
      (mkLimits (values 10%nat) (values 11%nat) (values 12%nat) (values 13%nat) (values 14%nat)
                (values 15%nat) (values 16%nat) (values 17%nat))).

Definition EncodeBitTiming (timing : BitTiming) : list Z :=
  WriteLe32 (prop_seg timing) ++ WriteLe32 (phase_seg1 timing) ++ WriteLe32 (phase_seg2 timing) ++
  WriteLe32 (sjw timing) ++ WriteLe32 (brp timing).

(** ** The bit timing *)

(** [std::llround]: outside [long long] the result is unspecified. *)
Definition llround (x : F64.t) : option Z :=
  match SF_llround x with
  | Some z => if (-9223372036854775808 <=? z) && (z <=? 9223372036854775807) then Some z else None
  | None => None
  end.

(** What one divider gives: [continue], a result, or an unspecified value. *)
Inductive Attempt := Continue | Found (timing : BitTiming) | Unspecified.

Definition attempt (l : Limits) (fclk target : Z) (sample_point : F64.t) (brp : Z) : Attempt :=
  let denominator := u64 (target * brp) in
  if (denominator =? 0) || negb (fclk mod denominator =? 0) then Continue
  else
    let total := fclk / denominator in
    if total <? u32 (u32 (1 + tseg1_min l) + tseg2_min l) then Continue
    else
      match llround (F64.mul sample_point (F64.of_Z total)) with
      | None => Unspecified
      | Some rounded =>
          let desired := rounded - 1 in
          let max_seg1 := total - 1 - tseg2_min l in
          let desired := if desired <? tseg1_min l then tseg1_min l else desired in
          let desired := if tseg1_max l <? desired then tseg1_max l else desired in
          let desired := if max_seg1 <? desired then max_seg1 else desired in
          if desired <? tseg1_min l then Continue
          else
            let seg1 := u32 desired in
            let seg2 := u32 (u64 (total - 1 - seg1)) in
            if (seg2 <? tseg2_min l) || (tseg2_max l <? seg2) then Continue
            else Found (mkBitTiming 0 seg1 seg2 (Z.max 1 (Z.min (Z.min seg1 seg2) (sjw_max l))) (u32 brp))
      end.

(** [for (brp = brp_min; brp <= brp_max; brp += brp_inc)].  The outer [None] is an
    unspecified value or a loop that has run longer than [fuel]. *)
Fixpoint search (try_ : Z -> Attempt) (brp_max brp_inc : Z) (fuel : nat) (brp : Z) : option (option BitTiming) :=
  if brp_max <? brp then Some None
  else
    match fuel with
    | O => None
    | S fuel =>
        match try_ brp with
        | Continue => search try_ brp_max brp_inc fuel (u64 (brp + brp_inc))
        | Found timing => Some (Some timing)
        | Unspecified => None
        end
    end.

Definition limits_of (constraints : BtConstExt) (data_phase : bool) : Limits :=
  if data_phase then data_limits constraints else nominal_limits constraints.

Definition ComputeBitTiming (constraints : BtConstExt) (bitrate : Z) (sample_point : F64.t) (data_phase : bool)
    : option (option BitTiming) :=
  if (fclk constraints =? 0) || (bitrate =? 0) || F64.leb sample_point (F64.of_Z 0) ||
     F64.leb (F64.of_Z 1) sample_point then Some None
  else
    let l := limits_of constraints data_phase in
    if (brp_min l =? 0) || (brp_inc l =? 0) || (tseg2_min l =? 0) then Some None
    else search (attempt l (fclk constraints) bitrate sample_point) (brp_max l) (brp_inc l)
           (Z.to_nat ((brp_max l - brp_min l) / brp_inc l + 1)) (brp_min l).

(** ** Frames *)

Definition FrameSize (flags : Z) : nat :=
  if negb (flags .& kFrameFlagFd =? 0) then kFdFrameSize else kClassicFrameSize.

Definition EncodeFrame (frame : Frame) (capacity : nat) : option (list Z) :=
  let size := FrameSize (flags frame) in
  if (capacity <? size)%nat then None
  else
    let data_size := Z.to_nat (if negb (flags frame .& kFrameFlagFd =? 0) then dlc frame else Z.min (dlc frame) 8) in
    if (64 <? data_size)%nat then None
    else Some (WriteLe32 (echo_id frame) ++ WriteLe32 (can_id frame) ++
               [dlc frame; channel frame; flags frame; 0] ++
               take data_size (frame_data frame) ++ replicate (size - 12 - data_size) 0).

Definition DecodeFrame (d : list Z) : option (nat * Frame) :=
  if (length d <? kClassicFrameSize)%nat then None
  else
    let flags := byte_at d 10 in
    if negb (flags .& Z.lnot (kFrameFlagFd .| kFrameFlagBrs .| kFrameFlagEsi) =? 0) then None
    else
      let size := FrameSize flags in
      if (length d <? size)%nat then None
      else
        let can_id := ReadLe32 (drop 4 d) in
        let dlc := byte_at d 8 in
        if (can_id .& kCanEff =? 0) && (kCanStdIdMask <? can_id .& kCanExtIdMask) then None
        else
          let fd := negb (flags .& kFrameFlagFd =? 0) in
          if (if fd then (15 <? dlc) || negb (can_id .& kCanRtr =? 0)
              else (8 <? dlc) || negb (flags .& (kFrameFlagBrs .| kFrameFlagEsi) =? 0)) then None
          else
            let data_size := Z.to_nat (if fd then dlc else Z.min dlc 8) in
            Some (size, mkFrame (ReadLe32 d) can_id dlc (byte_at d 9) flags 0
                    (take data_size (drop 12 d) ++ replicate (64 - data_size) 0)).

(** ** What a bit timing has to satisfy *)

Definition u32_ok (z : Z) : Prop := 0 <= z < 4294967296.

Definition limits_ok (l : Limits) : Prop :=
  u32_ok (tseg1_min l) /\ u32_ok (tseg1_max l) /\ u32_ok (tseg2_min l) /\ u32_ok (tseg2_max l) /\
  u32_ok (sjw_max l) /\ u32_ok (brp_min l) /\ u32_ok (brp_max l) /\ u32_ok (brp_inc l).

Definition constraints_ok (c : BtConstExt) : Prop :=
  u32_ok (fclk c) /\ limits_ok (nominal_limits c) /\ limits_ok (data_limits c).

(** The divider [b] and the segments give exactly the bit rate, keep the limits, and no
    split of the same bit is nearer to the sample point: [t2] may be as long as it
    likes, because the code first places the sample point and then looks whether the
    second segment fits. *)
Definition acceptable (l : Limits) (fclk bitrate : Z) (sample_point : F64.t) (b seg1 seg2 : Z) : Prop :=
  b * (1 + seg1 + seg2) * bitrate = fclk /\
  tseg1_min l <= seg1 <= tseg1_max l /\ tseg2_min l <= seg2 <= tseg2_max l /\
  exists point, SF_llround (F64.mul sample_point (F64.of_Z (1 + seg1 + seg2))) = Some point /\
    forall t1 t2, t1 + t2 = seg1 + seg2 -> tseg1_min l <= t1 <= tseg1_max l -> tseg2_min l <= t2 ->
      Z.abs (seg1 + 1 - point) <= Z.abs (t1 + 1 - point).

(** The dividers the device has. *)
Definition on_grid (l : Limits) (b : Z) : Prop :=
  exists k, 0 <= k /\ b = brp_min l + k * brp_inc l /\ b <= brp_max l.

Section Timing.
Context (l : Limits) (fclk bitrate : Z) (sample_point : F64.t).
Context (Hl : limits_ok l) (Hf : 1 <= fclk < 4294967296) (Hb : 1 <= bitrate < 4294967296) (Hs : fraction sample_point).

Lemma llround_point total :
  0 < total < 4294967296 ->
  exists point, llround (F64.mul sample_point (F64.of_Z total)) = Some point /\
    SF_llround (F64.mul sample_point (F64.of_Z total)) = Some point.
Proof.
  intros Ht. destruct (llround_fraction sample_point total Hs Ht) as (point & E & Hp).
  exists point. split; [|done]. unfold llround. rewrite E.
  by replace ((-9223372036854775808 <=? point) && (point <=? 9223372036854775807)) with true by lia.
Qed.

(** The three clamps of the code pick the nearest admissible first segment. *)
Definition clamped (total point : Z) : Z :=
  let max_seg1 := total - 1 - tseg2_min l in
  let desired := point - 1 in
  let desired := if desired <? tseg1_min l then tseg1_min l else desired in
  let desired := if tseg1_max l <? desired then tseg1_max l else desired in
  if max_seg1 <? desired then max_seg1 else desired.

Lemma clamped_nearest total point :
  (tseg1_min l <= clamped total point ->
   tseg1_min l <= clamped total point <= tseg1_max l /\ tseg2_min l <= total - 1 - clamped total point /\
   forall t1, tseg1_min l <= t1 <= tseg1_max l -> tseg2_min l <= total - 1 - t1 ->
     Z.abs (clamped total point + 1 - point) <= Z.abs (t1 + 1 - point) /\
     (Z.abs (t1 + 1 - point) <= Z.abs (clamped total point + 1 - point) -> t1 = clamped total point)) /\
  (clamped total point < tseg1_min l ->
   forall t1, tseg1_min l <= t1 <= tseg1_max l -> tseg2_min l <= total - 1 - t1 -> False).
Proof.
  unfold clamped.
  destruct (Z.ltb_spec (point - 1) (tseg1_min l));
    match goal with |- context [tseg1_max l <? ?d] => destruct (Z.ltb_spec (tseg1_max l) d) end;
    match goal with |- context [total - 1 - tseg2_min l <? ?d] => destruct (Z.ltb_spec (total - 1 - tseg2_min l) d) end;
    (split; [intros Hc; split_and!; [lia|lia|lia|intros t1 Ht1 Ht2; split; lia]|intros Hc t1 Ht1 Ht2; lia]).
Qed.

Lemma attempt_spec b :
  1 <= b < 4294967296 ->
  (exists timing, attempt l fclk bitrate sample_point b = Found timing /\
     acceptable l fclk bitrate sample_point b (phase_seg1 timing) (phase_seg2 timing) /\
     timing = mkBitTiming 0 (phase_seg1 timing) (phase_seg2 timing)
                (Z.max 1 (Z.min (Z.min (phase_seg1 timing) (phase_seg2 timing)) (sjw_max l))) b) \/
  (attempt l fclk bitrate sample_point b = Continue /\
   forall seg1 seg2, ~ acceptable l fclk bitrate sample_point b seg1 seg2).
Proof.
  intros Hbr. destruct Hl as (H1 & H2 & H3 & H4 & H5 & H6 & H7 & H8). unfold u32_ok in *.
  unfold attempt. replace (u64 (bitrate * b)) with (bitrate * b) by (unfold u64; rewrite Z.mod_small; nia).
  assert (bitrate * b <> 0) as Hnz by nia. replace (bitrate * b =? 0) with false by lia. cbn [orb].
  destruct (Z.eqb_spec (fclk mod (bitrate * b)) 0) as [E|E]; cbn [negb].
  2: { right. split; [done|]. intros seg1 seg2 (Heq & _). apply E. rewrite <- Heq.
       replace (b * (1 + seg1 + seg2) * bitrate) with ((1 + seg1 + seg2) * (bitrate * b)) by lia.
       apply Z.mod_mul. nia. }
  set (total := fclk / (bitrate * b)).
  assert (fclk = bitrate * b * total) as Hfclk by (apply Z_div_exact_full_2; nia).
  assert (0 <= total <= fclk) as Htot by nia.
  assert (forall seg1 seg2, acceptable l fclk bitrate sample_point b seg1 seg2 -> 1 + seg1 + seg2 = total) as Hacc.
  { intros seg1 seg2 (Heq & _). apply (Z.mul_reg_l _ _ (bitrate * b)); [nia|]. lia. }
  clearbody total.
  destruct (Z.ltb_spec total (u32 (u32 (1 + tseg1_min l) + tseg2_min l))) as [Hlt|Hge].
  { right. split; [done|]. intros seg1 seg2 Ha. pose proof (Hacc _ _ Ha). destruct Ha as (_ & Ha1 & Ha2 & _).
    assert (forall x, 0 <= x -> u32 x <= x) as Hu by (intros x Hx; unfold u32; apply Z.mod_le; lia).
    pose proof (Hu (1 + tseg1_min l) ltac:(lia)).
    pose proof (Hu (u32 (1 + tseg1_min l) + tseg2_min l) ltac:(pose proof (u32_range (1 + tseg1_min l)); lia)). lia. }
  destruct (llround_point total ltac:(nia)) as (point & -> & Hp).
  fold (clamped total point). destruct (clamped_nearest total point) as [Hin Hout].
  destruct (Z.ltb_spec (clamped total point) (tseg1_min l)) as [Hlow|Hlow].
  { right. split; [done|]. intros seg1 seg2 Ha. pose proof (Hacc _ _ Ha). destruct Ha as (_ & Ha1 & Ha2 & _).
    apply (Hout Hlow seg1); lia. }
  specialize (Hin Hlow) as (Hr1 & Hr2 & Hnear). set (seg1 := clamped total point) in *. clearbody seg1.
  rewrite (u32_small seg1) by lia.
  replace (u64 (total - 1 - seg1)) with (total - 1 - seg1) by (unfold u64; rewrite Z.mod_small; lia).
  rewrite (u32_small (total - 1 - seg1)) by lia.
  rewrite (u32_small b) by lia.
  replace (total - 1 - seg1 <? tseg2_min l) with false by lia. cbn [orb].
  destruct (Z.ltb_spec (tseg2_max l) (total - 1 - seg1)) as [Hbig|Hfit].
  - right. split; [done|]. intros s1 s2 Ha. pose proof (Hacc _ _ Ha).
    destruct Ha as (_ & Ha1 & Ha2 & point' & Hp' & Hn). replace (1 + s1 + s2) with total in Hp' by lia.
    assert (point' = point) as -> by congruence.
    assert (s1 = seg1); [|lia]. apply (Hnear s1); [lia|lia|]. apply (Hn seg1 (total - 1 - seg1)); lia.
  - left. eexists. split; [done|]. cbn [phase_seg1 phase_seg2]. split; [|done].
    split; [lia|]. split; [lia|]. split; [lia|]. exists point.
    replace (1 + seg1 + (total - 1 - seg1)) with total by lia. split; [done|].
    intros t1 t2 Heq Ht1 Ht2. apply (Hnear t1); lia.
Qed.

Lemma search_spec fuel : forall b,
  1 <= b -> u32_ok (brp_max l) -> 1 <= brp_inc l < 4294967296 ->
  (Z.to_nat ((brp_max l - b) / brp_inc l + 1) <= fuel)%nat ->
  exists r, search (attempt l fclk bitrate sample_point) (brp_max l) (brp_inc l) fuel b = Some r /\
  match r with
  | Some timing =>
      (exists k, 0 <= k /\ brp timing = b + k * brp_inc l /\ brp timing <= brp_max l /\
         forall i, 0 <= i < k -> forall seg1 seg2, ~ acceptable l fclk bitrate sample_point (b + i * brp_inc l) seg1 seg2) /\
      acceptable l fclk bitrate sample_point (brp timing) (phase_seg1 timing) (phase_seg2 timing) /\
      timing = mkBitTiming 0 (phase_seg1 timing) (phase_seg2 timing)
                 (Z.max 1 (Z.min (Z.min (phase_seg1 timing) (phase_seg2 timing)) (sjw_max l))) (brp timing)
  | None => forall i, 0 <= i -> b + i * brp_inc l <= brp_max l ->
      forall seg1 seg2, ~ acceptable l fclk bitrate sample_point (b + i * brp_inc l) seg1 seg2
  end.
Proof.
  unfold u32_ok. induction fuel as [|fuel IH]; intros b Hb1 Hm Hi Hfuel; cbn [search].
  - destruct (Z.ltb_spec (brp_max l) b) as [Hlt|Hge].
    + exists None. split; [done|]. intros i Hi0 Hle. nia.
    + pose proof (Z.div_pos (brp_max l - b) (brp_inc l)). lia.
  - destruct (Z.ltb_spec (brp_max l) b) as [Hlt|Hge].
    { exists None. split; [done|]. intros i Hi0 Hle. nia. }
    destruct (attempt_spec b ltac:(lia)) as [(timing & -> & Ha & Heq)|[-> Hno]].
    { exists (Some timing). split; [done|]. rewrite Heq. cbn [brp phase_seg1 phase_seg2].
      split; [exists 0; split_and!; [lia|lia|lia|intros; lia]|]. done. }
    replace (u64 (b + brp_inc l)) with (b + brp_inc l) by (unfold u64; rewrite Z.mod_small; lia).
    destruct (IH (b + brp_inc l)) as (r & -> & Hr); [lia|lia|done| |].
    { replace (brp_max l - (b + brp_inc l)) with (brp_max l - b + (-1) * brp_inc l) by lia.
      rewrite Z.div_add by lia. lia. }
    exists r. split; [done|]. destruct r as [timing|].
    + destruct Hr as ((k & Hk & Hbrp & Hle & Hbefore) & Hr). split; [|done].
      exists (k + 1). split_and!; [lia|lia|lia|]. intros i Hi1. destruct (Z.eq_dec i 0) as [->|Hn0].
      * by rewrite Z.mul_0_l, Z.add_0_r.
      * intros seg1 seg2. replace (b + i * brp_inc l) with (b + brp_inc l + (i - 1) * brp_inc l) by lia. apply Hbefore. lia.
    + intros i Hi0 Hle. destruct (Z.eq_dec i 0) as [->|Hn0].
      * by rewrite Z.mul_0_l, Z.add_0_r.
      * replace (b + i * brp_inc l) with (b + brp_inc l + (i - 1) * brp_inc l) in * by lia. apply Hr; lia.
Qed.

End Timing.

(** The guard of the code, for a value a [double] can hold other than NaN. *)
Lemma guard_fraction x :
  valid_binary 53 1024 x = true -> x <> S754_nan ->
  F64.leb x (F64.of_Z 0) || F64.leb (F64.of_Z 1) x = false <-> fraction x.
Proof.
  intros Hv Hn. unfold fraction. rewrite orb_false_iff.
  assert (F64.leb x (F64.of_Z 0) = negb (F64.ltb (F64.of_Z 0) x)) as ->.
  { destruct x as [[]|[]| |[] m e]; done. }
  assert (F64.leb (F64.of_Z 1) x = negb (F64.ltb x (F64.of_Z 1))) as ->.
  { change (F64.of_Z 1) with (S754_finite false 4503599627370496 (-52)).
    generalize 4503599627370496%positive. intros one.
    destruct x as [[]|[]| |[] m e]; try done. unfold F64.leb, F64.ltb, SFleb, SFltb, SFcompare.
    rewrite (Z.compare_antisym e (-52)). destruct (e ?= -52); cbn [CompOpp]; try done.
    change (Pos.compare_cont Eq one m) with (Pos.compare one m). change (Pos.compare_cont Eq m one) with (Pos.compare m one).
    rewrite (Pos.compare_antisym m one). by destruct (m ?= one)%positive. }
  rewrite !negb_false_iff. tauto.
Qed.

Lemma limits_of_ok c data_phase : constraints_ok c -> limits_ok (limits_of c data_phase).
Proof. intros (_ & Hn & Hd). by destruct data_phase. Qed.

(** C32: [ComputeBitTiming] always answers: the loop ends, no product, sum or rounding in
    it leaves its type.  A timing it returns has a divider of the device's grid,
    gives exactly the requested bit rate, keeps every limit, has its first segment as near
    to the sample point as the limits allow and a jump width of at least one, and no
    smaller divider of the grid would have done.  It returns nothing only when an
    argument is out of range or no divider of the grid can do it. *)
Theorem bit_timing_exact c bitrate sample_point data_phase :
  constraints_ok c -> u32_ok bitrate -> valid_binary 53 1024 sample_point = true -> sample_point <> S754_nan ->
  let l := limits_of c data_phase in
  exists answer, ComputeBitTiming c bitrate sample_point data_phase = Some answer /\
  match answer with
  | Some timing =>
      on_grid l (brp timing) /\
      acceptable l (fclk c) bitrate sample_point (brp timing) (phase_seg1 timing) (phase_seg2 timing) /\
      prop_seg timing = 0 /\
      sjw timing = Z.max 1 (Z.min (Z.min (phase_seg1 timing) (phase_seg2 timing)) (sjw_max l)) /\
      forall b, on_grid l b -> b < brp timing ->
        forall seg1 seg2, ~ acceptable l (fclk c) bitrate sample_point b seg1 seg2
  | None =>
      ~ fraction sample_point \/ bitrate = 0 \/ fclk c = 0 \/ brp_min l = 0 \/ brp_inc l = 0 \/ tseg2_min l = 0 \/
      forall b, on_grid l b -> forall seg1 seg2, ~ acceptable l (fclk c) bitrate sample_point b seg1 seg2
  end.
Proof.
  intros Hc Hb Hv Hn l. pose proof (limits_of_ok c data_phase Hc) as Hl. destruct Hc as (Hf & _).
  pose proof (guard_fraction sample_point Hv Hn) as Hg.
  assert (limits_ok l) as Hl' by done. destruct Hl' as (_ & _ & H3 & _ & _ & H6 & H7 & H8).
  unfold ComputeBitTiming, u32_ok in *. fold l in Hl |- *.
  destruct (Z.eqb_spec (fclk c) 0); [exists None; auto 7|].
  destruct (Z.eqb_spec bitrate 0); [exists None; auto|]. cbn [orb].
  destruct (_ || _); [exists None; split; [done|left; intros Hfr%Hg; done]|].
  destruct (Z.eqb_spec (brp_min l) 0); [exists None; auto 7|].
  destruct (Z.eqb_spec (brp_inc l) 0); [exists None; auto 8|].
  destruct (Z.eqb_spec (tseg2_min l) 0); [exists None; auto 9|]. cbn [orb].
  destruct (search_spec l (fclk c) bitrate sample_point Hl ltac:(lia) ltac:(lia) (proj1 Hg eq_refl)
    (Z.to_nat ((brp_max l - brp_min l) / brp_inc l + 1)) (brp_min l)) as (r & -> & Hr); [lia|done|lia|lia|].
  exists r. split; [done|]. destruct r as [timing|].
  - destruct Hr as ((k & Hk & Hbrp & Hle & Hbefore) & Ha & Heq).
    split; [by exists k|]. split; [done|]. rewrite Heq. cbn [prop_seg sjw brp phase_seg1 phase_seg2].
    split_and!; [done|done|]. intros b (i & Hi & -> & _) Hlt. apply Hbefore. nia.
  - do 6 right. intros b (i & Hi & -> & Hle). by apply Hr.
Qed.

(** ** Examples *)

Definition example_constraints : BtConstExt :=
  mkConst 9475 80000000 (mkLimits 1 255 2 128 128 1 512 1) (mkLimits 1 31 2 16 16 1 32 1).

(** The limits the firmware reports in test/gs_usb_protocol_test.cc. *)
Definition firmware_constants : list Z :=
  flat_map WriteLe32 [9475; 80000000; 1; 255; 2; 128; 128; 1; 512; 1; 1; 31; 2; 16; 16; 1; 32; 1].

Example firmware_limits :
  DecodeBtConstExt firmware_constants = Some example_constraints /\
  ComputeBitTiming example_constraints 5000000 (F64.lit 882 1000) true = Some (Some (mkBitTiming 0 13 2 2 1)) /\
  ComputeBitTiming example_constraints 7000000 (F64.lit 8 10) false = Some None.
Proof. split_and!; vm_compute; reflexivity. Qed.

Lemma bit_timing_exact_witness :
  ComputeBitTiming example_constraints 1000000 (F64.lit 765 1000) false = Some (Some (mkBitTiming 0 60 19 19 1)) /\
  acceptable (nominal_limits example_constraints) 80000000 1000000 (F64.lit 765 1000) 1 60 19.
Proof.
  destruct (bit_timing_exact example_constraints 1000000 (F64.lit 765 1000) false) as (answer & E & H);
    [by vm_compute|by vm_compute|by vm_compute|by vm_compute|].
  assert (ComputeBitTiming example_constraints 1000000 (F64.lit 765 1000) false = Some (Some (mkBitTiming 0 60 19 19 1))) as E'
    by (vm_compute; reflexivity).
  split; [exact E'|]. rewrite E' in E. injection E as <-. apply H.
Defined.
