(* ===== verification/GsUsbAdapter.v ===== *)
(** * GsUsbAdapter: plugins/adapter/gsUsb/gs_usb_adapter.cc

    The adapter above the wire format: what it sends, what it makes of the bytes it
    reads, and how it configures the channels of the device (with the control transfers
    of transport/winusb_device.cc).  WinUSB is a script: it says for each control
    transfer whether the device acknowledged it, for each attempt to write whether the
    adapter was still running and the bytes were taken, and for each read what came. *)
From stdpp Require Import base strings option list numbers gmap.
From Stdlib Require Import ZArith Lia.
From Stdlib Require Import SpecFloat.
From S2P Require Import Prelude CFloat Types AdapterExtend BusTiming GsUsbProtocol.
#[local] Open Scope Z_scope.
#[local] Open Scope cint_scope.

(** ** Control transfers *)

Inductive Request := kRqHostFormat | kRqBitTiming | kRqMode | kRqBtConstExt | kRqDataBitTiming.

#[export] Instance Request_eq_dec : EqDecision Request.
Proof. solve_decision. Defined.

(** [bRequest], [wValue] and the payload. *)
Record Transfer := mkTransfer { request : Request; value : Z; payload : list Z }.

(** The transfers the device has acknowledged, and what it will answer to the next. *)
Record Device := mkDevice { acknowledged : list Transfer; answers : list bool }.

Definition ControlTransfer (transfer : Transfer) (d : Device) : bool * Device :=
  match answers d with
  | true :: rest => (true, mkDevice (acknowledged d ++ [transfer]) rest)
  | false :: rest => (false, mkDevice (acknowledged d) rest)
  | [] => (false, d)
  end.

Definition kHostFormatMagic : Z := 48879.
Definition kModeListenOnly : Z := 1.
Definition kModeLoopback : Z := 2.
Definition kModeFd : Z := 256.

Definition WriteHostFormat : Device -> bool * Device :=
  ControlTransfer (mkTransfer kRqHostFormat 0 (WriteLe32 kHostFormatMagic)).

(** [constants] is what the device sends. *)
Definition ReadBtConstExt (constants : list Z) (d : Device) : option BtConstExt * Device :=
  let (ok, d) := ControlTransfer (mkTransfer kRqBtConstExt 0 []) d in
  (if ok then DecodeBtConstExt constants else None, d).

Definition WriteBitTiming (timing : BitTiming) (data_phase : bool) (channel : Z) : Device -> bool * Device :=
  ControlTransfer (mkTransfer (if data_phase then kRqDataBitTiming else kRqBitTiming) (u16 channel) (EncodeBitTiming timing)).

Definition StartChannel (channel : Z) (fd listen_only loopback : bool) : Device -> bool * Device :=
  let flags := (if fd then kModeFd else 0) .| (if listen_only then kModeListenOnly else 0) .|
               (if loopback then kModeLoopback else 0) in
  ControlTransfer (mkTransfer kRqMode (u16 channel) (WriteLe32 1 ++ WriteLe32 flags)).

Definition StopChannel (channel : Z) : Device -> bool * Device :=
  ControlTransfer (mkTransfer kRqMode (u16 channel) (WriteLe32 0 ++ WriteLe32 0)).

(** ** The adapter *)

Record Adapter := mkAdapter {
  channels_ : nat;
  timings_ : list Timing;
  constraints_ : BtConstExt;
  running_ : bool;
  echo_counter_ : Z
}.

Inductive Failure :=
| NoSuchChannel | BadExtend (e : ExtendError) | HostFormatFailed | BtConstFailed
| NoBitTiming (channel : Z) | BitTimingFailed (channel : Z) | StartFailed (channel : Z)
| ReconfigurationFailed (channel : Z).

Definition channel_exists (channels : nat) (bus : Z * Z) : bool :=
  (bus.1 =? 0) && (0 <=? bus.2) && (u32 bus.2 <? Z.of_nat channels).

(** The two bit timings of a channel; [None] when one of them has none (by
    [bit_timing_exact] the search itself always answers). *)
Definition bit_timings (constraints : BtConstExt) (timing : Timing) : option (BitTiming * BitTiming) :=
  match ComputeBitTiming constraints (bitrate timing) (sample_point timing) false,
        ComputeBitTiming constraints (dbitrate timing) (dsample_point timing) true with
  | Some (Some nominal), Some (Some data) => Some (nominal, data)
  | _, _ => None
  end.

(** [&&] of the code: a transfer is made only after the one before was acknowledged. *)
Definition also (step : Device -> bool * Device) (r : bool * Device) : bool * Device :=
  if r.1 then step r.2 else r.

(** The loop of the constructor over its channels. *)
Fixpoint start_channels (constraints : BtConstExt) (timings : list Timing) (channel : Z) (d : Device) : option Failure * Device :=
  match timings with
  | [] => (None, d)
  | timing :: timings =>
      match bit_timings constraints timing with
      | None => (Some (NoBitTiming channel), d)
      | Some (nominal, data) =>
          let (ok, d) := also (WriteBitTiming data true channel) (WriteBitTiming nominal false channel d) in
          if negb ok then (Some (BitTimingFailed channel), d)
          else
            let (ok, d) := StartChannel channel true false false d in
            if negb ok then (Some (StartFailed channel), d)
            else start_channels constraints timings (channel + 1) d
      end
  end.

(** [StopChannel] for every channel, whatever it answers. *)
Definition stop_channels (channels : nat) (d : Device) : Device :=
  foldl (fun d channel => (StopChannel channel d).2) d (seqZ 0 (Z.of_nat channels)).

(** The constructor, on an open device with [channels] channels. *)
Definition Construct (extend : AdapterExtend) (channels : nat) (constants : list Z) (d : Device)
    : (Adapter + Failure) * Device :=
  if negb (forallb (channel_exists channels) (DeclaredBuses extend)) then (inr NoSuchChannel, d)
  else
    match GsUsbTiming.BuildChannelTimings extend channels with
    | inr e => (inr (BadExtend e), d)
    | inl timings =>
        let (ok, d) := WriteHostFormat d in
        if negb ok then (inr HostFormatFailed, d)
        else
          match ReadBtConstExt constants d with
          | (None, d) => (inr BtConstFailed, d)
          | (Some constraints, d) =>
              match start_channels constraints timings 0 (stop_channels channels d) with
              | (Some failure, d) => (inr failure, d)
              | (None, d) => (inl (mkAdapter channels timings constraints true 1), d)
              end
          end
    end.

(** The destructor. *)
Definition Destruct (a : Adapter) (d : Device) : Device := stop_channels (channels_ a) d.

Definition Ok (a : Adapter) : bool := running_ a.

(** The loop of [UpdateBusExtend] over the declared buses. *)
Fixpoint update_channels (extend : AdapterExtend) (buses : list (Z * Z)) (a : Adapter) (d : Device)
    : option Failure * (Adapter * Device) :=
  match buses with
  | [] => (None, (a, d))
  | (slave, channel) :: buses =>
      match BusOverride extend slave channel with
      | None => update_channels extend buses a d
      | Some overrides =>
          if negb (channel_exists (channels_ a) (slave, channel)) then (Some NoSuchChannel, (a, d))
          else
            let timing := nth (Z.to_nat channel) (timings_ a) GsUsbTiming.default in
            match GsUsbTiming.ApplyChannelTiming overrides timing with
            | inr e => (Some (BadExtend e), (a, d))
            | inl timing =>
                match bit_timings (constraints_ a) timing with
                | None => (Some (NoBitTiming channel), (a, d))
                | Some (nominal, data) =>
                    let (ok, d) :=
                      also (StartChannel channel true false false)
                        (also (WriteBitTiming data true channel)
                          (also (WriteBitTiming nominal false channel) (StopChannel channel d))) in
                    if negb ok then (Some (ReconfigurationFailed channel), (a, d))
                    else
                      update_channels extend buses
                        (mkAdapter (channels_ a) (<[Z.to_nat channel := timing]> (timings_ a))
                           (constraints_ a) (running_ a) (echo_counter_ a)) d
                end
            end
      end
  end.

Definition UpdateBusExtend (extend : AdapterExtend) (a : Adapter) (d : Device) : option Failure * (Adapter * Device) :=
  update_channels extend (DeclaredBuses extend) a d.

(** ** Sending *)

Definition kWriteAttempts : nat := 20.

(** [script] says for each attempt whether the adapter runs and the device takes the
    bytes. *)
Fixpoint write_attempts (script : nat -> bool * bool) (attempt left_ : nat) : bool :=
  match left_ with
  | O => false
  | S left_ =>
      let (running, taken) := script attempt in
      if negb running then false
      else if taken then true
      else write_attempts script (S attempt) left_
  end.

Definition WriteBuffer (script : nat -> bool * bool) : bool := write_attempts script 0 kWriteAttempts.

Definition frame_of (echo : Z) (message : MotorMessage) : Frame :=
  let pack := mdata message in
  let flags := SanitizeCanFrameFlags (frame_flags pack) in
  let extended := CanFrameFlagsUseExtendedId flags in
  let can_id := id pack .& (if extended then kCanExtIdMask else kCanStdIdMask) in
  let can_id := if extended then can_id .| kCanEff else can_id in
  let can_id := if CanFrameFlagsUseRtr flags then can_id .| kCanRtr else can_id in
  let dlc := u8 (Z.min (len pack) 8) in
  mkFrame echo can_id dlc (u8 (bus_idx message))
    (if CanFrameFlagsUseCanFd flags then kFrameFlagFd .| kFrameFlagBrs else 0) 0
    (take (Z.to_nat dlc) (data pack) ++ replicate (64 - Z.to_nat dlc) 0).

(** [wire] is what the device has taken so far. *)
Definition WriteFrame (script : nat -> bool * bool) (message : MotorMessage) (a : Adapter) (wire : list (list Z))
    : bool * (Adapter * list (list Z)) :=
  let echo := u32 (echo_counter_ a mod 9 + 1) in
  let a := mkAdapter (channels_ a) (timings_ a) (constraints_ a) (running_ a) (u32 (echo_counter_ a + 1)) in
  match EncodeFrame (frame_of echo message) kFdFrameSize with
  | None => (false, (a, wire))
  | Some buffer => if WriteBuffer script then (true, (a, wire ++ [buffer])) else (false, (a, wire))
  end.

(** One message, or a list of messages: [scripts] says how the writes of each go. *)
Fixpoint write_all (scripts : nat -> nat -> bool * bool) (index : nat) (messages : MotorMessages) (s : Adapter * list (list Z))
    : Adapter * list (list Z) :=
  match messages with
  | [] => s
  | message :: messages => write_all scripts (S index) messages (WriteFrame (scripts index) message s.1 s.2).2
  end.

Definition Send (scripts : nat -> nat -> bool * bool) (messages : MotorMessages) (s : Adapter * list (list Z)) : Adapter * list (list Z) :=
  if negb (Ok s.1) then s else write_all scripts 0 messages s.

Definition SendSynchronized := Send.

(** ** Receiving *)

Definition frame_message (frame : Frame) : MotorMessage :=
  let extended := negb (can_id frame .& kCanEff =? 0) in
  let rtr := negb (can_id frame .& kCanRtr =? 0) in
  let bits := (if extended then kCanFrameFlagEff else 0) .| (if rtr then kCanFrameFlagRtr else 0) .|
              (if negb (flags frame .& kFrameFlagFd =? 0) then kCanFrameFlagFdMask else 0) in
  let size := u8 (Z.min (dlc frame) 8) in
  mkMsg (channel frame)
    (mkPack (can_id frame .& (if extended then kCanExtIdMask else kCanStdIdMask)) (SanitizeCanFrameFlags bits) size
       (take (Z.to_nat size) (frame_data frame) ++ replicate (8 - Z.to_nat size) 0)).

(** The frames the loop drops: of a channel the device does not have, an echo of an
    own frame, an error frame. *)
Definition dropped (channels : nat) (frame : Frame) : bool :=
  (Z.of_nat channels <=? channel frame) || negb (echo_id frame =? kEchoBusFrame) ||
  negb (can_id frame .& kCanErr =? 0).

(** The inner loop: [fuel] at least the number of bytes is enough, each frame has some. *)
Fixpoint parse_frames (fuel channels : nat) (d : list Z) : list MotorMessages :=
  match fuel, d with
  | O, _ | _, [] => []
  | S fuel, _ =>
      match DecodeFrame d with
      | None => []
      | Some (consumed, frame) =>
          let rest := parse_frames fuel channels (drop consumed d) in
          if dropped channels frame then rest else [frame_message frame] :: rest
      end
  end.

(** What [Read] returns: -1, or the bytes (none after a timeout). *)
Inductive ReadResult := ReadFailed | ReadBytes (d : list Z).

(** [ReceiveLoop] until the script ends: the batches given to [OnMessage]. *)
Fixpoint ReceiveLoop (reads : list ReadResult) (a : Adapter) : Adapter * list MotorMessages :=
  if negb (running_ a) then (a, [])
  else
    match reads with
    | [] => (a, [])
    | ReadFailed :: _ => (mkAdapter (channels_ a) (timings_ a) (constraints_ a) false (echo_counter_ a), [])
    | ReadBytes d :: reads =>
        let (a', delivered) := ReceiveLoop reads a in
        (a', parse_frames (length d) (channels_ a) d ++ delivered)
    end.

(** ** What the other side sees of a message *)

(** A message in the form it is received: the identifier cut to its width, the two FD
    bits together or not at all, at most eight bytes. *)
Definition normal (message : MotorMessage) : MotorMessage :=
  let pack := mdata message in
  let flags := frame_flags pack in
  let size := Z.min (len pack) 8 in
  mkMsg (bus_idx message)
    (mkPack (id pack .& (if CanFrameFlagsUseExtendedId flags then kCanExtIdMask else kCanStdIdMask))
       ((if CanFrameFlagsUseExtendedId flags then 1 else 0) + (if CanFrameFlagsUseRtr flags then 8 else 0) +
        (if CanFrameFlagsUseCanFd flags then 6 else 0))
       size (take (Z.to_nat size) (data pack) ++ replicate (8 - Z.to_nat size) 0)).

(** A message CAN can carry: FD has no remote frames. *)
Definition sendable (message : MotorMessage) : Prop :=
  pack_wf (mdata message) /\ byte_ok (bus_idx message) /\
  CanFrameFlagsUseCanFd (frame_flags (mdata message)) && CanFrameFlagsUseRtr (frame_flags (mdata message)) = false.

(** What the device puts into its pipe: the echo of a frame of the host, with the
    number the host gave it, or a frame of another node. *)
Inductive Item := Echo (echo : Z) (message : MotorMessage) | Bus (message : MotorMessage).

Definition item_bytes (item : Item) : list Z :=
  match item with
  | Echo echo message => default [] (EncodeFrame (frame_of echo message) kFdFrameSize)
  | Bus message => default [] (EncodeFrame (frame_of kEchoBusFrame message) kFdFrameSize)
  end.

Definition item_ok (item : Item) : Prop :=
  match item with
  | Echo echo message => 1 <= echo <= 9 /\ sendable message
  | Bus message => sendable message
  end.

(** What the adapter passes on of it. *)
Definition item_messages (channels : nat) (item : Item) : list MotorMessages :=
  match item with
  | Echo _ _ => []
  | Bus message => if bus_idx message <? Z.of_nat channels then [[normal message]] else []
  end.

Lemma low_byte x : u8 (x .& 255) = u8 x.
Proof. unfold u8. rewrite (land_ones_pow x 255 8) by lia. change (2 ^ 8) with 256. by rewrite Z.mod_mod by lia. Qed.

Lemma ReadLe32_WriteLe32 v rest : u32_ok v -> ReadLe32 (WriteLe32 v ++ rest) = v.
Proof.
  intros Hv. unfold ReadLe32, WriteLe32, byte_at. cbn [app nth]. rewrite !low_byte. by apply le32_split.
Qed.

(** The bits of the identifier word. *)
Section CanId.
Context (i : Z) (extended rtr : bool).

Definition can_word : Z :=
  let can_id := i .& (if extended then kCanExtIdMask else kCanStdIdMask) in
  let can_id := if extended then can_id .| kCanEff else can_id in
  if rtr then can_id .| kCanRtr else can_id.

Lemma masked_range : 0 <= i .& (if extended then kCanExtIdMask else kCanStdIdMask) < 536870912.
Proof.
  destruct extended; unfold kCanExtIdMask, kCanStdIdMask.
  - rewrite (land_ones_pow i 536870911 29) by lia. apply (Z.mod_pos_bound i (2 ^ 29)). lia.
  - rewrite (land_ones_pow i 2047 11) by lia. pose proof (Z.mod_pos_bound i (2 ^ 11)). lia.
Qed.

Lemma can_word_range : u32_ok can_word.
Proof.
  pose proof masked_range as Hm. unfold can_word, u32_ok. cbv zeta. revert Hm.
  generalize (i .& (if extended then kCanExtIdMask else kCanStdIdMask)). intros m Hm.
  destruct extended, rtr; rewrite <- ?Z.lor_assoc; rewrite ?(Z.lor_comm m).
  all: rewrite ?(lor_high_add _ m 29) by first [reflexivity | lia].
  1: change (kCanEff .| kCanRtr) with 3221225472. all: unfold kCanEff, kCanRtr; lia.
Qed.

(** A mask against the word: bit by bit. *)
Ltac can_bits :=
  unfold can_word, kCanEff, kCanRtr, kCanErr, kCanExtIdMask, kCanStdIdMask; cbv zeta;
  destruct extended, rtr; rewrite ?Z.land_lor_distr_l, <- ?Z.land_assoc;
  repeat match goal with |- context [Z.land (Zpos ?a) (Zpos ?b)] =>
    let v := eval vm_compute in (Z.land (Zpos a) (Zpos b)) in change (Z.land (Zpos a) (Zpos b)) with v end;
  rewrite ?Z.land_0_r, ?Z.lor_0_l, ?Z.lor_0_r; reflexivity.

Lemma can_word_eff : (can_word .& kCanEff =? 0) = negb extended.
Proof. can_bits. Qed.
Lemma can_word_rtr : (can_word .& kCanRtr =? 0) = negb rtr.
Proof. can_bits. Qed.
Lemma can_word_err : can_word .& kCanErr = 0.
Proof. can_bits. Qed.
Lemma can_word_ext : can_word .& kCanExtIdMask = i .& (if extended then kCanExtIdMask else kCanStdIdMask).
Proof. can_bits. Qed.
Lemma can_word_id :
  can_word .& (if extended then kCanExtIdMask else kCanStdIdMask) = i .& (if extended then kCanExtIdMask else kCanStdIdMask).
Proof. can_bits. Qed.

Lemma can_word_valid : (can_word .& kCanEff =? 0) && (kCanStdIdMask <? can_word .& kCanExtIdMask) = false.
Proof.
  rewrite can_word_eff, can_word_ext. destruct extended; cbn [negb andb]; [done|].
  unfold kCanStdIdMask. rewrite (land_ones_pow i 2047 11) by lia. pose proof (Z.mod_pos_bound i (2 ^ 11)). lia.
Qed.
End CanId.

Lemma FrameSize_range fl : (20 <= FrameSize fl <= 76)%nat.
Proof. unfold FrameSize, kFdFrameSize, kClassicFrameSize. destruct (negb _); lia. Qed.

(** Decoding a well-formed frame, whatever follows it. *)
Lemma DecodeFrame_bytes echo can size ch (fd : bool) content rest :
  let fl := if fd then 6 else 0 in
  u32_ok echo -> u32_ok can -> 0 <= size <= 8 -> length content = (FrameSize fl - 12)%nat ->
  (can .& kCanEff =? 0) && (kCanStdIdMask <? can .& kCanExtIdMask) = false ->
  fd && negb (can .& kCanRtr =? 0) = false ->
  DecodeFrame (WriteLe32 echo ++ WriteLe32 can ++ [size; ch; fl; 0] ++ content ++ rest) =
  Some (FrameSize fl, mkFrame echo can size ch fl 0 (take (Z.to_nat size) content ++ replicate (64 - Z.to_nat size) 0)).
Proof.
  intros fl Hecho Hcan Hsize Hlen Hid Hrtr. unfold DecodeFrame.
  set (bytes := WriteLe32 echo ++ _).
  assert (20 <= FrameSize fl)%nat as H20 by (apply FrameSize_range).
  assert (length bytes = FrameSize fl + length rest)%nat as Hl.
  { unfold bytes. rewrite !length_app, Hlen. cbn [WriteLe32 length]. lia. }
  rewrite Hl. change (byte_at bytes 10) with fl. change (byte_at bytes 8) with size. change (byte_at bytes 9) with ch.
  replace (FrameSize fl + length rest <? kClassicFrameSize)%nat with false by (symmetry; apply Nat.ltb_ge; unfold kClassicFrameSize; lia).
  replace (FrameSize fl + length rest <? FrameSize fl)%nat with false by (symmetry; apply Nat.ltb_ge; lia).
  assert (negb (fl .& Z.lnot (kFrameFlagFd .| kFrameFlagBrs .| kFrameFlagEsi) =? 0) = false) as -> by (by destruct fd).
  assert (ReadLe32 (drop 4 bytes) = can) as -> by (apply (ReadLe32_WriteLe32 can); done).
  assert (ReadLe32 bytes = echo) as -> by (apply (ReadLe32_WriteLe32 echo); done).
  change (drop 12 bytes) with (content ++ rest).
  rewrite Hid. assert (negb (fl .& kFrameFlagFd =? 0) = fd) as -> by (by destruct fd).
  assert ((if fd then (15 <? size) || negb (can .& kCanRtr =? 0)
           else (8 <? size) || negb (fl .& (kFrameFlagBrs .| kFrameFlagEsi) =? 0)) = false) as ->.
  { unfold fl. destruct fd; cbn [andb] in Hrtr; [rewrite Hrtr; by replace (15 <? size) with false by lia|].
    by replace (8 <? size) with false by lia. }
  replace (if fd then size else Z.min size 8) with size by (destruct fd; lia).
  rewrite take_app_le by lia. done.
Qed.

Lemma sanitized_flags flags :
  CanFrameFlagsUseExtendedId (SanitizeCanFrameFlags flags) = CanFrameFlagsUseExtendedId flags /\
  CanFrameFlagsUseRtr (SanitizeCanFrameFlags flags) = CanFrameFlagsUseRtr flags /\
  CanFrameFlagsUseCanFd (SanitizeCanFrameFlags flags) = CanFrameFlagsUseCanFd flags.
Proof.
  unfold CanFrameFlagsUseExtendedId, CanFrameFlagsUseRtr, CanFrameFlagsUseCanFd. by rewrite !sanitize_idem.
Qed.

(** The fields of the frame made for a message. *)
Lemma frame_of_eq echo message :
  sendable message ->
  let flags := frame_flags (mdata message) in
  let size := Z.min (len (mdata message)) 8 in
  frame_of echo message =
  mkFrame echo (can_word (id (mdata message)) (CanFrameFlagsUseExtendedId flags) (CanFrameFlagsUseRtr flags)) size
    (bus_idx message) (if CanFrameFlagsUseCanFd flags then 6 else 0) 0
    (take (Z.to_nat size) (data (mdata message)) ++ replicate (64 - Z.to_nat size) 0).
Proof.
  intros ((_ & _ & Hlen & _) & Hbus & _).
  unfold frame_of, can_word. cbv zeta. destruct (sanitized_flags (frame_flags (mdata message))) as (-> & -> & ->).
  unfold byte_ok in *. rewrite (u8_small (Z.min _ 8)), (u8_small (bus_idx message)) by (unfold byte_ok; lia).
  by destruct (CanFrameFlagsUseCanFd _).
Qed.

(** Decoding what [EncodeFrame] wrote. *)
Lemma DecodeFrame_frame_of echo message :
  u32_ok echo -> sendable message ->
  exists bytes, EncodeFrame (frame_of echo message) kFdFrameSize = Some bytes /\ (20 <= length bytes)%nat /\
    forall rest, DecodeFrame (bytes ++ rest) = Some (length bytes, frame_of echo message).
Proof.
  intros Hecho Hs. rewrite (frame_of_eq echo message Hs). destruct Hs as ((Hid & Hfl & Hlen & Hdl & Hd) & Hbus & Hfd).
  set (fd := CanFrameFlagsUseCanFd _) in *. set (rtr := CanFrameFlagsUseRtr _) in *.
  set (extended := CanFrameFlagsUseExtendedId _) in *. set (size := Z.min (len (mdata message)) 8).
  assert (0 <= size <= 8) as Hsize by (unfold byte_ok, size in *; lia). clearbody size fd rtr extended.
  set (fl := if fd then 6 else 0). set (n := Z.to_nat size). assert (n <= 8)%nat as Hn by lia.
  assert (20 <= FrameSize fl <= 76)%nat as Hf by (apply FrameSize_range).
  set (content := take n (data (mdata message)) ++ replicate (FrameSize fl - 12 - n) 0).
  assert (length (take n (data (mdata message))) = n) as Htake by (rewrite length_take; lia).
  assert (length content = FrameSize fl - 12)%nat as Hcontent.
  { unfold content. rewrite length_app, length_replicate, Htake. lia. }
  exists (WriteLe32 echo ++ WriteLe32 (can_word (id (mdata message)) extended rtr) ++ [size; bus_idx message; fl; 0] ++ content).
  split_and!.
  - unfold EncodeFrame. cbn [GsUsbProtocol.flags GsUsbProtocol.dlc GsUsbProtocol.echo_id GsUsbProtocol.can_id GsUsbProtocol.channel frame_data].
    fold fl. replace (kFdFrameSize <? FrameSize fl)%nat with false by (symmetry; apply Nat.ltb_ge; unfold kFdFrameSize; lia).
    replace (if negb (fl .& kFrameFlagFd =? 0) then size else Z.min size 8) with size by (destruct (negb _); lia).
    fold n. replace (64 <? n)%nat with false by (symmetry; apply Nat.ltb_ge; lia).
    unfold content. rewrite take_app_le by lia. by rewrite take_take, Nat.min_id.
  - rewrite !length_app, Hcontent. cbn [WriteLe32 length]. lia.
  - intros rest. rewrite <- !app_assoc. unfold fl in *.
    rewrite (DecodeFrame_bytes echo _ size (bus_idx message) fd content rest); [|done|apply can_word_range|done|done|apply can_word_valid|].
    + rewrite !length_app, Hcontent. cbn [WriteLe32 length]. f_equal. f_equal; [lia|]. f_equal.
      fold n. unfold content. rewrite take_app_le by lia. by rewrite take_take, Nat.min_id.
    + rewrite can_word_rtr, negb_involutive. done.
Qed.

Lemma frame_message_of echo message :
  sendable message -> frame_message (frame_of echo message) = normal message.
Proof.
  intros Hs. rewrite (frame_of_eq echo message Hs). destruct Hs as ((_ & _ & Hlen & Hdl & _) & _ & _).
  unfold frame_message, normal. cbn [GsUsbProtocol.flags GsUsbProtocol.dlc GsUsbProtocol.can_id GsUsbProtocol.channel frame_data].
  rewrite can_word_eff, can_word_rtr, !negb_involutive, can_word_id.
  set (size := Z.min (len (mdata message)) 8). assert (0 <= size <= 8) as Hsize by (unfold byte_ok, size in *; lia).
  replace (Z.min size 8) with size by lia. rewrite u8_small by (unfold byte_ok; lia).
  rewrite take_app_le by (rewrite length_take; lia). rewrite take_take, Nat.min_id.
  f_equal. f_equal. by destruct (CanFrameFlagsUseExtendedId _), (CanFrameFlagsUseRtr _), (CanFrameFlagsUseCanFd _).
Qed.

Lemma frame_of_dropped channels echo message :
  sendable message ->
  dropped channels (frame_of echo message) = (Z.of_nat channels <=? bus_idx message) || negb (echo =? kEchoBusFrame).
Proof.
  intros Hs. rewrite (frame_of_eq echo message Hs). unfold dropped.
  cbn [GsUsbProtocol.channel GsUsbProtocol.echo_id GsUsbProtocol.can_id]. rewrite can_word_err. by rewrite orb_false_r.
Qed.

(** One frame of a read. *)
Lemma parse_frames_cons fuel channels echo message rest :
  u32_ok echo -> sendable message -> (length (item_bytes (Echo echo message)) + length rest <= fuel)%nat ->
  exists fuel', (length rest <= fuel')%nat /\
    parse_frames fuel channels (item_bytes (Echo echo message) ++ rest) =
    let later := parse_frames fuel' channels rest in
    if (Z.of_nat channels <=? bus_idx message) || negb (echo =? kEchoBusFrame) then later else [normal message] :: later.
Proof.
  intros Hecho Hs Hfuel. cbn [item_bytes] in *. destruct (DecodeFrame_frame_of echo message Hecho Hs) as (bytes & E & Hl & Hd).
  rewrite E in *. cbn [default from_option Datatypes.id] in *. destruct fuel as [|fuel]; [lia|]. exists fuel. split; [lia|].
  destruct bytes as [|b bytes]; [cbn in Hl; lia|]. cbn [parse_frames app].
  rewrite (Hd rest : DecodeFrame (b :: bytes ++ rest) = _).
  change (drop (length (b :: bytes)) (b :: bytes ++ rest)) with (drop (length (b :: bytes)) ((b :: bytes) ++ rest)).
  rewrite drop_app_length, frame_of_dropped, frame_message_of by done. done.
Qed.

Lemma parse_frames_items channels items tail : forall fuel,
  Forall item_ok items -> DecodeFrame tail = None ->
  (length (flat_map item_bytes items ++ tail) <= fuel)%nat ->
  parse_frames fuel channels (flat_map item_bytes items ++ tail) = flat_map (item_messages channels) items.
Proof.
  induction items as [|item items IH]; intros fuel Hok Htail Hfuel.
  { destruct fuel, tail; cbn [flat_map app parse_frames]; [done|done|done|by rewrite Htail]. }
  apply list.Forall_cons in Hok as [Hitem Hok]. cbn [flat_map] in *. rewrite <- app_assoc in *.
  rewrite length_app in Hfuel.
  destruct item as [echo message|message]; cbn [item_ok item_messages] in *.
  - destruct Hitem as [Hecho Hs].
    destruct (parse_frames_cons fuel channels echo message (flat_map item_bytes items ++ tail)) as (fuel' & Hf & ->);
      [unfold u32_ok; lia|done|done|].
    replace (echo =? kEchoBusFrame) with false by (unfold kEchoBusFrame; lia).
    rewrite orb_true_r. by apply IH.
  - destruct (parse_frames_cons fuel channels kEchoBusFrame message (flat_map item_bytes items ++ tail)) as (fuel' & Hf & E);
      [by vm_compute|done|done|].
    rewrite Z.eqb_refl, orb_false_r in E.
    etransitivity; [exact E|]. cbn zeta. rewrite Z.leb_antisym.
    destruct (bus_idx message <? Z.of_nat channels); cbn [negb app]; [f_equal|]; by apply IH.
Qed.

(** [Read] by [Read]: whole frames, and perhaps a piece that is none. *)
Definition chunk (channels : nat) (items : list Item) (tail : list Z) : ReadResult :=
  ReadBytes (flat_map item_bytes items ++ tail).

Lemma ReceiveLoop_chunks channels timings constraints counter chunks : forall later,
  Forall (fun '(items, tail) => Forall item_ok items /\ DecodeFrame tail = None) chunks ->
  let a := mkAdapter channels timings constraints true counter in
  let (a', delivered) := ReceiveLoop later a in
  ReceiveLoop (map (fun '(items, tail) => chunk channels items tail) chunks ++ later) a =
  (a', flat_map (item_messages channels) (flat_map fst chunks) ++ delivered).
Proof.
  intros later Hok a. destruct (ReceiveLoop later a) as [a' delivered] eqn:E.
  induction chunks as [|[items tail] chunks IH]; cbn [map app flat_map fst]; [done|].
  apply list.Forall_cons in Hok as [[Hitems Htail] Hok]. unfold chunk at 1. cbn [ReceiveLoop running_ a].
  fold a. cbn [negb]. rewrite (IH Hok). cbn [channels_]. rewrite parse_frames_items by done.
  by rewrite flat_map_app, app_assoc.
Qed.

(** A message that is already in the form it is received. *)
Definition plain (message : MotorMessage) : Prop :=
  let pack := mdata message in
  id pack .& (if CanFrameFlagsUseExtendedId (frame_flags pack) then kCanExtIdMask else kCanStdIdMask) = id pack /\
  0 <= frame_flags pack < 16 /\ CanFrameFlagsHaveValidCanFdBits (frame_flags pack) = true /\
  0 <= len pack <= 8 /\ drop (Z.to_nat (len pack)) (data pack) = replicate (8 - Z.to_nat (len pack)) 0.

Lemma normal_plain message : plain message -> normal message = message.
Proof.
  destruct message as [bus [i fl l d]]. intros (Hid & Hfl & Hfd & Hl & Hd). cbn [mdata Types.id frame_flags len data] in *.
  unfold normal. cbn [mdata Types.id frame_flags len data bus_idx]. rewrite Hid. replace (Z.min l 8) with l by lia.
  rewrite <- Hd, take_drop. f_equal. f_equal. clear -Hfl Hfd.
  assert (Forall (fun fl => CanFrameFlagsHaveValidCanFdBits fl = true ->
    (if CanFrameFlagsUseExtendedId fl then 1 else 0) + (if CanFrameFlagsUseRtr fl then 8 else 0) +
    (if CanFrameFlagsUseCanFd fl then 6 else 0) = fl) (seqZ 0 16)) as Hall.
  { change (seqZ 0 16) with [0; 1; 2; 3; 4; 5; 6; 7; 8; 9; 10; 11; 12; 13; 14; 15].
    repeat (apply list.Forall_cons; split; [by vm_compute|]). by apply list.Forall_nil. }
  rewrite list.Forall_forall in Hall. apply Hall; [|done]. apply elem_of_seqZ. lia.
Qed.

(** [WriteBuffer] succeeds when one of its twenty attempts is taken and the adapter has
    run until then. *)
Lemma write_attempts_spec script left_ : forall attempt,
  write_attempts script attempt left_ = true <->
  exists k, (k < left_)%nat /\ (script (attempt + k)%nat).2 = true /\ forall j, (j <= k)%nat -> (script (attempt + j)%nat).1 = true.
Proof.
  induction left_ as [|left_ IH]; intros attempt; cbn [write_attempts].
  { split; [done|]. intros (k & Hk & _). lia. }
  destruct (script attempt) as [running taken] eqn:E. destruct running; cbn [negb].
  2: { split; [done|]. intros (k & _ & _ & Hr). specialize (Hr 0%nat ltac:(lia)). rewrite Nat.add_0_r, E in Hr. done. }
  destruct taken.
  { split; [intros _|done]. exists 0%nat. rewrite Nat.add_0_r, E. split_and!; [lia|done|].
    intros j Hj. replace j with 0%nat by lia. by rewrite Nat.add_0_r, E. }
  rewrite IH. split.
  - intros (k & Hk & Ht & Hr). exists (S k). rewrite <- Nat.add_succ_comm. split_and!; [lia|done|].
    intros [|j] Hj; [by rewrite Nat.add_0_r, E|]. rewrite <- Nat.add_succ_comm. apply Hr. lia.
  - intros ([|k] & Hk & Ht & Hr); [by rewrite Nat.add_0_r, E in Ht|]. exists k. rewrite <- Nat.add_succ_comm in Ht.
    split_and!; [lia|done|]. intros j Hj. rewrite Nat.add_succ_comm. apply Hr. lia.
Qed.

Lemma WriteFrame_sendable script message a wire :
  sendable message ->
  exists echo, 1 <= echo <= 9 /\
    WriteFrame script message a wire =
    (WriteBuffer script,
     (mkAdapter (channels_ a) (timings_ a) (constraints_ a) (running_ a) (u32 (echo_counter_ a + 1)),
      if WriteBuffer script then wire ++ [item_bytes (Echo echo message)] else wire)).
Proof.
  intros Hs. pose proof (Z.mod_pos_bound (echo_counter_ a) 9 ltac:(lia)) as Hc.
  exists (echo_counter_ a mod 9 + 1). split; [lia|]. unfold WriteFrame. rewrite u32_small by lia.
  destruct (DecodeFrame_frame_of (echo_counter_ a mod 9 + 1) message) as (bytes & E & _); [unfold u32_ok; lia|done|].
  cbn [item_bytes]. rewrite E. cbn [default from_option Datatypes.id]. by destruct (WriteBuffer script).
Qed.

(** C33: a message that CAN can carry is written as one frame with a number from 1 to 9,
    exactly when one of the twenty attempts is taken while the adapter runs.  When the
    device sends back frames of the host as echoes, frames of other nodes in the same
    layout, and at the end of a read bytes that are no frame, the receive loop passes on
    exactly the messages of the other nodes on existing channels, in order and each in
    its normal form; a message already in that form comes back unchanged.  A failed
    read ends the loop and makes the adapter unavailable. *)
Theorem gs_usb_roundtrip :
  (forall script message a wire, sendable message ->
     exists echo, 1 <= echo <= 9 /\ (WriteFrame script message a wire).2.2 =
       if WriteBuffer script then wire ++ [item_bytes (Echo echo message)] else wire) /\
  (forall script, WriteBuffer script = true <->
     exists k, (k < 20)%nat /\ (script k).2 = true /\ forall j, (j <= k)%nat -> (script j).1 = true) /\
  (forall a chunks, Ok a = true ->
     Forall (fun '(items, tail) => Forall item_ok items /\ DecodeFrame tail = None) chunks ->
     let (a', delivered) := ReceiveLoop (map (fun '(items, tail) => chunk (channels_ a) items tail) chunks ++ [ReadFailed]) a in
     Ok a' = false /\ delivered = flat_map (item_messages (channels_ a)) (flat_map fst chunks)) /\
  (forall message, plain message -> normal message = message).
Proof.
  split_and!.
  - intros script message a wire Hs. destruct (WriteFrame_sendable script message a wire Hs) as (echo & He & ->). by exists echo.
  - intros script. apply (write_attempts_spec script kWriteAttempts 0).
  - intros [channels timings constraints running counter] chunks Hok Hchunks. cbn [Ok running_ channels_] in *. subst running.
    rewrite (ReceiveLoop_chunks channels timings constraints counter chunks [ReadFailed] Hchunks). by rewrite app_nil_r.
  - apply normal_plain.
Qed.

Definition example_message (bus : Z) : MotorMessage := mkMsg bus (mkPack 291 6 3 [1; 2; 3; 0; 0; 0; 0; 0]).
Definition example_adapter : Adapter := mkAdapter 2 (replicate 2 GsUsbTiming.default) example_constraints true 1.

Lemma example_sendable bus : byte_ok bus -> sendable (example_message bus).
Proof.
  intros Hb. split; [|split; [done|by vm_compute]]. split_and!; [by cbn|by cbn|by apply byte_ok_cst|by apply byte_ok_cst|done|].
  cbn. bytes_ok.
Qed.

(** An own echo, a frame of a channel the device does not have, a frame for channel 1
    and a truncated one. *)
Lemma gs_usb_roundtrip_witness :
  let items := [Echo 3 (example_message 0); Bus (example_message 7); Bus (example_message 1)] in
  Forall item_ok items /\
  (ReceiveLoop (map (fun '(items, tail) => chunk 2 items tail) [(items, [1; 2; 3])] ++ [ReadFailed]) example_adapter).2 =
  [[example_message 1]].
Proof.
  intros items. assert (Forall item_ok items) as Hitems.
  { repeat (apply list.Forall_cons; split); [split; [lia|]| | |by apply list.Forall_nil]; apply example_sendable; by apply byte_ok_cst. }
  split; [done|]. destruct gs_usb_roundtrip as (_ & _ & H & _).
  specialize (H example_adapter [(items, [1; 2; 3])] eq_refl).
  destruct (ReceiveLoop _ _) as [a' delivered] eqn:E in H.
  destruct H as [_ H]; [apply list.Forall_cons; split; [split; [exact Hitems|reflexivity]|apply list.Forall_nil; exact I]|]. cbn [channels_ example_adapter] in E. rewrite E. exact H.
Defined.

(** ** The state of a channel, from what the device has acknowledged *)

Record ChannelState := mkState { started : bool; nominal_timing : list Z; data_timing : list Z }.

Definition start_payload : list Z := WriteLe32 1 ++ WriteLe32 kModeFd.

Definition apply_transfer (channel : Z) (s : ChannelState) (t : Transfer) : ChannelState :=
  if negb (value t =? channel) then s
  else
    match request t with
    | kRqMode => mkState (bool_decide (payload t = start_payload)) (nominal_timing s) (data_timing s)
    | kRqBitTiming => mkState (started s) (payload t) (data_timing s)
    | kRqDataBitTiming => mkState (started s) (nominal_timing s) (payload t)
    | _ => s
    end.

(** A device may have been left in any state [before] the adapter opened it. *)
Definition channel_state (before : ChannelState) (d : Device) (channel : Z) : ChannelState :=
  foldl (apply_transfer channel) before (acknowledged d).

(** The channel runs with exactly the bit timings computed from [timing]. *)
Definition runs (constraints : BtConstExt) (timing : Timing) (s : ChannelState) : Prop :=
  started s = true /\
  exists nominal data, bit_timings constraints timing = Some (nominal, data) /\
    nominal_timing s = EncodeBitTiming nominal /\ data_timing s = EncodeBitTiming data.

(** Every channel is stopped or runs with its timing. *)
Definition tuned (before : ChannelState) (a : Adapter) (d : Device) : Prop :=
  (channels_ a <= 8)%nat /\ length (timings_ a) = channels_ a /\
  forall i timing, timings_ a !! i = Some timing ->
    started (channel_state before d (Z.of_nat i)) = true ->
    runs (constraints_ a) timing (channel_state before d (Z.of_nat i)).

Section Channels.
Context (before : ChannelState).

(** One transfer: acknowledged and applied, or without effect. *)
Lemma ControlTransfer_state t d ok d' :
  ControlTransfer t d = (ok, d') ->
  forall channel, channel_state before d' channel =
    if ok then apply_transfer channel (channel_state before d channel) t else channel_state before d channel.
Proof.
  unfold ControlTransfer, channel_state. destruct (answers d) as [|[] rest]; intros [= <- <-] channel; cbn [acknowledged];
    [done| |done]. by rewrite foldl_app.
Qed.

Lemma apply_other channel s t : value t <> channel -> apply_transfer channel s t = s.
Proof. intros Hne. unfold apply_transfer. by rewrite (proj2 (Z.eqb_neq _ _) Hne). Qed.

(** The four control transfers that concern one channel. *)
Section OneChannel.
Context (channel : Z) (Hch : 0 <= channel < 65536).

Lemma transfer_state rq bytes d ok d' :
  ControlTransfer (mkTransfer rq (u16 channel) bytes) d = (ok, d') ->
  (forall other, other <> channel -> channel_state before d' other = channel_state before d other) /\
  channel_state before d' channel =
    if ok then apply_transfer channel (channel_state before d channel) (mkTransfer rq channel bytes)
    else channel_state before d channel.
Proof.
  intros H. rewrite u16_small in H by lia. split; [|by apply (ControlTransfer_state _ _ _ _ H)].
  intros other Hne. rewrite (ControlTransfer_state _ _ _ _ H). destruct ok; [|done]. by apply apply_other.
Qed.

Ltac own_transfer H :=
  unfold apply_transfer in H; cbn [value request payload] in H; rewrite Z.eqb_refl in H; cbn [negb started] in H.

(** Both timings and the start, with the channel in any state. *)
Lemma configure_spec nominal data d ok d' :
  also (StartChannel channel true false false)
    (also (WriteBitTiming data true channel) (WriteBitTiming nominal false channel d)) = (ok, d') ->
  (forall other, other <> channel -> channel_state before d' other = channel_state before d other) /\
  (ok = true -> channel_state before d' channel = mkState true (EncodeBitTiming nominal) (EncodeBitTiming data)) /\
  (ok = false -> started (channel_state before d' channel) = started (channel_state before d channel)).
Proof.
  unfold also. destruct (WriteBitTiming nominal false channel d) as [ok1 d1] eqn:E1. cbn [fst snd].
  apply transfer_state in E1 as [Ho1 Hs1]. own_transfer Hs1.
  destruct ok1; [|intros [= <- <-]; split_and!; [done|done|by rewrite Hs1]].
  destruct (WriteBitTiming data true channel d1) as [ok2 d2] eqn:E2. cbn [fst snd].
  apply transfer_state in E2 as [Ho2 Hs2]. own_transfer Hs2.
  destruct ok2; cycle 1.
  { intros [= <- <-]. split_and!; [|done|by rewrite Hs2, Hs1]. intros other Hne. by rewrite Ho2, Ho1. }
  intros [Ho3 Hs3]%transfer_state. own_transfer Hs3. split_and!.
  - intros other Hne. by rewrite Ho3, Ho2, Ho1.
  - intros ->. rewrite Hs3, bool_decide_true by reflexivity. by rewrite Hs2, Hs1.
  - intros ->. by rewrite Hs3, Hs2, Hs1.
Qed.

Lemma stop_spec d ok d' :
  StopChannel channel d = (ok, d') ->
  (forall other, other <> channel -> channel_state before d' other = channel_state before d other) /\
  (if ok then started (channel_state before d' channel) = false else channel_state before d' channel = channel_state before d channel).
Proof.
  intros [Ho Hs]%transfer_state. own_transfer Hs. split; [done|]. destruct ok; [|done]. rewrite Hs. apply bool_decide_false. by vm_compute.
Qed.
End OneChannel.

(** A change of one channel, as [UpdateBusExtend] makes it. *)
Lemma retune_spec channel nominal data d ok d' :
  0 <= channel < 65536 ->
  also (StartChannel channel true false false)
    (also (WriteBitTiming data true channel) (also (WriteBitTiming nominal false channel) (StopChannel channel d))) = (ok, d') ->
  (forall other, other <> channel -> channel_state before d' other = channel_state before d other) /\
  if ok then channel_state before d' channel = mkState true (EncodeBitTiming nominal) (EncodeBitTiming data)
  else started (channel_state before d' channel) = false \/ channel_state before d' channel = channel_state before d channel.
Proof.
  intros Hch. destruct (StopChannel channel d) as [ok1 d1] eqn:E1. apply (stop_spec channel Hch) in E1 as [Ho1 Hs1].
  destruct ok1.
  - intros H. apply (configure_spec channel Hch) in H as (Ho & Hok & Hno). split; [intros other Hne; by rewrite Ho, Ho1|].
    destruct ok; [by apply Hok|]. left. by rewrite Hno.
  - cbn. intros [= <- <-]. split; [done|]. by right.
Qed.

Lemma start_channels_spec constraints timings : forall channel d failure d',
  0 <= channel -> channel + Z.of_nat (length timings) <= 65536 ->
  start_channels constraints timings channel d = (failure, d') ->
  (forall other, other < channel -> channel_state before d' other = channel_state before d other) /\
  (failure = None -> forall i timing, timings !! i = Some timing ->
     runs constraints timing (channel_state before d' (channel + Z.of_nat i))).
Proof.
  induction timings as [|timing timings IH]; intros channel d failure d' Hc Hlen H; cbn [start_channels length] in *.
  { injection H as <- <-. by split. }
  destruct (bit_timings constraints timing) as [[nominal data]|] eqn:Eb; [|by injection H as <- <-].
  destruct (also (WriteBitTiming data true channel) (WriteBitTiming nominal false channel d)) as [ok1 d1] eqn:E1.
  destruct ok1; cbn [negb] in H; cycle 1.
  { injection H as <- <-. assert (also (StartChannel channel true false false) (also (WriteBitTiming data true channel) (WriteBitTiming nominal false channel d)) = (false, d1))
      as E by by rewrite E1.
    apply (configure_spec channel ltac:(lia)) in E as (Ho & _). split; [|done].
    intros other Hlt. apply Ho. lia. }
  destruct (StartChannel channel true false false d1) as [ok2 d2] eqn:E2.
  assert (also (StartChannel channel true false false) (also (WriteBitTiming data true channel) (WriteBitTiming nominal false channel d)) = (ok2, d2))
    as E by by rewrite E1.
  apply (configure_spec channel ltac:(lia)) in E as (Ho & Hok & _).
  destruct ok2; cbn [negb] in H; cycle 1.
  { injection H as <- <-. split; [|done]. intros other Hlt. apply Ho. lia. }
  apply IH in H as [Hkeep Hruns]; [|lia|lia]. split; [intros other Hlt; rewrite Hkeep, Ho by lia; done|].
  intros Hf [|i] t Hi; cbn in Hi.
  - injection Hi as <-. rewrite Z.add_0_r, Hkeep, Hok by (done || lia). split; [done|]. by exists nominal, data.
  - replace (channel + Z.of_nat (S i)) with (channel + 1 + Z.of_nat i) by lia. by apply Hruns.
Qed.

(** ** UpdateBusExtend *)

Lemma channel_exists_spec channels bus :
  bus_ok bus -> channel_exists channels bus = true -> bus.1 = 0 /\ 0 <= bus.2 < Z.of_nat channels.
Proof.
  intros [_ Hb] H. unfold channel_exists in H. rewrite u32_small in H by (unfold kMaxBus in Hb; lia). lia.
Qed.

(** One channel gets new timings, acknowledged or not. *)
Lemma tuned_retune a d i timing nominal data ok d' :
  tuned before a d -> (i < channels_ a)%nat -> bit_timings (constraints_ a) timing = Some (nominal, data) ->
  also (StartChannel (Z.of_nat i) true false false)
    (also (WriteBitTiming data true (Z.of_nat i)) (also (WriteBitTiming nominal false (Z.of_nat i)) (StopChannel (Z.of_nat i) d))) = (ok, d') ->
  tuned before
    (mkAdapter (channels_ a) (if ok then <[i := timing]> (timings_ a) else timings_ a) (constraints_ a) (running_ a) (echo_counter_ a)) d' /\
  (forall other, other <> Z.of_nat i -> channel_state before d' other = channel_state before d other) /\
  (if ok then started (channel_state before d' (Z.of_nat i)) = true
   else started (channel_state before d' (Z.of_nat i)) = false \/
        channel_state before d' (Z.of_nat i) = channel_state before d (Z.of_nat i)).
Proof.
  intros (Hc & Hlen & Ht) Hi Hb H. apply retune_spec in H as [Ho Hs]; [|lia].
  split_and!; [|done|destruct ok; [by rewrite Hs|done]].
  split_and!; cbn [channels_ timings_ constraints_]; [done|destruct ok; [by rewrite length_insert|done]|].
  intros j t Hj Hst. destruct (decide (j = i)) as [->|Hne].
  - destruct ok; cycle 1.
    { destruct Hs as [Hs|Hs]; [congruence|]. rewrite Hs in *. by apply Ht. }
    rewrite list_lookup_insert_eq in Hj by lia. injection Hj as <-. rewrite Hs. split; [done|]. by exists nominal, data.
  - rewrite Ho in * by lia. apply Ht; [|done]. destruct ok; [|done]. by rewrite list_lookup_insert_ne in Hj by done.
Qed.

Lemma tuned_same a timings d :
  tuned before a d -> timings_ a = timings ->
  tuned before (mkAdapter (channels_ a) timings (constraints_ a) (running_ a) (echo_counter_ a)) d.
Proof. by intros H <-. Qed.

(** What an update did: the buses up to the first failure have new timings and run,
    every other channel is as it was, except that the one whose reconfiguration
    failed may be stopped. *)
Definition outcome (get : Z * Z -> Object) (buses : list (Z * Z)) (a : Adapter) (d : Device)
    (r : option Failure) (a' : Adapter) (d' : Device) : Prop :=
  tuned before a' d' /\ constraints_ a' = constraints_ a /\ Ok a' = Ok a /\
  exists updated rest, buses = updated ++ rest /\ (r = None <-> rest = []) /\
    (forall bus, bus ∈ updated -> bus.1 = 0 /\ started (channel_state before d' bus.2) = true /\
       exists old new, timings_ a !! Z.to_nat bus.2 = Some old /\ timings_ a' !! Z.to_nat bus.2 = Some new /\
         timing_is UINT32_MAX (at_ (get bus)) old new) /\
    (forall i, (0, Z.of_nat i) ∉ updated -> timings_ a' !! i = timings_ a !! i /\
       (channel_state before d' (Z.of_nat i) = channel_state before d (Z.of_nat i) \/
        started (channel_state before d' (Z.of_nat i)) = false /\
        r = Some (ReconfigurationFailed (Z.of_nat i)) /\ (0, Z.of_nat i) ∈ rest)).

Lemma outcome_stop get bus buses a d e : tuned before a d -> outcome get (bus :: buses) a d (Some e) a d.
Proof.
  intros Ha. split_and!; [done|done|done|]. exists [], (bus :: buses).
  split_and!; [done|done|intros b Hb; by apply elem_of_nil in Hb|]. intros i _. split; [done|by left].
Qed.

Lemma update_channels_spec extend (get : Z * Z -> Object) buses : forall a d r a' d',
  tuned before a d -> NoDup buses -> Forall bus_ok buses ->
  (forall bus, bus ∈ buses -> BusOverride extend bus.1 bus.2 = Some (get bus) /\ forall key, value_ok (at_ (get bus) key)) ->
  update_channels extend buses a d = (r, (a', d')) -> outcome get buses a d r a' d'.
Proof.
  induction buses as [|[slave channel] buses IH]; intros a d r a' d' Ha Hnd Hok Hget H; cbn [update_channels] in H.
  { injection H as <- <- <-. split_and!; [done|done|done|]. exists [], [].
    split_and!; [done|done|intros bus Hb; by apply elem_of_nil in Hb|]. intros i _. split; [done|by left]. }
  assert (forall e, (Some e, (a, d)) = (r, (a', d')) -> outcome get ((slave, channel) :: buses) a d r a' d') as Hstop.
  { intros e [= <- <- <-]. by apply outcome_stop. }
  destruct (Hget (slave, channel)) as [Ho Hv]; [apply list_elem_of_here|]. cbn [fst snd] in Ho. rewrite Ho in H.
  apply NoDup_cons in Hnd as [Hnew Hnd]. apply list.Forall_cons in Hok as [Hbus Hok].
  destruct (channel_exists (channels_ a) (slave, channel)) eqn:Ex; cbn [negb] in H; [|by eapply Hstop].
  apply (channel_exists_spec _ _ Hbus) in Ex as [Hsl Hch]. cbn [fst snd] in Hsl, Hch. subst slave.
  set (i := Z.to_nat channel) in *. assert (channel = Z.of_nat i) as Hi by lia. rewrite Hi in *. clearbody i. clear Hi.
  destruct (GsUsbTiming.ApplyChannelTiming _ _) as [timing|e] eqn:Ea; [|by eapply Hstop].
  destruct (bit_timings (constraints_ a) timing) as [[nominal data]|] eqn:Eb; [|by eapply Hstop].
  destruct (also _ _) as [ok d1] eqn:E. destruct (tuned_retune a d i timing nominal data ok d1 Ha ltac:(lia) Eb E) as (Ha1 & Ho1 & Hs1).
  pose proof Ha as (_ & Hlen & _). destruct (lookup_lt_is_Some_2 (timings_ a) i) as [old Hold]; [lia|].
  destruct ok; cbn [negb] in H; cycle 1.
  { injection H as <- <- <-. split_and!; [by destruct a|done|done|].
    exists [], ((0, Z.of_nat i) :: buses). split_and!; [done|done|intros bus Hb; by apply elem_of_nil in Hb|].
    intros j _. split; [done|]. destruct (decide (j = i)) as [->|Hne]; [|left; apply Ho1; lia].
    destruct Hs1 as [Hs1|Hs1]; [right|by left]. split_and!; [done|done|apply list_elem_of_here]. }
  apply IH in H as (Ha' & Hc & Hr & updated & rest & -> & Herr & Hdone & Hkeep); [|done|done|done|].
  2: { intros bus Hb. apply Hget. by apply list_elem_of_further. }
  assert (((0, Z.of_nat i) ∉ updated) /\ ((0, Z.of_nat i) ∉ rest)) as [Hnu Hnr] by (by apply not_elem_of_app).
  destruct (Hkeep i Hnu) as [Hk1 Hk2]. cbn [timings_] in Hk1. rewrite list_lookup_insert_eq in Hk1 by lia.
  split_and!; [done|done|done|]. exists ((0, Z.of_nat i) :: updated), rest. split_and!; [done|done| |].
  - intros bus [->|Hb]%elem_of_cons; cbn [fst snd].
    + rewrite Nat2Z.id. split_and!; [done|destruct Hk2 as [->|(_ & _ & ?)]; [done|by destruct Hnr]|].
      exists old, timing. split_and!; [done|done|]. apply ApplyTiming_ok; [apply max_ok|done|].
      unfold GsUsbTiming.ApplyChannelTiming in Ea. by rewrite nth_lookup, Hold in Ea.
    + destruct (Hdone bus Hb) as (H0 & Hst & o & n & H1 & H2 & H3). split_and!; [done|done|]. exists o, n.
      split_and!; [|done|done]. cbn [timings_] in H1. rewrite list_lookup_insert_ne in H1; [done|].
      intros Hij. apply Hnu. apply list.Forall_app in Hok as [Hok _]. rewrite list.Forall_forall in Hok.
      destruct (Hok _ Hb) as [_ Hr2]. replace (0, Z.of_nat i) with bus; [done|]. destruct bus as [b1 b2]. cbn in *. f_equal; lia.
  - intros j [Hne Hb]%not_elem_of_cons. destruct (Hkeep j Hb) as [Hj1 Hj2].
    assert (j <> i) as Hji by (intros ->; by apply Hne). cbn [timings_] in Hj1.
    rewrite list_lookup_insert_ne in Hj1 by done. split; [done|]. rewrite Ho1 in Hj2 by lia. exact Hj2.
Qed.

(** ** Construction *)

Lemma Construct_spec extend channels constants d a d' :
  (channels <= 8)%nat -> Construct extend channels constants d = (inl a, d') ->
  Ok a = true /\ channels_ a = channels /\ GsUsbTiming.BuildChannelTimings extend channels = inl (timings_ a) /\
  forall i timing, timings_ a !! i = Some timing -> runs (constraints_ a) timing (channel_state before d' (Z.of_nat i)).
Proof.
  intros Hc H. unfold Construct in H. destruct (negb _); [done|].
  destruct (GsUsbTiming.BuildChannelTimings extend channels) as [timings|e] eqn:Et; [|done].
  destruct (WriteHostFormat d) as [ok d1]. destruct (negb ok); [done|].
  destruct (ReadBtConstExt constants d1) as [[constraints|] d2]; [|done].
  destruct (start_channels _ _ _ _) as [[failure|] d3] eqn:Es; [done|]. injection H as <- <-.
  split_and!; [done|done|done|]. cbn [timings_ constraints_]. intros i timing Hi.
  apply start_channels_spec in Es as [_ Hruns]; [by apply (Hruns eq_refl)|lia|].
  unfold GsUsbTiming.BuildChannelTimings in Et. apply each_channel_ok in Et as [-> _]. lia.
Qed.

End Channels.

(** C34: the channels of a gs_usb device run with the timings of the envelope.  A device that
    has been constructed runs every channel with exactly the bit timings computed from
    the timing in force for it.  An update changes the named channels in order up to
    the first that fails: each of them runs with its new timing, every other channel is
    as it was, and the timings the adapter remembers stay those of the channels, whatever
    control transfers the device refuses.  Only the channel whose reconfiguration failed
    can have been stopped. *)
Theorem gs_usb_channels parse_json text fields extend before :
  reads parse_json text fields -> library_value (JObject fields) = true -> Parse parse_json text = inl extend ->
  (forall channels constants d a d', (channels <= 8)%nat -> Construct extend channels constants d = (inl a, d') ->
     Ok a = true /\ tuned before a d' /\
     forall i, (i < channels)%nat -> exists timing, timings_ a !! i = Some timing /\
       timing_is UINT32_MAX (in_force fields (0, Z.of_nat i)) GsUsbTiming.default timing /\
       runs (constraints_ a) timing (channel_state before d' (Z.of_nat i))) /\
  (forall a d r a' d', tuned before a d -> UpdateBusExtend extend a d = (r, (a', d')) ->
     outcome before (own_fields fields) (DeclaredBuses extend) a d r a' d').
Proof.
  intros Hr Hlib Hp. split.
  - intros channels constants d a d' Hc H.
    apply (Construct_spec before) in H as (Hok & Hch & Ht & Hruns); [|done].
    apply (gs_usb_timings parse_json text fields extend) in Ht as [Hlen Hin]; [|done|done|done|lia].
    split_and!; [done| |].
    + split_and!; [lia|congruence|]. intros i timing Hi _. by apply Hruns.
    + intros i Hi. destruct (lookup_lt_is_Some_2 (timings_ a) i) as [timing Ht]; [lia|].
      exists timing. split_and!; [done|by apply Hin|by apply Hruns].
  - intros a d r a' d' Ha H. pose proof (library_object _ Hlib) as [Hnd _].
    apply (update_channels_spec before extend (own_fields fields)) in H; [done|done| | |].
    + apply (Parse_spec parse_json text fields) in Hp as (? & ? & Hok & _ & ->); [|done|done]. apply Hok.
    + apply list.Forall_forall. intros bus. by apply (declared_ok parse_json text fields extend).
    + intros bus Hin. split; [by apply (BusOverride_own parse_json text)|]. intros key. by apply own_fields_ok.
Qed.

(** ** Examples *)

Definition example_object : Object :=
  [("bitrate", JUnsigned 500000); ("buses", JObject [("0:1", JObject [("bitrate", JUnsigned 250000)])])]%string.
Definition example_text (_ : String.string) : option Json := Some (JObject example_object).
Definition example_envelope : AdapterExtend :=
  match Parse example_text "{..}" with inl extend => extend | inr _ => empty_extend end.
Definition fresh_device (answers : list bool) : Device := mkDevice [] answers.
Definition unknown : ChannelState := mkState true [] [].

(** Ten transfers start two channels; then the device refuses the second timing of
    an update. *)
Lemma gs_usb_channels_witness :
  exists a d, Construct example_envelope 2 firmware_constants (fresh_device (replicate 10 true ++ [true; true; false])) = (inl a, d) /\
    (exists timing, timings_ a !! 1%nat = Some timing /\ bitrate timing = 250000 /\
       runs (constraints_ a) timing (channel_state unknown d 1)) /\
    exists a' d', UpdateBusExtend example_envelope a d = (Some (ReconfigurationFailed 1), (a', d')) /\
      tuned unknown a' d' /\ Ok a' = true /\ started (channel_state unknown d' 1) = false.
Proof.
  destruct (gs_usb_channels example_text "{..}" example_object example_envelope unknown) as [Hc Hu];
    [right; split; [discriminate|reflexivity]|vm_compute; reflexivity|vm_compute; reflexivity|].
  set (r := Construct example_envelope 2 firmware_constants (fresh_device (replicate 10 true ++ [true; true; false]))).
  assert (exists a d, r = (inl a, d)) as (a & d & E) by (vm_compute; eexists; eexists; reflexivity).
  exists a, d. split; [exact E|].
  destruct (Hc _ _ _ _ _ (proj1 (Nat.leb_le 2 8) eq_refl) E) as (Hok & Ht & Hruns). split.
  - destruct (Hruns 1%nat (proj1 (Nat.leb_le 2 2) eq_refl)) as (timing & Htm & (_ & Hrate & _) & Hr). exists timing.
    split; [exact Htm|]. split; [|exact Hr]. apply Hrate.
  - destruct (UpdateBusExtend example_envelope a d) as [r' [a' d']] eqn:Eu. exists a', d'.
    pose proof (Hu _ _ _ _ _ Ht Eu) as (Ht' & _ & Hok' & _).
    assert (r' = Some (ReconfigurationFailed 1) /\ started (channel_state unknown d' 1) = false) as [-> Hs].
    { assert (match r with
              | (inl a, d) =>
                  let u := UpdateBusExtend example_envelope a d in
                  (u.1, started (channel_state unknown u.2.2 1)) = (Some (ReconfigurationFailed 1), false)
              | _ => False
              end) as Hr by (vm_compute; reflexivity).
      rewrite E in Hr. cbv zeta in Hr. rewrite Eu in Hr. cbn [fst snd] in Hr.
      split; [exact (f_equal fst Hr)|exact (f_equal snd Hr)]. }
    split; [reflexivity|]. split; [exact Ht'|]. split; [by rewrite Hok'|exact Hs].
Defined.
