(* ===== verification/RelayAdapter.v ===== *)
(** * RelayAdapter: plugins/adapter/relayWs/relay_ws_adapter.cc

    The WebSocket relay adapter: the bounded queue of relay_bounded_queue.h with its
    generations, the submissions, the flush of the worker with its two critical
    sections, and the connection state of the worker.  The WebSocket client is a
    parameter: whether it is connected, what its calls answer and what came in is given
    with each step.  The frames themselves are those of RelayFrame. *)
From stdpp Require Import base option list numbers gmap.
From Stdlib Require Import ZArith Lia.
From S2P Require Import Prelude CFloat Types RelayFrame.
#[local] Open Scope Z_scope.
#[local] Open Scope cint_scope.

(** ** relay_bounded_queue.h *)

(** [generation] is a [size_t]. *)
Record RelayQueuedMessage := mkQueued { message : MotorMessage; generation : Z }.

Definition queued_bus (q : RelayQueuedMessage) : Z := bus_idx (message q).

(** [emplace] leaves an entry that is already there. *)
Definition note_generation (q : RelayQueuedMessage) (generations : gmap Z Z) : gmap Z Z :=
  match generations !! queued_bus q with Some _ => generations | None => <[queued_bus q := generation q]> generations end.

(** The condition of the loop: a full frame, or a message of another generation of a
    bus that is already in the frame. *)
Definition must_flush (frame_messages : list MotorMessage) (frame_generations : gmap Z Z) (q : RelayQueuedMessage) : bool :=
  (length frame_messages =? 255)%nat ||
  match frame_generations !! queued_bus q with Some g => negb (g =? generation q) | None => false end.

(** The lambda [flush]: what is appended to the result. *)
Definition flushed (type : RelayFrameType) (frame_messages : list MotorMessage) : list Z :=
  match frame_messages with [] => [] | _ => EncodeRelayFrames type frame_messages end.

(** The loop over the messages, then the last [flush]. *)
Fixpoint encode_queued (type : RelayFrameType) (messages : list RelayQueuedMessage)
    (frame_messages : list MotorMessage) (frame_generations : gmap Z Z) : list Z :=
  match messages with
  | [] => flushed type frame_messages
  | q :: messages =>
      if must_flush frame_messages frame_generations q
      then
        match frame_messages with
        | [] => encode_queued type messages [message q] (note_generation q frame_generations)
        | _ => flushed type frame_messages ++ encode_queued type messages [message q] (note_generation q ∅)
        end
      else encode_queued type messages (frame_messages ++ [message q]) (note_generation q frame_generations)
  end.

Definition EncodeQueuedRelayFrames (type : RelayFrameType) (messages : list RelayQueuedMessage) : list Z :=
  match messages with
  | [] => EncodeRelayFrames type []
  | _ => encode_queued type messages [] ∅
  end.

Definition TrimRelayMessagesToNewest {A} (messages : list A) (capacity : nat) : list A :=
  if (length messages <=? capacity)%nat then messages else drop (length messages - capacity) messages.

Definition ReinsertFailedRelayMessages {A} (current failed : list A) (capacity : nat) : list A :=
  TrimRelayMessagesToNewest (failed ++ current) capacity.

(** ** Submissions *)

Definition kMaxOutgoingMessages : nat := 4096.

Record Outbox := mkOutbox { send_buffer : list RelayQueuedMessage; bus_generations : gmap Z Z }.
Definition new_outbox : Outbox := mkOutbox [] ∅.

(** [bus_generations[bus]]; a missing entry is created with 0. *)
Definition current_generation (generations : gmap Z Z) (bus : Z) : Z := default 0 (generations !! bus).

(** The critical section of [Send]. *)
Definition Send (m : MotorMessage) (o : Outbox) : Outbox :=
  mkOutbox (TrimRelayMessagesToNewest (send_buffer o ++ [mkQueued m (current_generation (bus_generations o) (bus_idx m))]) kMaxOutgoingMessages)
    (bus_generations o).

(** [++bus_generations[bus]] for every bus of the set, in any order. *)
Definition bump (buses : list Z) (generations : gmap Z Z) : gmap Z Z :=
  fold_left (fun generations bus => <[bus := u64 (current_generation generations bus + 1)]> generations) buses generations.

(** The critical section of [SendSynchronized]. *)
Definition SendSynchronized (messages : list MotorMessage) (o : Outbox) : Outbox :=
  match messages with
  | [] => o
  | _ =>
      let buses := remove_dups (map bus_idx messages) in
      let generations := bump buses (bus_generations o) in
      mkOutbox
        (TrimRelayMessagesToNewest
           (send_buffer o ++ map (fun m => mkQueued m (current_generation generations (bus_idx m))) messages)
           kMaxOutgoingMessages)
        (bump buses generations)
  end.

(** ** The flush of the worker *)

(** [ok]; the buffer the worker has taken and not yet sent; what the client has accepted. *)
Record Relay := mkRelay {
  outbox : Outbox;
  ok : bool;
  taken : option (list RelayQueuedMessage);
  accepted : list (list Z)
}.
Definition new_relay : Relay := mkRelay new_outbox false None [].

(** The first half of [FlushSendBuffer]: [std::move] of the buffer. *)
Definition take_buffer (r : Relay) : Relay :=
  match ok r, taken r with
  | true, None => mkRelay (mkOutbox [] (bus_generations (outbox r))) (ok r) (Some (send_buffer (outbox r))) (accepted r)
  | _, _ => r
  end.

(** The second half: [SendBinary] answers [sent]. *)
Definition finish_flush (sent : bool) (r : Relay) : Relay :=
  match taken r with
  | None => r
  | Some buffer =>
      if sent then mkRelay (outbox r) (ok r) None (accepted r ++ [EncodeQueuedRelayFrames RelayToHelper buffer])
      else
        mkRelay (mkOutbox (ReinsertFailedRelayMessages (send_buffer (outbox r)) buffer kMaxOutgoingMessages)
                   (bus_generations (outbox r))) false None (accepted r)
  end.

(** What happens to the outgoing side, in the order of the locks: the user's threads
    submit at any moment, also while the worker holds a buffer it has taken. *)
Inductive Event :=
| Single (m : MotorMessage)
| Batch (messages : list MotorMessage)
| Connected (up : bool)        (* the stores to [ok] of the worker and of the close callback *)
| TakeBuffer
| FinishFlush (sent : bool).

Definition step (e : Event) (r : Relay) : Relay :=
  match e with
  | Single m => mkRelay (Send m (outbox r)) (ok r) (taken r) (accepted r)
  | Batch messages => mkRelay (SendSynchronized messages (outbox r)) (ok r) (taken r) (accepted r)
  | Connected up => mkRelay (outbox r) up (taken r) (accepted r)
  | TakeBuffer => take_buffer r
  | FinishFlush sent => finish_flush sent r
  end.

Definition run (events : list Event) (r : Relay) : Relay := fold_left (fun r e => step e r) events r.

(** ** Receiving *)

(** The callback given to the client: the batches passed to [OnMessage]. *)
Definition OnBinary (d : list Z) : list (list MotorMessage) :=
  match DecodeRelayFrames d with
  | None => []
  | Some frames => map fr_records (filter (fun f => fr_type f = HelperToRelay) frames)
  end.

(** ** The connection of the worker *)

Definition kMaxReconnectAttempts : Z := 3.
Definition kReconnectInterval : Z := 2000.

Record Link := mkLink {
  connected_once : bool;
  link_ok : bool;
  reconnect_attempts : Z;
  last_reconnect_time : Z;
  last_flush_time : Z
}.

(** What one iteration meets: the time, the answer of [ConnectSession], of
    [IsConnected], and whether the client reports that it was closed during [Poll]
    (and the time the callback reads). *)
Record Visit := mkVisit { now : Z; session : bool; is_connected : bool; closed_in_poll : option Z }.

(** [WorkerLoopIteration] on the connection: whether [Connect] was called to
    reconnect, and whether the buffer was flushed. *)
Definition WorkerLoopIteration (frequency : Z) (v : Visit) (l : Link) : bool * bool * Link :=
  let l :=
    if negb (connected_once l)
    then mkLink (session v) (link_ok l) (reconnect_attempts l)
           (if session v then now v else last_reconnect_time l) (last_flush_time l)
    else l in
  let '(reconnect, l) :=
    if is_connected v then (false, mkLink (connected_once l) true 0 (last_reconnect_time l) (last_flush_time l))
    else
      let l := mkLink (connected_once l) false (reconnect_attempts l) (last_reconnect_time l) (last_flush_time l) in
      if connected_once l && (reconnect_attempts l <? kMaxReconnectAttempts) && (kReconnectInterval <=? now v - last_reconnect_time l)
      then (true, mkLink (connected_once l) (link_ok l) (reconnect_attempts l + 1) (now v) (last_flush_time l))
      else (false, l) in
  let l :=
    if link_ok l
    then match closed_in_poll v with
         | Some t => mkLink (connected_once l) false (reconnect_attempts l) t (last_flush_time l)
         | None => l
         end
    else l in
  if Z.quot 1000 frequency <=? now v - last_flush_time l
  then (reconnect, link_ok l, mkLink (connected_once l) (link_ok l) (reconnect_attempts l) (last_reconnect_time l) (now v))
  else (reconnect, false, l).

(** ** Frames of a queue *)

(** One frame's worth of the queue: at most 255 messages, one generation per bus. *)
Definition uniform (group : list RelayQueuedMessage) : Prop :=
  group <> [] /\ (length group <= 255)%nat /\
  forall q q', q ∈ group -> q' ∈ group -> queued_bus q = queued_bus q' -> generation q = generation q'.

(** The loop's knowledge of the frame it is filling. *)
Definition noted (current : list RelayQueuedMessage) (generations : gmap Z Z) : Prop :=
  (length current <= 255)%nat /\ (current = [] -> generations = ∅) /\
  forall q, q ∈ current -> generations !! queued_bus q = Some (generation q).

Lemma noted_snoc current generations q :
  noted current generations -> must_flush (map message current) generations q = false ->
  noted (current ++ [q]) (note_generation q generations).
Proof.
  intros (Hlen & Hnil & Hn) Hf. unfold must_flush in Hf. rewrite length_map in Hf.
  apply orb_false_iff in Hf as [Hl Hg]. apply Nat.eqb_neq in Hl.
  split_and!; [rewrite length_app; cbn; lia|by destruct current|].
  unfold note_generation. intros q' [Hq'|Hq'%list_elem_of_singleton]%elem_of_app; [|subst q'].
  - pose proof (Hn _ Hq') as E. destruct (generations !! queued_bus q) eqn:Eq; [done|].
    rewrite lookup_insert_ne by congruence. done.
  - destruct (generations !! queued_bus q) as [g|] eqn:Eq; [|apply lookup_insert_eq].
    apply negb_false_iff, Z.eqb_eq in Hg. by subst g.
Qed.

Lemma noted_one q : noted [q] (note_generation q ∅).
Proof.
  split_and!; [cbn; lia|done|]. intros q' ->%list_elem_of_singleton. unfold note_generation.
  rewrite lookup_empty. apply lookup_insert_eq.
Qed.

Lemma noted_uniform current generations : current <> [] -> noted current generations -> uniform current.
Proof.
  intros Hne (Hlen & _ & Hn). split_and!; [done|done|]. intros q q' Hq Hq' Hb.
  pose proof (Hn q Hq) as E. pose proof (Hn q' Hq') as E'. rewrite Hb in E. congruence.
Qed.

(** The result is one encoded frame per group of a partition of the queue. *)
Lemma encode_queued_groups type messages : forall current generations,
  noted current generations ->
  exists groups, concat groups = current ++ messages /\ Forall uniform groups /\
    encode_queued type messages (map message current) generations = concat (map (fun g => EncodeRelayFrames type (map message g)) groups).
Proof.
  induction messages as [|q messages IH]; intros current generations Hn; cbn [encode_queued].
  { destruct current as [|c current]; [by exists []|]. exists [c :: current].
    cbn [concat map]. rewrite !app_nil_r. split_and!; [done|apply list.Forall_singleton; by eapply noted_uniform|done]. }
  destruct (must_flush (map message current) generations q) eqn:Ef.
  - destruct current as [|c current].
    { destruct Hn as (_ & Hnil & _). rewrite Hnil in Ef by done. unfold must_flush in Ef. by rewrite lookup_empty in Ef. }
    destruct (IH [q] (note_generation q ∅) (noted_one q)) as (groups & Hc & Hu & E).
    exists ((c :: current) :: groups). cbn [concat map] in *. rewrite E, Hc.
    split_and!; [done|apply list.Forall_cons; split; [by eapply noted_uniform|done]|done].
  - destruct (IH (current ++ [q]) (note_generation q generations) (noted_snoc _ _ _ Hn Ef)) as (groups & Hc & Hu & E).
    rewrite map_app in E. cbn [map] in E. exists groups. rewrite Hc, <- app_assoc. by split_and!.
Qed.

(** A sequence of frames is decoded frame by frame. *)
Lemma DecodeLoop_frames type (groups : list (list MotorMessage)) : forall fuel,
  Forall (fun g => Forall message_wf g /\ (length g <= kMaxRecordsPerFrame)%nat) groups ->
  (length (concat (map (EncodeFrame type) groups)) <= fuel)%nat ->
  DecodeLoop fuel (concat (map (EncodeFrame type) groups)) = Some (Some (map (mkFrame type) groups)).
Proof.
  induction groups as [|g groups IH]; intros fuel Hok Hfuel; cbn [map concat] in *.
  { by destruct fuel. }
  apply list.Forall_cons in Hok as [[Hg Hl] Hok]. rewrite length_app in Hfuel.
  assert (1 <= length (EncodeFrame type g))%nat as H1 by (cbn; lia).
  destruct fuel as [|fuel]; [lia|].
  rewrite (DecodeLoop_cons fuel _ (mkFrame type g) (concat (map (EncodeFrame type) groups)));
    [|by apply EncodeFrame_nonempty|by apply DecodeFrame_Encode].
  by rewrite (IH fuel Hok ltac:(lia)).
Qed.

(** What the other side reads from a sent buffer. *)
Lemma EncodeQueued_decodes type messages :
  Forall (fun q => message_wf (message q)) messages ->
  exists groups, concat groups = messages /\ (messages <> [] -> Forall uniform groups) /\
    DecodeRelayFrames (EncodeQueuedRelayFrames type messages) =
    Some (map (fun g => mkFrame type (map message g)) (match messages with [] => [[]] | _ => groups end)).
Proof.
  intros Hwf. unfold EncodeQueuedRelayFrames. destruct messages as [|q messages].
  { exists []. split_and!; [done|done|]. by destruct type. }
  destruct (encode_queued_groups type (q :: messages) [] ∅) as (groups & Hc & Hu & E).
  { split_and!; [cbn; lia|done|]. intros q' H. by apply elem_of_nil in H. }
  cbn [app map] in Hc, E. exists groups. split_and!; [done|done|].
  assert (Forall (fun g => Forall message_wf g /\ (length g <= kMaxRecordsPerFrame)%nat) (map (map message) groups)) as Hok.
  { apply Forall_fmap. rewrite <- Hc in Hwf. clear -Hwf Hu. induction groups as [|g groups IH]; [by apply list.Forall_nil|].
    cbn [concat] in Hwf. apply list.Forall_app in Hwf as [Hg Hwf]. apply list.Forall_cons in Hu as [(_ & Hl & _) Hu].
    apply list.Forall_cons. split; [|by apply IH]. cbn. split; [by apply Forall_fmap|]. by rewrite length_map. }
  assert (concat (map (fun g => EncodeRelayFrames type (map message g)) groups) =
          concat (map (EncodeFrame type) (map (map message) groups))) as Eg.
  { clear -Hok. induction groups as [|g groups IH]; [done|]. cbn [map concat] in *.
    apply list.Forall_cons in Hok as [[_ Hl] Hok]. by rewrite EncodeRelayFrames_single, IH. }
  rewrite E, Eg. unfold DecodeRelayFrames. rewrite DecodeLoop_frames by done.
  cbn [default from_option Datatypes.id]. by rewrite map_map.
Qed.

(** ** What was submitted *)

(** The messages of a list of events in the order of their submission, each with the
    position of its event and the generation it gets. *)
Definition entries (k : nat) (e : Event) (generations : gmap Z Z) : list (nat * RelayQueuedMessage) :=
  match e with
  | Single m => [(k, mkQueued m (current_generation generations (bus_idx m)))]
  | Batch messages =>
      map (fun m => (k, mkQueued m (current_generation (bump (remove_dups (map bus_idx messages)) generations) (bus_idx m)))) messages
  | _ => []
  end.

Definition next_generations (e : Event) (generations : gmap Z Z) : gmap Z Z :=
  match e with
  | Batch messages => let buses := remove_dups (map bus_idx messages) in bump buses (bump buses generations)
  | _ => generations
  end.

Fixpoint submitted (k : nat) (events : list Event) (generations : gmap Z Z) : list (nat * RelayQueuedMessage) :=
  match events with
  | [] => []
  | e :: events => entries k e generations ++ submitted (S k) events (next_generations e generations)
  end.

(** Does the event synchronise the bus? *)
Definition synchronises (bus : Z) (e : Event) : bool :=
  match e with Batch messages => bool_decide (bus ∈ map bus_idx messages) | _ => false end.

Definition batches (bus : Z) (events : list Event) : Z := Z.of_nat (length (filter (fun e => synchronises bus e = true) events)).

Lemma batches_snoc bus events e :
  batches bus (events ++ [e]) = batches bus events + (if synchronises bus e then 1 else 0).
Proof.
  unfold batches. rewrite filter_app, length_app. cbn [filter list_filter].
  destruct (synchronises bus e) eqn:E; [rewrite decide_True by done|rewrite decide_False by done]; cbn [length]; lia.
Qed.

Lemma batches_range bus events : 0 <= batches bus events <= Z.of_nat (length events).
Proof. unfold batches. pose proof (length_filter (fun e => synchronises bus e = true) events). lia. Qed.

Lemma bump_lookup buses : forall generations bus,
  NoDup buses -> 
  current_generation (bump buses generations) bus =
    if bool_decide (bus ∈ buses) then u64 (current_generation generations bus + 1) else current_generation generations bus.
Proof.
  unfold bump. induction buses as [|b buses IH]; intros generations bus Hnd; cbn [fold_left]; [done|].
  apply NoDup_cons in Hnd as [Hb Hnd]. rewrite IH by done. unfold current_generation.
  destruct (decide (bus = b)) as [->|Hne].
  - rewrite (bool_decide_false (b ∈ buses)), (bool_decide_true (b ∈ b :: buses)) by (done || by apply list_elem_of_here).
    by rewrite lookup_insert_eq.
  - rewrite lookup_insert_ne by done. 
    assert (bool_decide (bus ∈ b :: buses) = bool_decide (bus ∈ buses)) as -> by (apply bool_decide_ext; rewrite elem_of_cons; tauto). done.
Qed.

(** The counters after a list of events: two steps per batch of the bus. *)
Definition counted (events : list Event) (generations : gmap Z Z) : Prop :=
  forall bus, current_generation generations bus = 2 * batches bus events.

Lemma next_generations_spec done_ e generations :
  Z.of_nat (length done_) < 2 ^ 62 -> counted done_ generations ->
  counted (done_ ++ [e]) (next_generations e generations) /\
  forall k q, (k, q) ∈ entries k e generations ->
    generation q = 2 * batches (queued_bus q) done_ + (if synchronises (queued_bus q) e then 1 else 0).
Proof.
  intros Hlen Hc.
  assert (forall bus, 0 <= batches bus done_ < 2 ^ 62) as Hr by (intros bus; pose proof (batches_range bus done_); lia).
  split.
  - intros bus. rewrite batches_snoc. destruct e as [m|messages|up| |sent]; cbn [next_generations synchronises];
      try (rewrite Hc; lia).
    rewrite !bump_lookup by apply NoDup_remove_dups. rewrite !Hc.
    specialize (Hr bus). destruct (decide (bus ∈ map bus_idx messages)) as [Hin|Hout].
    + rewrite !bool_decide_true by (done || by apply elem_of_remove_dups). unfold u64.
      rewrite (Z.mod_small (2 * _ + 1)) by lia. rewrite Z.mod_small by lia. lia.
    + rewrite !bool_decide_false by (done || by rewrite elem_of_remove_dups). lia.
  - intros k q. destruct e as [m|messages|up| |sent]; cbn [entries synchronises]; try (intros H; by apply elem_of_nil in H).
    + intros [= ->]%list_elem_of_singleton. unfold queued_bus; cbn [generation message]. rewrite Hc. lia.
    + intros (m & [= ->] & Hm)%list_elem_of_fmap. unfold queued_bus. cbn [generation message].
      rewrite bump_lookup by apply NoDup_remove_dups.
      assert (bus_idx m ∈ map bus_idx messages) as Hin by (by apply list_elem_of_fmap_2).
      rewrite !bool_decide_true by (done || by apply elem_of_remove_dups). rewrite Hc.
      specialize (Hr (bus_idx m)). unfold u64. rewrite Z.mod_small; lia.
Qed.

(** The generation of every submitted message. *)
Lemma submitted_generation events : forall done_ generations,
  Z.of_nat (length done_ + length events) < 2 ^ 62 -> counted done_ generations ->
  forall k q, (k, q) ∈ submitted (length done_) events generations ->
    exists e, (done_ ++ events) !! k = Some e /\ (length done_ <= k)%nat /\
      generation q = 2 * batches (queued_bus q) (take k (done_ ++ events)) + (if synchronises (queued_bus q) e then 1 else 0).
Proof.
  induction events as [|e events IH]; intros done_ generations Hlen Hc k q Hin; cbn [submitted length] in *.
  { by apply elem_of_nil in Hin. }
  destruct (next_generations_spec done_ e generations ltac:(lia) Hc) as [Hc' He].
  apply elem_of_app in Hin as [Hin|Hin].
  - assert (k = length done_) as ->.
    { destruct e; cbn [entries] in Hin; try (by apply elem_of_nil in Hin).
      - by apply list_elem_of_singleton in Hin as [= ->].
      - by apply list_elem_of_fmap in Hin as (? & [= ->] & _). }
    exists e. rewrite lookup_app_r, Nat.sub_diag by done. split_and!; [done|lia|].
    rewrite take_app_length. by apply (He (length done_)).
  - replace (S (length done_)) with (length (done_ ++ [e])) in Hin by (rewrite length_app; cbn; lia).
    destruct (IH (done_ ++ [e]) _ ltac:(rewrite length_app; cbn [length]; lia) Hc' k q Hin) as (e' & Hl & Hk & Hg).
    rewrite <- app_assoc in Hl, Hg. exists e'. rewrite length_app in Hk. cbn [length] in Hk.
    split_and!; [done|lia|done].
Qed.

(** Two messages of one bus with the same generation come from one event, or no batch
    of their bus lies between their events. *)
Definition one_burst (events : list Event) (bus : Z) (k k' : nat) : Prop :=
  k = k' \/ forall i e, (Nat.min k k' <= i <= Nat.max k k')%nat -> events !! i = Some e -> synchronises bus e = false.

Lemma batches_between bus events k k' e :
  (k <= k')%nat -> events !! k' = Some e ->
  batches bus (take k events) <= batches bus (take k' events) /\
  (batches bus (take k events) = batches bus (take k' events) ->
   forall i e', (k <= i < k')%nat -> events !! i = Some e' -> synchronises bus e' = false).
Proof.
  intros Hk He. revert e He. induction Hk as [|k' Hk IH]; intros e He; [split; [lia|intros; lia]|].
  destruct (events !! k') as [e1|] eqn:E1; [|apply lookup_ge_None in E1; apply lookup_lt_Some in He; lia].
  destruct (IH e1 eq_refl) as [Hle Hno]. rewrite (take_S_r events k' e1) by done. rewrite batches_snoc.
  split; [destruct (synchronises bus e1); lia|]. intros Heq i e' Hi Hl.
  destruct (decide (i = k')) as [->|Hne].
  - rewrite E1 in Hl. injection Hl as <-. destruct (synchronises bus e1); [lia|done].
  - apply (Hno ltac:(destruct (synchronises bus e1); lia) i e' ltac:(lia) Hl).
Qed.

Lemma submitted_burst events k q k' q' :
  Z.of_nat (length events) < 2 ^ 62 ->
  (k, q) ∈ submitted 0 events ∅ -> (k', q') ∈ submitted 0 events ∅ ->
  queued_bus q = queued_bus q' -> generation q = generation q' -> one_burst events (queued_bus q) k k'.
Proof.
  intros Hlen. assert (forall a b x y, (a <= b)%nat ->
    (a, x) ∈ submitted 0 events ∅ -> (b, y) ∈ submitted 0 events ∅ ->
    queued_bus x = queued_bus y -> generation x = generation y -> one_burst events (queued_bus x) a b) as Hle.
  { intros a b x y Hab Hx Hy Hbus Hgen.
    assert (counted [] ∅) as Hc by (intros bus; unfold current_generation; by rewrite lookup_empty).
    destruct (submitted_generation events [] ∅ ltac:(cbn [length]; lia) Hc a x Hx) as (e & He & _ & Hg).
    destruct (submitted_generation events [] ∅ ltac:(cbn [length]; lia) Hc b y Hy) as (e' & He' & _ & Hg').
    cbn [app] in *. rewrite <- Hbus, <- Hgen, Hg in Hg'.
    destruct (batches_between (queued_bus x) events a b e' Hab He') as [Hle Hno].
    destruct (decide (a = b)) as [->|Hne]; [by left|]. right. rewrite Nat.min_l, Nat.max_r by lia.
    assert (synchronises (queued_bus x) e = synchronises (queued_bus x) e' /\
            batches (queued_bus x) (take a events) = batches (queued_bus x) (take b events)) as [Hs Hb].
    { destruct (synchronises (queued_bus x) e), (synchronises (queued_bus x) e'); split; lia || done. }
    assert (synchronises (queued_bus x) e = false) as Hf by (apply (Hno Hb a e ltac:(lia) He)).
    intros i e1 Hi Hl. destruct (decide (i = b)) as [->|]; [|apply (Hno Hb i e1 ltac:(lia) Hl)].
    rewrite He' in Hl. injection Hl as <-. congruence. }
  intros Hk Hk' Hbus Hgen. destruct (Nat.le_ge_cases k k') as [H|H]; [by eapply Hle|].
  destruct (Hle k' k q' q H Hk' Hk (eq_sym Hbus) (eq_sym Hgen)) as [->|Hno]; [by left|].
  right. rewrite <- Hbus in Hno. intros i e Hi. apply Hno. lia.
Qed.

(** ** Where the submitted messages are *)

Lemma TrimToNewest_spec {A B} (f : A -> B) (l : list A) capacity :
  exists dropped kept, l = dropped ++ kept /\ TrimRelayMessagesToNewest (map f l) capacity = map f kept /\
    (length kept <= capacity)%nat /\ (dropped <> [] -> length kept = capacity).
Proof.
  unfold TrimRelayMessagesToNewest. rewrite length_map. destruct (Nat.leb_spec (length l) capacity) as [H|H].
  - exists [], l. by split_and!.
  - exists (take (length l - capacity) l), (drop (length l - capacity) l). rewrite length_drop.
    split_and!; [by rewrite take_drop|by rewrite skipn_map|lia|lia].
Qed.

Definition generations_after (events : list Event) (generations : gmap Z Z) : gmap Z Z :=
  fold_left (fun g e => next_generations e g) events generations.

Lemma submitted_snoc events e : forall k generations,
  submitted k (events ++ [e]) generations =
  submitted k events generations ++ entries (k + length events) e (generations_after events generations).
Proof.
  unfold generations_after. induction events as [|e' events IH]; intros k generations; cbn [app submitted length fold_left].
  - by rewrite app_nil_r, Nat.add_0_r.
  - by rewrite IH, <- app_assoc, <- Nat.add_succ_comm.
Qed.

(** The messages an event adds, and room for them next to those that wait. *)
Definition waiting (r : Relay) : list RelayQueuedMessage := default [] (taken r) ++ send_buffer (outbox r).
Definition event_size (e : Event) : nat :=
  match e with Single _ => 1 | Batch messages => length messages | _ => 0 end.
Definition fits (e : Event) (r : Relay) : Prop := (length (waiting r) + event_size e <= kMaxOutgoingMessages)%nat.
Fixpoint room (events : list Event) (r : Relay) : Prop :=
  match events with [] => True | e :: events => fits e r /\ room events (step e r) end.

Lemma room_snoc events e : forall r, room (events ++ [e]) r <-> room events r /\ fits e (run events r).
Proof.
  unfold run. induction events as [|e' events IH]; intros r; cbn [app room fold_left]; [tauto|]. rewrite IH. tauto.
Qed.

Section Placed.
Context (exact : Prop).

(** The submitted messages [all], in order: what was sent or dropped, what the worker
    holds, what was dropped behind its back, and what the queue holds. *)
Record placed (all : list (nat * RelayQueuedMessage)) (r : Relay) (sents : list (list (nat * RelayQueuedMessage)))
    (held queue : list (nat * RelayQueuedMessage)) : Prop := {
  placed_parts : exists past gap, all = past ++ held ++ gap ++ queue /\ concat sents `sublist_of` past /\
    (gap = [] \/ length queue = kMaxOutgoingMessages) /\ (taken r = None -> gap = []) /\
    (exact -> past = concat sents /\ gap = []);
  placed_sent : accepted r = map (fun l => EncodeQueuedRelayFrames RelayToHelper (map snd l)) sents;
  placed_held : map snd held = default [] (taken r);
  placed_queue : map snd queue = send_buffer (outbox r);
  placed_bound : (length queue <= kMaxOutgoingMessages)%nat
}.

(** A submission: the newest of the queue and the new messages stay. *)
Lemma placed_submit all r sents held queue new generations :
  placed all r sents held queue -> (exact -> length (waiting r) + length new <= kMaxOutgoingMessages)%nat ->
  exists queue',
    placed (all ++ new)
      (mkRelay (mkOutbox (TrimRelayMessagesToNewest (send_buffer (outbox r) ++ map snd new) kMaxOutgoingMessages) generations)
         (ok r) (taken r) (accepted r)) sents held queue'.
Proof.
  intros [(past & gap & -> & Hsub & Hgap & Hnone & Hexact) Hsent Hheld Hqueue Hbound] Hfit.
  destruct (TrimToNewest_spec snd (queue ++ new) kMaxOutgoingMessages) as (dropped & kept & Hsplit & Htrim & Hkept & Hfull).
  rewrite map_app, Hqueue in Htrim.
  assert (exact -> dropped = []) as Hnodrop.
  { intros He. specialize (Hfit He). unfold waiting in Hfit. rewrite <- Hqueue, length_app, length_map in Hfit.
    destruct dropped as [|x dropped]; [done|]. specialize (Hfull ltac:(done)).
    apply (f_equal length) in Hsplit. rewrite !length_app in Hsplit. cbn [length] in Hsplit. lia. }
  exists kept. split; cbn [outbox send_buffer taken accepted]; [|done|done|by rewrite Htrim|done].
  destruct (taken r) as [buffer|] eqn:Et.
  - exists past, (gap ++ dropped). split_and!.
    + rewrite <- !app_assoc. do 3 f_equal. by rewrite <- Hsplit.
    + done.
    + destruct dropped as [|x dropped]; [|right; by apply Hfull]. rewrite app_nil_r.
      destruct Hgap as [Hg|Hg]; [by left|right]. apply (f_equal length) in Hsplit. rewrite length_app in Hsplit. cbn in Hsplit. lia.
    + done.
    + intros He. destruct (Hexact He) as [-> ->]. by rewrite (Hnodrop He).
  - rewrite (Hnone eq_refl) in *. destruct held; [|done]. exists (past ++ dropped), []. split_and!.
    + cbn [app]. rewrite <- !app_assoc. by rewrite <- Hsplit.
    + by apply sublist_inserts_r.
    + by left.
    + done.
    + intros He. destruct (Hexact He) as [-> _]. by rewrite (Hnodrop He), app_nil_r.
Qed.

Lemma placed_take all r sents held queue :
  placed all r sents held queue -> exists held' queue', placed all (take_buffer r) sents held' queue'.
Proof.
  intros H. unfold take_buffer. destruct (ok r) eqn:Eo; [|by exists held, queue].
  destruct (taken r) as [buffer|] eqn:Et; [by exists held, queue|].
  destruct H as [(past & gap & -> & Hsub & Hgap & Hnone & Hexact) Hsent Hheld Hqueue Hbound].
  rewrite Et in *. rewrite (Hnone eq_refl) in *. destruct held; [|done]. exists queue, [].
  split; cbn [outbox send_buffer taken accepted]; [|done|done|done|unfold kMaxOutgoingMessages; cbn; lia].
  exists past, []. cbn [app]. rewrite !app_nil_r. split_and!; [done|done|by left|done|].
  intros He. by destruct (Hexact He).
Qed.

Lemma placed_finish all r sents held queue sent :
  placed all r sents held queue -> (exact -> length (waiting r) <= kMaxOutgoingMessages)%nat ->
  exists sents' held' queue', placed all (finish_flush sent r) sents' held' queue'.
Proof.
  intros H Hfit. unfold finish_flush. destruct (taken r) as [buffer|] eqn:Et; [|by exists sents, held, queue].
  destruct H as [(past & gap & -> & Hsub & Hgap & Hnone & Hexact) Hsent Hheld Hqueue Hbound].
  rewrite Et in Hheld. cbn [default from_option Datatypes.id] in Hheld. destruct sent.
  - exists (sents ++ [held]), [], queue. split; cbn [outbox send_buffer taken accepted]; [|by rewrite map_app, Hsent, <- Hheld|done|done|done].
    exists (past ++ held ++ gap), []. cbn [app]. rewrite !concat_app, <- !app_assoc. cbn [concat]. rewrite app_nil_r.
    split_and!; [done| |by left|done|].
    + apply sublist_app; [done|]. by apply sublist_inserts_r.
    + intros He. destruct (Hexact He) as [-> ->]. by rewrite app_nil_r.
  - destruct (TrimToNewest_spec snd (held ++ queue) kMaxOutgoingMessages) as (dropped & kept & Hsplit & Htrim & Hkept & Hfull).
    rewrite map_app, Hheld, Hqueue in Htrim. exists sents, [], kept.
    split; cbn [outbox send_buffer taken accepted]; [|done|done|by unfold ReinsertFailedRelayMessages; rewrite Htrim|done].
    destruct Hgap as [->|Hg].
    + exists (past ++ dropped), []. cbn [app]. rewrite <- !app_assoc, <- Hsplit. split_and!; [done|by apply sublist_inserts_r|by left|done|].
      intros He. destruct (Hexact He) as [-> _]. split; [|done]. specialize (Hfit He). unfold waiting in Hfit.
      rewrite Et, <- Hqueue in Hfit. cbn [default from_option Datatypes.id] in Hfit. rewrite <- Hheld, <- map_app, length_map, Hsplit in Hfit.
      destruct dropped as [|x dropped]; [by rewrite app_nil_r|]. specialize (Hfull ltac:(done)).
      rewrite length_app in Hfit. cbn [length] in Hfit. lia.
    + assert (kept = queue) as ->.
      { assert (length kept = length queue) as Hl.
        { destruct dropped as [|x dropped]; [|rewrite Hfull by done; lia].
          apply (f_equal length) in Hsplit. rewrite length_app in Hsplit. cbn in Hsplit. lia. }
        apply app_inj_2 in Hsplit as [_ ->]; done. }
      exists (past ++ held ++ gap), []. cbn [app]. rewrite <- !app_assoc. split_and!; [done|by apply sublist_inserts_r|by left|done|].
      intros He. destruct (Hexact He) as [-> ->]. split; [|done]. specialize (Hfit He). unfold waiting in Hfit.
      rewrite Et, <- Hqueue in Hfit. cbn [default from_option Datatypes.id] in Hfit. rewrite <- Hheld, length_app, !length_map in Hfit.
      destruct held; [by rewrite !app_nil_r|]. cbn [length] in Hfit. lia.
Qed.
End Placed.

Lemma placed_run events :
  bus_generations (outbox (run events new_relay)) = generations_after events ∅ /\
  exists sents held queue, placed (room events new_relay) (submitted 0 events ∅) (run events new_relay) sents held queue.
Proof.
  induction events as [|e events [Hgen (sents & held & queue & H)]] using rev_ind.
  { split; [done|]. exists [], [], []. split; try done; [|unfold kMaxOutgoingMessages; cbn; lia].
    exists [], []. split_and!; [done|done|by left|done|done]. }
  rewrite submitted_snoc. unfold generations_after, run in *. rewrite !fold_left_app. cbn [fold_left Nat.add].
  set (r := fold_left (fun r e => step e r) events new_relay) in *.
  assert (placed (room (events ++ [e]) new_relay) (submitted 0 events ∅) r sents held queue) as H'.
  { destruct H as [(past & gap & H1 & H2 & H3 & H4 & H5) ? ? ? ?]. split; try done.
    exists past, gap. split_and!; try done. intros Hr. apply room_snoc in Hr as [Hr _]. by apply H5. }
  assert (room (events ++ [e]) new_relay -> length (waiting r) + event_size e <= kMaxOutgoingMessages)%nat as Hfit.
  { intros Hr. apply room_snoc in Hr as [_ Hr]. exact Hr. }
  clear H. set (all := submitted 0 events ∅) in *. clearbody all r.
  destruct e as [m|messages|up| |sent]; cbn [step entries next_generations event_size] in *; rewrite ?app_nil_r.
  - split; [done|]. exists sents, held. rewrite <- Hgen.
    apply (placed_submit _ all r sents held queue [(length events, _)] (bus_generations (outbox r))); done.
  - unfold SendSynchronized. destruct messages as [|m messages].
    { split; [done|]. exists sents, held, queue. cbn [map]. rewrite app_nil_r. by destruct r. }
    cbn [outbox bus_generations]. rewrite Hgen. split; [done|]. exists sents, held.
    set (messages' := m :: messages) in *.
    set (f := fun m0 : MotorMessage => _). 
    match goal with |- exists queue, placed _ _ (mkRelay (mkOutbox _ ?g) _ _ _) _ _ _ =>
      destruct (placed_submit _ all r sents held queue (map f messages') g H') as (queue' & Hq); [by rewrite length_map|] end.
    exists queue'. rewrite map_map in Hq. exact Hq.
  - split; [done|]. exists sents, held, queue. by destruct H'.
  - split; [unfold take_buffer; by destruct (ok r), (taken r)|].
    destruct (placed_take _ _ _ _ _ _ H') as (held' & queue' & Hp). by exists sents, held', queue'.
  - split; [unfold finish_flush; destruct (taken r); [by destruct sent|done]|].
    apply (placed_finish _ _ _ _ _ _ sent H'). intros Hr. specialize (Hfit Hr). lia.
Qed.

(** A frame as the other side reads it, with the events its messages come from. *)
Definition frame_of_group (group : list (nat * RelayQueuedMessage)) : Frame :=
  mkFrame RelayToHelper (map (fun e => message (snd e)) group).

Definition burst_ok (events : list Event) (group : list (nat * RelayQueuedMessage)) : Prop :=
  (length group <= 255)%nat /\
  forall k q k' q', (k, q) ∈ group -> (k', q') ∈ group -> queued_bus q = queued_bus q' -> one_burst events (queued_bus q) k k'.

(** Every message an event submits can be carried. *)
Definition event_ok (e : Event) : Prop :=
  match e with Single m => message_wf m | Batch messages => Forall message_wf messages | _ => True end.

Lemma submitted_wf events : forall k generations,
  Forall event_ok events -> Forall (fun e => message_wf (message (snd e))) (submitted k events generations).
Proof.
  induction events as [|e events IH]; intros k generations Hok; cbn [submitted]; [by apply list.Forall_nil|].
  apply list.Forall_cons in Hok as [He Hok]. apply list.Forall_app. split; [|by apply IH].
  destruct e; cbn [entries event_ok] in *; try (by apply list.Forall_nil); [by apply list.Forall_singleton|].
  by apply Forall_fmap.
Qed.

(** One accepted buffer, frame by frame. *)
Lemma sent_frames events sent :
  Z.of_nat (length events) < 2 ^ 62 -> Forall event_ok events ->
  (forall e, e ∈ sent -> e ∈ submitted 0 events ∅) ->
  exists groups, concat groups = sent /\ Forall (burst_ok events) groups /\
    DecodeRelayFrames (EncodeQueuedRelayFrames RelayToHelper (map snd sent)) = Some (map frame_of_group groups).
Proof.
  intros Hlen Hok Hin.
  assert (Forall (fun q => message_wf (message q)) (map snd sent)) as Hwf.
  { apply Forall_fmap, list.Forall_forall. intros e He.
    pose proof (submitted_wf events 0 ∅ Hok) as H. rewrite list.Forall_forall in H. by apply H, Hin. }
  destruct (EncodeQueued_decodes RelayToHelper (map snd sent) Hwf) as (groups & Hc & Hu & Hd).
  destruct sent as [|e sent].
  { exists [[]]. split_and!; [done| |exact Hd]. apply list.Forall_singleton. split; [cbn; lia|].
    intros k q k' q' H. by apply elem_of_nil in H. }
  cbn [map] in Hd, Hu. specialize (Hu ltac:(done)).
  assert (exists tagged, concat tagged = e :: sent /\ map (map snd) tagged = groups) as (tagged & Ht & <-).
  { clear -Hc. revert Hc. generalize (e :: sent) as l. clear. induction groups as [|g groups IH]; intros l Hc; cbn [concat] in Hc.
    - exists []. by destruct l.
    - symmetry in Hc. apply fmap_app_inv in Hc as (l1 & l2 & -> & E & ->). destruct (IH l2 E) as (t & Ht & Hg).
      exists (l1 :: t). cbn. by rewrite Ht, Hg. }
  exists tagged. split_and!; [done| |].
  - apply list.Forall_forall. intros group Hg. rewrite list.Forall_forall in Hu.
    destruct (Hu (map snd group)) as (_ & Hl & Hsame); [by apply list_elem_of_fmap_2|]. rewrite length_map in Hl.
    assert (forall e, e ∈ group -> e ∈ submitted 0 events ∅) as Hsub.
    { intros x Hx. apply Hin. rewrite <- Ht. apply list_elem_of_In, in_concat. exists group. by rewrite <- !list_elem_of_In. }
    split; [done|]. intros k q k' q' H H' Hb.
    apply (submitted_burst events k q k' q' Hlen); [by apply Hsub|by apply Hsub|done|].
    apply Hsame; [by apply (list_elem_of_fmap_2 snd _ (k, q))|by apply (list_elem_of_fmap_2 snd _ (k', q'))|done].
  - etransitivity; [exact Hd|]. f_equal. rewrite map_map. apply map_ext. intros group. unfold frame_of_group. by rewrite map_map.
Qed.

(** C35: what goes out over the relay.  Whatever the order of submissions, of changes of the
    connection and of the two halves of the flushes, the buffers the client has accepted,
    read frame by frame by the other side, are followed by the waiting messages a part
    of the submitted messages in their order, and all of them while at most 4096 wait;
    what is dropped is always older than what the queue keeps.  No frame mixes two
    synchronised batches of one bus, or a batch with other messages of its bus: of one
    bus it holds messages of one batch only, or single messages submitted without a batch
    of that bus in between. *)
Theorem relay_delivery events :
  Z.of_nat (length events) < 2 ^ 62 -> Forall event_ok events ->
  let r := run events new_relay in
  exists (sent : list (list (list (nat * RelayQueuedMessage)))) held queue,
    Forall2 (fun bytes groups => DecodeRelayFrames bytes = Some (map frame_of_group groups)) (accepted r) sent /\
    Forall (Forall (burst_ok events)) sent /\
    map snd (held ++ queue) = waiting r /\
    (concat (concat sent) ++ held ++ queue) `sublist_of` submitted 0 events ∅ /\
    (exists older, submitted 0 events ∅ = older ++ queue) /\ (length queue <= kMaxOutgoingMessages)%nat /\
    (room events new_relay -> concat (concat sent) ++ held ++ queue = submitted 0 events ∅).
Proof.
  intros Hlen Hok r. destruct (placed_run events) as (_ & sents & held & queue & [(past & gap & Hall & Hsub & _ & _ & Hexact) Hsent Hheld Hqueue Hbound]).
  fold r in Hsent, Hheld, Hqueue.
  assert (forall e, e ∈ concat sents -> e ∈ submitted 0 events ∅) as Hin.
  { intros e He. rewrite Hall. apply elem_of_app. left. eapply elem_of_submseteq; [exact He|by apply sublist_submseteq]. }
  assert (exists sent : list (list (list (nat * RelayQueuedMessage))), map (@concat _) sent = sents /\
    Forall2 (fun bytes groups => DecodeRelayFrames bytes = Some (map frame_of_group groups)) (accepted r) sent /\
    Forall (Forall (burst_ok events)) sent) as (sent & Hs & HF & Hb).
  { rewrite Hsent. clear Hsent Hsub Hexact Hall. induction sents as [|s sents IH].
    - exists []. split_and!; [done|by apply Forall2_nil|by apply list.Forall_nil].
    - cbn [concat] in Hin. destruct IH as (sent & <- & HF & Hb); [intros e He; apply Hin, elem_of_app; by right|].
      destruct (sent_frames events s Hlen Hok) as (groups & Hg & Hgb & Hd); [intros e He; apply Hin, elem_of_app; by left|].
      exists (groups :: sent). cbn [map]. rewrite Hg. split_and!; [done|by apply Forall2_cons|by apply list.Forall_cons]. }
  assert (concat (concat sent) = concat sents) as Hcc.
  { rewrite <- Hs. clear. induction sent as [|s sent IH]; [done|]. cbn [concat map]. by rewrite concat_app, IH. }
  exists sent, held, queue. rewrite Hcc. split_and!; [done|done|by rewrite map_app, Hheld, Hqueue| | |done|].
  - rewrite Hall. apply sublist_app; [done|]. apply sublist_app; [done|]. by apply sublist_inserts_l.
  - exists (past ++ held ++ gap). by rewrite Hall, <- !app_assoc.
  - intros Hr. destruct (Hexact Hr) as [-> ->]. by rewrite Hall.
Qed.

(** ** Reconnecting *)

(** A run of the worker, each iteration with whether it called [Connect]. *)
Fixpoint link_run (frequency : Z) (visits : list Visit) (l : Link) : list (Z * bool) * Link :=
  match visits with
  | [] => ([], l)
  | v :: visits =>
      let '(reconnect, _, l) := WorkerLoopIteration frequency v l in
      let (rest, l) := link_run frequency visits l in ((now v, reconnect) :: rest, l)
  end.

Definition reconnects (log : list (Z * bool)) : list Z := omap (fun '(t, reconnect) => if reconnect : bool then Some t else None) log.

(** Times at least [kReconnectInterval] apart, the first so long after [t]. *)
Fixpoint spaced (t : Z) (times : list Z) : Prop :=
  match times with [] => True | t' :: times => kReconnectInterval <= t' - t /\ spaced t' times end.

(** While the client stays away, the worker tries at most three times, two seconds apart. *)
Lemma reconnect_bounds frequency visits : forall l log l',
  connected_once l = true -> 0 <= reconnect_attempts l <= kMaxReconnectAttempts ->
  Forall (fun v => is_connected v = false) visits -> link_run frequency visits l = (log, l') ->
  Z.of_nat (length (reconnects log)) <= kMaxReconnectAttempts - reconnect_attempts l /\
  spaced (last_reconnect_time l) (reconnects log) /\ (visits <> [] -> link_ok l' = false).
Proof.
  induction visits as [|v visits IH]; intros l log l' Honce Hatt Hdown H; cbn [link_run] in H.
  { injection H as <- <-. cbn. split_and!; [lia|done|done]. }
  apply list.Forall_cons in Hdown as [Hv Hdown].
  assert (exists reconnect flush l1, WorkerLoopIteration frequency v l = (reconnect, flush, l1) /\
    connected_once l1 = true /\ link_ok l1 = false /\
    (if reconnect : bool then reconnect_attempts l < kMaxReconnectAttempts /\ kReconnectInterval <= now v - last_reconnect_time l /\
       reconnect_attempts l1 = reconnect_attempts l + 1 /\ last_reconnect_time l1 = now v
     else reconnect_attempts l1 = reconnect_attempts l /\ last_reconnect_time l1 = last_reconnect_time l))
    as (reconnect & flush & l1 & E & Ho1 & Hok1 & Hr).
  { unfold WorkerLoopIteration. rewrite Honce, Hv. cbn [negb connected_once reconnect_attempts last_reconnect_time last_flush_time link_ok].
    rewrite Honce. cbn [andb].
    destruct (Z.ltb_spec (reconnect_attempts l) kMaxReconnectAttempts), (Z.leb_spec kReconnectInterval (now v - last_reconnect_time l)); cbn [andb connected_once reconnect_attempts last_reconnect_time last_flush_time link_ok];
      destruct (_ <=? _); eexists _, _, _; (split; [reflexivity|]); cbn; split_and!; first [done|lia]. }
  rewrite E in H. destruct (link_run frequency visits l1) as [rest l2] eqn:Er. injection H as <- <-.
  assert (0 <= reconnect_attempts l1 <= kMaxReconnectAttempts) as Hatt1 by (destruct reconnect; lia).
  destruct (IH l1 rest l2 Ho1 Hatt1 Hdown Er) as (Hn & Hs & Hl).
  unfold reconnects in *. cbn [omap list_omap].
  assert (link_ok l2 = false) as Hok2.
  { destruct visits; [|by apply Hl]. cbn in Er. injection Er as _ <-. done. }
  destruct reconnect; cbn [length spaced].
  - destruct Hr as (H1 & H2 & H3 & H4). rewrite H4 in Hs. split_and!; [lia|lia|done|done].
  - destruct Hr as (H1 & H2). rewrite H1, H2 in *. by split_and!.
Qed.

(** ** Examples *)

Definition example_pack (first : Z) : MotorPackMsg := make_pack 1 8 [first; 2; 3; 4; 5; 6; 7; 8].
Definition example_events : list Event :=
  [Single (mkMsg 0 (example_pack 1)); Batch [mkMsg 0 (example_pack 2); mkMsg 1 (example_pack 3)];
   Connected true; TakeBuffer; Single (mkMsg 0 (example_pack 4)); FinishFlush true].

Lemma example_message_wf bus first : 0 <= bus <= 1 -> byte_ok first -> message_wf (mkMsg bus (example_pack first)).
Proof.
  intros Hbus Hfirst. split; [cbn; lia|]. split; [|cbn; lia]. apply make_pack_wf; [lia|by apply byte_ok_cst|cbn; lia|].
  apply list.Forall_cons. split; [done|]. bytes_ok.
Qed.

Lemma relay_example_events_ok : Forall event_ok example_events.
Proof.
  assert (forall bus first, 0 <= bus <= 1 -> (0 <=? first) && (first <? 256) = true -> message_wf (mkMsg bus (example_pack first))) as Hm.
  { intros bus first Hb Hf. apply example_message_wf; [done|by apply byte_ok_cst]. }
  unfold example_events. rewrite !list.Forall_cons. cbn [event_ok]. rewrite !list.Forall_cons, list.Forall_nil.
  split_and!; try done; apply Hm; done || lia.
Qed.

(** The batch gets a frame of its own; the last message waits for the next flush. *)
Lemma relay_delivery_witness :
  let r := run example_events new_relay in
  map (fun bytes => map fr_records <$> DecodeRelayFrames bytes) (accepted r) =
    [Some [[mkMsg 0 (example_pack 1)]; [mkMsg 0 (example_pack 2); mkMsg 1 (example_pack 3)]]] /\
  exists sent held queue, Forall (Forall (burst_ok example_events)) sent /\ map snd (held ++ queue) = waiting r /\
    concat (concat sent) ++ held ++ queue = submitted 0 example_events ∅.
Proof.
  intros r. split; [vm_compute; reflexivity|].
  destruct (relay_delivery example_events) as (sent & held & queue & _ & Hb & Hw & _ & _ & _ & Hall);
    [reflexivity|apply relay_example_events_ok|].
  exists sent, held, queue. split; [exact Hb|]. split; [exact Hw|]. apply Hall.
  cbn [room example_events]. unfold fits. repeat split; apply Nat.leb_le; vm_compute; reflexivity.
Defined.

(** A message that claims nine bytes is queued and encoded like any other; the other
    side then refuses the whole buffer, with every message that was sent together with it. *)
Example bad_length_poisons :
  let bad := mkMsg 0 (mkPack 1 0 9 [1; 2; 3; 4; 5; 6; 7; 8]) in
  let r := run [Single (mkMsg 0 (example_pack 1)); Single bad; Connected true; TakeBuffer; FinishFlush true] new_relay in
  length (accepted r) = 1%nat /\ waiting r = [] /\ map DecodeRelayFrames (accepted r) = [None].
Proof. split_and!; vm_compute; reflexivity. Qed.
