(* ===== verification/RelaySession.v ===== *)
(** * RelaySession: plugins/adapter/relayWs/relay_ws_url.cc and the sessions of relay_ws_adapter.cc

    How the relay adapter gets a session: the start URL is taken apart, a GET asks the
    relay for a session, and every connection goes to the URL made of the answer; the
    destructor gives the session back.  The whole life of an adapter is the constructor,
    the iterations of the worker ([WorkerLoopIteration] of RelayAdapter) and the
    destructor, and what it leaves is the list of its calls of the HTTP and WebSocket
    clients.  What those answer is given with each attempt. *)
From stdpp Require Import base strings option list numbers.
From Stdlib Require Import ZArith Lia.
From S2P Require Import Prelude AdapterExtend CText RelayAdapter.
#[local] Open Scope Z_scope.
#[local] Open Scope cint_scope.
#[local] Arguments chars s%_string.

(** ** relay_ws_url.cc *)

(** [None] where [std::stoi] throws. *)
Fixpoint UrlDecode (value : Text) : option Text :=
  match value with
  | [] => Some []
  | c :: rest =>
      let plain rest := cons (if c =? 43 then 32 else c) <$> UrlDecode rest in
      if c =? 37 then
        match rest with
        | a :: b :: rest' =>
            match stoi 16 [a; b] with
            | Some hex => cons (u8 hex) <$> UrlDecode rest'
            | None => None
            end
        | _ => plain rest
        end
      else plain rest
  end.

Definition GetQueryValue (query key : Text) : option Text :=
  match find_text (key ++ [61]) query with
  | None => Some []
  | Some (_, rest) => UrlDecode (until (fun c => c =? 38) rest)
  end.

Record RelayWsUrlParts := mkParts { scheme : Text; host : Text; port : Z; path : Text; query : Text }.

(** [std::nullopt] is [Malformed]; [BadPort] is the exception of [std::stoi]. *)
Inductive UrlResult :=
| Parts (parts : RelayWsUrlParts)
| Malformed
| BadPort.

(** The host with its port, the path and the query, behind the scheme. *)
Definition split_path (rest : Text) : Text * Text * Text :=
  match split_at 47 rest with
  | None => (rest, [47], [])
  | Some (host_port, after) =>
      match split_at 63 (47 :: after) with
      | None => (host_port, 47 :: after, [])
      | Some (path, query) => (host_port, path, query)
      end
  end.

Definition ParseRelayWsStartUrl (url : Text) : UrlResult :=
  match find_text (chars "://") url with
  | None => Malformed
  | Some (scheme, rest) =>
      let '(host_port, path, query) := split_path rest in
      match split_at 58 host_port with
      | None =>
          Parts (mkParts scheme host_port
                   (if bool_decide (scheme = chars "https") || bool_decide (scheme = chars "wss") then 443 else 80) path query)
      | Some (host, port_text) =>
          match stoi 10 port_text with
          | Some port => Parts (mkParts scheme host port path query)
          | None => BadPort
          end
      end
  end.

(** Both searches start behind the key, at the first colon from the key on. *)
Definition value_behind (response key : Text) : option Text :=
  let quoted := [34] ++ key ++ [34] in
  match find_text quoted response with
  | None => None
  | Some (_, rest) => snd <$> split_at 58 (quoted ++ rest)
  end.

Definition ExtractQuotedString (response key : Text) : Text :=
  match value_behind response key with
  | None => []
  | Some value =>
      match split_at 34 value with
      | None => []
      | Some (_, quoted) => match split_at 34 quoted with Some (text, _) => text | None => [] end
      end
  end.

Fixpoint skip_blanks (text : Text) : Text :=
  match text with
  | c :: rest => if (c =? 32) || (c =? 9) then skip_blanks rest else text
  | [] => []
  end.

Definition ExtractInt (response key : Text) (default_value : Z) : Z :=
  match value_behind response key with
  | None => default_value
  | Some value =>
      match skip_blanks value with
      | [] => default_value
      | text => default default_value (stoi 10 (until (fun c => (c =? 44) || (c =? 125)) text))
      end
  end.

Record RelayWsStartResponse := mkResponse { granted_session : Text; granted_buses : Z }.

Definition ParseRelayStartResponse (response : Text) : RelayWsStartResponse :=
  mkResponse (ExtractQuotedString response (chars "session")) (ExtractInt response (chars "bus_count") 0).

(** ** The session of an adapter *)

Record Session := mkSession {
  start_url : Text;
  frequency : Z;
  ws_url : Text;
  bus_count : Z;
  session_id : Text;
  release_url : Text
}.
Definition new_session (url : Text) (freq : Z) : Session := mkSession url freq [] 0 [] [].

(** The calls by which the two clients open, keep and end a session.  What the worker
    sends and polls on an open connection is in RelayAdapter. *)
Inductive Call :=
| HttpGet (url answer : Text)
| Connect (url : Text)
| PollClient
| Disconnect.

(** What one attempt meets: the body of the answer to a GET, empty unless its status is
    200; the answer of [Connect]; what each round of the wait for the connection sees,
    as far as the wait lasts; and [IsConnected] after it. *)
Record Poll := mkPoll { poll_connected : bool; poll_expired : bool; poll_closed : bool }.
Record Attempt := mkAttempt { answer : Text; connects : bool; polls : list Poll; connected_at_last : bool }.

(** The wait of [ConnectSession]: how often the client is polled. *)
Fixpoint WaitUntilOpen (polls : list Poll) : nat :=
  match polls with
  | [] => 0%nat
  | p :: polls =>
      if poll_connected p || poll_expired p then 0%nat
      else if poll_closed p then 1%nat
      else S (WaitUntilOpen polls)
  end.

(** The second part of [ConnectSession], from [Connect] on. *)
Definition OpenSession (a : Attempt) (s : Session) : bool * list Call :=
  if connects a then (connected_at_last a, Connect (ws_url s) :: repeat PollClient (WaitUntilOpen (polls a)))
  else (false, [Connect (ws_url s)]).

Definition is_ws (url : Text) : bool :=
  match behind (chars "ws://") url, behind (chars "wss://") url with None, None => false | _, _ => true end.

Definition direct_url (url : Text) (freq : Z) : Text :=
  url ++ [match split_at 63 url with None => 63 | Some _ => 38 end] ++ chars "freq=" ++ int_text freq.

Definition release_url_of (p : RelayWsUrlParts) (session : Text) : Text :=
  scheme p ++ chars "://" ++ host p ++ [58] ++ int_text (port p) ++ chars "/release?session=" ++ session ++ [38] ++ query p.
Definition ws_url_of (p : RelayWsUrlParts) (session : Text) (freq : Z) : Text :=
  chars "ws://" ++ host p ++ [58] ++ int_text (port p) ++ chars "/ws?session=" ++ session ++ chars "&freq=" ++ int_text freq.

(** The first part of [ConnectSession]: [inr] with the session to open and the GET made;
    [inl] when there is none, [None] where it throws. *)
Definition FindSession (a : Attempt) (s : Session) : option bool * Session * list Call :=
  if negb (length (ws_url s) =? 0)%nat then (Some true, s, [])
  else if is_ws (start_url s) then
    (Some true,
     mkSession (start_url s) (frequency s) (direct_url (start_url s) (frequency s)) (bus_count s) (session_id s) (release_url s), [])
  else
    match ParseRelayWsStartUrl (start_url s) with
    | BadPort => (None, s, [])
    | Malformed => (Some false, s, [])
    | Parts p =>
        let get := HttpGet (start_url s) (answer a) in
        let r := ParseRelayStartResponse (answer a) in
        if (length (granted_session r) =? 0)%nat then (Some false, s, [get])
        else
          (Some true,
           mkSession (start_url s) (frequency s) (ws_url_of p (granted_session r) (frequency s)) (granted_buses r)
             (granted_session r) (release_url_of p (granted_session r)), [get])
    end.

(** Whether the session is open, [None] where it throws. *)
Definition ConnectSession (a : Attempt) (s : Session) : option bool * Session * list Call :=
  match FindSession a s with
  | (Some true, s, calls) => let (opened, more) := OpenSession a s in (Some opened, s, calls ++ more)
  | r => r
  end.

(** One round of [ConnectSessionWithRetry]: [running], the attempt, and whether the time
    is over after it. *)
Record Round := mkRound { running : bool; attempt : Attempt; expired : bool }.

Fixpoint ConnectSessionWithRetry (rounds : list Round) (s : Session) : option bool * Session * list Call :=
  match rounds with
  | [] => (Some false, s, [])
  | r :: rounds =>
      if negb (running r) then (Some false, s, [])
      else
        match ConnectSession (attempt r) s with
        | (Some false, s, calls) =>
            if expired r then (Some false, s, calls)
            else let '(opened, s, more) := ConnectSessionWithRetry rounds s in (opened, s, calls ++ more)
        | r => r
        end
  end.

(** ** The life of an adapter *)

Definition kDefaultFrequency : Z := 500.

(** The constructor at time [t]; [None] where it throws. *)
Definition Construct (url : Text) (rounds : list Round) (t : Z) : option (Session * Link * list Call) :=
  match ConnectSessionWithRetry rounds (new_session url kDefaultFrequency) with
  | (None, _, _) => None
  | (Some opened, s, calls) => Some (s, mkLink opened opened 0 t t, calls)
  end.

(** One iteration of the worker: [WorkerLoopIteration], with the attempt it makes when
    there has never been a connection. *)
Definition Iterate (v : Attempt * Visit) (s : Session) (l : Link) : option (Session * Link * list Call) :=
  let '(opened, s, calls) := if connected_once l then (Some (session v.2), s, []) else ConnectSession v.1 s in
  match opened with
  | None => None
  | Some opened =>
      let '(reconnect, _, l) :=
        WorkerLoopIteration (frequency s) (mkVisit (now v.2) opened (is_connected v.2) (closed_in_poll v.2)) l in
      Some (s, l, calls ++ if reconnect then [Connect (ws_url s)] else [])
  end.

Fixpoint Work (visits : list (Attempt * Visit)) (s : Session) (l : Link) : option (Session * Link * list Call) :=
  match visits with
  | [] => Some (s, l, [])
  | v :: visits =>
      match Iterate v s l with
      | None => None
      | Some (s, l, calls) =>
          match Work visits s l with
          | None => None
          | Some (s, l, more) => Some (s, l, calls ++ more)
          end
      end
  end.

(** The destructor, once the worker has ended; [body] answers the release. *)
Definition Destroy (body : Text) (s : Session) : list Call :=
  (if (length (release_url s) =? 0)%nat then [] else [HttpGet (release_url s) body]) ++ [Disconnect].

(** These calls of an adapter, all its life; [None] where its constructor throws, or its worker. *)
Definition Lifetime (url : Text) (rounds : list Round) (t : Z) (visits : list (Attempt * Visit)) (body : Text)
    : option (list Call) :=
  match Construct url rounds t with
  | None => None
  | Some (s, l, calls) =>
      match Work visits s l with
      | None => None
      | Some (s, _, more) => Some (calls ++ more ++ Destroy body s)
      end
  end.

(** ** Examples *)

Example parses_start_url :
  ParseRelayWsStartUrl (chars "http://192.168.1.10:9001/start?token=abc&AdapterType=Fake") =
  Parts (mkParts (chars "http") (chars "192.168.1.10") 9001 (chars "/start") (chars "token=abc&AdapterType=Fake")) /\
  ParseRelayWsStartUrl (chars "https://example.com/start?token=abc") =
  Parts (mkParts (chars "https") (chars "example.com") 443 (chars "/start") (chars "token=abc")) /\
  ParseRelayWsStartUrl (chars "http://localhost:8080") =
  Parts (mkParts (chars "http") (chars "localhost") 8080 (chars "/") []) /\
  ParseRelayWsStartUrl (chars "not-a-url") = Malformed /\ ParseRelayWsStartUrl [] = Malformed.
Proof. by vm_compute. Qed.

Example query_values :
  GetQueryValue (chars "token=abc&AdapterType=Fake") (chars "token") = Some (chars "abc") /\
  GetQueryValue (chars "token=abc&AdapterType=Fake") (chars "AdapterType") = Some (chars "Fake") /\
  GetQueryValue (chars "token=abc&AdapterType=Fake") (chars "missing") = Some [] /\
  GetQueryValue (chars "name=hello%20world") (chars "name") = Some (chars "hello world") /\
  GetQueryValue (chars "name=hello+world") (chars "name") = Some (chars "hello world").
Proof. by vm_compute. Qed.

(** A key is also found at the end of another one; a percent sign without digits and a
    port that is no number throw. *)
Example url_surprises :
  GetQueryValue (chars "xtoken=1&token=2") (chars "token") = Some (chars "1") /\
  UrlDecode (chars "%zz") = None /\ UrlDecode (chars "100%") = Some (chars "100%") /\
  ParseRelayWsStartUrl (chars "http://host:port/start") = BadPort /\
  ParseRelayWsStartUrl (chars "http://host:99999999999/start") = BadPort.
Proof. by vm_compute. Qed.

#[local] Definition answer_text : Text :=
  map (fun c => if c =? 39 then 34 else c) (chars "{'session':'sess', 'bus_count': 3}").

Example start_responses :
  ParseRelayStartResponse answer_text = mkResponse (chars "sess") 3 /\
  ParseRelayStartResponse (map (fun c => if c =? 39 then 34 else c) (chars "{'other':'x','session':'s'}")) = mkResponse (chars "s") 0 /\
  ParseRelayStartResponse (chars "invalid") = mkResponse [] 0 /\ ParseRelayStartResponse [] = mkResponse [] 0.
Proof. by vm_compute. Qed.

(** ** One session, given back *)

Definition no_poll (c : Call) : bool := match c with PollClient => false | _ => true end.
Definition denies (body : Text) : Prop := granted_session (ParseRelayStartResponse body) = [].

(** What has been called while the session is as it is. *)
Inductive progress (url : Text) (freq : Z) : Session -> list Call -> Prop :=
| Waiting refused :
    Forall denies refused -> (refused <> [] -> is_ws url = false /\ exists p, ParseRelayWsStartUrl url = Parts p) ->
    progress url freq (new_session url freq) (map (HttpGet url) refused)
| Direct n :
    is_ws url = true ->
    progress url freq (mkSession url freq (direct_url url freq) 0 [] []) (repeat (Connect (direct_url url freq)) n)
| Granted refused body p n :
    let r := ParseRelayStartResponse body in
    is_ws url = false -> ParseRelayWsStartUrl url = Parts p -> Forall denies refused -> granted_session r <> [] ->
    progress url freq
      (mkSession url freq (ws_url_of p (granted_session r) freq) (granted_buses r) (granted_session r) (release_url_of p (granted_session r)))
      (map (HttpGet url) refused ++ [HttpGet url body] ++ repeat (Connect (ws_url_of p (granted_session r) freq)) n).

Lemma polls_hidden n : List.filter no_poll (repeat PollClient n) = [].
Proof. by induction n. Qed.

Lemma OpenSession_calls a s : List.filter no_poll (OpenSession a s).2 = [Connect (ws_url s)].
Proof. unfold OpenSession. destruct (connects a); cbn; [by rewrite polls_hidden|done]. Qed.

Lemma direct_url_nonempty url freq : (length (direct_url url freq) =? 0)%nat = false.
Proof. unfold direct_url. rewrite length_app. cbn [app length]. apply Nat.eqb_neq. lia. Qed.

(** Another connection to the session that was found. *)
Lemma progress_connect url freq s calls :
  ws_url s <> [] -> progress url freq s calls -> progress url freq s (calls ++ [Connect (ws_url s)]).
Proof.
  intros Hws H. revert Hws. destruct H; [done|intros _..].
  - cbn [ws_url]. rewrite <- repeat_cons. by apply (Direct _ _ (S n)).
  - cbn [ws_url]. rewrite <- !app_assoc, <- repeat_cons. by apply (Granted _ _ _ _ _ (S n)).
Qed.

Lemma FindSession_progress url freq a s calls :
  progress url freq s calls ->
  let '(found, s', more) := FindSession a s in
  progress url freq s' (calls ++ more) /\ List.filter no_poll more = more /\
  (found = None <-> ws_url s = [] /\ is_ws url = false /\ ParseRelayWsStartUrl url = BadPort) /\
  (found = Some true -> ws_url s' <> []).
Proof.
  intros []; unfold FindSession; cbn [ws_url start_url new_session].
  - change (length [] =? 0)%nat with true. cbn [negb]. destruct (is_ws url) eqn:Ews.
    + destruct refused; [|by destruct H0 as [? _]]. cbn.
      split_and!; [by apply (Direct _ _ 0)|done|split; [done|by intros (_ & ? & _)]|].
      intros _ E. pose proof (direct_url_nonempty url freq). by rewrite E in *.
    + destruct (ParseRelayWsStartUrl url) as [p| |] eqn:Ep.
      * destruct (Nat.eqb_spec (length (granted_session (ParseRelayStartResponse (answer a)))) 0) as [El|El].
        -- apply nil_length_inv in El. split_and!; [|done|split; [done|by intros (_ & _ & ?)]|done].
           change [HttpGet url (answer a)] with (map (HttpGet url) [answer a]). rewrite <- map_app. apply Waiting.
           ++ apply list.Forall_app. split; [done|]. by apply list.Forall_singleton.
           ++ intros _. eauto.
        -- split_and!; [|done|split; [done|by intros (_ & _ & ?)]|done].
           apply (Granted _ _ refused (answer a) p 0); try done. intros E. by rewrite E in El.
      * rewrite app_nil_r. split_and!; [constructor; rewrite ?Ews, ?Ep; done|done|split; [done|by intros (_ & _ & ?)]|done].
      * rewrite app_nil_r. split_and!; [constructor; rewrite ?Ews, ?Ep; done|done|done|done].
  - rewrite direct_url_nonempty. cbn. rewrite app_nil_r.
    split_and!; [by apply Direct|done|split; [done|by intros (_ & ? & _); congruence]|].
    intros _ E. pose proof (direct_url_nonempty url freq). by rewrite E in *.
  - cbn. rewrite app_nil_r. split_and!; [by apply Granted|done|split; [done|by intros (? & _)]|done].
Qed.

Lemma ConnectSession_progress url freq a s calls :
  progress url freq s calls ->
  let '(opened, s', more) := ConnectSession a s in
  progress url freq s' (calls ++ List.filter no_poll more) /\
  (opened = None <-> ws_url s = [] /\ is_ws url = false /\ ParseRelayWsStartUrl url = BadPort) /\
  (opened = Some true -> ws_url s' <> []).
Proof.
  intros H. pose proof (FindSession_progress _ _ a _ _ H) as Hf. unfold ConnectSession.
  destruct (FindSession a s) as [[[[]|] s'] more]; destruct Hf as (Hp & Hm & Hn & Ht).
  - pose proof (OpenSession_calls a s') as Ho. destruct (OpenSession a s') as [opened more']. cbn [snd] in Ho.
    rewrite List.filter_app, Hm, Ho, app_assoc.
    split_and!; [apply progress_connect; auto|by rewrite <- Hn|auto].
  - rewrite Hm. auto.
  - rewrite Hm. split_and!; [done|done|done].
Qed.

Lemma Retry_progress url freq rounds : forall s calls,
  progress url freq s calls ->
  let '(opened, s', more) := ConnectSessionWithRetry rounds s in
  progress url freq s' (calls ++ List.filter no_poll more) /\
  (opened = None -> is_ws url = false /\ ParseRelayWsStartUrl url = BadPort) /\
  (opened = Some true -> ws_url s' <> []).
Proof.
  induction rounds as [|r rounds IH]; intros s calls H; cbn [ConnectSessionWithRetry].
  { cbn. by rewrite app_nil_r. }
  destruct (running r); cbn [negb]; [|cbn; by rewrite app_nil_r].
  pose proof (ConnectSession_progress _ _ (attempt r) _ _ H) as Hc.
  destruct (ConnectSession (attempt r) s) as [[[[]|] s'] more]; destruct Hc as (Hp & Hn & Ht); [by split_and!| |by split_and!; [|apply Hn|]].
  destruct (expired r); [by split_and!|].
  specialize (IH _ _ Hp). destruct (ConnectSessionWithRetry rounds s') as [[opened s''] more'].
  by rewrite List.filter_app, app_assoc.
Qed.

(** A reconnection follows a connection. *)
Lemma Iteration_connected freq v l :
  let '(reconnect, _, l') := WorkerLoopIteration freq v l in
  connected_once l' = connected_once l || session v /\ (reconnect = true -> connected_once l' = true).
Proof.
  unfold WorkerLoopIteration.
  destruct (connected_once l) eqn:E1; cbn [negb]; destruct (is_connected v); cbn; try rewrite E1; cbn;
    destruct (session v); cbn; repeat (case_match; simplify_eq; cbn); auto.
Qed.

Lemma Iterate_progress url freq v s l calls :
  progress url freq s calls -> (connected_once l = true -> ws_url s <> []) ->
  match Iterate v s l with
  | None => is_ws url = false /\ ParseRelayWsStartUrl url = BadPort
  | Some (s', l', more) =>
      progress url freq s' (calls ++ List.filter no_poll more) /\ (connected_once l' = true -> ws_url s' <> [])
  end.
Proof.
  intros Hp Hl. unfold Iterate.
  assert (let '(opened, s', more) := if connected_once l then (Some (session v.2), s, []) else ConnectSession v.1 s in
    progress url freq s' (calls ++ List.filter no_poll more) /\
    (opened = None -> is_ws url = false /\ ParseRelayWsStartUrl url = BadPort) /\
    (forall b, opened = Some b -> connected_once l || b = true -> ws_url s' <> [])) as Hc.
  { destruct (connected_once l).
    - cbn. rewrite app_nil_r. split_and!; [done|done|]. intros _ _ _. by apply Hl.
    - pose proof (ConnectSession_progress _ _ v.1 _ _ Hp) as Hc.
      destruct (ConnectSession v.1 s) as [[opened s'] more]. destruct Hc as (? & Hn & Ht).
      split_and!; [done|apply Hn|]. intros b -> Hb. cbn in Hb. subst b. by apply Ht. }
  destruct (if connected_once l then _ else _) as [[[opened|] s'] more]; destruct Hc as (Hc & Hn & Ht); [|by apply Hn].
  pose proof (Iteration_connected (frequency s') (mkVisit (now v.2) opened (is_connected v.2) (closed_in_poll v.2)) l) as Hi.
  destruct (WorkerLoopIteration _ _ l) as [[reconnect flush] l']. destruct Hi as (Hi & Hr). cbn [session] in Hi.
  specialize (Ht _ eq_refl). rewrite <- Hi in Ht. split; [|done].
  rewrite List.filter_app, app_assoc. destruct reconnect; cbn; [|by rewrite app_nil_r].
  apply progress_connect; [by apply Ht, Hr|done].
Qed.

Lemma Work_progress url freq visits : forall s l calls,
  progress url freq s calls -> (connected_once l = true -> ws_url s <> []) ->
  match Work visits s l with
  | None => is_ws url = false /\ ParseRelayWsStartUrl url = BadPort
  | Some (s', _, more) => progress url freq s' (calls ++ List.filter no_poll more)
  end.
Proof.
  induction visits as [|v visits IH]; intros s l calls Hp Hl; cbn [Work]; [cbn; by rewrite app_nil_r|].
  pose proof (Iterate_progress _ _ v _ _ _ Hp Hl) as Hi. destruct (Iterate v s l) as [[[s' l'] more]|]; [|done].
  destruct Hi as (Hp' & Hl'). specialize (IH _ _ _ Hp' Hl'). destruct (Work visits s' l') as [[[s'' l''] more']|]; [|done].
  by rewrite List.filter_app, app_assoc.
Qed.

(** What an adapter has called in its whole life. *)
Inductive whole_life (url : Text) (freq : Z) (release_answer : Text) : list Call -> Prop :=
| NoSession refused :
    Forall denies refused -> (refused <> [] -> is_ws url = false /\ exists p, ParseRelayWsStartUrl url = Parts p) ->
    whole_life url freq release_answer (map (HttpGet url) refused ++ [Disconnect])
| DirectSession n :
    is_ws url = true -> whole_life url freq release_answer (repeat (Connect (direct_url url freq)) n ++ [Disconnect])
| OneSession refused body p n :
    let session := granted_session (ParseRelayStartResponse body) in
    is_ws url = false -> ParseRelayWsStartUrl url = Parts p -> Forall denies refused -> session <> [] ->
    whole_life url freq release_answer
      (map (HttpGet url) refused ++ [HttpGet url body] ++ repeat (Connect (ws_url_of p session freq)) n ++
       [HttpGet (release_url_of p session) release_answer; Disconnect]).

Lemma release_url_nonempty p session : (length (release_url_of p session) =? 0)%nat = false.
Proof. unfold release_url_of. rewrite !length_app. cbn [chars length]. apply Nat.eqb_neq. cbn. lia. Qed.

Lemma Destroy_life url freq body s calls :
  progress url freq s calls -> whole_life url freq body (calls ++ Destroy body s).
Proof.
  intros []; unfold Destroy; cbn [release_url new_session].
  - by apply NoSession.
  - by apply DirectSession.
  - rewrite release_url_nonempty, <- !app_assoc. by apply OneSession.
Qed.

Lemma Destroy_no_poll body s : List.filter no_poll (Destroy body s) = Destroy body s.
Proof. unfold Destroy. by destruct (length (release_url s) =? 0)%nat. Qed.

(** However the relay answers and connections come and go, an adapter holds at most one
    session: the start URL is asked until a session is granted and never again, every
    connection goes to the one URL of that session, and the destructor gives back that
    session and no other; a WebSocket start URL is connected to without asking. *)
Theorem relay_session url rounds t visits release_answer :
  match Lifetime url rounds t visits release_answer with
  | Some calls => whole_life url kDefaultFrequency release_answer (List.filter no_poll calls)
  | None => is_ws url = false /\ ParseRelayWsStartUrl url = BadPort
  end.
Proof.
  unfold Lifetime, Construct.
  assert (progress url kDefaultFrequency (new_session url kDefaultFrequency) []) as H0.
  { apply (Waiting _ _ []); [constructor|done]. }
  pose proof (Retry_progress _ _ rounds _ _ H0) as Hr.
  destruct (ConnectSessionWithRetry rounds _) as [[[opened|] s] calls]; destruct Hr as (Hp & Hn & Ht); [|by apply Hn].
  assert (connected_once (mkLink opened opened 0 t t) = true -> ws_url s <> []) as Hl.
  { cbn. intros ->. by apply Ht. }
  pose proof (Work_progress _ _ visits _ _ _ Hp Hl) as Hw.
  destruct (Work visits s _) as [[[s' l'] more]|]; [|done].
  rewrite !List.filter_app, Destroy_no_poll, app_assoc. by apply Destroy_life.
Qed.

(** The constructor, which starts with [running] set, throws exactly for a start URL it
    has to take apart and whose port [std::stoi] does not read; the worker never does. *)
Lemma relay_throws url a over rounds t visits release_answer :
  let rounds := mkRound true a over :: rounds in
  (Construct url rounds t = None <-> is_ws url = false /\ ParseRelayWsStartUrl url = BadPort) /\
  (Lifetime url rounds t visits release_answer = None <-> Construct url rounds t = None).
Proof.
  cbv zeta. pose proof (relay_session url (mkRound true a over :: rounds) t visits release_answer) as Hl.
  assert (is_ws url = false /\ ParseRelayWsStartUrl url = BadPort -> Construct url (mkRound true a over :: rounds) t = None) as Hthrows.
  { intros (Hw & Hp). unfold Construct. cbn [ConnectSessionWithRetry running negb attempt].
    unfold ConnectSession, FindSession. cbn [ws_url start_url new_session length Nat.eqb negb]. by rewrite Hw, Hp. }
  unfold Lifetime in *. destruct (Construct url _ t) as [[[s l] calls]|].
  - assert (~ (is_ws url = false /\ ParseRelayWsStartUrl url = BadPort)) as Hno by (by intros ?; discriminate Hthrows).
    destruct (Work visits s l) as [[[s' l'] more]|]; split; split; try done.
  - by split.
Qed.

(** ** The URLs *)

Definition query_text (q : Text) : Text := match q with [] => [] | _ => 63 :: q end.

(** A start URL with a port, and what it is taken apart to. *)
Definition url_text (p : RelayWsUrlParts) : Text :=
  scheme p ++ chars "://" ++ host p ++ [58] ++ int_text (port p) ++ path p ++ query_text (query p).

Definition plain_parts (p : RelayWsUrlParts) : Prop :=
  (58 ∉ scheme p) /\ (58 ∉ host p) /\ (47 ∉ host p) /\ 0 <= port p <= INT_MAX /\
  (exists rest, path p = 47 :: rest) /\ (63 ∉ path p).

Lemma int_text_digits n c : 0 <= n <= INT_MAX -> c ∈ int_text n -> 48 <= c <= 57.
Proof.
  intros Hn. unfold int_text. replace (n <? 0) with false by lia.
  destruct (decimal_shape n Hn) as (_ & _ & _ & _ & _ & Hall). rewrite list.Forall_forall in Hall. apply Hall.
Qed.

Lemma stoi_int_text n : 0 <= n <= INT_MAX -> stoi 10 (int_text n) = Some n.
Proof. intros Hn. unfold int_text. replace (n <? 0) with false by lia. by apply stoi_decimal. Qed.

Theorem url_roundtrip p : plain_parts p -> ParseRelayWsStartUrl (url_text p) = Parts p.
Proof.
  destruct p as [sc ho po pa qu]. intros (Hs & Hh & Hh' & Hp & (rest & Hpa) & Hq). cbn [scheme host port path query] in *. subst pa.
  unfold ParseRelayWsStartUrl, url_text. cbn [scheme host port path query].
  change (chars "://") with [58; 47; 47]. rewrite find_text_first by done.
  assert (split_path (ho ++ [58] ++ int_text po ++ (47 :: rest) ++ query_text qu) = (ho ++ [58] ++ int_text po, 47 :: rest, qu)) as ->.
  { unfold split_path. assert (split_at 47 (ho ++ [58] ++ int_text po ++ (47 :: rest) ++ query_text qu) = Some (ho ++ [58] ++ int_text po, rest ++ query_text qu)) as ->.
    { apply split_before_some. split; [by rewrite <- !app_assoc|]. rewrite !elem_of_app.
      intros [?|[Hc|Hc]]; [done|by apply list_elem_of_singleton in Hc|]. pose proof (int_text_digits _ _ Hp Hc). lia. }
    destruct qu as [|q qu]; cbn [query_text].
    - rewrite app_nil_r. by rewrite (proj2 (split_before_none 63 (47 :: rest))).
    - assert (split_at 63 (47 :: rest ++ 63 :: q :: qu) = Some (47 :: rest, q :: qu)) as ->; [|done].
      by apply split_before_some. }
  assert (split_at 58 (ho ++ [58] ++ int_text po) = Some (ho, int_text po)) as -> by (by apply split_before_some).
  by rewrite stoi_int_text.
Qed.

Lemma UrlDecode_plain text : Forall (fun c => c <> 37 /\ c <> 43) text -> UrlDecode text = Some text.
Proof.
  induction text as [|c text IH]; intros H; [done|]. apply list.Forall_cons in H as [[Hc Hc'] H]. cbn [UrlDecode].
  replace (c =? 37) with false by lia. replace (c =? 43) with false by lia. by rewrite IH.
Qed.

Lemma until_app set text c rest : Forall (fun x => set x = false) text -> set c = true -> until set (text ++ c :: rest) = text.
Proof.
  induction text as [|x text IH]; intros H Hc; cbn; [by rewrite Hc|]. apply list.Forall_cons in H as [-> H]. by rewrite IH.
Qed.

(** The URL that gives a session back leads to the host and port of the start URL, to
    [/release], and names the session and everything the start URL asked for. *)
Lemma release_url_names p session :
  plain_parts p -> Forall (fun c => c <> 37 /\ c <> 43 /\ c <> 38) session -> session <> [] ->
  let release_query := chars "session=" ++ session ++ [38] ++ query p in
  ParseRelayWsStartUrl (release_url_of p session) =
    Parts (mkParts (scheme p) (host p) (port p) (chars "/release") release_query) /\
  GetQueryValue release_query (chars "session") = Some session.
Proof.
  intros (Hs & Hh & Hh' & Hp & _ & _) Hse Hne. cbv zeta. split.
  - pose proof (url_roundtrip (mkParts (scheme p) (host p) (port p) (chars "/release") (chars "session=" ++ session ++ [38] ++ query p))) as H.
    rewrite <- H; [done|]. unfold plain_parts; cbn [scheme host port path query]; split_and!; try lia; try done; [by eexists|]. apply (bool_decide_unpack (63 ∉ chars "/release")). by vm_compute.
  - unfold GetQueryValue.
    pose proof (find_text_first 115 (tail (chars "session=")) [] (session ++ [38] ++ query p) ltac:(apply not_elem_of_nil)) as Hf.
    change (find_text (chars "session" ++ [61]) (chars "session=" ++ session ++ [38] ++ query p) =
            Some ([], session ++ [38] ++ query p)) in Hf.
    rewrite Hf. cbn [app]. rewrite until_app; [| |done].
    + apply UrlDecode_plain. revert Hse. apply Forall_impl. cbn. tauto.
    + revert Hse. apply Forall_impl. intros c ?. lia.
Qed.

(** The session URL of a relay reached over HTTPS is not a [wss] one. *)
Example https_session :
  ws_url_of (mkParts (chars "https") (chars "h") 443 (chars "/start") []) (chars "s") 500 = chars "ws://h:443/ws?session=s&freq=500".
Proof. by vm_compute. Qed.

(** A session that is granted at the second try and held over a reconnection. *)
Example one_session :
  let try_ answer := mkRound true (mkAttempt answer true [mkPoll false false false] true) false in
  let visit now connected := (mkAttempt [] true [] true, mkVisit now false connected None) in
  List.filter no_poll <$>
    Lifetime (chars "http://h:80/start?token=t") [try_ []; try_ answer_text] 0 [visit 5 true; visit 2500 false; visit 2600 true] [] =
  let url := chars "http://h:80/start?token=t" in
  let ws := chars "ws://h:80/ws?session=sess&freq=500" in
  Some [HttpGet url []; HttpGet url answer_text; Connect ws; Connect ws;
        HttpGet (chars "http://h:80/release?session=sess&token=t") []; Disconnect].
Proof. by vm_compute. Qed.
