(* ===== verification/EthernetAdapter.v ===== *)
(** * EthernetAdapter: the adapter of the Ethernet gateways

    plugins/adapter/ethernet/ethernet_adapter.cc with ethernet_slave.h and
    ethernet_tx_queue.h.  Submissions of any thread are grouped by gateway and queued
    under a lock; one worker sends a batch per gateway and round, keeps what the
    transport refuses, and delivers what it receives.  The transport and the clock
    answer from a script. *)
From stdpp Require Import base numbers option gmap list sorting.
From Stdlib Require Import ZArith Lia.
From S2P Require Import Prelude CFloat Types RelayFrame EthernetProtocol AdapterExtend BusTiming.
#[local] Open Scope Z_scope.
#[local] Open Scope cint_scope.

Abbreviation Messages := (list MotorMessage).

(** ** Routes *)

(** [BusSlave]; [None] is the exception. *)
Definition BusSlave (index : Z) : option Z :=
  let id := u32 index ≫ 16 in
  if (index <? 0) || (252 <? id) || (7 <? index .& 65535) then None else Some id.

(** ** The transmit queue *)

Record TransmitQueue := mkTx { batches_ : list Messages; size_ : Z }.

Definition kQueueCapacity : Z := 4096.

Definition Available (q : TransmitQueue) : Z := (kQueueCapacity - size_ q) mod 18446744073709551616.

(** [None] is [false]: the queue is not changed. *)
Definition Push (q : TransmitQueue) (messages : Messages) : option TransmitQueue :=
  if Available q <? Z.of_nat (length messages) then None
  else if existsb (fun m => (bus_idx m <? 0) || (8 <=? bus_idx m)) messages then None
  else match messages with
       | [] => Some q
       | _ => Some (mkTx (batches_ q ++ [messages]) (size_ q + Z.of_nat (length messages)))
       end.

Definition Pop (q : TransmitQueue) : Messages * TransmitQueue :=
  match batches_ q with
  | [] => ([], q)
  | batch :: batches => (batch, mkTx batches (size_ q - Z.of_nat (length batch)))
  end.

(** ** The adapter *)

Record Peer := mkPeer {
  channel_count : Z;
  pending : TransmitQueue;
  outgoing : Messages;
  heartbeat : Z
}.

Record Adapter := mkAdapter {
  multi_ : bool;
  peers_ : gmap Z Peer;
  running_ : bool
}.

Definition with_peers (peers : gmap Z Peer) (a : Adapter) : Adapter := mkAdapter (multi_ a) peers (running_ a).
Definition with_pending (q : TransmitQueue) (p : Peer) : Peer := mkPeer (channel_count p) q (outgoing p) (heartbeat p).

Definition route (a : Adapter) (index : Z) : Z * Z :=
  if multi_ a then (u32 index ≫ 16, u32 index .& 65535) else (0, u32 index).

Definition IsValidBus (a : Adapter) (index : Z) : bool :=
  if index <? 0 then false
  else let (slave, channel) := route a index in
       match peers_ a !! slave with
       | Some peer => channel <? channel_count peer
       | None => false
       end.

(** ** Sending *)

Inductive SendError := NotRunning | NoBus | NotDiscovered | BadRecord | QueueFull | InvariantViolated.

(** [grouped[slave].push_back(local)] on a [std::map]. *)
Fixpoint push_group (grouped : list (Z * Messages)) (slave : Z) (message : MotorMessage) : list (Z * Messages) :=
  match grouped with
  | [] => [(slave, [message])]
  | (s, group) :: grouped =>
      if s =? slave then (s, group ++ [message]) :: grouped
      else if slave <? s then (slave, [message]) :: (s, group) :: grouped
      else (s, group) :: push_group grouped slave message
  end.

Definition slave_of (a : Adapter) (index : Z) : option Z := if multi_ a then BusSlave index else Some 0.
Definition local_message (a : Adapter) (message : MotorMessage) : MotorMessage :=
  if multi_ a then mkMsg (bus_idx message .& 65535) (mdata message) else message.

Fixpoint group_messages (a : Adapter) (messages : Messages) (grouped : list (Z * Messages))
    : SendError + list (Z * Messages) :=
  match messages with
  | [] => inr grouped
  | message :: messages =>
      if negb (IsValidBus a (bus_idx message)) then inl NoBus
      else match slave_of a (bus_idx message) with
           | None => inl NoBus
           | Some slave =>
               match peers_ a !! slave with
               | None => inl NotDiscovered
               | Some _ => group_messages a messages (push_group grouped slave (local_message a message))
               end
           end
  end.

(** The loop over [offset]: batches of at most [kMaxPayloadMessages]. *)
Fixpoint chunks (fuel : nat) (messages : Messages) : list Messages :=
  match fuel, messages with
  | S fuel, _ :: _ => take kMaxPayloadMessages messages :: chunks fuel (drop kMaxPayloadMessages messages)
  | _, _ => []
  end.

Definition batches_of (messages : Messages) : list Messages := chunks (length messages) messages.

(** [pending.Push] of every batch of a group. *)
Fixpoint push_batches (q : TransmitQueue) (batches : list Messages) : option TransmitQueue :=
  match batches with
  | [] => Some q
  | batch :: batches => match Push q batch with Some q => push_batches q batches | None => None end
  end.

Fixpoint push_groups (peers : gmap Z Peer) (grouped : list (Z * Messages)) : option (gmap Z Peer) :=
  match grouped with
  | [] => Some peers
  | (slave, group) :: grouped =>
      match peers !! slave with
      | None => None
      | Some peer =>
          match push_batches (pending peer) (batches_of group) with
          | Some q => push_groups (<[slave := with_pending q peer]> peers) grouped
          | None => None
          end
      end
  end.

Definition fits (peers : gmap Z Peer) (group : Z * Messages) : bool :=
  match peers !! group.1 with
  | Some peer => negb (Available (pending peer) <? Z.of_nat (length group.2))
  | None => false
  end.

(** Without an error, the adapter after the call. *)
Definition SendSynchronized (a : Adapter) (messages : Messages) : SendError + Adapter :=
  if negb (running_ a) then inl NotRunning
  else match group_messages a messages [] with
       | inl e => inl e
       | inr grouped =>
           if negb (forallb (fun '(_, group) =>
                forallb (fun batch => bool_decide (is_Some (EncodePayload batch))) (batches_of group)) grouped)
           then inl BadRecord
           else if negb (forallb (fits (peers_ a)) grouped) then inl QueueFull
           else match push_groups (peers_ a) grouped with
                | Some peers => inr (with_peers peers a)
                | None => inl InvariantViolated
                end
       end.

Definition Send (a : Adapter) (message : MotorMessage) : SendError + Adapter := SendSynchronized a [message].

(** [GetBuses]: the indices, gateway by gateway. *)
Definition slaves (a : Adapter) : list Z := merge_sort Z.le (elements (dom (peers_ a))).
Definition GetBuses (a : Adapter) : list Z :=
  flat_map (fun slave =>
    match peers_ a !! slave with
    | Some peer => map (fun i => (slave ≪ 16) .| Z.of_nat i) (seq 0 (Z.to_nat (channel_count peer)))
    | None => []
    end) (slaves a).

(** ** The worker *)

(** What happens while the worker visits a gateway: the calls of [SendSynchronized]
    that take the lock before its [Pop], the answers of the transport to the batch
    and to the heartbeat ([None] is an exception), the clock (milliseconds). *)
Record Visit := mkVisit { calls : list Messages; sent : option bool; now : Z; beat : option bool }.

(** The adapter and what left it: the results of the calls, the batches handed to the
    transport, the heartbeats and the messages delivered to the buses. *)
Record World := mkWorld {
  adapter : Adapter;
  results : list (Messages * option SendError);
  wire : list (Z * Messages);
  beats : list (Z * Z);
  delivered : list Messages
}.

Definition with_adapter (a : Adapter) (w : World) : World := mkWorld a (results w) (wire w) (beats w) (delivered w).

Definition submit (w : World) (messages : Messages) : World :=
  match SendSynchronized (adapter w) messages with
  | inl e => mkWorld (adapter w) (results w ++ [(messages, Some e)]) (wire w) (beats w) (delivered w)
  | inr a => mkWorld a (results w ++ [(messages, None)]) (wire w) (beats w) (delivered w)
  end.

(** The handler of the worker: it logs the error and gives up. *)
Definition stop (w : World) : World :=
  with_adapter (mkAdapter (multi_ (adapter w)) (peers_ (adapter w)) false) w.

Definition update_peer (slave : Z) (p : Peer) (w : World) : World :=
  with_adapter (with_peers (<[slave := p]> (peers_ (adapter w))) (adapter w)) w.

(** [if (peer.outgoing.empty()) peer.outgoing = peer.pending.Pop();] *)
Definition refill (p : Peer) : Peer :=
  match outgoing p with
  | [] => let (batch, q) := Pop (pending p) in mkPeer (channel_count p) q batch (heartbeat p)
  | _ => p
  end.

Definition refill_peer (w : World) (slave : Z) : World :=
  match peers_ (adapter w) !! slave with
  | Some p => update_peer slave (refill p) w
  | None => w
  end.

(** [if (!peer.outgoing.empty() && transport_->Send(...)) peer.outgoing.clear();]
    [false]: an exception. *)
Definition send_outgoing (w : World) (slave : Z) (v : Visit) : World * bool :=
  match peers_ (adapter w) !! slave with
  | None => (w, true)
  | Some p =>
      match outgoing p, sent v with
      | [], _ => (w, true)
      | _, None => (w, false)
      | _, Some false => (w, true)
      | batch, Some true =>
          let w := update_peer slave (mkPeer (channel_count p) (pending p) [] (heartbeat p)) w in
          (mkWorld (adapter w) (results w) (wire w ++ [(slave, batch)]) (beats w) (delivered w), true)
      end
  end.

Definition send_heartbeat (w : World) (slave : Z) (v : Visit) : World * bool :=
  match peers_ (adapter w) !! slave with
  | None => (w, true)
  | Some p =>
      if heartbeat p <=? now v then
        match beat v with
        | None => (w, false)
        | Some false => (w, true)
        | Some true =>
            let w := update_peer slave (mkPeer (channel_count p) (pending p) (outgoing p) (now v + 1000)) w in
            (mkWorld (adapter w) (results w) (wire w) (beats w ++ [(slave, now v)]) (delivered w), true)
        end
      else (w, true)
  end.

(** One gateway. *)
Definition visit_peer (w : World) (slave : Z) (v : Visit) : World * bool :=
  let w := refill_peer (fold_left submit (calls v) w) slave in
  let (w, going) := send_outgoing w slave v in
  if going then send_heartbeat w slave v else (w, false).

Fixpoint visit_peers (w : World) (slaves : list Z) (visits : list Visit) : World * bool :=
  match slaves, visits with
  | slave :: slaves, v :: visits =>
      let (w, going) := visit_peer w slave v in
      if going then visit_peers w slaves visits else (w, false)
  | _, _ => (w, true)
  end.

(** One round of the loop: the gateways in the order of their numbers, then the
    reception, whose messages of unknown buses are dropped. *)
Definition round (w : World) (visits : list Visit) (receive : option Messages) : World :=
  if negb (running_ (adapter w)) then w
  else
    let (w, going) := visit_peers w (slaves (adapter w)) visits in
    if negb going then stop w
    else match receive with
         | None => stop w
         | Some received =>
             match filter (fun m => IsValidBus (adapter w) (bus_idx m) = true) received with
             | [] => w
             | received => mkWorld (adapter w) (results w) (wire w) (beats w) (delivered w ++ [received])
             end
         end.

Inductive Event :=
| ESubmit (messages : Messages)
| ERound (visits : list Visit) (receive : option Messages)
| EStop.

Definition step (w : World) (e : Event) : World :=
  match e with
  | ESubmit messages => submit w messages
  | ERound visits receive => round w visits receive
  | EStop => stop w
  end.

Definition run (w : World) (events : list Event) : World := fold_left step events w.

(** The adapter its constructor leaves: nothing queued, one entry per gateway. *)
Definition new_peer (channels : Z) : Peer := mkPeer channels (mkTx [] 0) [] 0.
Definition new_adapter (multi : bool) (gateways : gmap Z Z) : Adapter := mkAdapter multi (new_peer <$> gateways) true.
Definition new_world (a : Adapter) : World := mkWorld a [] [] [] [].

(** The constructor accepts one to eight channels per gateway
    ([InitializeCanChannels]), and a number below 253 ([SlaveId]), 0 without [multi_]. *)
Definition gateways_ok (multi : bool) (gateways : gmap Z Z) : Prop :=
  map_Forall (fun slave channels => 1 <= channels <= 8 /\ 0 <= slave <= 252 /\ (multi = false -> slave = 0)) gateways.

(** ** Reference *)

(** The messages of a call that are for one gateway, with their local channel. *)
Definition addressed (a : Adapter) (slave : Z) (messages : Messages) : Messages :=
  map (local_message a) (filter (fun m => fst (route a (bus_idx m)) = slave) messages).

Definition accepted (w : World) : list Messages :=
  omap (fun '(messages, result) => match result with None => Some messages | Some _ => None end) (results w).

(** The batches of the calls that succeeded. *)
Definition submitted (w : World) (slave : Z) : list Messages :=
  flat_map (fun messages => batches_of (addressed (adapter w) slave messages)) (accepted w).

Definition on_wire (w : World) (slave : Z) : list Messages :=
  omap (fun '(s, batch) => if s =? slave then Some batch else None) (wire w).

(** The batches that wait for one gateway. *)
Definition waiting (p : Peer) : list Messages :=
  match outgoing p with [] => [] | batch => [batch] end ++ batches_ (pending p).

(** ** Invariants *)

Definition batch_ok (batch : Messages) : Prop :=
  batch <> [] /\ (length batch <= kMaxPayloadMessages)%nat /\ is_Some (EncodePayload batch).

Definition queued (p : Peer) : Z := Z.of_nat (length (concat (batches_ (pending p)))).

Record peer_ok (p : Peer) : Prop := {
  peer_channels : 1 <= channel_count p <= 8;
  peer_size : size_ (pending p) = queued p;
  peer_bound : queued p <= kQueueCapacity;
  peer_batches : Forall batch_ok (waiting p)
}.

Definition slave_ok (a : Adapter) (slave : Z) : Prop := 0 <= slave <= 252 /\ (multi_ a = false -> slave = 0).

Definition adapter_ok (a : Adapter) : Prop :=
  map_Forall (fun slave p => slave_ok a slave /\ peer_ok p) (peers_ a).

Lemma available_ok p : peer_ok p -> Available (pending p) = kQueueCapacity - queued p.
Proof.
  intros [_ Hs Hb _]. unfold Available. rewrite Hs. unfold queued, kQueueCapacity in *. apply Z.mod_small. lia.
Qed.

(** ** Batches *)

Lemma chunks_concat fuel : forall ms, (length ms <= fuel)%nat -> concat (chunks fuel ms) = ms.
Proof.
  induction fuel as [|fuel IH]; intros [|m ms] H; cbn [chunks concat]; try done; [cbn in H; lia|].
  rewrite IH; [apply take_drop|]. rewrite length_drop. unfold kMaxPayloadMessages. cbn in *. lia.
Qed.

Lemma batches_concat ms : concat (batches_of ms) = ms.
Proof. by apply chunks_concat. Qed.

Lemma chunks_shape fuel : forall ms,
  Forall (fun batch => batch <> [] /\ (length batch <= kMaxPayloadMessages)%nat) (chunks fuel ms).
Proof.
  induction fuel as [|fuel IH]; intros [|m ms]; cbn [chunks]; try constructor; [|apply IH].
  split; [done|]. rewrite length_take. lia.
Qed.

Lemma encodes_valid ms :
  (length ms <= kMaxPayloadMessages)%nat -> is_Some (EncodePayload ms) <-> forallb Valid ms = true.
Proof.
  intros Hl. unfold EncodePayload. rewrite (proj2 (Nat.ltb_ge _ _) Hl). cbn [orb].
  destruct (forallb Valid ms); cbn [negb].
  - by split; [|eexists].
  - split; [by intros [? ?]|done].
Qed.

(** The batches of a group encode exactly when its records are valid. *)
Lemma batches_encode ms :
  forallb (fun batch => bool_decide (is_Some (EncodePayload batch))) (batches_of ms) = forallb Valid ms.
Proof.
  apply eq_true_iff_eq. rewrite <- (batches_concat ms) at 2. rewrite !forallb_forall.
  pose proof (chunks_shape (length ms) ms) as Hs. rewrite list.Forall_forall in Hs. split.
  - intros H m (batch & Hb & Hm)%in_concat. specialize (H batch Hb).
    apply bool_decide_eq_true, encodes_valid in H; [|by apply Hs, list_elem_of_In].
    rewrite forallb_forall in H. by apply H.
  - intros H batch Hb. apply bool_decide_eq_true, encodes_valid; [by apply Hs, list_elem_of_In|].
    apply forallb_forall. intros m Hm. apply H, in_concat. by exists batch.
Qed.

Lemma batches_ok ms : forallb Valid ms = true -> Forall batch_ok (batches_of ms).
Proof.
  intros Hv. rewrite <- batches_encode, forallb_forall in Hv. pose proof (chunks_shape (length ms) ms) as Hs.
  rewrite list.Forall_forall in *. intros batch Hb. destruct (Hs batch Hb) as [Hn Hl]. split_and!; [done|done|].
  by apply list_elem_of_In, Hv, bool_decide_eq_true in Hb.
Qed.

(** Room for the messages is room for every batch of them. *)
Lemma push_batches_ok batches : forall q,
  size_ q = Z.of_nat (length (concat (batches_ q))) ->
  size_ q + Z.of_nat (length (concat batches)) <= kQueueCapacity -> Forall batch_ok batches ->
  push_batches q batches =
  Some (mkTx (batches_ q ++ batches) (size_ q + Z.of_nat (length (concat batches)))).
Proof.
  induction batches as [|batch batches IH]; intros q Hq Hroom Hok; cbn [push_batches].
  - destruct q. cbn. by rewrite app_nil_r, Z.add_0_r.
  - cbn [concat] in *. rewrite length_app in *.
    apply list.Forall_cons in Hok as [(Hne & Hlen & Henc) Hok].
    apply (encodes_valid _ Hlen) in Henc. unfold kQueueCapacity in *.
    assert (Push q batch = Some (mkTx (batches_ q ++ [batch]) (size_ q + Z.of_nat (length batch)))) as ->.
    { unfold Push, Available, kQueueCapacity. rewrite Z.mod_small by lia. rewrite (proj2 (Z.ltb_ge _ _)) by lia.
      replace (existsb _ batch) with false; [by destruct batch|].
      symmetry. apply not_true_iff_false. rewrite existsb_exists. intros (m & Hin & Hm).
      rewrite forallb_forall in Henc. apply Henc in Hin. unfold Valid in Hin.
      apply orb_true_iff in Hm as [Hm|Hm]; lia. }
    rewrite IH; cbn [batches_ size_]; [|rewrite concat_app, length_app; cbn; rewrite app_nil_r; lia|lia|done].
    by rewrite <- app_assoc, Nat2Z.inj_add, Z.add_assoc.
Qed.

(** ** Groups *)

Definition groups (grouped : list (Z * Messages)) : gmap Z Messages := list_to_map grouped.
Definition group_at (grouped : list (Z * Messages)) (slave : Z) : Messages := default [] (groups grouped !! slave).

Lemma push_group_keys grouped slave m k :
  k ∈ (push_group grouped slave m).*1 -> k = slave \/ k ∈ grouped.*1.
Proof.
  induction grouped as [|[s group] grouped IH]; cbn [push_group fmap list_fmap fst]; [set_solver|].
  destruct (s =? slave); [by right|]. destruct (slave <? s); cbn [fmap list_fmap fst]; rewrite ?elem_of_cons; [tauto|].
  intros [->|Hin%IH]; tauto.
Qed.

Lemma push_group_spec grouped slave m :
  StronglySorted Z.lt grouped.*1 ->
  StronglySorted Z.lt (push_group grouped slave m).*1 /\
  groups (push_group grouped slave m) = <[slave := group_at grouped slave ++ [m]]> (groups grouped).
Proof.
  unfold group_at, groups.
  induction grouped as [|[s group] grouped IH]; cbn [push_group fmap list_fmap fst]; intros Hs.
  - split; [by repeat constructor|done].
  - apply StronglySorted_inv in Hs as [Hs Hall]. destruct (Z.eqb_spec s slave) as [->|Hne]; [|destruct (Z.ltb_spec slave s)].
    + cbn. rewrite lookup_insert_eq, insert_insert_eq. by split; [constructor|].
    + cbn. rewrite lookup_insert_ne by done.
      rewrite (not_elem_of_list_to_map_1 grouped slave); [split; [|done]|].
      * constructor; [by constructor|]. constructor; [done|]. eapply Forall_impl; [exact Hall|]. cbn. lia.
      * intros Hin. rewrite list.Forall_forall in Hall. apply Hall in Hin. lia.
    + destruct (IH Hs) as [Hs' IHm]. cbn. split.
      * constructor; [done|]. apply list.Forall_forall. intros k [->|Hin]%push_group_keys; [lia|].
        rewrite list.Forall_forall in Hall. by apply Hall.
      * rewrite IHm, lookup_insert_ne by done. by apply insert_insert_ne.
Qed.

(** A call that is accepted is grouped by gateway. *)
Lemma valid_bus a index :
  adapter_ok a -> IsValidBus a index = true ->
  0 <= index -> index < 2147483648 ->
  exists peer, peers_ a !! fst (route a index) = Some peer /\ slave_of a index = Some (fst (route a index)).
Proof.
  unfold IsValidBus, slave_of, route. intros Hok Hv H0 H1.
  rewrite (proj2 (Z.ltb_ge _ _) H0) in Hv.
  destruct (multi_ a) eqn:Em; cbn [fst] in *.
  - destruct (peers_ a !! _) as [p|] eqn:Ep; [|done]. exists p. split; [done|].
    destruct (map_Forall_lookup_1 _ _ _ _ Hok Ep) as [[Hs _] [Hc _ _ _]].
    unfold BusSlave. rewrite u32_small in * by lia. rewrite (proj2 (Z.ltb_ge _ _) H0), (proj2 (Z.ltb_ge 252 _)) by lia.
    cbn [orb]. by rewrite (proj2 (Z.ltb_ge 7 _)) by lia.
  - destruct (peers_ a !! 0) as [p|] eqn:Ep; [|done]. by exists p.
Qed.

(** Every message holds an [int] bus index. *)
Definition ints (messages : Messages) : Prop := Forall (fun m => -2147483648 <= bus_idx m < 2147483648) messages.

Lemma group_messages_spec a ms : forall grouped,
  adapter_ok a -> ints ms -> StronglySorted Z.lt grouped.*1 ->
  map_Forall (fun slave group => group <> [] /\ is_Some (peers_ a !! slave)) (groups grouped) ->
  if forallb (fun m => IsValidBus a (bus_idx m)) ms then
    exists result, group_messages a ms grouped = inr result /\ StronglySorted Z.lt result.*1 /\
      map_Forall (fun slave group => group <> [] /\ is_Some (peers_ a !! slave)) (groups result) /\
      forall slave, group_at result slave = group_at grouped slave ++ addressed a slave ms
  else group_messages a ms grouped = inl NoBus.
Proof.
  induction ms as [|m ms IH]; intros grouped Ha Hints Hs Hne; cbn [forallb group_messages].
  - exists grouped. split_and!; [done|done|done|]. intros slave. cbn. by rewrite app_nil_r.
  - apply list.Forall_cons in Hints as [Hint Hints].
    destruct (IsValidBus a (bus_idx m)) eqn:Ev; cbn [negb andb]; [|done].
    assert (0 <= bus_idx m) as H0.
    { unfold IsValidBus in Ev. destruct (Z.ltb_spec (bus_idx m) 0); [done|lia]. }
    destruct (valid_bus a (bus_idx m) Ha Ev H0) as (peer & Hp & ->); [lia|]. rewrite Hp.
    remember (fst (route a (bus_idx m))) as slave0 eqn:E0.
    destruct (push_group_spec grouped slave0 (local_message a m) Hs) as [Hs' Hmap].
    specialize (IH (push_group grouped slave0 (local_message a m)) Ha Hints Hs').
    rewrite Hmap in IH. destruct (forallb _ ms).
    + destruct IH as (result & -> & Hsr & Hner & Hat).
      { apply map_Forall_insert_2; [|done]. split; [by destruct (group_at grouped slave0)|by eexists]. }
      exists result. split_and!; [done|done|done|]. intros slave. rewrite Hat. unfold group_at at 1. rewrite Hmap.
      unfold addressed. rewrite filter_cons, <- E0. destruct (decide (slave0 = slave)) as [<-|Hd].
      * rewrite lookup_insert_eq. cbn [from_option Datatypes.id]. by rewrite <- app_assoc.
      * by rewrite lookup_insert_ne by done.
    + apply IH. apply map_Forall_insert_2; [|done]. split; [by destruct (group_at grouped slave0)|by eexists].
Qed.

(** ** Submissions *)

Definition enqueue_peer (messages : Messages) (p : Peer) : Peer :=
  with_pending (mkTx (batches_ (pending p) ++ batches_of messages) (size_ (pending p) + Z.of_nat (length messages))) p.

Lemma enqueue_nothing p : enqueue_peer [] p = p.
Proof. destruct p as [c [b s] o h]. unfold enqueue_peer, with_pending. cbn. by rewrite app_nil_r, Z.add_0_r. Qed.

Lemma batches_length ms : length (concat (batches_of ms)) = length ms.
Proof. by rewrite batches_concat. Qed.

Lemma enqueue_queued ms p : queued (enqueue_peer ms p) = queued p + Z.of_nat (length ms).
Proof. unfold queued. cbn. rewrite concat_app, length_app, batches_length. lia. Qed.

Lemma push_groups_ok grouped : forall peers,
  StronglySorted Z.lt grouped.*1 ->
  (forall slave p, peers !! slave = Some p -> size_ (pending p) = queued p) ->
  (forall slave group, groups grouped !! slave = Some group ->
     exists p, peers !! slave = Some p /\ queued p + Z.of_nat (length group) <= kQueueCapacity /\ forallb Valid group = true) ->
  push_groups peers grouped =
  Some (map_imap (fun slave p => Some (enqueue_peer (group_at grouped slave) p)) peers).
Proof.
  induction grouped as [|[slave group] grouped IH]; intros peers Hs Hok Hg; cbn [push_groups].
  - f_equal. apply map_eq. intros k. rewrite map_lookup_imap. destruct (peers !! k); [|done]. cbn.
    unfold group_at, groups. cbn. by rewrite lookup_empty, enqueue_nothing.
  - apply StronglySorted_inv in Hs as [Hs Hall].
    assert (forall k, (k ∈ grouped.*1) -> slave < k) as Hlt by by apply list.Forall_forall.
    assert (groups grouped !! slave = None) as Hnone.
    { apply not_elem_of_list_to_map_1. intros Hin%Hlt. lia. }
    destruct (Hg slave group) as (p & Hp & Hroom & Hv); [by unfold groups; cbn; rewrite lookup_insert_eq|].
    rewrite Hp. pose proof (Hok slave p Hp) as Hsize.
    rewrite push_batches_ok; [|by rewrite Hsize|rewrite batches_length; lia|by apply batches_ok].
    rewrite batches_length. fold (enqueue_peer group p).
    rewrite IH; [|done|..].
    + f_equal. apply map_eq. intros k. rewrite !map_lookup_imap. unfold group_at, groups. cbn.
      destruct (decide (k = slave)) as [->|Hk].
      * rewrite !lookup_insert_eq, Hp. cbn. fold (groups grouped). rewrite Hnone. cbn. by rewrite enqueue_nothing.
      * by rewrite !lookup_insert_ne by done.
    + intros k q Hq. apply lookup_insert_Some in Hq as [[<- <-]|[_ Hq]]; [|by apply (Hok k)].
      rewrite enqueue_queued. cbn. by rewrite Hsize.
    + intros k g Hk. assert (k <> slave) by (intros ->; congruence).
      destruct (Hg k g) as (q & Hq & Hrest); [unfold groups; cbn; by rewrite lookup_insert_ne by done|].
      exists q. by rewrite lookup_insert_ne by done.
Qed.

(** The adapter after an accepted call. *)
Definition enqueue (a : Adapter) (messages : Messages) : Adapter :=
  with_peers (map_imap (fun slave p => Some (enqueue_peer (addressed a slave messages) p)) (peers_ a)) a.

Definition room (a : Adapter) (messages : Messages) : Prop :=
  map_Forall (fun slave p => queued p + Z.of_nat (length (addressed a slave messages)) <= kQueueCapacity) (peers_ a).

Lemma addressed_all a ms (P : MotorMessage -> bool) :
  forallb (fun m => IsValidBus a (bus_idx m)) ms = true ->
  forallb (fun m => P (local_message a m)) ms = true <->
  forall slave, is_Some (peers_ a !! slave) -> forallb P (addressed a slave ms) = true.
Proof.
  intros Hv. rewrite forallb_forall in *. setoid_rewrite forallb_forall. split.
  - intros H slave _ m (m' & <- & Hin)%in_map_iff. apply list_elem_of_In, list_elem_of_filter in Hin as [_ Hin].
    by apply H, list_elem_of_In.
  - intros H m Hm. apply (H (fst (route a (bus_idx m)))).
    + specialize (Hv m Hm). unfold IsValidBus in Hv. destruct (_ <? 0); [done|].
      destruct (route a (bus_idx m)) as [s c]. cbn [fst]. by destruct (peers_ a !! s).
    + apply in_map_iff. exists m. split; [done|]. apply list_elem_of_In, list_elem_of_filter.
      split; [done|by apply list_elem_of_In].
Qed.

Lemma sorted_nodup (l : list Z) : StronglySorted Z.lt l -> NoDup l.
Proof.
  induction 1 as [|x l _ IH Hall]; constructor; [|done]. intros Hin.
  rewrite list.Forall_forall in Hall. apply Hall in Hin. lia.
Qed.

Lemma SendSynchronized_spec a ms :
  adapter_ok a -> ints ms ->
  SendSynchronized a ms =
  if negb (running_ a) then inl NotRunning
  else if negb (forallb (fun m => IsValidBus a (bus_idx m)) ms) then inl NoBus
  else if negb (forallb (fun m => Valid (local_message a m)) ms) then inl BadRecord
  else if decide (room a ms) then inr (enqueue a ms) else inl QueueFull.
Proof.
  intros Ha Hints. unfold SendSynchronized. destruct (running_ a); cbn [negb]; [|done].
  pose proof (group_messages_spec a ms [] Ha Hints ltac:(constructor) (map_Forall_empty _)) as Hg.
  destruct (forallb (fun m => IsValidBus a (bus_idx m)) ms) eqn:Ev; cbn [negb]; [|by rewrite Hg].
  destruct Hg as (grouped & -> & Hs & Hne & Hat).
  assert (forall slave, group_at grouped slave = addressed a slave ms) as Hat' by (intros; by rewrite Hat).
  assert (forall slave group, (slave, group) ∈ grouped <-> groups grouped !! slave = Some group) as Hin.
  { intros slave group. apply elem_of_list_to_map. by apply sorted_nodup. }
  assert (forall slave group, groups grouped !! slave = Some group ->
    group = addressed a slave ms /\ is_Some (peers_ a !! slave)) as Hgroup.
  { intros slave group Hl. rewrite <- Hat'. unfold group_at. rewrite Hl. split; [done|]. by apply (Hne slave group). }
  assert (forall (Q : Messages -> Prop), Q [] ->
    (forall slave group, (slave, group) ∈ grouped -> Q group) <->
    (forall slave, is_Some (peers_ a !! slave) -> Q (addressed a slave ms))) as Hall.
  { intros Q HQ. split.
    - intros H slave _. rewrite <- Hat'. unfold group_at. destruct (groups grouped !! slave) as [g|] eqn:E; [|done].
      by apply (H slave), Hin.
    - intros H slave group Hl%Hin%Hgroup. destruct Hl as [-> Hl]. by apply H. }
  replace (forallb (fun '(_, group) => _) grouped) with (forallb (fun m => Valid (local_message a m)) ms); [|].
  2: { apply eq_true_iff_eq. rewrite (addressed_all a ms Valid Ev), <- (Hall (fun g => forallb Valid g = true) eq_refl).
       rewrite forallb_forall. split.
       - intros H [slave group] Hl%list_elem_of_In. rewrite batches_encode. by apply (H slave).
       - intros H slave group Hl%list_elem_of_In. specialize (H _ Hl). cbn beta iota in H. by rewrite batches_encode in H. }
  destruct (forallb (fun m => Valid (local_message a m)) ms) eqn:Evalid; cbn [negb]; [|done].
  assert (forallb (fits (peers_ a)) grouped = true <-> room a ms) as Hfits.
  { unfold room, map_Forall. rewrite forallb_forall. split.
    - intros H slave p Hp. pose proof (map_Forall_lookup_1 _ _ _ _ Ha Hp) as [_ Hpeer].
      rewrite <- Hat'. unfold group_at. destruct (groups grouped !! slave) as [g|] eqn:Eg.
      + apply Hin, list_elem_of_In, H in Eg. unfold fits in Eg. cbn [fst snd] in Eg.
        rewrite Hp, available_ok in Eg by done. cbn. lia.
      + cbn. destruct Hpeer as [_ _ Hb _]. lia.
    - intros H [slave g] Hl%list_elem_of_In%Hin%Hgroup. destruct Hl as [-> [p Hp]]. unfold fits. cbn [fst snd].
      pose proof (map_Forall_lookup_1 _ _ _ _ Ha Hp) as [_ Hpeer]. rewrite Hp, available_ok by done.
      specialize (H slave p Hp). cbn beta in H. lia. }
  destruct (decide (room a ms)) as [Hroom|Hroom].
  - rewrite (proj2 Hfits Hroom). cbn [negb]. rewrite push_groups_ok; [|done|..].
    + unfold enqueue. do 2 f_equal. apply map_imap_ext. intros k. by rewrite Hat'.
    + intros slave p Hp. by destruct (map_Forall_lookup_1 _ _ _ _ Ha Hp) as [_ [_ ? _ _]].
    + intros slave g Hl. destruct (Hgroup slave g Hl) as [-> [p Hp]]. exists p. split; [done|]. split; [by apply Hroom|].
      apply addressed_all with (P := Valid) (slave := slave) in Evalid; [done|done|by exists p].
  - destruct (forallb (fits (peers_ a)) grouped); [by destruct Hroom; apply Hfits|done].
Qed.

(** ** Steps *)

Lemma addressed_multi a b slave ms : multi_ a = multi_ b -> addressed a slave ms = addressed b slave ms.
Proof. intros H. unfold addressed, local_message, route. by rewrite H. Qed.

(** The routes of an adapter do not depend on what its queues hold. *)
Lemma IsValidBus_peers a b index :
  multi_ a = multi_ b -> channel_count <$> peers_ a = channel_count <$> peers_ b ->
  IsValidBus a index = IsValidBus b index.
Proof.
  intros Hm Hp. unfold IsValidBus, route. rewrite Hm. destruct (index <? 0); [done|].
  destruct (if multi_ b then _ else _) as [slave channel].
  assert (forall c : gmap Z Peer, channel_count <$> (c !! slave) = (channel_count <$> c) !! slave) as Hl
    by (intros; by rewrite lookup_fmap).
  pose proof (Hl (peers_ a)) as H1. pose proof (Hl (peers_ b)) as H2. rewrite Hp, <- H2 in H1.
  by destruct (peers_ a !! slave), (peers_ b !! slave); inversion H1; subst.
Qed.

Lemma channels_insert (peers : gmap Z Peer) slave p p' :
  peers !! slave = Some p -> channel_count p' = channel_count p ->
  channel_count <$> <[slave := p']> peers = channel_count <$> peers.
Proof. intros Hp Hc. rewrite fmap_insert, Hc. apply insert_id. by rewrite lookup_fmap, Hp. Qed.

Section Steps.
Context (multi : bool) (gateways : gmap Z Z).

Record world_ok (w : World) : Prop := {
  world_config : multi_ (adapter w) = multi /\ channel_count <$> peers_ (adapter w) = gateways;
  world_adapter : adapter_ok (adapter w);
  world_lanes : forall slave p, peers_ (adapter w) !! slave = Some p -> on_wire w slave ++ waiting p = submitted w slave;
  world_errors : forall messages e, (messages, Some e) ∈ results w -> e <> InvariantViolated;
  world_delivered : forall messages m, messages ∈ delivered w -> m ∈ messages -> IsValidBus (adapter w) (bus_idx m) = true;
  world_wire : forall slave, Forall batch_ok (on_wire w slave)
}.

(** Replacing a peer by one that waits for the same batches. *)
Lemma world_update w slave p p' :
  world_ok w -> peers_ (adapter w) !! slave = Some p ->
  peer_ok p' -> channel_count p' = channel_count p -> waiting p' = waiting p ->
  world_ok (update_peer slave p' w).
Proof.
  intros [[Hm Hg] Ha Hl He Hd Hwire] Hp Hp' Hc Hw. pose proof (map_Forall_lookup_1 _ _ _ _ Ha Hp) as [Hs _].
  pose proof (channels_insert (peers_ (adapter w)) slave p p' Hp Hc) as Hins.
  split; [by split; [|cbn; rewrite Hins]|by apply map_Forall_insert_2| |done| |done].
  - intros s q Hq. cbn in Hq. apply lookup_insert_Some in Hq as [[<- <-]|[_ Hq]]; [rewrite Hw|]; by apply Hl.
  - intros ms m Hms Hm'. rewrite <- (Hd ms m Hms Hm'). by apply IsValidBus_peers.
Qed.

(** A batch leaves: it moves from the head of what waits to the end of the wire. *)
Lemma world_sent w slave p m batch :
  world_ok w -> peers_ (adapter w) !! slave = Some p -> outgoing p = m :: batch ->
  let w' := update_peer slave (mkPeer (channel_count p) (pending p) [] (heartbeat p)) w in
  world_ok (mkWorld (adapter w') (results w') (wire w' ++ [(slave, outgoing p)]) (beats w') (delivered w')).
Proof.
  intros [[Hm Hg] Ha Hl He Hd Hwire] Hp Ho. pose proof (map_Forall_lookup_1 _ _ _ _ Ha Hp) as [Hs [H1 H2 H3 H4]].
  assert (waiting p = outgoing p :: batches_ (pending p)) as Hw by (unfold waiting; by rewrite Ho).
  pose proof (channels_insert (peers_ (adapter w)) slave p (mkPeer (channel_count p) (pending p) [] (heartbeat p))
    Hp eq_refl) as Hins.
  split.
  - by split; [|cbn; rewrite Hins].
  - apply map_Forall_insert_2; [split; [done|]|done]. split; [done|done|done|].
    rewrite Hw in H4. by apply list.Forall_cons in H4 as [_ H4].
  - intros s q Hq. cbn in Hq. specialize (Hl s).
    change (submitted _ s) with (submitted w s). unfold on_wire. cbn [wire]. rewrite omap_app. cbn [omap list_omap].
    change (omap _ (wire _)) with (on_wire w s).
    apply lookup_insert_Some in Hq as [[<- <-]|[Hne Hq]].
    + rewrite Z.eqb_refl. rewrite <- (Hl p Hp), Hw, <- app_assoc. done.
    + rewrite (proj2 (Z.eqb_neq _ _) Hne), app_nil_r. by apply Hl.
  - done.
  - intros ms x Hms Hx. rewrite <- (Hd ms x Hms Hx). by apply IsValidBus_peers.
  - intros s. unfold on_wire. cbn [wire]. rewrite omap_app. apply Forall_app. split; [apply Hwire|].
    cbn. destruct (Z.eqb_spec slave s); [|constructor]. rewrite Hw in H4. apply list.Forall_cons in H4 as [H4 _].
    by apply list.Forall_cons.
Qed.

Lemma enqueue_peer_ok ms p :
  peer_ok p -> queued p + Z.of_nat (length ms) <= kQueueCapacity -> forallb Valid ms = true -> peer_ok (enqueue_peer ms p).
Proof.
  intros [H1 H2 H3 H4] Hroom Hv. split; [done|cbn; rewrite enqueue_queued; lia|by rewrite enqueue_queued|].
  unfold waiting in *. cbn. rewrite app_assoc. apply Forall_app. split; [done|by apply batches_ok].
Qed.

Lemma world_submit w ms : world_ok w -> ints ms -> world_ok (submit w ms).
Proof.
  intros [[Hm Hg] Ha Hl He Hd Hwire] Hints. unfold submit. rewrite SendSynchronized_spec by done.
  assert (forall e, e <> InvariantViolated ->
    world_ok (mkWorld (adapter w) (results w ++ [(ms, Some e)]) (wire w) (beats w) (delivered w))) as Hfail.
  { intros e Hne. split; [done|done| | |done|done].
    - intros s p Hp. unfold submitted, accepted. cbn. rewrite omap_app. cbn. rewrite app_nil_r. by apply Hl.
    - intros ms' e'. cbn. rewrite elem_of_app, list_elem_of_singleton. intros [Hin|[= _ ->]]; [by eapply He|done]. }
  destruct (running_ (adapter w)); cbn [negb]; [|by apply Hfail].
  destruct (forallb (fun m => IsValidBus (adapter w) (bus_idx m)) ms) eqn:Ev; cbn [negb]; [|by apply Hfail].
  destruct (forallb (fun m => Valid (local_message (adapter w) m)) ms) eqn:Evalid; cbn [negb]; [|by apply Hfail].
  destruct (decide (room (adapter w) ms)) as [Hroom|]; [|by apply Hfail].
  assert (forall s p, peers_ (adapter w) !! s = Some p -> forallb Valid (addressed (adapter w) s ms) = true) as Hva.
  { intros s p Hp. eapply addressed_all in Evalid; [exact Evalid|done|by exists p]. }
  assert (forall s, submitted (mkWorld (enqueue (adapter w) ms) (results w ++ [(ms, None)]) (wire w) (beats w) (delivered w)) s
    = submitted w s ++ batches_of (addressed (adapter w) s ms)) as Hsub.
  { intros s. unfold submitted, accepted. cbn [results]. rewrite omap_app, flat_map_app. cbn. by rewrite app_nil_r. }
  assert (channel_count <$> peers_ (enqueue (adapter w) ms) = channel_count <$> peers_ (adapter w)) as Hch.
  { apply map_eq. intros s. cbn. rewrite !lookup_fmap, map_lookup_imap. by destruct (_ !! s). }
  split.
  - by split; [|cbn [adapter]; rewrite Hch].
  - intros s q Hq. cbn in Hq. rewrite map_lookup_imap in Hq.
    destruct (peers_ (adapter w) !! s) as [p|] eqn:Ep; [|done]. injection Hq as <-.
    destruct (map_Forall_lookup_1 _ _ _ _ Ha Ep) as [Hs Hp]. split; [done|].
    apply enqueue_peer_ok; [done| |by eapply Hva]. by apply (Hroom s).
  - intros s q Hq. rewrite Hsub. cbn in Hq. rewrite map_lookup_imap in Hq.
    destruct (peers_ (adapter w) !! s) as [p|] eqn:Ep; [|done]. injection Hq as <-.
    rewrite <- (Hl s p Ep), <- app_assoc. unfold waiting. by rewrite <- app_assoc.
  - intros ms' e'. cbn. rewrite elem_of_app, list_elem_of_singleton. intros [Hin|[= ]]. by eapply He.
  - intros ms' x Hms Hx. rewrite <- (Hd ms' x Hms Hx). by apply IsValidBus_peers.
  - done.
Qed.

Lemma world_stop w : world_ok w -> world_ok (stop w).
Proof. intros [Hc Ha Hl He Hd Hwire]. by split. Qed.

Lemma world_calls calls : forall w, world_ok w -> Forall ints calls -> world_ok (fold_left submit calls w).
Proof.
  induction calls as [|ms calls IH]; intros w Hw Hi; cbn [fold_left]; [done|].
  apply list.Forall_cons in Hi as [Hm Hi]. apply IH; [by apply world_submit|done].
Qed.

Lemma refill_waiting p : peer_ok p -> waiting (refill p) = waiting p.
Proof.
  intros [_ _ _ H4]. unfold refill, waiting, Pop in *. destruct (outgoing p) eqn:Eo; [|by rewrite Eo].
  destruct (batches_ (pending p)) as [|batch batches] eqn:Eb; cbn; [by rewrite Eb|].
  apply list.Forall_cons in H4 as [[Hne _] _]. by destruct batch.
Qed.

Lemma refill_ok p : peer_ok p -> peer_ok (refill p).
Proof.
  intros Hp. pose proof (refill_waiting p Hp) as Hw. destruct Hp as [H1 H2 H3 H4]. rewrite <- Hw in H4. clear Hw.
  unfold refill, Pop in *. destruct (outgoing p) eqn:Eo; [|by split].
  unfold queued in *. destruct (batches_ (pending p)) as [|batch batches] eqn:Eb; (split; [done| | |done]);
    unfold queued; cbn; rewrite ?Eb in *; cbn in *; rewrite ?length_app in *; lia.
Qed.

Lemma refill_channels p : channel_count (refill p) = channel_count p.
Proof. unfold refill, Pop. by destruct (outgoing p), (batches_ (pending p)). Qed.

Lemma world_refill w slave : world_ok w -> world_ok (refill_peer w slave).
Proof.
  intros Hw. unfold refill_peer. destruct (_ !! slave) as [p|] eqn:Ep; [|done].
  destruct (map_Forall_lookup_1 _ _ _ _ (world_adapter _ Hw) Ep) as [_ Hp].
  apply (world_update w slave p); [done|done|by apply refill_ok|apply refill_channels|by apply refill_waiting].
Qed.

Lemma world_send w slave v : world_ok w -> world_ok (send_outgoing w slave v).1.
Proof.
  intros Hw. unfold send_outgoing. destruct (_ !! slave) as [p|] eqn:Ep; [|done].
  destruct (outgoing p) as [|m batch] eqn:Eo; [done|]. destruct (sent v) as [[|]|]; [|done|done].
  pose proof (world_sent w slave p m batch Hw Ep Eo) as Hsent. by rewrite Eo in Hsent.
Qed.

Lemma world_heartbeat w slave v : world_ok w -> world_ok (send_heartbeat w slave v).1.
Proof.
  intros Hw. unfold send_heartbeat. destruct (_ !! slave) as [p|] eqn:Ep; [|done].
  destruct (heartbeat p <=? now v); [|done]. destruct (beat v) as [[|]|]; [|done|done].
  destruct (map_Forall_lookup_1 _ _ _ _ (world_adapter _ Hw) Ep) as [_ [H1 H2 H3 H4]].
  apply (world_update w slave p (mkPeer (channel_count p) (pending p) (outgoing p) (now v + 1000))) in Hw;
    [|done|by split|done|done].
  destruct Hw as [Hc Ha Hl He Hd Hwire]. by split.
Qed.

Lemma world_visit w slave v : world_ok w -> Forall ints (calls v) -> world_ok (visit_peer w slave v).1.
Proof.
  intros Hw Hi. unfold visit_peer. apply (world_calls (calls v)) in Hw; [|done].
  apply (world_refill _ slave), (world_send _ slave v) in Hw. destruct (send_outgoing _ _ _) as [w' [|]]; [|done].
  by apply world_heartbeat.
Qed.

Lemma world_visits slaves : forall w visits,
  world_ok w -> Forall (fun v => Forall ints (calls v)) visits -> world_ok (visit_peers w slaves visits).1.
Proof.
  induction slaves as [|slave slaves IH]; intros w [|v visits] Hw Hi; cbn [visit_peers]; try done.
  apply list.Forall_cons in Hi as [Hv Hi]. apply (world_visit w slave v) in Hw; [|done].
  destruct (visit_peer w slave v) as [w' [|]]; [by apply IH|done].
Qed.

(** The messages of every call name a bus by an [int]. *)
Definition event_ok (e : Event) : Prop :=
  match e with
  | ESubmit messages => ints messages
  | ERound visits _ => Forall (fun v => Forall ints (calls v)) visits
  | EStop => True
  end.

Lemma world_step w e : world_ok w -> event_ok e -> world_ok (step w e).
Proof.
  intros Hw He. destruct e as [ms|visits receive|]; cbn [step]; [by apply world_submit| |by apply world_stop].
  unfold round. destruct (running_ (adapter w)); cbn [negb]; [|done].
  apply (world_visits (slaves (adapter w)) w visits) in Hw; [|done].
  destruct (visit_peers _ _ _) as [w' [|]]; cbn [negb]; [|by apply world_stop].
  destruct receive as [received|]; [|by apply world_stop].
  destruct (filter _ received) as [|m rest] eqn:Ef; [done|]. destruct Hw as [Hc Ha Hl Her Hd Hwire]. split; [done|done|done|done| |done].
  intros ms x. cbn. rewrite elem_of_app, list_elem_of_singleton. intros [Hms| ->] Hx; [by apply (Hd ms)|].
  rewrite <- Ef in Hx. by apply list_elem_of_filter in Hx as [Hx _].
Qed.

Lemma world_run events : forall w, world_ok w -> Forall event_ok events -> world_ok (run w events).
Proof.
  induction events as [|e events IH]; intros w Hw He; [done|].
  apply list.Forall_cons in He as [H1 H2]. apply IH; [by apply world_step|done].
Qed.

Lemma world_new : gateways_ok multi gateways -> world_ok (new_world (new_adapter multi gateways)).
Proof.
  intros Hg. split; cbn.
  - split; [done|]. rewrite <- map_fmap_compose. apply map_fmap_id.
  - intros s p Hp. cbn in Hp. rewrite lookup_fmap in Hp. destruct (gateways !! s) as [c|] eqn:Ec; [|done].
    injection Hp as <-. destruct (map_Forall_lookup_1 _ _ _ _ Hg Ec) as (Hc & Hs & Hm).
    split; [by split|]. split; [done|done| |constructor]. unfold queued, kQueueCapacity. cbn. lia.
  - intros s p Hp. rewrite lookup_fmap in Hp. by destruct (gateways !! s); [injection Hp as <-|].
  - intros ms e H. by apply elem_of_nil in H.
  - intros ms m H. by apply elem_of_nil in H.
  - constructor.
Qed.
End Steps.

(** C27: a call of SendSynchronized either queues every message of the call, on the
    gateway each names and in order, or changes nothing and says why: the worker has
    stopped, a message names a bus that does not exist, a record cannot be encoded, or
    some gateway has no room for all its messages.  The internal error of the code
    does not occur, and one full gateway holds back the whole call. *)
Theorem ethernet_submit_exact a messages :
  adapter_ok a -> ints messages ->
  SendSynchronized a messages =
  if negb (running_ a) then inl NotRunning
  else if negb (forallb (fun m => IsValidBus a (bus_idx m)) messages) then inl NoBus
  else if negb (forallb (fun m => Valid (local_message a m)) messages) then inl BadRecord
  else if decide (room a messages) then inr (enqueue a messages) else inl QueueFull.
Proof. apply SendSynchronized_spec. Qed.

(** C28: in every interleaving of calls with the rounds of the worker, whatever the
    transport refuses or throws: for each gateway, the batches handed to the transport
    followed by those that wait are exactly the batches of the accepted calls, in
    order, without loss or repetition; each has 1 to 80 records and encodes; at most
    4096 records wait behind the current batch; calls never meet the internal error;
    and only messages of existing buses are delivered. *)
Theorem ethernet_lanes multi gateways events :
  gateways_ok multi gateways -> Forall event_ok events ->
  let w := run (new_world (new_adapter multi gateways)) events in
  channel_count <$> peers_ (adapter w) = gateways /\
  (forall slave p, peers_ (adapter w) !! slave = Some p ->
     on_wire w slave ++ waiting p = submitted w slave /\ Forall batch_ok (submitted w slave) /\ queued p <= 4096) /\
  (forall messages e, (messages, Some e) ∈ results w -> e <> InvariantViolated) /\
  (forall messages m, messages ∈ delivered w -> m ∈ messages -> IsValidBus (adapter w) (bus_idx m) = true).
Proof.
  intros Hg He. pose proof (world_run multi gateways events _ (world_new multi gateways Hg) He) as Hw.
  cbv zeta. destruct Hw as [[_ Hc] Ha Hl Her Hd Hwire]. split_and!; [done| |done|done].
  intros slave p Hp. destruct (map_Forall_lookup_1 _ _ _ _ Ha Hp) as [_ [_ _ Hb Hok]].
  split_and!; [by apply Hl| |done]. rewrite <- (Hl slave p Hp). by apply Forall_app.
Qed.

(** ** The worker drains its queues *)

(** The transport takes what it is given and no call intervenes. *)
Definition willing (v : Visit) : Prop := calls v = [] /\ sent v = Some true /\ is_Some (beat v).

Definition drain_step (w w' : World) (slave : Z) : Prop :=
  match peers_ (adapter w) !! slave, peers_ (adapter w') !! slave with
  | Some p, Some p' => waiting p' = tail (waiting p)
  | None, None => True
  | _, _ => False
  end.

Lemma visit_willing multi gateways w slave v :
  world_ok multi gateways w -> willing v ->
  (visit_peer w slave v).2 = true /\ drain_step w (visit_peer w slave v).1 slave /\
  (forall s, s <> slave -> peers_ (adapter (visit_peer w slave v).1) !! s = peers_ (adapter w) !! s) /\
  running_ (adapter (visit_peer w slave v).1) = running_ (adapter w) /\
  results (visit_peer w slave v).1 = results w.
Proof.
  intros Hw (Hc & Hs & [b Hb]). unfold visit_peer, drain_step. rewrite Hc. cbn [fold_left]. unfold refill_peer.
  destruct (peers_ (adapter w) !! slave) as [p|] eqn:Ep.
  - destruct (map_Forall_lookup_1 _ _ _ _ (world_adapter _ _ _ Hw) Ep) as [_ Hp].
    rewrite <- (refill_waiting p Hp). unfold send_outgoing. cbn [adapter update_peer with_adapter with_peers peers_].
    rewrite lookup_insert_eq, Hs. unfold waiting.
    assert (outgoing (refill p) = [] -> batches_ (pending (refill p)) = []) as Hempty.
    { destruct Hp as [_ _ _ Hok]. unfold refill, Pop, waiting in *. destruct (outgoing p) eqn:Eo; cbn in *; [|congruence].
      destruct (batches_ (pending p)) as [|batch rest] eqn:Eb; cbn; [done|].
      apply list.Forall_cons in Hok as [[Hne _] _]. by intros ->. }
    destruct (outgoing (refill p)) as [|m batch] eqn:Eo; unfold send_heartbeat; cbn; rewrite ?lookup_insert_eq; cbn;
      destruct (_ <=? now v); rewrite ?Hb; try destruct b; cbn; rewrite ?lookup_insert_eq; cbn; rewrite ?Eo;
      (split_and!; [done| |intros s Hne; by rewrite !lookup_insert_ne by done|done|done]);
      rewrite ?Hempty by done; done.
  - unfold send_outgoing, send_heartbeat. rewrite Ep. cbn. rewrite Ep. cbn. by rewrite Ep.
Qed.

Lemma visits_willing multi gateways slaves : NoDup slaves -> forall w visits,
  world_ok multi gateways w -> length visits = length slaves -> Forall willing visits ->
  let w' := (visit_peers w slaves visits).1 in
  (visit_peers w slaves visits).2 = true /\ (forall s, s ∈ slaves -> drain_step w w' s) /\
  (forall s, s ∉ slaves -> peers_ (adapter w') !! s = peers_ (adapter w) !! s) /\
  running_ (adapter w') = running_ (adapter w) /\ results w' = results w /\ world_ok multi gateways w'.
Proof.
  intros Hnd. induction Hnd as [|slave slaves Hin Hnd IH]; intros w [|v visits] Hw Hlen Hv; try done; cbn [visit_peers].
  - split_and!; try done. intros s Hs. by apply elem_of_nil in Hs.
  - apply list.Forall_cons in Hv as [Hv Hvs].
    destruct (visit_willing multi gateways w slave v Hw Hv) as (Hgo & Hstep & Hother & Hrun & Hres).
    assert (world_ok multi gateways (visit_peer w slave v).1) as Hw1.
    { apply world_visit; [done|]. destruct Hv as [-> _]. constructor. }
    destruct (visit_peer w slave v) as [w1 going]. cbn [fst snd] in *. subst going.
    destruct (IH w1 visits Hw1) as (Hgo' & Hstep' & Hother' & Hrun' & Hres' & Hw'); [by injection Hlen|done|].
    split_and!; [done| | |by rewrite Hrun'|by rewrite Hres'|done].
    + intros s [->|Hs]%elem_of_cons; unfold drain_step in *; [by rewrite Hother'|].
      assert (s <> slave) by (by intros ->). rewrite <- (Hother s) by done. by apply Hstep'.
    + intros s [Hne Hs]%not_elem_of_cons. by rewrite Hother', Hother.
Qed.

Lemma slaves_spec a : NoDup (slaves a) /\ (forall s, s ∈ slaves a <-> is_Some (peers_ a !! s)) /\
  length (slaves a) = size (dom (peers_ a)).
Proof.
  unfold slaves. pose proof (merge_sort_Permutation Z.le (elements (dom (peers_ a)))) as HP. split_and!.
  - rewrite HP. apply NoDup_elements.
  - intros s. rewrite HP, elem_of_elements. apply elem_of_dom.
  - by rewrite HP.
Qed.

Lemma round_willing multi gateways w visits received :
  world_ok multi gateways w -> running_ (adapter w) = true ->
  length visits = size gateways -> Forall willing visits ->
  let w' := round w visits (Some received) in
  (forall s, drain_step w w' s) /\ running_ (adapter w') = true /\ results w' = results w /\ world_ok multi gateways w'.
Proof.
  intros Hw Hrun Hlen Hv. cbv zeta. destruct (slaves_spec (adapter w)) as (Hnd & Hin & Hsize).
  assert (world_ok multi gateways (round w visits (Some received))) as Hw'.
  { apply (world_step _ _ w (ERound visits (Some received)) Hw). cbn. eapply Forall_impl; [exact Hv|].
    intros v [-> _]. constructor. }
  destruct (visits_willing multi gateways _ Hnd w visits Hw) as (Hgo & Hstep & Hother & Hrun' & Hres & _); [|done|].
  { rewrite Hsize, Hlen. destruct (world_config _ _ _ Hw) as [_ <-]. by rewrite <- size_dom, dom_fmap_L. }
  assert (forall s, drain_step w (visit_peers w (slaves (adapter w)) visits).1 s) as Hall.
  { intros s. destruct (decide (s ∈ slaves (adapter w))) as [Hs|Hs]; [by apply Hstep|].
    unfold drain_step. rewrite Hother by done. destruct (peers_ (adapter w) !! s) eqn:E; [|done].
    destruct Hs. apply Hin. by eexists. }
  unfold round in *. rewrite Hrun in *. cbn [negb] in *.
  destruct (visit_peers w _ visits) as [w1 going]. cbn [fst snd] in *. subst going. cbn [negb] in *.
  destruct (filter _ received); by split_and!.
Qed.

Lemma rounds_willing multi gateways rounds : forall w,
  world_ok multi gateways w -> running_ (adapter w) = true ->
  Forall (fun '(visits, _) => length visits = size gateways /\ Forall willing visits) rounds ->
  let w' := run w (map (fun '(visits, received) => ERound visits (Some received)) rounds) in
  world_ok multi gateways w' /\ results w' = results w /\
  forall slave p, peers_ (adapter w) !! slave = Some p ->
    exists p', peers_ (adapter w') !! slave = Some p' /\ waiting p' = drop (length rounds) (waiting p).
Proof.
  induction rounds as [|[visits received] rounds IH]; intros w Hw Hrun Hr; cbv zeta.
  - split_and!; [done|done|]. intros slave p Hp. by exists p.
  - apply list.Forall_cons in Hr as [[Hlen Hv] Hr].
    destruct (round_willing multi gateways w visits received Hw Hrun Hlen Hv) as (Hstep & Hrun1 & Hres1 & Hw1).
    destruct (IH _ Hw1 Hrun1 Hr) as (Hw' & Hres & Hdrain). unfold run in *. cbn [map fold_left step].
    split_and!; [done|by rewrite Hres|]. intros slave p Hp. specialize (Hstep slave). unfold drain_step in Hstep.
    rewrite Hp in Hstep. destruct (peers_ (adapter (round w visits (Some received))) !! slave) as [p1|] eqn:E1; [|done].
    destruct (Hdrain slave p1 E1) as (p' & Hp' & Hw2). exists p'. split; [done|].
    rewrite Hw2, Hstep. cbn [length]. destruct (waiting p); cbn; [by rewrite !drop_nil|done].
Qed.

(** C29: nothing accepted is stuck: from any reachable state in which the worker runs, as
    many rounds as a gateway has batches waiting, in each of which the transport
    accepts and no call intervenes, put every accepted batch of that gateway on the
    wire, whatever the other gateways hold. *)
Theorem ethernet_drains multi gateways events rounds :
  gateways_ok multi gateways -> Forall event_ok events ->
  let w := run (new_world (new_adapter multi gateways)) events in
  running_ (adapter w) = true ->
  Forall (fun '(visits, _) => length visits = size gateways /\ Forall willing visits) rounds ->
  let w' := run w (map (fun '(visits, received) => ERound visits (Some received)) rounds) in
  forall slave p, peers_ (adapter w) !! slave = Some p -> (length (waiting p) <= length rounds)%nat ->
    on_wire w' slave = submitted w slave.
Proof.
  intros Hg He w Hrun Hr w' slave p Hp Hlen.
  pose proof (world_run multi gateways events _ (world_new multi gateways Hg) He) as Hw. fold w in Hw.
  destruct (rounds_willing multi gateways rounds w Hw Hrun Hr) as (Hw' & Hres & Hdrain). fold w' in Hw', Hres, Hdrain.
  destruct (Hdrain slave p Hp) as (p' & Hp' & Hwait). rewrite drop_ge in Hwait by done.
  pose proof (world_lanes _ _ _ Hw' slave p' Hp') as Hl. rewrite Hwait, app_nil_r in Hl. rewrite Hl.
  unfold submitted, accepted. rewrite Hres. apply flat_map_ext. intros ms. f_equal. apply addressed_multi.
  destruct (world_config _ _ _ Hw) as [-> _], (world_config _ _ _ Hw') as [-> _]. done.
Qed.

(** ** Examples *)

(** Gateway 0 with one channel and gateway 3 with eight. *)
Definition two_gateways : gmap Z Z := <[0 := 1]> (<[3 := 8]> ∅).
Definition message_to (slave channel i : Z) : MotorMessage := mkMsg (slave * 65536 + channel) (make_pack i 8 [i]).

Lemma two_gateways_ok : gateways_ok true two_gateways.
Proof.
  unfold gateways_ok, two_gateways.
  apply map_Forall_insert_2; [lia|]. apply map_Forall_insert_2; [lia|]. apply map_Forall_empty.
Qed.

Definition busy_link : Visit := mkVisit [[message_to 3 1 4]] (Some false) 0 (Some true).
Definition free_link : Visit := mkVisit [] (Some true) 100 (Some true).

(** A call for both gateways, one round with a busy transport during which another call
    arrives, and a call for a channel that does not exist. *)
Definition example_events : list Event :=
  [ESubmit [message_to 3 7 1; message_to 0 0 2; message_to 3 0 3];
   ERound [busy_link; busy_link] (Some []);
   ESubmit [message_to 3 2 5; message_to 0 1 6]].

Lemma example_events_ok : Forall event_ok example_events.
Proof. repeat (first [apply List.Forall_nil | apply List.Forall_cons]); cbn; try lia; exact I. Qed.

Lemma ethernet_submit_exact_witness :
  let a := new_adapter true two_gateways in
  exists a', SendSynchronized a [message_to 3 7 1; message_to 0 0 2] = inr a' /\
    a' = enqueue a [message_to 3 7 1; message_to 0 0 2].
Proof.
  cbv zeta. exists (enqueue (new_adapter true two_gateways) [message_to 3 7 1; message_to 0 0 2]). split; [|reflexivity].
  rewrite (ethernet_submit_exact (new_adapter true two_gateways)).
  - rewrite decide_True; [reflexivity|]. unfold room. apply (bool_decide_unpack _). vm_compute. exact I.
  - exact (world_adapter _ _ _ (world_new true two_gateways two_gateways_ok)).
  - repeat (first [apply List.Forall_nil | apply List.Forall_cons]); cbn; lia.
Defined.

Lemma ethernet_lanes_witness :
  let w := run (new_world (new_adapter true two_gateways)) example_events in
  results w = [([message_to 3 7 1; message_to 0 0 2; message_to 3 0 3], None); ([message_to 3 1 4], None);
               ([message_to 3 1 4], None); ([message_to 3 2 5; message_to 0 1 6], Some NoBus)] /\
  forall p, peers_ (adapter w) !! 3 = Some p -> on_wire w 3 ++ waiting p = submitted w 3.
Proof.
  cbv zeta. split; [vm_compute; reflexivity|]. intros p Hp.
  destruct (ethernet_lanes true two_gateways example_events two_gateways_ok example_events_ok) as (_ & H & _).
  exact (proj1 (H 3 p Hp)).
Defined.

Lemma ethernet_drains_witness :
  on_wire (run (run (new_world (new_adapter true two_gateways)) example_events)
    (map (fun '(visits, received) => ERound visits (Some received)) (replicate 3 ([free_link; free_link], [])))) 3 =
  [[mkMsg 7 (make_pack 1 8 [1]); mkMsg 0 (make_pack 3 8 [3])]; [mkMsg 1 (make_pack 4 8 [4])]; [mkMsg 1 (make_pack 4 8 [4])]].
Proof.
  assert (exists p, peers_ (adapter (run (new_world (new_adapter true two_gateways)) example_events)) !! 3 = Some p /\
    length (waiting p) = 3%nat) as (p & Hp & Hl) by (eexists; split; vm_compute; reflexivity).
  rewrite (ethernet_drains true two_gateways example_events (replicate 3 ([free_link; free_link], []))
    two_gateways_ok example_events_ok eq_refl) with (slave := 3) (p := p).
  - vm_compute. reflexivity.
  - repeat (first [apply List.Forall_nil | apply List.Forall_cons]); (split; [reflexivity|]);
      repeat (first [apply List.Forall_nil | apply List.Forall_cons]); split_and!; try reflexivity; by exists true.
  - exact Hp.
  - rewrite Hl. cbn. lia.
Defined.
