(* ===== verification/EthernetManagement.v ===== *)
(** * EthernetManagement: the management side of a gateway

    plugins/adapter/ethernet/ethernet_management.cc with management_heartbeat.h, and
    EthernetAdapter::UpdateBusExtend.  A gateway is discovered, subscribed to and
    configured over UDP; a thread keeps the subscription, watches the heartbeat and
    carries out reconfigurations.  Every loop of the code waits on the socket and reads
    the clock (milliseconds): a round of a loop is what these answer. *)
From stdpp Require Import base strings numbers option gmap list.
From Stdlib Require Import ZArith Lia.
From S2P Require Import Prelude CFloat Types RelayFrame EthernetProtocol AdapterExtend BusTiming.
#[local] Open Scope Z_scope.
#[local] Open Scope cint_scope.

Abbreviation Bytes := (list Z).

Definition GW_DISCOVER : Z := 1.
Definition GW_INFO : Z := 2.
Definition GW_SUBSCRIBE : Z := 3.
Definition GW_SUBSCRIBED : Z := 4.
Definition GW_CAN_EVENT : Z := 5.
Definition GW_UNSUBSCRIBE : Z := 6.
Definition GW_CAN_SET : Z := 8.
Definition GW_CAN_STATE : Z := 9.
Definition GW_MGMT_PORT : Z := 5001.

(** ** One exchange *)

(** A round of a request loop: the clock where the loop tests its deadline, where it
    tests whether to send, and after a send; then what [Wait] and [Receive] give. *)
Record Round := mkRound { t_check : Z; t_due : Z; t_sent : Z; inbound : option Bytes }.

Inductive Outcome (A : Type) :=
| Done (result : A)
| Refused          (* the reply is negative: an exception *)
| TimedOut         (* the deadline passed: an exception *)
| Unfinished.      (* the script of rounds ends first *)
Arguments Done {A}. Arguments Refused {A}. Arguments TimedOut {A}. Arguments Unfinished {A}.

(** What a datagram is to the loop. *)
Inductive Verdict (A : Type) := Ignore | Event (event : CanError) | Reply (result : A) | Negative.
Arguments Ignore {A}. Arguments Event {A}. Arguments Reply {A}. Arguments Negative {A}.

Section Exchange.
Context {A : Type} (out : Bytes) (classify : Bytes -> Verdict A) (deadline : Z).

(** The [while] loop of an exchange: the outcome, the datagrams sent with their time,
    and the events reported meanwhile. *)
Fixpoint exchange (rounds : list Round) (next : Z) : Outcome A * list (Z * Bytes) * list CanError :=
  match rounds with
  | [] => (Unfinished, [], [])
  | r :: rounds =>
      if deadline <=? t_check r then (TimedOut, [], [])
      else
        let due := next <=? t_due r in
        let sends := if due then [(t_due r, out)] else [] in
        let next := if due then t_sent r + 200 else next in
        match inbound r with
        | None => let '(outcome, sent, events) := exchange rounds next in (outcome, sends ++ sent, events)
        | Some packet =>
            match classify packet with
            | Ignore => let '(outcome, sent, events) := exchange rounds next in (outcome, sends ++ sent, events)
            | Event e => let '(outcome, sent, events) := exchange rounds next in (outcome, sends ++ sent, e :: events)
            | Reply result => (Done result, sends, [])
            | Negative => (Refused, sends, [])
            end
        end
  end.
End Exchange.

(** ** Configuring a channel *)

(** The words written over the packet from byte 28 on. *)
Definition with_words (packet : Bytes) (words : list Z) : Bytes :=
  take 28 packet ++ flat_map gw_put32 words ++ drop (28 + 4 * length words) packet.

Definition can_set_packet (request channel nominal_bps data_bps nominal_sp data_sp : Z) (identity : Bytes) : Bytes :=
  with_words (gw_packet GW_CAN_SET request (Some identity)) [channel; nominal_bps; data_bps; nominal_sp; data_sp].

Definition classify_state (request channel : Z) (out identity : Bytes) (reply : Bytes) : Verdict unit :=
  if negb (gw_packet_valid reply) then Ignore
  else if byte_at reply 5 =? GW_CAN_EVENT then
    match DecodeCanError reply identity with Some event => Event event | None => Ignore end
  else if negb (byte_at reply 5 =? GW_CAN_STATE) || negb (gw_get32 reply 8 =? request) then Ignore
  else if negb (bool_decide (slice reply 12 16 = identity)) || negb (gw_get32 reply 28 =? channel) then Ignore
  else if negb (gw_get32 reply 48 =? 0) || negb (gw_get32 reply 52 =? 1) ||
          negb (bool_decide (slice reply 32 16 = slice out 32 16)) then Negative
  else Reply tt.

(** [start] is the clock when the deadline is set, [first] when [next] is. *)
Record Script := mkScript { request : Z; start : Z; first : Z; rounds : list Round }.

(** [None]: [ToPerMille] is undefined. *)
Definition ConfigureCanChannel (channel : Z) (timing : Timing) (identity : Bytes) (s : Script)
    : option (Outcome unit * list (Z * Bytes) * list CanError) :=
  match EthernetTiming.ToPerMille (sample_point timing), EthernetTiming.ToPerMille (dsample_point timing) with
  | Some nominal_sp, Some data_sp =>
      let out := can_set_packet (request s) channel (bitrate timing) (dbitrate timing) nominal_sp data_sp identity in
      Some (exchange out (classify_state (request s) channel out identity) (start s + 2000) (rounds s) (first s))
  | _, _ => None
  end.

(** ** Subscribing *)

Definition classify_subscribed (request : Z) (reply : Bytes) : Verdict (Bytes * Z) :=
  if negb (gw_packet_valid reply) then Ignore
  else if negb (byte_at reply 5 =? GW_SUBSCRIBED) || negb (gw_get32 reply 8 =? request) then Ignore
  else if negb (gw_get32 reply 52 =? 0) || (byte_at reply 46 .& 4 =? 0) || (byte_at reply 47 =? 0) ||
          (EthernetTiming.kGatewayChannelCount <? byte_at reply 47) then Negative
  else
    let identity := slice reply 12 16 in
    if forallb (fun value => value =? 0) identity then Negative else Reply (identity, byte_at reply 47).

Definition Subscribe (s : Script) : Outcome (Bytes * Z) * list (Z * Bytes) :=
  let '(outcome, sent, _) :=
    exchange (gw_packet GW_SUBSCRIBE (request s) None) (classify_subscribed (request s)) (start s + 2000)
      (rounds s) (first s) in (outcome, sent).

(** ** Initialization *)

Record GatewayInitialization := mkInit { identity : Bytes; channel_count : Z; timings : list Timing }.

(** The loop over the channels. *)
Fixpoint configure_channels (channel : Z) (timings : list Timing) (identity : Bytes) (scripts : list Script)
    : option (Outcome unit * list Bytes * list CanError) :=
  match timings, scripts with
  | [], _ => Some (Done tt, [], [])
  | _, [] => Some (Unfinished, [], [])
  | timing :: timings, s :: scripts =>
      match ConfigureCanChannel channel timing identity s with
      | None => None
      | Some (Done _, sent, events) =>
          match configure_channels (channel + 1) timings identity scripts with
          | None => None
          | Some (outcome, sent', events') => Some (outcome, map snd sent ++ sent', events ++ events')
          end
      | Some (outcome, sent, events) => Some (outcome, map snd sent, events)
      end
  end.

(** [make_timings] may throw ([inr]).  [last] is the request number of the farewell. *)
Definition InitializeCanChannels (make_timings : Z -> Result (list Timing)) (subscribe : Script)
    (scripts : list Script) (last : Z) : option (Outcome GatewayInitialization * list Bytes * list CanError) :=
  let unsubscribe id := gw_packet GW_UNSUBSCRIBE last (Some id) in
  let (subscribed, sent) := Subscribe subscribe in
  let sent := map snd sent in
  match subscribed with
  | Unfinished => Some (Unfinished, sent, [])
  | Refused => Some (Refused, sent ++ [unsubscribe (replicate 16 0)], [])
  | TimedOut => Some (TimedOut, sent ++ [unsubscribe (replicate 16 0)], [])
  | Done (id, count) =>
      match make_timings count with
      | inr _ => Some (Refused, sent ++ [unsubscribe id], [])
      | inl timings =>
          match configure_channels 0 (take (Z.to_nat count) timings) id scripts with
          | None => None
          | Some (Done _, sent', events) => Some (Done (mkInit id count timings), sent ++ sent', events)
          | Some (Unfinished, sent', events) => Some (Unfinished, sent ++ sent', events)
          | Some (Refused, sent', events) => Some (Refused, sent ++ sent' ++ [unsubscribe id], events)
          | Some (TimedOut, sent', events) => Some (TimedOut, sent ++ sent' ++ [unsubscribe id], events)
          end
      end
  end.

(** ** What an exchange guarantees *)

Section ExchangeSpec.
Context {A : Type} (out : Bytes) (classify : Bytes -> Verdict A) (deadline : Z).

Definition undecided (r : Round) : Prop :=
  match inbound r with
  | Some packet => match classify packet with Ignore | Event _ => True | _ => False end
  | None => True
  end.

Definition in_time (r : Round) : Prop := t_check r < deadline.

(** The rounds before the one that ends an exchange. *)
Definition open_rounds (rounds : list Round) : Prop := Forall (fun r => in_time r /\ undecided r) rounds.

Definition answered_by (verdict : Verdict A) (rounds : list Round) : Prop :=
  exists before r after packet, rounds = before ++ r :: after /\ open_rounds before /\ in_time r /\
    inbound r = Some packet /\ classify packet = verdict.

Lemma answered_later verdict r rounds :
  in_time r -> undecided r -> answered_by verdict rounds -> answered_by verdict (r :: rounds).
Proof.
  intros Ht Hu (before & r' & after & packet & -> & Hb & Hr). exists (r :: before), r', after, packet.
  split; [done|]. split; [by apply list.Forall_cons|done].
Qed.

Lemma exchange_outcome rounds : forall next,
  match (exchange out classify deadline rounds next).1.1 with
  | Done result => answered_by (Reply result) rounds
  | Refused => answered_by Negative rounds
  | TimedOut => exists before r after, rounds = before ++ r :: after /\ open_rounds before /\ deadline <= t_check r
  | Unfinished => open_rounds rounds
  end.
Proof.
  induction rounds as [|r rounds IH]; intros next; cbn [exchange]; [constructor|].
  destruct (Z.leb_spec deadline (t_check r)) as [Hd|Hd]; [by exists [], r, rounds; split_and!; [|constructor|]|].
  set (next' := if next <=? t_due r then _ else _). specialize (IH next').
  assert (undecided r -> match (exchange out classify deadline rounds next').1.1 with
    | Done result => answered_by (Reply result) (r :: rounds)
    | Refused => answered_by Negative (r :: rounds)
    | TimedOut => exists before r0 after, r :: rounds = before ++ r0 :: after /\ open_rounds before /\ deadline <= t_check r0
    | Unfinished => open_rounds (r :: rounds) end) as Hnext.
  { intros Hu. destruct (exchange _ _ _ rounds next') as [[[]] ?]; cbn [fst] in *; [by apply answered_later..| |by apply list.Forall_cons].
    destruct IH as (before & r' & after & -> & Hb & Hr). exists (r :: before), r', after.
    split_and!; [done|by apply list.Forall_cons|done]. }
  unfold undecided in Hnext. destruct (inbound r) as [packet|] eqn:Ei.
  - destruct (classify packet) eqn:Ec.
    1, 2: destruct (exchange _ _ _ rounds next') as [[o sent] events]; by apply Hnext.
    all: exists [], r, rounds, packet; by split_and!; [|constructor|..].
  - destruct (exchange _ _ _ rounds next') as [[o sent] events]. by apply Hnext.
Qed.

(** The reply that decides an exchange decides it whatever is sent meanwhile. *)
Lemma exchange_answered result rounds next :
  answered_by (Reply result) rounds -> (exchange out classify deadline rounds next).1.1 = Done result.
Proof.
  intros (before & r & after & packet & -> & Hb & Ht & Hi & Hc). revert next.
  induction Hb as [|b before [Htb Hu] _ IH]; intros next; cbn [app exchange]; unfold in_time in *.
  - rewrite (proj2 (Z.leb_gt _ _)) by lia. by rewrite Hi, Hc.
  - rewrite (proj2 (Z.leb_gt _ _)) by lia. unfold undecided in Hu.
    set (next' := if next <=? t_due b then _ else _). specialize (IH next').
    destruct (exchange _ _ _ _ next') as [[o sent] events]. cbn [fst] in IH. subst o.
    destruct (inbound b) as [packet'|]; [by destruct (classify packet')|done].
Qed.

(** A clock that does not run backwards. *)
Fixpoint clock_ok (now : Z) (rounds : list Round) : Prop :=
  match rounds with
  | [] => True
  | r :: rounds => now <= t_check r /\ t_check r <= t_due r /\ t_due r <= t_sent r /\ clock_ok (t_sent r) rounds
  end.

Lemma exchange_late rounds next now :
  deadline <= now -> clock_ok now rounds -> (exchange out classify deadline rounds next).1.2 = [].
Proof.
  intros Hd. destruct rounds as [|r rounds]; cbn; [done|]. intros [Hr _]. by rewrite (proj2 (Z.leb_le _ _)) by lia.
Qed.

(** The request is repeated at most every 200 ms. *)
Lemma exchange_sends rounds : forall next now (k : nat),
  clock_ok now rounds -> deadline - next <= 200 * Z.of_nat k ->
  Forall (fun '(_, packet) => packet = out) (exchange out classify deadline rounds next).1.2 /\
  (length (exchange out classify deadline rounds next).1.2 <= S k)%nat.
Proof.
  induction rounds as [|r rounds IH]; intros next now k Hc Hk; cbn [exchange]; [split; [constructor|cbn; lia]|].
  destruct (Z.leb_spec deadline (t_check r)) as [Hd|Hd]; [split; [constructor|cbn; lia]|].
  destruct Hc as (H1 & H2 & H3 & Hc).
  assert (forall sends next', Forall (fun '(_, packet) => packet = out) sends ->
    (length sends + length (exchange out classify deadline rounds next').1.2 <= S k)%nat ->
    Forall (fun '(_, packet) => packet = out) (exchange out classify deadline rounds next').1.2 ->
    let result := match inbound r with
      | None => let '(outcome, sent, events) := exchange out classify deadline rounds next' in (outcome, sends ++ sent, events)
      | Some packet =>
          match classify packet with
          | Ignore => let '(outcome, sent, events) := exchange out classify deadline rounds next' in (outcome, sends ++ sent, events)
          | Event e => let '(outcome, sent, events) := exchange out classify deadline rounds next' in (outcome, sends ++ sent, e :: events)
          | Reply result => (Done result, sends, [])
          | Negative => (Refused, sends, [])
          end
      end in Forall (fun '(_, packet) => packet = out) result.1.2 /\ (length result.1.2 <= S k)%nat) as Hrest.
  { intros sends next' Hs Hl Hf. cbv zeta. destruct (inbound r) as [packet|]; [destruct (classify packet)|];
      try destruct (exchange _ _ _ rounds next') as [[o sent] events]; cbn [fst snd] in *;
      rewrite ?length_app; (split; [try apply Forall_app; try split; assumption|lia]). }
  cbv zeta. destruct (Z.leb_spec next (t_due r)) as [Hn|Hn]; apply Hrest.
  - by apply list.Forall_cons.
  - destruct (Z.le_gt_cases deadline (t_sent r)) as [Hl|Hl]; [rewrite (exchange_late _ _ (t_sent r)) by done; cbn; lia|].
    destruct k as [|k]; [lia|]. destruct (IH (t_sent r + 200) (t_sent r) k Hc) as [_ IH2]; [lia|]. cbn. lia.
  - destruct (Z.le_gt_cases deadline (t_sent r)) as [Hl|Hl]; [rewrite (exchange_late _ _ (t_sent r)) by done; constructor|].
    destruct k as [|k]; [lia|]. apply (IH (t_sent r + 200) (t_sent r) k Hc). lia.
  - constructor.
  - cbn. by apply (IH next (t_sent r) k Hc).
  - by apply (IH next (t_sent r) k Hc).
Qed.
End ExchangeSpec.

(** ** Packets *)

Lemma get_put32 v rest : 0 <= v < 4294967296 -> gw_get32 (gw_put32 v ++ rest) 0 = v.
Proof.
  apply le32_split.
Qed.

Lemma get32_slice d o n i : (i + 4 <= n)%nat -> gw_get32 (slice d o n) i = gw_get32 d (o + i).
Proof.
  intros Hi. unfold gw_get32, slice, byte_at.
  assert (forall k, (k < n)%nat -> nth k (take n (drop o d)) 0 = nth (o + k) d 0) as Hn.
  { intros k Hk. rewrite !nth_lookup, lookup_take_lt, lookup_drop by lia. done. }
  rewrite !Hn by lia. by rewrite !Nat.add_assoc.
Qed.

Lemma get32_skip l1 l2 i : gw_get32 (l1 ++ l2) (length l1 + i) = gw_get32 l2 i.
Proof. unfold gw_get32. rewrite <- !Nat.add_assoc, !byte_at_skip. done. Qed.

(** The reply by which a gateway confirms a timing. *)
Record confirms (reply : Bytes) (request channel : Z) (id : Bytes) (timing : Timing) : Prop := {
  confirms_valid : gw_packet_valid reply = true /\ byte_at reply 5 = GW_CAN_STATE;
  confirms_request : gw_get32 reply 8 = request;
  confirms_identity : slice reply 12 16 = id;
  confirms_channel : gw_get32 reply 28 = channel;
  confirms_rates : gw_get32 reply 32 = bitrate timing /\ gw_get32 reply 36 = dbitrate timing;
  confirms_points : EthernetTiming.ToPerMille (sample_point timing) = Some (gw_get32 reply 40) /\
                    EthernetTiming.ToPerMille (dsample_point timing) = Some (gw_get32 reply 44);
  confirms_status : gw_get32 reply 48 = 0 /\ gw_get32 reply 52 = 1
}.

Definition rates_ok (timing : Timing) : Prop :=
  0 <= bitrate timing <= UINT32_MAX /\ 0 <= dbitrate timing <= UINT32_MAX.

Lemma can_set_words request channel nominal data nominal_sp data_sp id :
  length id = 16%nat ->
  slice (can_set_packet request channel nominal data nominal_sp data_sp id) 32 16 =
  gw_put32 nominal ++ gw_put32 data ++ gw_put32 nominal_sp ++ gw_put32 data_sp.
Proof.
  intros Hid. unfold can_set_packet, with_words, gw_packet.
  rewrite (take_ge id 16) by lia.
  do 16 (destruct id as [|? id]; [cbn in Hid; lia|]). destruct id; [|cbn in Hid; lia]. reflexivity.
Qed.

Lemma classify_state_reply request channel timing nominal_sp data_sp id reply :
  length id = 16%nat -> rates_ok timing ->
  EthernetTiming.ToPerMille (sample_point timing) = Some nominal_sp ->
  EthernetTiming.ToPerMille (dsample_point timing) = Some data_sp ->
  classify_state request channel
    (can_set_packet request channel (bitrate timing) (dbitrate timing) nominal_sp data_sp id) id reply = Reply tt ->
  confirms reply request channel id timing.
Proof.
  intros Hid [Hn Hd] Hs1 Hs2. unfold classify_state. rewrite can_set_words by done. unfold UINT32_MAX in *.
  destruct (gw_packet_valid reply) eqn:Ev; [|done]. cbn [negb].
  destruct (Z.eqb_spec (byte_at reply 5) GW_CAN_EVENT); [by destruct (DecodeCanError reply id)|].
  destruct (Z.eqb_spec (byte_at reply 5) GW_CAN_STATE); [|done].
  destruct (Z.eqb_spec (gw_get32 reply 8) request); [|done]. cbn [negb orb].
  destruct (bool_decide_reflect (slice reply 12 16 = id)); [|done].
  destruct (Z.eqb_spec (gw_get32 reply 28) channel); [|done]. cbn [negb orb].
  destruct (Z.eqb_spec (gw_get32 reply 48) 0); [|done]. destruct (Z.eqb_spec (gw_get32 reply 52) 1); [|done]. cbn [negb orb].
  destruct (bool_decide_reflect (slice reply 32 16 =
    gw_put32 (bitrate timing) ++ gw_put32 (dbitrate timing) ++ gw_put32 nominal_sp ++ gw_put32 data_sp)) as [E|]; [|done].
  intros _. pose proof (SF_cast_range _ _ _ _ Hs1) as Hr1. pose proof (SF_cast_range _ _ _ _ Hs2) as Hr2.
  assert (forall i, (i <= 12)%nat -> gw_get32 reply (32 + i) =
    gw_get32 (gw_put32 (bitrate timing) ++ gw_put32 (dbitrate timing) ++ gw_put32 nominal_sp ++ gw_put32 data_sp) i) as Hw
    by (intros i Hi; by rewrite <- (get32_slice reply 32 16) by lia; rewrite E).
  assert (gw_get32 reply 32 = bitrate timing) as W0.
  { etransitivity; [exact (Hw 0%nat ltac:(lia))|]. apply get_put32. lia. }
  assert (gw_get32 reply 36 = dbitrate timing) as W1.
  { etransitivity; [exact (Hw (length (gw_put32 (bitrate timing)) + 0)%nat ltac:(cbn; lia))|].
    rewrite get32_skip. apply get_put32. lia. }
  assert (gw_get32 reply 40 = nominal_sp) as W2.
  { etransitivity; [exact (Hw (length (gw_put32 (bitrate timing) ++ gw_put32 (dbitrate timing)) + 0)%nat ltac:(cbn; lia))|].
    rewrite app_assoc, get32_skip. apply get_put32. lia. }
  assert (gw_get32 reply 44 = data_sp) as W3.
  { etransitivity; [exact (Hw (length ((gw_put32 (bitrate timing) ++ gw_put32 (dbitrate timing)) ++ gw_put32 nominal_sp) + 0)%nat
      ltac:(cbn; lia))|].
    rewrite !app_assoc, get32_skip, <- (app_nil_r (gw_put32 data_sp)). apply get_put32. lia. }
  split; try done; by rewrite ?Hs1, ?Hs2, ?W2, ?W3.
Qed.

Lemma classify_subscribed_reply request reply id count :
  Forall byte_ok reply -> classify_subscribed request reply = Reply (id, count) ->
  length id = 16%nat /\ 1 <= count <= 8 /\ ~ Forall (fun value => value = 0) id /\
  gw_get32 reply 8 = request /\ slice reply 12 16 = id /\ byte_at reply 47 = count.
Proof.
  intros Hb. unfold classify_subscribed. destruct (gw_packet_valid reply) eqn:Ev; [|done]. cbn [negb].
  destruct (Z.eqb_spec (byte_at reply 5) GW_SUBSCRIBED); [|done].
  destruct (Z.eqb_spec (gw_get32 reply 8) request); [|done]. cbn [negb orb].
  destruct (gw_get32 reply 52 =? 0); [|done]. destruct (byte_at reply 46 .& 4 =? 0); [done|].
  destruct (Z.eqb_spec (byte_at reply 47) 0); [done|]. unfold EthernetTiming.kGatewayChannelCount.
  destruct (Z.ltb_spec 8 (byte_at reply 47)); [done|]. cbn [negb orb].
  destruct (forallb _ (slice reply 12 16)) eqn:Ez; [done|]. intros [= <- <-].
  assert (length reply = 64%nat) as Hlen.
  { unfold gw_packet_valid in Ev. do 6 apply andb_true_iff in Ev as [Ev _]. unfold GW_PACKET_SIZE in Ev. lia. }
  assert (byte_ok (byte_at reply 47)) as H47.
  { rewrite list.Forall_forall in Hb. apply Hb, list_elem_of_In, nth_In. lia. }
  unfold byte_ok in H47. split_and!; try done; try lia.
  - unfold slice. rewrite length_take, length_drop. lia.
  - intros Hz. rewrite <- not_true_iff_false in Ez. apply Ez. apply forallb_forall. intros x Hx.
    rewrite list.Forall_forall in Hz. apply Z.eqb_eq, Hz, list_elem_of_In, Hx.
Qed.

(** ** Initialization *)

(** A script of a socket that delivers bytes and a clock that does not run backwards. *)
Record script_ok (s : Script) : Prop := {
  script_clock : start s <= first s /\ clock_ok (first s) (rounds s);
  script_bytes : Forall (fun r => match inbound r with Some packet => Forall byte_ok packet | None => True end) (rounds s)
}.

(** A confirmation among the datagrams received before the deadline. *)
Definition confirmed (s : Script) (channel : Z) (id : Bytes) (timing : Timing) : Prop :=
  exists r reply, r ∈ rounds s /\ t_check r < start s + 2000 /\ inbound r = Some reply /\
    confirms reply (request s) channel id timing.

Lemma request_sends {A} out (classify : Bytes -> Verdict A) s :
  script_ok s ->
  let sent := (exchange out classify (start s + 2000) (rounds s) (first s)).1.2 in
  Forall (fun packet => packet = out) (map snd sent) /\ (length (map snd sent) <= 11)%nat.
Proof.
  intros [[H1 Hc] _]. cbv zeta.
  destruct (exchange_sends out classify (start s + 2000) (rounds s) (first s) (first s) 10 Hc) as [Hf Hl]; [lia|].
  rewrite length_map. split; [|done]. apply Forall_fmap. eapply Forall_impl; [exact Hf|]. by intros [t packet].
Qed.

Lemma can_set_type request channel nominal data nominal_sp data_sp id :
  byte_at (can_set_packet request channel nominal data nominal_sp data_sp id) 5 = GW_CAN_SET.
Proof. reflexivity. Qed.

Lemma ConfigureCanChannel_ok channel timing id s outcome sent events :
  script_ok s -> length id = 16%nat -> rates_ok timing ->
  ConfigureCanChannel channel timing id s = Some (outcome, sent, events) ->
  (outcome = Done tt -> confirmed s channel id timing) /\
  Forall (fun packet => byte_at packet 5 = GW_CAN_SET) (map snd sent) /\ (length (map snd sent) <= 11)%nat.
Proof.
  intros Hs Hid Hr. unfold ConfigureCanChannel.
  destruct (EthernetTiming.ToPerMille (sample_point timing)) as [nominal_sp|] eqn:E1; [|done].
  destruct (EthernetTiming.ToPerMille (dsample_point timing)) as [data_sp|] eqn:E2; [|done]. intros [= Hx].
  pose proof (request_sends (can_set_packet (request s) channel (bitrate timing) (dbitrate timing) nominal_sp data_sp id)
    (classify_state (request s) channel (can_set_packet (request s) channel (bitrate timing) (dbitrate timing) nominal_sp data_sp id) id)
    s Hs) as [Hf Hl].
  pose proof (exchange_outcome (can_set_packet (request s) channel (bitrate timing) (dbitrate timing) nominal_sp data_sp id)
    (classify_state (request s) channel (can_set_packet (request s) channel (bitrate timing) (dbitrate timing) nominal_sp data_sp id) id)
    (start s + 2000) (rounds s) (first s)) as Ho.
  rewrite Hx in Hf, Hl, Ho. cbn [fst snd] in *. split_and!; [|eapply Forall_impl; [exact Hf|]; by intros ? ->|done].
  intros ->. destruct Ho as (before & r & after & reply & Hrs & _ & Ht & Hi & Hc). exists r, reply.
  rewrite Hrs. split_and!; [apply elem_of_app; right; apply list_elem_of_here|done|done|]. by eapply classify_state_reply.
Qed.

Lemma configure_channels_ok timings : forall channel id scripts outcome sent events,
  Forall script_ok scripts -> length id = 16%nat -> Forall rates_ok timings ->
  configure_channels channel timings id scripts = Some (outcome, sent, events) ->
  (outcome = Done tt -> forall k timing, timings !! k = Some timing ->
     exists s, scripts !! k = Some s /\ confirmed s (channel + Z.of_nat k) id timing) /\
  Forall (fun packet => byte_at packet 5 = GW_CAN_SET) sent /\ (length sent <= 11 * length timings)%nat.
Proof.
  induction timings as [|timing timings IH]; intros channel id scripts outcome sent events Hs Hid Hr H; cbn [configure_channels] in H.
  - injection H as <- <- <-. split_and!; [done|constructor|cbn; lia].
  - destruct scripts as [|s scripts]; [injection H as <- <- <-; split_and!; [done|constructor|cbn; lia]|].
    apply list.Forall_cons in Hs as [Hs Hss]. apply list.Forall_cons in Hr as [Hr Hrs].
    destruct (ConfigureCanChannel channel timing id s) as [[[o sent1] events1]|] eqn:E; [|done].
    apply ConfigureCanChannel_ok in E as (Hdone & Hf & Hl); [|done..].
    destruct o as [[]| | |].
    2-4: injection H as <- <- <-; split_and!; [done|done|cbn; lia].
    destruct (configure_channels (channel + 1) timings id scripts) as [[[o2 sent2] events2]|] eqn:E2; [|done].
    injection H as <- <- <-. apply IH in E2 as (Hdone2 & Hf2 & Hl2); [|done..].
    split_and!; [|by apply Forall_app|rewrite length_app; cbn; lia].
    intros ->. intros [|k] t Ht; cbn in Ht.
    + injection Ht as <-. exists s. rewrite Z.add_0_r. split; [done|by apply Hdone].
    + destruct (Hdone2 eq_refl k t Ht) as (s' & Hs' & Hc). exists s'. split; [done|].
      by replace (channel + Z.of_nat (S k)) with (channel + 1 + Z.of_nat k) by lia.
Qed.

(** The subscription was accepted, with this identity and number of channels: the first
    datagram before the deadline that decides the exchange is such a reply. *)
Definition subscribed_as (s : Script) (id : Bytes) (count : Z) : Prop :=
  answered_by (classify_subscribed (request s)) (start s + 2000) (Reply (id, count)) (rounds s).

Lemma subscribed_reply s id count :
  script_ok s -> subscribed_as s id count ->
  length id = 16%nat /\ 1 <= count <= 8 /\ ~ Forall (fun value => value = 0) id /\
  exists r reply, r ∈ rounds s /\ t_check r < start s + 2000 /\ inbound r = Some reply /\
    gw_get32 reply 8 = request s /\ slice reply 12 16 = id /\ byte_at reply 47 = count.
Proof.
  intros [_ Hb] (before & r & after & reply & Hr & _ & Ht & Hi & Hc).
  assert (r ∈ rounds s) as Hin by (rewrite Hr; apply elem_of_app; right; apply list_elem_of_here).
  apply classify_subscribed_reply in Hc as (H1 & H2 & H3 & H4 & H5 & H6).
  - split_and!; [done|lia|lia|done|]. by exists r, reply.
  - rewrite list.Forall_forall in Hb. specialize (Hb r Hin). by rewrite Hi in Hb.
Qed.

(** Nothing is taken back in these datagrams. *)
Definition no_farewell (sent : list Bytes) : Prop := Forall (fun packet => byte_at packet 5 <> GW_UNSUBSCRIBE) sent.

Lemma Subscribe_spec s :
  script_ok s ->
  no_farewell (map snd (snd (Subscribe s))) /\ (length (map snd (snd (Subscribe s))) <= 11)%nat /\
  match fst (Subscribe s) with
  | Done (id, count) => subscribed_as s id count
  | _ => forall id count, ~ subscribed_as s id count
  end.
Proof.
  intros Hs. unfold Subscribe.
  pose proof (request_sends (gw_packet GW_SUBSCRIBE (request s) None) (classify_subscribed (request s)) s Hs) as [Hf Hl].
  pose proof (exchange_outcome (gw_packet GW_SUBSCRIBE (request s) None) (classify_subscribed (request s))
    (start s + 2000) (rounds s) (first s)) as Ho.
  pose proof (fun id count => exchange_answered (gw_packet GW_SUBSCRIBE (request s) None) (classify_subscribed (request s))
    (start s + 2000) (id, count) (rounds s) (first s)) as Ha.
  destruct (exchange _ _ _ (rounds s) (first s)) as [[o sent] events]. cbn [fst snd] in *. split_and!; [|done|].
  - eapply Forall_impl; [exact Hf|]. by intros ? ->.
  - destruct o as [[id count]| | |]; [exact Ho|..]; intros id count H; by specialize (Ha id count H).
Qed.

Lemma can_sets_no_farewell sent : Forall (fun packet => byte_at packet 5 = GW_CAN_SET) sent -> no_farewell sent.
Proof. intros H. eapply Forall_impl; [exact H|]. cbn. by intros ? ->. Qed.

(** C30: initialising a gateway, with a socket that does not throw.  On success the
    subscription was accepted with the identity and the one to eight channels of the
    result, the timings were made for that number of channels, and each channel was
    confirmed before its deadline by a datagram that carries the request number, the
    identity, the channel, status zero and, word for word, the requested rates and sample
    points; nothing was unsubscribed.  A failure - a negative reply, a deadline, timings
    that cannot be made - sends exactly one UNSUBSCRIBE, as the last datagram: with the
    identity of the accepted subscription, and with sixteen zeros exactly when no
    subscription was accepted (the reply was refused, empty or late).  In all cases no
    request is sent more than eleven times. *)
Theorem initialize_contract make_timings subscribe scripts last outcome sent events :
  script_ok subscribe -> Forall script_ok scripts ->
  (forall count timings, make_timings count = inl timings -> length timings = 8%nat /\ Forall rates_ok timings) ->
  InitializeCanChannels make_timings subscribe scripts last = Some (outcome, sent, events) ->
  (length sent <= 11 * 9 + 1)%nat /\
  match outcome with
  | Done init =>
      subscribed_as subscribe (identity init) (channel_count init) /\
      1 <= channel_count init <= 8 /\ length (identity init) = 16%nat /\
      ~ Forall (fun value => value = 0) (identity init) /\
      make_timings (channel_count init) = inl (timings init) /\
      (forall channel timing, timings init !! channel = Some timing -> Z.of_nat channel < channel_count init ->
         exists s, scripts !! channel = Some s /\ confirmed s (Z.of_nat channel) (identity init) timing) /\
      no_farewell sent
  | Refused | TimedOut =>
      exists requests id, sent = requests ++ [gw_packet GW_UNSUBSCRIBE last (Some id)] /\ no_farewell requests /\
        ((exists count, subscribed_as subscribe id count) \/
         (id = replicate 16 0 /\ forall id' count, ~ subscribed_as subscribe id' count))
  | Unfinished => no_farewell sent
  end.
Proof.
  intros Hsub Hscripts Hmake. unfold InitializeCanChannels. destruct (Subscribe_spec subscribe Hsub) as (Hf & Hl & Ho).
  destruct (Subscribe subscribe) as [subscribed sent0]. cbn [fst snd] in *. generalize dependent (map snd sent0). intros sent1 Hf Hl.
  destruct subscribed as [[id count]| | |].
  2-3: intros [= <- <- <-]; rewrite length_app; cbn [length]; (split; [lia|]);
    exists sent1, (replicate 16 0); split_and!; try done; by right.
  2: { intros [= <- <- <-]. split; [lia|done]. }
  destruct (subscribed_reply _ _ _ Hsub Ho) as (Hid & Hcount & Hnz & _).
  destruct (make_timings count) as [made|] eqn:Em.
  2: { intros [= <- <- <-]. rewrite length_app. cbn [length]. split; [lia|]. exists sent1, id. split_and!; [done..|]. left. by exists count. }
  destruct (Hmake count made Em) as [Hlen8 Hrates].
  destruct (configure_channels 0 (take (Z.to_nat count) made) id scripts) as [[[o sent2] events2]|] eqn:Ec; [|done].
  apply configure_channels_ok in Ec as (Hdone & Hf2%can_sets_no_farewell & Hl2); [|done|done|by apply Forall_take].
  rewrite length_take in Hl2. assert (no_farewell (sent1 ++ sent2)) as Hboth by (by apply Forall_app).
  destruct o as [[]| | |]; intros [= <- <- <-]; rewrite ?length_app; cbn [length]; (split; [lia|]).
  2-3: exists (sent1 ++ sent2), id; rewrite <- app_assoc; split_and!; try done; left; by exists count.
  2: done.
  cbn [channel_count identity timings]. split_and!; [done|lia|lia|done|done|done| |done].
  intros channel timing Ht Hlt. apply (Hdone eq_refl). rewrite lookup_take_lt by lia. done.
Qed.

(** ** Reconfiguration requests *)

(** The callers of [Reconfigure], the management thread and the destructor share a
    queue under a lock; each request holds a promise. *)
Record Request := mkRequest { rq_id : nat; rq_channel : Z; rq_timing : Timing }.

Inductive Answer := Configured | Failed | Stopping.

Record Impl := mkImpl {
  running : bool;
  pending_requests : list Request;
  serving : option Request;
  answers : list (nat * Answer);
  next_id : nat;
  worker_alive : bool
}.

Definition new_impl : Impl := mkImpl true [] None [] 0 true.

Inductive ReconfigureResult := NoChannel | IsStopping | Queued (id : nat).

(** Up to the wait for the answer. *)
Definition Reconfigure (channels : Z) (channel : Z) (timing : Timing) (i : Impl) : Impl * ReconfigureResult :=
  if channels <=? channel then (i, NoChannel)
  else if negb (running i) then (i, IsStopping)
  else (mkImpl (running i) (pending_requests i ++ [mkRequest (next_id i) channel timing]) (serving i)
          (answers i) (S (next_id i)) (worker_alive i), Queued (next_id i)).

Definition FailPendingRequests (i : Impl) : Impl :=
  mkImpl false [] (serving i) (answers i ++ map (fun r => (rq_id r, Stopping)) (pending_requests i))
    (next_id i) (worker_alive i).

(** The two halves of [ServicePendingRequest], which runs the exchange in between. *)
Definition take_request (i : Impl) : Impl :=
  match pending_requests i with
  | [] => i
  | r :: pending => mkImpl (running i) pending (Some r) (answers i) (next_id i) (worker_alive i)
  end.

Definition finish_request (configured : bool) (i : Impl) : Impl :=
  match serving i with
  | None => i
  | Some r => mkImpl (running i) (pending_requests i) None
                (answers i ++ [(rq_id r, if configured then Configured else Failed)]) (next_id i) (worker_alive i)
  end.

(** The end of the thread's function, after [Loop] has returned or thrown. *)
Definition end_worker (i : Impl) : Impl :=
  let i := FailPendingRequests i in
  mkImpl (running i) (pending_requests i) (serving i) (answers i) (next_id i) false.

(** Interleavings. *)
Inductive impl_step (channels : Z) : Impl -> Impl -> Prop :=
| StepReconfigure channel timing i : impl_step channels i (Reconfigure channels channel timing i).1
| StepTake i : worker_alive i = true -> serving i = None -> impl_step channels i (take_request i)
| StepFinish configured i : worker_alive i = true -> impl_step channels i (finish_request configured i)
| StepDestroy i : impl_step channels i (FailPendingRequests i)
| StepEnd i : worker_alive i = true -> serving i = None -> impl_step channels i (end_worker i).

Inductive impl_reachable (channels : Z) : Impl -> Prop :=
| ReachNew : impl_reachable channels new_impl
| ReachStep i i' : impl_reachable channels i -> impl_step channels i i' -> impl_reachable channels i'.

Definition serving_ids (i : Impl) : list nat := match serving i with Some r => [rq_id r] | None => [] end.

(** Every request number is in exactly one place. *)
Definition impl_ids (i : Impl) : list nat := (answers i).*1 ++ serving_ids i ++ map rq_id (pending_requests i).

Record impl_inv (i : Impl) : Prop := {
  inv_ids : impl_ids i ≡ₚ seq 0 (next_id i);
  inv_dead : worker_alive i = false -> running i = false /\ serving i = None;
  inv_stopped : running i = false -> pending_requests i = []
}.

Lemma stopped_ids (requests : list Request) : (map (fun r => (rq_id r, Stopping)) requests).*1 = map rq_id requests.
Proof. induction requests as [|r requests IH]; cbn; [done|by f_equal]. Qed.

Lemma impl_inv_step channels i i' : impl_inv i -> impl_step channels i i' -> impl_inv i'.
Proof.
  intros [Hids Hdead Hstop] Hstep. unfold impl_ids, serving_ids in *.
  destruct Hstep as [channel timing [run pend serv ans next alive]|[run pend serv ans next alive] Ha Hs
    |configured [run pend serv ans next alive] Ha|[run pend serv ans next alive]|[run pend serv ans next alive] Ha Hs];
    cbn [running pending_requests serving answers next_id worker_alive] in *.
  - unfold Reconfigure. cbn [running]. destruct (channels <=? channel); [by split|].
    destruct run; cbn [negb fst]; [|by split]. split; [|done|done].
    unfold impl_ids, serving_ids. cbn [running pending_requests serving answers next_id worker_alive].
    by rewrite map_app, seq_S, <- Hids, <- !app_assoc.
  - destruct pend as [|r pend]; [by split|]. split; [|by subst|intros Hr; by apply Hstop in Hr]. by subst serv.
  - destruct serv as [r|]; [|by split]. split; [|by subst|done].
    unfold impl_ids, serving_ids, finish_request. cbn. by rewrite fmap_app, <- app_assoc.
  - split; [|intros Hw; by split; [|apply Hdead]|done].
    unfold impl_ids, serving_ids, FailPendingRequests. cbn.
    rewrite fmap_app, stopped_ids, app_nil_r, <- Hids, <- app_assoc. apply Permutation_app_head, Permutation_app_comm.
  - split; [|done|done]. subst serv. unfold impl_ids, serving_ids, end_worker. cbn.
    by rewrite fmap_app, stopped_ids, app_nil_r, <- Hids.
Qed.

Lemma impl_inv_reachable channels i : impl_reachable channels i -> impl_inv i.
Proof.
  induction 1 as [|i i' _ IH Hstep]; [by split|]. by eapply impl_inv_step.
Qed.

(** C31: whatever callers, the management thread and the destructor do, no reconfiguration
    request is answered twice (a second answer to a promise would throw), none is
    lost, and once the thread has ended every request ever queued has its answer and
    no further one is queued. *)
Theorem reconfigure_answered channels i :
  impl_reachable channels i ->
  NoDup (answers i).*1 /\ (forall id, id ∈ impl_ids i <-> (id < next_id i)%nat) /\
  (worker_alive i = false ->
     (forall id, (id < next_id i)%nat -> exists answer, (id, answer) ∈ answers i) /\
     forall channel timing id, (Reconfigure channels channel timing i).2 <> Queued id).
Proof.
  intros [Hids Hdead Hstop]%impl_inv_reachable.
  assert (forall id, id ∈ impl_ids i <-> (id < next_id i)%nat) as Hin.
  { intros id. rewrite Hids, elem_of_seq. lia. }
  split_and!; [|done|].
  - assert (NoDup (impl_ids i)) as Hnd by (rewrite Hids; apply NoDup_seq). by apply NoDup_app in Hnd as [Hnd _].
  - intros Hw. destruct (Hdead Hw) as [Hr Hs]. split.
    + intros id Hid%Hin. unfold impl_ids, serving_ids in Hid. rewrite Hs, Hstop, !app_nil_r in Hid by done.
      apply list_elem_of_fmap in Hid as ([id' answer] & -> & Hid). by exists answer.
    + intros channel timing id. unfold Reconfigure. destruct (_ <=? _); [done|]. by rewrite Hr.
Qed.

Lemma reconfigure_answered_witness :
  let timing := mkTiming 500000 5000000 (F64.lit 75 100) (F64.lit 875 1000) in
  let i := end_worker (finish_request true (take_request
    (Reconfigure 2 0 timing (Reconfigure 2 1 timing new_impl).1).1)) in
  answers i = [(0%nat, Configured); (1%nat, Stopping)] /\ NoDup (answers i).*1.
Proof.
  split; [reflexivity|].
  apply (reconfigure_answered 2).
  repeat (eapply ReachStep; [|first [eapply StepEnd; reflexivity|eapply StepFinish; reflexivity|
    eapply StepTake; reflexivity|eapply StepReconfigure]]).
  apply ReachNew.
Defined.

(** ** The heartbeat *)

Record Heartbeat := mkHeartbeat { last_report : Z; online : bool; recent : list (Z * Z) }.

Definition kTimeout : Z := 500.
Definition new_heartbeat (now : Z) : Heartbeat := mkHeartbeat now true [].

(** A datagram seen among the last 64 does not count. *)
Definition Report (sequence uptime now : Z) (h : Heartbeat) : bool * Heartbeat :=
  if existsb (fun seen => bool_decide (seen = (sequence, uptime))) (recent h) then (false, h)
  else
    let recent := recent h ++ [(sequence, uptime)] in
    (true, mkHeartbeat now true (if (64 <? length recent)%nat then tail recent else recent)).

Definition CheckTimeout (now : Z) (h : Heartbeat) : bool * Heartbeat :=
  if online h && (kTimeout <=? now - last_report h) then (true, mkHeartbeat (last_report h) false (recent h))
  else (false, h).

(** ** The management loop *)

Inductive ErrorName :=
| BusOff | StuffError | FormatError | AckError | BitError | CrcError | ErrorPassive | ErrorWarning | RxOverflow | OtherError.

Definition CanErrorName (e : CanError) : ErrorName :=
  let flag bit := negb (ce_flags e .& (1 ≪ bit) =? 0) in
  let lec := ce_psr e .& 7 in
  let dlec := (ce_psr e ≫ 8) .& 7 in
  let either code := (lec =? code) || (dlec =? code) in
  if flag 25 then BusOff
  else if either 1 then StuffError
  else if either 2 then FormatError
  else if either 3 then AckError
  else if either 4 || either 5 then BitError
  else if either 6 then CrcError
  else if flag 24 then ErrorPassive
  else if flag 23 then ErrorWarning
  else if flag 19 then RxOverflow
  else OtherError.

Inductive Log :=
| Disconnected | Restored | SubscriptionRejected
| ChannelError (channel : Z) (name : ErrorName) | Reinitialized (channel : Z).

#[export] Instance ErrorName_eq_dec : EqDecision ErrorName.
Proof. solve_decision. Defined.

(** The variables of [Loop]; the per-channel arrays have eight members. *)
Record LoopState := mkLoop {
  l_next : Z; l_heartbeat : Heartbeat; l_warned : bool; l_request : Z;
  recoveries : list Z; last_error_logs : list Z; last_error_names : list (option ErrorName);
  logs : list (Z * Log); datagrams : list Bytes
}.

(** Times count from the clock's origin, where [last_error_logs] starts. *)
Definition new_loop (now request : Z) : LoopState :=
  mkLoop now (new_heartbeat now) false request (replicate 8 0) (replicate 8 0) (replicate 8 None) [] [].

Definition log (now : Z) (l : Log) (s : LoopState) : LoopState :=
  mkLoop (l_next s) (l_heartbeat s) (l_warned s) (l_request s) (recoveries s) (last_error_logs s)
    (last_error_names s) (logs s ++ [(now, l)]) (datagrams s).
Definition set_heartbeat (h : Heartbeat) (s : LoopState) : LoopState :=
  mkLoop (l_next s) h (l_warned s) (l_request s) (recoveries s) (last_error_logs s) (last_error_names s) (logs s) (datagrams s).
Definition set_warned (b : bool) (s : LoopState) : LoopState :=
  mkLoop (l_next s) (l_heartbeat s) b (l_request s) (recoveries s) (last_error_logs s) (last_error_names s) (logs s) (datagrams s).
Definition set_recovery (channel n : Z) (s : LoopState) : LoopState :=
  mkLoop (l_next s) (l_heartbeat s) (l_warned s) (l_request s) (<[Z.to_nat channel := n]> (recoveries s))
    (last_error_logs s) (last_error_names s) (logs s) (datagrams s).
Definition set_error (channel now : Z) (name : option ErrorName) (s : LoopState) : LoopState :=
  mkLoop (l_next s) (l_heartbeat s) (l_warned s) (l_request s) (recoveries s)
    (<[Z.to_nat channel := now]> (last_error_logs s)) (<[Z.to_nat channel := name]> (last_error_names s)) (logs s) (datagrams s).

(** One iteration: a reconfiguration serviced first, if any; the clock; the datagram
    received; the clock at the report and at the log; whether the channel has devices. *)
Record Iteration := mkIter {
  it_service : option (Z * Timing * Script);
  it_now : Z; it_inbound : option Bytes; it_report : Z; it_error : Z; it_devices : bool }.

(** The report of a fresh event. *)
Definition handle_error (it : Iteration) (e : CanError) (s : LoopState) : LoopState :=
  let channel := Z.to_nat (ce_channel e) in
  if negb (it_devices it) then set_recovery (ce_channel e) (ce_recovered e) s
  else
    let s :=
      if negb (ce_flags e =? 0) then
        let name := CanErrorName e in
        if negb (bool_decide (nth channel (last_error_names s) None = Some name)) ||
           (1000 <=? it_error it - nth channel (last_error_logs s) 0)
        then set_error (ce_channel e) (it_error it) (Some name) (log (it_error it) (ChannelError (ce_channel e) name) s)
        else s
      else s in
    if negb (ce_recovered e =? nth channel (recoveries s) 0) then
      let s := set_recovery (ce_channel e) (ce_recovered e) s in
      if (ce_flags e =? 0) && bool_decide (is_Some (nth channel (last_error_names s) None))
      then set_error (ce_channel e) (nth channel (last_error_logs s) 0) None
             (log (it_error it) (Reinitialized (ce_channel e)) s)
      else s
    else s.

Definition handle_packet (channels : Z) (id : Bytes) (it : Iteration) (packet : Bytes) (s : LoopState) : LoopState :=
  if negb (gw_packet_valid packet) then s
  else if (byte_at packet 5 =? GW_SUBSCRIBED) && (gw_get32 packet 8 =? l_request s) && bool_decide (slice packet 12 16 = id)
  then
    if negb (gw_get32 packet 52 =? 0) then
      set_warned true (if l_warned s then s else log (it_now it) SubscriptionRejected s)
    else set_warned false s
  else
    match DecodeCanError packet id with
    | None => s
    | Some e =>
        if channels <=? ce_channel e then s
        else
          let was_online := online (l_heartbeat s) in
          let (fresh, h) := Report (ce_sequence e) (ce_uptime e) (it_report it) (l_heartbeat s) in
          let s := set_heartbeat h s in
          if negb fresh then s
          else handle_error it e (if was_online then s else log (it_report it) Restored s)
    end.

(** [ServicePendingRequest]: the exchange, whose events nobody looks at. *)
Definition service (id : Bytes) (it : Iteration) (s : LoopState) : LoopState :=
  match it_service it with
  | None => s
  | Some (channel, timing, script) =>
      match ConfigureCanChannel channel timing id script with
      | Some (_, sent, _) => mkLoop (l_next s) (l_heartbeat s) (l_warned s) (l_request s) (recoveries s)
                               (last_error_logs s) (last_error_names s) (logs s) (datagrams s ++ map snd sent)
      | None => s
      end
  end.

Definition watch (now : Z) (s : LoopState) : LoopState :=
  let (timed_out, h) := CheckTimeout now (l_heartbeat s) in
  let s := set_heartbeat h s in
  if timed_out then log now Disconnected s else s.

(** The subscription is renewed every three seconds. *)
Definition renew (now : Z) (id : Bytes) (s : LoopState) : LoopState :=
  if l_next s <=? now then
    let request := u32 (l_request s + 1) in
    mkLoop (now + 3000) (l_heartbeat s) (l_warned s) request (recoveries s) (last_error_logs s) (last_error_names s)
      (logs s) (datagrams s ++ [gw_packet GW_SUBSCRIBE request (Some id)])
  else s.

Definition iterate (channels : Z) (id : Bytes) (s : LoopState) (it : Iteration) : LoopState :=
  let s := renew (it_now it) id (watch (it_now it) (service id it s)) in
  match it_inbound it with
  | None => s
  | Some packet => handle_packet channels id it packet s
  end.

Definition run_loop (channels : Z) (id : Bytes) (s : LoopState) (its : list Iteration) : LoopState :=
  fold_left (iterate channels id) its s.

(** The state of the connection according to the log; [None]: two disconnections without
    a restoration between them, or the other way round. *)
Fixpoint connection (online : bool) (logs : list Log) : option bool :=
  match logs with
  | [] => Some online
  | Disconnected :: logs => if online then connection false logs else None
  | Restored :: logs => if online then None else connection true logs
  | _ :: logs => connection online logs
  end.

Lemma connection_app logs : forall b l, connection b (logs ++ l) = match connection b logs with Some b => connection b l | None => None end.
Proof. induction logs as [|[] logs IH]; intros [] l; cbn [connection app]; done || apply IH. Qed.

Record loop_ok (s : LoopState) : Prop := {
  loop_connection : connection true (map snd (logs s)) = Some (online (l_heartbeat s));
  loop_recent : (length (recent (l_heartbeat s)) <= 64)%nat
}.

Lemma loop_log now l s :
  loop_ok s -> l <> Disconnected -> l <> Restored -> loop_ok (log now l s).
Proof.
  intros [H1 H2] Hd Hr. split; [|done]. cbn. rewrite map_app, connection_app, H1. by destruct l.
Qed.

Lemma loop_error it e s : loop_ok s -> loop_ok (handle_error it e s).
Proof.
  intros Hs. unfold handle_error. destruct (it_devices it); cbn [negb]; [|by destruct Hs].
  set (s1 := if negb (ce_flags e =? 0) then _ else s). assert (loop_ok s1) as Hs1.
  { subst s1. destruct (negb _); [|done]. destruct (negb _ || _); [|done].
    apply (loop_log (it_error it) (ChannelError (ce_channel e) (CanErrorName e))) in Hs as [? ?]; [by split|done|done]. }
  clearbody s1. destruct (negb _); [|done]. destruct (_ && _); [|by destruct Hs1].
  apply (loop_log (it_error it) (Reinitialized (ce_channel e))) in Hs1 as [? ?]; [by split|done|done].
Qed.

Lemma loop_report sequence uptime now s :
  loop_ok s ->
  let (fresh, h) := Report sequence uptime now (l_heartbeat s) in
  (length (recent h) <= 64)%nat /\ (fresh = false -> h = l_heartbeat s) /\ (fresh = true -> online h = true).
Proof.
  intros [_ Hl]. unfold Report. destruct (existsb _ _); [by split_and!|]. split_and!; [|done|done]. cbn [recent].
  destruct (Nat.ltb_spec 64 (length (recent (l_heartbeat s) ++ [(sequence, uptime)]))) as [H|H]; [|lia].
  rewrite length_app in H. cbn in H. destruct (recent (l_heartbeat s)); cbn in *; rewrite ?length_app; cbn; lia.
Qed.

Lemma loop_packet channels id it packet s : loop_ok s -> loop_ok (handle_packet channels id it packet s).
Proof.
  intros Hs. unfold handle_packet. destruct (gw_packet_valid packet); cbn [negb]; [|done].
  destruct (_ && _ && _).
  { destruct (negb _); [|by destruct Hs]. destruct (l_warned s); [by destruct Hs|].
    apply (loop_log (it_now it) SubscriptionRejected) in Hs as [? ?]; [by split|done|done]. }
  destruct (DecodeCanError packet id) as [e|]; [|done]. destruct (channels <=? ce_channel e); [done|].
  pose proof (loop_report (ce_sequence e) (ce_uptime e) (it_report it) s Hs) as Hr.
  destruct (Report _ _ _ _) as [fresh h]. destruct Hr as (Hlen & Hstale & Hfresh). destruct Hs as [H1 H2].
  destruct fresh; cbn [negb]; [|rewrite (Hstale eq_refl); by split]. specialize (Hfresh eq_refl).
  apply loop_error. destruct (online (l_heartbeat s)).
  - split; [|done]. cbn. by rewrite Hfresh.
  - split; [|done]. cbn. by rewrite map_app, connection_app, H1, Hfresh.
Qed.

(** The log of a run tells the truth about the connection: disconnections and
    restorations alternate, beginning with a disconnection, and the last of them is the
    state of the heartbeat; of the datagrams seen no more than 64 are remembered. *)
Lemma connection_log channels id now request its :
  loop_ok (run_loop channels id (new_loop now request) its).
Proof.
  assert (loop_ok (new_loop now request)) as Hs by (split; [done|cbn; lia]).
  revert Hs. generalize (new_loop now request) as s. unfold run_loop.
  induction its as [|it its IH]; intros s Hs; [done|]. cbn [fold_left]. apply IH. unfold iterate.
  assert (loop_ok (renew (it_now it) id (watch (it_now it) (service id it s)))) as H.
  { assert (loop_ok (service id it s)) as H1.
    { unfold service. destruct (it_service it) as [[[? ?] ?]|]; [|done].
      destruct (ConfigureCanChannel _ _ _ _) as [[[? ?] ?]|]; by destruct Hs. }
    assert (loop_ok (watch (it_now it) (service id it s))) as H2.
    { destruct H1 as [H1 Hl]. unfold watch, CheckTimeout. destruct (online _) eqn:Eo; cbn [andb].
      - destruct (kTimeout <=? _); [|split; [cbn; rewrite Eo; exact H1|done]]. split; [|done]. cbn. by rewrite map_app, connection_app, H1.
      - split; [cbn; rewrite Eo; exact H1|done]. }
    unfold renew. destruct (_ <=? _); by destruct H2. }
  destruct (it_inbound it); [by apply loop_packet|done].
Qed.

(** ** Discovery *)

(** [address.compare(0, 12, "192.168.100.")] *)
Definition kSubnet : Bytes := [49; 57; 50; 46; 49; 54; 56; 46; 49; 48; 48; 46].

(** ethernet_slave.h; [None] is the exception. *)
Definition SlaveId (address : Bytes) : option Z :=
  if negb (bool_decide (take 12 address = kSubnet)) then None
  else
    let tail := drop 12 address in
    if bool_decide (tail = []) || (3 <? length tail)%nat || negb (forallb is_digit tail) then None
    else
      let id := stoul_digits tail in
      if (id <? 1) || (253 <? id) || negb (bool_decide (byte_to_string id = tail)) then None else Some (id - 1).

Record Datagram := mkDatagram { dg_interface : Bytes; dg_address : Bytes; dg_port : Z; payload : Bytes }.

(** [identities] and [found] have the same keys and are kept together, sorted. *)
Abbreviation Found := (list (Bytes * (Bytes * Endpoint))).

Fixpoint text_ltb (x y : Bytes) : bool :=
  match x, y with
  | _, [] => false
  | [], _ => true
  | a :: x, b :: y => if a <? b then true else if b <? a then false else text_ltb x y
  end.

(** [None]: the key is known under another identity. *)
Fixpoint record_slave (key id : Bytes) (endpoint : Endpoint) (found : Found) : option Found :=
  match found with
  | [] => Some [(key, (id, endpoint))]
  | (k, (old, e)) :: found =>
      if bool_decide (k = key) then if bool_decide (old = id) then Some ((k, (old, e)) :: found) else None
      else if text_ltb key k then Some ((key, (id, endpoint)) :: (k, (old, e)) :: found)
      else cons (k, (old, e)) <$> record_slave key id endpoint found
  end.

(** The checks of the loop body, up to [SlaveId]: the identity and the address. *)
Definition check_info (interface_name : Bytes) (request : Z) (d : Datagram) : option (Bytes * Bytes) :=
  let packet := payload d in
  if negb (gw_packet_valid packet) || negb (byte_at packet 5 =? GW_INFO) || negb (gw_get32 packet 8 =? request) ||
     negb (dg_port d =? GW_MGMT_PORT) then None
  else
    let ip := FormatIPv4 (slice packet 28 4) in
    let id := slice packet 12 16 in
    if negb (bool_decide (ip = dg_address d)) then None
    else if forallb (fun value => value =? 0) id then None
    else if negb (bool_decide (interface_name = [])) && negb (bool_decide (interface_name = dg_interface d)) then None
    else if negb (bool_decide (slice packet 32 4 = [255; 255; 255; 0])) || (byte_at packet 47 =? 0) ||
            (EthernetTiming.kGatewayChannelCount <? byte_at packet 47) then None
    else if bool_decide (SlaveId ip = None) then None
    else Some (id, ip).

(** The [while] loop: the clock of its test with what [Receive] gives.  The query is
    broadcast again once, which the model leaves out with the first broadcast. *)
Fixpoint discover (interface_name : Bytes) (request begin : Z) (answers : list (Z * Datagram)) (found : Found) : option Found :=
  match answers with
  | [] => Some found
  | (now, d) :: answers =>
      if 800 <=? now - begin then Some found
      else
        match check_info interface_name request d with
        | None => discover interface_name request begin answers found
        | Some (id, ip) =>
            match record_slave (dg_interface d ++ [64] ++ ip) id (mkEndpoint (dg_interface d) ip 5000) found with
            | None => None
            | Some found => discover interface_name request begin answers found
            end
        end
  end.

Definition DiscoverSlaves (interface_name : Bytes) (request begin : Z) (answers : list (Z * Datagram)) : option (list Endpoint) :=
  map (fun '(_, (_, endpoint)) => endpoint) <$> discover interface_name request begin answers [].

(** ** UpdateBusExtend *)

Inductive UpdateError := NoBus | NoTiming | BadField (e : ExtendError) | ReconfigureFailed.

(** The adapter as the update sees it: the channels of each gateway and the timings in
    force. *)
Record Live := mkLive { multi_ : bool; channels_ : gmap Z Z; timings_ : gmap Z (list Timing) }.

Definition is_valid_bus (l : Live) (index : Z) : bool :=
  if index <? 0 then false
  else
    let (slave, channel) := if multi_ l then (u32 index ≫ 16, u32 index .& 65535) else (0, u32 index) in
    match channels_ l !! slave with Some count => channel <? count | None => false end.

(** The second loop: [reconfigured] answers the calls of [ReconfigureChannel]. *)
Fixpoint update_buses (extend : AdapterExtend) (buses : list (Z * Z)) (reconfigured : list bool) (l : Live)
    : option UpdateError * Live :=
  match buses with
  | [] => (None, l)
  | (slave, channel) :: buses =>
      match BusOverride extend slave channel with
      | None => update_buses extend buses reconfigured l
      | Some overrides =>
          if (slave <? 0) || (channel <? 0) || (EthernetTiming.kGatewayChannelCount <=? channel) then (Some NoBus, l)
          else
            match timings_ l !! slave with
            | None => (Some NoTiming, l)
            | Some timings =>
                match EthernetTiming.ApplyGatewayCanTiming overrides
                        (nth (Z.to_nat channel) timings EthernetTiming.default) with
                | inr e => (Some (BadField e), l)
                | inl timing =>
                    match reconfigured with
                    | true :: reconfigured =>
                        update_buses extend buses reconfigured
                          (mkLive (multi_ l) (channels_ l) (<[slave := <[Z.to_nat channel := timing]> timings]> (timings_ l)))
                    | _ => (Some ReconfigureFailed, l)
                    end
                end
            end
      end
  end.

Definition UpdateBusExtend (extend : AdapterExtend) (reconfigured : list bool) (l : Live) : option UpdateError * Live :=
  if negb (forallb (fun bus => is_valid_bus l (PackBus bus.1 bus.2)) (DeclaredBuses extend)) then (Some NoBus, l)
  else update_buses extend (DeclaredBuses extend) reconfigured l.

(** ** What discovery and updates guarantee *)

(** The accepted addresses are those of 192.168.100.1 to 192.168.100.253, in canonical
    text. *)
Lemma SlaveId_spec text id :
  SlaveId text = Some id <-> 0 <= id <= 252 /\ text = FormatIPv4 [192; 168; 100; id + 1].
Proof.
  assert (forall b, FormatIPv4 [192; 168; 100; b] = kSubnet ++ byte_to_string b) as Hformat by reflexivity.
  unfold SlaveId. split.
  - destruct (bool_decide_reflect (take 12 text = kSubnet)) as [Ht|]; cbn [negb]; [|done].
    destruct (_ || _ || _); [done|]. destruct (Z.ltb_spec (stoul_digits (drop 12 text)) 1); [done|].
    destruct (Z.ltb_spec 253 (stoul_digits (drop 12 text))); [done|].
    destruct (bool_decide_reflect (byte_to_string (stoul_digits (drop 12 text)) = drop 12 text)) as [Hb|]; cbn [negb orb]; [|done].
    intros [= <-]. split; [lia|]. rewrite Z.sub_add, Hformat, Hb, <- Ht. by rewrite take_drop.
  - intros [Hid ->]. rewrite Hformat.
    assert (Forall (fun n => let b := byte_to_string n in
      (negb (bool_decide (b = [])) && (length b <=? 3)%nat && forallb is_digit b && (stoul_digits b =? n)) = true) (seqZ 0 256)) as Hall
      by (apply (bool_decide_unpack _); vm_compute; exact I).
    rewrite list.Forall_forall in Hall. specialize (Hall (id + 1)). rewrite elem_of_seqZ in Hall. specialize (Hall ltac:(lia)).
    cbn zeta in Hall. rewrite !andb_true_iff, negb_true_iff in Hall. destruct Hall as [[[Hne Hl] Hd] Hs].
    apply Z.eqb_eq in Hs. apply Nat.leb_le in Hl.
    change 12%nat with (length kSubnet). rewrite take_app_length, drop_app_length, bool_decide_true by done. cbn [negb].
    rewrite Hne, Hd, Hs, (proj2 (Nat.ltb_ge _ _) Hl). cbn [orb negb].
    rewrite (proj2 (Z.ltb_ge _ _)), (proj2 (Z.ltb_ge _ _)) by lia. rewrite bool_decide_true by done. cbn. f_equal. lia.
Qed.

Definition live_timing (l : Live) (bus : Z * Z) : option Timing :=
  match timings_ l !! bus.1 with Some timings => timings !! Z.to_nat bus.2 | None => None end.

(** [std::array] of eight members. *)
Definition live_ok (l : Live) : Prop := map_Forall (fun _ timings => length timings = 8%nat) (timings_ l).

Lemma update_buses_spec extend (get : Z * Z -> Object) buses : forall reconfigured l err l',
  live_ok l -> NoDup buses -> Forall bus_ok buses ->
  (forall bus, bus ∈ buses -> BusOverride extend bus.1 bus.2 = Some (get bus) /\ forall key, value_ok (at_ (get bus) key)) ->
  update_buses extend buses reconfigured l = (err, l') ->
  exists before rest, buses = before ++ rest /\ (err = None <-> rest = []) /\
    (forall bus, bus ∈ before -> exists old new, live_timing l bus = Some old /\ live_timing l' bus = Some new /\
       timing_is UINT32_MAX (at_ (get bus)) old new) /\
    (forall bus, 0 <= bus.2 -> bus ∉ before -> live_timing l' bus = live_timing l bus).
Proof.
  induction buses as [|[slave channel] buses IH]; intros reconfigured l err l' Hl Hnd Hok Hget H; cbn [update_buses] in H.
  { injection H as <- <-. exists [], []. split_and!; [done|done|intros bus Hb; by apply elem_of_nil in Hb|done]. }
  assert (forall e, (Some e, l) = (err, l') -> exists before rest, (slave, channel) :: buses = before ++ rest /\
    (err = None <-> rest = []) /\
    (forall bus, bus ∈ before -> exists old new, live_timing l bus = Some old /\ live_timing l' bus = Some new /\
       timing_is UINT32_MAX (at_ (get bus)) old new) /\
    (forall bus, 0 <= bus.2 -> bus ∉ before -> live_timing l' bus = live_timing l bus)) as Hstop.
  { intros e [= <- <-]. exists [], ((slave, channel) :: buses).
    split_and!; [done|done|intros bus Hb; by apply elem_of_nil in Hb|done]. }
  destruct (Hget (slave, channel)) as [Ho Hv]; [apply list_elem_of_here|]. cbn [fst snd] in Ho. rewrite Ho in H.
  apply NoDup_cons in Hnd as [Hnew Hnd]. apply list.Forall_cons in Hok as [Hbus Hok].
  unfold EthernetTiming.kGatewayChannelCount in H.
  destruct ((slave <? 0) || (channel <? 0) || (8 <=? channel)) eqn:Erange; [by eapply Hstop|].
  destruct (timings_ l !! slave) as [timings|] eqn:Et; [|by eapply Hstop].
  pose proof (map_Forall_lookup_1 _ _ _ _ Hl Et) as Hlen. cbn in Hlen.
  destruct (EthernetTiming.ApplyGatewayCanTiming _ _) as [timing|e] eqn:Ea; [|by eapply Hstop].
  destruct reconfigured as [|[] reconfigured]; [by eapply Hstop| |by eapply Hstop].
  apply IH in H as (before & rest & -> & Herr & Hdone & Hkeep); [| |done|done|intros bus Hb; apply Hget; by apply list_elem_of_further].
  2: { apply map_Forall_insert_2; [by rewrite length_insert|done]. }
  set (l1 := mkLive _ _ _) in *.
  assert (forall bus, 0 <= bus.2 -> bus <> (slave, channel) -> live_timing l1 bus = live_timing l bus) as Hother.
  { intros [s c] Hc Hne. unfold live_timing, l1. cbn in *. destruct (decide (s = slave)) as [->|Hs].
    - rewrite lookup_insert_eq, Et. apply list_lookup_insert_ne. intros E. apply Hne. f_equal. lia.
    - by rewrite lookup_insert_ne by done. }
  assert (live_timing l1 (slave, channel) = Some timing) as Hthis.
  { unfold live_timing, l1. cbn. rewrite lookup_insert_eq. apply list_lookup_insert_eq. lia. }
  exists ((slave, channel) :: before), rest. split_and!; [done|done| |].
  - intros bus [->|Hb]%elem_of_cons.
    + destruct (lookup_lt_is_Some_2 timings (Z.to_nat channel)) as [old Hold]; [lia|].
      exists old, timing. split_and!.
      * unfold live_timing. cbn. by rewrite Et.
      * rewrite Hkeep; [done|cbn; lia|]. intros Hb. apply Hnew, elem_of_app. by left.
      * apply ApplyTiming_ok; [apply max_ok|done|]. unfold EthernetTiming.ApplyGatewayCanTiming in Ea.
        by rewrite nth_lookup, Hold in Ea.
    + destruct (Hdone bus Hb) as (old & new & H1 & H2 & H3). exists old, new. split_and!; [|done|done].
      rewrite <- H1. symmetry. apply Hother; [|intros ->; by apply Hnew, elem_of_app; left].
      apply list.Forall_app in Hok as [Hok _]. rewrite list.Forall_forall in Hok. apply Hok in Hb as [_ [? _]]. done.
  - intros bus Hc [Hne Hb]%not_elem_of_cons. rewrite Hkeep by done. by apply Hother.
Qed.
(** Updating the buses of a live adapter.  Nothing happens when the envelope names a
    bus the adapter does not have.  Otherwise the named buses are updated in order, up
    to the first that fails, if any: each of them gets a timing whose fields are those
    of its own entry and otherwise those in force (the common fields of the envelope and
    the defaults are ignored), and every other channel keeps its timing, so that the
    timings kept are always those the gateway confirmed. *)
Lemma update_bus_contract parse_json text fields extend reconfigured l err l' :
  reads parse_json text fields -> library_value (JObject fields) = true -> Parse parse_json text = inl extend ->
  live_ok l -> UpdateBusExtend extend reconfigured l = (err, l') ->
  exists updated rest, DeclaredBuses extend = updated ++ rest /\ (err = None <-> rest = []) /\
    (forall bus, bus ∈ updated -> exists old new, live_timing l bus = Some old /\ live_timing l' bus = Some new /\
       timing_is UINT32_MAX (at_ (own_fields fields bus)) old new) /\
    (forall bus, 0 <= bus.2 -> bus ∉ updated -> live_timing l' bus = live_timing l bus) /\
    ((exists bus, bus ∈ DeclaredBuses extend /\ is_valid_bus l (PackBus bus.1 bus.2) = false) -> l' = l /\ err = Some NoBus).
Proof.
  intros Hr Hlib Hp Hl. unfold UpdateBusExtend.
  destruct (forallb (fun bus => is_valid_bus l (PackBus bus.1 bus.2)) (DeclaredBuses extend)) eqn:Ev; cbn [negb].
  - intros H. pose proof (library_object _ Hlib) as [Hnd _].
    apply (update_buses_spec extend (own_fields fields)) in H as (before & rest & Hd & Herr & Hdone & Hkeep).
    + exists before, rest. split_and!; [done|done|done|done|]. intros (bus & Hin & Hbad).
      rewrite forallb_forall in Ev. apply list_elem_of_In, Ev in Hin. congruence.
    + done.
    + pose proof Hp as Hp'. apply (Parse_spec parse_json text fields) in Hp' as (? & ? & Hok & _ & ->); [|done|done]. apply Hok.
    + apply list.Forall_forall. intros bus. by apply (declared_ok parse_json text fields extend).
    + intros bus Hin. split; [by apply (BusOverride_own parse_json text)|]. intros key. by apply own_fields_ok.
  - intros [= <- <-]. exists [], (DeclaredBuses extend). split_and!; [done| |intros bus Hb; by apply elem_of_nil in Hb|done|done].
    split; [done|]. intros E. by rewrite E in Ev.
Qed.

(** What a key of [found] stands for. *)
Record sound_entry (interface_name : Bytes) (request begin : Z) (answers : list (Z * Datagram))
    (entry : Bytes * (Bytes * Endpoint)) : Prop := {
  entry_datagram : exists t d, (t, d) ∈ answers /\ t - begin < 800 /\
    check_info interface_name request d = Some (entry.2.1, ep_address entry.2.2) /\ dg_interface d = ep_interface entry.2.2;
  entry_key : entry.1 = ep_interface entry.2.2 ++ [64] ++ ep_address entry.2.2;
  entry_port : ep_port entry.2.2 = 5000
}.

Lemma record_slave_elem key id endpoint found : forall found' entry,
  record_slave key id endpoint found = Some found' ->
  entry ∈ found' -> entry = (key, (id, endpoint)) \/ entry ∈ found.
Proof.
  induction found as [|[k [old e]] found IH]; intros found' entry H; cbn [record_slave] in H.
  - injection H as <-. rewrite list_elem_of_singleton. by left.
  - destruct (bool_decide (k = key)).
    + destruct (bool_decide (old = id)); [|done]. injection H as <-. by right.
    + destruct (text_ltb key k); [injection H as <-; rewrite (elem_of_cons _ entry); tauto|].
      destruct (record_slave key id endpoint found) as [rest|] eqn:E; [|done]. injection H as <-.
      rewrite !elem_of_cons. intros [->|Hin]; [by right; left|]. destruct (IH rest entry eq_refl Hin); tauto.
Qed.

Lemma discover_elem interface_name request begin answers : forall found found' entry,
  discover interface_name request begin answers found = Some found' -> entry ∈ found' ->
  entry ∈ found \/ sound_entry interface_name request begin answers entry.
Proof.
  assert (forall a l entry, sound_entry interface_name request begin l entry -> sound_entry interface_name request begin (a :: l) entry) as Hmore.
  { intros a l entry [(t & d & Hin & H) Hk Hp]. split; [|done|done]. exists t, d. split; [by apply list_elem_of_further|done]. }
  induction answers as [|[now d] answers IH]; intros found found' entry H Hin; cbn [discover] in H; [injection H as <-; by left|].
  destruct (Z.leb_spec 800 (now - begin)); [injection H as <-; by left|].
  destruct (check_info interface_name request d) as [[id ip]|] eqn:Ec.
  - destruct (record_slave _ id _ found) as [found1|] eqn:Er; [|done].
    destruct (IH _ _ _ H Hin) as [Hin1|Hs]; [|by right; apply Hmore].
    destruct (record_slave_elem _ _ _ _ _ _ Er Hin1) as [->|Hf]; [|by left]. right. split; [|done|done].
    exists now, d. split_and!; [apply list_elem_of_here|done|done|done].
  - destruct (IH _ _ _ H Hin) as [Hf|Hs]; [by left|by right; apply Hmore].
Qed.

(** Every gateway found answered this query in time, from the address it claims, with
    a subnet, a number of channels and an address the adapter can use. *)
Lemma discover_sound interface_name request begin answers endpoints endpoint :
  DiscoverSlaves interface_name request begin answers = Some endpoints -> endpoint ∈ endpoints ->
  ep_port endpoint = 5000 /\ (exists slave, 0 <= slave <= 252 /\ ep_address endpoint = FormatIPv4 [192; 168; 100; slave + 1]) /\
  exists t d, (t, d) ∈ answers /\ t - begin < 800 /\ dg_address d = ep_address endpoint /\ dg_interface d = ep_interface endpoint.
Proof.
  unfold DiscoverSlaves. destruct (discover _ _ _ _ _) as [found|] eqn:E; [|done]. intros [= <-] Hin.
  apply list_elem_of_In, in_map_iff in Hin as ([key [id e]] & <- & Hin). apply list_elem_of_In in Hin.
  destruct (discover_elem _ _ _ _ _ _ _ E Hin) as [Hf|[(t & d & Hd & Ht & Hc & Hi) _ Hp]]; [by apply elem_of_nil in Hf|].
  cbn [fst snd] in *. split; [done|]. unfold check_info in Hc.
  destruct (_ || _ || _ || _); [done|]. destruct (bool_decide_reflect (FormatIPv4 (slice (payload d) 28 4) = dg_address d)) as [Ha|]; [|done].
  cbn [negb] in Hc. destruct (forallb _ _); [done|]. destruct (_ && _); [done|]. destruct (_ || _ || _); [done|].
  destruct (SlaveId (FormatIPv4 (slice (payload d) 28 4))) as [slave|] eqn:Es; [|done]. cbn in Hc. injection Hc as _ <-.
  apply SlaveId_spec in Es as [Hs He]. split; [by exists slave|]. by exists t, d.
Qed.

(** ** Examples *)

Definition example_id : Bytes := replicate 16 9.
Definition example_subscribed : Bytes := <[46%nat := 4]> (<[47%nat := 1]> (gw_packet GW_SUBSCRIBED 7 (Some example_id))).
Definition example_state : Bytes :=
  with_words (gw_packet GW_CAN_STATE 8 (Some example_id)) [0; 1000000; 5000000; 750; 875; 0; 1].

(** The first request is lost, the second is answered. *)
Definition example_subscription : Script :=
  mkScript 7 1000 1000 [mkRound 1000 1000 1000 None; mkRound 1050 1050 1050 None;
                        mkRound 1200 1200 1200 (Some example_subscribed)].
Definition example_configuration : Script :=
  mkScript 8 1210 1210 [mkRound 1210 1210 1210 (Some (gw_packet GW_INFO 8 None)); mkRound 1220 1220 1220 (Some example_state)].

Lemma initialize_contract_witness :
  exists init sent events,
    InitializeCanChannels (fun _ => inl (replicate 8 EthernetTiming.default)) example_subscription [example_configuration] 9 =
      Some (Done init, sent, events) /\ length sent = 3%nat /\
    confirmed example_configuration 0 (identity init) EthernetTiming.default.
Proof.
  eexists _, _, _. split; [vm_compute; reflexivity|]. split; [reflexivity|].
  eassert (InitializeCanChannels (fun _ => inl (replicate 8 EthernetTiming.default)) example_subscription [example_configuration] 9
    = Some (Done (mkInit example_id 1 (replicate 8 EthernetTiming.default)), _, _)) as H by (vm_compute; reflexivity).
  apply initialize_contract in H as [_ H].
  - destruct H as (_ & _ & _ & _ & _ & H & _).
    destruct (H 0%nat EthernetTiming.default) as (s & Hs & Hc); [reflexivity|cbn; lia|]. injection Hs as <-. exact Hc.
  - split; [cbn; lia|]. repeat (first [exact I | apply List.Forall_nil | apply List.Forall_cons]);
      apply byte_ok_cst; reflexivity.
  - apply List.Forall_cons; [|apply List.Forall_nil]. split; [cbn; lia|].
    repeat (first [exact I | apply List.Forall_nil | apply List.Forall_cons]); apply byte_ok_cst; reflexivity.
  - intros count timings [= <-]. split; [reflexivity|].
    repeat (first [apply List.Forall_nil | apply List.Forall_cons]); unfold rates_ok, UINT32_MAX; cbn; lia.
Defined.

(** An event of the gateway on channel 0. *)
Definition example_event (sequence : Z) : Bytes :=
  take 28 (gw_packet GW_CAN_EVENT sequence (Some example_id)) ++ flat_map gw_put32 [sequence * 100; 0; 0] ++ replicate 24 0.

(** A gateway that reports every 100 ms.  While a reconfiguration whose reply comes
    late is serviced, its reports are read and dropped: the loop then finds the
    heartbeat overdue and logs a disconnection of a gateway that never fell silent. *)
Example false_disconnection :
  let reports := map (fun k => mkRound (100 * k) (100 * k) (100 * k) (Some (example_event k))) [1; 2; 3; 4; 5; 6] in
  let slow := mkScript 8 0 0 (reports ++ [mkRound 610 610 610 (Some example_state)]) in
  let s := run_loop 1 example_id (new_loop 0 0)
    [mkIter (Some (0, EthernetTiming.default, slow)) 620 (Some (example_event 7)) 700 700 false] in
  option_map (fun '(outcome, _, events) => (outcome, map ce_sequence events))
    (ConfigureCanChannel 0 EthernetTiming.default example_id slow) = Some (Done tt, [1; 2; 3; 4; 5; 6]) /\
  logs s = [(620, Disconnected); (700, Restored)].
Proof. by vm_compute. Qed.

Definition example_live : Live :=
  mkLive true (<[2 := 8]> (<[3 := 1]> ∅))
    (<[2 := replicate 8 EthernetTiming.default]> (<[3 := replicate 8 EthernetTiming.default]> ∅)).

(** The gateway 2 confirms, the gateway 3 does not. *)
Lemma update_bus_contract_witness :
  let result := UpdateBusExtend example_extend [true; false] example_live in
  result.1 = Some ReconfigureFailed /\ option_map bitrate (live_timing result.2 (2, 5)) = Some 500000 /\
  live_timing result.2 (2, 4) = Some EthernetTiming.default /\
  exists updated rest, DeclaredBuses example_extend = updated ++ rest /\ rest <> [].
Proof.
  cbv zeta. split; [vm_compute; reflexivity|]. split; [vm_compute; reflexivity|]. split; [vm_compute; reflexivity|].
  destruct (update_bus_contract example_parse "{..}" example_fields example_extend [true; false] example_live
    (UpdateBusExtend example_extend [true; false] example_live).1 (UpdateBusExtend example_extend [true; false] example_live).2)
    as (updated & rest & Hd & Herr & _).
  - right. split; [discriminate|reflexivity].
  - vm_compute. reflexivity.
  - vm_compute. reflexivity.
  - unfold live_ok, example_live. cbn [timings_]. apply map_Forall_insert_2; [reflexivity|].
    apply map_Forall_insert_2; [reflexivity|]. apply map_Forall_empty.
  - apply surjective_pairing.
  - exists updated, rest. split; [exact Hd|]. intros ->. assert (H := proj2 Herr eq_refl). vm_compute in H. discriminate.
Defined.
