(* ===== verification/CanHandle.v ===== *)
(** * CanHandle: plugins/adapter/can/can_handle.cc

    The SocketCAN handle: how it is opened, what [Send] hands to the socket and what
    it refuses, how a received frame is decoded, and the receive loop.  The kernel is
    not part of the program: the answers of its calls are inputs ([Turn]), and what a
    socket reads of a frame another one has sent is the parameter [carry] of the
    round trip, with what the code relies on as [kernel_carries].

    The loop reads frames in rounds of at most 64 and other threads may call [Stop] at
    any of its checks.  The theorems show that whatever the rounds and the stops, the
    callback gets the valid frames that were read, decoded, each once and in order. *)
From stdpp Require Import base option list numbers.
From Stdlib Require Import ZArith Lia.
From S2P Require Import Prelude Types.
#[local] Open Scope Z_scope.
#[local] Open Scope cint_scope.

(** ** Constants and frames of linux/can.h *)

Definition CAN_EFF_FLAG : Z := 2147483648.
Definition CAN_RTR_FLAG : Z := 1073741824.
Definition CAN_ERR_FLAG : Z := 536870912.
Definition CAN_SFF_MASK : Z := 2047.
Definition CAN_EFF_MASK : Z := 536870911.
Definition CAN_MTU : Z := 16.
Definition CANFD_MTU : Z := 72.
Definition CAN_MAX_DLEN : Z := 8.
Definition CANFD_MAX_DLEN : Z := 64.
Definition CANFD_BRS : Z := 1.
Definition CANFD_FDF : Z := 4.

Record canfd_frame := mkFd {
  can_id : Z;          (* uint32_t *)
  frame_len : Z;       (* uint8_t *)
  flags : Z;           (* uint8_t *)
  frame_data : list Z  (* uint8_t[64] *)
}.

Record can_frame := mkClassic {
  classic_id : Z;
  classic_len : Z;
  classic_data : list Z  (* uint8_t[8] *)
}.

(** What [send] is given. *)
Inductive Sent := Classic (frame : can_frame) | Fd (frame : canfd_frame).

(** What [recv] has read: the structure and the number of bytes. *)
Record Datagram := mkDatagram { frame : canfd_frame; nbytes : Z }.

(** ** The handle *)

Record CanHandle := mkHandle {
  can_fd_ : Z;
  wake_signalled : bool;      (* the counter of [wake_fd_] is not zero *)
  fd_frames_enabled_ : bool;
  running_ : bool;
  callback_ : bool;           (* whether the function is set *)
  batch_callback_ : bool
}.

Inductive OpenError := NoSocket | NoInterface | NotBound | InvalidFd | NoWakeEvent.

(** A constructor gives a handle, or throws; [closed] are the descriptors it has closed
    by then. *)
Inductive Opened := Handle (h : CanHandle) | Throws (e : OpenError) (closed : list Z).

(** The end of both constructors: [enable_can_fd_frames], [InitializeWakeFd]. *)
Definition finish_open (fd : Z) (enabled wake : bool) : Opened :=
  if negb wake then Throws NoWakeEvent [fd] else Handle (mkHandle fd false enabled true false false).

(** [CanHandle(interface_name)]: [fd] is the answer of [socket], the others say whether
    the call succeeded. *)
Definition open_interface (fd : Z) (index bound enabled wake : bool) : Opened :=
  if fd <? 0 then Throws NoSocket []
  else if negb index then Throws NoInterface [fd]
  else if negb bound then Throws NotBound [fd]
  else finish_open fd enabled wake.

(** [CanHandle(existing_fd)]. *)
Definition open_existing (existing_fd : Z) (enabled wake : bool) : Opened :=
  if existing_fd <? 0 then Throws InvalidFd [] else finish_open existing_fd enabled wake.

Definition Stop (h : CanHandle) : CanHandle :=
  mkHandle (can_fd_ h) true (fd_frames_enabled_ h) false (callback_ h) (batch_callback_ h).

Definition Ok (h : CanHandle) : bool := (0 <=? can_fd_ h) && running_ h.

(** [given] says whether the caller passes a function or an empty one. *)
Definition SetCallback (given : bool) (h : CanHandle) : CanHandle :=
  mkHandle (can_fd_ h) (wake_signalled h) (fd_frames_enabled_ h) (running_ h) given false.
Definition SetBatchCallback (given : bool) (h : CanHandle) : CanHandle :=
  mkHandle (can_fd_ h) (wake_signalled h) (fd_frames_enabled_ h) (running_ h) false given.

(** ** Sending *)

Inductive Refusal := NotOk | InvalidFdBits | TooLong | IdOutOfRange | FdRemoteRequest | FdNotEnabled.

(** A structure of [size] bytes of payload, zeroed, with the first [n] bytes of the
    message. *)
Definition payload (n : Z) (size : nat) (d : list Z) : list Z :=
  take (Z.to_nat n) d ++ replicate (size - Z.to_nat n) 0.

Definition Send (h : CanHandle) (message : MotorMessage) : Refusal + Sent :=
  if negb (Ok h) then inl NotOk
  else
    let msg := mdata message in
    let flags := SanitizeCanFrameFlags (frame_flags msg) in
    if negb (CanFrameFlagsHaveValidCanFdBits flags) then inl InvalidFdBits
    else if 8 <? len msg then inl TooLong
    else
      let extended := CanFrameFlagsUseExtendedId flags in
      let rtr := CanFrameFlagsUseRtr flags in
      let can_fd := CanFrameFlagsUseCanFd flags in
      let max_id := if extended then CAN_EFF_MASK else CAN_SFF_MASK in
      if max_id <? id msg then inl IdOutOfRange
      else
        let can_id := if extended then id msg .| CAN_EFF_FLAG else id msg in
        if can_fd then
          if rtr then inl FdRemoteRequest
          else if negb (fd_frames_enabled_ h) then inl FdNotEnabled
          else inr (Fd (mkFd can_id (len msg) CANFD_BRS (payload (len msg) 64 (data msg))))
        else
          inr (Classic (mkClassic (if rtr then can_id .| CAN_RTR_FLAG else can_id) (len msg)
                          (if rtr then replicate 8 0 else payload (len msg) 8 (data msg)))).

(** [CanAdapter::Send]: [can_handle_] may be null. *)
Definition AdapterOk (handle : option CanHandle) : bool :=
  match handle with Some h => Ok h | None => false end.
Definition AdapterSend (handle : option CanHandle) (message : MotorMessage) : Refusal + Sent :=
  if negb (AdapterOk handle) then inl NotOk
  else match handle with Some h => Send h message | None => inl NotOk end.

(** ** Receiving *)

Definition has (bits flag : Z) : bool := negb (bits .& flag =? 0).

Definition DecodeCanFrame (f : canfd_frame) (nbytes : Z) : MotorPackMsg :=
  let i := if has (can_id f) CAN_EFF_FLAG then can_id f .& CAN_EFF_MASK else can_id f .& CAN_SFF_MASK in
  let fl := (if has (can_id f) CAN_EFF_FLAG then kCanFrameFlagEff else 0) .|
            (if has (can_id f) CAN_RTR_FLAG then kCanFrameFlagRtr else 0) .|
            (if (nbytes =? CANFD_MTU) && has (flags f) CANFD_FDF then kCanFrameFlagFdMask else 0) in
  let fl := SanitizeCanFrameFlags fl in
  let n := u8 (Z.min (frame_len f) 8) in
  mkPack i fl n (if fl .& kCanFrameFlagRtr =? 0 then payload n 8 (frame_data f) else replicate 8 0).

(** The check of the loop, of what is not skipped. *)
Definition valid (d : Datagram) : bool :=
  ((nbytes d =? CAN_MTU) || (nbytes d =? CANFD_MTU)) && negb (has (can_id (frame d)) CAN_ERR_FLAG) &&
  (frame_len (frame d) <=? (if nbytes d =? CAN_MTU then CAN_MAX_DLEN else CANFD_MAX_DLEN)).

Definition message_of (d : Datagram) : MotorMessage := mkMsg 0 (DecodeCanFrame (frame d) (nbytes d)).

(** How one [recv] fails: [EINTR], another error than [EAGAIN], an end of file. *)
Inductive Fault := Interrupted | Failed | EndOfFile.

(** One [recv] of a round: whether another thread has called [Stop] before the check
    of the inner loop, and how the call fails, if it does; otherwise it reads the next
    frame, or finds none ([EAGAIN]). *)
Record Attempt := mkAttempt { stop_here : bool; fault : option Fault }.

Definition stop_if (stop : bool) (h : CanHandle) : CanHandle := if stop then Stop h else h.

Definition kBatchSize : nat := 64.

(** The inner loop; [queue] are the frames that wait in the socket. *)
Fixpoint receive_round (attempts : nat -> Attempt) (i left_ : nat) (h : CanHandle) (queue : list Datagram)
    (messages : MotorMessages) : CanHandle * list Datagram * MotorMessages :=
  match left_ with
  | O => (h, queue, messages)
  | S left_ =>
      let h := stop_if (stop_here (attempts i)) h in
      if negb (running_ h) then (h, queue, messages)
      else
        match fault (attempts i) with
        | Some Interrupted => receive_round attempts (S i) left_ h queue messages
        | Some Failed => (Stop h, queue, messages)
        | Some EndOfFile => (Stop h, queue, messages)
        | None =>
            match queue with
            | [] => (h, [], messages)
            | d :: queue =>
                receive_round attempts (S i) left_ h queue
                  (if valid d then messages ++ [message_of d] else messages)
            end
        end
  end.

Inductive Call := CallBatch (messages : MotorMessages) | CallOne (message : MotorMessage).

Definition deliver (h : CanHandle) (messages : MotorMessages) : list Call :=
  if (length messages =? 0)%nat then []
  else if batch_callback_ h then [CallBatch messages]
  else if callback_ h then map CallOne messages
  else [].

(** One turn of the loop: whether another thread has called [Stop] before the check of
    [while], and what [poll] does.  When it returns: the frames that have arrived, the
    calls of [Stop] before it returns and before the check behind it, the events of the
    socket, and the reads of the round. *)
Inductive Poll :=
| PollInterrupted
| PollFailed
| PollReturned (arrivals : list Datagram) (stop_in_poll stop_behind readable broken : bool) (attempts : nat -> Attempt).
Record Turn := mkTurn { stop_before : bool; poll : Poll }.

(** The loop until it ends or its script does: the handle, the frames left in the
    socket, the calls of the callback, and whether it has ended. *)
Fixpoint Loop (turns : list Turn) (h : CanHandle) (queue : list Datagram) : CanHandle * list Datagram * list Call * bool :=
  match turns with
  | [] => (h, queue, [], false)
  | turn :: turns =>
      let h := stop_if (stop_before turn) h in
      if negb (running_ h) then (Stop h, queue, [], true)
      else
        match poll turn with
        | PollInterrupted => Loop turns h queue
        | PollFailed => (Stop h, queue, [], true)
        | PollReturned arrivals stop_in_poll stop_behind readable broken attempts =>
            let queue := queue ++ arrivals in
            let h := stop_if stop_in_poll h in
            let woken := wake_signalled h in
            let h := stop_if stop_behind h in
            if woken || negb (running_ h) then (Stop h, queue, [], true)
            else
              let '(h, queue, messages) :=
                if readable then receive_round attempts 0 kBatchSize h queue [] else (h, queue, []) in
              let calls := deliver h messages in
              if broken then (Stop h, queue, calls, true)
              else let '(h, queue, later, ended) := Loop turns h queue in (h, queue, calls ++ later, ended)
        end
  end.

(** ** Specification *)

Definition arrivals_of (turn : Turn) : list Datagram :=
  match poll turn with PollReturned arrivals _ _ _ _ _ => arrivals | _ => [] end.

(** The messages of the valid frames. *)
Definition messages_of (l : list Datagram) : MotorMessages := map message_of (List.filter valid l).

Definition call_messages (c : Call) : MotorMessages :=
  match c with CallBatch messages => messages | CallOne message => [message] end.

Definition calls_messages (calls : list Call) : MotorMessages := flat_map call_messages calls.

(** What the receiver of a message gets: bus 0, the bytes behind the length and those
    of a remote request zero. *)
Definition normal (message : MotorMessage) : MotorMessage :=
  let msg := mdata message in
  let fl := SanitizeCanFrameFlags (frame_flags msg) in
  mkMsg 0 (mkPack (id msg) fl (len msg)
    (if CanFrameFlagsUseRtr fl then replicate 8 0 else payload (len msg) 8 (data msg))).

(** The frames of a list of messages, and the messages that were not refused. *)
Definition frames_of (h : CanHandle) (messages : MotorMessages) : list Sent :=
  omap (fun m => match Send h m with inr s => Some s | inl _ => None end) messages.
Definition accepted (h : CanHandle) (m : MotorMessage) : bool :=
  match Send h m with inr _ => true | inl _ => false end.

(** What is relied on of the kernel: a frame is read as it was sent, with [CANFD_FDF]
    exactly on CAN FD frames; a classic frame is read as either of the two sizes. *)
Record kernel_carries (carry : Sent -> Datagram) : Prop := {
  carries_classic f :
    let d := carry (Classic f) in
    (nbytes d = CAN_MTU \/ nbytes d = CANFD_MTU) /\ has (flags (frame d)) CANFD_FDF = false /\
    can_id (frame d) = classic_id f /\ frame_len (frame d) = classic_len f /\
    frame_data (frame d) = classic_data f ++ replicate 56 0;
  carries_fd f :
    let d := carry (Fd f) in
    nbytes d = CANFD_MTU /\ has (flags (frame d)) CANFD_FDF = true /\
    can_id (frame d) = can_id f /\ frame_len (frame d) = frame_len f /\
    frame_data (frame d) = frame_data f
}.

(** ** Opening *)

(** Whatever fails, a descriptor that was opened is closed before the exception. *)
Lemma open_no_leak fd index bound enabled wake e closed :
  open_interface fd index bound enabled wake = Throws e closed \/ open_existing fd enabled wake = Throws e closed ->
  closed = if fd <? 0 then [] else [fd].
Proof.
  unfold open_interface, open_existing, finish_open.
  destruct (fd <? 0), index, bound, wake; cbn; intros [[= <- <-] | [= <- <-]]; done.
Qed.

Lemma open_ok fd enabled h :
  open_existing fd enabled true = Handle h -> Ok h = true /\ callback_ h = false /\ batch_callback_ h = false.
Proof.
  unfold open_existing, finish_open. destruct (Z.ltb_spec fd 0) as [|Hfd]; [done|]. cbn. intros [= <-].
  unfold Ok. cbn. split_and!; [|done..]. rewrite andb_true_r. by apply Z.leb_le.
Qed.

(** ** The identifier word *)
Section CanId.
Context (i : Z) (extended rtr : bool).
Hypothesis (Hrange : 0 <= i <= if extended then CAN_EFF_MASK else CAN_SFF_MASK).

Definition socket_word : Z :=
  let can_id := if extended then i .| CAN_EFF_FLAG else i in
  if rtr then can_id .| CAN_RTR_FLAG else can_id.

Lemma id_masked : i = i .& (if extended then CAN_EFF_MASK else CAN_SFF_MASK).
Proof.
  revert Hrange. destruct extended; unfold CAN_EFF_MASK, CAN_SFF_MASK; intros H; symmetry.
  - rewrite (land_ones_pow i 536870911 29) by lia. apply Z.mod_small. lia.
  - rewrite (land_ones_pow i 2047 11) by lia. apply Z.mod_small. lia.
Qed.

Ltac can_bits :=
  unfold has, socket_word; cbv zeta; rewrite id_masked; unfold CAN_EFF_FLAG, CAN_RTR_FLAG, CAN_ERR_FLAG, CAN_SFF_MASK, CAN_EFF_MASK;
  destruct extended, rtr; rewrite ?Z.land_lor_distr_l, <- ?Z.land_assoc;
  repeat match goal with |- context [Z.land (Zpos ?a) (Zpos ?b)] =>
    let v := eval vm_compute in (Z.land (Zpos a) (Zpos b)) in change (Z.land (Zpos a) (Zpos b)) with v end;
  rewrite ?Z.land_0_r, ?Z.lor_0_l, ?Z.lor_0_r; reflexivity.

Lemma socket_word_eff : has socket_word CAN_EFF_FLAG = extended.
Proof. can_bits. Qed.
Lemma socket_word_rtr : has socket_word CAN_RTR_FLAG = rtr.
Proof. can_bits. Qed.
Lemma socket_word_err : has socket_word CAN_ERR_FLAG = false.
Proof. can_bits. Qed.
Lemma socket_word_id : (if extended then socket_word .& CAN_EFF_MASK else socket_word .& CAN_SFF_MASK) = i.
Proof. can_bits. Qed.
End CanId.

(** ** One frame *)

Lemma payload_app (n : Z) (size more : nat) d :
  0 <= n <= Z.of_nat size -> length d = size ->
  payload n size (d ++ replicate more 0) = payload n size d.
Proof. intros Hn Hd. unfold payload. by rewrite take_app_le by lia. Qed.

Lemma payload_idem (n : Z) (size size' : nat) d :
  (Z.to_nat n <= length d)%nat -> payload n size (payload n size' d) = payload n size d.
Proof.
  intros Hn. unfold payload. rewrite take_app_le by (rewrite length_take; lia). by rewrite take_take, Nat.min_id.
Qed.

Lemma length_payload (n : Z) (size : nat) d :
  0 <= n <= Z.of_nat size -> (Z.to_nat n <= length d)%nat -> length (payload n size d) = size.
Proof. intros. unfold payload. rewrite length_app, length_take, length_replicate. lia. Qed.

(** Sanitised flags in terms of their three readings. *)
Lemma flags_readings fl :
  CanFrameFlagsHaveValidCanFdBits fl = true ->
  SanitizeCanFrameFlags fl =
  SanitizeCanFrameFlags
    ((if CanFrameFlagsUseExtendedId fl then kCanFrameFlagEff else 0) .| (if CanFrameFlagsUseRtr fl then kCanFrameFlagRtr else 0) .|
     (if CanFrameFlagsUseCanFd fl then kCanFrameFlagFdMask else 0)).
Proof.
  unfold CanFrameFlagsHaveValidCanFdBits, CanFrameFlagsUseExtendedId, CanFrameFlagsUseRtr, CanFrameFlagsUseCanFd.
  assert (exists n : nat, (n < 16)%nat /\ SanitizeCanFrameFlags fl = Z.of_nat n) as (n & Hn & ->).
  { exists (Z.to_nat (SanitizeCanFrameFlags fl)). unfold SanitizeCanFrameFlags, kCanFrameFlagMask.
    rewrite (land_ones_pow fl 15 4) by lia. pose proof (Z.mod_pos_bound fl (2 ^ 4)).
    rewrite u8_small by (unfold byte_ok; lia). lia. }
  do 16 (destruct n as [|n]; [by vm_compute|]). lia.
Qed.

(** What decoding gives, from the readings of a word and the flags. *)
Lemma DecodeCanFrame_word i (extended rtr fd : bool) n fl nb d :
  0 <= i <= (if extended then CAN_EFF_MASK else CAN_SFF_MASK) -> 0 <= n <= 8 ->
  (nb =? CANFD_MTU) && has fl CANFD_FDF = fd ->
  DecodeCanFrame (mkFd (socket_word i extended rtr) n fl d) nb =
  mkPack i
    (SanitizeCanFrameFlags ((if extended then kCanFrameFlagEff else 0) .| (if rtr then kCanFrameFlagRtr else 0) .|
                            (if fd then kCanFrameFlagFdMask else 0)))
    n (if rtr then replicate 8 0 else payload n 8 d).
Proof.
  intros Hi Hn Hfd. unfold DecodeCanFrame. cbn [can_id flags frame_len frame_data].
  rewrite socket_word_eff, socket_word_rtr, socket_word_id, Hfd by done. replace (Z.min n 8) with n by lia.
  rewrite u8_small by (unfold byte_ok; lia). f_equal. by destruct extended, rtr, fd.
Qed.

(** The conditions under which a message is handed to the socket. *)
Lemma Send_ok h m s :
  Send h m = inr s ->
  let msg := mdata m in
  let fl := SanitizeCanFrameFlags (frame_flags msg) in
  let w := socket_word (id msg) (CanFrameFlagsUseExtendedId fl) (CanFrameFlagsUseRtr fl) in
  Ok h = true /\ CanFrameFlagsHaveValidCanFdBits fl = true /\ len msg <= 8 /\
  id msg <= (if CanFrameFlagsUseExtendedId fl then CAN_EFF_MASK else CAN_SFF_MASK) /\
  if CanFrameFlagsUseCanFd fl
  then CanFrameFlagsUseRtr fl = false /\ fd_frames_enabled_ h = true /\
       s = Fd (mkFd w (len msg) CANFD_BRS (payload (len msg) 64 (data msg)))
  else s = Classic (mkClassic w (len msg) (if CanFrameFlagsUseRtr fl then replicate 8 0 else payload (len msg) 8 (data msg))).
Proof.
  unfold Send. cbv zeta. destruct (Ok h); cbn [negb]; [|done]. set (fl := SanitizeCanFrameFlags _).
  destruct (CanFrameFlagsHaveValidCanFdBits fl); cbn [negb]; [|done].
  destruct (Z.ltb_spec 8 (len (mdata m))); [done|].
  destruct (Z.ltb_spec (if CanFrameFlagsUseExtendedId fl then CAN_EFF_MASK else CAN_SFF_MASK) (id (mdata m))); [done|].
  unfold socket_word. destruct (CanFrameFlagsUseCanFd fl), (CanFrameFlagsUseRtr fl), (fd_frames_enabled_ h); cbn [negb]; try done.
  all: intros [= <-]; done.
Qed.

(** A frame that was handed to a socket is valid where it is read, and decodes to the
    message. *)
Lemma carried_message carry h m s :
  kernel_carries carry -> pack_wf (mdata m) -> Send h m = inr s ->
  valid (carry s) = true /\ message_of (carry s) = normal m.
Proof.
  intros [Hc Hf] (Hid & _ & Hlen & Hdl & _) (_ & Hbits & Hl & Hi & Hs)%Send_ok.
  set (fl := SanitizeCanFrameFlags (frame_flags (mdata m))) in *. unfold byte_ok in Hlen.
  assert (0 <= id (mdata m) <= (if CanFrameFlagsUseExtendedId fl then CAN_EFF_MASK else CAN_SFF_MASK)) as Hrange by (split; [lia|done]).
  assert (forall d,
    (nbytes d = CAN_MTU \/ nbytes d = CANFD_MTU) ->
    can_id (frame d) = socket_word (id (mdata m)) (CanFrameFlagsUseExtendedId fl) (CanFrameFlagsUseRtr fl) ->
    frame_len (frame d) = len (mdata m) -> valid d = true) as valid_at.
  { intros d Hn Hw Hd. unfold valid. rewrite Hw, Hd, socket_word_err by done. destruct Hn as [-> | ->]; cbn; apply Z.leb_le; unfold CAN_MAX_DLEN, CANFD_MAX_DLEN; lia. }
  unfold message_of, normal. cbv zeta. fold fl.
  pose proof (flags_readings fl Hbits) as Hread.
  replace (SanitizeCanFrameFlags fl) with fl in Hread by (unfold fl; by rewrite sanitize_idem).
  destruct (CanFrameFlagsUseCanFd fl) eqn:Efd.
  - destruct Hs as (Hrtr & Hen & ->). destruct (Hf (mkFd (socket_word (id (mdata m)) (CanFrameFlagsUseExtendedId fl) (CanFrameFlagsUseRtr fl)) (len (mdata m)) CANFD_BRS (payload (len (mdata m)) 64 (data (mdata m))))) as (Hn & Hfdf & Hw & Hd & Hdata).
    split; [apply valid_at; auto|]. destruct (carry _) as [[w n fl' d] nb].
    cbn [frame nbytes flags can_id frame_len frame_data classic_id classic_len classic_data] in *. subst. f_equal.
    erewrite DecodeCanFrame_word by first [done | lia | by rewrite Hfdf]. f_equal; [by symmetry|].
    rewrite payload_idem by lia. done.
  - subst s. destruct (Hc (mkClassic (socket_word (id (mdata m)) (CanFrameFlagsUseExtendedId fl) (CanFrameFlagsUseRtr fl)) (len (mdata m)) (if CanFrameFlagsUseRtr fl then replicate 8 0 else payload (len (mdata m)) 8 (data (mdata m))))) as (Hn & Hfdf & Hw & Hd & Hdata).
    split; [apply valid_at; auto|]. destruct (carry _) as [[w n fl' d] nb].
    cbn [frame nbytes flags can_id frame_len frame_data classic_id classic_len classic_data] in *. subst. f_equal.
    erewrite DecodeCanFrame_word with (fd := false) by first [done | lia | by rewrite Hfdf, andb_false_r]. f_equal; [by symmetry|].
    destruct (CanFrameFlagsUseRtr fl); [done|].
    rewrite payload_app by (rewrite ?length_payload; lia). rewrite payload_idem by lia. done.
Qed.

(** ** The loop *)

Definition same_callbacks (h h' : CanHandle) : Prop :=
  callback_ h' = callback_ h /\ batch_callback_ h' = batch_callback_ h.

Lemma stop_if_callbacks stop h : same_callbacks h (stop_if stop h).
Proof. by destruct stop. Qed.
Lemma same_callbacks_trans h1 h2 h3 : same_callbacks h1 h2 -> same_callbacks h2 h3 -> same_callbacks h1 h3.
Proof. intros [? ?] [? ?]. split; congruence. Qed.

Lemma messages_of_app l l' : messages_of (l ++ l') = messages_of l ++ messages_of l'.
Proof. unfold messages_of. by rewrite List.filter_app, map_app. Qed.

Lemma messages_of_cons d l : messages_of (d :: l) = (if valid d then [message_of d] else []) ++ messages_of l.
Proof. unfold messages_of. cbn. by destruct (valid d). Qed.

(** A round takes frames from the front of the queue, at most [left_]. *)
Lemma receive_round_spec attempts left_ : forall i h queue messages,
  let '(h', queue', messages') := receive_round attempts i left_ h queue messages in
  exists consumed, queue = consumed ++ queue' /\ messages' = messages ++ messages_of consumed /\
    (length consumed <= left_)%nat /\ same_callbacks h h'.
Proof.
  assert (forall (h h' : CanHandle) (queue : list Datagram) (messages : MotorMessages) n, same_callbacks h h' ->
    exists consumed, queue = consumed ++ queue /\ messages = messages ++ messages_of consumed /\ (length consumed <= n)%nat /\ same_callbacks h h') as Hnone.
  { intros. exists []. rewrite app_nil_r. split_and!; [done|done|cbn; lia|done]. }
  induction left_ as [|left_ IH]; intros i h queue messages; cbn; [by apply Hnone|].
  set (h1 := stop_if _ h). assert (same_callbacks h h1) as H1 by apply stop_if_callbacks.
  destruct (running_ h1); cbn; [|by apply Hnone].
  destruct (fault (attempts i)) as [[]|].
  - specialize (IH (S i) h1 queue messages). destruct (receive_round _ _ _ _ _ _) as [[h' queue'] messages'].
    destruct IH as (c & ? & ? & ? & ?). exists c. split_and!; [done|done|lia|by eapply same_callbacks_trans].
  - apply Hnone. by eapply same_callbacks_trans.
  - apply Hnone. by eapply same_callbacks_trans.
  - destruct queue as [|d queue]; [by apply Hnone|].
    specialize (IH (S i) h1 queue (if valid d then messages ++ [message_of d] else messages)).
    destruct (receive_round _ _ _ _ _ _) as [[h' queue'] messages']. destruct IH as (c & -> & -> & ? & ?).
    exists (d :: c). rewrite messages_of_cons. split_and!; [done| |cbn; lia|by eapply same_callbacks_trans].
    destruct (valid d); [by rewrite <- app_assoc|done].
Qed.

Lemma messages_of_length l : (length (messages_of l) <= length l)%nat.
Proof. unfold messages_of. rewrite length_map. apply List.filter_length_le. Qed.

(** A call of the batch callback has 1 to 64 messages. *)
Definition batch_ok (c : Call) : Prop :=
  match c with CallBatch messages => (1 <= length messages <= kBatchSize)%nat | CallOne _ => True end.

Lemma deliver_calls h messages :
  (length messages <= kBatchSize)%nat ->
  calls_messages (deliver h messages) = (if batch_callback_ h || callback_ h then messages else []) /\
  Forall batch_ok (deliver h messages).
Proof.
  intros Hn. unfold deliver. destruct messages as [|m messages]; cbn [length Nat.eqb].
  { split; [by destruct (_ || _)|done]. }
  destruct (batch_callback_ h); cbn [orb].
  { unfold calls_messages. cbn [flat_map call_messages]. rewrite app_nil_r. split; [done|]. apply list.Forall_cons; split; [|done]. cbn in *. lia. }
  destruct (callback_ h); [|by split]. split.
  - generalize (m :: messages). intros l. unfold calls_messages. induction l as [|x l IHl]; cbn; [done|]. by rewrite IHl.
  - generalize (m :: messages). intros l. induction l; cbn; [done|]. by apply list.Forall_cons; split.
Qed.

(** A call of [Stop] outside a round. *)
Definition stopped_at (turn : Turn) : bool :=
  stop_before turn ||
  match poll turn with PollReturned _ stop_in_poll stop_behind _ _ _ => stop_in_poll || stop_behind | _ => false end.

Lemma stopped_wakes stop_in_poll stop_behind h :
  stop_in_poll || stop_behind = true ->
  wake_signalled (stop_if stop_in_poll h) || negb (running_ (stop_if stop_behind (stop_if stop_in_poll h))) = true.
Proof. destruct stop_in_poll, stop_behind; cbn; try done. intros _. apply orb_true_r. Qed.

Definition Delivered (turns : list Turn) (h : CanHandle) (queue : list Datagram)
    (r : CanHandle * list Datagram * list Call * bool) : Prop :=
  let '(h', queue', calls, ended) := r in
  (exists consumed later,
     queue ++ flat_map arrivals_of turns = consumed ++ queue' ++ later /\ (ended = false -> later = []) /\
     calls_messages calls = if batch_callback_ h || callback_ h then messages_of consumed else []) /\
  Forall batch_ok calls /\ (ended = true -> running_ h' = false) /\ (existsb stopped_at turns = true -> ended = true).

Lemma ended_delivered turns h h' queue arrivals more :
  flat_map arrivals_of turns = arrivals ++ more -> Delivered turns h queue (Stop h', queue ++ arrivals, [], true).
Proof.
  intros Ha. split_and!; [|done|done|done]. exists [], more. rewrite Ha. split_and!; [by rewrite <- app_assoc|done|].
  by destruct (_ || _).
Qed.

(** One round in front of what the rest of the loop does. *)
Lemma round_delivered turn turns h h' queue queue1 arrivals consumed calls r :
  arrivals_of turn = arrivals -> stopped_at turn = false -> queue ++ arrivals = consumed ++ queue1 ->
  same_callbacks h h' ->
  calls_messages calls = (if batch_callback_ h || callback_ h then messages_of consumed else []) -> Forall batch_ok calls ->
  Delivered turns h' queue1 r ->
  Delivered (turn :: turns) h queue (let '(h2, queue2, later, ended) := r in (h2, queue2, calls ++ later, ended)).
Proof.
  intros Ha Hs Hq (Hcb & Hb) Hc Hok. destruct r as [[[h2 queue2] later] ended].
  intros ((consumed' & rest & Hq' & Hend & Hc') & Hok' & Hrun & Hstop). split_and!.
  - exists (consumed ++ consumed'), rest. split_and!; [|done|].
    + cbn. rewrite Ha, app_assoc, Hq, <- !app_assoc. f_equal. done.
    + unfold calls_messages in *. rewrite flat_map_app, Hc, Hc', Hb, Hcb, messages_of_app. by destruct (_ || _).
  - by apply Forall_app.
  - done.
  - cbn. by rewrite Hs.
Qed.

Lemma Loop_delivers turns : forall h queue, Delivered turns h queue (Loop turns h queue).
Proof.
  induction turns as [|turn turns IH]; intros h queue.
  { split_and!; [|done..]. exists [], []. cbn. rewrite !app_nil_r. split_and!; [done..|]. by destruct (_ || _). }
  cbn [Loop]. set (h1 := stop_if (stop_before turn) h).
  assert (same_callbacks h h1) as H1 by apply stop_if_callbacks.
  destruct (running_ h1) eqn:Hrun; cbn [negb].
  2: { rewrite <- (app_nil_r queue) at 2. by eapply ended_delivered. }
  assert (stop_before turn = false) as Hbefore by (destruct turn as [[] ?]; cbn in *; congruence).
  destruct (poll turn) as [| |arrivals stop_in_poll stop_behind readable broken attempts] eqn:Hpoll.
  - pose proof (round_delivered turn turns h h1 queue queue [] [] [] (Loop turns h1 queue)) as H.
    destruct (Loop turns h1 queue) as [[[h2 queue2] later] ended] eqn:E. apply H; try done.
    + unfold arrivals_of. by rewrite Hpoll.
    + unfold stopped_at. by rewrite Hpoll, Hbefore.
    + by rewrite app_nil_r.
    + by destruct (_ || _).
    + rewrite <- E. apply IH.
  - rewrite <- (app_nil_r queue) at 2. by eapply ended_delivered.
  - set (h2 := stop_if stop_in_poll h1). set (h3 := stop_if stop_behind h2).
    assert (same_callbacks h h3) as H3.
    { eapply same_callbacks_trans; [done|]. eapply same_callbacks_trans; apply stop_if_callbacks. }
    destruct (wake_signalled h2 || negb (running_ h3)) eqn:Hwake.
    { eapply ended_delivered. cbn. unfold arrivals_of at 1. by rewrite Hpoll. }
    assert (stopped_at turn = false) as Hstopped.
    { unfold stopped_at. rewrite Hpoll, Hbefore. cbn. apply not_true_is_false. intros Hst.
      apply (stopped_wakes _ _ h1) in Hst. unfold h3, h2 in Hwake. congruence. }
    assert (exists consumed queue1 messages h4,
      (if readable then receive_round attempts 0 kBatchSize h3 (queue ++ arrivals) [] else (h3, queue ++ arrivals, [])) =
        (h4, queue1, messages) /\ queue ++ arrivals = consumed ++ queue1 /\ messages = messages_of consumed /\
      (length consumed <= kBatchSize)%nat /\ same_callbacks h h4) as (consumed & queue1 & messages & h4 & -> & Hq & -> & Hn & H4).
    { destruct readable.
      - pose proof (receive_round_spec attempts kBatchSize 0 h3 (queue ++ arrivals) []) as H.
        destruct (receive_round _ _ _ _ _ _) as [[h4 queue1] messages]. destruct H as (c & ? & ? & ? & ?).
        exists c, queue1, messages, h4. split_and!; try done. by eapply same_callbacks_trans.
      - exists [], (queue ++ arrivals), [], h3. split_and!; try done. cbn. lia. }
    destruct (deliver_calls h4 (messages_of consumed)) as (Hc & Hok). { pose proof (messages_of_length consumed). lia. }
    destruct H4 as (Hcb & Hb). rewrite Hcb, Hb in Hc.
    assert (arrivals_of turn = arrivals) as Harr by (unfold arrivals_of; by rewrite Hpoll).
    destruct broken.
    + split_and!; [|done|done|cbn; by rewrite Hstopped].
      exists consumed, (flat_map arrivals_of turns). cbn. rewrite Harr, app_assoc, Hq, <- app_assoc. done.
    + apply (round_delivered turn turns h h4 queue queue1 arrivals consumed _ (Loop turns h4 queue1)); done || apply IH.
Qed.

(** ** From one handle to another *)

Lemma frames_of_accepted h messages :
  exists f : MotorMessage -> Sent,
    frames_of h messages = map f (List.filter (accepted h) messages) /\
    forall m, m ∈ List.filter (accepted h) messages -> Send h m = inr (f m).
Proof.
  exists (fun m => match Send h m with inr s => s | inl _ => Classic (mkClassic 0 0 []) end). split.
  - unfold frames_of, accepted. induction messages as [|m messages IH]; [done|]. cbn. destruct (Send h m) eqn:E; cbn; [done|]. rewrite E. f_equal. apply IH.
  - intros m. rewrite list_elem_of_In, List.filter_In. intros (_ & H). unfold accepted in H. by destruct (Send h m).
Qed.

Lemma messages_of_carried carry h (f : MotorMessage -> Sent) l :
  kernel_carries carry -> Forall (fun m => pack_wf (mdata m)) l -> (forall m, m ∈ l -> Send h m = inr (f m)) ->
  messages_of (map (fun m => carry (f m)) l) = map normal l.
Proof.
  intros Hk. induction l as [|m l IH]; intros Hwf Hf; [done|]. apply list.Forall_cons in Hwf as [Hm Hl].
  destruct (carried_message carry h m (f m) Hk Hm) as (Hv & Hmsg). { apply Hf. by left. }
  cbn [map]. rewrite messages_of_cons, Hv, Hmsg, IH; [done|done|]. intros x Hx. apply Hf. by right.
Qed.

(** C38: Two SocketCAN handles on a bus, whatever the loop of the receiver meets (poll and
    read errors, rounds of any size, stops from other threads at any point): the batch
    callback gets, in order and once each, the messages the sender's [Send] accepted,
    with flags, identifier, length and payload intact, in batches of 1 to 64; what it
    has not delivered is still in the socket, or the loop has ended.  An ended loop
    leaves the handle not ok, and a [Stop] between two rounds ends it. *)
Theorem can_roundtrip carry sender messages receiver turns :
  kernel_carries carry -> Forall (fun m => pack_wf (mdata m)) messages ->
  batch_callback_ receiver = true ->
  flat_map arrivals_of turns = map carry (frames_of sender messages) ->
  let '(h, queue, calls, ended) := Loop turns receiver [] in
  exists got rest,
    List.filter (accepted sender) messages = got ++ rest /\
    calls_messages calls = map normal got /\ Forall batch_ok calls /\
    (ended = false -> queue = map carry (frames_of sender rest)) /\
    (ended = true -> Ok h = false) /\ (existsb stopped_at turns = true -> ended = true).
Proof.
  intros Hk Hwf Hb Ha. pose proof (Loop_delivers turns receiver []) as Hl.
  destruct (Loop turns receiver []) as [[[h queue] calls] ended].
  destruct Hl as ((consumed & later & Hq & Hend & Hc) & Hok & Hrun & Hstop).
  destruct (frames_of_accepted sender messages) as (f & Hf & Hsend).
  cbn [app] in Hq. rewrite Ha, Hf, map_map in Hq. apply map_eq_app in Hq as (got & rest & Hsplit & Hgot & Hrest).
  exists got, rest. rewrite Hsplit in Hsend.
  assert (Forall (fun m => pack_wf (mdata m)) got) as Hwf'.
  { rewrite list.Forall_forall in Hwf. apply list.Forall_forall. intros m Hm. apply Hwf.
    assert (m ∈ List.filter (accepted sender) messages) as Hin by (rewrite Hsplit, elem_of_app; by left).
    rewrite list_elem_of_In, List.filter_In in Hin. rewrite list_elem_of_In. by destruct Hin. }
  split_and!; [done| |done| | |done].
  - rewrite Hc, Hb, <- Hgot. cbn [orb]. apply (messages_of_carried carry sender f); [done..|]. intros m Hm. apply Hsend. rewrite elem_of_app. by left.
  - intros He. rewrite (Hend He), app_nil_r in Hrest. rewrite <- Hrest, <- map_map. f_equal.
    unfold frames_of. assert (forall m, m ∈ rest -> Send sender m = inr (f m)) as Hr. { intros m Hm. apply Hsend. rewrite elem_of_app. by right. }
    clear - Hr. induction rest as [|m rest IH]; [done|]. cbn. rewrite (Hr m) by (by left). f_equal. apply IH. intros x Hx. apply Hr. by right.
  - intros He. unfold Ok. rewrite (Hrun He). apply andb_false_r.
Qed.

Definition example_carry (s : Sent) : Datagram :=
  match s with
  | Classic f => mkDatagram (mkFd (classic_id f) (classic_len f) 0 (classic_data f ++ replicate 56 0)) CAN_MTU
  | Fd f => mkDatagram (mkFd (can_id f) (frame_len f) (flags f .| CANFD_FDF) (frame_data f)) CANFD_MTU
  end.

Lemma example_carries : kernel_carries example_carry.
Proof.
  split; intros f; cbn; [by auto|]. split_and!; try done.
  unfold has. rewrite negb_true_iff, Z.eqb_neq. intros H. pose proof (f_equal (fun z => Z.testbit z 2) H) as H2.
  cbv beta in H2. rewrite Z.land_spec, Z.lor_spec in H2. cbn [CANFD_FDF Z.testbit Pos.testbit] in H2. by rewrite orb_true_r in H2.
Qed.

Definition example_handle : CanHandle := SetBatchCallback true (mkHandle 3 false true true false false).

(** A classic frame, an identifier too large for its frame, a CAN FD frame and a remote
    request. *)
Definition example_messages : MotorMessages :=
  [mkMsg 0 (mkPack 291 0 3 [1; 2; 3; 4; 0; 0; 0; 0]); mkMsg 0 (mkPack 4096 0 1 [9; 0; 0; 0; 0; 0; 0; 0]);
   mkMsg 1 (mkPack 74565 7 8 [1; 2; 3; 4; 5; 6; 7; 8]); mkMsg 0 (mkPack 5 8 4 [1; 1; 1; 1; 0; 0; 0; 0])].

(** The first read is interrupted, and the round ends when nothing is left. *)
Definition example_turns : list Turn :=
  [mkTurn false PollInterrupted;
   mkTurn false (PollReturned (map example_carry (frames_of example_handle example_messages)) false false true false
     (fun i => mkAttempt false (if (i =? 0)%nat then Some Interrupted else None)))].

Example example_loop :
  Loop example_turns example_handle [] =
  (example_handle, [],
   [CallBatch [mkMsg 0 (mkPack 291 0 3 [1; 2; 3; 0; 0; 0; 0; 0]); mkMsg 0 (mkPack 74565 7 8 [1; 2; 3; 4; 5; 6; 7; 8]);
               mkMsg 0 (mkPack 5 8 4 [0; 0; 0; 0; 0; 0; 0; 0])]], false).
Proof. by vm_compute. Qed.

Lemma can_roundtrip_witness :
  exists got rest,
    List.filter (accepted example_handle) example_messages = got ++ rest /\
    calls_messages (Loop example_turns example_handle []).1.2 = map normal got.
Proof.
  pose proof (can_roundtrip example_carry example_handle example_messages example_handle example_turns example_carries) as H.
  assert (Forall (fun m => pack_wf (mdata m)) example_messages) as Hwf.
  { repeat (apply Forall_cons_2 || apply Forall_nil_2); unfold pack_wf, byte_ok; cbn; split_and!; try lia; bytes_ok. }
  specialize (H Hwf eq_refl eq_refl).
  destruct (Loop example_turns example_handle []) as [[[h queue] calls] ended].
  destruct H as (got & rest & Hs & Hc & _). by exists got, rest.
Defined.
