(* ===== verification/CanSetup.v ===== *)
(** * CanSetup: plugins/adapter/can/can_socket_setup.cc

    How a SocketCAN interface is brought to its bit timing: the text of [ip -details
    link show] is searched with regular expressions, compared with the target, and the
    interface is set up by three [ip] commands and checked again.  The same timing
    travels to the broker process as a text, written by [FormatCanTiming] and read by
    [ParseCanTiming].

    Texts are lists of character codes.  The regular expressions are data ([Piece])
    for one backtracking matcher, in the order of preference of ECMAScript.  The [ip]
    program and the kernel are the parameter [ip]: what a command prints and does to the
    state [W] of the machine. *)
From stdpp Require Import base strings option list numbers.
From Stdlib Require Import ZArith Lia.
From Stdlib Require Import SpecFloat.
From S2P Require Import Prelude CFloat AdapterExtend CText BusTiming.
#[local] Open Scope Z_scope.
#[local] Open Scope cint_scope.

#[local] Arguments chars s%_string.

(** ** Regular expressions *)

(** [Repeat] is one or more ([plus]) or any number of characters of a class, greedy;
    what a capturing piece matches is the group 1 of the expression. *)
Inductive Piece :=
| Literal (s : Text)
| Boundary
| Repeat (plus : bool) (class : Z -> bool)
| CaptureRepeat (class : Z -> bool)
| CaptureOne (s1 s2 : Text).

Definition is_word (c : Z) : bool :=
  is_digit c || ((65 <=? c) && (c <=? 90)) || ((97 <=? c) && (c <=? 122)) || (c =? 95).
Definition is_number (c : Z) : bool := is_digit c || (c =? 46).
Definition not_greater (c : Z) : bool := negb (c =? 62).

Definition word_at (c : option Z) : bool := match c with Some c => is_word c | None => false end.

(** The text behind a prefix, and the last character of the prefix. *)
Fixpoint strip (s : Text) (prev : option Z) (text : Text) : option (option Z * Text) :=
  match s, text with
  | [], _ => Some (prev, text)
  | c :: s, d :: text => if c =? d then strip s (Some d) text else None
  | _, [] => None
  end.

(** As many characters of the class as can be, then fewer, until [k] accepts. *)
Fixpoint greedy {R} (class : Z -> bool) (k : Text -> option Z -> Text -> option R) (taken : Text) (prev : option Z) (text : Text)
    : option R :=
  match text with
  | c :: rest =>
      if class c then
        match greedy class k (taken ++ [c]) (Some c) rest with
        | Some r => Some r
        | None => k taken prev text
        end
      else k taken prev text
  | [] => k taken prev text
  end.

Definition at_least_one {R} (k : Text -> option Z -> Text -> option R) (taken : Text) (prev : option Z) (text : Text) : option R :=
  if (length taken =? 0)%nat then None else k taken prev text.

(** A match at the front of a text: the captured text. *)
Fixpoint match_here (pieces : list Piece) (captured : Text) (prev : option Z) (text : Text) : option Text :=
  match pieces with
  | [] => Some captured
  | Literal s :: pieces =>
      match strip s prev text with Some (prev, text) => match_here pieces captured prev text | None => None end
  | Boundary :: pieces =>
      if negb (Bool.eqb (word_at prev) (word_at (head text))) then match_here pieces captured prev text else None
  | Repeat plus class :: pieces =>
      let k (_ : Text) := match_here pieces captured in
      greedy class (if plus then at_least_one k else k) [] prev text
  | CaptureRepeat class :: pieces => greedy class (at_least_one (match_here pieces)) [] prev text
  | CaptureOne s1 s2 :: pieces =>
      let try_ s := match strip s prev text with Some (prev, text) => match_here pieces s prev text | None => None end in
      match try_ s1 with Some r => Some r | None => try_ s2 end
  end.

(** [std::regex_search]: the leftmost match. *)
Fixpoint search_from (pieces : list Piece) (prev : option Z) (text : Text) : option Text :=
  match match_here pieces [] prev text with
  | Some r => Some r
  | None => match text with [] => None | c :: rest => search_from pieces (Some c) rest end
  end.

Definition regex_search (pieces : list Piece) (text : Text) : option Text := search_from pieces None text.

Definition state_regex : list Piece :=
  [Boundary; Literal (chars "state"); Repeat true is_space; CaptureOne (chars "UP") (chars "DOWN"); Boundary].
Definition bitrate_regex : list Piece :=
  [Boundary; Literal (chars "bitrate"); Repeat true is_space; CaptureRepeat is_digit; Boundary].
Definition sample_point_regex : list Piece :=
  [Boundary; Literal (chars "sample-point"); Repeat true is_space; CaptureRepeat is_number; Boundary].
Definition fd_regex : list Piece :=
  [Boundary; Literal (chars "fd"); Repeat true is_space; CaptureOne (chars "on") (chars "off"); Boundary].
Definition dbitrate_regex : list Piece :=
  [Boundary; Literal (chars "dbitrate"); Repeat true is_space; CaptureRepeat is_digit; Boundary].
Definition dsample_point_regex : list Piece :=
  [Boundary; Literal (chars "dsample-point"); Repeat true is_space; CaptureRepeat is_number; Boundary].
Definition up_regex : list Piece :=
  [Literal (chars "<"); Repeat false not_greater; Boundary; Literal (chars "UP"); Boundary; Repeat false not_greater;
   Literal (chars ">")].
Definition can_fd_regex : list Piece :=
  [Boundary; Literal (chars "can"); Repeat true is_space; Literal (chars "<"); Repeat false not_greater; Boundary;
   Literal (chars "FD"); Boundary; Repeat false not_greater; Literal (chars ">")].

(** ** Numbers in texts *)

(** The double nearest to the quotient of two integers. *)
Definition nearest (negative : bool) (num den : Z) : F64.t :=
  match num, den with
  | Zpos n, 1 => binary_round 53 1024 negative n 0
  | Zpos n, Zpos d => SFdiv 53 1024 (S754_finite negative n 0) (S754_finite false d 0)
  | _, _ => S754_zero negative
  end.

(** [errno] is [ERANGE]: the value is too large for a double, or below its smallest
    normal number and not exactly a double. *)
Definition range_error (x : F64.t) (num den : Z) : bool :=
  match x with
  | S754_infinity _ => true
  | S754_zero _ => negb (num =? 0)
  | S754_finite _ m e => (Zpos m <? 2 ^ 52) && negb (Zpos m * den =? num * 2 ^ (- e))
  | S754_nan => false
  end.

(** [digits [. digits]], with a digit on either side: the value as a quotient. *)
Definition scan_mantissa (digit : Z -> option Z) (base : Z) (text : Text) : option (Z * Z * Text) :=
  let (whole, rest) := digits_of digit text in
  let (fraction, rest') :=
    match rest with
    | c :: after => if c =? 46 then digits_of digit after else ([], rest)
    | [] => ([], rest)
    end in
  if (length (whole ++ fraction) =? 0)%nat then None
  else Some (value_of base (whole ++ fraction), base ^ Z.of_nat (length fraction), rest').

(** The exponent behind the letter [mark] (given in lower case); nothing is none. *)
Definition scan_exponent (mark : Z) (text : Text) : option Z :=
  match text with
  | [] => Some 0
  | c :: rest =>
      if (c =? mark) || (c =? mark - 32) then
        let '(sign, rest) := match rest with
                             | 45 :: rest' => (-1, rest')
                             | 43 :: rest' => (1, rest')
                             | _ => (1, rest)
                             end in
        let (ds, rest) := digits_of decimal_digit rest in
        if (length ds =? 0)%nat || negb (length rest =? 0)%nat then None else Some (sign * value_of 10 ds)
      else None
  end.

(** What [strtod] reads as one finite number to the end of the text: a decimal or, behind
    [0x], a hexadecimal number; the exact quotient. *)
Definition scan_double (text : Text) : option (bool * Z * Z) :=
  let (negative, text) := scan_sign (skip_spaces text) in
  let finish base digit mark power text :=
    match scan_mantissa digit base text with
    | None => None
    | Some (num, den, rest) =>
        match scan_exponent mark rest with
        | None => None
        | Some e => Some (negative, num * power ^ Z.max 0 e, den * power ^ Z.max 0 (- e))
        end
    end in
  match text with
  | 48 :: x :: rest => if x .| 32 =? 120 then finish 16 hex_digit 112 2 rest else finish 10 decimal_digit 101 10 text
  | _ => finish 10 decimal_digit 101 10 text
  end.

(** [ParseFiniteDouble]: infinities and NaN are texts of [strtod] too, and refused. *)
Definition ParseFiniteDouble (field : Text) : option F64.t :=
  match scan_double field with
  | None => None
  | Some (negative, num, den) =>
      let x := nearest negative num den in
      if range_error x num den then None else Some x
  end.

(** [std::stoi] of a text of digits, and [std::stod] of one of digits and points, with 0
    where they throw. *)
Definition stoi_or_zero (text : Text) : Z :=
  let v := value_of 10 (fst (digits_of decimal_digit text)) in if INT_MAX <? v then 0 else v.

Definition stod_or_zero (text : Text) : F64.t :=
  match scan_mantissa decimal_digit 10 text with
  | None => S754_zero false
  | Some (num, den, _) =>
      let x := nearest false num den in if range_error x num den then S754_zero false else x
  end.

(** [%f]: six decimals, rounded to nearest, halfway cases to even. *)
Definition round_half_even (num den : Z) : Z :=
  let q := num / den in
  let r := num mod den in
  if 2 * r <? den then q
  else if den <? 2 * r then q + 1
  else if Z.even q then q else q + 1.

Definition six_digits (n : Z) : Text :=
  map (fun p => 48 + n / p mod 10) [100000; 10000; 1000; 100; 10; 1].

(** A double has at most 309 digits in front of the point. *)
Definition to_text (x : F64.t) : Text :=
  match x with
  | S754_zero s => (if s then [45] else []) ++ chars "0.000000"
  | S754_infinity s => (if s then [45] else []) ++ chars "inf"
  | S754_nan => chars "nan"
  | S754_finite s m e =>
      let scaled := round_half_even (Zpos m * 1000000 * 2 ^ Z.max 0 e) (2 ^ Z.max 0 (- e)) in
      (if s then [45] else []) ++ decimal_loop 310 (scaled / 1000000) ++ [46] ++ six_digits (scaled mod 1000000)
  end.

(** ** The interface *)

Record CanInterfaceConfig := mkConfig {
  up : bool;
  fd_on : bool;
  config_bitrate : Z;
  config_sample_point : F64.t;
  config_dbitrate : Z;
  config_dsample_point : F64.t
}.

Definition first_line (text : Text) : Text :=
  match split_at 10 text with Some (line, _) => line | None => text end.

Definition found (r : option Text) : bool := match r with Some _ => true | None => false end.

Definition ParseCanDetails (ip_details_output : Text) : CanInterfaceConfig :=
  let captured pieces := regex_search pieces ip_details_output in
  mkConfig
    (match captured state_regex with
     | Some state => bool_decide (state = chars "UP")
     | None => found (regex_search up_regex (first_line ip_details_output))
     end)
    (match captured fd_regex with
     | Some fd => bool_decide (fd = chars "on")
     | None => found (regex_search can_fd_regex ip_details_output)
     end)
    (match captured bitrate_regex with Some text => stoi_or_zero text | None => 0 end)
    (match captured sample_point_regex with Some text => stod_or_zero text | None => S754_zero false end)
    (match captured dbitrate_regex with Some text => stoi_or_zero text | None => 0 end)
    (match captured dsample_point_regex with Some text => stod_or_zero text | None => S754_zero false end).

Definition kSamplePointTolerance : F64.t := F64.lit 1 10.

(** [std::fabs(x - y) > kSamplePointTolerance] *)
Definition far (x y : F64.t) : bool := F64.ltb kSamplePointTolerance (SFabs (SFsub 53 1024 x y)).

Definition IsCanConfigMatchingTarget (config : CanInterfaceConfig) (timing : Timing) : bool :=
  if negb (up config) then false
  else if negb (fd_on config) then false
  else if negb (config_bitrate config =? bitrate timing) then false
  else if far (config_sample_point config) (sample_point timing) then false
  else if negb (config_dbitrate config =? dbitrate timing) then false
  else if far (config_dsample_point config) (dsample_point timing) then false
  else true.

Definition BuildCanSetupCommandArgs (ifname : Text) (timing : Timing) : list Text :=
  [chars "ip"; chars "link"; chars "set"; ifname; chars "type"; chars "can";
   chars "bitrate"; int_text (bitrate timing); chars "sample-point"; to_text (sample_point timing);
   chars "fd"; chars "on"; chars "dbitrate"; int_text (dbitrate timing);
   chars "dsample-point"; to_text (dsample_point timing)].
Definition BuildCanUpCommandArgs (ifname : Text) : list Text :=
  [chars "ip"; chars "link"; chars "set"; ifname; chars "up"].
Definition BuildCanDownCommandArgs (ifname : Text) : list Text :=
  [chars "ip"; chars "link"; chars "set"; ifname; chars "down"].
Definition QueryArgs (ifname : Text) : list Text :=
  [chars "ip"; chars "-details"; chars "link"; chars "show"; ifname].

(** What became of a command: whether [RunCommandWithOutput] returns true, and the
    output it has collected. *)
Record CommandResult := mkResult { succeeded : bool; output : Text }.

Inductive SetupError := MissingCapabilities | SetupRefused | UpRefused | NotVerified.

Section Setup.
Context {W : Type} (ip : list Text -> W -> CommandResult * W).

Definition QueryCanDetails (ifname : Text) (w : W) : option CanInterfaceConfig * W :=
  let (r, w) := ip (QueryArgs ifname) w in
  (if succeeded r then Some (ParseCanDetails (output r)) else None, w).

Definition IsCanInterfaceInitialized (ifname : Text) (timing : Timing) (w : W) : bool * W :=
  let (config, w) := QueryCanDetails ifname w in
  (match config with Some config => IsCanConfigMatchingTarget config timing | None => false end, w).

(** [None] is true; an interface that cannot be set down is set up all the same. *)
Definition InitializeCanInterface (ifname : Text) (timing : Timing) (w : W) : option SetupError * W :=
  let (ready, w) := IsCanInterfaceInitialized ifname timing w in
  if ready then (None, w)
  else
    let (_, w) := ip (BuildCanDownCommandArgs ifname) w in
    let (r, w) := ip (BuildCanSetupCommandArgs ifname timing) w in
    if negb (succeeded r) then (Some SetupRefused, w)
    else
      let (r, w) := ip (BuildCanUpCommandArgs ifname) w in
      if negb (succeeded r) then (Some UpRefused, w)
      else
        let (ready, w) := IsCanInterfaceInitialized ifname timing w in
        if negb ready then (Some NotVerified, w) else (None, w).

(** The lines of /proc/self/status, or [None] if it cannot be opened; [std::stoull] in
    base 16 reads a prefix of its text and throws if there is no digit or the number is
    too large. *)
Definition kCapNetAdmin : Z := 12.
Definition kCapNetRaw : Z := 13.

Definition GetEffectiveCapabilities (status : option (list Text)) : option Z :=
  match status with
  | None => None
  | Some lines =>
      match omap (strip (chars "CapEff:" ++ [9]) None) lines with
      | (_, hex_value) :: _ => stoull 16 hex_value
      | [] => None
      end
  end.

Definition HasEffectiveCapability (status : option (list Text)) (capability_bit : Z) : bool :=
  match GetEffectiveCapabilities status with
  | Some caps => negb (caps .& (1 ≪ capability_bit) =? 0)
  | None => false
  end.

Definition HasRequiredRuntimeCapabilities (status : option (list Text)) : bool :=
  HasEffectiveCapability status kCapNetRaw && HasEffectiveCapability status kCapNetAdmin.

Definition EnsureCanInterfaceReady (status : option (list Text)) (ifname : Text) (timing : Timing) (w : W)
    : option SetupError * W :=
  if HasRequiredRuntimeCapabilities status then InitializeCanInterface ifname timing w else (Some MissingCapabilities, w).
End Setup.

(** ** The argument of the broker *)

(** [snprintf] into 128 bytes. *)
Definition FormatCanTiming (timing : Timing) : Text :=
  take 127 (int_text (bitrate timing) ++ [44] ++ to_text (sample_point timing) ++ [44] ++
            int_text (dbitrate timing) ++ [44] ++ to_text (dsample_point timing)).

(** [more] fields that end in a comma, and a last one. *)
Fixpoint parse_fields (more : nat) (text : Text) : option (list F64.t) :=
  match more with
  | O => if (length text =? 0)%nat then None else (fun v => [v]) <$> ParseFiniteDouble text
  | S more =>
      match split_at 44 text with
      | Some (field, rest) =>
          if (length field =? 0)%nat then None
          else match ParseFiniteDouble field with
               | Some v => cons v <$> parse_fields more rest
               | None => None
               end
      | None => None
      end
  end.

Definition integral_in_range (value : F64.t) : bool :=
  F64.ltb (F64.of_Z 0) value && F64.leb value (F64.of_Z INT_MAX) &&
  match SF_trunc value with Some floor => SFeqb (F64.of_Z floor) value | None => false end.

Definition ParseCanTiming (text : Text) : option Timing :=
  match parse_fields 3 text with
  | Some [v0; v1; v2; v3] =>
      if negb (integral_in_range v0) || negb (in_unit v1) || negb (integral_in_range v2) || negb (in_unit v3) then None
      else match cast_i32 v0, cast_i32 v2 with
           | Some bps, Some dbps => Some (mkTiming bps dbps v1 v3)
           | _, _ => None
           end
  | _ => None
  end.

(** ** Examples, of can_socket_setup_test.cc *)

Definition fd_output : Text := chars
"2: can0: <NOARP,UP,LOWER_UP,ECHO> mtu 72 qdisc fq_codel state UP mode DEFAULT group default qlen 10
    link/can  fd on
    bitrate 1000000 sample-point 0.765
    tq 12.5 prop-seg 5 phase-seg1 6 phase-seg2 2 sjw 1
    dbitrate 5000000 dsample-point 0.882
    dtq 12.5 dprop-seg 5 dphase-seg1 6 dphase-seg2 2 dsjw 1
    clock 40000000
".

Definition classic_output : Text := chars
"2: can0: <NOARP,UP,LOWER_UP,ECHO> mtu 16 qdisc fq_codel state UP mode DEFAULT group default qlen 10
    link/can
    bitrate 1000000 sample-point 0.750
    tq 12.5 prop-seg 5 phase-seg1 6 phase-seg2 2 sjw 1
    clock 40000000
".

Definition gs_usb_output : Text := chars
"78: can0: <NOARP,UP,LOWER_UP,ECHO> mtu 72 qdisc pfifo_fast state UNKNOWN mode DEFAULT
    link/can
    can <FD> state ERROR-ACTIVE (berr-counter tx 0 rx 0) restart-ms 0
      bitrate 1000000 sample-point 0.750
      dbitrate 5000000 dsample-point 0.875
".

Example parses_fd :
  ParseCanDetails fd_output = mkConfig true true 1000000 (F64.lit 765 1000) 5000000 (F64.lit 882 1000).
Proof. by vm_compute. Qed.
Example parses_classic :
  ParseCanDetails classic_output = mkConfig true false 1000000 (F64.lit 75 100) 0 (S754_zero false).
Proof. by vm_compute. Qed.
Example parses_gs_usb :
  ParseCanDetails gs_usb_output = mkConfig true true 1000000 (F64.lit 75 100) 5000000 (F64.lit 875 1000) /\
  IsCanConfigMatchingTarget (ParseCanDetails gs_usb_output) CanTiming.default = true.
Proof. by vm_compute. Qed.
Example setup_command :
  BuildCanSetupCommandArgs (chars "can0") CanTiming.default =
  map chars ["ip"; "link"; "set"; "can0"; "type"; "can"; "bitrate"; "1000000"; "sample-point"; "0.765000"; "fd"; "on";
             "dbitrate"; "5000000"; "dsample-point"; "0.882000"]%string.
Proof. by vm_compute. Qed.
Example malformed_arguments :
  map (fun s => ParseCanTiming (chars s))
    [""; "1000000,0.765,5000000"; "1000000,0.765,5000000,0.882,extra"; "abc,0.765,5000000,0.882";
     "0,0.765,5000000,0.882"; "1000000,1.5,5000000,0.882"]%string = replicate 6 None.
Proof. by vm_compute. Qed.
Example other_spellings :
  ParseCanTiming (chars " 1e6,.5,0x4C4B40,+1") = Some (mkTiming 1000000 5000000 (F64.lit 1 2) (F64.of_Z 1)).
Proof. by vm_compute. Qed.

Example capabilities :
  map (fun s => HasRequiredRuntimeCapabilities (Some [chars "Name: driver"; chars "CapEff:" ++ 9 :: chars s]))
    ["000001ffffffffff"; "0x3000"; "1000"; "none"]%string = [true; true; false; false].
Proof. by vm_compute. Qed.

(** ** The setup *)

(** A command interpreter that keeps a record of the commands and whether they
    succeeded. *)
Definition Log := list (list Text * bool).
Definition logged {W} (ip : list Text -> W -> CommandResult * W) (args : list Text) (s : W * Log) : CommandResult * (W * Log) :=
  let (r, w) := ip args s.1 in (r, (w, s.2 ++ [(args, succeeded r)])).

(** The runs of the setup: what is done, and how each of them ends. *)
Inductive setup_run (ifname : Text) (timing : Timing) : option SetupError -> Log -> Prop :=
| RunReady : setup_run ifname timing None [(QueryArgs ifname, true)]
| RunSetupRefused shown downed :
    setup_run ifname timing (Some SetupRefused)
      [(QueryArgs ifname, shown); (BuildCanDownCommandArgs ifname, downed); (BuildCanSetupCommandArgs ifname timing, false)]
| RunUpRefused shown downed :
    setup_run ifname timing (Some UpRefused)
      [(QueryArgs ifname, shown); (BuildCanDownCommandArgs ifname, downed); (BuildCanSetupCommandArgs ifname timing, true);
       (BuildCanUpCommandArgs ifname, false)]
| RunNotVerified shown downed verified :
    setup_run ifname timing (Some NotVerified)
      [(QueryArgs ifname, shown); (BuildCanDownCommandArgs ifname, downed); (BuildCanSetupCommandArgs ifname timing, true);
       (BuildCanUpCommandArgs ifname, true); (QueryArgs ifname, verified)]
| RunConfigured shown downed :
    setup_run ifname timing None
      [(QueryArgs ifname, shown); (BuildCanDownCommandArgs ifname, downed); (BuildCanSetupCommandArgs ifname timing, true);
       (BuildCanUpCommandArgs ifname, true); (QueryArgs ifname, true)].

Section Contract.
Context {W : Type} (ip : list Text -> W -> CommandResult * W) (config_of : W -> CanInterfaceConfig) (ifname : Text) (timing : Timing).

(** What is relied on of [ip]: showing an interface changes nothing and prints its
    configuration. *)
Definition shows : Prop :=
  forall w, (ip (QueryArgs ifname) w).2 = w /\
    (succeeded (ip (QueryArgs ifname) w).1 = true -> ParseCanDetails (output (ip (QueryArgs ifname) w).1) = config_of w).

(** The state after the three commands, and whether they are accepted and take effect. *)
Definition after_commands (w : W) : W :=
  (ip (BuildCanUpCommandArgs ifname)
    (ip (BuildCanSetupCommandArgs ifname timing) (ip (BuildCanDownCommandArgs ifname) w).2).2).2.
Definition accepts (w : W) : Prop :=
  let w1 := (ip (BuildCanDownCommandArgs ifname) w).2 in
  let w2 := (ip (BuildCanSetupCommandArgs ifname timing) w1).2 in
  succeeded (ip (BuildCanSetupCommandArgs ifname timing) w1).1 = true /\ succeeded (ip (BuildCanUpCommandArgs ifname) w2).1 = true.
Definition shown (w : W) : bool := succeeded (ip (QueryArgs ifname) w).1.

Lemma initialized_logged w log :
  shows ->
  IsCanInterfaceInitialized (logged ip) ifname timing (w, log) =
  (shown w && IsCanConfigMatchingTarget (config_of w) timing, (w, log ++ [(QueryArgs ifname, shown w)])).
Proof.
  intros Hs. destruct (Hs w) as (H2 & H1). unfold IsCanInterfaceInitialized, QueryCanDetails, logged, shown in *. cbn [fst snd].
  destruct (ip (QueryArgs ifname) w) as [r w']. cbn [fst snd] in *. subst. destruct (succeeded r); [|done]. by rewrite H1.
Qed.
End Contract.

(** Bringing a SocketCAN interface up: it runs one of five sequences of [ip] commands,
    and succeeds only if the interface has been seen up, with CAN FD, at the two rates
    and near the two sample points asked for; an interface that is so already is not
    touched, and one that accepts and applies the commands ends ready. *)
Theorem can_interface_ready {W} (ip : list Text -> W -> CommandResult * W) config_of ifname timing w :
  shows ip config_of ifname ->
  let '(e, (w', log)) := InitializeCanInterface (logged ip) ifname timing (w, []) in
  setup_run ifname timing e log /\
  (e = None -> IsCanConfigMatchingTarget (config_of w') timing = true) /\
  (shown ip ifname w = true -> IsCanConfigMatchingTarget (config_of w) timing = true ->
   e = None /\ w' = w /\ log = [(QueryArgs ifname, true)]) /\
  (accepts ip ifname timing w -> shown ip ifname (after_commands ip ifname timing w) = true ->
   IsCanConfigMatchingTarget (config_of (after_commands ip ifname timing w)) timing = true -> e = None).
Proof.
  intros Hs. unfold InitializeCanInterface. rewrite (initialized_logged ip config_of) by done.
  destruct (shown ip ifname w) eqn:Hshown, (IsCanConfigMatchingTarget (config_of w) timing) eqn:Hm; cbn [andb].
  1: { split_and!; try done. constructor. }
  all: unfold accepts, after_commands, logged at 1; cbn [fst snd app].
  all: destruct (ip (BuildCanDownCommandArgs ifname) w) as [rd wd].
  all: unfold logged at 1; cbn [fst snd app]; destruct (ip (BuildCanSetupCommandArgs ifname timing) wd) as [rs ws].
  all: destruct (succeeded rs) eqn:Es; cbn [negb fst snd].
  all: try (split_and!; [constructor|done|done|by intros [? ?]; congruence]).
  all: unfold logged at 1; cbn [fst snd app]; destruct (ip (BuildCanUpCommandArgs ifname) ws) as [ru wu].
  all: destruct (succeeded ru) eqn:Eu; cbn [negb fst snd].
  all: try (split_and!; [constructor|done|done|by intros [? ?]; congruence]).
  all: rewrite (initialized_logged ip config_of) by done; cbn [app].
  all: destruct (shown ip ifname wu) eqn:Hu, (IsCanConfigMatchingTarget (config_of wu) timing) eqn:Hmu; cbn [andb negb].
  all: split_and!; try done; try congruence; by constructor; auto.
Qed.

(** An interface that is set up as it was asked to. *)
Definition example_ip (args : list Text) (ready : bool) : CommandResult * bool :=
  if bool_decide (args = QueryArgs (chars "can0")) then (mkResult true (if ready then fd_output else classic_output), ready)
  else if bool_decide (args = BuildCanDownCommandArgs (chars "can0")) then (mkResult true [], false)
  else (mkResult true [], true).

Lemma can_interface_ready_witness :
  shows example_ip (fun ready => ParseCanDetails (if ready then fd_output else classic_output)) (chars "can0") /\
  (InitializeCanInterface (logged example_ip) (chars "can0") CanTiming.default (false, [])).1 = None.
Proof.
  assert (shows example_ip (fun ready => ParseCanDetails (if ready then fd_output else classic_output)) (chars "can0")) as Hs by (intros []; done).
  split; [done|]. pose proof (can_interface_ready example_ip _ (chars "can0") CanTiming.default false Hs) as H.
  destruct (InitializeCanInterface _ _ _ _) as [e [w' log]]. destruct H as (_ & _ & _ & H). apply H; by vm_compute.
Defined.

(** ** The timing through the argument *)

Lemma of_Z_exact p :
  Zpos p < 2 ^ 53 ->
  exists m, binary_round 53 1024 false p 0 = S754_finite false m (Zpos (digits2_pos p) - 53) /\
    Zpos m = Zpos p * 2 ^ (53 - Zpos (digits2_pos p)) /\ Zpos (digits2_pos p) <= 53.
Proof.
  intros Hp. pose proof (digits2_pos_bounds p) as Hd.
  assert (Zpos (digits2_pos p) <= 53) as Hle.
  { destruct (Z.le_gt_cases (Zpos (digits2_pos p)) 53) as [|Hgt]; [done|].
    pose proof (Z.pow_le_mono_r 2 53 (Zpos (digits2_pos p) - 1)). lia. }
  unfold binary_round, shl_align, fexp, SpecFloat.emin.
  replace (Z.max (Zpos (digits2_pos p) + 0 - 53) (3 - 1024 - 53) - 0) with (Zpos (digits2_pos p) - 53) by lia.
  destruct (Zpos (digits2_pos p) - 53) as [|q|q] eqn:E; [|lia|].
  - exists p. rewrite round_exact by lia. split_and!; [done| |done]. replace (53 - Zpos (digits2_pos p)) with 0 by lia. lia.
  - replace (Z.max (Zpos (digits2_pos p) + 0 - 53) (3 - 1024 - 53)) with (Zneg q) by lia.
    exists (Pos.iter xO p q). rewrite round_exact; [|done|rewrite digits2_shift; lia|lia].
    split_and!; [done| |done]. rewrite shift_value. f_equal. f_equal. lia.
Qed.

Lemma finite_leb m k e e' :
  e <= e' -> (e = e' -> Zpos m <= Zpos k) -> F64.leb (S754_finite false m e) (S754_finite false k e') = true.
Proof.
  intros He Hm. unfold F64.leb, SFleb, SFcompare. destruct (Z.compare_spec e e') as [He'|He'|He']; [|done|lia].
  specialize (Hm He'). change (match (m ?= k)%positive with Gt => false | _ => true end = true).
  change ((m ?= k)%positive <> Gt) in Hm. by destruct (m ?= k)%positive.
Qed.

(** An [int] is a double, and none is above the double of [INT_MAX]. *)
Lemma int_double n :
  1 <= n <= INT_MAX ->
  nearest false n 1 = F64.of_Z n /\ range_error (F64.of_Z n) n 1 = false /\ integral_in_range (F64.of_Z n) = true /\
  cast_i32 (F64.of_Z n) = Some n.
Proof.
  intros Hn. destruct n as [|p|p]; [lia| |lia]. unfold INT_MAX in Hn.
  destruct (of_Z_exact p) as (m & Hm & Hv & Hd); [lia|].
  assert (F64.of_Z (Zpos p) = S754_finite false m (Zpos (digits2_pos p) - 53)) as Hf by exact Hm.
  pose proof (digits2_pos_bounds p) as Hb. set (d := Zpos (digits2_pos p)) in *.
  assert (d <= 31) as Hd31. { destruct (Z.le_gt_cases d 31); [done|]. pose proof (Z.pow_le_mono_r 2 31 (d - 1)). lia. }
  assert (SF_trunc (F64.of_Z (Zpos p)) = Some (Zpos p)) as Ht.
  { rewrite Hf. cbn [SF_trunc]. destruct (d - 53) as [|q|q] eqn:E; [lia|lia|]. rewrite Hv. replace (53 - d) with (Zpos q) by lia.
    by rewrite Z.div_mul by (apply Z.pow_nonzero; lia). }
  split_and!.
  - done.
  - rewrite Hf. unfold range_error. rewrite Hv. replace (- (d - 53)) with (53 - d) by lia. rewrite Z.mul_1_r, Z.eqb_refl. apply andb_false_r.
  - unfold integral_in_range. rewrite Ht, Hf.
    assert (F64.ltb (F64.of_Z 0) (S754_finite false m (d - 53)) = true) as -> by done.
    assert (F64.leb (S754_finite false m (d - 53)) (F64.of_Z INT_MAX) = true) as ->.
    { change (F64.of_Z INT_MAX) with (S754_finite false 9007199250546688 (-22)). apply finite_leb; [lia|].
      intros He. rewrite Hv. replace (53 - d) with 22 by lia. lia. }
    unfold SFeqb, SFcompare. by rewrite Z.compare_refl, Pos.compare_refl.
  - unfold cast_i32, SF_cast. rewrite Ht. by replace ((-2147483648 <=? Zpos p) && (Zpos p <=? 2147483647)) with true by lia.
Qed.

Lemma int_field n : 1 <= n <= INT_MAX -> ParseFiniteDouble (decimal n) = Some (F64.of_Z n).
Proof.
  intros Hn. destruct (decimal_shape n ltac:(lia)) as (c & rest & Ed & Hc & Hacc & Hall).
  destruct (accumulate_value _ _ _ Hacc) as (Hds & Hv). rewrite Ed in *. apply list.Forall_cons in Hall as [Hcd Hall].
  assert (c <> 48) as Hc48.
  { destruct rest; [|by apply Hc]. cbn in Hv. intros ->. lia. }
  assert (scan_double (c :: rest) = Some (false, n, 1)) as Hscan.
  { unfold scan_double. cbn [skip_spaces]. replace (is_space c) with false by (unfold is_space; lia).
    assert (scan_sign (c :: rest) = (false, c :: rest)) as ->.
    { unfold scan_sign. destruct c as [|c|c]; [done| |done]. repeat (destruct c as [c|c|]; try done). all: lia. }
    assert (scan_mantissa decimal_digit 10 (c :: rest) = Some (n, 1, [])) as Hman.
    { unfold scan_mantissa. rewrite Hds. cbn [map app length Nat.eqb]. rewrite app_nil_r. unfold value_of. by rewrite <- Hv. }
    rewrite Hman. cbn [scan_exponent]. rewrite !Z.mul_1_r.
    destruct c as [|c|c]; [done| |done]. repeat (destruct c as [c|c|]; try done). }
  unfold ParseFiniteDouble. rewrite Hscan. destruct (int_double n Hn) as (-> & -> & _). done.
Qed.

(** What a sample point of [n] thousandths does: printed, it has eight characters and no
    comma, and it is read back as itself. *)
#[local] Instance spec_float_eq_dec : EqDecision spec_float.
Proof. solve_decision. Defined.

Definition point_ok (x : F64.t) : bool :=
  (length (to_text x) =? 8)%nat && forallb (fun c => negb (c =? 44)) (to_text x) &&
  bool_decide (ParseFiniteDouble (to_text x) = Some x) && in_unit x.

Lemma thousandths_ok : forallb (fun n => point_ok (F64.lit (Z.of_nat n) 1000)) (seq 1 1000) = true.
Proof. by vm_compute. Qed.

Lemma thousandth_ok n :
  1 <= n <= 1000 ->
  let x := F64.lit n 1000 in
  length (to_text x) = 8%nat /\ (44 ∉ to_text x) /\ ParseFiniteDouble (to_text x) = Some x /\ in_unit x = true.
Proof.
  intros Hn. pose proof thousandths_ok as H. rewrite forallb_forall in H.
  specialize (H (Z.to_nat n)). rewrite in_seq, Z2Nat.id in H by lia. specialize (H ltac:(lia)).
  unfold point_ok in H. rewrite !andb_true_iff, bool_decide_eq_true, Nat.eqb_eq, forallb_forall in H.
  destruct H as [[[Hl Hc] Hp] Hu]. cbv zeta. split_and!; try done.
  intros Hin. apply list_elem_of_In in Hin. by specialize (Hc _ Hin).
Qed.

Lemma decimal_length n : (length (decimal n) <= 10)%nat.
Proof.
  unfold decimal. generalize 10%nat as fuel. intros fuel. revert n. induction fuel as [|fuel IH]; intros n; [cbn; lia|].
  rewrite decimal_loop_eq. destruct (n <? 10); [cbn; lia|]. rewrite length_app. cbn [length]. specialize (IH (n / 10)). lia.
Qed.

Lemma decimal_no_comma n : 0 <= n <= INT_MAX -> 44 ∉ decimal n.
Proof.
  intros Hn Hin. destruct (decimal_shape n Hn) as (_ & _ & _ & _ & _ & Hall).
  rewrite list.Forall_forall in Hall. specialize (Hall _ Hin). lia.
Qed.

Lemma decimal_nonempty n : 0 <= n <= INT_MAX -> (length (decimal n) =? 0)%nat = false.
Proof. intros Hn. destruct (decimal_shape n Hn) as (c & rest & -> & _). done. Qed.

(** One field in front of others. *)
Lemma parse_field more field rest v :
  44 ∉ field -> (length field =? 0)%nat = false -> ParseFiniteDouble field = Some v ->
  parse_fields (S more) (field ++ [44] ++ rest) = (cons v <$> parse_fields more rest).
Proof.
  intros Hc Hl Hv. cbn [parse_fields]. assert (split_at 44 (field ++ [44] ++ rest) = Some (field, rest)) as ->.
  { by apply split_before_some. }
  by rewrite Hl, Hv.
Qed.

(** The timing an adapter hands to the broker process as a command-line argument
    arrives unchanged: any two positive rates of an [int], any two sample points that
    are a whole number of thousandths. *)
Lemma can_timing_roundtrip b n db dn :
  1 <= b <= INT_MAX -> 1 <= n <= 1000 -> 1 <= db <= INT_MAX -> 1 <= dn <= 1000 ->
  let timing := mkTiming b db (F64.lit n 1000) (F64.lit dn 1000) in
  ParseCanTiming (FormatCanTiming timing) = Some timing.
Proof.
  intros Hb Hn Hdb Hdn. cbv zeta.
  destruct (thousandth_ok n Hn) as (Hl & Hc & Hp & Hu), (thousandth_ok dn Hdn) as (Hdl & Hdc & Hdp & Hdu).
  destruct (int_double b Hb) as (_ & _ & Hi & Hcast), (int_double db Hdb) as (_ & _ & Hdi & Hdcast).
  unfold FormatCanTiming. cbn [bitrate dbitrate sample_point dsample_point]. unfold int_text.
  replace (b <? 0) with false by lia. replace (db <? 0) with false by lia.
  rewrite take_ge.
  2: { rewrite !length_app. cbn [length]. pose proof (decimal_length b). pose proof (decimal_length db). lia. }
  unfold ParseCanTiming.
  rewrite (parse_field _ (decimal b) _ (F64.of_Z b)) by first [apply decimal_no_comma; lia | apply decimal_nonempty; lia | by apply int_field].
  rewrite (parse_field _ (to_text _) _ (F64.lit n 1000)) by first [done | by rewrite Hl].
  rewrite (parse_field _ (decimal db) _ (F64.of_Z db)) by first [apply decimal_no_comma; lia | apply decimal_nonempty; lia | by apply int_field].
  cbn [parse_fields]. rewrite Hdl, Hdp. cbn [Nat.eqb fmap option_fmap option_map].
  by rewrite Hi, Hdi, Hu, Hdu, Hcast, Hdcast.
Qed.

Lemma can_timing_roundtrip_witness :
  ParseCanTiming (FormatCanTiming CanTiming.default) = Some CanTiming.default.
Proof. apply (can_timing_roundtrip 1000000 765 5000000 882); unfold INT_MAX; lia. Defined.

(** A valid sample point below half a millionth is printed as zero, which the broker
    refuses. *)
Example tiny_sample_point :
  let timing := mkTiming 1000000 5000000 (F64.lit 4 10000000) (F64.lit 882 1000) in
  in_unit (sample_point timing) = true /\ ParseCanTiming (FormatCanTiming timing) = None.
Proof. by vm_compute. Qed.
